(* ===== verification/_CoqProject ===== *)
-Q . S2P
Prelude.v
Ring.v
Riscv.v
Memory.v
Spinlock.v
Kalloc.v
Vm.v
Pagetable.v
Uvm.v
Uspace.v
Freewalk.v
Uvmcopy.v
Copy.v
Aspace.v
Tty.v
Proc.v
ProcSpec.v
ProcMem.v
AllocProc.v
Sleeplock.v
Turn.v
Uart.v
UartThm.v
Console.v
ConsThm.v
Pipe.v
PipeThm.v
Dll.v
Bio.v
Virtio.v
BioSpec.v
BioThm.v
VirtioThm.v
Block.v
Log.v
LogCrash.v
LogSpec.v
LogOps.v
Txn.v
LogThm.v
Fs.v
FsSpec.v
FsBlock.v
FsFile.v
FsWrite.v
FsRead.v
FsThm.v
File.v
Sysarg.v
Exec.v
Sysfile.v
Sysproc.v
Trap.v
Asm.v
AsmThm.v
TrapThm.v
Umalloc.v
UmallocThm.v
User.v
Utils.v
Grind.v
UserSem.v
GrepThm.v
Sh.v
ShThm.v
ShRun.v
Mkfs.v
MkfsSpec.v
MkfsThm.v
