(* ===== verification/Prelude.v ===== *)
(** * A model of the xv6 teaching kernel (kernel/, user/, mkfs/)

    xv6 is a small Unix for RISC-V multiprocessors: a kernel with paged
    virtual memory, processes, pipes and a crash-safe file system; the user
    programs that run on it, a shell among them; and mkfs, which makes the
    file system image on the host.  This library translates that code into
    Rocq functions and proves what the parts promise to each other.

    ** How code is modelled

    Kernel code is a function of a small monad [M S A] over the state [S] of
    its component: it returns ([Ok]), calls [panic], spins, runs out of the
    bound of a loop that may wait for ever ([OutOfFuel]), or switches to the
    scheduler ([Swtch]), keeping the rest of its computation.  The state of a
    component is a record with the C globals as fields; the state of the layer
    above has that record as a field, and [zoom] runs lower code in it through
    a lens.  Integers keep their width ([u8] ... [u64], [s32]); memory is a map
    from addresses to bytes, in which page tables, free lists and trapframes
    are the bytes that the code writes.  User programs are trees of system
    calls (User.v), run by two interpreters (UserSem.v, ShRun.v).  Assembly is
    a list of instructions of a hart (Asm.v).

    ** The parts and their files

    - Prelude (this file): the monad, lenses, loops, machine integers, tactics
      and hints.  Ring, Dll, Block: ring buffers, linked lists and integers
      inside a block, as data structures of their own.
    - Machine: Riscv (param.h, riscv.h, memlayout.h), Memory (string.c), Asm
      and AsmThm (entry.S, start.c, kernelvec.S, swtch.S, trampoline.S and the
      register accessors of riscv.h).
    - Locks: Spinlock (spinlock.c, also as steps of several harts), Sleeplock
      (sleeplock.c), Turn (a sleeping process and the scheduler).
    - Memory management: Kalloc (kalloc.c); Vm (vm.c); Pagetable, Uvm, Uspace,
      Freewalk, Uvmcopy, Copy, Aspace (trees of page tables, their operations
      and the life of an address space).
    - Processes: Proc, ProcSpec, ProcMem, AllocProc (proc.c); Sysproc (fork,
      exit, userinit, sysproc.c and the dispatcher of syscall.c); Sysarg
      (arguments of system calls), Exec (exec.c), Trap (trap.c, plic.c,
      main.c), TrapThm (usertrapret with the trampoline).
    - Console: Tty, Uart, UartThm, Console, ConsThm (uart.c, console.c,
      printf.c).
    - Storage: Virtio, VirtioThm (virtio_disk.c); Bio, BioSpec, BioThm (bio.c,
      against the class [DiskDriver] with its laws [DiskLaws]); Log, LogCrash,
      LogSpec, LogOps, Txn, LogThm (log.c); Fs, FsSpec, FsBlock, FsFile,
      FsWrite, FsRead, FsThm (fs.c); File, Pipe, PipeThm, Sysfile (file.c,
      pipe.c, sysfile.c).
    - User space: User (ulib.c, printf.c), Umalloc, UmallocThm (umalloc.c),
      Utils and Grind (the programs), UserSem and GrepThm (grep.c), Sh, ShThm,
      ShRun (sh.c).
    - mkfs: Mkfs, MkfsSpec, MkfsThm (mkfs.c).

    ** What is shown

    - Storage, from the disk up.  A transfer of the virtio driver completes,
      moves the bytes and returns its descriptors; [bread] returns the bytes of
      the block with the buffer locked, whatever the cache held; a transaction
      of the log survives a crash at any of its disk writes entirely or not at
      all, and is on the disk once the last [end_op] returns; [balloc] and
      [bfree] hand out and take back blocks of the bitmap; [bmap], [writei] and
      [readi] change and read the bytes of a file and no other block; and the
      image that mkfs makes satisfies the hypotheses of those theorems, so
      that the kernel reads back from it the files it was made from.
    - Memory.  The allocator never hands out a page twice or loses one; an
      address space owns its page tables and pages, gives all of them back
      when it is freed, and the copies of fork are equal and apart; copyin,
      copyout and copyinstr reach exactly the bytes that the user may reach;
      the hardware's translation is the one that [walk] computes.
    - Processes and traps.  Mutual exclusion of spinlocks over interleaved
      harts; the contract of [sleep]; allocation and freeing of processes
      without a leak, also when memory runs out; traps from user and kernel
      mode and context switches keep every register; what usertrapret leaves
      in the trapframe takes the process to user space and its next trap back
      to its own kernel stack; every hart boots into [main] and gets its timer
      interrupts from then on.
    - Input and output.  Pipes and the transmit buffer are bounded queues; the
      console edits a line; printf prints what its format says.
    - User space.  malloc and free keep blocks apart; the shell's parser ends,
      recognises its grammar and runs the processes that a line says; grep
      prints the lines that match; the generator of grind has full period.

    Where the code does not do what its text means it to (the reservation of
    the log, the lost byte of a pipe, long lines in grep, large requests to
    malloc, a full root directory), a theorem or lemma shows the case.

    ** Parameters, bounds and fuel

    What lies outside the source is a class with laws, and every theorem about
    it has an instance in its example: the addresses of the linker ([Image],
    [BootImage]), the devices ([DiskDriver], [VirtioMmio], the bytes the UART
    receives), the host of mkfs ([Host]), and what a read of user input
    returns ([Chunks]).  A loop over data has fuel that is the size of the data
    (a page range, the characters of a line), and its theorems show that it is
    enough.  A loop that waits for another process or device is bounded by
    [Patience]; the theorems that promise a result ask for a bound that the
    progress of the other side makes sufficient, and [Rounds] bounds the
    reading loops of user programs in the same way.

    ** Not modelled

    - user/usertests.c: a test suite that passes unmapped and overflowing raw
      addresses to system calls, while the calls of a user program carry the
      bytes of their buffers.
    - kernel/ramdisk.c, which is not compiled and refers to fields that no
      longer exist; the declarations of kernel/defs.h and types.h; the stubs
      that usys.pl generates; user/initcode.S, whose bytes are the array in
      proc.c.
    - Instruction fetch, caches, the TLB and the accessed and dirty bits of
      page-table entries; harts run C code one at a time, except in the
      steps of the spinlock; the C stack is not bounded.  The system calls of
      Sysfile, Sysproc and Exec and, usertrapret apart, the functions of Trap
      are translated and compose the parts above, but have no theorems of
      their own. *)

From Stdlib Require Export ZArith Lia.
From stdpp Require Export base gmap strings numbers fin vector finite list.
#[global] Open Scope Z_scope.

(** ** Machine integers

    C's unsigned types wrap: an [uint64] expression is its value modulo
    [2^64], an [uint] modulo [2^32], and a conversion to [int] takes the
    low 32 bits in two's complement. *)

Definition u8 (n : Z) : Z := n mod 2 ^ 8.
Definition u16 (n : Z) : Z := n mod 2 ^ 16.
Definition u32 (n : Z) : Z := n mod 2 ^ 32.
Definition u64 (n : Z) : Z := n mod 2 ^ 64.

Definition signed (w n : Z) : Z :=
  let m := n mod 2 ^ w in if m <? 2 ^ (w - 1) then m else m - 2 ^ w.
Definition s8 (n : Z) : Z := signed 8 n.
Definition s16 (n : Z) : Z := signed 16 n.
Definition s32 (n : Z) : Z := signed 32 n.

(** C's truth value of an expression of integer type. *)
Definition nz (n : Z) : bool := negb (n =? 0).

(** ** Outcomes of kernel code

    A piece of kernel code run in a state either returns ([Ok]), calls
    [panic], spins forever ([Spin]: the hart waits for a lock that another
    hart holds, or polls a device that never answers), exhausts the bound
    given to a loop that may wait any number of times ([OutOfFuel]), or
    switches to the scheduler ([Swtch]).  A switch keeps the rest of the
    computation: it goes on from whatever state the kernel is in when the
    process is scheduled again. *)

Inductive out (S A : Type) : Type :=
| Ok (a : A) (s : S)
| Panic (msg : string)
| Spin
| OutOfFuel
| Swtch (s : S) (k : S -> out S A).
Arguments Ok {S A} a s.
Arguments Panic {S A} msg.
Arguments Spin {S A}.
Arguments OutOfFuel {S A}.
Arguments Swtch {S A} s k.

Definition M (S A : Type) : Type := S -> out S A.

Fixpoint obind {S A B : Type} (o : out S A) (f : A -> S -> out S B) : out S B :=
  match o with
  | Ok a s => f a s
  | Panic msg => Panic msg
  | Spin => Spin
  | OutOfFuel => OutOfFuel
  | Swtch s k => Swtch s (fun s' => obind (k s') f)
  end.

Definition ret {S A : Type} (a : A) : M S A := fun s => Ok a s.
Definition bind {S A B : Type} (m : M S A) (f : A -> M S B) : M S B :=
  fun s => obind (m s) f.
Definition panic {S A : Type} (msg : string) : M S A := fun _ => Panic msg.
(** A step to which C gives no meaning, such as an index out of range. *)
Definition undefined {S A : Type} : M S A := panic "undefined behaviour".
Definition gets {S A : Type} (f : S -> A) : M S A := fun s => Ok (f s) s.
Definition modify {S : Type} (f : S -> S) : M S unit := fun s => Ok tt (f s).

Declare Scope xv6_scope.
Delimit Scope xv6_scope with xv6.
Notation "x <- m ;; k" := (bind m (fun x => k))
  (at level 100, m at next level, right associativity) : xv6_scope.
Notation "m ;; k" := (bind m (fun _ => k))
  (at level 100, k at level 200, right associativity) : xv6_scope.
#[global] Open Scope xv6_scope.

(** ** Loops

    [for_each l body] runs [body] on the elements of [l] in order: [None]
    goes on to the next one, [Some r] leaves the loop with [r] (a [break],
    a [goto] or a [return] inside it). *)
Fixpoint for_each {S I R : Type} (l : list I) (body : I -> M S (option R)) :
    M S (option R) :=
  match l with
  | [] => ret None
  | i :: l' =>
      r <- body i ;;
      match r with
      | Some _ => ret r
      | None => for_each l' body
      end
  end.

(** A loop that runs [body] on every element. *)
Fixpoint iterM {S I : Type} (l : list I) (body : I -> M S unit) : M S unit :=
  match l with
  | [] => ret tt
  | i :: l' => body i ;; iterM l' body
  end.

(** [loop fuel body x] iterates [body] from [x]: [inl x'] is another
    iteration, [inr r] leaves the loop.  [fuel] bounds the iterations. *)
Fixpoint loop {S X R : Type} (fuel : nat) (body : X -> M S (X + R)) (x : X) : M S R :=
  match fuel with
  | O => fun _ => OutOfFuel
  | Datatypes.S n =>
      r <- body x ;;
      match r with
      | inl x' => loop n body x'
      | inr r' => ret r'
      end
  end.

Arguments loop : simpl never.

(** ** Lenses

    A component's state is a record; the state of the component above it has
    that record as a field.  [zoom] runs the lower component's code in the
    upper component's state. *)
Record lens (S T : Type) := Lens {
  view : S -> T;
  put : T -> S -> S
}.
Arguments Lens {S T} view put.
Arguments view {S T} l s.
Arguments put {S T} l t s.

Class LensLaws {S T : Type} (l : lens S T) : Prop := {
  view_put : forall t s, view l (put l t s) = t;
  put_view : forall s, put l (view l s) s = s;
  put_put : forall t t' s, put l t (put l t' s) = put l t s
}.

(** Two lenses onto separate parts of a state. *)
Class LensDisjoint {S T U : Type} (l : lens S T) (k : lens S U) : Prop := {
  view_put_l : forall u s, view l (put k u s) = view l s;
  view_put_r : forall t s, view k (put l t s) = view k s;
  put_comm : forall t u s, put l t (put k u s) = put k u (put l t s)
}.

Definition lcomp {S T U : Type} (l : lens S T) (k : lens T U) : lens S U :=
  Lens (fun s => view k (view l s)) (fun u s => put l (put k u (view l s)) s).

#[export] Instance lcomp_laws {S T U : Type} (l : lens S T) (k : lens T U) `{!LensLaws l} `{!LensLaws k} :
  LensLaws (lcomp l k).
Proof.
  split; cbn; intros.
  - by rewrite !view_put.
  - by rewrite !put_view.
  - by rewrite view_put, !put_put.
Qed.

#[export] Instance lcomp_disjoint_l {S T U V : Type} (l : lens S T) (l' : lens S V) (k : lens T U)
    `{!LensDisjoint l l'} : LensDisjoint (lcomp l k) l' | 20.
Proof.
  split; cbn; intros.
  - by rewrite (view_put_l (l := l) (k := l')).
  - by rewrite (view_put_r (l := l) (k := l')).
  - by rewrite (view_put_l (l := l) (k := l')), (put_comm (l := l) (k := l')).
Qed.

#[export] Instance lcomp_disjoint_r {S T U V : Type} (l : lens S T) (l' : lens S V) (k : lens V U)
    `{!LensDisjoint l l'} : LensDisjoint l (lcomp l' k) | 20.
Proof.
  split; cbn; intros.
  - by rewrite (view_put_l (l := l) (k := l')).
  - by rewrite (view_put_r (l := l) (k := l')).
  - by rewrite (view_put_r (l := l) (k := l')), (put_comm (l := l) (k := l')).
Qed.

#[export] Instance lcomp_disjoint_in {S T U V : Type} (l : lens S T) (k : lens T U) (k' : lens T V)
    `{!LensLaws l} `{!LensDisjoint k k'} : LensDisjoint (lcomp l k) (lcomp l k') | 10.
Proof.
  split; cbn; intros; rewrite ?view_put, ?put_put.
  - by rewrite (view_put_l (l := k) (k := k')).
  - by rewrite (view_put_r (l := k) (k := k')).
  - by rewrite (put_comm (l := k) (k := k')).
Qed.

(** An element of a fixed-size array. *)
#[global] Arguments fun_to_vec : simpl never.
#[global] Arguments vinsert : simpl never.
#[global] Arguments lookup_total : simpl never.
#[global] Arguments enum : simpl never.

Definition vec_l {A : Type} {n : nat} (i : fin n) : lens (vec A n) A :=
  Lens (fun v => v !!! i) (fun a v => vinsert i a v).

#[export] Instance vec_laws {A : Type} {n : nat} (i : fin n) : LensLaws (vec_l (A := A) i).
Proof.
  split; cbn; intros.
  - apply vlookup_insert.
  - apply vec_eq. intros j. destruct (decide (i = j)) as [->|?].
    + by rewrite vlookup_insert.
    + by rewrite vlookup_insert_ne.
  - apply vec_eq. intros j. destruct (decide (i = j)) as [->|?].
    + by rewrite !vlookup_insert.
    + by rewrite !vlookup_insert_ne.
Qed.

Fixpoint zoom_out {S T A : Type} (l : lens S T) (s : S) (o : out T A) : out S A :=
  match o with
  | Ok a t => Ok a (put l t s)
  | Panic msg => Panic msg
  | Spin => Spin
  | OutOfFuel => OutOfFuel
  | Swtch t k => Swtch (put l t s) (fun s' => zoom_out l s' (k (view l s')))
  end.

Definition zoom {S T A : Type} (l : lens S T) (m : M T A) : M S A :=
  fun s => zoom_out l s (m (view l s)).

(** Lens access as monadic code: read or update one field. *)
Definition get {S T : Type} (l : lens S T) : M S T := gets (view l).
Definition set {S T : Type} (l : lens S T) (t : T) : M S unit := modify (put l t).
Definition update {S T : Type} (l : lens S T) (f : T -> T) : M S unit :=
  modify (fun s => put l (f (view l s)) s).

(** Evaluation stops at the first step that is not a primitive of the monad. *)
Arguments ret {S A} a s /.
Arguments bind {S A B} m f s /.
Arguments panic {S A} msg s /.
Arguments gets {S A} f s /.
Arguments modify {S} f s /.
Arguments zoom {S T A} l m s /.
Arguments get {S T} l s /.
Arguments set {S T} l t s /.
Arguments update {S T} l f s /.
Arguments lcomp {S T U} l k /.

(** ** Reasoning about outcomes *)

Lemma bind_ok {S A B : Type} (m : M S A) (f : A -> M S B) s a s' :
  m s = Ok a s' -> bind m f s = f a s'.
Proof. unfold bind. by intros ->. Qed.

Lemma bind_panic {S A B : Type} (m : M S A) (f : A -> M S B) s msg :
  m s = Panic msg -> bind m f s = Panic msg.
Proof. unfold bind. by intros ->. Qed.

Lemma bind_inv {S A B : Type} (m : M S A) (f : A -> M S B) s b s' :
  bind m f s = Ok b s' -> exists a s1, m s = Ok a s1 /\ f a s1 = Ok b s'.
Proof.
  unfold bind. destruct (m s) as [a s1|msg| | |s1 k]; cbn; try discriminate.
  eauto.
Qed.

Lemma zoom_ok {S T A : Type} (l : lens S T) (m : M T A) s a t :
  m (view l s) = Ok a t -> zoom l m s = Ok a (put l t s).
Proof. unfold zoom. by intros ->. Qed.

Lemma zoom_panic {S T A : Type} (l : lens S T) (m : M T A) s msg :
  m (view l s) = Panic msg -> zoom l m s = Panic msg.
Proof. unfold zoom. by intros ->. Qed.

Lemma zoom_inv {S T A : Type} (l : lens S T) (m : M T A) s a s' :
  zoom l m s = Ok a s' -> exists t, m (view l s) = Ok a t /\ s' = put l t s.
Proof.
  unfold zoom. destruct (m (view l s)) as [a1 t|msg| | |t k]; cbn; try discriminate.
  intros [= <- <-]. eauto.
Qed.

(** [zoom] of code that does nothing. *)
Lemma zoom_ret {S T A : Type} (l : lens S T) `{!LensLaws l} (a : A) s : zoom l (ret a) s = Ok a s.
Proof. unfold zoom. cbn. by rewrite put_view. Qed.

Lemma zoom_if {S T A : Type} (l : lens S T) `{!LensLaws l} (b : bool) (m : M T A) (a : A) s :
  (if b then zoom l m else ret a) s = zoom l (if b then m else ret a) s.
Proof. destruct b; [done|]. by rewrite zoom_ret. Qed.

Lemma loop_S {S X R : Type} n (body : X -> M S (X + R)) x s :
  loop (Datatypes.S n) body x s =
  obind (body x s) (fun r => match r with inl x' => loop n body x' | inr r' => ret r' end).
Proof. done. Qed.

Lemma for_each_app {S I R : Type} (l1 l2 : list I) (body : I -> M S (option R)) s s1 :
  for_each l1 body s = Ok None s1 ->
  for_each (l1 ++ l2) body s = for_each l2 body s1.
Proof.
  revert s. induction l1 as [|i l1 IH]; cbn [for_each app]; intros s.
  - by intros [= ->].
  - intros H. apply bind_inv in H as (r & s2 & E & H).
    rewrite (bind_ok _ _ _ _ _ E). destruct r; [by inversion H|auto].
Qed.

(** Follow one step of the code whose outcome is known. *)
Ltac mstep H :=
  first [ rewrite (bind_ok _ _ _ _ _ H) | rewrite (bind_panic _ _ _ _ H) | rewrite H ].

(** Evaluate the primitives of the monad, and nothing else. *)
Ltac mcbn :=
  cbn [bind obind ret gets modify panic get set update view put zoom zoom_out lcomp].

(** Take an [Ok] execution apart, step by step. *)
Ltac minv H :=
  let a := fresh "a" in
  let s := fresh "s" in
  let E := fresh "E" in
  apply bind_inv in H as (a & s & E & H).

(** Case analysis on the tests of the code. *)
Ltac case_if :=
  match goal with
  | |- context [if ?b then _ else _] => destruct b eqn:?
  end.
Ltac case_if_in H :=
  match type of H with
  | context [if ?b then _ else _] => destruct b eqn:?
  end.

(** Boolean comparisons on [Z] as propositions. *)
Ltac zb :=
  repeat match goal with
  | H : _ && _ = true |- _ => apply andb_true_iff in H as [? ?]
  | H : _ || _ = false |- _ => apply orb_false_iff in H as [? ?]
  | H : negb _ = true |- _ => apply negb_true_iff in H
  | H : negb _ = false |- _ => apply negb_false_iff in H
  | H : (_ =? _) = true |- _ => apply Z.eqb_eq in H
  | H : (_ =? _) = false |- _ => apply Z.eqb_neq in H
  | H : (_ <? _) = true |- _ => apply Z.ltb_lt in H
  | H : (_ <? _) = false |- _ => apply Z.ltb_ge in H
  | H : (_ <=? _) = true |- _ => apply Z.leb_le in H
  | H : (_ <=? _) = false |- _ => apply Z.leb_gt in H
  end.

(** Linear arithmetic with division and remainder. *)
Ltac dlia := Z.div_mod_to_equations; lia.

(** ** Integers *)

Create HintDb xv6.

Lemma u64_small n : 0 <= n < 2 ^ 64 -> u64 n = n.
Proof. apply Z.mod_small. Qed.
Lemma u32_small n : 0 <= n < 2 ^ 32 -> u32 n = n.
Proof. apply Z.mod_small. Qed.
Lemma u64_range n : 0 <= u64 n < 2 ^ 64.
Proof. apply Z.mod_pos_bound. lia. Qed.
Lemma u32_range n : 0 <= u32 n < 2 ^ 32.
Proof. apply Z.mod_pos_bound. lia. Qed.
Lemma s32_small n : - 2 ^ 31 <= n < 2 ^ 31 -> s32 n = n.
Proof.
  intros H. unfold s32, signed. change (2 ^ (32 - 1)) with (2 ^ 31).
  destruct (Z.ltb_spec (n mod 2 ^ 32) (2 ^ 31)); dlia.
Qed.
Lemma s32_range n : - 2 ^ 31 <= s32 n < 2 ^ 31.
Proof.
  unfold s32, signed. change (2 ^ (32 - 1)) with (2 ^ 31).
  pose proof (Z.mod_pos_bound n (2 ^ 32) ltac:(lia)).
  destruct (Z.ltb_spec (n mod 2 ^ 32) (2 ^ 31)); lia.
Qed.

Lemma lor_range n a b : 0 <= n -> 0 <= a < 2 ^ n -> 0 <= b < 2 ^ n -> 0 <= Z.lor a b < 2 ^ n.
Proof.
  intros Hn Ha Hb. enough (Z.lor a b = Z.lor a b mod 2 ^ n) as ->.
  { apply Z.mod_pos_bound. lia. }
  rewrite <- Z.land_ones, Z.land_lor_distr_l, !Z.land_ones, !Z.mod_small by done. done.
Qed.

Lemma land_range n a b : 0 <= n -> 0 <= a < 2 ^ n -> 0 <= Z.land a b < 2 ^ n.
Proof.
  intros Hn Ha. enough (Z.land a b = Z.land a b mod 2 ^ n) as ->.
  { apply Z.mod_pos_bound. lia. }
  rewrite <- Z.land_ones, <- Z.land_assoc, (Z.land_comm b), Z.land_assoc by done.
  by rewrite Z.land_ones, (Z.mod_small a) by done.
Qed.

#[export] Hint Resolve u64_range u32_range s32_range : xv6.

(** ** Lists *)

Lemma Forall_elem {A : Type} (P : A -> Prop) l x : Forall P l -> x ∈ l -> P x.
Proof. rewrite Forall_forall. auto. Qed.

(** Membership in concatenated lists. *)
Ltac lelem :=
  repeat first [rewrite elem_of_app in * | rewrite elem_of_cons in * | rewrite elem_of_nil in *];
  tauto.
Ltac lelemc :=
  repeat first [rewrite elem_of_app in * | rewrite elem_of_cons in * | rewrite elem_of_nil in *];
  intuition congruence.

(** ** Total maps

    A finite map with a default value at every other key; the entries are
    kept different from the default, so that equal maps are equal terms. *)

Section Tmap.
Context {A : Type} `{EqDecision A} `{Inhabited A}.

Definition tmap_ok (m : gmap Z A) : bool := bool_decide (map_Forall (fun _ x => x <> inhabitant) m).

Record tmap := Tmap { tm : gmap Z A; tm_ok : tmap_ok tm = true }.

Definition tm_set (k : Z) (x : A) (m : gmap Z A) : gmap Z A :=
  if decide (x = inhabitant) then delete k m else <[k := x]> m.

Lemma tm_set_ok k x m : tmap_ok m = true -> tmap_ok (tm_set k x m) = true.
Proof.
  unfold tmap_ok, tm_set. rewrite !bool_decide_eq_true. intros Hm. case_decide.
  - by apply map_Forall_delete.
  - by apply map_Forall_insert_2.
Qed.

Definition tmap_l (k : Z) : lens tmap A :=
  Lens (fun m => default inhabitant (m.(tm) !! k)) (fun x m => Tmap (tm_set k x m.(tm)) (tm_set_ok k x _ m.(tm_ok))).

Definition tmap0 : tmap := Tmap ∅ (bool_decide_eq_true_2 _ (map_Forall_empty _)).

Lemma tmap_eq (m m' : tmap) : m.(tm) = m'.(tm) -> m = m'.
Proof. destruct m as [m H1], m' as [m' H2]. cbn. intros ->. f_equal. apply (proof_irrel _). Qed.

#[export] Instance tmap_laws k : LensLaws (tmap_l k).
Proof.
  split; cbn.
  - intros x m. unfold tm_set. case_decide as Hx; subst.
    + by rewrite lookup_delete_eq.
    + by rewrite lookup_insert_eq.
  - intros m. apply tmap_eq. cbn. unfold tm_set. pose proof m.(tm_ok) as Hm.
    apply bool_decide_eq_true in Hm. destruct (tm m !! k) as [x|] eqn:E; cbn.
    + rewrite decide_False by by eapply Hm. by rewrite insert_id.
    + rewrite decide_True by done. by apply delete_id.
  - intros x x' m. apply tmap_eq. cbn. unfold tm_set. apply map_eq. intros j.
    destruct (decide (j = k)) as [->|?]; repeat case_decide;
      by rewrite ?lookup_delete_eq, ?lookup_insert_eq, ?lookup_delete_ne, ?lookup_insert_ne,
           ?lookup_delete_ne, ?lookup_insert_ne by done.
Qed.
End Tmap.
Arguments tmap A {_ _}.
