(* ===== verification/Ring.v ===== *)
(** * Ring buffers

    The kernel's buffers between interrupt handlers and processes (the pipe,
    the transmit buffer of the UART, the console's input line) are arrays of
    [size] bytes with counters that only grow, wrapping at [m], the range of
    their C type.  The bytes between two counters are a queue. *)

From S2P Require Import Prelude.

Section Ring.
Context (size m : Z).

Definition rlen (r w : Z) : Z := (w - r) mod m.
Definition rbyte (d : list Z) (r : Z) (k : nat) : Z := d !!! Z.to_nat ((r + Z.of_nat k) mod size).
Definition rqueue (d : list Z) (r w : Z) : list Z := rbyte d r <$> seq 0 (Z.to_nat (rlen r w)).

Record ring_ok (d : list Z) (r w : Z) : Prop := {
  ro_data : length d = Z.to_nat size;
  ro_r : 0 <= r < m;
  ro_w : 0 <= w < m;
  ro_len : rlen r w <= size
}.

Hypothesis Hsize : 0 < size < m.
Hypothesis Hdiv : (size | m).

Lemma rlen_range r w : 0 <= rlen r w < m.
Proof. apply Z.mod_pos_bound. lia. Qed.

Lemma length_rqueue d r w : Z.of_nat (length (rqueue d r w)) = rlen r w.
Proof. unfold rqueue. rewrite length_fmap, length_seq. pose proof (rlen_range r w). lia. Qed.

Lemma ring_slot x : (Z.to_nat (x mod size) < Z.to_nat size)%nat.
Proof. pose proof (Z.mod_pos_bound x size ltac:(lia)). lia. Qed.

Lemma mod_mod_size x : (x mod m) mod size = x mod size.
Proof. by apply Z.mod_mod_divide. Qed.

(** Tests on the counters. *)
Lemma ring_empty r w : 0 <= r < m -> 0 <= w < m -> (r =? w) = (rlen r w =? 0).
Proof.
  intros Hr Hw. apply eq_true_iff_eq. rewrite !Z.eqb_eq. unfold rlen. split; [intros ->; by rewrite Z.sub_diag|].
  intros E. apply Z.mod_divide in E as [k E]; [|lia]. assert (k = 0) by nia. lia.
Qed.

Lemma rlen_full r w : 0 <= r < m -> 0 <= w < m -> (w =? (r + size) mod m) = (rlen r w =? size).
Proof.
  intros Hr Hw. apply eq_true_iff_eq. rewrite !Z.eqb_eq. unfold rlen. split.
  - intros ->. rewrite Zminus_mod_idemp_l. replace (r + size - r) with size by lia. apply Z.mod_small. lia.
  - intros <-. rewrite Zplus_mod_idemp_r. replace (r + (w - r)) with w by lia. symmetry. by apply Z.mod_small.
Qed.

(** ** Adding a byte *)

Lemma rlen_push r w : rlen r w < size -> rlen r ((w + 1) mod m) = rlen r w + 1.
Proof.
  intros Hl. pose proof (rlen_range r w). unfold rlen in *. rewrite Zminus_mod_idemp_l.
  replace (w + 1 - r) with (w - r + 1) by lia. rewrite <- Zplus_mod_idemp_l. apply Z.mod_small. lia.
Qed.

(** The slot of the next byte is none of the queue's. *)
Lemma slot_fresh r w k :
  rlen r w < size -> 0 <= k < size -> (r + k) mod size = w mod size -> k = rlen r w.
Proof.
  intros Hl Hk E. pose proof (rlen_range r w) as Hr. unfold rlen in *.
  assert (Ew : (w - r) mod size = k mod size).
  { rewrite Zminus_mod, <- E, <- Zminus_mod. f_equal. lia. }
  rewrite <- mod_mod_size in Ew. rewrite (Z.mod_small ((w - r) mod m)), (Z.mod_small k) in Ew by lia. lia.
Qed.

Lemma slot_next r w : rlen r w <= size -> (r + rlen r w) mod size = w mod size.
Proof.
  intros _. unfold rlen. rewrite <- Zplus_mod_idemp_r, mod_mod_size, Zplus_mod_idemp_r. f_equal. lia.
Qed.

Lemma ring_push d r w c :
  ring_ok d r w -> rlen r w < size ->
  ring_ok (<[Z.to_nat (w mod size) := c]> d) r ((w + 1) mod m) /\
  rqueue (<[Z.to_nat (w mod size) := c]> d) r ((w + 1) mod m) = rqueue d r w ++ [c].
Proof.
  intros [Hd Hr Hw Hl] Hlt. pose proof (rlen_push r w Hlt) as Ep. split.
  - split; [by rewrite length_insert|done|apply Z.mod_pos_bound; lia|lia].
  - unfold rqueue. rewrite Ep. pose proof (rlen_range r w).
    replace (Z.to_nat (rlen r w + 1)) with (S (Z.to_nat (rlen r w))) by lia.
    rewrite seq_S, fmap_app. cbn [fmap list_fmap]. f_equal.
    + apply list_fmap_ext. intros i k Hk%lookup_seq. unfold rbyte.
      rewrite list_lookup_total_insert_ne; [done|]. intros E.
      assert ((r + Z.of_nat k) mod size = w mod size) as E'.
      { pose proof (Z.mod_pos_bound (r + Z.of_nat k) size ltac:(lia)).
        pose proof (Z.mod_pos_bound w size ltac:(lia)). lia. }
      apply slot_fresh in E'; lia.
    + f_equal. unfold rbyte. cbn [Nat.add]. rewrite Z2Nat.id, slot_next by lia.
      apply list_lookup_total_insert_eq. rewrite Hd. apply ring_slot.
Qed.

(** ** Taking one *)

Lemma ring_pop d r w :
  ring_ok d r w -> 0 < rlen r w ->
  ring_ok d ((r + 1) mod m) w /\ rlen ((r + 1) mod m) w = rlen r w - 1 /\
  rqueue d r w = d !!! Z.to_nat (r mod size) :: rqueue d ((r + 1) mod m) w.
Proof.
  intros [Hd Hr Hw Hl] Hlt. assert (Ep : rlen ((r + 1) mod m) w = rlen r w - 1).
  { pose proof (rlen_range r w). unfold rlen in *. rewrite Zminus_mod_idemp_r.
    replace (w - (r + 1)) with (w - r - 1) by lia. rewrite <- Zminus_mod_idemp_l. apply Z.mod_small. lia. }
  split_and!; [|done|].
  - split; [done|apply Z.mod_pos_bound; lia|done|lia].
  - unfold rqueue. rewrite Ep. replace (Z.to_nat (rlen r w)) with (S (Z.to_nat (rlen r w - 1))) by lia.
    cbn [seq fmap list_fmap]. f_equal.
    + unfold rbyte. do 3 f_equal. lia.
    + rewrite <- seq_shift. change (map S ?l) with (S <$> l). rewrite <- list_fmap_compose.
      apply list_fmap_ext. intros i k _. unfold rbyte, compose. do 2 f_equal.
      rewrite <- (Zplus_mod_idemp_l ((r + 1) mod m)), mod_mod_size, Zplus_mod_idemp_l. f_equal. lia.
Qed.

(** ** Taking the last one back *)

Lemma ring_unpush d r w :
  ring_ok d r w -> 0 < rlen r w ->
  ring_ok d r ((w - 1) mod m) /\ rlen r ((w - 1) mod m) = rlen r w - 1 /\
  rqueue d r w = rqueue d r ((w - 1) mod m) ++ [d !!! Z.to_nat ((w - 1) mod m mod size)].
Proof.
  intros [Hd Hr Hw Hl] Hlt. assert (Ep : rlen r ((w - 1) mod m) = rlen r w - 1).
  { pose proof (rlen_range r w). unfold rlen in *. rewrite Zminus_mod_idemp_l.
    replace (w - 1 - r) with (w - r - 1) by lia. rewrite <- Zminus_mod_idemp_l. apply Z.mod_small. lia. }
  split_and!; [|done|].
  - split; [done|done|apply Z.mod_pos_bound; lia|lia].
  - unfold rqueue. rewrite Ep. replace (Z.to_nat (rlen r w)) with (S (Z.to_nat (rlen r w - 1))) by lia.
    rewrite seq_S, fmap_app. cbn [fmap list_fmap]. do 2 f_equal. unfold rbyte. cbn [Nat.add].
    rewrite Z2Nat.id, mod_mod_size by lia. do 2 f_equal.
    replace (r + (rlen r w - 1)) with (r + rlen r w - 1) by lia.
    rewrite <- Zminus_mod_idemp_l, slot_next, Zminus_mod_idemp_l by lia. done.
Qed.

(** ** Two adjacent queues *)

Lemma ring_split d r w e :
  rlen r w + rlen w e = rlen r e -> rqueue d r e = rqueue d r w ++ rqueue d w e.
Proof.
  intros E. pose proof (rlen_range r w). pose proof (rlen_range w e). unfold rqueue.
  replace (Z.to_nat (rlen r e)) with (Z.to_nat (rlen r w) + Z.to_nat (rlen w e))%nat by lia.
  rewrite seq_app, fmap_app. f_equal. rewrite Nat.add_0_l, <- (Nat.add_0_r (Z.to_nat (rlen r w))), <- fmap_add_seq.
  rewrite <- list_fmap_compose. apply list_fmap_ext. intros i k _. unfold rbyte, compose. do 2 f_equal.
  replace (r + Z.of_nat (Z.to_nat (rlen r w) + k)) with (r + rlen r w + Z.of_nat k) by lia.
  rewrite <- Zplus_mod_idemp_l. unfold rlen at 1. rewrite <- (Zplus_mod_idemp_r ((w - r) mod m)), mod_mod_size,
    Zplus_mod_idemp_r. replace (r + (w - r)) with w by lia. apply Zplus_mod_idemp_l.
Qed.

(** Writing the slot of the next byte does not change an earlier queue. *)
Lemma ring_other d r w e c :
  rlen r w <= rlen r e -> rlen r e < size ->
  rqueue (<[Z.to_nat (e mod size) := c]> d) r w = rqueue d r w.
Proof.
  intros Hw He. pose proof (rlen_range r w). unfold rqueue. apply list_fmap_ext. intros i k Hk%lookup_seq.
  unfold rbyte. rewrite list_lookup_total_insert_ne; [done|]. intros E.
  assert ((r + Z.of_nat k) mod size = e mod size) as E'.
  { pose proof (Z.mod_pos_bound (r + Z.of_nat k) size ltac:(lia)).
    pose proof (Z.mod_pos_bound e size ltac:(lia)). lia. }
  apply slot_fresh in E'; lia.
Qed.

End Ring.
