(* ===== verification/Riscv.v ===== *)
(** * The machine: constants, address arithmetic and hart state

    Models kernel/param.h, kernel/riscv.h and kernel/memlayout.h: the
    parameters of the kernel, the Sv39 page-table macros with their bit
    arithmetic, the layout of the address spaces, and the registers of one
    hart (core) together with the kernel's per-CPU record of it. *)

From S2P Require Import Prelude.

(** ** kernel/param.h *)

Definition NPROC : Z := 64.
Definition NCPU : Z := 8.
Definition NOFILE : Z := 16.
Definition NFILE : Z := 100.
Definition NINODE : Z := 50.
Definition NDEV : Z := 10.
Definition ROOTDEV : Z := 1.
Definition MAXARG : Z := 32.
Definition MAXOPBLOCKS : Z := 10.
Definition LOGSIZE : Z := MAXOPBLOCKS * 3.
Definition NBUF : Z := MAXOPBLOCKS * 3.
Definition FSSIZE : Z := 2000.
Definition MAXPATH : Z := 128.

(** ** Pages and page-table entries (kernel/riscv.h) *)

Definition PGSIZE : Z := 4096.
Definition PGSHIFT : Z := 12.

Definition PGROUNDUP (sz : Z) : Z := Z.land (u64 (sz + PGSIZE - 1)) (Z.lnot (PGSIZE - 1)).
Definition PGROUNDDOWN (a : Z) : Z := Z.land a (Z.lnot (PGSIZE - 1)).

Definition PTE_V : Z := Z.shiftl 1 0.
Definition PTE_R : Z := Z.shiftl 1 1.
Definition PTE_W : Z := Z.shiftl 1 2.
Definition PTE_X : Z := Z.shiftl 1 3.
Definition PTE_U : Z := Z.shiftl 1 4.

Definition PA2PTE (pa : Z) : Z := u64 (Z.shiftl (Z.shiftr pa 12) 10).
Definition PTE2PA (pte : Z) : Z := u64 (Z.shiftl (Z.shiftr pte 10) 12).
Definition PTE_FLAGS (pte : Z) : Z := Z.land pte 0x3FF.

Definition PXMASK : Z := 0x1FF.
Definition PXSHIFT (level : Z) : Z := PGSHIFT + 9 * level.
Definition PX (level va : Z) : Z := Z.land (Z.shiftr va (PXSHIFT level)) PXMASK.

Definition MAXVA : Z := Z.shiftl 1 (9 + 9 + 9 + 12 - 1).

Definition SATP_SV39 : Z := Z.shiftl 8 60.
Definition MAKE_SATP (pagetable : Z) : Z := Z.lor SATP_SV39 (Z.shiftr pagetable 12).

(** ** Physical memory layout (kernel/memlayout.h) *)

Definition UART0 : Z := 0x10000000.
Definition UART0_IRQ : Z := 10.
Definition VIRTIO0 : Z := 0x10001000.
Definition VIRTIO0_IRQ : Z := 1.
Definition CLINT : Z := 0x2000000.
Definition CLINT_MTIMECMP (hartid : Z) : Z := CLINT + 0x4000 + 8 * hartid.
Definition CLINT_MTIME : Z := CLINT + 0xBFF8.
Definition PLIC : Z := 0x0c000000.
Definition PLIC_SENABLE (hart : Z) : Z := PLIC + 0x2080 + hart * 0x100.
Definition PLIC_SPRIORITY (hart : Z) : Z := PLIC + 0x201000 + hart * 0x2000.
Definition PLIC_SCLAIM (hart : Z) : Z := PLIC + 0x201004 + hart * 0x2000.
Definition KERNBASE : Z := 0x80000000.
Definition PHYSTOP : Z := KERNBASE + 128 * 1024 * 1024.
Definition TRAMPOLINE : Z := MAXVA - PGSIZE.
Definition KSTACK (p : Z) : Z := TRAMPOLINE - (p + 1) * 2 * PGSIZE.
Definition TRAPFRAME : Z := TRAMPOLINE - PGSIZE.

(** ** Hart state

    The supervisor registers the kernel reads and writes through the inline
    assembly of kernel/riscv.h, and [struct cpu] of kernel/proc.h for this
    hart: the running process (an index into the process table), the depth
    of [push_off] nesting and whether interrupts were enabled before it. *)

Definition SSTATUS_SPP : Z := Z.shiftl 1 8.
Definition SSTATUS_SPIE : Z := Z.shiftl 1 5.
Definition SSTATUS_UPIE : Z := Z.shiftl 1 4.
Definition SSTATUS_SIE : Z := Z.shiftl 1 1.
Definition SSTATUS_UIE : Z := Z.shiftl 1 0.

Record hart := Hart {
  tp : Z;
  sstatus : Z;
  sip : Z;
  sepc : Z;
  scause : Z;
  stval : Z;
  stvec : Z;
  satp : Z;
  cpu_proc : option (fin 64);
  noff : Z;
  intena : Z
}.

Definition with_sstatus (x : Z) (h : hart) : hart :=
  Hart h.(tp) x h.(sip) h.(sepc) h.(scause) h.(stval) h.(stvec) h.(satp)
       h.(cpu_proc) h.(noff) h.(intena).
Definition with_sip (x : Z) (h : hart) : hart :=
  Hart h.(tp) h.(sstatus) x h.(sepc) h.(scause) h.(stval) h.(stvec) h.(satp)
       h.(cpu_proc) h.(noff) h.(intena).
Definition with_sepc (x : Z) (h : hart) : hart :=
  Hart h.(tp) h.(sstatus) h.(sip) x h.(scause) h.(stval) h.(stvec) h.(satp)
       h.(cpu_proc) h.(noff) h.(intena).
Definition with_stvec (x : Z) (h : hart) : hart :=
  Hart h.(tp) h.(sstatus) h.(sip) h.(sepc) h.(scause) h.(stval) x h.(satp)
       h.(cpu_proc) h.(noff) h.(intena).
Definition with_satp (x : Z) (h : hart) : hart :=
  Hart h.(tp) h.(sstatus) h.(sip) h.(sepc) h.(scause) h.(stval) h.(stvec) x
       h.(cpu_proc) h.(noff) h.(intena).
Definition with_cpu_proc (p : option (fin 64)) (h : hart) : hart :=
  Hart h.(tp) h.(sstatus) h.(sip) h.(sepc) h.(scause) h.(stval) h.(stvec) h.(satp)
       p h.(noff) h.(intena).
Definition with_noff (n : Z) (h : hart) : hart :=
  Hart h.(tp) h.(sstatus) h.(sip) h.(sepc) h.(scause) h.(stval) h.(stvec) h.(satp)
       h.(cpu_proc) n h.(intena).
Definition with_intena (n : Z) (h : hart) : hart :=
  Hart h.(tp) h.(sstatus) h.(sip) h.(sepc) h.(scause) h.(stval) h.(stvec) h.(satp)
       h.(cpu_proc) h.(noff) n.

Definition intr_on (h : hart) : hart := with_sstatus (Z.lor h.(sstatus) SSTATUS_SIE) h.
Definition intr_off (h : hart) : hart :=
  with_sstatus (Z.land h.(sstatus) (Z.lnot SSTATUS_SIE)) h.
Definition intr_get (h : hart) : bool := nz (Z.land h.(sstatus) SSTATUS_SIE).

(** [cpuid] of kernel/proc.c: [int id = r_tp()]. *)
Definition cpuid (h : hart) : Z := s32 h.(tp).

(** ** Lemmas *)

(** Decide by computation on the constants, then by linear arithmetic. *)
Ltac unfold_consts :=
  unfold KSTACK, PXSHIFT, PGSHIFT in *;
  change MAXVA with 274877906944 in *; change TRAMPOLINE with 274877902848 in *;
  change TRAPFRAME with 274877898752 in *; change PGSIZE with 4096 in *;
  change KERNBASE with 2147483648 in *; change PHYSTOP with 2281701376 in *;
  change PTE_V with 1 in *; change PTE_R with 2 in *; change PTE_W with 4 in *;
  change PTE_X with 8 in *; change PTE_U with 16 in *; change PXMASK with 511 in *;
  change LOGSIZE with 30 in *; change NBUF with 30 in *; change MAXOPBLOCKS with 10 in *;
  unfold NPROC, NCPU, NOFILE, NFILE, NINODE, NDEV, FSSIZE, MAXPATH, MAXARG in *.
Ltac clia := unfold_consts; lia.
Ltac cdlia := unfold_consts; dlia.

Lemma land_lnot_ones a n : 0 <= n -> Z.land a (Z.lnot (Z.ones n)) = a - a mod 2 ^ n.
Proof.
  intros Hn. rewrite <- Z.land_ones by done.
  rewrite <- Z.ldiff_land.
  pose proof (Z.lor_ldiff_and a (Z.ones n)) as H.
  assert (Hd : Z.land (Z.ldiff a (Z.ones n)) (Z.land a (Z.ones n)) = 0).
  { apply Z.bits_inj'. intros i Hi.
    rewrite !Z.land_spec, Z.ldiff_spec, Z.bits_0.
    destruct (Z.testbit a i), (Z.testbit (Z.ones n) i); done. }
  rewrite <- (Z.lxor_lor _ _ Hd), <- (Z.add_nocarry_lxor _ _ Hd) in H. lia.
Qed.

Lemma PGROUNDDOWN_spec a : PGROUNDDOWN a = a - a mod PGSIZE.
Proof. exact (land_lnot_ones a 12 ltac:(lia)). Qed.

Lemma PGROUNDUP_spec sz :
  0 <= sz -> sz + PGSIZE <= 2 ^ 64 ->
  PGROUNDUP sz = PGSIZE * ((sz + PGSIZE - 1) / PGSIZE).
Proof.
  intros H1 H2. unfold PGROUNDUP. rewrite u64_small by clia.
  change (Z.lnot (PGSIZE - 1)) with (Z.lnot (Z.ones 12)).
  rewrite land_lnot_ones by lia. cdlia.
Qed.

Lemma PX_spec level va : 0 <= level -> PX level va = (va / 2 ^ (12 + 9 * level)) mod 512.
Proof.
  intros H. unfold PX, PXMASK, PXSHIFT, PGSHIFT.
  change 0x1FF with (Z.ones 9). rewrite Z.land_ones by lia.
  rewrite Z.shiftr_div_pow2 by lia. done.
Qed.

Lemma PX_range level va : 0 <= level -> 0 <= PX level va < 512.
Proof. intros H. rewrite PX_spec by done. apply Z.mod_pos_bound. lia. Qed.

(** The three indices and the page offset determine a virtual address. *)
Lemma va_decompose va :
  0 <= va < MAXVA ->
  va = PX 2 va * 2 ^ 30 + PX 1 va * 2 ^ 21 + PX 0 va * 2 ^ 12 + va mod PGSIZE.
Proof.
  intros H. rewrite !PX_spec by lia.
  change (2 ^ (12 + 9 * 2)) with (2 ^ 30). change (2 ^ (12 + 9 * 1)) with (2 ^ 21).
  change (2 ^ (12 + 9 * 0)) with (2 ^ 12).
  change MAXVA with (2 ^ 38) in H. unfold PGSIZE.
  assert (E1 : va / 2 ^ 21 = va / 2 ^ 12 / 512) by (rewrite Z.div_div by lia; done).
  assert (E2 : va / 2 ^ 30 = va / 2 ^ 12 / 512 / 512) by (rewrite !Z.div_div by lia; done).
  rewrite E1, E2. dlia.
Qed.

Lemma PX_inj va va' :
  0 <= va < MAXVA -> 0 <= va' < MAXVA -> va mod PGSIZE = va' mod PGSIZE ->
  PX 2 va = PX 2 va' -> PX 1 va = PX 1 va' -> PX 0 va = PX 0 va' -> va = va'.
Proof.
  intros H H' Hm H2 H1 H0. rewrite (va_decompose va H), (va_decompose va' H').
  congruence.
Qed.

(** A page-table entry made from a page-aligned address and flag bits gives
    both back. *)
Definition page_aligned (a : Z) : Prop := a mod PGSIZE = 0.

Lemma shift_pa pa : page_aligned pa -> Z.shiftl (Z.shiftr pa 12) 10 = pa / 4.
Proof.
  unfold page_aligned. intros H. rewrite Z.shiftl_mul_pow2, Z.shiftr_div_pow2 by lia. cdlia.
Qed.

Lemma PA2PTE_spec pa : page_aligned pa -> 0 <= pa < 2 ^ 56 -> PA2PTE pa = 2 ^ 10 * (pa / PGSIZE).
Proof.
  intros Ha Hr. unfold PA2PTE. rewrite shift_pa by done.
  unfold page_aligned in Ha. rewrite u64_small; cdlia.
Qed.

Lemma lor_flags k f : 0 <= k -> 0 <= f < 2 ^ 10 -> Z.lor (2 ^ 10 * k) f = 2 ^ 10 * k + f.
Proof.
  intros Hk Hf.
  assert (Hd : Z.land (2 ^ 10 * k) f = 0).
  { apply Z.bits_inj'. intros i Hi. rewrite Z.land_spec, Z.bits_0.
    destruct (Z.lt_ge_cases i 10).
    - rewrite Z.mul_comm, Z.mul_pow2_bits_low by lia. done.
    - replace (Z.testbit f i) with false; [apply andb_false_r|].
      symmetry. apply Z.testbit_false; [done|].
      rewrite Z.div_small; [done|]. split; [lia|].
      apply Z.lt_le_trans with (2 ^ 10); [lia|]. apply Z.pow_le_mono_r; lia. }
  rewrite <- (Z.lxor_lor _ _ Hd), <- (Z.add_nocarry_lxor _ _ Hd). done.
Qed.

Lemma PTE2PA_PA2PTE pa f :
  page_aligned pa -> 0 <= pa < 2 ^ 56 -> 0 <= f < 2 ^ 10 ->
  PTE2PA (Z.lor (PA2PTE pa) f) = pa.
Proof.
  intros Ha Hr Hf. rewrite PA2PTE_spec by done.
  rewrite lor_flags by (try done; apply Z.div_pos; clia).
  unfold PTE2PA. rewrite Z.shiftl_mul_pow2, Z.shiftr_div_pow2 by lia.
  unfold page_aligned in Ha. rewrite u64_small; cdlia.
Qed.

Lemma PTE_FLAGS_PA2PTE pa f :
  page_aligned pa -> 0 <= pa < 2 ^ 56 -> 0 <= f < 2 ^ 10 ->
  PTE_FLAGS (Z.lor (PA2PTE pa) f) = f.
Proof.
  intros Ha Hr Hf. rewrite PA2PTE_spec by done.
  rewrite lor_flags by (try done; apply Z.div_pos; clia).
  unfold PTE_FLAGS. change 0x3FF with (Z.ones 10). rewrite Z.land_ones by lia. dlia.
Qed.

Lemma PTE_range pa f :
  page_aligned pa -> 0 <= pa < 2 ^ 56 -> 0 <= f < 2 ^ 10 ->
  0 <= Z.lor (PA2PTE pa) f < 2 ^ 54.
Proof.
  intros Ha Hr Hf. rewrite PA2PTE_spec by done.
  rewrite lor_flags by (try done; apply Z.div_pos; clia). cdlia.
Qed.

(** Flag bits below bit 10 are read from the flags of an entry. *)
Lemma land_flag pte b :
  0 <= b < 10 -> Z.land pte (Z.shiftl 1 b) = Z.land (PTE_FLAGS pte) (Z.shiftl 1 b).
Proof.
  intros H. unfold PTE_FLAGS. rewrite <- Z.land_assoc. f_equal.
  change 0x3FF with (Z.ones 10). rewrite Z.land_comm, Z.land_ones by lia.
  rewrite Z.shiftl_mul_pow2, Z.mul_1_l by lia. symmetry. apply Z.mod_small.
  split; [apply Z.pow_nonneg; lia|]. apply Z.pow_lt_mono_r; lia.
Qed.

(** [intr_on] undoes [intr_off] when interrupts were on; [intr_off] does
    nothing when they were off. *)
Lemma intr_get_testbit h : intr_get h = Z.testbit h.(sstatus) 1.
Proof.
  unfold intr_get, nz. change SSTATUS_SIE with (2 ^ 1).
  destruct (Z.testbit (sstatus h) 1) eqn:E.
  - apply negb_true_iff, Z.eqb_neq. intros H.
    apply (f_equal (fun z => Z.testbit z 1)) in H.
    rewrite Z.land_spec, E, Z.pow2_bits_true in H by lia. done.
  - apply negb_false_iff, Z.eqb_eq, Z.bits_inj'. intros i Hi.
    rewrite Z.land_spec, Z.pow2_bits_eqb, Z.bits_0 by lia.
    destruct (Z.eqb_spec 1 i); subst; [by rewrite E|apply andb_false_r].
Qed.

Lemma intr_on_off h : intr_get h = true -> intr_on (intr_off h) = h.
Proof.
  rewrite intr_get_testbit. destruct h. cbn [sstatus]. intros E.
  unfold intr_on, intr_off, with_sstatus.
  cbn [tp sstatus sip sepc scause stval stvec satp cpu_proc noff intena]. f_equal.
  change SSTATUS_SIE with (2 ^ 1). apply Z.bits_inj'. intros i Hi.
  rewrite Z.lor_spec, Z.land_spec, Z.lnot_spec, Z.pow2_bits_eqb by lia.
  destruct (Z.eqb_spec 1 i); subst; [by rewrite E, orb_true_r|].
  by rewrite andb_true_r, orb_false_r.
Qed.

Lemma intr_off_id h : intr_get h = false -> intr_off h = h.
Proof.
  rewrite intr_get_testbit. destruct h. cbn [sstatus]. intros E.
  unfold intr_off, with_sstatus.
  cbn [tp sstatus sip sepc scause stval stvec satp cpu_proc noff intena]. f_equal.
  change SSTATUS_SIE with (2 ^ 1). apply Z.bits_inj'. intros i Hi.
  rewrite Z.land_spec, Z.lnot_spec, Z.pow2_bits_eqb by lia.
  destruct (Z.eqb_spec 1 i); subst; [by rewrite E|]. by rewrite andb_true_r.
Qed.

Lemma intr_get_off h : intr_get (intr_off h) = false.
Proof.
  rewrite intr_get_testbit. cbn [intr_off intr_on with_sstatus sstatus]. change SSTATUS_SIE with (2 ^ 1).
  rewrite Z.land_spec, Z.lnot_spec, Z.pow2_bits_true by lia. apply andb_false_r.
Qed.

Lemma intr_get_on h : intr_get (intr_on h) = true.
Proof.
  rewrite intr_get_testbit. cbn [intr_off intr_on with_sstatus sstatus]. change SSTATUS_SIE with (2 ^ 1).
  rewrite Z.lor_spec, Z.pow2_bits_true by lia. apply orb_true_r.
Qed.

#[export] Hint Resolve PX_range : xv6.
