(* ===== verification/Memory.v ===== *)
(** * Byte-addressed memory and kernel/string.c

    Physical memory is a finite map from addresses to byte values; the kernel
    maps it one-to-one, so a kernel pointer is a physical address.  The
    [mem*] functions of kernel/string.c are the C loops over this memory.
    The [str*] functions take character arrays as the list of the bytes from
    the pointer on. *)

From S2P Require Import Prelude Riscv.

Abbreviation mem := (gmap Z Z).

(** ** Bytes and little-endian words *)

Definition rd (m : mem) (a : Z) : Z := u8 (m !!! a).
Definition wr (m : mem) (a v : Z) : mem := <[a := u8 v]> m.

Fixpoint ld_bytes (m : mem) (a : Z) (n : nat) : list Z :=
  match n with
  | O => []
  | S n' => rd m a :: ld_bytes m (a + 1) n'
  end.

Fixpoint st_bytes (m : mem) (a : Z) (l : list Z) : mem :=
  match l with
  | [] => m
  | b :: l' => st_bytes (wr m a b) (a + 1) l'
  end.

Fixpoint le_val (l : list Z) : Z :=
  match l with
  | [] => 0
  | b :: l' => b + 256 * le_val l'
  end.

Fixpoint le_bytes (n : nat) (v : Z) : list Z :=
  match n with
  | O => []
  | S n' => u8 v :: le_bytes n' (v / 256)
  end.

Definition load64 (m : mem) (a : Z) : Z := le_val (ld_bytes m a 8).
Definition store64 (m : mem) (a v : Z) : mem := st_bytes m a (le_bytes 8 v).
Definition load32 (m : mem) (a : Z) : Z := le_val (ld_bytes m a 4).
Definition store32 (m : mem) (a v : Z) : mem := st_bytes m a (le_bytes 4 v).

(** ** kernel/string.c: memory *)

(** [for(i = 0; i < n; i++) cdst[i] = c;] *)
Fixpoint memset_loop (m : mem) (p c : Z) (n : nat) : mem :=
  match n with
  | O => m
  | S n' => memset_loop (wr m p c) (p + 1) c n'
  end.

Definition memset (m : mem) (dst c n : Z) : mem := memset_loop m dst c (Z.to_nat n).

Fixpoint memcmp_loop (m : mem) (s1 s2 : Z) (n : nat) : Z :=
  match n with
  | O => 0
  | S n' =>
      if negb (rd m s1 =? rd m s2) then rd m s1 - rd m s2
      else memcmp_loop m (s1 + 1) (s2 + 1) n'
  end.

Definition memcmp (m : mem) (v1 v2 n : Z) : Z := memcmp_loop m v1 v2 (Z.to_nat n).

(** [while(n-- > 0) *--d = *--s;] *)
Fixpoint memmove_down (m : mem) (d s : Z) (n : nat) : mem :=
  match n with
  | O => m
  | S n' => memmove_down (wr m (d - 1) (rd m (s - 1))) (d - 1) (s - 1) n'
  end.

(** [while(n-- > 0) *d++ = *s++;] *)
Fixpoint memmove_up (m : mem) (d s : Z) (n : nat) : mem :=
  match n with
  | O => m
  | S n' => memmove_up (wr m d (rd m s)) (d + 1) (s + 1) n'
  end.

Definition memmove (m : mem) (dst src n : Z) : mem :=
  if n =? 0 then m
  else if (src <? dst) && (src + n >? dst)
  then memmove_down m (dst + n) (src + n) (Z.to_nat n)
  else memmove_up m dst src (Z.to_nat n).

Definition memcpy (m : mem) (dst src n : Z) : mem := memmove m dst src n.

(** ** kernel/string.c: strings *)

Definition ch (s : list Z) : Z := hd 0 s.

Fixpoint strncmp (p q : list Z) (n : nat) : Z :=
  match n with
  | O => 0
  | S n' =>
      if nz (ch p) && (ch p =? ch q) then strncmp (tl p) (tl q) n'
      else u8 (ch p) - u8 (ch q)
  end.

(** The bytes [strncpy] stores at [s .. s+n). *)
Fixpoint strncpy (t : list Z) (n : nat) : list Z :=
  match n with
  | O => []
  | S n' => if ch t =? 0 then replicate (S n') 0 else ch t :: strncpy (tl t) n'
  end.

(** The bytes [safestrcpy] stores from [s] on; it writes nothing when
    [n <= 0]. *)
Fixpoint safestrcpy_loop (t : list Z) (n : nat) : list Z :=
  match n with
  | O => []
  | S O => [0]
  | S n' => if ch t =? 0 then [0; 0] else ch t :: safestrcpy_loop (tl t) n'
  end.
Definition safestrcpy (t : list Z) (n : Z) : list Z := safestrcpy_loop t (Z.to_nat n).

Fixpoint strlen (s : list Z) : Z :=
  match s with
  | [] => 0
  | c :: s' => if c =? 0 then 0 else 1 + strlen s'
  end.

Arguments rd : simpl never.
Arguments wr : simpl never.
Arguments load64 : simpl never.
Arguments store64 : simpl never.
Arguments load32 : simpl never.
Arguments store32 : simpl never.
Arguments memset : simpl never.
Arguments memmove : simpl never.
Arguments memcmp : simpl never.
#[global] Strategy 100 [rd wr load64 store64 load32 store32 memset memmove memcmp].

(** ** Reading back what was written *)

Definition is_byte (b : Z) : Prop := 0 <= b < 256.

Lemma u8_byte b : is_byte (u8 b).
Proof. unfold is_byte, u8. apply Z.mod_pos_bound. lia. Qed.

Lemma u8_id b : is_byte b -> u8 b = b.
Proof. unfold is_byte, u8. intros. apply Z.mod_small. lia. Qed.

Lemma rd_byte m a : is_byte (rd m a).
Proof. apply u8_byte. Qed.

Lemma rd_wr m a v b : rd (wr m a v) b = if decide (a = b) then u8 v else rd m b.
Proof.
  unfold rd, wr. case_decide as E.
  - subst. rewrite lookup_total_insert_eq. apply u8_id, u8_byte.
  - by rewrite lookup_total_insert_ne.
Qed.

#[export] Hint Resolve u8_byte rd_byte : xv6.

Lemma length_ld_bytes m a n : length (ld_bytes m a n) = n.
Proof. revert a. induction n; cbn; auto. Qed.

Lemma length_le_bytes n v : length (le_bytes n v) = n.
Proof. revert v. induction n; cbn; auto. Qed.

Lemma ld_bytes_byte m a n : Forall is_byte (ld_bytes m a n).
Proof. revert a. induction n; cbn; auto with xv6. Qed.

Lemma le_bytes_byte n v : Forall is_byte (le_bytes n v).
Proof. revert v. induction n; cbn; auto with xv6. Qed.

Lemma lookup_ld_bytes m a n i :
  (i < n)%nat -> ld_bytes m a n !! i = Some (rd m (a + Z.of_nat i)).
Proof.
  revert a i. induction n as [|n IH]; intros a [|i] H; cbn; try lia.
  - by rewrite Z.add_0_r.
  - rewrite IH by lia. do 2 f_equal. lia.
Qed.

(** Memories that agree on a range give the same bytes there. *)
Lemma ld_bytes_ext m m' a n :
  (forall b, a <= b < a + Z.of_nat n -> rd m b = rd m' b) ->
  ld_bytes m a n = ld_bytes m' a n.
Proof.
  revert a. induction n as [|n IH]; intros a H; cbn; [done|]. f_equal.
  - apply H. lia.
  - apply IH. intros b Hb. apply H. lia.
Qed.

Lemma rd_st_bytes m a l b :
  rd (st_bytes m a l) b =
  if decide (a <= b < a + Z.of_nat (length l))
  then u8 (nth (Z.to_nat (b - a)) l 0) else rd m b.
Proof.
  revert m a. induction l as [|x l IH]; intros m a; cbn [st_bytes length].
  - rewrite decide_False by lia. done.
  - rewrite IH, rd_wr.
    destruct (decide (a + 1 <= b < a + 1 + Z.of_nat (length l))) as [H|H].
    + rewrite decide_True by lia.
      replace (Z.to_nat (b - a)) with (S (Z.to_nat (b - (a + 1)))) by lia. done.
    + destruct (decide (a = b)) as [->|Hne].
      * rewrite decide_True by lia. by rewrite Z.sub_diag.
      * by rewrite decide_False by lia.
Qed.

Lemma rd_st_bytes_out m a l b :
  ~ (a <= b < a + Z.of_nat (length l)) -> rd (st_bytes m a l) b = rd m b.
Proof. intros. rewrite rd_st_bytes. by rewrite decide_False. Qed.

Lemma ld_st_bytes m a l :
  Forall is_byte l -> ld_bytes (st_bytes m a l) a (length l) = l.
Proof.
  intros Hb. apply list_eq. intros i.
  destruct (decide (i < length l)%nat) as [H|H].
  - rewrite lookup_ld_bytes by done. rewrite rd_st_bytes, decide_True by lia.
    replace (Z.to_nat (a + Z.of_nat i - a)) with i by lia.
    destruct (lookup_lt_is_Some_2 l i H) as [x Hx].
    rewrite (nth_lookup_Some _ _ 0 _ Hx), Hx, u8_id; [done|].
    by apply (Forall_lookup_1 _ _ _ _ Hb Hx).
  - rewrite !lookup_ge_None_2; [done|lia|]. rewrite length_ld_bytes. lia.
Qed.

Lemma le_val_le_bytes n v : le_val (le_bytes n v) = v mod 256 ^ Z.of_nat n.
Proof.
  revert v. induction n as [|n IH]; intros v.
  - cbn. by rewrite Z.mod_1_r.
  - cbn [le_bytes le_val]. rewrite IH. unfold u8. change (2 ^ 8) with 256.
    rewrite Nat2Z.inj_succ, Z.pow_succ_r by lia.
    rewrite Z.rem_mul_r by lia. done.
Qed.

Lemma le_val_range l : Forall is_byte l -> 0 <= le_val l < 256 ^ Z.of_nat (length l).
Proof.
  induction 1 as [|b l Hb Hl IH]; cbn [le_val length].
  - cbn. lia.
  - unfold is_byte in Hb. rewrite Nat2Z.inj_succ, Z.pow_succ_r by lia. lia.
Qed.

Lemma le_bytes_le_val l : Forall is_byte l -> le_bytes (length l) (le_val l) = l.
Proof.
  induction 1 as [|b l Hb Hl IH]; cbn [le_val le_bytes length]; [done|].
  unfold is_byte in Hb. f_equal.
  - unfold u8. change (2 ^ 8) with 256. dlia.
  - replace ((b + 256 * le_val l) / 256) with (le_val l) by dlia. done.
Qed.

Lemma load64_range m a : 0 <= load64 m a < 2 ^ 64.
Proof.
  pose proof (le_val_range _ (ld_bytes_byte m a 8)) as H.
  rewrite length_ld_bytes in H. exact H.
Qed.

Lemma load32_range m a : 0 <= load32 m a < 2 ^ 32.
Proof.
  pose proof (le_val_range _ (ld_bytes_byte m a 4)) as H.
  rewrite length_ld_bytes in H. exact H.
Qed.

Lemma load64_store64 m a v : load64 (store64 m a v) a = u64 v.
Proof.
  unfold load64, store64. rewrite <- (length_le_bytes 8 v) at 2.
  rewrite ld_st_bytes by apply le_bytes_byte. apply le_val_le_bytes.
Qed.

Lemma load32_store32 m a v : load32 (store32 m a v) a = u32 v.
Proof.
  unfold load32, store32. rewrite <- (length_le_bytes 4 v) at 2.
  rewrite ld_st_bytes by apply le_bytes_byte. apply le_val_le_bytes.
Qed.

Lemma rd_store64 m a v b : ~ (a <= b < a + 8) -> rd (store64 m a v) b = rd m b.
Proof. intros H. apply rd_st_bytes_out. rewrite length_le_bytes. lia. Qed.

Lemma load64_ext m m' a :
  (forall b, a <= b < a + 8 -> rd m b = rd m' b) -> load64 m a = load64 m' a.
Proof. intros H. unfold load64. f_equal. by apply ld_bytes_ext. Qed.

Lemma load64_store64_ne m a v b :
  a + 8 <= b \/ b + 8 <= a -> load64 (store64 m a v) b = load64 m b.
Proof. intros H. apply load64_ext. intros c Hc. apply rd_store64. lia. Qed.

(** Two memories hold the same 64-bit word only if they hold the same bytes. *)
Lemma load64_zero m a : (forall b, a <= b < a + 8 -> rd m b = 0) -> load64 m a = 0.
Proof.
  intros H. unfold load64. cbn [ld_bytes].
  rewrite !H by lia. done.
Qed.

(** ** kernel/string.c *)

Lemma rd_memset m dst c n b :
  0 <= n ->
  rd (memset m dst c n) b = if decide (dst <= b < dst + n) then u8 c else rd m b.
Proof.
  intros Hn. unfold memset. remember (Z.to_nat n) as k eqn:Ek.
  assert (n = Z.of_nat k) as -> by lia. clear Ek Hn. revert m dst.
  induction k as [|k IH]; intros m dst; cbn [memset_loop].
  - rewrite decide_False by lia. done.
  - rewrite IH, rd_wr. destruct (decide (dst = b)) as [->|].
    + destruct (decide (b + 1 <= b < b + 1 + Z.of_nat k)); [lia|].
      rewrite decide_True by lia. done.
    + destruct (decide (dst + 1 <= b < dst + 1 + Z.of_nat k)).
      * rewrite decide_True by lia. done.
      * rewrite decide_False by lia. done.
Qed.

Lemma rd_memmove_up m d s n b :
  d <= s \/ s + Z.of_nat n <= d ->
  rd (memmove_up m d s n) b =
  if decide (d <= b < d + Z.of_nat n) then rd m (s + (b - d)) else rd m b.
Proof.
  revert m d s. induction n as [|n IH]; intros m d s H; cbn [memmove_up].
  - by rewrite decide_False by lia.
  - rewrite IH by lia. rewrite !rd_wr.
    destruct (decide (d + 1 <= b < d + 1 + Z.of_nat n)).
    + rewrite (decide_True (P := d <= b < d + Z.of_nat (S n))) by lia.
      rewrite decide_False by lia. f_equal. lia.
    + destruct (decide (d = b)) as [->|].
      * rewrite decide_True by lia. rewrite Z.sub_diag, Z.add_0_r. apply u8_id, rd_byte.
      * by rewrite decide_False by lia.
Qed.

Lemma rd_memmove_down m d s n b :
  s <= d ->
  rd (memmove_down m d s n) b =
  if decide (d - Z.of_nat n <= b < d) then rd m (s + (b - d)) else rd m b.
Proof.
  revert m d s. induction n as [|n IH]; intros m d s H; cbn [memmove_down].
  - by rewrite decide_False by lia.
  - rewrite IH by lia. rewrite !rd_wr.
    destruct (decide (d - 1 - Z.of_nat n <= b < d - 1)).
    + rewrite (decide_True (P := d - Z.of_nat (S n) <= b < d)) by lia.
      rewrite decide_False by lia. f_equal. lia.
    + destruct (decide (d - 1 = b)) as [<-|].
      * rewrite decide_True by lia. rewrite u8_id by apply rd_byte. f_equal. lia.
      * by rewrite decide_False by lia.
Qed.

Lemma rd_memmove m dst src n b :
  0 <= n ->
  rd (memmove m dst src n) b =
  if decide (dst <= b < dst + n) then rd m (src + (b - dst)) else rd m b.
Proof.
  intros Hn. unfold memmove. destruct (Z.eqb_spec n 0) as [->|Hz].
  { by rewrite decide_False by lia. }
  destruct ((src <? dst) && (src + n >? dst)) eqn:E.
  - zb. rewrite rd_memmove_down by lia. rewrite Z2Nat.id by lia.
    replace (dst + n - n) with dst by lia.
    destruct (decide _); [f_equal; lia|done].
  - assert (dst <= src \/ src + n <= dst).
    { apply andb_false_iff in E as [E|E]; [left; zb; lia|right].
      rewrite Z.gtb_ltb in E. zb. lia. }
    rewrite rd_memmove_up by (rewrite Z2Nat.id; lia).
    by rewrite Z2Nat.id by lia.
Qed.
