(* ===== verification/Spinlock.v ===== *)
(** * Spinlocks (kernel/spinlock.c)

    [push_off]/[pop_off], [acquire]/[release] as the code one hart runs, over
    any state that holds a hart and a lock; then the same instructions of
    several harts interleaved as a step relation, for mutual exclusion. *)

From S2P Require Import Prelude Riscv.

Record spinlock := Spinlock {
  locked : Z;
  lk_name : string;
  lk_cpu : option Z
}.

#[export] Instance spinlock_eq_dec : EqDecision spinlock.
Proof. solve_decision. Defined.

Definition initlock (name : string) : spinlock := Spinlock 0 name None.

Definition b2z (b : bool) : Z := if b then 1 else 0.

(** [lk->locked && lk->cpu == mycpu()] *)
Definition holding_id (id : Z) (lk : spinlock) : bool :=
  nz lk.(locked) && bool_decide (lk.(lk_cpu) = Some id).
Definition holding (h : hart) (lk : spinlock) : bool := holding_id (cpuid h) lk.

(** A state in which code of one hart runs. *)
Class HasHart (S : Type) := the_hart : lens S hart.

Section Ops.
Context {S : Type} `{HasHart S}.

Definition push_off : M S unit :=
  old <- gets (fun s => intr_get (view the_hart s)) ;;
  update the_hart intr_off ;;
  h <- get the_hart ;;
  (if h.(noff) =? 0 then update the_hart (with_intena (b2z old)) else ret tt) ;;
  update the_hart (fun h => with_noff (h.(noff) + 1) h).

Definition pop_off : M S unit :=
  h <- get the_hart ;;
  if intr_get h then panic "pop_off - interruptible"
  else if h.(noff) <? 1 then panic "pop_off"
  else
    update the_hart (fun h => with_noff (h.(noff) - 1) h) ;;
    h <- get the_hart ;;
    if (h.(noff) =? 0) && nz h.(intena) then update the_hart intr_on else ret tt.

Definition acquire (l : lens S spinlock) : M S unit :=
  push_off ;;
  held <- gets (fun s => holding (view the_hart s) (view l s)) ;;
  if held then panic "acquire"
  else
    (** [while(__sync_lock_test_and_set(&lk->locked, 1) != 0);] *)
    (fun s => if (view l s).(locked) =? 0
              then update l (fun lk => Spinlock 1 lk.(lk_name) lk.(lk_cpu)) s
              else Spin) ;;
    h <- get the_hart ;;
    update l (fun lk => Spinlock lk.(locked) lk.(lk_name) (Some (cpuid h))).

Definition release (l : lens S spinlock) : M S unit :=
  held <- gets (fun s => holding (view the_hart s) (view l s)) ;;
  if negb held then panic "release"
  else
    update l (fun lk => Spinlock lk.(locked) lk.(lk_name) None) ;;
    update l (fun lk => Spinlock 0 lk.(lk_name) lk.(lk_cpu)) ;;
    pop_off.
End Ops.
Arguments push_off {S _} : simpl never.
Arguments pop_off {S _} : simpl never.
Arguments acquire {S _} l : simpl never.
Arguments release {S _} l : simpl never.

(** ** What the operations do to the hart and the lock *)

Definition push_off_h (h : hart) : hart :=
  let h1 := intr_off h in
  let h2 := if h.(noff) =? 0 then with_intena (b2z (intr_get h)) h1 else h1 in
  with_noff (h.(noff) + 1) h2.

Definition pop_off_h (h : hart) : hart :=
  let h1 := with_noff (h.(noff) - 1) h in
  if (h.(noff) =? 1) && nz h.(intena) then intr_on h1 else h1.

Arguments push_off_h : simpl never.
Arguments pop_off_h : simpl never.

Definition held_by (h : hart) (lk : spinlock) : spinlock :=
  Spinlock 1 lk.(lk_name) (Some (cpuid h)).

Definition lock_free (lk : spinlock) : Prop := lk.(locked) = 0 /\ lk.(lk_cpu) = None.

#[export] Instance lock_free_dec lk : Decision (lock_free lk).
Proof. unfold lock_free. apply _. Defined.

Lemma initlock_free name : lock_free (initlock name).
Proof. done. Qed.

(** Interrupts are off while a [push_off] is in force. *)
Definition hart_ok (h : hart) : Prop :=
  0 <= h.(noff) /\ (0 < h.(noff) -> intr_get h = false).

(** ... and [intena] already holds what [push_off] would store in it. *)
Definition hart_stable (h : hart) : Prop :=
  hart_ok h /\ (h.(noff) = 0 -> h.(intena) = b2z (intr_get h)).

Lemma push_off_off h : intr_get (push_off_h h) = false.
Proof.
  rewrite <- (intr_get_off h). unfold push_off_h. by destruct (noff h =? 0).
Qed.

Lemma push_off_noff h : noff (push_off_h h) = noff h + 1.
Proof. done. Qed.

Lemma push_off_cpuid h : cpuid (push_off_h h) = cpuid h.
Proof. unfold push_off_h. by destruct (noff h =? 0). Qed.

Lemma push_off_ok h : hart_ok h -> hart_ok (push_off_h h).
Proof.
  intros [H1 H2]. split; [rewrite push_off_noff; lia|].
  intros _. apply push_off_off.
Qed.

(** A [push_off] and its [pop_off] restore the hart, up to the saved
    interrupt flag. *)
Lemma pop_push_off h :
  hart_ok h ->
  pop_off_h (push_off_h h) =
  if noff h =? 0 then with_intena (b2z (intr_get h)) h else h.
Proof.
  intros [Hn Hi]. unfold pop_off_h, push_off_h.
  destruct (Z.eqb_spec (noff h) 0) as [E|E].
  - cbn [noff with_noff with_intena intena]. rewrite E. cbn [Z.add Z.eqb Z.sub Pos.eqb].
    assert (Hid : with_noff 0 h = h) by (rewrite <- E; by destruct h).
    destruct (intr_get h) eqn:Ei.
    + change (with_noff 0 (with_intena 1 (intr_on (intr_off h))) = with_intena 1 h).
      rewrite (intr_on_off h Ei).
      change (with_intena 1 (with_noff 0 h) = with_intena 1 h). by rewrite Hid.
    + rewrite (intr_off_id h Ei).
      change (with_intena 0 (with_noff 0 h) = with_intena 0 h). by rewrite Hid.
  - rewrite (intr_off_id h) by (apply Hi; lia). cbn [noff with_noff].
    replace (noff h + 1 =? 1) with false by (symmetry; apply Z.eqb_neq; lia).
    cbn [andb]. destruct h; cbn. unfold with_noff; cbn. f_equal. lia.
Qed.

Lemma pop_push_off_stable h : hart_stable h -> pop_off_h (push_off_h h) = h.
Proof.
  intros [Hok Hs]. rewrite pop_push_off by done.
  destruct (Z.eqb_spec (noff h) 0) as [E|E]; [|done].
  rewrite <- Hs by done. by destruct h.
Qed.

Section OpLemmas.
Context {S : Type} `{HasHart S} `{!LensLaws the_hart}.

Lemma push_off_eq (s : S) :
  push_off s = Ok tt (put the_hart (push_off_h (view the_hart s)) s).
Proof.
  unfold push_off, push_off_h, bind, gets, update, get, modify, ret. cbn.
  rewrite !view_put. cbn. destruct (noff (view the_hart s) =? 0); cbn;
    rewrite ?view_put, ?put_put; done.
Qed.

Lemma pop_off_eq (s : S) :
  intr_get (view the_hart s) = false -> 1 <= noff (view the_hart s) ->
  pop_off s = Ok tt (put the_hart (pop_off_h (view the_hart s)) s).
Proof.
  intros Hi Hn. unfold pop_off, pop_off_h, bind, gets, update, get, modify, ret. cbn.
  rewrite Hi. destruct (Z.ltb_spec (noff (view the_hart s)) 1); [lia|]. cbn.
  rewrite !view_put. cbn.
  replace (noff (view the_hart s) - 1 =? 0) with (noff (view the_hart s) =? 1)
    by (destruct (Z.eqb_spec (noff (view the_hart s)) 1);
        destruct (Z.eqb_spec (noff (view the_hart s) - 1) 0); lia).
  destruct (_ && _); cbn; by rewrite ?view_put, ?put_put.
Qed.

Context (l : lens S spinlock) `{!LensLaws l} `{!LensDisjoint the_hart l}.

(** Acquiring a free lock. *)
Lemma acquire_eq (s : S) :
  lock_free (view l s) ->
  acquire l s =
  Ok tt (put l (held_by (view the_hart s) (view l s))
           (put the_hart (push_off_h (view the_hart s)) s)).
Proof.
  intros [Hl Hc]. unfold acquire. rewrite (bind_ok _ _ _ _ _ (push_off_eq s)).
  unfold bind, gets, update, get, modify, ret. cbn.
  rewrite view_put, (view_put_r (l := the_hart) (k := l)).
  unfold holding, holding_id. rewrite Hl. cbn.
  rewrite (view_put_r (l := the_hart) (k := l)), Hl. cbn.
  rewrite !(view_put_l (l := the_hart) (k := l)), !view_put, put_put. cbn.
  rewrite push_off_cpuid. done.
Qed.

(** Acquiring a lock the hart already holds is a bug the code reports. *)
Lemma acquire_held (s : S) :
  holding (view the_hart s) (view l s) = true -> acquire l s = Panic "acquire".
Proof.
  intros Hh. unfold acquire. rewrite (bind_ok _ _ _ _ _ (push_off_eq s)).
  unfold bind, gets. cbn. rewrite view_put, (view_put_r (l := the_hart) (k := l)).
  unfold holding in *. rewrite push_off_cpuid. rewrite Hh. done.
Qed.

Lemma release_eq (s : S) :
  holding (view the_hart s) (view l s) = true ->
  intr_get (view the_hart s) = false -> 1 <= noff (view the_hart s) ->
  release l s =
  Ok tt (put l (Spinlock 0 (view l s).(lk_name) None)
           (put the_hart (pop_off_h (view the_hart s)) s)).
Proof.
  intros Hh Hi Hn. unfold release, bind at 1, gets. cbn. rewrite Hh. cbn.
  unfold bind, update, modify. cbn. rewrite view_put, put_put. cbn.
  rewrite pop_off_eq by (rewrite (view_put_l (l := the_hart) (k := l)); done).
  rewrite !(view_put_l (l := the_hart) (k := l)), (put_comm (l := the_hart) (k := l)). done.
Qed.

Lemma release_not_held (s : S) :
  holding (view the_hart s) (view l s) = false -> release l s = Panic "release".
Proof. intros Hh. unfold release, bind, gets. cbn. by rewrite Hh. Qed.
End OpLemmas.

(** A critical section that leaves the hart and its own lock alone gives the
    hart and the lock back as they were. *)
Lemma held_by_holding h lk : holding (push_off_h h) (held_by h lk) = true.
Proof.
  unfold holding, holding_id, held_by. cbn. rewrite push_off_cpuid. by apply bool_decide_eq_true.
Qed.

Lemma held_by_free h lk : lock_free lk -> Spinlock 0 (lk_name (held_by h lk)) None = lk.
Proof. destruct lk as [l n c]. unfold lock_free. cbn. by intros [-> ->]. Qed.

(** Leaving the critical section entered from [s]: whatever the section did
    to the rest of the state, the hart and the lock are as they were. *)
Lemma release_held {S : Type} `{HasHart S} `{!LensLaws the_hart}
    (l : lens S spinlock) `{!LensLaws l} `{!LensDisjoint the_hart l} h lk (s : S) :
  hart_stable h -> lock_free lk ->
  release l (put l (held_by h lk) (put the_hart (push_off_h h) s)) =
  Ok tt (put l lk (put the_hart h s)).
Proof.
  intros Hh Hl. rewrite (release_eq l);
    rewrite ?view_put, ?(view_put_l (l := the_hart) (k := l)), ?view_put.
  - rewrite held_by_free by done. rewrite pop_push_off_stable by done.
    by rewrite !(put_comm (l := the_hart) (k := l)), !put_put.
  - apply held_by_holding.
  - apply push_off_off.
  - rewrite push_off_noff. destruct Hh as [[? _] _]. lia.
Qed.

#[export] Hint Resolve push_off_off held_by_holding : xv6.

(** ** Nesting of [push_off] and [pop_off] *)

#[export] Instance hart_HasHart : HasHart hart := Lens (fun h => h) (fun h _ => h).
#[export] Instance hart_laws : LensLaws (the_hart (S := hart)).
Proof. by split. Qed.

Fixpoint repeatM {S : Type} (n : nat) (m : M S unit) : M S unit :=
  match n with
  | O => ret tt
  | Datatypes.S n' => m ;; repeatM n' m
  end.

Lemma repeat_push n h : repeatM n push_off h = Ok tt (Nat.iter n push_off_h h).
Proof.
  revert h. induction n as [|n IH]; intros h; cbn [repeatM]; [done|].
  rewrite (bind_ok _ _ _ _ _ (push_off_eq h)). cbn. rewrite IH.
  by rewrite <- Nat.iter_succ_r.
Qed.

Lemma iter_push_noff n h : noff (Nat.iter n push_off_h h) = noff h + Z.of_nat n.
Proof.
  induction n as [|n IH]; [cbn; lia|]. rewrite Nat.iter_succ, push_off_noff. lia.
Qed.

Lemma iter_push_ok n h : hart_ok h -> hart_ok (Nat.iter n push_off_h h).
Proof. intros H. induction n; cbn; auto using push_off_ok. Qed.

(** Popping all but the outermost level gives back the inner pushes. *)
Lemma repeat_pop_inner k n h :
  hart_ok h ->
  repeatM k pop_off (Nat.iter (k + Datatypes.S n) push_off_h h) =
  Ok tt (Nat.iter (Datatypes.S n) push_off_h h).
Proof.
  intros Hok. induction k as [|k IH]; cbn [repeatM]; [done|].
  set (g := Nat.iter (k + Datatypes.S n) push_off_h h) in *.
  assert (Hg : 0 < noff g).
  { unfold g. rewrite iter_push_noff. destruct Hok. lia. }
  change (Nat.iter (Datatypes.S k + Datatypes.S n) push_off_h h) with (push_off_h g).
  rewrite (bind_ok _ _ _ tt g); [apply IH|].
  rewrite pop_off_eq by (cbn; first [apply push_off_off | rewrite push_off_noff; lia]).
  cbn. rewrite pop_push_off by (apply iter_push_ok; done).
  destruct (Z.eqb_spec (noff g) 0); [lia|done].
Qed.

Lemma repeatM_app {S : Type} n k (m : M S unit) (s s1 : S) :
  repeatM n m s = Ok tt s1 -> repeatM (n + k) m s = repeatM k m s1.
Proof.
  revert s. induction n as [|n IH]; intros s; cbn [repeatM Nat.add].
  - by intros [= ->].
  - intros H. apply bind_inv in H as (a & s2 & E & H).
    rewrite (bind_ok _ _ _ _ _ E). auto.
Qed.

(** [n] nested [push_off]s and [k] [pop_off]s, starting with no [push_off]
    in force. *)
Definition push_pop (n k : nat) : M hart unit :=
  repeatM n push_off ;; repeatM k pop_off.

Lemma push_pop_eq n k h :
  push_pop n k h = repeatM k pop_off (Nat.iter n push_off_h h).
Proof. unfold push_pop. by rewrite (bind_ok _ _ _ _ _ (repeat_push n h)). Qed.

(** Fewer pops than pushes leave interrupts off. *)
Lemma push_pop_inner n k h :
  hart_ok h -> (k < n)%nat ->
  exists h', push_pop n k h = Ok tt h' /\ intr_get h' = false /\
             noff h' = noff h + Z.of_nat (n - k).
Proof.
  intros Hok Hk. rewrite push_pop_eq.
  pose proof (repeat_pop_inner k (n - k - 1) h Hok) as E.
  replace (k + Datatypes.S (n - k - 1))%nat with n in E by lia.
  rewrite E. eexists. split; [done|]. split.
  - rewrite Nat.iter_succ. apply push_off_off.
  - rewrite iter_push_noff. lia.
Qed.

(** As many pops as pushes restore the hart. *)
Lemma push_pop_all n h :
  hart_ok h -> noff h = 0 ->
  push_pop (Datatypes.S n) (Datatypes.S n) h = Ok tt (with_intena (b2z (intr_get h)) h).
Proof.
  intros Hok Hn. rewrite push_pop_eq.
  pose proof (repeat_pop_inner n 0 h Hok) as E.
  replace (n + 1)%nat with (Datatypes.S n) in E by lia.
  replace (repeatM (Datatypes.S n) pop_off) with (repeatM (S := hart) (n + 1) pop_off)
    by (f_equal; lia).
  rewrite (repeatM_app _ _ _ _ (push_off_h h)); [|done].
  cbn [repeatM]. rewrite (bind_ok _ _ _ tt (with_intena (b2z (intr_get h)) h)); [done|].
  rewrite pop_off_eq by (cbn; first [apply push_off_off | rewrite push_off_noff; lia]).
  cbn. rewrite pop_push_off by done. by rewrite Hn.
Qed.

(** ** Several harts and one lock

    One hart is at one of these places of [acquire] ... [release]; each step
    is one atomic memory access of one hart. *)
Inductive lpc :=
| Idle                    (* outside *)
| Spinning                (* in the [while] of acquire *)
| Swapped                 (* the swap returned 0; [lk->cpu] not set yet *)
| Critical                (* acquire has returned *)
| Releasing               (* in release, [lk->cpu] cleared *)
| Panicked (msg : string).

Record lsys := LSys { ls_lock : spinlock; ls_pc : gmap Z lpc }.

Inductive lstep : lsys -> lsys -> Prop :=
| ls_acquire lk pcs i :
    pcs !! i = Some Idle ->
    lstep (LSys lk pcs)
      (LSys lk (<[i := if holding_id i lk then Panicked "acquire" else Spinning]> pcs))
| ls_swap lk pcs i :
    pcs !! i = Some Spinning ->
    lstep (LSys lk pcs)
      (LSys (Spinlock 1 lk.(lk_name) lk.(lk_cpu))
            (<[i := if locked lk =? 0 then Swapped else Spinning]> pcs))
| ls_record lk pcs i :
    pcs !! i = Some Swapped ->
    lstep (LSys lk pcs)
      (LSys (Spinlock lk.(locked) lk.(lk_name) (Some i)) (<[i := Critical]> pcs))
| ls_release_panic lk pcs i :
    pcs !! i = Some Critical -> holding_id i lk = false ->
    lstep (LSys lk pcs) (LSys lk (<[i := Panicked "release"]> pcs))
| ls_release lk pcs i :
    pcs !! i = Some Critical -> holding_id i lk = true ->
    lstep (LSys lk pcs)
      (LSys (Spinlock lk.(locked) lk.(lk_name) None) (<[i := Releasing]> pcs))
| ls_unlock lk pcs i :
    pcs !! i = Some Releasing ->
    lstep (LSys lk pcs)
      (LSys (Spinlock 0 lk.(lk_name) lk.(lk_cpu)) (<[i := Idle]> pcs)).

(** The lock was initialised by [initlock] and no hart uses it yet. *)
Definition lsys_init (name : string) (harts : gset Z) : lsys :=
  LSys (initlock name) (gset_to_gmap Idle harts).

(** The hart has the lock: from the successful swap to the final store. *)
Definition owns (p : lpc) : bool :=
  match p with Swapped | Critical | Releasing => true | _ => false end.

Definition no_panic (p : lpc) : bool :=
  match p with Panicked _ => false | _ => true end.

(** Who has the lock determines its fields. *)
Definition linv (s : lsys) : Prop :=
  (forall i p, ls_pc s !! i = Some p -> no_panic p = true) /\
  ((ls_lock s).(locked) = 0 /\ (ls_lock s).(lk_cpu) = None /\
     (forall i p, ls_pc s !! i = Some p -> owns p = false)
   \/ exists o p, (ls_lock s).(locked) = 1 /\ ls_pc s !! o = Some p /\ owns p = true /\
       (ls_lock s).(lk_cpu) = (match p with Critical => Some o | _ => None end) /\
       (forall i q, i <> o -> ls_pc s !! i = Some q -> owns q = false)).

Lemma linv_init name harts : linv (lsys_init name harts).
Proof.
  split; cbn.
  - intros i p H. apply lookup_gset_to_gmap_Some in H as [_ <-]. done.
  - left. split_and!; [done..|]. intros i p H.
    apply lookup_gset_to_gmap_Some in H as [_ <-]. done.
Qed.

Lemma holding_id_spec i lk :
  holding_id i lk = true <-> lk.(locked) <> 0 /\ lk.(lk_cpu) = Some i.
Proof.
  unfold holding_id, nz. rewrite andb_true_iff, negb_true_iff, Z.eqb_neq.
  by rewrite bool_decide_eq_true.
Qed.

(** In a state of the invariant, [holding] tells exactly who is between the
    end of [acquire] and the start of [release]. *)
Lemma linv_holding s i p :
  linv s -> ls_pc s !! i = Some p -> holding_id i (ls_lock s) = true <-> p = Critical.
Proof.
  intros [_ [(Hl & Hc & Ho) | (o & q & Hl & Hq & Hoq & Hc & Ho)]] Hp;
    rewrite holding_id_spec.
  - split; [by intros []|]. intros ->. specialize (Ho _ _ Hp). done.
  - split.
    + intros [_ Hi]. rewrite Hc in Hi. destruct q; try done. by simplify_eq.
    + intros ->. destruct (decide (i = o)) as [->|Hne].
      * simplify_eq. split; [lia|done].
      * specialize (Ho _ _ Hne Hp). done.
Qed.

(** A step of hart [i] that keeps it out of the lock, or that is its own
    progress through it, keeps the other harts' part of the invariant. *)
Lemma insert_others {A : Type} (m : gmap Z A) i v (P : Z -> A -> Prop) :
  P i v -> (forall j q, j <> i -> m !! j = Some q -> P j q) ->
  forall j q, <[i := v]> m !! j = Some q -> P j q.
Proof.
  intros Hv Ho j q. rewrite lookup_insert. case_decide; [by intros [= <-]; subst|eauto].
Qed.

Lemma linv_step s s' : linv s -> lstep s s' -> linv s'.
Proof.
  intros Hinv Hstep. pose proof Hinv as [Hp Hi].
  destruct Hstep as [lk pcs i Hpc|lk pcs i Hpc|lk pcs i Hpc|lk pcs i Hpc Hh|lk pcs i Hpc Hh
                    |lk pcs i Hpc]; cbn [ls_lock ls_pc] in *.
  - (* acquire's check *)
    destruct (holding_id i lk) eqn:Hh.
    { apply (linv_holding _ i _ Hinv Hpc) in Hh. done. }
    split; cbn.
    { apply insert_others; eauto. }
    destruct Hi as [(Hl & Hc & Ho) | (o & p & Hl & Hop & Hown & Hc & Ho)].
    + left. split_and!; [done..|]. apply insert_others; eauto.
    + right. exists o, p. assert (i <> o) by (intros ->; simplify_eq).
      split_and!; [done| by rewrite lookup_insert_ne |done..|].
      intros j q Hj. revert j q Hj. intros j q Hj H'.
      rewrite lookup_insert in H'. case_decide; simplify_eq; eauto.
  - (* the swap *)
    split; cbn.
    { apply insert_others; [by destruct (_ =? _)|eauto]. }
    right. destruct Hi as [(Hl & Hc & Ho) | (o & p & Hl & Hop & Hown & Hc & Ho)].
    + exists i, Swapped. rewrite Hl. cbn. split_and!; [done| |done|done|].
      { by rewrite lookup_insert_eq. }
      intros j q Hj. rewrite lookup_insert_ne by done. apply Ho.
    + exists o, p. rewrite Hl. cbn. assert (i <> o) by (intros ->; simplify_eq).
      split_and!; [done|by rewrite lookup_insert_ne|done|done|].
      intros j q Hj H'. rewrite lookup_insert in H'. case_decide; simplify_eq; eauto.
  - (* recording the cpu *)
    split; cbn.
    { apply insert_others; eauto. }
    destruct Hi as [(Hl & Hc & Ho) | (o & p & Hl & Hop & Hown & Hc & Ho)].
    { specialize (Ho _ _ Hpc). done. }
    assert (i = o) as -> by (apply dec_stable; intros Hne; by specialize (Ho _ _ Hne Hpc)).
    right. exists o, Critical. split_and!; [done|by rewrite lookup_insert_eq|done|done|].
    intros j q Hj. rewrite lookup_insert_ne by done. by apply Ho.
  - (* release by a hart that does not hold the lock *)
    pose proof (linv_holding _ i _ Hinv Hpc) as [_ H']. cbn in H'.
    rewrite H' in Hh by done. done.
  - (* release clears the cpu *)
    split; cbn.
    { apply insert_others; eauto. }
    destruct Hi as [(Hl & Hc & Ho) | (o & p & Hl & Hop & Hown & Hc & Ho)].
    { specialize (Ho _ _ Hpc). done. }
    assert (i = o) as -> by (apply dec_stable; intros Hne; by specialize (Ho _ _ Hne Hpc)).
    right. exists o, Releasing. split_and!; [done|by rewrite lookup_insert_eq|done|done|].
    intros j q Hj. rewrite lookup_insert_ne by done. by apply Ho.
  - (* the final store *)
    split; cbn.
    { apply insert_others; eauto. }
    destruct Hi as [(Hl & Hc & Ho) | (o & p & Hl & Hop & Hown & Hc & Ho)].
    { specialize (Ho _ _ Hpc). done. }
    assert (i = o) as -> by (apply dec_stable; intros Hne; by specialize (Ho _ _ Hne Hpc)).
    simplify_eq. left. split_and!; [done..|].
    apply insert_others; [done|]. intros j q Hj. by apply Ho.
Qed.

Lemma linv_reachable name harts s : rtc lstep (lsys_init name harts) s -> linv s.
Proof.
  intros H. remember (lsys_init name harts) as s0 eqn:E.
  assert (H0 : linv s0) by (subst; apply linv_init). clear E.
  induction H; eauto using linv_step.
Qed.

(** The whole of [acquire], run by a hart, is a sequence of these steps. *)
Lemma acquire_steps h lk pcs :
  lock_free lk -> pcs !! cpuid h = Some Idle ->
  rtc lstep (LSys lk pcs) (LSys (held_by h lk) (<[cpuid h := Critical]> pcs)).
Proof.
  intros [Hl Hc] Hp.
  assert (Hh : holding_id (cpuid h) lk = false) by (unfold holding_id; by rewrite Hl).
  eapply rtc_l; [by apply (ls_acquire _ _ (cpuid h))|]. rewrite Hh.
  eapply rtc_l; [apply (ls_swap _ _ (cpuid h)), lookup_insert_eq|].
  rewrite Hl, insert_insert_eq. cbn.
  eapply rtc_l; [apply (ls_record _ _ (cpuid h)), lookup_insert_eq|].
  rewrite insert_insert_eq. cbn. apply rtc_refl.
Qed.

(** ** Properties *)

(** [push_off]/[pop_off] nest.  From a hart with no [push_off] in force,
    after [n] pushes and [k < n] pops interrupts are off and [n - k] levels
    remain; after [n] pushes and [n] pops ([n > 0]) the hart is as before,
    interrupts enabled exactly if they were, and [intena] records that. *)
Theorem push_off_pop_off_nest (h : hart) (n k : nat) :
  hart_ok h -> noff h = 0 -> (k <= n)%nat -> (0 < n)%nat ->
  exists h', push_pop n k h = Ok tt h' /\
    noff h' = Z.of_nat (n - k) /\
    ((k < n)%nat -> intr_get h' = false) /\
    (k = n -> h' = with_intena (b2z (intr_get h)) h).
Proof.
  intros Hok Hn Hk H0. destruct (decide (k = n)) as [->|Hne].
  - destruct n as [|n]; [lia|]. rewrite push_pop_all by done.
    eexists. split; [done|]. split_and!; [cbn; lia|lia|done].
  - destruct (push_pop_inner n k h Hok ltac:(lia)) as (h' & E & Hi & Hn').
    exists h'. split_and!; [done|lia|done|lia].
Qed.

(** A hart with interrupts on, outside any critical section. *)
Definition demo_hart : hart := Hart 0 2 0 0 0 0 0 0 None 0 1.

Lemma demo_hart_stable : hart_stable demo_hart.
Proof. split; [split|]; cbn; [lia|intros H; cbn in H; lia|reflexivity]. Qed.

Lemma push_off_pop_off_nest_witness :
  exists h', push_pop 3 3 demo_hart = Ok tt h' /\ intr_get h' = true.
Proof.
  destruct (push_off_pop_off_nest demo_hart 3 3) as (h' & E & _ & _ & H).
  - apply demo_hart_stable.
  - reflexivity.
  - lia.
  - lia.
  - exists h'. split; [exact E|]. rewrite (H eq_refl). reflexivity.
Defined.

(** C11: mutual exclusion.  However the atomic steps of [acquire] and
    [release] of the harts interleave, from a freshly initialised lock: two
    harts are never both between the successful swap and the store that
    frees the lock, [holding] is true for a hart exactly when it has
    returned from [acquire] and not yet begun [release], and neither
    function panics. *)
Theorem spinlock_mutual_exclusion (name : string) (harts : gset Z) (s : lsys) :
  rtc lstep (lsys_init name harts) s ->
  (forall i j p q, ls_pc s !! i = Some p -> ls_pc s !! j = Some q ->
     owns p = true -> owns q = true -> i = j) /\
  (forall i p, ls_pc s !! i = Some p ->
     (holding_id i (ls_lock s) = true <-> p = Critical) /\ no_panic p = true).
Proof.
  intros Hr. pose proof (linv_reachable _ _ _ Hr) as Hinv. split.
  - destruct Hinv as [_ [(_ & _ & Ho) | (o & r & _ & _ & _ & _ & Ho)]];
      intros i j p q Hi Hj Hp Hq.
    + rewrite (Ho _ _ Hi) in Hp. done.
    + destruct (decide (i = o)) as [->|Hio]; [|by rewrite (Ho _ _ Hio Hi) in Hp].
      destruct (decide (j = o)) as [->|Hjo]; [done|by rewrite (Ho _ _ Hjo Hj) in Hq].
  - intros i p Hi. split; [by apply linv_holding|]. destruct Hinv as [Hnp _]. eauto.
Qed.

Lemma spinlock_mutual_exclusion_witness :
  let s := LSys (held_by demo_hart (initlock "l"))
             (<[0 := Critical]> (gset_to_gmap Idle {[0; 1]})) in
  rtc lstep (lsys_init "l" {[0; 1]}) s /\ holding_id 0 (ls_lock s) = true /\
  holding_id 1 (ls_lock s) = false.
Proof.
  assert (Hr : rtc lstep (lsys_init "l" {[0; 1]})
    (LSys (held_by demo_hart (initlock "l"))
             (<[0 := Critical]> (gset_to_gmap Idle {[0; 1]})))).
  { apply (acquire_steps demo_hart); [split; reflexivity|reflexivity]. }
  cbv zeta. split; [exact Hr|].
  destruct (spinlock_mutual_exclusion "l" {[0; 1]} _ Hr) as [_ H]. split.
  - apply (H 0 Critical); reflexivity.
  - destruct (H 1 Idle) as [[Hh _] _]; [reflexivity|].
    destruct (holding_id 1 _) eqn:E; [|reflexivity]. discriminate (Hh eq_refl).
Defined.
