(* ===== verification/Kalloc.v ===== *)
(** * The physical page allocator (kernel/kalloc.c)

    Free pages form a linked list through their own first eight bytes.  The
    abstract view of the allocator is the list of free pages: [kfree] pushes
    a page, [kalloc] pops one. *)

From S2P Require Import Prelude Riscv Memory Spinlock.

(** ** Link-time addresses

    Symbols the linker script and the assembly files define (kernel.ld,
    trampoline.S, kernelvec.S) and addresses of functions the C code stores
    in registers. *)
Class Image := {
  kend : Z;                (* [end]: first address after the kernel *)
  etext : Z;               (* end of the kernel's code *)
  trampoline : Z;          (* the trampoline page, physical *)
  uservec : Z;
  userret : Z;
  kernelvec : Z;
  usertrap_addr : Z;
  forkret_addr : Z
}.

(** What kernel.ld guarantees: the kernel image lies in RAM, its code ends on
    a page boundary and holds the page-aligned trampoline page. *)
Class ImageOk `{Image} : Prop := {
  kend_range : KERNBASE < kend <= PHYSTOP;
  etext_aligned : page_aligned etext;
  etext_range : KERNBASE < etext <= kend;
  trampoline_aligned : page_aligned trampoline;
  trampoline_range : KERNBASE <= trampoline < etext
}.

(** ** State *)

Record kst := Kst {
  k_hart : hart;
  k_mem : mem;
  kmem_lock : spinlock;
  freelist : Z              (* [kmem.freelist]; 0 is the null pointer *)
}.

Definition hart_l : lens kst hart :=
  Lens k_hart (fun h s => Kst h s.(k_mem) s.(kmem_lock) s.(freelist)).
Definition mem_l : lens kst mem :=
  Lens k_mem (fun m s => Kst s.(k_hart) m s.(kmem_lock) s.(freelist)).
Definition kmem_lock_l : lens kst spinlock :=
  Lens kmem_lock (fun l s => Kst s.(k_hart) s.(k_mem) l s.(freelist)).
Definition freelist_l : lens kst Z :=
  Lens freelist (fun p s => Kst s.(k_hart) s.(k_mem) s.(kmem_lock) p).

#[export] Instance kst_HasHart : HasHart kst := hart_l.
#[export] Instance hart_l_laws : LensLaws (the_hart (S := kst)).
Proof. split; [done|by intros []|done]. Qed.
#[export] Instance kmem_lock_l_laws : LensLaws kmem_lock_l.
Proof. split; [done|by intros []|done]. Qed.
#[export] Instance hart_kmem_lock : LensDisjoint (the_hart (S := kst)) kmem_lock_l.
Proof. split; done. Qed.

(** ** kernel/kalloc.c *)

Section Kalloc.
Context `{Image}.

Definition kfree (pa : Z) : M kst unit :=
  if nz (pa mod PGSIZE) || (pa <? kend) || (pa >=? PHYSTOP) then panic "kfree"
  else
    update mem_l (fun m => memset m pa 1 PGSIZE) ;;
    let r := pa in
    acquire kmem_lock_l ;;
    fl <- get freelist_l ;;
    update mem_l (fun m => store64 m r fl) ;;
    set freelist_l r ;;
    release kmem_lock_l.

Definition kalloc : M kst Z :=
  acquire kmem_lock_l ;;
  r <- get freelist_l ;;
  (if nz r then m <- get mem_l ;; set freelist_l (load64 m r) else ret tt) ;;
  release kmem_lock_l ;;
  (if nz r then update mem_l (fun m => memset m r 5 PGSIZE) else ret tt) ;;
  ret r.

(** [for(; p + PGSIZE <= (char* )pa_end; p += PGSIZE) kfree(p);] *)
Definition freerange_body (pa_end p : Z) : M kst (Z + unit) :=
  if p + PGSIZE <=? pa_end then kfree p ;; ret (inl (p + PGSIZE)) else ret (inr tt).

Definition freerange (pa_start pa_end : Z) : M kst unit :=
  loop (Z.to_nat ((pa_end - pa_start) / PGSIZE) + 2) (freerange_body pa_end)
    (PGROUNDUP pa_start).

Definition kinit : M kst unit :=
  set kmem_lock_l (initlock "kmem") ;;
  freerange kend PHYSTOP.

(** The loop of [kfmemory] follows the list; a list longer than the number
    of pages of physical memory would be cyclic. *)
Definition kfmemory_body (rs : Z * Z) : M kst (Z * Z + Z) :=
  let '(r, sum) := rs in
  if nz r then m <- get mem_l ;; ret (inl (load64 m r, u64 (sum + PGSIZE)))
  else ret (inr sum).

Definition kfmemory : M kst Z :=
  acquire kmem_lock_l ;;
  r0 <- get freelist_l ;;
  sum <- loop (Z.to_nat ((PHYSTOP - KERNBASE) / PGSIZE) + 1) kfmemory_body (r0, 0) ;;
  release kmem_lock_l ;;
  ret sum.
End Kalloc.
Arguments kfree {_} pa : simpl never.
Arguments kalloc : simpl never.
Arguments freerange {_} pa_start pa_end : simpl never.
Arguments kfmemory : simpl never.
Arguments kinit {_} : simpl never.

(** ** Pages *)

Definition page_ok `{Image} (a : Z) : Prop := page_aligned a /\ kend <= a < PHYSTOP.

#[export] Instance page_ok_dec `{Image} a : Decision (page_ok a).
Proof. unfold page_ok, page_aligned. apply _. Defined.

(** The bytes of the page at [a]. *)
Definition in_page (a b : Z) : Prop := a <= b < a + PGSIZE.

(** [m'] is [m] except on the addresses of [P]. *)
Definition same_except (P : Z -> Prop) (m m' : mem) : Prop :=
  forall b, ~ P b -> rd m' b = rd m b.

Lemma same_except_trans P Q m m' m'' :
  same_except P m m' -> same_except Q m' m'' ->
  same_except (fun b => P b \/ Q b) m m''.
Proof. intros H1 H2 b Hb. rewrite H2, H1; tauto. Qed.

Lemma same_except_weaken (P Q : Z -> Prop) m m' :
  same_except P m m' -> (forall b, P b -> Q b) -> same_except Q m m'.
Proof. intros H1 H2 b Hb. apply H1. auto. Qed.

Lemma same_except_refl P m : same_except P m m.
Proof. done. Qed.

Lemma pages_disjoint a a' b :
  page_aligned a -> page_aligned a' -> in_page a b -> in_page a' b -> a = a'.
Proof. unfold page_aligned, in_page. intros. cdlia. Qed.

Lemma memset_page m a c : same_except (in_page a) m (memset m a c PGSIZE).
Proof.
  intros b Hb. rewrite rd_memset by clia. by rewrite decide_False.
Qed.

Lemma load64_page (P : Z -> Prop) m m' a :
  same_except P m m' -> (forall b, a <= b < a + 8 -> ~ P b) -> load64 m' a = load64 m a.
Proof. intros H Hp. apply load64_ext. intros b Hb. apply H. auto. Qed.

(** ** The free list *)

(** The list of pages that hangs from pointer [p]. *)
Fixpoint fl_rep (m : mem) (p : Z) (l : list Z) : Prop :=
  match l with
  | [] => p = 0
  | a :: l' => p = a /\ fl_rep m (load64 m a) l'
  end.

(** The allocator is outside any critical section and its list holds the
    pages [l]. *)
Record kinv `{Image} (s : kst) (l : list Z) : Prop := {
  kinv_hart : hart_stable s.(k_hart);
  kinv_lock : lock_free s.(kmem_lock);
  kinv_list : fl_rep s.(k_mem) s.(freelist) l;
  kinv_nodup : NoDup l;
  kinv_pages : Forall page_ok l
}.

Section KallocLemmas.
Context `{ImageOk}.

Lemma page_pos a : page_ok a -> 0 < a.
Proof. intros [_ ?]. pose proof kend_range. clia. Qed.

Lemma page_lt a : page_ok a -> a < 2 ^ 56.
Proof. intros [_ ?]. clia. Qed.

Lemma fl_rep_same m m' p l :
  (forall a, a ∈ l -> load64 m' a = load64 m a) -> fl_rep m p l -> fl_rep m' p l.
Proof.
  revert p. induction l as [|a l IH]; intros p Hs; cbn; [done|].
  intros [-> Hr]. split; [done|]. rewrite Hs by set_solver.
  apply IH; [|done]. intros b Hb. apply Hs. set_solver.
Qed.

(** Writes into pages that are not free leave the list alone. *)
Lemma fl_rep_except (P : Z -> Prop) m m' p l :
  Forall page_ok l -> (forall a b, a ∈ l -> in_page a b -> ~ P b) ->
  same_except P m m' -> fl_rep m p l -> fl_rep m' p l.
Proof.
  intros Hl HP Hs. apply fl_rep_same. intros a Ha. apply (load64_page P); [done|].
  intros b Hb. apply (HP a); [done|]. unfold in_page. clia.
Qed.

Lemma acquire_kst s :
  lock_free (kmem_lock s) ->
  acquire kmem_lock_l s =
  Ok tt (Kst (push_off_h (k_hart s)) (k_mem s) (held_by (k_hart s) (kmem_lock s))
             (freelist s)).
Proof. intros Hl. rewrite (acquire_eq kmem_lock_l) by done. reflexivity. Qed.

Lemma release_kst h m lk fl :
  hart_stable h -> lock_free lk ->
  release kmem_lock_l (Kst (push_off_h h) m (held_by h lk) fl) = Ok tt (Kst h m lk fl).
Proof. intros Hh Hl. exact (release_held kmem_lock_l h lk (Kst h m lk fl) Hh Hl). Qed.

Lemma page_check a : page_ok a ->
  nz (a mod PGSIZE) || (a <? kend) || (a >=? PHYSTOP) = false.
Proof.
  intros [Ha Hr]. unfold page_aligned in Ha. rewrite Ha.
  apply orb_false_iff; split; [apply orb_false_iff; split; [done|]|].
  - apply Z.ltb_ge. lia.
  - rewrite Z.geb_leb. apply Z.leb_gt. lia.
Qed.

(** *** [kfree] *)
Definition kfree_mem (m : mem) (a fl : Z) : mem := store64 (memset m a 1 PGSIZE) a fl.

Lemma kfree_eq s a :
  hart_stable s.(k_hart) -> lock_free s.(kmem_lock) -> page_ok a ->
  kfree a s = Ok tt (Kst s.(k_hart) (kfree_mem s.(k_mem) a s.(freelist)) s.(kmem_lock) a).
Proof.
  intros Hh Hl Ha. unfold kfree. rewrite page_check by done.
  cbn. rewrite acquire_kst by done. cbn. rewrite release_kst by done. reflexivity.
Qed.

Lemma kfree_panic s a : ~ page_ok a -> kfree a s = Panic "kfree".
Proof.
  intros Ha. unfold kfree. destruct (_ || _) eqn:E; [done|]. exfalso. apply Ha.
  zb. rewrite Z.geb_leb in *. zb. unfold nz in *. zb. done.
Qed.

Lemma kfree_mem_except m a fl : same_except (in_page a) m (kfree_mem m a fl).
Proof.
  intros b Hb. unfold kfree_mem. rewrite rd_store64 by (unfold in_page in *; clia).
  by apply memset_page.
Qed.

Lemma pages_in_ne a b c : page_ok a -> page_ok b -> a <> b -> in_page a c -> ~ in_page b c.
Proof.
  intros [Ha _] [Hb _] Hne Hi Hj. by pose proof (pages_disjoint _ _ _ Ha Hb Hi Hj).
Qed.

Lemma kfree_list m a fl l :
  page_ok a -> Forall page_ok l -> a ∉ l -> fl_rep m fl l -> 0 <= fl < 2 ^ 64 ->
  fl_rep (kfree_mem m a fl) a (a :: l).
Proof.
  intros Ha Hl Hn Hf Hr. split; [done|]. unfold kfree_mem at 2.
  rewrite load64_store64, u64_small by done.
  apply (fl_rep_except (in_page a) m); [done| |apply kfree_mem_except|done].
  intros b c Hb Hc.
  apply (pages_in_ne b); [by apply (Forall_elem _ _ _ Hl)|done| |done]. by intros ->.
Qed.

Lemma fl_rep_range m p l : Forall page_ok l -> fl_rep m p l -> 0 <= p < 2 ^ 64.
Proof.
  destruct l as [|a l]; cbn; [lia|]. intros Hl [-> _]. inversion Hl; subst.
  pose proof (page_pos a ltac:(done)). pose proof (page_lt a ltac:(done)). lia.
Qed.

Lemma kfree_inv s l a :
  kinv s l -> page_ok a -> a ∉ l ->
  exists s', kfree a s = Ok tt s' /\ kinv s' (a :: l) /\ s'.(k_hart) = s.(k_hart) /\
    same_except (in_page a) s.(k_mem) s'.(k_mem).
Proof.
  intros [Hh Hk Hf Hd Hp] Ha Hn. eexists. split; [by apply kfree_eq|]. split; [|split].
  - split; cbn -[fl_rep]; [done|done| |by constructor|by constructor].
    apply kfree_list; try done. by eapply fl_rep_range.
  - done.
  - apply kfree_mem_except.
Qed.

(** *** [kalloc] *)
Lemma kalloc_nil s : kinv s [] -> kalloc s = Ok 0 s.
Proof.
  intros [Hh Hk Hf Hd Hp]. cbn in Hf. unfold kalloc.
  cbn. rewrite acquire_kst by done. cbn. rewrite Hf. cbn.
  rewrite release_kst by done. cbn. destruct s; cbn in *. by subst.
Qed.

Lemma kalloc_eq s a l :
  kinv s (a :: l) ->
  kalloc s = Ok a (Kst s.(k_hart) (memset s.(k_mem) a 5 PGSIZE) s.(kmem_lock)
                       (load64 s.(k_mem) a)).
Proof.
  intros [Hh Hk [Ef Hf] Hd Hp]. unfold kalloc. inversion Hp; subst.
  assert (Hnz : nz (freelist s) = true).
  { unfold nz. apply negb_true_iff, Z.eqb_neq.
    pose proof (page_pos (freelist s) ltac:(done)). lia. }
  cbn. rewrite acquire_kst by done. cbn. rewrite Hnz. cbn.
  rewrite release_kst by done. done.
Qed.

Lemma kalloc_inv s a l :
  kinv s (a :: l) ->
  exists s', kalloc s = Ok a s' /\ kinv s' l /\ page_ok a /\ (a ∉ l) /\
    s'.(k_hart) = s.(k_hart) /\ same_except (in_page a) s.(k_mem) s'.(k_mem) /\
    (forall b, in_page a b -> rd s'.(k_mem) b = 5).
Proof.
  intros Hi. eexists. split; [by eapply kalloc_eq|].
  destruct Hi as [Hh Hk [Ef Hf] Hd Hp]. inversion Hp; subst. inversion Hd; subst.
  split_and!; try done.
  - split; cbn; try done.
    apply (fl_rep_except (in_page (freelist s)) (k_mem s)); [done| |apply memset_page|done].
    intros b c Hb Hc.
    apply (pages_in_ne b); [by eapply Forall_elem|done| |done]. by intros ->.
  - apply memset_page.
  - intros b Hb. cbn. rewrite rd_memset by clia. by rewrite decide_True.
Qed.

(** *** [freerange] and [kinit] *)
Fixpoint pages_from (p : Z) (n : nat) : list Z :=
  match n with
  | O => []
  | S n' => p :: pages_from (p + PGSIZE) n'
  end.

Lemma elem_pages_from p n a :
  a ∈ pages_from p n <-> exists i, (i < n)%nat /\ a = p + Z.of_nat i * PGSIZE.
Proof.
  revert p. induction n as [|n IH]; intros p; cbn [pages_from].
  - split; [by intros ?%not_elem_of_nil|]. intros (i & ? & _). lia.
  - rewrite elem_of_cons, IH. split.
    + intros [->|(i & Hi & ->)]; [exists 0%nat; lia|]. exists (S i). lia.
    + intros ([|i] & Hi & ->); [left; lia|right]. exists i. lia.
Qed.

Lemma NoDup_pages_from p n : NoDup (pages_from p n).
Proof.
  revert p. induction n as [|n IH]; intros p; cbn; constructor; [|done].
  rewrite elem_pages_from. intros (i & _ & E). clia.
Qed.

Lemma length_pages_from p n : length (pages_from p n) = n.
Proof. revert p. induction n; cbn; auto. Qed.

Lemma freerange_loop pa_end n fuel p s l :
  kinv s l -> page_aligned p -> kend <= p -> pa_end <= PHYSTOP ->
  p + Z.of_nat n * PGSIZE <= pa_end < p + (Z.of_nat n + 1) * PGSIZE ->
  (forall a, a ∈ l -> a < p) -> (n < fuel)%nat ->
  exists s', loop fuel (freerange_body pa_end) p s = Ok tt s' /\
    kinv s' (rev (pages_from p n) ++ l) /\ s'.(k_hart) = s.(k_hart).
Proof.
  revert fuel p s l. induction n as [|n IH];
    intros [|fuel] p s l Hk Ha Hp He Hr Hl Hf; try lia; rewrite loop_S.
  - unfold freerange_body at 1. rewrite (proj2 (Z.leb_gt _ _)) by lia.
    cbn. eauto.
  - unfold freerange_body at 1. rewrite (proj2 (Z.leb_le _ _)) by clia.
    destruct (kfree_inv s l p Hk) as (s1 & E1 & Hk1 & Hh1 & _).
    { split; [done|clia]. }
    { intros Hin. specialize (Hl _ Hin). lia. }
    cbn. rewrite E1. cbn.
    destruct (IH fuel (p + PGSIZE) s1 (p :: l)) as (s2 & E2 & Hk2 & Hh2); try done; try clia.
    { unfold page_aligned in *. cdlia. }
    { intros a [->|Hin]%elem_of_cons; [clia|]. specialize (Hl _ Hin). clia. }
    exists s2. rewrite E2. split; [done|]. split; [|congruence].
    cbn [pages_from rev]. by rewrite <- app_assoc.
Qed.

Lemma kinit_pages :
  let p := PGROUNDUP kend in
  page_aligned p /\ kend <= p < kend + PGSIZE.
Proof.
  pose proof kend_range. cbv zeta. rewrite PGROUNDUP_spec by clia.
  unfold page_aligned. cdlia.
Qed.

Lemma kinit_inv s :
  hart_stable s.(k_hart) -> s.(freelist) = 0 ->
  exists s' l, kinit s = Ok tt s' /\ kinv s' l /\ s'.(k_hart) = s.(k_hart) /\
    (forall a, a ∈ l <-> page_ok a).
Proof.
  intros Hh Hf. destruct kinit_pages as [Ha Hr]. pose proof kend_range as He.
  set (p := PGROUNDUP kend) in *. set (n := Z.to_nat ((PHYSTOP - p) / PGSIZE)).
  set (s0 := Kst (k_hart s) (k_mem s) (initlock "kmem") (freelist s)).
  assert (Hp : p <= PHYSTOP) by (unfold page_aligned in Ha; cdlia).
  assert (Hk : kinv s0 []) by (split; cbn; try done; constructor).
  destruct (freerange_loop PHYSTOP n (Z.to_nat ((PHYSTOP - kend) / PGSIZE) + 2) p s0 [])
    as (s1 & E & Hk1 & Hh1); try done; try lia.
  { unfold n. unfold page_aligned in *. rewrite Z2Nat.id; cdlia. }
  { by intros a ?%not_elem_of_nil. }
  { unfold n. assert ((PHYSTOP - p) / PGSIZE <= (PHYSTOP - kend) / PGSIZE)
      by (apply Z.div_le_mono; clia). lia. }
  exists s1, (rev (pages_from p n) ++ []). split; [exact E|]. split_and!; [done|done|].
  intros a. rewrite app_nil_r, list_elem_of_In, <- in_rev, <- list_elem_of_In.
  rewrite elem_pages_from. unfold page_ok, page_aligned in *. split.
  - intros (i & Hi & ->). unfold n in Hi. split; cdlia.
  - intros [Hal Hra]. exists (Z.to_nat ((a - p) / PGSIZE)). unfold n.
    assert (p <= a) by cdlia. split; [|rewrite Z2Nat.id; cdlia].
    apply Z2Nat.inj_lt; cdlia.
Qed.

(** *** [kfmemory] *)
Lemma free_pages_bound l :
  NoDup l -> Forall page_ok l ->
  (length l <= Z.to_nat ((PHYSTOP - KERNBASE) / PGSIZE))%nat.
Proof.
  intros Hd Hp.
  rewrite <- (length_pages_from KERNBASE (Z.to_nat ((PHYSTOP - KERNBASE) / PGSIZE))).
  apply submseteq_length, NoDup_submseteq; [done|]. intros a Ha.
  pose proof (Forall_elem _ _ _ Hp Ha) as [Hal Hra]. pose proof kend_range.
  apply elem_pages_from. exists (Z.to_nat ((a - KERNBASE) / PGSIZE)).
  unfold page_aligned in *. split; [|rewrite Z2Nat.id; cdlia].
  apply Z2Nat.inj_lt; cdlia.
Qed.

Lemma kfmemory_loop m h lk fl0 p l sum fuel :
  Forall page_ok l -> fl_rep m p l -> (length l < fuel)%nat ->
  0 <= sum -> sum + Z.of_nat (length l) * PGSIZE < 2 ^ 64 ->
  loop fuel kfmemory_body (p, sum) (Kst h m lk fl0) =
  Ok (sum + Z.of_nat (length l) * PGSIZE) (Kst h m lk fl0).
Proof.
  revert p sum fuel. induction l as [|a l IH]; intros p sum [|fuel] Hp Hf Hl Hs Hb;
    try (cbn in Hl; lia); rewrite loop_S.
  - cbn in Hf. subst. cbn. f_equal. lia.
  - destruct Hf as [-> Hf]. inversion Hp; subst.
    assert (nz a = true) as Hnz.
    { apply negb_true_iff, Z.eqb_neq. pose proof (page_pos a ltac:(done)). lia. }
    cbn. rewrite Hnz. cbn. cbn [length] in *.
    rewrite u64_small by clia. rewrite (IH (load64 m a)); try done; try clia.
    f_equal. lia.
Qed.

Lemma kfmemory_eq s l :
  kinv s l -> kfmemory s = Ok (Z.of_nat (length l) * PGSIZE) s.
Proof.
  intros [Hh Hk Hf Hd Hp]. pose proof (free_pages_bound l Hd Hp) as Hb.
  unfold kfmemory. mcbn. rewrite acquire_kst by done. mcbn. cbn [freelist_l freelist view].
  rewrite kfmemory_loop with (l := l); try done; try lia.
  - mcbn. rewrite release_kst by done. by destruct s.
  - revert Hb. change ((PHYSTOP - KERNBASE) / PGSIZE) with 32768. clia.
Qed.
End KallocLemmas.

(** ** Clients of the allocator

    The pages handed out and not yet given back are [owned].  A client
    allocates, frees a page it owns, or writes into a page it owns. *)
Section Clients.
Context `{ImageOk}.

Inductive client_step : kst * gset Z -> kst * gset Z -> Prop :=
| cs_alloc s o a s' :
    kalloc s = Ok a s' ->
    client_step (s, o) (s', if a =? 0 then o else {[a]} ∪ o)
| cs_free s o a s' :
    a ∈ o -> kfree a s = Ok tt s' -> client_step (s, o) (s', o ∖ {[a]})
| cs_write s o a m' :
    a ∈ o -> same_except (in_page a) s.(k_mem) m' ->
    client_step (s, o) (Kst s.(k_hart) m' s.(kmem_lock) s.(freelist), o).

(** Free and owned pages partition the pages of RAM above the kernel. *)
Definition pool_inv (s : kst) (o : gset Z) (l : list Z) : Prop :=
  kinv s l /\ (forall a, a ∈ l <-> page_ok a /\ (a ∉ o)) /\ (forall a, a ∈ o -> page_ok a).

Lemma pool_write s o l a m' :
  pool_inv s o l -> a ∈ o -> same_except (in_page a) s.(k_mem) m' ->
  pool_inv (Kst s.(k_hart) m' s.(kmem_lock) s.(freelist)) o l.
Proof.
  intros ([Hh Hk Hf Hd Hp] & Hl & Ho) Ha Hs. split; [|done]. split; cbn; try done.
  apply (fl_rep_except (in_page a) (k_mem s)); try done.
  intros b c Hb Hc. apply (pages_in_ne b); [by eapply Forall_elem|by apply Ho| |done].
  intros ->. by apply Hl in Hb as [_ ?].
Qed.

Lemma pool_step s o l s' o' :
  pool_inv s o l -> client_step (s, o) (s', o') -> exists l', pool_inv s' o' l'.
Proof.
  intros Hi Hstep.
  inversion Hstep as [? ? a ? Ea|? ? a ? Ha Ea|? ? a m' Ha Hm]; subst; clear Hstep.
  - destruct Hi as (Hk & Hl & Ho). destruct l as [|p l].
    + rewrite kalloc_nil in Ea by done. injection Ea as <- <-. cbn. by exists [].
    + destruct (kalloc_inv s p l Hk) as (s1 & E & Hk1 & Hp & Hn & _).
      rewrite E in Ea. injection Ea as <- <-. pose proof (page_pos _ Hp).
      destruct (Z.eqb_spec p 0); [lia|]. exists l. split; [done|]. split.
      * intros b. rewrite not_elem_of_union, not_elem_of_singleton.
        specialize (Hl b). rewrite elem_of_cons in Hl. split; [|tauto].
        intros Hb. split; [tauto|]. split; [|tauto]. by intros ->.
      * intros b [->%elem_of_singleton|?]%elem_of_union; auto.
  - destruct Hi as (Hk & Hl & Ho).
    destruct (kfree_inv s l a Hk) as (s1 & E & Hk1 & _); [by apply Ho| |].
    { intros Hin. by apply Hl in Hin as [_ ?]. }
    rewrite E in Ea. injection Ea as <-. exists (a :: l). split; [done|]. split.
    + intros b. rewrite elem_of_cons, not_elem_of_difference, elem_of_singleton, Hl.
      specialize (Ho a Ha). split; [|tauto]. intros [->|[??]]; auto.
    + intros b [Hb _]%elem_of_difference. auto.
  - eauto using pool_write.
Qed.

Lemma pool_steps c c' :
  rtc client_step c c' ->
  (exists l, pool_inv c.1 c.2 l) -> exists l, pool_inv c'.1 c'.2 l.
Proof.
  induction 1 as [|[s1 o1] [s2 o2] c3 Hs Hr IH]; [done|].
  intros [l Hl]. apply IH. cbn in *. eauto using pool_step.
Qed.

Lemma pool_reachable s0 si s1 o :
  hart_stable s0.(k_hart) -> s0.(freelist) = 0 ->
  kinit s0 = Ok tt si -> rtc client_step (si, ∅) (s1, o) ->
  exists l, pool_inv s1 o l.
Proof.
  intros Hh Hf Ek Hr.
  destruct (kinit_inv s0 Hh Hf) as (s' & l & E & Hk & _ & Hl).
  rewrite E in Ek. injection Ek as <-.
  apply (pool_steps _ _ Hr). exists l. split; [done|]. split; cbn; [|by intros a ?%elem_of_empty].
  intros a. rewrite Hl. split; [|tauto]. intros Ha. split; [done|]. by apply not_elem_of_empty.
Qed.

Definition all_pages : list Z :=
  pages_from (PGROUNDUP kend) (Z.to_nat ((PHYSTOP - PGROUNDUP kend) / PGSIZE)).

Lemma elem_all_pages a : a ∈ all_pages <-> page_ok a.
Proof.
  destruct kinit_pages as [Ha Hr]. pose proof kend_range. unfold all_pages.
  rewrite elem_pages_from. unfold page_ok, page_aligned in *. split.
  - intros (i & Hi & ->). split; cdlia.
  - intros [Hal Hra]. exists (Z.to_nat ((a - PGROUNDUP kend) / PGSIZE)).
    assert (PGROUNDUP kend <= a) by cdlia. split; [|rewrite Z2Nat.id; cdlia].
    apply Z2Nat.inj_lt; cdlia.
Qed.
End Clients.

(** ** Properties *)

Section KallocProperties.
Context `{ImageOk}.

Lemma pool_count s o l :
  pool_inv s o l -> (length l + size o = length all_pages)%nat.
Proof.
  intros ([_ _ _ Hd _] & Hl & Ho).
  rewrite <- (size_list_to_set (C := gset Z) l Hd).
  rewrite <- size_union.
  2:{ intros a Ha Hao. apply elem_of_list_to_set, Hl in Ha as [_ ?]. done. }
  rewrite <- (size_list_to_set (C := gset Z) all_pages) by apply NoDup_pages_from.
  f_equal. apply set_eq. intros a. rewrite elem_of_union, !elem_of_list_to_set.
  rewrite elem_all_pages, Hl. specialize (Ho a). destruct (decide (a ∈ o)); tauto.
Qed.

(** [kinit] frees every page between the end of the kernel and PHYSTOP
    and nothing else: it returns, the free list is well formed, its pages are
    distinct, and a page is on it exactly if it is a page-aligned address in
    that range. *)
Theorem kinit_frees_all_pages (s : kst) :
  hart_stable s.(k_hart) -> s.(freelist) = 0 ->
  exists s' l, kinit s = Ok tt s' /\ kinv s' l /\ (forall a, a ∈ l <-> page_ok a).
Proof.
  intros Hh Hf. destruct (kinit_inv s Hh Hf) as (s' & l & E & Hk & _ & Hl). eauto.
Qed.

(** C4: the allocator under any sequence of client operations from boot
    ([kalloc], [kfree] of an owned page, writes into owned pages).  [kalloc]
    always returns; it returns 0 only if every page of RAM above the kernel
    is owned, and otherwise a page that nobody owns, filled with 5s.  [kfree]
    of an owned page succeeds, and [kfmemory] reports exactly the number of
    bytes in pages nobody owns. *)
Theorem allocator_safe (s0 si s : kst) (o : gset Z) :
  hart_stable s0.(k_hart) -> s0.(freelist) = 0 ->
  kinit s0 = Ok tt si -> rtc client_step (si, ∅) (s, o) ->
  (exists a s', kalloc s = Ok a s' /\
     (a = 0 -> forall p, page_ok p -> p ∈ o) /\
     (a <> 0 -> page_ok a /\ (a ∉ o) /\ forall b, in_page a b -> rd s'.(k_mem) b = 5)) /\
  (forall p, p ∈ o -> exists s', kfree p s = Ok tt s') /\
  kfmemory s = Ok ((Z.of_nat (length all_pages) - Z.of_nat (size o)) * PGSIZE) s.
Proof.
  intros Hh Hf Ek Hr. destruct (pool_reachable _ _ _ _ Hh Hf Ek Hr) as [l Hi].
  pose proof (pool_count _ _ _ Hi) as Hc. destruct Hi as (Hk & Hl & Ho). split; [|split].
  - destruct l as [|a l].
    + exists 0, s. split; [by apply kalloc_nil|]. split; [|done]. intros _ p Hp.
      destruct (decide (p ∈ o)); [done|].
      assert (Hin : p ∈ @nil Z) by (apply Hl; done). by apply not_elem_of_nil in Hin.
    + destruct (kalloc_inv s a l Hk) as (s' & E & _ & Hp & _ & _ & _ & H5).
      exists a, s'. split; [done|]. pose proof (page_pos _ Hp). split; [lia|].
      intros _. split; [done|]. split; [|done]. apply Hl. apply elem_of_cons. by left.
  - intros p Hp. destruct (kfree_inv s l p Hk) as (s' & E & _); [by apply Ho| |eauto].
    intros Hin. by apply Hl in Hin as [_ ?].
  - rewrite (kfmemory_eq s l Hk). do 2 f_equal. lia.
Qed.

(** [kfree] accepts exactly the page-aligned addresses from the end of
    the kernel to PHYSTOP, and panics on every other address before touching
    memory. *)
Theorem kfree_checks (s : kst) (a : Z) :
  hart_stable s.(k_hart) -> lock_free s.(kmem_lock) ->
  (page_ok a /\ exists s', kfree a s = Ok tt s' /\ freelist s' = a /\
     load64 (k_mem s') a = u64 (freelist s) /\ same_except (in_page a) (k_mem s) (k_mem s'))
  \/ (~ page_ok a /\ kfree a s = Panic "kfree").
Proof.
  intros Hh Hl. destruct (decide (page_ok a)) as [Ha|Ha]; [left|right].
  - split; [done|]. eexists. split; [by apply kfree_eq|]. cbn. split_and!; [done| |].
    + apply load64_store64.
    + apply kfree_mem_except.
  - split; [done|]. by apply kfree_panic.
Qed.
End KallocProperties.

(** A small image: four pages of RAM above the kernel. *)
Definition demo_image : Image := {|
  kend := PHYSTOP - 4 * PGSIZE - 100;
  etext := KERNBASE + 8 * PGSIZE;
  trampoline := KERNBASE + 7 * PGSIZE;
  uservec := KERNBASE + 7 * PGSIZE;
  userret := KERNBASE + 7 * PGSIZE + 156;
  kernelvec := KERNBASE + 0x5000;
  usertrap_addr := KERNBASE + 0x2000;
  forkret_addr := KERNBASE + 0x1000
|}.

Lemma demo_image_ok : @ImageOk demo_image.
Proof. by split. Qed.

Definition demo_kst : kst := Kst demo_hart ∅ (initlock "kmem") 0.

Lemma kinit_frees_all_pages_witness :
  exists s' (l : list Z), @kinit demo_image demo_kst = Ok tt s' /\
    (PHYSTOP - PGSIZE ∈ l) /\ (PHYSTOP - 5 * PGSIZE ∉ l).
Proof.
  destruct (@kinit_frees_all_pages demo_image demo_image_ok demo_kst demo_hart_stable
              eq_refl) as (s' & l & E & _ & Hl).
  exists s', l. split; [exact E|]. split.
  - apply Hl. split; [reflexivity|]. vm_compute. split; congruence.
  - intros Hin. apply Hl in Hin as [_ [Hr _]]. vm_compute in Hr. congruence.
Defined.

(** What a run of boot, an allocation, and a second one returns: the pages come
    off the top of memory. *)
Example demo_boot_alloc :
  match (@kinit demo_image ;; a <- kalloc ;; b <- kalloc ;; n <- kfmemory ;; ret (a, b, n))
          demo_kst with
  | Ok r _ => r
  | _ => (0, 0, 0)
  end = (PHYSTOP - PGSIZE, PHYSTOP - 2 * PGSIZE, 2 * PGSIZE).
Proof. vm_compute. reflexivity. Qed.

Lemma allocator_safe_witness :
  exists si s', @kinit demo_image demo_kst = Ok tt si /\ kalloc si = Ok (PHYSTOP - PGSIZE) s' /\
    kfmemory si = Ok (4 * PGSIZE) si.
Proof.
  destruct (@kinit_inv demo_image demo_image_ok demo_kst demo_hart_stable
              eq_refl) as (si & l & E & _).
  destruct (@allocator_safe demo_image demo_image_ok demo_kst si si ∅ demo_hart_stable
              eq_refl E (rtc_refl _ _)) as ((a & s' & Ea & _ & _) & _ & Em).
  exists si, s'. split; [exact E|]. split.
  - rewrite Ea. f_equal.
    assert (Hb : match (@kinit demo_image ;; kalloc) demo_kst with
                 | Ok r _ => r | _ => 0 end = PHYSTOP - PGSIZE) by (vm_compute; reflexivity).
    cbn [bind] in Hb. rewrite E in Hb. cbn [obind] in Hb. rewrite Ea in Hb. exact Hb.
  - rewrite Em. reflexivity.
Defined.

Lemma kfree_checks_witness :
  @kfree demo_image (PHYSTOP - PGSIZE + 8) demo_kst = Panic "kfree" /\
  exists s', @kfree demo_image (PHYSTOP - PGSIZE) demo_kst = Ok tt s' /\
    freelist s' = PHYSTOP - PGSIZE.
Proof.
  destruct (@kfree_checks demo_image demo_kst (PHYSTOP - PGSIZE + 8)
              demo_hart_stable (initlock_free _)) as [[Ha _]|[_ E]].
  { destruct Ha as [Ha _]. vm_compute in Ha. congruence. }
  destruct (@kfree_checks demo_image demo_kst (PHYSTOP - PGSIZE)
              demo_hart_stable (initlock_free _)) as [[_ (s' & E' & Hf & _)]|[Hn _]].
  - split; [exact E|]. exists s'. split; [exact E'|exact Hf].
  - exfalso. apply Hn. split; [reflexivity|]. vm_compute. split; congruence.
Defined.
