(* ===== verification/Vm.v ===== *)
(** * Virtual memory (kernel/vm.c)

    Page tables are 512-entry pages of raw memory; every function of vm.c is
    translated over [kst], the state of the page allocator.  Kernel buffers
    that are not pages (arrays on the kernel stack, disk buffers) are passed
    as lists of bytes. *)

From S2P Require Import Prelude Riscv Memory Spinlock Kalloc.

Section Vm.
Context `{Image}.

Definition load_pte (pte : Z) : M kst Z := gets (fun s => load64 s.(k_mem) pte).
Definition store_pte (pte v : Z) : M kst unit := update mem_l (fun m => store64 m pte v).

(** The body of the loop of [walk] at one level: the next page table, or
    [None] where the code returns 0. *)
Definition walk_level (alloc : bool) (va level pagetable : Z) : M kst (option Z) :=
  let pte := pagetable + 8 * PX level va in
  v <- load_pte pte ;;
  if nz (Z.land v PTE_V) then ret (Some (PTE2PA v))
  else if negb alloc then ret None
  else
    pagetable <- kalloc ;;
    if pagetable =? 0 then ret None
    else
      update mem_l (fun m => memset m pagetable 0 PGSIZE) ;;
      store_pte pte (Z.lor (PA2PTE pagetable) PTE_V) ;;
      ret (Some pagetable).

Fixpoint walk_levels (alloc : bool) (va : Z) (levels : list Z) (pagetable : Z) :
    M kst (option Z) :=
  match levels with
  | [] => ret (Some pagetable)
  | level :: rest =>
      r <- walk_level alloc va level pagetable ;;
      match r with
      | None => ret None
      | Some pagetable' => walk_levels alloc va rest pagetable'
      end
  end.

Definition walk (pagetable va : Z) (alloc : bool) : M kst Z :=
  if va >=? MAXVA then panic "walk"
  else
    r <- walk_levels alloc va [2; 1] pagetable ;;
    match r with
    | None => ret 0
    | Some pagetable' => ret (pagetable' + 8 * PX 0 va)
    end.

Definition walkaddr (pagetable va : Z) : M kst Z :=
  if va >=? MAXVA then ret 0
  else
    pte <- walk pagetable va false ;;
    if pte =? 0 then ret 0
    else
      v <- load_pte pte ;;
      if Z.land v PTE_V =? 0 then ret 0
      else if Z.land v PTE_U =? 0 then ret 0
      else ret (PTE2PA v).

(** One iteration of the loop of [mappages]. *)
Definition mappages_body (pagetable last perm : Z) (ap : Z * Z) : M kst (Z * Z + Z) :=
  let '(a, pa) := ap in
  pte <- walk pagetable a true ;;
  if pte =? 0 then ret (inr (-1))
  else
    v <- load_pte pte ;;
    if nz (Z.land v PTE_V) then panic "mappages: remap"
    else
      store_pte pte (Z.lor (Z.lor (PA2PTE pa) perm) PTE_V) ;;
      if a =? last then ret (inr 0)
      else ret (inl (u64 (a + PGSIZE), u64 (pa + PGSIZE))).

Definition mappages (pagetable va size pa perm : Z) : M kst Z :=
  if nz (va mod PGSIZE) then panic "mappages: va not aligned"
  else if nz (size mod PGSIZE) then panic "mappages: size not aligned"
  else if size =? 0 then panic "mappages: size"
  else
    let last := u64 (va + size - PGSIZE) in
    loop (Z.to_nat (size / PGSIZE)) (mappages_body pagetable last perm) (va, pa).

Definition kvmmap (kpgtbl va pa sz perm : Z) : M kst unit :=
  r <- mappages kpgtbl va sz pa perm ;;
  if nz r then panic "kvmmap" else ret tt.

(** [proc_mapstacks] of kernel/proc.c. *)
Definition proc_mapstacks (kpgtbl : Z) : M kst unit :=
  for_each (seq 0 (Z.to_nat NPROC))
    (fun p =>
       pa <- kalloc ;;
       if pa =? 0 then panic "kalloc"
       else
         kvmmap kpgtbl (KSTACK (Z.of_nat p)) pa PGSIZE (Z.lor PTE_R PTE_W) ;;
         ret (None : option unit)) ;;
  ret tt.

Definition kvmmake : M kst Z :=
  kpgtbl <- kalloc ;;
  update mem_l (fun m => memset m kpgtbl 0 PGSIZE) ;;
  kvmmap kpgtbl UART0 UART0 PGSIZE (Z.lor PTE_R PTE_W) ;;
  kvmmap kpgtbl VIRTIO0 VIRTIO0 PGSIZE (Z.lor PTE_R PTE_W) ;;
  kvmmap kpgtbl PLIC PLIC 0x400000 (Z.lor PTE_R PTE_W) ;;
  kvmmap kpgtbl KERNBASE KERNBASE (u64 (etext - KERNBASE)) (Z.lor PTE_R PTE_X) ;;
  kvmmap kpgtbl etext etext (u64 (PHYSTOP - etext)) (Z.lor PTE_R PTE_W) ;;
  kvmmap kpgtbl TRAMPOLINE trampoline PGSIZE (Z.lor PTE_R PTE_X) ;;
  proc_mapstacks kpgtbl ;;
  ret kpgtbl.

Definition kvminithart (kernel_pagetable : Z) : M kst unit :=
  update hart_l (with_satp (MAKE_SATP kernel_pagetable)).

(** One iteration of the loop of [uvmunmap]. *)
Definition uvmunmap_body (pagetable lim : Z) (do_free : bool) (a : Z) : M kst (Z + unit) :=
  if a <? lim then
    pte <- walk pagetable a false ;;
    if pte =? 0 then panic "uvmunmap: walk"
    else
      v <- load_pte pte ;;
      if Z.land v PTE_V =? 0 then panic "uvmunmap: not mapped"
      else if PTE_FLAGS v =? PTE_V then panic "uvmunmap: not a leaf"
      else
        (if do_free then kfree (PTE2PA v) else ret tt) ;;
        store_pte pte 0 ;;
        ret (inl (u64 (a + PGSIZE)))
  else ret (inr tt).

Definition uvmunmap (pagetable va npages : Z) (do_free : bool) : M kst unit :=
  if nz (va mod PGSIZE) then panic "uvmunmap: not aligned"
  else
    loop (Z.to_nat npages + 1)
      (uvmunmap_body pagetable (u64 (va + npages * PGSIZE)) do_free) va.

Definition uvmcreate : M kst Z :=
  pagetable <- kalloc ;;
  if pagetable =? 0 then ret 0
  else
    update mem_l (fun m => memset m pagetable 0 PGSIZE) ;;
    ret pagetable.

Definition uvmfirst (pagetable : Z) (src : list Z) (sz : Z) : M kst unit :=
  if sz >=? PGSIZE then panic "uvmfirst: more than a page"
  else
    mem <- kalloc ;;
    update mem_l (fun m => memset m mem 0 PGSIZE) ;;
    mappages pagetable 0 PGSIZE mem (Z.lor (Z.lor (Z.lor PTE_W PTE_R) PTE_X) PTE_U) ;;
    update mem_l (fun m => st_bytes m mem (take (Z.to_nat sz) src)).

Definition uvmdealloc (pagetable oldsz newsz : Z) : M kst Z :=
  if newsz >=? oldsz then ret oldsz
  else
    (if PGROUNDUP newsz <? PGROUNDUP oldsz then
       let npages := s32 ((PGROUNDUP oldsz - PGROUNDUP newsz) / PGSIZE) in
       uvmunmap pagetable (PGROUNDUP newsz) (u64 npages) true
     else ret tt) ;;
    ret newsz.

(** One iteration of the loop of [uvmalloc]; [inr] leaves it: [false] for an
    allocation failure, after the clean-up, [true] at the end of the range. *)
Definition uvmalloc_body (pagetable oldsz newsz xperm a : Z) : M kst (Z + bool) :=
  if a <? newsz then
    mem <- kalloc ;;
    if mem =? 0 then
      uvmdealloc pagetable a oldsz ;;
      ret (inr false)
    else
      update mem_l (fun m => memset m mem 0 PGSIZE) ;;
      r <- mappages pagetable a PGSIZE mem (Z.lor (Z.lor PTE_R PTE_U) xperm) ;;
      if nz r then
        kfree mem ;;
        uvmdealloc pagetable a oldsz ;;
        ret (inr false)
      else ret (inl (u64 (a + PGSIZE)))
  else ret (inr true).

Definition uvmalloc (pagetable oldsz newsz xperm : Z) : M kst Z :=
  if newsz <? oldsz then ret oldsz
  else
    let oldsz := PGROUNDUP oldsz in
    ok <- loop (Z.to_nat ((newsz - oldsz) / PGSIZE) + 2)
            (uvmalloc_body pagetable oldsz newsz xperm) oldsz ;;
    ret (if ok : bool then newsz else 0).

(** One entry of the loop of [freewalk]; [fw] is the recursive call. *)
Definition freewalk_body (fw : Z -> M kst unit) (pagetable : Z) (i : nat) : M kst (option unit) :=
  pte <- load_pte (pagetable + 8 * Z.of_nat i) ;;
  if nz (Z.land pte PTE_V) && (Z.land pte (Z.lor (Z.lor PTE_R PTE_W) PTE_X) =? 0) then
    fw (PTE2PA pte) ;;
    store_pte (pagetable + 8 * Z.of_nat i) 0 ;;
    ret None
  else if nz (Z.land pte PTE_V) then panic "freewalk: leaf"
  else ret None.

(** [depth] bounds the recursion of [freewalk]: a page table has three
    levels. *)
Fixpoint freewalk (depth : nat) (pagetable : Z) : M kst unit :=
  match depth with
  | O => fun _ => OutOfFuel
  | S depth' =>
      for_each (seq 0 512) (freewalk_body (freewalk depth') pagetable) ;;
      kfree pagetable
  end.

Definition uvmfree (pagetable sz : Z) : M kst unit :=
  (if sz >? 0 then uvmunmap pagetable 0 (PGROUNDUP sz / PGSIZE) true else ret tt) ;;
  freewalk 3 pagetable.

(** One iteration of the loop of [uvmcopy]; [inr false] is [goto err], with
    the clean-up. *)
Definition uvmcopy_body (old new sz i : Z) : M kst (Z + Z) :=
  if i <? sz then
    pte <- walk old i false ;;
    if pte =? 0 then panic "uvmcopy: pte should exist"
    else
      v <- load_pte pte ;;
      if Z.land v PTE_V =? 0 then panic "uvmcopy: page not present"
      else
        let pa := PTE2PA v in
        let flags := PTE_FLAGS v in
        mem <- kalloc ;;
        if mem =? 0 then
          uvmunmap new 0 (i / PGSIZE) true ;;
          ret (inr (-1))
        else
          update mem_l (fun m => memmove m mem pa PGSIZE) ;;
          r <- mappages new i PGSIZE mem flags ;;
          if nz r then
            kfree mem ;;
            uvmunmap new 0 (i / PGSIZE) true ;;
            ret (inr (-1))
          else ret (inl (u64 (i + PGSIZE)))
  else ret (inr 0).

Definition uvmcopy (old new sz : Z) : M kst Z :=
  loop (Z.to_nat (sz / PGSIZE) + 2) (uvmcopy_body old new sz) 0.

Definition uvmclear (pagetable va : Z) : M kst unit :=
  pte <- walk pagetable va false ;;
  if pte =? 0 then panic "uvmclear"
  else
    v <- load_pte pte ;;
    store_pte pte (Z.land v (Z.lnot PTE_U)).

(** One iteration of the loop of [copyout]: the destination, the bytes at
    [src] and their number. *)
Definition copyout_body (pagetable : Z) (x : Z * list Z * Z) :
    M kst (Z * list Z * Z + Z) :=
  let '(dstva, src, len) := x in
  if len >? 0 then
    let va0 := PGROUNDDOWN dstva in
    if va0 >=? MAXVA then ret (inr (-1))
    else
      pte <- walk pagetable va0 false ;;
      if pte =? 0 then ret (inr (-1))
      else
        v <- load_pte pte ;;
        if (Z.land v PTE_V =? 0) || (Z.land v PTE_U =? 0) || (Z.land v PTE_W =? 0)
        then ret (inr (-1))
        else
          let pa0 := PTE2PA v in
          let n := PGSIZE - (dstva - va0) in
          let n := if n >? len then len else n in
          update mem_l (fun m => st_bytes m (pa0 + (dstva - va0)) (take (Z.to_nat n) src)) ;;
          ret (inl (u64 (va0 + PGSIZE), drop (Z.to_nat n) src, len - n))
  else ret (inr 0).

Definition copyout (pagetable dstva : Z) (src : list Z) (len : Z) : M kst Z :=
  loop (Z.to_nat (len / PGSIZE) + 3) (copyout_body pagetable) (dstva, src, len).

(** [copyin] also returns the bytes it has stored at [dst]. *)
Definition copyin_body (pagetable : Z) (x : Z * list Z * Z) :
    M kst (Z * list Z * Z + Z * list Z) :=
  let '(srcva, dst, len) := x in
  if len >? 0 then
    let va0 := PGROUNDDOWN srcva in
    pa0 <- walkaddr pagetable va0 ;;
    if pa0 =? 0 then ret (inr (-1, dst))
    else
      let n := PGSIZE - (srcva - va0) in
      let n := if n >? len then len else n in
      bs <- gets (fun s => ld_bytes s.(k_mem) (pa0 + (srcva - va0)) (Z.to_nat n)) ;;
      ret (inl (u64 (va0 + PGSIZE), dst ++ bs, len - n))
  else ret (inr (0, dst)).

Definition copyin (pagetable srcva len : Z) : M kst (Z * list Z) :=
  loop (Z.to_nat (len / PGSIZE) + 3) (copyin_body pagetable) (srcva, [], len).

(** The inner loop of [copyinstr]: copy up to [n] bytes from [p]; the bytes
    stored and whether a NUL was seen. *)
Fixpoint copystr (m : mem) (p : Z) (n : nat) : list Z * bool :=
  match n with
  | O => ([], false)
  | S n' =>
      if rd m p =? 0 then ([0], true)
      else let '(l, nul) := copystr m (p + 1) n' in (rd m p :: l, nul)
  end.

Definition copyinstr_body (pagetable : Z) (x : Z * list Z * Z * bool) :
    M kst (Z * list Z * Z * bool + Z * list Z) :=
  let '(srcva, dst, max, got_null) := x in
  if negb got_null && (max >? 0) then
    let va0 := PGROUNDDOWN srcva in
    pa0 <- walkaddr pagetable va0 ;;
    if pa0 =? 0 then ret (inr (-1, dst))
    else
      let n := PGSIZE - (srcva - va0) in
      let n := if n >? max then max else n in
      r <- gets (fun s => copystr s.(k_mem) (pa0 + (srcva - va0)) (Z.to_nat n)) ;;
      let '(bs, nul) := r in
      ret (inl (u64 (va0 + PGSIZE), dst ++ bs,
                max - (if nul : bool then Z.of_nat (length bs) - 1 else Z.of_nat (length bs)),
                nul))
  else ret (inr (if got_null : bool then 0 else -1, dst)).

Definition copyinstr (pagetable srcva max : Z) : M kst (Z * list Z) :=
  loop (Z.to_nat (max / PGSIZE) + 3) (copyinstr_body pagetable) (srcva, [], max, false).

End Vm.
