(* ===== verification/Pagetable.v ===== *)
(** * Page tables as trees, address spaces as maps

    The abstract view of kernel/vm.c.  The page-table pages of one address
    space are a finite map [T] from paths (the indices from the root, last
    index first) to page addresses; [pt_rep] says that memory holds that
    tree.  Seen from outside, an address space is the function [pte_of] from
    virtual addresses to leaf entries.  [owned] lists the pages that the free
    list, the tree and the user mappings own: they are all different, and
    the operations only move pages between the three. *)

From S2P Require Import Prelude Riscv Memory Spinlock Kalloc Vm.

Abbreviation ptree := (gmap (list Z) Z).

Definition pages_of {K : Type} `{Countable K} (T : gmap K Z) : list Z := (map_to_list T).*2.

(** The path of the leaf page-table page for [va]. *)
Definition leaf_path (va : Z) : list Z := [PX 1 va; PX 2 va].

Definition valid (pte : Z) : Prop := Z.land pte PTE_V <> 0.

Record pt_rep (m : mem) (T : ptree) (root : Z) : Prop := {
  pr_root : T !! [] = Some root;
  pr_len : forall p a, T !! p = Some a -> (length p <= 2)%nat;
  pr_child : forall i p q, T !! (i :: p) = Some q -> 0 <= i < 512 /\ is_Some (T !! p);
  pr_max : forall i q, T !! [i] = Some q -> i < 256;
  pr_entry : forall p a i, T !! p = Some a -> (length p < 2)%nat -> 0 <= i < 512 ->
    match T !! (i :: p) with
    | Some q => load64 m (a + 8 * i) = Z.lor (PA2PTE q) PTE_V
    | None => Z.land (load64 m (a + 8 * i)) PTE_V = 0
    end
}.

(** The leaf entry that [walk] finds for [va]; 0 where there is no leaf page. *)
Definition pte_of (m : mem) (T : ptree) (va : Z) : Z :=
  match T !! leaf_path va with
  | Some q => load64 m (q + 8 * PX 0 va)
  | None => 0
  end.

Lemma elem_pages_of {K : Type} `{Countable K} (T : gmap K Z) a :
  a ∈ pages_of T <-> exists k, T !! k = Some a.
Proof.
  unfold pages_of. rewrite list_elem_of_fmap. split.
  - intros ([k v] & -> & Hin). apply elem_of_map_to_list in Hin. eauto.
  - intros [k Hk]. exists (k, a). by rewrite elem_of_map_to_list.
Qed.

Lemma pages_of_insert {K : Type} `{Countable K} (T : gmap K Z) k a :
  T !! k = None -> pages_of (<[k := a]> T) ≡ₚ a :: pages_of T.
Proof. intros Hk. unfold pages_of. by rewrite map_to_list_insert. Qed.

Lemma pages_of_delete {K : Type} `{Countable K} (T : gmap K Z) k a :
  T !! k = Some a -> pages_of T ≡ₚ a :: pages_of (delete k T).
Proof.
  intros Hk. rewrite <- pages_of_insert by apply lookup_delete_eq.
  by rewrite insert_delete_id.
Qed.

(** Two keys with the same page are the same key. *)
Lemma pages_of_inj {K : Type} `{Countable K} (T : gmap K Z) k k' a :
  NoDup (pages_of T) -> T !! k = Some a -> T !! k' = Some a -> k = k'.
Proof.
  intros Hd Hk Hk'. destruct (decide (k = k')) as [|Hne]; [done|]. exfalso.
  rewrite (pages_of_delete T k a Hk) in Hd. apply NoDup_cons in Hd as [Hn _].
  apply Hn, elem_pages_of. exists k'. by rewrite lookup_delete_ne.
Qed.

(** ** One level of the tree *)

Section Tree.
Context `{ImageOk}.

Lemma pte_valid q : page_ok q -> nz (Z.land (Z.lor (PA2PTE q) PTE_V) PTE_V) = true.
Proof.
  intros [Ha Hr]. pose proof kend_range. unfold PTE_V at 2.
  rewrite (land_flag _ 0) by lia. rewrite PTE_FLAGS_PA2PTE by (done || clia). done.
Qed.

Lemma pte_next q : page_ok q -> PTE2PA (Z.lor (PA2PTE q) PTE_V) = q.
Proof. intros [Ha Hr]. pose proof kend_range. apply PTE2PA_PA2PTE; done || clia. Qed.

(** Entry addresses: entries of one page differ, and lie inside the page. *)
Lemma entry_in_page a i b :
  0 <= i < 512 -> a + 8 * i <= b < a + 8 * i + 8 -> in_page a b.
Proof. unfold in_page. intros. clia. Qed.

(** *** Without allocation *)

Lemma walk_level_found m T root s p a q va level :
  pt_rep m T root -> s.(k_mem) = m -> T !! p = Some a -> (length p < 2)%nat -> 0 <= level ->
  T !! (PX level va :: p) = Some q -> page_ok q ->
  forall alloc, walk_level alloc va level a s = Ok (Some q) s.
Proof.
  intros Hr Hm Hp Hl Hlev Hq Hpq alloc. unfold walk_level, load_pte. cbn.
  pose proof (pr_entry _ _ _ Hr p a (PX level va) Hp Hl ltac:(by apply PX_range)) as He.
  rewrite Hq in He. rewrite Hm, He, pte_valid by done. cbn. by rewrite pte_next.
Qed.

Lemma walk_level_missing m T root s p a va level :
  pt_rep m T root -> s.(k_mem) = m -> T !! p = Some a -> (length p < 2)%nat -> 0 <= level ->
  T !! (PX level va :: p) = None ->
  walk_level false va level a s = Ok None s.
Proof.
  intros Hr Hm Hp Hl Hlev Hq. unfold walk_level, load_pte. cbn.
  pose proof (pr_entry _ _ _ Hr p a (PX level va) Hp Hl ltac:(by apply PX_range)) as He.
  rewrite Hq in He. by rewrite Hm, He.
Qed.

(** [walk] without allocation computes the address of the leaf entry. *)
Lemma walk_noalloc s T root va :
  pt_rep s.(k_mem) T root -> Forall page_ok (pages_of T) -> 0 <= va < MAXVA ->
  walk root va false s =
  Ok (match T !! leaf_path va with Some q => q + 8 * PX 0 va | None => 0 end) s.
Proof.
  intros Hr Hok Hva. unfold walk.
  destruct (Z.geb_spec va MAXVA); [lia|]. cbn [bind walk_levels].
  assert (Hp : forall p a, T !! p = Some a -> page_ok a).
  { intros p a Ha. apply (Forall_elem _ _ _ Hok), elem_pages_of. eauto. }
  pose proof (pr_root _ _ _ Hr) as Hroot. unfold leaf_path.
  destruct (T !! [PX 2 va]) as [a1|] eqn:E1.
  - rewrite (walk_level_found _ _ _ s [] _ a1 va 2 Hr eq_refl Hroot ltac:(cbn; lia) ltac:(lia) E1)
      by eauto. cbn [obind].
    destruct (T !! [PX 1 va; PX 2 va]) as [a0|] eqn:E0.
    + cbn [bind walk_levels].
      rewrite (walk_level_found _ _ _ s _ _ a0 va 1 Hr eq_refl E1 ltac:(cbn; lia) ltac:(lia) E0)
        by eauto. done.
    + cbn [bind walk_levels].
      rewrite (walk_level_missing _ _ _ s _ _ va 1 Hr eq_refl E1 ltac:(cbn; lia) ltac:(lia) E0).
      done.
  - rewrite (walk_level_missing _ _ _ s _ _ va 2 Hr eq_refl Hroot ltac:(cbn; lia) ltac:(lia) E1).
    cbn [obind]. destruct (T !! [PX 1 va; PX 2 va]) as [a0|] eqn:E0; [|done].
    apply (pr_child _ _ _ Hr) in E0 as [_ [? E0]]. congruence.
Qed.

(** *** Changes of the tree in memory *)

(** Writes that avoid the pages of the tree change neither it nor the view. *)
Lemma pt_frame (P : Z -> Prop) m m' T root :
  pt_rep m T root -> same_except P m m' ->
  (forall p a b, T !! p = Some a -> in_page a b -> ~ P b) ->
  pt_rep m' T root /\ forall va, pte_of m' T va = pte_of m T va.
Proof.
  intros [Hr Hl Hc Hx He] Hs HP. split.
  - split; [done..|]. intros p a i Hp Hlp Hi. specialize (He p a i Hp Hlp Hi).
    rewrite (load64_page P m m'); [done|done|].
    intros b Hb. apply (HP _ _ _ Hp). by eapply entry_in_page.
  - intros va. unfold pte_of. destruct (T !! leaf_path va) as [q|] eqn:E; [|done].
    apply (load64_page P); [done|]. intros b Hb. apply (HP _ _ _ E).
    eapply entry_in_page; [|done]. by apply PX_range.
Qed.

(** Entries of different pages, or different entries of one page, do not
    overlap. *)
Lemma entries_disjoint a a' i j b :
  page_ok a -> page_ok a' -> 0 <= i < 512 -> 0 <= j < 512 -> (a = a' -> i <> j) ->
  a + 8 * i <= b < a + 8 * i + 8 -> ~ (a' + 8 * j <= b < a' + 8 * j + 8).
Proof.
  intros Ha Ha' Hi Hj Hne Hb Hb'. destruct (decide (a = a')) as [->|Hn].
  - specialize (Hne eq_refl). lia.
  - apply (pages_in_ne a a' b); eauto using entry_in_page.
Qed.

(** Hanging a zeroed page [q] from entry [i] of the interior page [a]. *)
Lemma pt_add m m' T root p a i q :
  pt_rep m T root -> NoDup (q :: pages_of T) -> Forall page_ok (q :: pages_of T) ->
  T !! p = Some a -> (length p < 2)%nat -> 0 <= i < 512 -> (p = [] -> i < 256) ->
  T !! (i :: p) = None -> (forall b, in_page q b -> rd m' b = 0) ->
  load64 m' (a + 8 * i) = Z.lor (PA2PTE q) PTE_V ->
  same_except (fun b => in_page q b \/ a + 8 * i <= b < a + 8 * i + 8) m m' ->
  pt_rep m' (<[i :: p := q]> T) root /\
  forall va, pte_of m' (<[i :: p := q]> T) va = pte_of m T va.
Proof.
  intros Hr Hd Hok Hp Hl Hi Hi' Hn Hz He Hs.
  apply NoDup_cons in Hd as [Hq Hd]. apply Forall_cons in Hok as [Hqok Hok].
  assert (HT : forall k c, T !! k = Some c -> page_ok c /\ c <> q).
  { intros k c Hk. assert (c ∈ pages_of T) by (apply elem_pages_of; eauto).
    split; [by eapply Forall_elem|]. by intros ->. }
  assert (Hzero : forall j, 0 <= j < 512 -> load64 m' (q + 8 * j) = 0).
  { intros j Hj. apply load64_zero. intros b Hb. apply Hz. by eapply entry_in_page. }
  assert (Hsame : forall k c j, T !! k = Some c -> 0 <= j < 512 -> (c = a -> j <> i) ->
            load64 m' (c + 8 * j) = load64 m (c + 8 * j)).
  { intros k c j Hk Hj Hne. destruct (HT _ _ Hk) as [Hc Hcq].
    eapply load64_page; [exact Hs|]. intros b Hb [Hb'|Hb'].
    - by apply (pages_in_ne c q b); eauto using entry_in_page.
    - revert Hb'. apply (entries_disjoint c a j i b); auto. by apply (HT p). }
  assert (Hinj : forall k, T !! k = Some a -> k = p).
  { intros k Hk. by eapply pages_of_inj. }
  pose proof Hr as [Hroot Hlen Hc Hmax Hent]. split.
  - split.
    + rewrite lookup_insert_ne by done. done.
    + intros k c. rewrite lookup_insert. case_decide as E; [|by apply Hlen].
      subst. cbn. lia.
    + intros j k c. rewrite lookup_insert. case_decide as E.
      * injection E as -> ->. intros _. split; [done|]. rewrite lookup_insert_ne; [by rewrite Hp|].
        intros E. apply (f_equal length) in E. cbn in E. lia.
      * intros Hk. destruct (Hc _ _ _ Hk) as [Hj Hsome]. split; [done|].
        rewrite lookup_insert. by case_decide.
    + intros j c. rewrite lookup_insert. case_decide as E; [|apply Hmax].
      injection E as -> ->. auto.
    + intros k c j Hk Hlk Hj. rewrite lookup_insert in Hk. case_decide as E.
      * subst k. injection Hk as <-. rewrite lookup_insert_ne.
        2:{ intros E. apply (f_equal length) in E. cbn in E. lia. }
        destruct (T !! (j :: i :: p)) as [x|] eqn:Ex.
        { apply Hc in Ex as [_ [? Ex]]. congruence. }
        by rewrite Hzero.
      * rewrite lookup_insert. case_decide as E'.
        { injection E' as -> ->. rewrite Hp in Hk. injection Hk as ->. done. }
        rewrite (Hsame k c j Hk Hj).
        { by apply Hent. }
        intros ->. apply Hinj in Hk as ->. congruence.
  - intros va. unfold pte_of. rewrite lookup_insert. case_decide as E.
    + rewrite <- E, Hn. apply Hzero. by apply PX_range.
    + destruct (T !! leaf_path va) as [c|] eqn:Ec; [|done].
      apply (Hsame _ _ _ Ec); [by apply PX_range|].
      intros ->. apply Hinj in Ec. subst p. cbn in Hl. lia.
Qed.

(** Virtual addresses on one page. *)
Definition same_page (va va' : Z) : Prop := va / PGSIZE = va' / PGSIZE.

#[export] Instance same_page_dec va va' : Decision (same_page va va').
Proof. unfold same_page. apply _. Defined.

Lemma same_page_PX va va' :
  0 <= va < MAXVA -> 0 <= va' < MAXVA ->
  same_page va va' <-> leaf_path va = leaf_path va' /\ PX 0 va = PX 0 va'.
Proof.
  intros Hva Hva'. unfold same_page, leaf_path. split.
  - intros E. rewrite !PX_spec by lia.
    change (2 ^ (12 + 9 * 2)) with (PGSIZE * 2 ^ 18). change (2 ^ (12 + 9 * 1)) with (PGSIZE * 2 ^ 9).
    change (2 ^ (12 + 9 * 0)) with PGSIZE.
    rewrite <- !Z.div_div by clia. by rewrite E.
  - intros [E E0]. injection E as E1 E2.
    rewrite (va_decompose va Hva), (va_decompose va' Hva'), E0, E1, E2.
    set (k := PX 2 va' * 2 ^ 30 + PX 1 va' * 2 ^ 21 + PX 0 va' * 2 ^ 12).
    assert (k = (PX 2 va' * 2 ^ 18 + PX 1 va' * 2 ^ 9 + PX 0 va') * PGSIZE) as -> by (unfold k; clia).
    rewrite !Z.div_add_l by clia. rewrite !Z.div_small by (apply Z.mod_pos_bound; clia). done.
Qed.

(** Storing a leaf entry changes the view of its page and of nothing else. *)
Lemma pt_set_leaf m T root va q v :
  pt_rep m T root -> NoDup (pages_of T) -> Forall page_ok (pages_of T) ->
  T !! leaf_path va = Some q -> 0 <= va < MAXVA ->
  pt_rep (store64 m (q + 8 * PX 0 va) v) T root /\
  (forall va', 0 <= va' < MAXVA ->
     pte_of (store64 m (q + 8 * PX 0 va) v) T va' =
     if decide (same_page va va') then u64 v else pte_of m T va').
Proof.
  intros Hr Hd Hok Hq Hva.
  assert (HT : forall k c, T !! k = Some c -> page_ok c).
  { intros k c Hk. eapply Forall_elem; [done|]. apply elem_pages_of; eauto. }
  assert (Hpx : forall x, 0 <= PX 0 x < 512) by (intros; by apply PX_range).
  assert (Hsame : forall k c j, T !! k = Some c -> 0 <= j < 512 ->
            (k = leaf_path va -> j <> PX 0 va) ->
            load64 (store64 m (q + 8 * PX 0 va) v) (c + 8 * j) = load64 m (c + 8 * j)).
  { intros k c j Hk Hj Hne. apply load64_ext. intros b Hb. apply rd_store64.
    apply (entries_disjoint c q j (PX 0 va) b); eauto.
    intros ->. apply Hne. by eapply pages_of_inj. }
  pose proof Hr as [Hroot Hlen Hc Hmax Hent]. split.
  - split; [done..|]. intros k c j Hk Hlk Hj. rewrite (Hsame k c j Hk Hj); [by apply Hent|].
    intros ->. cbn in Hlk. lia.
  - intros va' Hva'. unfold pte_of. case_decide as E.
    + apply same_page_PX in E as [E E0]; [|done..]. rewrite <- E, Hq, <- E0.
      apply load64_store64.
    + destruct (T !! leaf_path va') as [c|] eqn:Ec; [|done].
      apply (Hsame _ _ _ Ec); [done|]. intros El E0. apply E, same_page_PX; auto.
Qed.

(** ** Ownership of pages

    [F] are the free pages, [T] the page-table pages, [U] the physical pages
    of the user mappings, by page-aligned virtual address. *)
Definition owned (F : list Z) (T : ptree) (U : gmap Z Z) : list Z :=
  F ++ pages_of T ++ pages_of U.

Definition user_pte (pte pa : Z) : Prop :=
  valid pte /\ PTE2PA pte = pa /\ Z.land pte PTE_R <> 0.

(** A readable entry is not a pointer to a page table. *)
Lemma readable_leaf pte : Z.land pte PTE_R <> 0 -> PTE_FLAGS pte <> PTE_V.
Proof.
  intros Hr E. apply Hr. change PTE_R with (Z.shiftl 1 1). rewrite (land_flag _ 1), E by lia. done.
Qed.

Record vinv (s : kst) (root : Z) (F : list Z) (T : ptree) (U : gmap Z Z) : Prop := {
  vi_hart : hart_stable s.(k_hart);
  vi_lock : lock_free s.(kmem_lock);
  vi_list : fl_rep s.(k_mem) s.(freelist) F;
  vi_pt : pt_rep s.(k_mem) T root;
  vi_nodup : NoDup (owned F T U);
  vi_pages : Forall page_ok (owned F T U);
  vi_user : forall va pa, U !! va = Some pa ->
    0 <= va < MAXVA /\ page_aligned va /\ user_pte (pte_of s.(k_mem) T va) pa
}.

(** Memory is unchanged outside the pages of [L]. *)
Definition frame (L : list Z) (m m' : mem) : Prop :=
  same_except (fun b => exists a, a ∈ L /\ in_page a b) m m'.

Lemma frame_trans L m m' m'' : frame L m m' -> frame L m' m'' -> frame L m m''.
Proof. intros H1 H2 b Hb. by rewrite H2, H1. Qed.

Lemma frame_incl L L' m m' : (forall a, a ∈ L -> a ∈ L') -> frame L m m' -> frame L' m m'.
Proof. intros Hi Hf. eapply same_except_weaken; [exact Hf|]. intros b (a & Ha & Hb). eauto. Qed.

Lemma frame_load L m m' a :
  frame L m m' -> page_ok a -> Forall page_ok L -> a ∉ L ->
  forall b, in_page a b -> rd m' b = rd m b.
Proof.
  intros Hf Ha Hl Hn b Hb. apply Hf. intros (c & Hc & Hcb).
  apply (pages_in_ne a c b); try done; [by eapply Forall_elem|]. by intros ->.
Qed.

Lemma vinv_kinv s root F T U : vinv s root F T U -> kinv s F.
Proof.
  intros [Hh Hl Hf Hp Hd Hok Hu]. unfold owned in *. split; try done.
  - by apply NoDup_app in Hd as [? _].
  - by apply Forall_app in Hok as [? _].
Qed.

Lemma vinv_tree s root F T U :
  vinv s root F T U -> NoDup (pages_of T) /\ Forall page_ok (pages_of T).
Proof.
  intros [Hh Hl Hf Hp Hd Hok Hu]. unfold owned in *.
  apply NoDup_app in Hd as (_ & _ & Hd). apply NoDup_app in Hd as (? & _ & _).
  apply Forall_app in Hok as [_ Hok]. by apply Forall_app in Hok as [? _].
Qed.

(** Moving the first free page into the tree permutes the pages owned. *)
Lemma owned_to_tree q F T U k :
  T !! k = None -> owned F (<[k := q]> T) U ≡ₚ owned (q :: F) T U.
Proof.
  intros Hk. unfold owned. rewrite pages_of_insert by done. cbn.
  symmetry. apply Permutation_middle.
Qed.

Lemma vinv_walk s root F T U va :
  vinv s root F T U -> 0 <= va < MAXVA ->
  walk root va false s =
  Ok (match T !! leaf_path va with Some q => q + 8 * PX 0 va | None => 0 end) s.
Proof.
  intros Hv Hva. destruct (vinv_tree _ _ _ _ _ Hv) as [Hd Hok].
  apply walk_noalloc; try done. apply Hv.
Qed.

(** A free page is none of the other free pages and none of the tree's. *)
Lemma vinv_fresh s root q F T U :
  vinv s root (q :: F) T U ->
  NoDup (q :: pages_of T) /\ Forall page_ok (q :: pages_of T) /\ Forall page_ok F /\
  (forall c, c ∈ F -> c <> q /\ (c ∉ pages_of T)).
Proof.
  intros [Hh Hl Hf Hp Hd Hok Hu]. unfold owned in *. cbn in Hd, Hok.
  apply NoDup_cons in Hd as [Hd1 Hd2]. apply Forall_cons in Hok as [Hq Hok].
  apply NoDup_app in Hd2 as (_ & Hd2 & Hd3). apply NoDup_app in Hd3 as (Hd3 & _ & _).
  apply Forall_app in Hok as [HF Hok]. apply Forall_app in Hok as [HT _].
  split_and!; [|by constructor|done|].
  - apply NoDup_cons. split; [lelem|done].
  - intros c Hc. split; [intros ->; lelem|]. intros Hct. apply (Hd2 c Hc). lelem.
Qed.

(** The memory after a new page-table page is installed. *)
Definition new_table (m : mem) (q pte : Z) : mem :=
  store64 (memset (memset m q 5 PGSIZE) q 0 PGSIZE) pte (Z.lor (PA2PTE q) PTE_V).

Lemma new_table_mem m q a i :
  page_ok q -> page_ok a -> a <> q -> 0 <= i < 512 ->
  (forall b, in_page q b -> rd (new_table m q (a + 8 * i)) b = 0) /\
  load64 (new_table m q (a + 8 * i)) (a + 8 * i) = Z.lor (PA2PTE q) PTE_V /\
  same_except (fun b => in_page q b \/ a + 8 * i <= b < a + 8 * i + 8) m
    (new_table m q (a + 8 * i)).
Proof.
  intros Hq Ha Hne Hi. unfold new_table. split_and!.
  - intros b Hb. rewrite rd_store64.
    + rewrite rd_memset by clia. by rewrite decide_True.
    + intros Hb'. apply (pages_in_ne q a b); eauto using entry_in_page.
  - rewrite load64_store64, u64_small; [done|].
    destruct Hq as [Hqa Hqr]. pose proof kend_range.
    pose proof (PTE_range q PTE_V Hqa ltac:(clia) ltac:(clia)). lia.
  - intros b Hb. rewrite rd_store64 by tauto. rewrite !memset_page by tauto. done.
Qed.

Lemma new_table_frame m q a i :
  page_ok q -> page_ok a -> a <> q -> 0 <= i < 512 -> frame [q; a] m (new_table m q (a + 8 * i)).
Proof.
  intros Hq Ha Hne Hi. destruct (new_table_mem m q a i) as (_ & _ & Hs); try done.
  eapply same_except_weaken; [exact Hs|]. intros b [?|?]; [exists q|exists a].
  - split; [lelem|done].
  - split; [lelem|]. by eapply entry_in_page.
Qed.

(** *** [walk] with allocation, one level *)
Lemma walk_level_alloc s root F T U p a q va level :
  vinv s root (q :: F) T U -> T !! p = Some a -> (length p < 2)%nat -> 0 <= level ->
  (p = [] -> PX level va < 256) -> T !! (PX level va :: p) = None ->
  exists s', walk_level true va level a s = Ok (Some q) s' /\
    vinv s' root F (<[PX level va :: p := q]> T) U /\
    (forall va', pte_of s'.(k_mem) (<[PX level va :: p := q]> T) va' = pte_of s.(k_mem) T va') /\
    s'.(k_hart) = s.(k_hart) /\ frame [q; a] s.(k_mem) s'.(k_mem).
Proof.
  intros Hv Hp Hl Hlev Hmax Hn. pose proof (PX_range level va Hlev) as Hi.
  pose proof (vinv_kinv _ _ _ _ _ Hv) as Hk.
  destruct (vinv_fresh _ _ _ _ _ _ Hv) as (Hqd & Hqok & HFok & HF).
  destruct Hv as [Hh Hlk [Eq Hf] Hpt Hd Hok Hu].
  pose proof (owned_to_tree q F T U _ Hn) as Hperm.
  assert (Ha : a ∈ pages_of T) by (apply elem_pages_of; eauto).
  assert (Haok : page_ok a) by (inversion Hqok; by eapply Forall_elem).
  assert (Haq : a <> q) by (apply NoDup_cons in Hqd as [? _]; by intros ->).
  assert (Hqp : page_ok q) by by inversion Hqok.
  destruct (new_table_mem (k_mem s) q a _ Hqp Haok Haq Hi) as (Hz & He' & Hs).
  pose proof (new_table_frame (k_mem s) q a _ Hqp Haok Haq Hi) as Hfr.
  destruct (pt_add (k_mem s) _ T root p a (PX level va) q Hpt Hqd Hqok Hp Hl Hi Hmax Hn Hz He' Hs)
    as [Hpt2 Hpte]. clear Hz He' Hs.
  unfold walk_level, load_pte, store_pte. cbn.
  pose proof (pr_entry _ _ _ Hpt p a _ Hp Hl Hi) as He. rewrite Hn in He. rewrite He. cbn.
  rewrite (kalloc_eq s q F Hk). cbn. pose proof (page_pos q Hqp).
  destruct (Z.eqb_spec q 0); [lia|]. cbn. fold (new_table (k_mem s) q (a + 8 * PX level va)).
  eexists. split; [done|]. cbn [k_hart k_mem].
  split; [|split; [exact Hpte|split; [done|exact Hfr]]].
  split; cbn [k_hart k_mem kmem_lock freelist];
    [done|done| |exact Hpt2|by rewrite Hperm|by rewrite Hperm|].
  - eapply fl_rep_except; [done| |exact Hfr|done].
    intros c b Hc Hcb (x & Hx & Hxb). destruct (HF c Hc) as [Hcq HcT].
    pose proof (Forall_elem _ _ _ HFok Hc) as Hcok.
    apply elem_of_cons in Hx as [->|[->|[]%elem_of_nil]%elem_of_cons].
    + exact (pages_in_ne c q b Hcok Hqp Hcq Hcb Hxb).
    + refine (pages_in_ne c a b Hcok Haok _ Hcb Hxb). by intros ->.
  - intros va' pa Hpa. rewrite Hpte. by apply Hu.
Qed.

Lemma PX2_max va : 0 <= va < MAXVA -> PX 2 va < 256.
Proof. intros Hva. rewrite PX_spec by lia. change (2 ^ (12 + 9 * 2)) with 1073741824. cdlia. Qed.

(** What adding entries to the tree may do: the user mappings stay, free pages
    move into the tree, memory changes on those pages only.  [f] is the
    address space after. *)
Record vext (s : kst) (root : Z) (F : list Z) (T : ptree) (U : gmap Z Z)
    (s' : kst) (F' : list Z) (T' : ptree) (f : Z -> Z) : Prop := {
  ve_vinv : vinv s' root F' T' U;
  ve_sub : T ⊆ T';
  ve_perm : F' ++ pages_of T' ≡ₚ F ++ pages_of T;
  ve_pte : forall va, 0 <= va < MAXVA -> pte_of s'.(k_mem) T' va = f va;
  ve_hart : s'.(k_hart) = s.(k_hart);
  ve_frame : frame (F ++ pages_of T) s.(k_mem) s'.(k_mem)
}.

Lemma vext_refl s root F T U :
  vinv s root F T U -> vext s root F T U s F T (pte_of s.(k_mem) T).
Proof. intros Hv. by split. Qed.

Lemma vext_trans s root F T U s1 F1 T1 f s2 F2 T2 g :
  vext s root F T U s1 F1 T1 f -> vext s1 root F1 T1 U s2 F2 T2 g ->
  vext s root F T U s2 F2 T2 g.
Proof.
  intros [Hv1 Ht1 Hp1 He1 Hh1 Hf1] [Hv2 Ht2 Hp2 He2 Hh2 Hf2]. split; try done.
  - by etransitivity.
  - by rewrite Hp2, Hp1.
  - by rewrite Hh2, Hh1.
  - eapply frame_trans; [exact Hf1|]. eapply frame_incl; [|exact Hf2].
    intros a. by rewrite Hp1.
Qed.

Lemma vext_view s root F T U s' F' T' f g :
  vext s root F T U s' F' T' f -> (forall va, 0 <= va < MAXVA -> f va = g va) ->
  vext s root F T U s' F' T' g.
Proof. intros [Hv1 Ht1 Hp1 He1 Hh1 Hf1] Hg. split; try done. intros. by rewrite He1, Hg. Qed.

Lemma walk_level_vext s root F T U p a va level :
  vinv s root F T U -> T !! p = Some a -> (length p < 2)%nat -> 0 <= level ->
  (p = [] -> PX level va < 256) ->
  exists r s' F' T', walk_level true va level a s = Ok r s' /\ vext s root F T U s' F' T' (pte_of s.(k_mem) T) /\
    (length F <= length F' + 1)%nat /\
    match r with Some q => T' !! (PX level va :: p) = Some q | None => F = [] /\ F' = [] end.
Proof.
  intros Hv Hp Hl Hlev Hmax. destruct (T !! (PX level va :: p)) as [q|] eqn:E.
  - exists (Some q), s, F, T. split; [|split; [by apply vext_refl|split; [lia|done]]].
    apply (walk_level_found _ T root s p a q va level (vi_pt _ _ _ _ _ Hv) eq_refl Hp Hl Hlev E).
    destruct (vinv_tree _ _ _ _ _ Hv) as [_ Hok]. eapply Forall_elem; [exact Hok|].
    apply elem_pages_of. eauto.
  - destruct F as [|q F].
    + exists None, s, [], T. split; [|split; [by apply vext_refl|split; [cbn; lia|done]]].
      pose proof (pr_entry _ _ _ (vi_pt _ _ _ _ _ Hv) p a (PX level va) Hp Hl
                    (PX_range _ _ Hlev)) as He. rewrite E in He.
      unfold walk_level, load_pte. cbn. rewrite He. cbn.
      by rewrite (kalloc_nil s (vinv_kinv _ _ _ _ _ Hv)).
    + destruct (walk_level_alloc s root F T U p a q va level Hv Hp Hl Hlev Hmax E)
        as (s' & Hw & Hv' & He & Hh & Hf).
      exists (Some q), s', F, (<[PX level va :: p := q]> T). split; [done|].
      split; [|split; [cbn; lia|apply lookup_insert_eq]]. split; try done.
      * by apply insert_subseteq.
      * rewrite pages_of_insert by done. cbn. symmetry. apply Permutation_middle.
      * eapply frame_incl; [|exact Hf]. intros x Hx.
        assert (a ∈ pages_of T) by (apply elem_pages_of; eauto).
        apply elem_of_cons in Hx as [->|[->|[]%elem_of_nil]%elem_of_cons]; lelem.
Qed.

(** [walk] with allocation returns the leaf entry, or fails for want of a free
    page; either way the address space looks as before. *)
Lemma walk_alloc s root F T U va :
  vinv s root F T U -> 0 <= va < MAXVA ->
  exists r s' F' T', walk root va true s = Ok r s' /\ vext s root F T U s' F' T' (pte_of s.(k_mem) T) /\
    (length F <= length F' + 2)%nat /\
    (r = 0 /\ F' = [] /\ (length F <= 1)%nat \/
     exists q, T' !! leaf_path va = Some q /\ page_ok q /\ r = q + 8 * PX 0 va).
Proof.
  intros Hv Hva. unfold walk. destruct (Z.geb_spec va MAXVA); [lia|].
  pose proof (pr_root _ _ _ (vi_pt _ _ _ _ _ Hv)) as Hroot.
  destruct (walk_level_vext s root F T U [] root va 2 Hv Hroot ltac:(cbn; lia) ltac:(lia)
              (fun _ => PX2_max va Hva)) as (r1 & s1 & F1 & T1 & Hw1 & Hx1 & Hlen1 & Hr1).
  cbn [bind walk_levels]. rewrite Hw1. cbn [obind]. destruct r1 as [q1|].
  2:{ destruct Hr1 as [-> ->]. exists 0, s1, [], T1. split_and!; try done; [cbn; lia|].
      left. split_and!; cbn; done || lia. }
  destruct (walk_level_vext s1 root F1 T1 U [PX 2 va] q1 va 1 (ve_vinv _ _ _ _ _ _ _ _ _ Hx1) Hr1
              ltac:(cbn; lia) ltac:(lia) ltac:(done)) as (r2 & s2 & F2 & T2 & Hw2 & Hx2 & Hlen2 & Hr2).
  cbn [bind walk_levels]. rewrite Hw2. cbn [obind].
  pose proof (vext_view _ _ _ _ _ _ _ _ _ _ (vext_trans _ _ _ _ _ _ _ _ _ _ _ _ _ Hx1 Hx2)
                (ve_pte _ _ _ _ _ _ _ _ _ Hx1)) as Hx.
  destruct r2 as [q2|].
  2:{ destruct Hr2 as [-> ->]. exists 0, s2, [], T2. split_and!; try done; [cbn in *; lia|].
      left. split_and!; done || (cbn in *; lia). }
  exists (q2 + 8 * PX 0 va), s2, F2, T2. split; [done|]. split; [done|].
  split; [lia|]. right. exists q2.
  split; [done|]. split; [|done].
  destruct (vinv_tree _ _ _ _ _ (ve_vinv _ _ _ _ _ _ _ _ _ Hx)) as [_ Hok].
  eapply Forall_elem; [exact Hok|]. apply elem_pages_of. eauto.
Qed.

End Tree.
