(* ===== verification/Uvm.v ===== *)
(** * Address spaces: mapping, unmapping, growing and copying

    The functional behaviour of the operations of kernel/vm.c on one address
    space, seen as the function [pte_of] of Pagetable: what they map, what
    they leave alone, and that every page they take is accounted for. *)

From S2P Require Import Prelude Riscv Memory Spinlock Kalloc Vm Pagetable.

Section Uvm.
Context `{ImageOk}.

(** ** One entry *)

Lemma pte_of_page m T va va' :
  0 <= va < MAXVA -> 0 <= va' < MAXVA -> same_page va va' -> pte_of m T va = pte_of m T va'.
Proof.
  intros Hva Hva' Hs. apply same_page_PX in Hs as [E E0]; [|done..].
  unfold pte_of. by rewrite E, E0.
Qed.

Lemma pte_of_leaf m T va q : T !! leaf_path va = Some q -> pte_of m T va = load64 m (q + 8 * PX 0 va).
Proof. intros E. unfold pte_of. by rewrite E. Qed.

Lemma vinv_leaf s root F T U va q :
  vinv s root F T U -> T !! leaf_path va = Some q -> page_ok q /\ q ∈ pages_of T.
Proof.
  intros Hv Hq. assert (q ∈ pages_of T) by (apply elem_pages_of; eauto).
  split; [|done]. destruct (vinv_tree _ _ _ _ _ Hv) as [_ Hok]. by eapply Forall_elem.
Qed.

(** The state after a store to a leaf entry. *)
Definition store_st (s : kst) (pte v : Z) : kst :=
  Kst s.(k_hart) (store64 s.(k_mem) pte v) s.(kmem_lock) s.(freelist).

Lemma store_frame s root F T U va q v :
  vinv s root F T U -> T !! leaf_path va = Some q ->
  frame (pages_of T) s.(k_mem) (store_st s (q + 8 * PX 0 va) v).(k_mem).
Proof.
  intros Hv Hq b Hb. destruct (vinv_leaf _ _ _ _ _ _ _ Hv Hq) as [Hqok Hin].
  apply rd_store64. intros Hbq. apply Hb. exists q. split; [done|].
  eapply entry_in_page; [|done]. by apply PX_range.
Qed.

(** The free list is on pages that the tree does not own. *)
Lemma vinv_disjoint s root F T U a b :
  vinv s root F T U -> a ∈ F -> in_page a b -> ~ (exists c, c ∈ pages_of T /\ in_page c b).
Proof.
  intros Hv Ha Hab (c & Hc & Hcb). pose proof (vi_nodup _ _ _ _ _ Hv) as Hd.
  pose proof (vi_pages _ _ _ _ _ Hv) as Hok. unfold owned in *.
  apply NoDup_app in Hd as (_ & Hd & _). rewrite !Forall_app in Hok. destruct Hok as (HF & HT & _).
  refine (pages_in_ne a c b (Forall_elem _ _ _ HF Ha) (Forall_elem _ _ _ HT Hc) _ Hab Hcb).
  intros ->. apply (Hd c Ha). lelem.
Qed.

Lemma vinv_store s root F T U va q v :
  vinv s root F T U -> T !! leaf_path va = Some q -> 0 <= va < MAXVA ->
  forall U', NoDup (owned F T U') -> Forall page_ok (owned F T U') ->
  (forall va' pa, U' !! va' = Some pa -> 0 <= va' < MAXVA /\ page_aligned va' /\
     user_pte (if decide (same_page va va') then u64 v else pte_of s.(k_mem) T va') pa) ->
  vinv (store_st s (q + 8 * PX 0 va) v) root F T U' /\
  (forall va', 0 <= va' < MAXVA ->
     pte_of (store_st s (q + 8 * PX 0 va) v).(k_mem) T va' =
     if decide (same_page va va') then u64 v else pte_of s.(k_mem) T va').
Proof.
  intros Hv Hq Hva U' Hd' Hok' Hu'. destruct (vinv_tree _ _ _ _ _ Hv) as [HdT HokT].
  destruct (pt_set_leaf s.(k_mem) T root va q v) as [Hpt Hview]; try done; [apply Hv|].
  split; [|exact Hview]. split; try done; try apply Hv.
  - eapply fl_rep_except; [apply (vinv_kinv _ _ _ _ _ Hv)| |by eapply store_frame|apply Hv].
    intros a b Ha Hab. by eapply vinv_disjoint.
  - intros va' pa Hpa. destruct (Hu' va' pa Hpa) as (Hr & Hal & Hp). cbn [k_mem store_st].
    rewrite Hview by done. done.
Qed.

(** ** mappages *)

(** The address space [g] with [n] pages mapped from [va] to [pa]. *)
Definition map_view (g : Z -> Z) (va n pa perm : Z) : Z -> Z := fun va' =>
  if decide (va <= va' < va + n * PGSIZE)
  then Z.lor (Z.lor (PA2PTE (pa + (PGROUNDDOWN va' - va))) perm) PTE_V
  else g va'.

Lemma map_pte pa perm :
  page_aligned pa -> 0 <= pa < 2 ^ 56 -> 0 <= perm < 2 ^ 10 ->
  let pte := Z.lor (Z.lor (PA2PTE pa) perm) PTE_V in
  u64 pte = pte /\ valid pte /\ PTE2PA pte = pa /\ PTE_FLAGS pte = Z.lor perm PTE_V.
Proof.
  intros Ha Hr Hp pte. assert (Hf : 0 <= Z.lor perm PTE_V < 2 ^ 10).
  { apply lor_range; clia. }
  assert (E : pte = Z.lor (PA2PTE pa) (Z.lor perm PTE_V)) by (symmetry; apply Z.lor_assoc).
  pose proof (PTE_range pa _ Ha Hr Hf). pose proof (PTE_FLAGS_PA2PTE pa _ Ha Hr Hf) as Hfl.
  rewrite <- E in *. split_and!; [apply u64_small; lia| |rewrite E; by apply PTE2PA_PA2PTE|done].
  unfold valid, PTE_V at 1. rewrite (land_flag _ 0), Hfl by lia.
  rewrite Z.land_lor_distr_l. intros [_ E']%Z.lor_eq_0_iff. done.
Qed.

(** A user mapping is valid, so no page that is still unmapped is one. *)
Lemma vinv_user_ne s root F T U va va' pa :
  vinv s root F T U -> 0 <= va < MAXVA -> ~ valid (pte_of s.(k_mem) T va) ->
  U !! va' = Some pa -> ~ same_page va va'.
Proof.
  intros Hv Hva Hn Hu Hs. destruct (vi_user _ _ _ _ _ Hv va' pa Hu) as (Hr & _ & [Hval _]).
  apply Hn. by rewrite (pte_of_page _ _ va va').
Qed.

Lemma map_view_one g va va' pa perm :
  page_aligned va -> 0 <= va < MAXVA -> 0 <= va' < MAXVA ->
  map_view g va 1 pa perm va' =
  if decide (same_page va va') then Z.lor (Z.lor (PA2PTE pa) perm) PTE_V else g va'.
Proof.
  intros Ha Hva Hva'. unfold map_view, same_page, page_aligned in *.
  destruct (decide (va <= va' < va + 1 * PGSIZE)), (decide (va / PGSIZE = va' / PGSIZE)); try done.
  - rewrite PGROUNDDOWN_spec. do 4 f_equal. cdlia.
  - exfalso. cdlia.
  - exfalso. cdlia.
Qed.

Lemma mappages_step s root F T U a pa perm last :
  vinv s root F T U -> page_aligned a -> 0 <= a < MAXVA -> page_aligned pa -> 0 <= pa < 2 ^ 56 ->
  0 <= perm < 2 ^ 10 -> ~ valid (pte_of s.(k_mem) T a) ->
  exists r s' F' T', mappages_body root last perm (a, pa) s = Ok r s' /\
    (length F <= length F' + 2)%nat /\
    (r = inr (-1) /\ F' = [] /\ (length F <= 1)%nat /\ vext s root F T U s' F' T' (pte_of s.(k_mem) T) \/
     r = (if a =? last then inr 0 else inl (u64 (a + PGSIZE), u64 (pa + PGSIZE))) /\
     vext s root F T U s' F' T' (map_view (pte_of s.(k_mem) T) a 1 pa perm)).
Proof.
  intros Hv Ha Hr Hpa Hpr Hperm Hn.
  destruct (walk_alloc s root F T U a Hv Hr) as (r & s1 & F1 & T1 & Hw & Hx & Hlen & Hres).
  unfold mappages_body. cbn [bind]. rewrite Hw. cbn [obind].
  destruct Hres as [(-> & -> & Hl1)|(q & Hq & Hqok & ->)].
  { exists (inr (-1)), s1, [], T1. split; [done|]. split; [done|]. by left. }
  pose proof (page_pos q Hqok). pose proof (PX_range 0 a ltac:(lia)).
  destruct (Z.eqb_spec (q + 8 * PX 0 a) 0); [lia|].
  pose proof (ve_vinv _ _ _ _ _ _ _ _ _ Hx) as Hv1.
  assert (Hn1 : ~ valid (pte_of s1.(k_mem) T1 a)) by by rewrite (ve_pte _ _ _ _ _ _ _ _ _ Hx).
  destruct (map_pte pa perm Hpa Hpr Hperm) as (Eu & _ & _ & _).
  destruct (vinv_store s1 root F1 T1 U a q (Z.lor (Z.lor (PA2PTE pa) perm) PTE_V) Hv1 Hq Hr U)
    as [Hv2 Hview]; try apply Hv1.
  { intros va' pa' Hu. destruct (vi_user _ _ _ _ _ Hv1 va' pa' Hu) as (Hr' & Hal & Hp).
    rewrite decide_False; [done|]. exact (vinv_user_ne _ _ _ _ _ _ _ _ Hv1 Hr Hn1 Hu). }
  unfold load_pte, store_pte. cbn. rewrite <- (pte_of_leaf _ _ _ _ Hq).
  replace (nz (Z.land (pte_of (k_mem s1) T1 a) PTE_V)) with false.
  2:{ unfold nz. destruct (Z.eqb_spec (Z.land (pte_of (k_mem s1) T1 a) PTE_V) 0); done. }
  cbn. fold (store_st s1 (q + 8 * PX 0 a) (Z.lor (Z.lor (PA2PTE pa) perm) PTE_V)).
  exists (if a =? last then inr 0 else inl (u64 (a + PGSIZE), u64 (pa + PGSIZE))),
    (store_st s1 (q + 8 * PX 0 a) (Z.lor (Z.lor (PA2PTE pa) perm) PTE_V)), F1, T1.
  split; [by destruct (a =? last)|]. split; [done|]. right. split; [done|].
  eapply vext_trans; [exact Hx|]. split; try done.
  - intros va Hva. rewrite Hview, map_view_one, Eu by done.
    by rewrite (ve_pte _ _ _ _ _ _ _ _ _ Hx).
  - eapply frame_incl; [|by eapply store_frame]. intros x. lelem.
Qed.

Lemma map_view_cons g a k pa perm va :
  0 <= k -> page_aligned a ->
  map_view (map_view g a 1 pa perm) (a + PGSIZE) k (pa + PGSIZE) perm va =
  map_view g a (1 + k) pa perm va.
Proof.
  intros Hk Ha. unfold map_view, page_aligned in *. repeat case_decide; try done; try (exfalso; clia).
  do 3 f_equal. lia.
Qed.

Lemma map_view_0 g a pa perm va : map_view g a 0 pa perm va = g va.
Proof. unfold map_view. case_decide; [exfalso; lia|done]. Qed.

Lemma map_view_ext f g a n pa perm va :
  f va = g va -> map_view f a n pa perm va = map_view g a n pa perm va.
Proof. intros E. unfold map_view. by rewrite E. Qed.

Lemma mappages_loop root U perm n : forall s F T a pa,
  vinv s root F T U -> page_aligned a -> 0 <= a -> a + Z.of_nat (S n) * PGSIZE <= MAXVA ->
  page_aligned pa -> 0 <= pa -> pa + Z.of_nat (S n) * PGSIZE <= 2 ^ 56 -> 0 <= perm < 2 ^ 10 ->
  (forall va, a <= va < a + Z.of_nat (S n) * PGSIZE -> ~ valid (pte_of s.(k_mem) T va)) ->
  exists r s' F' T' k,
    loop (S n) (mappages_body root (a + Z.of_nat n * PGSIZE) perm) (a, pa) s = Ok r s' /\
    vext s root F T U s' F' T' (map_view (pte_of s.(k_mem) T) a k pa perm) /\
    (length F <= length F' + 2 * S n)%nat /\
    (r = 0 /\ k = Z.of_nat (S n) \/
     r = -1 /\ F' = [] /\ 0 <= k < Z.of_nat (S n) /\ (length F < 2 * S n)%nat).
Proof.
  induction n as [|n IH]; intros s F T a pa Hv Ha Ha0 HaM Hpa Hpa0 HpaM Hperm Hn;
    rewrite loop_S;
    match goal with |- context [mappages_body root ?l perm] =>
      destruct (mappages_step s root F T U a pa perm l Hv Ha ltac:(clia) Hpa ltac:(clia) Hperm
                  ltac:(apply Hn; clia)) as (r & s1 & F1 & T1 & Hb & Hlen & [(-> & HF & Hl1 & Hx)|[-> Hx]])
    end; rewrite Hb; cbn [obind].
  - exists (-1), s1, F1, T1, 0. split; [done|]. split; [|split; [lia|right; split_and!; done || lia]].
    eapply vext_view; [exact Hx|]. intros. by rewrite map_view_0.
  - replace (a =? a + Z.of_nat 0 * PGSIZE) with true by (symmetry; apply Z.eqb_eq; clia).
    exists 0, s1, F1, T1, 1. split; [done|]. split; [done|]. split; [lia|]. left. split; [done|lia].
  - exists (-1), s1, F1, T1, 0. split; [done|]. split; [|split; [lia|right; split_and!; done || lia]].
    eapply vext_view; [exact Hx|]. intros. by rewrite map_view_0.
  - replace (a =? a + Z.of_nat (S n) * PGSIZE) with false by (symmetry; apply Z.eqb_neq; clia).
    rewrite !u64_small by clia.
    replace (a + Z.of_nat (S n) * PGSIZE) with (a + PGSIZE + Z.of_nat n * PGSIZE) by lia.
    destruct (IH s1 F1 T1 (a + PGSIZE) (pa + PGSIZE)) as (r & s' & F' & T' & k & Hl & Hx' & Hlen' & Hr);
      [apply Hx|unfold page_aligned in *; cdlia|clia|clia|unfold page_aligned in *; cdlia|clia|clia
      |done| |].
    { intros va Hva. rewrite (ve_pte _ _ _ _ _ _ _ _ _ Hx) by clia.
      unfold map_view. rewrite decide_False by clia. apply Hn. clia. }
    exists r, s', F', T', (1 + k). split; [done|].
    split; [|split; [lia|destruct Hr as [[-> ->]|(-> & -> & ?)]; [left|right]; split_and!; done || cbn in *; lia]].
    eapply vext_view; [eapply vext_trans; [exact Hx|exact Hx']|]. intros va Hva.
    rewrite <- map_view_cons by (done || lia).
    apply map_view_ext. by apply (ve_pte _ _ _ _ _ _ _ _ _ Hx).
Qed.

(** [mappages] on an unmapped range: it maps all of it, or fails for want of
    a free page after mapping a prefix.  Everything else stays mapped as it
    was. *)
Lemma mappages_vext s root F T U va n pa perm :
  vinv s root F T U -> page_aligned va -> 0 <= va -> 0 < n -> va + n * PGSIZE <= MAXVA ->
  page_aligned pa -> 0 <= pa -> pa + n * PGSIZE <= 2 ^ 56 -> 0 <= perm < 2 ^ 10 ->
  (forall a, va <= a < va + n * PGSIZE -> ~ valid (pte_of s.(k_mem) T a)) ->
  exists r s' F' T' k, mappages root va (n * PGSIZE) pa perm s = Ok r s' /\
    vext s root F T U s' F' T' (map_view (pte_of s.(k_mem) T) va k pa perm) /\
    (length F <= length F' + 2 * Z.to_nat n)%nat /\
    (r = 0 /\ k = n \/ r = -1 /\ F' = [] /\ 0 <= k < n /\ (length F < 2 * Z.to_nat n)%nat).
Proof.
  intros Hv Hva Hva0 Hn HM Hpa Hpa0 HpM Hperm Hu. unfold mappages.
  replace (va mod PGSIZE) with 0 by done. rewrite Z.mod_mul by clia.
  destruct (Z.eqb_spec (n * PGSIZE) 0); [clia|]. cbn [nz negb Z.eqb].
  rewrite Z.div_mul by clia.
  replace (u64 (va + n * PGSIZE - PGSIZE)) with (va + Z.of_nat (Z.to_nat n - 1) * PGSIZE)
    by (rewrite u64_small; clia).
  destruct (mappages_loop root U perm (Z.to_nat n - 1) s F T va pa)
    as (r & s' & F' & T' & k & Hl & Hx & Hlen & Hr); try done; [clia..| |].
  { intros a Ha. apply Hu. clia. }
  replace (S (Z.to_nat n - 1)) with (Z.to_nat n) in * by lia.
  exists r, s', F', T', k. split; [done|]. split; [done|]. split; [done|].
  destruct Hr as [[-> ->]|(-> & -> & ?)]; [left|right]; split_and!; done || lia.
Qed.

(** ** Pages in the hands of the code *)

(** [kalloc] takes a page out of the free list. *)
Lemma vinv_kalloc s root q F T U :
  vinv s root (q :: F) T U ->
  exists s', kalloc s = Ok q s' /\ vinv s' root F T U /\ page_ok q /\ (q ∉ owned F T U) /\
    (forall va, pte_of s'.(k_mem) T va = pte_of s.(k_mem) T va) /\
    s'.(k_hart) = s.(k_hart) /\ frame [q] s.(k_mem) s'.(k_mem).
Proof.
  intros Hv. pose proof (vinv_kinv _ _ _ _ _ Hv) as Hk.
  destruct (kalloc_inv s q F Hk) as (s' & Hc & Hk' & Hq & Hn & Hh & Hf & _).
  destruct (vinv_fresh _ _ _ _ _ _ Hv) as (Hd & Hok & _).
  pose proof (vi_nodup _ _ _ _ _ Hv) as Hnd. pose proof (vi_pages _ _ _ _ _ Hv) as Hpg.
  unfold owned in Hnd, Hpg. cbn in Hnd, Hpg. apply NoDup_cons in Hnd as [Hq' Hnd].
  apply Forall_cons in Hpg as [_ Hpg].
  destruct (pt_frame (in_page q) (k_mem s) (k_mem s') T root (vi_pt _ _ _ _ _ Hv) Hf) as [Hpt Hpte].
  { intros p a b Ha Hab Hqb. assert (a ∈ pages_of T) by (apply elem_pages_of; eauto).
    apply NoDup_cons in Hd as [Hd _]. apply Forall_cons in Hok as [_ Hok].
    refine (pages_in_ne a q b (Forall_elem _ _ _ Hok ltac:(done)) Hq _ Hab Hqb). by intros ->. }
  exists s'. split_and!; try done.
  - split; try done; try apply Hk'. intros va pa Hpa. rewrite Hpte. by apply (vi_user _ _ _ _ _ Hv).
  - intros b Hb. apply Hf. intros Hqb. apply Hb. exists q. split; [lelem|done].
Qed.

(** [kfree] of a page that nobody owns. *)
Lemma vinv_kfree s root q F T U :
  vinv s root F T U -> page_ok q -> (q ∉ owned F T U) ->
  exists s', kfree q s = Ok tt s' /\ vinv s' root (q :: F) T U /\
    (forall va, pte_of s'.(k_mem) T va = pte_of s.(k_mem) T va) /\
    s'.(k_hart) = s.(k_hart) /\ frame [q] s.(k_mem) s'.(k_mem).
Proof.
  intros Hv Hq Hn. pose proof (vinv_kinv _ _ _ _ _ Hv) as Hk.
  destruct (vinv_tree _ _ _ _ _ Hv) as [_ HokT].
  destruct (kfree_inv s F q Hk Hq) as (s' & Hc & Hk' & Hh & Hf).
  { intros HF. apply Hn. unfold owned. lelem. }
  destruct (pt_frame (in_page q) (k_mem s) (k_mem s') T root (vi_pt _ _ _ _ _ Hv) Hf) as [Hpt Hpte].
  { intros p a b Ha Hab Hqb. assert (a ∈ pages_of T) by (apply elem_pages_of; eauto).
    refine (pages_in_ne a q b (Forall_elem _ _ _ HokT ltac:(done)) Hq _ Hab Hqb).
    intros ->. apply Hn. unfold owned. lelem. }
  exists s'. split_and!; try done.
  - split; try done; try apply Hk'.
    + apply NoDup_cons. split; [done|apply Hv].
    + apply Forall_cons. split; [done|apply Hv].
    + intros va pa Hpa. rewrite Hpte. by apply (vi_user _ _ _ _ _ Hv).
  - intros b Hb. apply Hf. intros Hqb. apply Hb. exists q. split; [lelem|done].
Qed.

(** A mapped page that belongs to the address space, and back. *)
Lemma vinv_take s root F T U va pa :
  vinv s root F T U -> page_ok pa -> (pa ∉ owned F T U) ->
  0 <= va < MAXVA -> page_aligned va -> user_pte (pte_of s.(k_mem) T va) pa ->
  U !! va = None /\ vinv s root F T (<[va := pa]> U) /\
  owned F T (<[va := pa]> U) ≡ₚ pa :: owned F T U.
Proof.
  intros Hv Hpa Hn Hr Ha Hp.
  assert (HU : U !! va = None).
  { destruct (U !! va) as [pa'|] eqn:E; [|done]. exfalso.
    destruct (vi_user _ _ _ _ _ Hv va pa' E) as (_ & _ & _ & E1 & _).
    destruct Hp as (_ & E2 & _). apply Hn. unfold owned.
    assert (pa ∈ pages_of U) by (apply elem_pages_of; exists va; congruence). lelem. }
  assert (Hperm : owned F T (<[va := pa]> U) ≡ₚ pa :: owned F T U).
  { unfold owned. rewrite pages_of_insert by done. rewrite !app_assoc. symmetry. apply Permutation_middle. }
  split_and!; try done. split; try apply Hv; rewrite ?Hperm.
  - apply NoDup_cons. split; [done|apply Hv].
  - apply Forall_cons. split; [done|apply Hv].
  - intros va' pa'. rewrite lookup_insert. case_decide as E; [|by apply (vi_user _ _ _ _ _ Hv)].
    subst. by intros [= ->].
Qed.

Lemma vinv_drop s root F T U va pa :
  vinv s root F T U -> U !! va = Some pa ->
  vinv s root F T (delete va U) /\ (pa ∉ owned F T (delete va U)) /\ page_ok pa /\
  owned F T U ≡ₚ pa :: owned F T (delete va U).
Proof.
  intros Hv HU.
  assert (Hperm : owned F T U ≡ₚ pa :: owned F T (delete va U)).
  { unfold owned. rewrite (pages_of_delete U va pa HU). rewrite !app_assoc. symmetry.
    apply Permutation_middle. }
  pose proof (vi_nodup _ _ _ _ _ Hv) as Hd. pose proof (vi_pages _ _ _ _ _ Hv) as Hok.
  rewrite Hperm in Hd, Hok. apply NoDup_cons in Hd as [Hd1 Hd2]. apply Forall_cons in Hok as [Ho1 Ho2].
  split_and!; try done. split; try done; try apply Hv.
  intros va' pa'. rewrite lookup_delete. case_decide; [done|]. apply (vi_user _ _ _ _ _ Hv).
Qed.

(** ** uvmunmap *)

(** The address space [g] with [n] pages from [va] unmapped. *)
Definition clear_view (g : Z -> Z) (va n : Z) : Z -> Z := fun va' =>
  if decide (va <= va' < va + n * PGSIZE) then 0 else g va'.

Lemma clear_view_one g va va' :
  page_aligned va -> 0 <= va' ->
  clear_view g va 1 va' = if decide (same_page va va') then 0 else g va'.
Proof.
  intros Ha Hva'. unfold clear_view, same_page, page_aligned in *.
  destruct (decide (va <= va' < va + 1 * PGSIZE)), (decide (va / PGSIZE = va' / PGSIZE));
    try done; exfalso; cdlia.
Qed.

(** Aligned addresses on one page are equal. *)
Lemma same_page_aligned va va' : page_aligned va -> page_aligned va' -> same_page va va' -> va = va'.
Proof. unfold page_aligned, same_page. intros. cdlia. Qed.

(** Clearing an entry that is not of a user page. *)
Lemma vinv_clear s root F T U a q :
  vinv s root F T U -> page_aligned a -> 0 <= a < MAXVA -> U !! a = None ->
  T !! leaf_path a = Some q ->
  vinv (store_st s (q + 8 * PX 0 a) 0) root F T U /\
  forall va, 0 <= va < MAXVA ->
    pte_of (store_st s (q + 8 * PX 0 a) 0).(k_mem) T va = clear_view (pte_of s.(k_mem) T) a 1 va.
Proof.
  intros Hv Ha Hr HU Hq.
  destruct (vinv_store s root F T U a q 0 Hv Hq Hr U) as [Hv' Hview]; try apply Hv.
  { intros va pa Hpa. destruct (vi_user _ _ _ _ _ Hv va pa Hpa) as (Hva & Hal & Hp).
    split_and!; try done; try lia. rewrite decide_False; [done|]. intros E.
    apply same_page_aligned in E; [|done..]. congruence. }
  split; [done|]. intros va Hva. rewrite Hview by done. rewrite clear_view_one by (done || lia). done.
Qed.

Lemma valid_leaf m T va : valid (pte_of m T va) -> exists q, T !! leaf_path va = Some q.
Proof. unfold pte_of. destruct (T !! leaf_path va) as [q|]; [eauto|]. by intros []. Qed.

Lemma uvmunmap_step s root F T U a lim do_free :
  vinv s root F T U -> page_aligned a -> 0 <= a < lim -> a < MAXVA -> U !! a = None ->
  let pte := pte_of s.(k_mem) T a in
  let pa := PTE2PA pte in
  user_pte pte pa -> (do_free = true -> page_ok pa /\ (pa ∉ owned F T U)) ->
  exists s', uvmunmap_body root lim do_free a s = Ok (inl (a + PGSIZE)) s' /\
    vinv s' root (if do_free then pa :: F else F) T U /\
    (forall va, 0 <= va < MAXVA ->
       pte_of s'.(k_mem) T va = clear_view (pte_of s.(k_mem) T) a 1 va) /\
    s'.(k_hart) = s.(k_hart) /\
    frame ((if do_free then [pa] else []) ++ pages_of T) s.(k_mem) s'.(k_mem).
Proof.
  intros Hv Ha Hlim HM HU pte pa (Hval & _ & Hfl) Hfree.
  destruct (valid_leaf _ _ _ Hval) as [q Hq].
  destruct (vinv_leaf _ _ _ _ _ _ _ Hv Hq) as [Hqok _].
  unfold uvmunmap_body. destruct (Z.ltb_spec a lim); [|lia]. cbn [bind].
  rewrite (vinv_walk _ _ _ _ _ _ Hv) by lia. rewrite Hq. cbn [obind].
  pose proof (page_pos q Hqok). pose proof (PX_range 0 a ltac:(lia)).
  destruct (Z.eqb_spec (q + 8 * PX 0 a) 0); [lia|].
  unfold load_pte at 1. cbn [bind obind gets]. rewrite <- (pte_of_leaf (k_mem s) _ _ _ Hq). fold pte.
  destruct (Z.eqb_spec (Z.land pte PTE_V) 0); [done|].
  apply readable_leaf in Hfl. destruct (Z.eqb_spec (PTE_FLAGS pte) PTE_V); [done|]. fold pa. rewrite (u64_small (a + PGSIZE)) by clia.
  destruct do_free.
  - destruct (Hfree eq_refl) as [Hpa Hno].
    destruct (vinv_kfree s root pa F T U Hv Hpa Hno) as (s1 & Hk & Hv1 & Hview1 & Hh1 & Hf1).
    cbn [bind]. rewrite Hk. unfold store_pte. cbn. fold (store_st s1 (q + 8 * PX 0 a) 0).
    destruct (vinv_clear s1 root (pa :: F) T U a q Hv1 Ha ltac:(lia) HU Hq) as [Hv2 Hview2].
    exists (store_st s1 (q + 8 * PX 0 a) 0). split; [done|]. split; [done|].
    split; [|split; [done|]].
    + intros va Hva. rewrite Hview2 by done. unfold clear_view. by rewrite Hview1.
    + eapply (frame_trans _ _ (k_mem s1)).
      * eapply frame_incl; [|exact Hf1]. intros x. lelem.
      * eapply frame_incl; [|exact (store_frame s1 root _ T U a q 0 Hv1 Hq)]. intros x. lelem.
  - unfold store_pte. cbn. fold (store_st s (q + 8 * PX 0 a) 0).
    destruct (vinv_clear s root F T U a q Hv Ha ltac:(lia) HU Hq) as [Hv2 Hview2].
    exists (store_st s (q + 8 * PX 0 a) 0). split_and!; try done.
    exact (store_frame s root _ T U a q 0 Hv Hq).
Qed.

Lemma clear_view_cons g a k va :
  0 <= k -> clear_view (clear_view g a 1) (a + PGSIZE) k va = clear_view g a (1 + k) va.
Proof. intros Hk. unfold clear_view. repeat case_decide; try done; exfalso; clia. Qed.

Lemma clear_view_ext f g a k va : f va = g va -> clear_view f a k va = clear_view g a k va.
Proof. intros E. unfold clear_view. by rewrite E. Qed.

(** [U] without the pages of a range. *)
Definition unmapped (U U' : gmap Z Z) (a n : Z) : Prop :=
  forall va, U' !! va = if decide (a <= va < a + n * PGSIZE) then None else U !! va.

Lemma unmapped_cons U U' a k :
  0 <= k -> page_aligned a -> (forall va pa, U !! va = Some pa -> page_aligned va) ->
  unmapped (delete a U) U' (a + PGSIZE) k -> unmapped U U' a (1 + k).
Proof.
  intros Hk Ha Hal Hu va. rewrite Hu, lookup_delete. repeat case_decide; try done; try (exfalso; clia).
  destruct (U !! va) as [pa|] eqn:E; [|done]. apply Hal in E. unfold page_aligned in *.
  exfalso. cdlia.
Qed.

Lemma uvmunmap_loop root T lim n : forall s F U a fuel,
  vinv s root F T U -> page_aligned a -> 0 <= a -> lim = a + Z.of_nat n * PGSIZE -> lim <= MAXVA ->
  (forall i, (i < n)%nat -> is_Some (U !! (a + Z.of_nat i * PGSIZE))) -> (n < fuel)%nat ->
  exists s' F' U', loop fuel (uvmunmap_body root lim true) a s = Ok tt s' /\
    vinv s' root F' T U' /\ owned F' T U' ≡ₚ owned F T U /\ unmapped U U' a (Z.of_nat n) /\
    (forall va, 0 <= va < MAXVA ->
       pte_of s'.(k_mem) T va = clear_view (pte_of s.(k_mem) T) a (Z.of_nat n) va) /\
    s'.(k_hart) = s.(k_hart) /\ frame (F' ++ pages_of T) s.(k_mem) s'.(k_mem) /\
    (forall x, x ∈ F -> x ∈ F').
Proof.
  induction n as [|n IH]; intros s F U a fuel Hv Ha Ha0 Hlim HM HU Hfuel;
    (destruct fuel as [|fuel]; [lia|]); rewrite loop_S.
  - unfold uvmunmap_body. destruct (Z.ltb_spec a lim); [lia|]. cbn.
    exists s, F, U. split_and!; try done.
    + intros va. rewrite decide_False by lia. done.
    + intros va Hva. unfold clear_view. rewrite decide_False by lia. done.
  - destruct (HU 0%nat ltac:(lia)) as [pa Hpa].
    replace (a + Z.of_nat 0 * PGSIZE) with a in Hpa by lia.
    destruct (vi_user _ _ _ _ _ Hv a pa Hpa) as (Hr & _ & Hp).
    destruct (vinv_drop s root F T U a pa Hv Hpa) as (Hv0 & Hno & Hpok & Hperm0).
    pose proof Hp as (_ & Epa & _).
    destruct (uvmunmap_step s root F T (delete a U) a lim true Hv0 Ha ltac:(clia) ltac:(lia))
      as (s1 & Hb & Hv1 & Hview1 & Hh1 & Hf1); rewrite ?Epa; try done.
    { apply lookup_delete_eq. }
    rewrite Epa in *. rewrite Hb. cbn [obind].
    destruct (IH s1 (pa :: F) (delete a U) (a + PGSIZE) fuel)
      as (s' & F' & U' & Hl & Hv' & Hperm & Hun & Hview & Hh & Hf & Hsub); try done; try clia.
    { unfold page_aligned in *. cdlia. }
    { intros i Hi. rewrite lookup_delete_ne by clia.
      replace (a + PGSIZE + Z.of_nat i * PGSIZE) with (a + Z.of_nat (S i) * PGSIZE) by lia.
      apply HU. lia. }
    exists s', F', U'. rewrite Hl, Nat2Z.inj_succ, <- Z.add_1_l. split_and!; try done.
    + by rewrite Hperm, Hperm0.
    + apply unmapped_cons; try done; try lia. intros va' pa' Hva'. by apply (vi_user _ _ _ _ _ Hv va' pa').
    + intros va Hva. rewrite Hview, <- clear_view_cons by (done || lia). by apply clear_view_ext, Hview1.
    + by rewrite Hh, Hh1.
    + eapply frame_trans; [|exact Hf]. eapply frame_incl; [|exact Hf1].
      intros x Hx. specialize (Hsub x). lelem.
    + intros x Hx. apply Hsub. lelem.
Qed.

(** [uvmunmap] with [do_free] on pages that are all mapped. *)
Lemma uvmunmap_free s root F T U va n :
  vinv s root F T U -> page_aligned va -> 0 <= va -> 0 <= n -> va + n * PGSIZE <= MAXVA ->
  (forall i, 0 <= i < n -> is_Some (U !! (va + i * PGSIZE))) ->
  exists s' F' U', uvmunmap root va n true s = Ok tt s' /\
    vinv s' root F' T U' /\ owned F' T U' ≡ₚ owned F T U /\ unmapped U U' va n /\
    (forall a, 0 <= a < MAXVA ->
       pte_of s'.(k_mem) T a = clear_view (pte_of s.(k_mem) T) va n a) /\
    s'.(k_hart) = s.(k_hart) /\ frame (F' ++ pages_of T) s.(k_mem) s'.(k_mem).
Proof.
  intros Hv Ha Ha0 Hn HM HU. unfold uvmunmap. replace (va mod PGSIZE) with 0 by done.
  cbn [nz negb Z.eqb]. rewrite u64_small by clia.
  destruct (uvmunmap_loop root T (va + n * PGSIZE) (Z.to_nat n) s F U va (Z.to_nat n + 1))
    as (s' & F' & U' & Hl & Hv' & Hperm & Hun & Hview & Hh & Hf & _); try done; try clia.
  { intros i Hi. apply HU. lia. }
  rewrite Z2Nat.id in * by done. by exists s', F', U'.
Qed.

(** ** Changes of an address space

    One step of an operation on the address space: the pages owned are the
    same, page-table pages are only added, no byte outside the owned pages
    changes, and a user page that stays keeps its contents. *)
Record ustep (root : Z) (s : kst) (F : list Z) (T : ptree) (U : gmap Z Z)
    (s' : kst) (F' : list Z) (T' : ptree) (U' : gmap Z Z) : Prop := {
  us_vinv : vinv s' root F' T' U';
  us_perm : owned F' T' U' ≡ₚ owned F T U;
  us_sub : T ⊆ T';
  us_hart : s'.(k_hart) = s.(k_hart);
  us_frame : frame (owned F T U) s.(k_mem) s'.(k_mem);
  us_data : forall va pa b, U !! va = Some pa -> U' !! va = Some pa -> in_page pa b ->
    rd s'.(k_mem) b = rd s.(k_mem) b
}.

Lemma ustep_refl root s F T U : vinv s root F T U -> ustep root s F T U s F T U.
Proof. intros Hv. by split. Qed.

Lemma ustep_trans root s F T U s1 F1 T1 U1 s2 F2 T2 U2 :
  ustep root s F T U s1 F1 T1 U1 -> ustep root s1 F1 T1 U1 s2 F2 T2 U2 ->
  (forall va pa, U !! va = Some pa -> U2 !! va = Some pa -> U1 !! va = Some pa) ->
  ustep root s F T U s2 F2 T2 U2.
Proof.
  intros [Hv1 Hp1 Ht1 Hh1 Hf1 Hd1] [Hv2 Hp2 Ht2 Hh2 Hf2 Hd2] HU. split; try done.
  - by rewrite Hp2, Hp1.
  - by etransitivity.
  - by rewrite Hh2, Hh1.
  - eapply frame_trans; [exact Hf1|]. eapply frame_incl; [|exact Hf2]. intros x. by rewrite Hp1.
  - intros va pa b E E2 Hb. rewrite (Hd2 va pa b), (Hd1 va pa b); eauto.
Qed.

(** User pages are neither free nor page-table pages. *)
Lemma vinv_user_frame s root F T U (L : list Z) va pa b :
  vinv s root F T U -> U !! va = Some pa -> in_page pa b -> (forall x, x ∈ L -> x ∈ F ++ pages_of T) ->
  ~ (exists a, a ∈ L /\ in_page a b).
Proof.
  intros Hv HU Hb HL (a & Ha & Hab). apply HL in Ha.
  pose proof (vi_nodup _ _ _ _ _ Hv) as Hd. pose proof (vi_pages _ _ _ _ _ Hv) as Hok.
  unfold owned in *. rewrite app_assoc in Hd, Hok. apply NoDup_app in Hd as (_ & Hd & _).
  apply Forall_app in Hok as [Hok1 Hok2].
  assert (Hpa : pa ∈ pages_of U) by (apply elem_pages_of; eauto).
  refine (pages_in_ne pa a b (Forall_elem _ _ _ Hok2 Hpa) (Forall_elem _ _ _ Hok1 Ha) _ Hb Hab).
  intros ->. exact (Hd a Ha Hpa).
Qed.

Lemma vext_ustep s root F T U s' F' T' f :
  vinv s root F T U -> vext s root F T U s' F' T' f -> ustep root s F T U s' F' T' U.
Proof.
  intros Hv [Hv1 Ht1 Hp1 He1 Hh1 Hf1]. split; try done.
  - unfold owned. by rewrite !app_assoc, Hp1.
  - eapply frame_incl; [|exact Hf1]. unfold owned. intros x. lelem.
  - intros va pa b HU _ Hb. apply Hf1. exact (vinv_user_frame _ _ _ _ _ _ _ _ _ Hv HU Hb (fun x Hx => Hx)).
Qed.

(** Writes to pages that are not the free list's nor the tree's. *)
Lemma vinv_mem s root F T U (L : list Z) m' :
  vinv s root F T U -> frame L s.(k_mem) m' -> Forall page_ok L ->
  (forall x, x ∈ L -> x ∉ F ++ pages_of T) ->
  vinv (Kst s.(k_hart) m' s.(kmem_lock) s.(freelist)) root F T U /\
  (forall va, pte_of m' T va = pte_of s.(k_mem) T va).
Proof.
  intros Hv Hf HL Hd. pose proof (vi_pages _ _ _ _ _ Hv) as Hok. unfold owned in Hok.
  rewrite !Forall_app in Hok. destruct Hok as (HF & HT & _).
  assert (Hdis : forall a b, a ∈ F ++ pages_of T -> in_page a b -> ~ (exists x, x ∈ L /\ in_page x b)).
  { intros a b Ha Hab (x & Hx & Hxb).
    refine (pages_in_ne a x b _ (Forall_elem _ _ _ HL Hx) _ Hab Hxb).
    - apply elem_of_app in Ha as [Ha|Ha]; [exact (Forall_elem _ _ _ HF Ha)|exact (Forall_elem _ _ _ HT Ha)].
    - intros ->. by apply (Hd x). }
  destruct (pt_frame _ _ _ T root (vi_pt _ _ _ _ _ Hv) Hf) as [Hpt Hpte].
  { intros p a b Ha. apply Hdis. apply elem_of_app. right. apply elem_pages_of. eauto. }
  split; [|done]. split; cbn [k_hart k_mem kmem_lock freelist]; try done; try apply Hv.
  - eapply fl_rep_except; [done| |exact Hf|apply Hv]. intros a b Ha. apply Hdis. lelem.
  - intros va pa Hpa. rewrite Hpte. by apply (vi_user _ _ _ _ _ Hv).
Qed.

End Uvm.
