(* ===== verification/Uspace.v ===== *)
(** * User address spaces: growing, shrinking, copying and freeing

    [covers U sz] says that the user pages are those of addresses below [sz],
    the invariant that fork, exec and sbrk keep for [p->sz].  The theorems
    give the behaviour of uvmalloc, uvmdealloc, uvmcopy and uvmfree on every
    branch, running out of memory included. *)

From S2P Require Import Prelude Riscv Memory Spinlock Kalloc Vm Pagetable Uvm.

Section Uspace.
Context `{ImageOk}.

(** ** Adding one page *)

Definition mem_st (s : kst) (m : mem) : kst := Kst s.(k_hart) m s.(kmem_lock) s.(freelist).

Lemma frame_page q m m' : same_except (in_page q) m m' -> frame [q] m m'.
Proof. intros Hf b Hb. apply Hf. intros Hq. apply Hb. exists q. split; [lelem|done]. Qed.

(** A page just allocated is filled by [fill] and mapped at [va]; on failure
    it is still in the hands of the caller. *)
Lemma fill_and_map s root F T U q va perm m' :
  vinv s root F T U -> page_ok q -> (q ∉ owned F T U) -> frame [q] s.(k_mem) m' ->
  page_aligned va -> 0 <= va -> va + PGSIZE <= MAXVA -> 0 <= perm < 2 ^ 10 ->
  Z.land perm PTE_R <> 0 -> ~ valid (pte_of s.(k_mem) T va) ->
  exists r s' F' T', mappages root va PGSIZE q perm (mem_st s m') = Ok r s' /\
    vext (mem_st s m') root F T U s' F' T'
      (if decide (r = 0) then map_view (pte_of s.(k_mem) T) va 1 q perm else pte_of s.(k_mem) T) /\
    (q ∉ owned F' T' U) /\ (length F <= length F' + 2)%nat /\
    (r = 0 /\ user_pte (pte_of s'.(k_mem) T' va) q \/ r = -1 /\ (length F < 2)%nat).
Proof.
  intros Hv Hq Hno Hf Hva Hva0 HM Hperm Hfl Hn.
  destruct (vinv_mem s root F T U [q] m' Hv Hf) as [Hv1 Hview1].
  { by apply Forall_singleton. }
  { intros x [->|[]%elem_of_nil]%elem_of_cons Hx. apply Hno. unfold owned. lelem. }
  destruct Hq as [Hqa Hqr]. pose proof kend_range.
  destruct (mappages_vext (mem_st s m') root F T U va 1 q perm)
    as (r & s' & F' & T' & k & Hm & Hx & Hlen & Hr); try done; try clia.
  { intros a Ha. cbn [mem_st k_mem]. rewrite Hview1.
    rewrite (pte_of_page _ _ a va) by (try clia; unfold same_page, page_aligned in *; cdlia). done. }
  rewrite Z.mul_1_l in Hm. exists r, s', F', T'. split; [done|].
  assert (Hno' : q ∉ owned F' T' U).
  { unfold owned in *. rewrite app_assoc, (ve_perm _ _ _ _ _ _ _ _ _ Hx), <- app_assoc. done. }
  destruct Hr as [[-> ->]|(-> & -> & Hk & Hl2)]; (split; [|split; [done|split; [done|]]]).
  - rewrite decide_True by done. eapply vext_view; [exact Hx|].
    intros a Ha. apply map_view_ext. apply Hview1.
  - left. split; [done|]. rewrite (ve_pte _ _ _ _ _ _ _ _ _ Hx) by clia.
    rewrite map_view_one, decide_True by (done || clia).
    destruct (map_pte q perm Hqa ltac:(clia) Hperm) as (_ & Hval & Hpa & Hflags).
    split_and!; try done. change PTE_R with (Z.shiftl 1 1) in *. rewrite (land_flag _ 1), Hflags by lia.
    rewrite Z.land_lor_distr_l. by intros [? _]%Z.lor_eq_0_iff.
  - rewrite decide_False by done. eapply vext_view; [exact Hx|].
    intros a Ha. replace k with 0 by lia. rewrite map_view_0. apply Hview1.
  - right. split; [done|]. cbn in Hl2. lia.
Qed.

(** Allocating, filling and mapping a page. *)
Lemma grow_step s root q F T U va s1 m' s' F' T' f :
  vinv s root (q :: F) T U -> vinv s1 root F T U -> (q ∉ owned F T U) -> page_ok q ->
  s1.(k_hart) = s.(k_hart) -> frame [q] s.(k_mem) s1.(k_mem) -> frame [q] s1.(k_mem) m' ->
  vext (mem_st s1 m') root F T U s' F' T' f -> (q ∉ owned F' T' U) ->
  0 <= va < MAXVA -> page_aligned va -> user_pte (pte_of s'.(k_mem) T' va) q ->
  ustep root s (q :: F) T U s' F' T' (<[va := q]> U) /\ U !! va = None /\
  (forall b, in_page q b -> rd s'.(k_mem) b = rd m' b).
Proof.
  intros Hv Hv1 Hno Hq Hh1 Hf1 Hf2 Hx Hno' Hr Hal Hp.
  destruct (vinv_take s' root F' T' U va q (ve_vinv _ _ _ _ _ _ _ _ _ Hx) Hq Hno' Hr Hal Hp)
    as (HU & Hv' & Hperm).
  assert (Hf12 : frame [q] s.(k_mem) m') by by eapply frame_trans.
  split; [|split; [done|]].
  - split; try done.
    + rewrite Hperm. unfold owned. cbn. constructor.
      by rewrite !app_assoc, (ve_perm _ _ _ _ _ _ _ _ _ Hx).
    + apply Hx.
    + by rewrite (ve_hart _ _ _ _ _ _ _ _ _ Hx).
    + eapply frame_trans.
      * eapply frame_incl; [|exact Hf12]. unfold owned. cbn. intros x. lelem.
      * eapply frame_incl; [|exact (ve_frame _ _ _ _ _ _ _ _ _ Hx)]. unfold owned. cbn. intros x. lelem.
    + intros va' pa b HU' _ Hb. rewrite (ve_frame _ _ _ _ _ _ _ _ _ Hx).
      * apply Hf12. apply (vinv_user_frame _ _ _ _ _ _ _ _ _ Hv HU' Hb). cbn. intros x. lelem.
      * apply (vinv_user_frame _ _ _ _ _ _ _ _ _ Hv HU' Hb). cbn. intros x. lelem.
  - intros b Hb. apply (ve_frame _ _ _ _ _ _ _ _ _ Hx). intros (a & Ha & Hab).
    pose proof (vi_pages _ _ _ _ _ Hv1) as Hok. unfold owned in Hok, Hno.
    rewrite app_assoc in Hok, Hno. apply Forall_app in Hok as [Hok _].
    refine (pages_in_ne q a b Hq (Forall_elem _ _ _ Hok Ha) _ Hb Hab). intros ->. lelem.
Qed.

(** Giving the page back after a failure. *)
Lemma give_back s root q F T U s1 m' s' F' T' :
  vinv s root (q :: F) T U -> (q ∉ owned F' T' U) -> page_ok q ->
  s1.(k_hart) = s.(k_hart) -> frame [q] s.(k_mem) s1.(k_mem) -> frame [q] s1.(k_mem) m' ->
  vext (mem_st s1 m') root F T U s' F' T' (pte_of s.(k_mem) T) ->
  exists s2, kfree q s' = Ok tt s2 /\ ustep root s (q :: F) T U s2 (q :: F') T' U /\
    (forall va, 0 <= va < MAXVA -> pte_of s2.(k_mem) T' va = pte_of s.(k_mem) T va).
Proof.
  intros Hv Hno' Hq Hh1 Hf1 Hf2 Hx.
  destruct (vinv_kfree s' root q F' T' U (ve_vinv _ _ _ _ _ _ _ _ _ Hx) Hq Hno')
    as (s2 & Hk & Hv2 & Hview & Hh & Hf).
  exists s2. split; [done|]. split.
  2:{ intros va Hva. rewrite Hview. by apply (ve_pte _ _ _ _ _ _ _ _ _ Hx). }
  assert (Hfr : frame (q :: F ++ pages_of T) s.(k_mem) s2.(k_mem)).
  { eapply frame_trans; [eapply frame_incl; [|exact Hf1]; intros x; lelem|].
    eapply frame_trans; [eapply frame_incl; [|exact Hf2]; intros x; lelem|].
    eapply frame_trans; [eapply frame_incl; [|exact (ve_frame _ _ _ _ _ _ _ _ _ Hx)]; intros x; lelem|].
    eapply frame_incl; [|exact Hf]; intros x; lelem. }
  split; try done.
  - unfold owned. cbn. constructor. by rewrite !app_assoc, (ve_perm _ _ _ _ _ _ _ _ _ Hx).
  - apply Hx.
  - by rewrite Hh, (ve_hart _ _ _ _ _ _ _ _ _ Hx).
  - eapply frame_incl; [|exact Hfr]. unfold owned. cbn. intros x. lelem.
  - intros va pa b HU _ Hb. apply Hfr.
    apply (vinv_user_frame _ _ _ _ _ _ _ _ _ Hv HU Hb). cbn. intros x. lelem.
Qed.

(** ** uvmdealloc *)

(** The user pages are exactly those below [sz]. *)
Definition covers (U : gmap Z Z) (sz : Z) : Prop :=
  forall va, is_Some (U !! va) <-> page_aligned va /\ 0 <= va < sz.

Lemma PGROUNDUP_bounds sz :
  0 <= sz <= MAXVA -> page_aligned (PGROUNDUP sz) /\ sz <= PGROUNDUP sz < sz + PGSIZE /\
  PGROUNDUP sz <= MAXVA.
Proof.
  intros Hsz. rewrite PGROUNDUP_spec by clia. unfold page_aligned.
  rewrite Z.mul_comm, Z.mod_mul by clia. split_and!; cdlia.
Qed.

Lemma PGROUNDUP_aligned sz : page_aligned sz -> 0 <= sz <= MAXVA -> PGROUNDUP sz = sz.
Proof.
  intros Ha Hsz. destruct (PGROUNDUP_bounds sz Hsz) as (Ha' & Hb & _).
  unfold page_aligned in *. cdlia.
Qed.

(** The pages of [U] from [newsz] on are gone. *)
Definition cut (U U' : gmap Z Z) (newsz : Z) : Prop :=
  forall va, U' !! va = if decide (PGROUNDUP newsz <= va) then None else U !! va.

Lemma covers_cut U U' oldsz newsz :
  covers U oldsz -> 0 <= newsz <= oldsz -> oldsz <= MAXVA -> cut U U' newsz -> covers U' newsz.
Proof.
  intros Hc Hn Ho Hcut va. destruct (PGROUNDUP_bounds newsz ltac:(lia)) as (Ha & Hb & _).
  rewrite Hcut. specialize (Hc va). unfold page_aligned in *. case_decide.
  - split; [intros [? [=]]|]. intros [? ?]. exfalso. cdlia.
  - rewrite Hc. split; intros [? ?]; split_and!; try done; cdlia.
Qed.

Lemma cut_cut U U1 U2 a b : cut U U1 a -> cut U1 U2 b -> PGROUNDUP b <= PGROUNDUP a -> cut U U2 b.
Proof. intros H1 H2 Hle va. rewrite H2, H1. repeat case_decide; try done; exfalso; lia. Qed.

Lemma uvmdealloc_ustep s root F T U oldsz newsz :
  vinv s root F T U -> covers U oldsz -> 0 <= newsz <= oldsz -> oldsz <= MAXVA ->
  exists s' F' U', uvmdealloc root oldsz newsz s = Ok newsz s' /\
    ustep root s F T U s' F' T U' /\ cut U U' newsz /\
    (forall va, 0 <= va < MAXVA -> pte_of s'.(k_mem) T va =
       if decide (PGROUNDUP newsz <= va < PGROUNDUP oldsz) then 0 else pte_of s.(k_mem) T va).
Proof.
  intros Hv Hc Hn Ho. destruct (PGROUNDUP_bounds newsz ltac:(lia)) as (Ha & Hb & HM).
  destruct (PGROUNDUP_bounds oldsz ltac:(lia)) as (Ha' & Hb' & HM').
  assert (Hnil : PGROUNDUP oldsz <= PGROUNDUP newsz -> cut U U newsz).
  { intros Hle va. case_decide; [|done]. destruct (U !! va) as [pa|] eqn:E; [|done].
    destruct (Hc va) as [Hc1 _]. destruct Hc1 as [Hal Hr]; [eauto|].
    unfold page_aligned in *. exfalso. cdlia. }
  unfold uvmdealloc. destruct (Z.geb_spec newsz oldsz) as [Hge|Hlt].
  { replace oldsz with newsz in * by lia. exists s, F, U. split; [done|].
    split; [by apply ustep_refl|]. split; [by apply Hnil|].
    intros va Hva. rewrite decide_False by lia. done. }
  destruct (Z.ltb_spec (PGROUNDUP newsz) (PGROUNDUP oldsz)) as [Hl|Hg].
  2:{ cbn. exists s, F, U. split; [done|]. split; [by apply ustep_refl|]. split; [by apply Hnil|].
      intros va Hva. rewrite decide_False by lia. done. }
  set (n := (PGROUNDUP oldsz - PGROUNDUP newsz) / PGSIZE).
  assert (En : PGROUNDUP newsz + n * PGSIZE = PGROUNDUP oldsz).
  { unfold n, page_aligned in *. cdlia. }
  assert (Hn0 : 0 <= n < 2 ^ 30) by (clear -En Hl HM HM' Hb Hn; clia).
  rewrite (s32_small n), (u64_small n) by lia.
  destruct (uvmunmap_free s root F T U (PGROUNDUP newsz) n)
    as (s' & F' & U' & Hc' & Hv' & Hperm & Hun & Hview & Hh & Hf); try done; try lia.
  { intros i Hi. apply Hc. unfold page_aligned in *. clear -Ha Hb Hi En Hb' Hn Ha'. cdlia. }
  cbn [bind]. rewrite Hc'. cbn. exists s', F', U'. split; [done|].
  unfold unmapped in Hun. rewrite En in Hun. split; [|split].
  - split; try done.
    + eapply frame_incl; [|exact Hf]. intros x Hx. rewrite <- Hperm. unfold owned. lelem.
    + intros va pa b _ HU' Hbb. apply Hf.
      exact (vinv_user_frame _ _ _ _ _ _ _ _ _ Hv' HU' Hbb (fun x Hx => Hx)).
  - intros va. rewrite Hun. destruct (decide (PGROUNDUP newsz <= va)); [|by rewrite decide_False by lia].
    case_decide; [done|]. destruct (U !! va) as [pa|] eqn:E; [|done].
    destruct (Hc va) as [Hc1 _]. destruct Hc1 as [Hal Hr]; [eauto|]. exfalso. lia.
  - intros va Hva. rewrite Hview by done. unfold clear_view. by rewrite En.
Qed.

(** ** uvmalloc *)

Definition uperm (xperm : Z) : Z := Z.lor (Z.lor PTE_R PTE_U) xperm.

Lemma uperm_ok xperm :
  0 <= xperm < 2 ^ 10 -> 0 <= uperm xperm < 2 ^ 10 /\ Z.land (uperm xperm) PTE_R <> 0.
Proof.
  intros Hx. unfold uperm. change (Z.lor PTE_R PTE_U) with 18. split; [apply lor_range; lia|]. intros E.
  apply (f_equal (fun z => Z.testbit z 1)) in E. rewrite Z.land_spec, !Z.lor_spec in E. done.
Qed.

Lemma memset_frame q m c : frame [q] m (memset m q c PGSIZE).
Proof. apply frame_page, memset_page. Qed.

(** One turn of the loop: a zeroed page is mapped at [a], or nothing changed
    and the clean-up runs. *)
Lemma uvmalloc_step s root F T U oldsz newsz xperm a :
  vinv s root F T U -> page_aligned a -> 0 <= a < newsz -> a + PGSIZE <= MAXVA ->
  0 <= xperm < 2 ^ 10 -> ~ valid (pte_of s.(k_mem) T a) ->
  (exists q s' F' T', uvmalloc_body root oldsz newsz xperm a s = Ok (inl (a + PGSIZE)) s' /\
     ustep root s F T U s' F' T' (<[a := q]> U) /\ U !! a = None /\
     (forall va, 0 <= va < MAXVA -> pte_of s'.(k_mem) T' va =
        map_view (pte_of s.(k_mem) T) a 1 q (uperm xperm) va) /\
     (forall b, in_page q b -> rd s'.(k_mem) b = 0) /\ (length F <= length F' + 3)%nat) \/
  (exists s' F' T', uvmalloc_body root oldsz newsz xperm a s =
       (uvmdealloc root a oldsz ;; ret (inr false)) s' /\
     ustep root s F T U s' F' T' U /\
     (forall va, 0 <= va < MAXVA -> pte_of s'.(k_mem) T' va = pte_of s.(k_mem) T va) /\
     (length F < 3)%nat).
Proof.
  intros Hv Ha Hlt HM Hxp Hn. unfold uvmalloc_body. destruct (Z.ltb_spec a newsz); [|lia].
  fold (uperm xperm). cbn [bind]. destruct F as [|q F].
  { right. rewrite (kalloc_nil s (vinv_kinv _ _ _ _ _ Hv)). exists s, [], T.
    split; [done|]. split; [by apply ustep_refl|]. split; [done|cbn; lia]. }
  destruct (vinv_kalloc s root q F T U Hv) as (s1 & Hk & Hv1 & Hq & Hno & Hview1 & Hh1 & Hf1).
  rewrite Hk. cbn [obind]. pose proof (page_pos q Hq). destruct (Z.eqb_spec q 0); [lia|].
  destruct (uperm_ok xperm Hxp) as [Hp1 Hp2].
  destruct (fill_and_map s1 root F T U q a (uperm xperm) (memset s1.(k_mem) q 0 PGSIZE) Hv1 Hq Hno
              (memset_frame q _ 0) Ha ltac:(lia) HM Hp1 Hp2)
    as (r & s' & F' & T' & Hm & Hx & Hno' & Hlen & Hr); [by rewrite Hview1|].
  cbn [bind update modify obind view put mem_l k_mem k_hart kmem_lock freelist].
  fold (mem_st s1 (memset (k_mem s1) q 0 PGSIZE)). rewrite Hm. cbn [obind].
  destruct Hr as [[-> Hpte]|[-> Hlen']].
  - left. exists q, s', F', T'. cbn. rewrite u64_small by clia. split; [done|].
    rewrite decide_True in Hx by done.
    destruct (grow_step s root q F T U a s1 _ s' F' T' _ Hv Hv1 Hno Hq Hh1 Hf1
                (memset_frame q _ 0) Hx Hno' ltac:(clia) Ha Hpte) as (Hus & HU & Hz).
    split; [done|]. split; [done|]. split; [|split; [|cbn; lia]].
    + intros va Hva. rewrite (ve_pte _ _ _ _ _ _ _ _ _ Hx) by done. by apply map_view_ext.
    + intros b Hb. rewrite Hz by done. rewrite rd_memset by clia. by rewrite decide_True.
  - right. cbn [nz negb Z.eqb]. rewrite decide_False in Hx by done.
    destruct (give_back s root q F T U s1 _ s' F' T' Hv Hno' Hq Hh1 Hf1 (memset_frame q _ 0))
      as (s2 & Hk2 & Hus & Hview2).
    { eapply vext_view; [exact Hx|]. intros. apply Hview1. }
    exists s2, (q :: F'), T'. cbn [bind]. rewrite Hk2.
    split; [done|]. split; [done|]. split; [done|cbn; lia].
Qed.

(** What a successful [uvmalloc] has done between [a] and [newsz]. *)
Record grown (s : kst) (T : ptree) (U : gmap Z Z) (s' : kst) (T' : ptree) (U' : gmap Z Z)
    (a newsz xperm : Z) : Prop := {
  gr_sub : U ⊆ U';
  gr_covers : covers U' newsz;
  gr_new : forall va pa, U' !! va = Some pa -> a <= va ->
    pte_of s'.(k_mem) T' va = Z.lor (Z.lor (PA2PTE pa) (uperm xperm)) PTE_V /\
    forall b, in_page pa b -> rd s'.(k_mem) b = 0;
  gr_old : forall va, 0 <= va < MAXVA -> ~ (a <= va < PGROUNDUP newsz) ->
    pte_of s'.(k_mem) T' va = pte_of s.(k_mem) T va
}.

(** What a failed one leaves: nothing mapped from [oldsz] on. *)
Record shrunk (s : kst) (T : ptree) (s' : kst) (T' : ptree) (oldsz newsz : Z) : Prop := {
  sh_new : forall va, oldsz <= va < PGROUNDUP newsz -> ~ valid (pte_of s'.(k_mem) T' va);
  sh_old : forall va, 0 <= va < MAXVA -> ~ (oldsz <= va < PGROUNDUP newsz) ->
    pte_of s'.(k_mem) T' va = pte_of s.(k_mem) T va
}.

Lemma covers_grow U a q :
  covers U a -> page_aligned a -> 0 <= a -> covers (<[a := q]> U) (a + PGSIZE).
Proof.
  intros Hc Ha Ha0 va. rewrite lookup_insert. case_decide as E.
  - subst va. split; [|eauto]. intros _. split; [done|clia].
  - rewrite (Hc va). unfold page_aligned in *. split; intros [? ?]; (split; [done|]); cdlia.
Qed.

Lemma grown_cons s T U s1 T1 q s' T' U' a newsz xperm root F F1 F' :
  vinv s root F T U -> page_aligned a -> 0 <= a -> a + PGSIZE <= PGROUNDUP newsz -> newsz <= MAXVA ->
  ustep root s1 F1 T1 (<[a := q]> U) s' F' T' U' ->
  U !! a = None ->
  (forall va, 0 <= va < MAXVA -> pte_of s1.(k_mem) T1 va =
     map_view (pte_of s.(k_mem) T) a 1 q (uperm xperm) va) ->
  (forall b, in_page q b -> rd s1.(k_mem) b = 0) ->
  grown s1 T1 (<[a := q]> U) s' T' U' (a + PGSIZE) newsz xperm ->
  grown s T U s' T' U' a newsz xperm.
Proof.
  intros Hv Ha Ha0 Hle HM Hus HU Hview Hz [Hsub Hc Hnew Hold].
  assert (HU'a : U' !! a = Some q).
  { eapply lookup_weaken; [apply lookup_insert_eq|done]. }
  destruct (vi_user _ _ _ _ _ (us_vinv _ _ _ _ _ _ _ _ _ Hus) a q HU'a) as (Har & _ & _).
  split; [|done| |].
  - etransitivity; [|exact Hsub]. by apply insert_subseteq.
  - intros va pa HU' Hge. destruct (decide (va = a)) as [->|Hne].
    + rewrite HU'a in HU'. injection HU' as <-. split.
      * rewrite Hold, Hview, map_view_one, decide_True by (done || clia). done.
      * intros b Hb. rewrite (us_data _ _ _ _ _ _ _ _ _ Hus a q b), Hz; try done.
        apply lookup_insert_eq.
    + apply Hnew; [done|].
      destruct (vi_user _ _ _ _ _ (us_vinv _ _ _ _ _ _ _ _ _ Hus) va pa HU') as (_ & Hal & _).
      unfold page_aligned in *. cdlia.
  - intros va Hva Hr. rewrite Hold, Hview by (done || clia).
    unfold map_view. rewrite decide_False by clia. done.
Qed.

Lemma uvmalloc_loop root oldsz newsz xperm n : forall s F T U a fuel,
  vinv s root F T U -> page_aligned a -> page_aligned oldsz -> 0 <= oldsz <= a -> covers U a ->
  0 <= newsz <= MAXVA -> a + Z.of_nat n * PGSIZE = PGROUNDUP newsz -> 0 <= xperm < 2 ^ 10 ->
  (forall va, a <= va < PGROUNDUP newsz -> ~ valid (pte_of s.(k_mem) T va)) -> (n < fuel)%nat ->
  exists ok s' F' T' U', loop fuel (uvmalloc_body root oldsz newsz xperm) a s = Ok ok s' /\
    ustep root s F T U s' F' T' U' /\
    if ok : bool then grown s T U s' T' U' a newsz xperm /\ (length F <= length F' + 3 * n)%nat
    else cut U U' oldsz /\ shrunk s T s' T' oldsz newsz /\ (length F < 3 * n)%nat.
Proof.
  induction n as [|n IH]; intros s F T U a fuel Hv Ha Hao Hoa Hc Hnsz Hsz Hxp Hinv Hfuel;
    (destruct fuel as [|fuel]; [lia|]); rewrite loop_S;
    destruct (PGROUNDUP_bounds newsz Hnsz) as (Har & Hbr & HMr).
  - unfold uvmalloc_body. destruct (Z.ltb_spec a newsz); [lia|]. cbn.
    exists true, s, F, T, U. split; [done|]. split; [by apply ustep_refl|].
    replace (Z.of_nat 0 * PGSIZE) with 0 in Hsz by lia. split; [|lia]. split; try done.
    + intros va. rewrite (Hc va). unfold page_aligned in *. split; intros [? ?]; (split; [done|]); cdlia.
    + intros va pa HU Hge. destruct (Hc va) as [Hc1 _]. destruct Hc1; [eauto|lia].
  - destruct (uvmalloc_step s root F T U oldsz newsz xperm a Hv Ha ltac:(clia) ltac:(clia) Hxp
                ltac:(apply Hinv; clia))
      as [(q & s1 & F1 & T1 & Hb & Hus & HU & Hview & Hz & Hlen)|(s1 & F1 & T1 & Hb & Hus & Hview & Hlen)];
      rewrite Hb; cbn [obind].
    + destruct (IH s1 F1 T1 (<[a := q]> U) (a + PGSIZE) fuel)
        as (ok & s' & F' & T' & U' & Hl & Hus' & Hok); try done; try clia.
      * apply Hus.
      * unfold page_aligned in *. cdlia.
      * apply covers_grow; done || lia.
      * intros va Hva. rewrite Hview by clia. unfold map_view. rewrite decide_False by clia.
        apply Hinv. clia.
      * exists ok, s', F', T', U'. split; [done|]. split.
        { eapply ustep_trans; [exact Hus|exact Hus'|]. intros va pa HUv _.
          rewrite lookup_insert_ne; [done|]. congruence. }
        destruct ok; [destruct Hok as [Hok Hlen']; split; [eapply grown_cons; try done; clia|lia]|]. destruct Hok as (Hcut & Hv' & Hlen').
        split; [|split; [|lia]].
        { intros va. rewrite Hcut. case_decide; [done|]. apply lookup_insert_ne.
          pose proof (PGROUNDUP_aligned oldsz Hao ltac:(clia)). lia. }
        destruct Hv' as [Hv1 Hv2]. split; [done|]. intros va Hva Hout.
        rewrite Hv2, Hview by done. unfold map_view. rewrite decide_False by clia. done.
    + destruct (uvmdealloc_ustep s1 root F1 T1 U a oldsz (us_vinv _ _ _ _ _ _ _ _ _ Hus) Hc Hoa
                  ltac:(clia)) as (s2 & F2 & U2 & Hd & Hus2 & Hcut & Hview2).
      cbn [bind]. rewrite Hd. cbn. exists false, s2, F2, T1, U2. split; [done|].
      split; [by eapply ustep_trans|]. split; [done|]. split; [|lia].
      rewrite !PGROUNDUP_aligned in Hview2 by (done || clia).
      split; intros va Hva; [|intros Hout]; rewrite Hview2, Hview by clia.
      * case_decide; [by intros []|]. apply Hinv. lia.
      * by rewrite decide_False by clia.
Qed.

Lemma uvmalloc_ustep s root F T U oldsz newsz xperm :
  vinv s root F T U -> covers U oldsz -> 0 <= oldsz <= newsz -> newsz <= MAXVA ->
  0 <= xperm < 2 ^ 10 ->
  (forall va, PGROUNDUP oldsz <= va < PGROUNDUP newsz -> ~ valid (pte_of s.(k_mem) T va)) ->
  exists r s' F' T' U', uvmalloc root oldsz newsz xperm s = Ok r s' /\
    ustep root s F T U s' F' T' U' /\
    (r = newsz /\ grown s T U s' T' U' (PGROUNDUP oldsz) newsz xperm /\
     (length F <= length F' + 3 * Z.to_nat ((PGROUNDUP newsz - PGROUNDUP oldsz) / PGSIZE))%nat \/
     r = 0 /\ U' = U /\ shrunk s T s' T' (PGROUNDUP oldsz) newsz /\
     (length F < 3 * Z.to_nat ((PGROUNDUP newsz - PGROUNDUP oldsz) / PGSIZE))%nat).
Proof.
  intros Hv Hc Ho Hn Hxp Hinv. unfold uvmalloc. destruct (Z.ltb_spec newsz oldsz); [lia|].
  destruct (PGROUNDUP_bounds oldsz ltac:(lia)) as (Ha & Hb & HM).
  destruct (PGROUNDUP_bounds newsz ltac:(lia)) as (Ha' & Hb' & HM').
  destruct (decide (PGROUNDUP oldsz <= PGROUNDUP newsz)) as [Hle|]; [|unfold page_aligned in *; cdlia].
  set (n := (PGROUNDUP newsz - PGROUNDUP oldsz) / PGSIZE).
  assert (En : PGROUNDUP oldsz + n * PGSIZE = PGROUNDUP newsz).
  { unfold n, page_aligned in *. cdlia. }
  assert (Hn0 : 0 <= n) by (clear -En Hle; clia).
  assert (Hc' : covers U (PGROUNDUP oldsz)).
  { intros va. rewrite (Hc va). clear -Ha Hb. unfold page_aligned in *.
    split; intros [? ?]; (split; [done|]); cdlia. }
  destruct (uvmalloc_loop root (PGROUNDUP oldsz) newsz xperm (Z.to_nat n) s F T U (PGROUNDUP oldsz)
              (Z.to_nat ((newsz - PGROUNDUP oldsz) / PGSIZE) + 2))
    as (ok & s' & F' & T' & U' & Hl & Hus & Hok); try done; try lia.
  { by rewrite Z2Nat.id. }
  { clear -Hb' En Hn0. cdlia. }
  cbn [bind]. rewrite Hl. cbn. eexists _, s', F', T', U'. split; [done|]. split; [done|].
  destruct ok; [by left|]. right. destruct Hok as (Hcut & Hsh & Hlen). split; [done|].
  split; [|done]. apply map_eq. intros va. rewrite Hcut.
  rewrite (PGROUNDUP_aligned (PGROUNDUP oldsz)) by (done || lia).
  case_decide; [|done]. destruct (U !! va) as [pa|] eqn:E; [|done].
  destruct (Hc va) as [Hc1 _]. destruct Hc1; [eauto|lia].
Qed.

End Uspace.
