(* ===== verification/Freewalk.v ===== *)
(** * Freeing an address space

    [freewalk] gives every page-table page back, and [uvmfree] every page of
    the address space: afterwards the free list holds exactly what was free
    before and what the address space owned. *)

From S2P Require Import Prelude Riscv Memory Spinlock Kalloc Vm Pagetable Uvm Uspace.

(** Paths under [p], [p] included. *)
Definition below (p k : list Z) : Prop := exists l, k = l ++ p.

Lemma below_refl p : below p p.
Proof. by exists []. Qed.

Lemma below_cons i p k : below (i :: p) k -> below p k.
Proof. intros [l ->]. exists (l ++ [i]). by rewrite <- app_assoc. Qed.

Lemma below_cons_inj i j p k : below (i :: p) k -> below (j :: p) k -> i = j.
Proof.
  intros [l ->] [l' E]. rewrite !(app_assoc _ [_] p : _ ++ _ :: p = _) in E.
  apply app_inv_tail in E. apply app_inj_tail in E as [_ ->]. done.
Qed.

Lemma below_cons_ne i p : ~ below (i :: p) p.
Proof. intros [l E]. apply (f_equal length) in E. rewrite length_app in E. cbn in E. lia. Qed.

(** A path under [p] is [p] or goes through one of its entries. *)
Lemma below_inv p k : below p k -> k = p \/ exists i, below (i :: p) k.
Proof.
  intros [l ->]. destruct l as [|x l] using rev_ind; [by left|]. right. exists x, l.
  by rewrite <- app_assoc.
Qed.

Section Freewalk.
Context `{ImageOk}.
Variables (m0 : mem) (T : ptree) (root : Z).
Hypothesis Hrep : pt_rep m0 T root.
Hypothesis Hnd : NoDup (pages_of T).
Hypothesis Hok : Forall page_ok (pages_of T).

(** The pages of the subtree at [p], and of its first [n] entries. *)
Definition sub_page (p : list Z) (x : Z) : Prop := exists k, below p k /\ T !! k = Some x.
Definition sub_pages (p : list Z) (n : Z) (x : Z) : Prop :=
  exists i, 0 <= i < n /\ sub_page (i :: p) x.

Lemma sub_page_ok p x : sub_page p x -> page_ok x.
Proof. intros (k & _ & Hk). eapply Forall_elem; [exact Hok|]. apply elem_pages_of. eauto. Qed.

Lemma page_ok_at p a : T !! p = Some a -> page_ok a.
Proof. intros Hp. apply (sub_page_ok p). exists p. split; [apply below_refl|done]. Qed.

(** Different entries have different subtrees, and the page itself is in none. *)
Lemma sub_page_inj i j p x : sub_page (i :: p) x -> sub_page (j :: p) x -> i = j.
Proof.
  intros (k & Hk & Ek) (k' & Hk' & Ek'). pose proof (pages_of_inj T k k' x Hnd Ek Ek') as ->.
  by eapply below_cons_inj.
Qed.

Lemma sub_page_ne i p a : T !! p = Some a -> ~ sub_page (i :: p) a.
Proof.
  intros Hp (k & Hk & Ek). pose proof (pages_of_inj T k p a Hnd Ek Hp) as ->.
  by eapply below_cons_ne.
Qed.

Lemma below_lookup i p k q : below (i :: p) k -> T !! k = Some q -> is_Some (T !! (i :: p)).
Proof.
  intros [l ->]. revert q. induction l as [|x l IH]; cbn; intros q Hq; [eauto|].
  destruct (pr_child _ _ _ Hrep _ _ _ Hq) as [_ [q' Hq']]. eauto.
Qed.

Lemma sub_page_split p x a :
  T !! p = Some a -> sub_page p x <-> x = a \/ sub_pages p 512 x.
Proof.
  intros Hp. split.
  - intros (k & Hk & Ek). destruct (below_inv p k Hk) as [->|[i Hi]]; [left; congruence|].
    right. exists i. split; [|by exists k]. destruct (below_lookup _ _ _ _ Hi Ek) as [q Hq].
    by apply (pr_child _ _ _ Hrep) in Hq as [? _].
  - intros [->|(i & _ & k & Hk & Ek)]; [exists p; split; [apply below_refl|done]|].
    exists k. split; [by eapply below_cons|done].
Qed.

Lemma sub_pages_S p n x : 0 <= n ->
  sub_pages p (n + 1) x <-> sub_pages p n x \/ sub_page (n :: p) x.
Proof.
  intros Hn. split.
  - intros (i & Hi & Hx). destruct (decide (i = n)) as [->|]; [by right|].
    left. exists i. split; [lia|done].
  - intros [(i & Hi & Hx)|Hx]; [exists i|exists n]; split; try done; lia.
Qed.

(** ** The loop over the entries of one page *)

(** The leaf page tables map nothing. *)
Hypothesis Hleaf : forall k q i, T !! k = Some q -> length k = 2%nat -> 0 <= i < 512 ->
  Z.land (load64 m0 (q + 8 * i)) PTE_V = 0.

(** The state after the first [n] entries of page [a] at [p]. *)
Record fw_inv (p : list Z) (a : Z) (s0 : kst) (F : list Z) (n : Z) (s : kst) (F' : list Z) : Prop := {
  fw_kinv : kinv s F';
  fw_free : forall x, x ∈ F' <-> x ∈ F \/ sub_pages p n x;
  fw_hart : s.(k_hart) = s0.(k_hart);
  fw_mem : same_except (fun b => a <= b < a + 8 * n \/ exists x, sub_pages p n x /\ in_page x b)
             s0.(k_mem) s.(k_mem)
}.

(** The subtree at [p] is as it was, and not free. *)
Definition intact (p : list Z) (s : kst) (F : list Z) : Prop :=
  forall x, sub_page p x -> (x ∉ F) /\ forall b, in_page x b -> rd s.(k_mem) b = rd m0 b.

(** What [freewalk d] does at a path of length [3 - d]. *)
Definition frees (d : nat) : Prop := forall p a s F,
  (length p + d = 3)%nat -> T !! p = Some a -> kinv s F -> intact p s F ->
  exists s' F', freewalk d a s = Ok tt s' /\ kinv s' F' /\
    (forall x, x ∈ F' <-> x ∈ F \/ sub_page p x) /\ s'.(k_hart) = s.(k_hart) /\
    same_except (fun b => exists x, sub_page p x /\ in_page x b) s.(k_mem) s'.(k_mem).

Lemma land_pte_none q : page_ok q -> Z.land (Z.lor (PA2PTE q) PTE_V) (Z.lor (Z.lor PTE_R PTE_W) PTE_X) = 0.
Proof.
  intros [Ha Hr]. pose proof kend_range.
  pose proof (PTE_FLAGS_PA2PTE q PTE_V Ha ltac:(clia) ltac:(clia)) as E.
  change (Z.lor (Z.lor PTE_R PTE_W) PTE_X) with (Z.land 0x3FF 14).
  rewrite Z.land_assoc. unfold PTE_FLAGS in E. rewrite E. done.
Qed.

Lemma fw_entry_load p a s0 F n s F' :
  T !! p = Some a -> intact p s0 F -> fw_inv p a s0 F n s F' -> 0 <= n < 512 ->
  load64 s.(k_mem) (a + 8 * n) = load64 m0 (a + 8 * n).
Proof.
  intros Hp Hi Hf Hn. apply load64_ext. intros b Hb.
  assert (Hab : in_page a b) by by eapply entry_in_page.
  rewrite (fw_mem _ _ _ _ _ _ _ Hf).
  - apply (Hi a); [|done]. exists p. split; [apply below_refl|done].
  - intros [?|(x & (i & Hin & Hx) & Hxb)]; [lia|].
    apply (pages_in_ne a x b); try done; [by eapply page_ok_at|by eapply sub_page_ok|].
    intros <-. by eapply sub_page_ne.
Qed.

(** An entry with nothing below it. *)
Lemma fw_skip p a s0 F n s F' :
  fw_inv p a s0 F n s F' -> 0 <= n -> (forall x, ~ sub_page (n :: p) x) ->
  fw_inv p a s0 F (n + 1) s F'.
Proof.
  intros [Hk Hfr Hh Hm] Hn Hno. split; try done.
  - intros x. rewrite Hfr, sub_pages_S by done. specialize (Hno x). tauto.
  - eapply same_except_weaken; [exact Hm|]. intros b [?|(x & Hx & Hb)]; [left; lia|].
    right. exists x. rewrite sub_pages_S by done. tauto.
Qed.

(** The subtree of an entry not yet reached is intact. *)
Lemma fw_intact p a s0 F n s F' :
  T !! p = Some a -> intact p s0 F -> fw_inv p a s0 F n s F' -> 0 <= n <= 512 ->
  intact (n :: p) s F'.
Proof.
  intros Hp Hi Hf Hn x Hx. assert (Hxp : sub_page p x).
  { destruct Hx as (k & Hk & Ek). exists k. split; [by eapply below_cons|done]. }
  destruct (Hi x Hxp) as [HxF Hxm]. split.
  - rewrite (fw_free _ _ _ _ _ _ _ Hf). intros [?|(i & Hin & Hx')]; [done|].
    pose proof (sub_page_inj _ _ _ _ Hx Hx'). lia.
  - intros b Hb. rewrite (fw_mem _ _ _ _ _ _ _ Hf); [by apply Hxm|].
    intros [Hab|(y & (i & Hin & Hy) & Hyb)].
    + apply (pages_in_ne x a b); try done; [by eapply sub_page_ok|by eapply page_ok_at| |unfold in_page; clia].
      intros ->. by eapply sub_page_ne.
    + apply (pages_in_ne x y b); try done; [by eapply sub_page_ok|by eapply sub_page_ok|].
      intros <-. pose proof (sub_page_inj _ _ _ _ Hx Hy). lia.
Qed.

Lemma fw_entry_empty d p a s0 F n s F' :
  T !! p = Some a -> intact p s0 F -> 0 <= Z.of_nat n < 512 ->
  fw_inv p a s0 F (Z.of_nat n) s F' ->
  Z.land (load64 m0 (a + 8 * Z.of_nat n)) PTE_V = 0 -> (forall x, ~ sub_page (Z.of_nat n :: p) x) ->
  freewalk_body (freewalk d) a n s = Ok None s /\ fw_inv p a s0 F (Z.of_nat n + 1) s F'.
Proof.
  intros Hp Hi Hn Hf E0 Hno. unfold freewalk_body, load_pte. cbn [bind gets obind].
  rewrite (fw_entry_load p a s0 F _ s F' Hp Hi Hf Hn), E0. cbn.
  split; [done|]. apply fw_skip; done || lia.
Qed.

Lemma fw_entry_child d p a s0 F n s F' q :
  frees d -> (length p + S d = 3)%nat -> T !! p = Some a -> intact p s0 F ->
  0 <= Z.of_nat n < 512 -> fw_inv p a s0 F (Z.of_nat n) s F' ->
  T !! (Z.of_nat n :: p) = Some q -> (length p < 2)%nat ->
  exists s' F'', freewalk_body (freewalk d) a n s = Ok None s' /\
    fw_inv p a s0 F (Z.of_nat n + 1) s' F''.
Proof.
  intros Hd Hl Hp Hi Hn Hf Eq Hlp. pose proof (page_ok_at _ _ Eq) as Hq.
  pose proof (page_ok_at _ _ Hp) as Ha.
  pose proof (pr_entry _ _ _ Hrep p a (Z.of_nat n) Hp Hlp Hn) as He. rewrite Eq in He.
  unfold freewalk_body, load_pte. cbn [bind gets obind].
  rewrite (fw_entry_load p a s0 F _ s F' Hp Hi Hf Hn), He.
  rewrite pte_valid, land_pte_none, pte_next by done. cbn [andb Z.eqb].
  destruct (Hd (Z.of_nat n :: p) q s F' ltac:(cbn; lia) Eq (fw_kinv _ _ _ _ _ _ _ Hf)
              (fw_intact _ _ _ _ _ _ _ Hp Hi Hf ltac:(lia))) as (s1 & F1 & Hc & Hk1 & HF1 & Hh1 & Hm1).
  cbn [bind]. rewrite Hc. unfold store_pte. cbn.
  exists (store_st s1 (a + 8 * Z.of_nat n) 0), F1. split; [done|].
  assert (HaF : a ∉ F1).
  { rewrite HF1, (fw_free _ _ _ _ _ _ _ Hf). intros [[HaF|(i & _ & Hx)]|Hx].
    - apply (Hi a); [exists p; split; [apply below_refl|done]|done].
    - exact (sub_page_ne _ _ _ Hp Hx).
    - exact (sub_page_ne _ _ _ Hp Hx). }
  assert (Hm2 : same_except (fun b => a + 8 * Z.of_nat n <= b < a + 8 * Z.of_nat n + 8)
                  s1.(k_mem) (store_st s1 (a + 8 * Z.of_nat n) 0).(k_mem)).
  { intros b Hb. by apply rd_store64. }
  destruct Hf as [Hk Hfr Hh Hm]. split.
  - destruct Hk1 as [Hk1 Hk2 Hk3 Hk4 Hk5]. split; try done.
    eapply fl_rep_except; [done| |exact Hm2|done]. intros x b Hx Hxb Hb.
    apply (pages_in_ne x a b); try done; [by eapply Forall_elem| |by eapply entry_in_page].
    by intros ->.
  - intros x. rewrite HF1, Hfr, sub_pages_S by lia. tauto.
  - cbn. by rewrite Hh1.
  - intros b Hb. rewrite Hm2, Hm1, Hm; [done| | |].
    + intros [?|(x & Hx & Hxb)]; apply Hb; [left; lia|]. right. exists x.
      rewrite sub_pages_S by lia. tauto.
    + intros (x & Hx & Hxb). apply Hb. right. exists x. rewrite sub_pages_S by lia. tauto.
    + intros ?. apply Hb. left. lia.
Qed.

Lemma fw_entry d p a s0 F n s F' :
  (d <> 0%nat -> frees d) -> (length p + S d = 3)%nat -> T !! p = Some a -> intact p s0 F ->
  0 <= Z.of_nat n < 512 -> fw_inv p a s0 F (Z.of_nat n) s F' ->
  exists s' F'', freewalk_body (freewalk d) a n s = Ok None s' /\
    fw_inv p a s0 F (Z.of_nat n + 1) s' F''.
Proof.
  intros Hd Hl Hp Hi Hn Hf. destruct d as [|d].
  { exists s, F'. apply fw_entry_empty; try done; [apply (Hleaf p); done || lia|].
    intros x (k & [l ->] & Ek).
    apply (pr_len _ _ _ Hrep) in Ek. rewrite length_app in Ek. cbn in Ek. lia. }
  destruct (T !! (Z.of_nat n :: p)) as [q|] eqn:Eq.
  { eapply fw_entry_child; try done; [by apply Hd|lia]. }
  pose proof (pr_entry _ _ _ Hrep p a (Z.of_nat n) Hp ltac:(lia) Hn) as He. rewrite Eq in He.
  exists s, F'. apply fw_entry_empty; try done.
  intros x (k & Hk & Ek). destruct (below_lookup _ _ _ _ Hk Ek). congruence.
Qed.

Lemma fw_loop d p a s0 F : (d <> 0%nat -> frees d) -> (length p + S d = 3)%nat -> T !! p = Some a ->
  intact p s0 F -> forall m n s F', (n + m = 512)%nat -> fw_inv p a s0 F (Z.of_nat n) s F' ->
  exists s' F'', for_each (seq n m) (freewalk_body (freewalk d) a) s = Ok None s' /\
    fw_inv p a s0 F 512 s' F''.
Proof.
  intros Hd Hl Hp Hi. induction m as [|m IH]; intros n s F' Hnm Hf.
  - exists s, F'. split; [done|]. by replace 512 with (Z.of_nat n) by lia.
  - cbn [seq for_each bind].
    destruct (fw_entry d p a s0 F n s F' Hd Hl Hp Hi ltac:(lia) Hf) as (s1 & F1 & Hb & Hf1).
    rewrite Hb. cbn [obind]. apply (IH (S n) s1 F1); [lia|].
    by replace (Z.of_nat (S n)) with (Z.of_nat n + 1) by lia.
Qed.

Lemma freewalk_frees d : frees d.
Proof.
  induction d as [|d IH]; intros p a s F Hl Hp Hk Hi.
  - destruct (T !! p) eqn:E; [|done]. apply (pr_len _ _ _ Hrep) in E. lia.
  - pose proof (page_ok_at _ _ Hp) as Ha.
    destruct (fw_loop d p a s F (fun _ => IH) Hl Hp Hi 512 0 s F) as (s1 & F1 & Hfe & Hf1); [lia| |].
    { split; try done. intros x. split; [by left|]. intros [?|(i & ? & _)]; [done|lia]. }
    cbn [freewalk bind]. rewrite Hfe. cbn [obind].
    destruct Hf1 as [Hk1 HF1 Hh1 Hm1].
    destruct (kfree_inv s1 F1 a Hk1 Ha) as (s2 & Hc & Hk2 & Hh2 & Hm2).
    { rewrite HF1. intros [HaF|(i & _ & Hx)]; [|by eapply sub_page_ne].
      apply (Hi a); [exists p; split; [apply below_refl|done]|done]. }
    exists s2, (a :: F1). split_and!; try done.
    + intros x. rewrite elem_of_cons, HF1, (sub_page_split p x a Hp). tauto.
    + by rewrite Hh2.
    + intros b Hb. rewrite Hm2, Hm1; [done| |].
      * intros [?|(x & Hx & Hxb)]; apply Hb.
        { exists a. rewrite (sub_page_split p a a Hp). split; [by left|]. unfold in_page. clia. }
        exists x. rewrite (sub_page_split p x a Hp). tauto.
      * intros ?. apply Hb. exists a. rewrite (sub_page_split p a a Hp). tauto.
Qed.

End Freewalk.

(** ** uvmfree *)

Section Uvmfree.
Context `{ImageOk}.

(** Every entry of a leaf page is the entry of an address. *)
Lemma leaf_entry_va m T root k q i :
  pt_rep m T root -> T !! k = Some q -> length k = 2%nat -> 0 <= i < 512 ->
  exists va, 0 <= va < MAXVA /\ leaf_path va = k /\ PX 0 va = i.
Proof.
  intros Hr Hk Hl Hi. destruct k as [|i1 [|i2 [|]]]; cbn in Hl; try lia.
  destruct (pr_child _ _ _ Hr _ _ _ Hk) as [H1 [q2 H2]].
  destruct (pr_child _ _ _ Hr _ _ _ H2) as [H3 _]. pose proof (pr_max _ _ _ Hr _ _ H2) as H4.
  exists (i2 * 2 ^ 30 + i1 * 2 ^ 21 + i * 2 ^ 12). split; [clia|]. unfold leaf_path.
  rewrite !PX_spec by lia. change (12 + 9 * 1) with 21. change (12 + 9 * 2) with 30.
  change (12 + 9 * 0) with 12.
  replace ((i2 * 2 ^ 30 + i1 * 2 ^ 21 + i * 2 ^ 12) / 2 ^ 21) with (i2 * 512 + i1) by dlia.
  replace ((i2 * 2 ^ 30 + i1 * 2 ^ 21 + i * 2 ^ 12) / 2 ^ 30) with i2 by dlia.
  replace ((i2 * 2 ^ 30 + i1 * 2 ^ 21 + i * 2 ^ 12) / 2 ^ 12) with ((i2 * 512 + i1) * 512 + i) by dlia.
  rewrite !(Z.add_comm (_ * 512)), !Z.mod_add, !Z.mod_small by lia. done.
Qed.

(** [freewalk] on an address space that maps nothing. *)
Lemma freewalk_vinv s root F T :
  vinv s root F T ∅ -> (forall va, 0 <= va < MAXVA -> ~ valid (pte_of s.(k_mem) T va)) ->
  exists s' F', freewalk 3 root s = Ok tt s' /\ kinv s' F' /\ F' ≡ₚ owned F T ∅ /\
    s'.(k_hart) = s.(k_hart) /\ frame (pages_of T) s.(k_mem) s'.(k_mem).
Proof.
  intros Hv Hn. destruct (vinv_tree _ _ _ _ _ Hv) as [Hnd Hok].
  pose proof (vi_pt _ _ _ _ _ Hv) as Hr. pose proof (vi_nodup _ _ _ _ _ Hv) as Hd.
  assert (Hsub : forall x, sub_page T [] x <-> x ∈ pages_of T).
  { intros x. rewrite elem_pages_of. split; [intros (k & _ & ?); eauto|].
    intros [k Hk]. exists k. split; [|done]. exists k. by rewrite app_nil_r. }
  destruct (freewalk_frees s.(k_mem) T root Hr Hnd Hok) with (d := 3%nat) (p := @nil Z) (a := root)
    (s := s) (F := F) as (s' & F' & Hf & Hk & HF & Hh & Hm); try done.
  - intros k q i Hk Hl Hi. destruct (leaf_entry_va _ _ _ _ _ _ Hr Hk Hl Hi) as (va & Hva & Ek & Ei).
    specialize (Hn va Hva). unfold pte_of in Hn. rewrite Ek, Hk, Ei in Hn. unfold valid in Hn. lia.
  - apply Hr.
  - exact (vinv_kinv _ _ _ _ _ Hv).
  - intros x Hx. split; [|done]. apply Hsub in Hx. intros HxF. unfold owned in Hd.
    apply NoDup_app in Hd as (_ & Hd & _). apply (Hd x HxF). lelem.
  - exists s', F'. split; [done|]. split; [done|]. split; [|split; [done|]].
    + apply NoDup_Permutation; [apply Hk|done|]. intros x. rewrite HF, Hsub. unfold owned.
      rewrite !elem_of_app. unfold pages_of at 3. rewrite map_to_list_empty. cbn. rewrite elem_of_nil. tauto.
    + intros b Hb. apply Hm. intros (x & Hx & Hxb). apply Hb. exists x. split; [by apply Hsub|done].
Qed.

(** [uvmfree] gives back everything the address space owned. *)
Lemma uvmfree_all s root F T U sz :
  vinv s root F T U -> covers U sz -> 0 <= sz <= MAXVA ->
  (forall va, PGROUNDUP sz <= va < MAXVA -> ~ valid (pte_of s.(k_mem) T va)) ->
  exists s' F', uvmfree root sz s = Ok tt s' /\ kinv s' F' /\ F' ≡ₚ owned F T U /\
    s'.(k_hart) = s.(k_hart) /\ frame (owned F T U) s.(k_mem) s'.(k_mem).
Proof.
  intros Hv Hc Hsz Hn. destruct (PGROUNDUP_bounds sz Hsz) as (Ha & Hb & HM).
  assert (Hgo : forall s1 F1 U1, ustep root s F T U s1 F1 T U1 ->
      (forall va, 0 <= va < MAXVA -> ~ valid (pte_of s1.(k_mem) T va)) -> U1 = ∅ ->
      exists s' F', freewalk 3 root s1 = Ok tt s' /\ kinv s' F' /\ F' ≡ₚ owned F T U /\
        s'.(k_hart) = s.(k_hart) /\ frame (owned F T U) s.(k_mem) s'.(k_mem)).
  { intros s1 F1 U1 Hus Hn1 ->.
    destruct (freewalk_vinv s1 root F1 T (us_vinv _ _ _ _ _ _ _ _ _ Hus) Hn1)
      as (s' & F' & Hf & Hk & HF & Hh & Hm).
    exists s', F'. split; [done|]. split; [done|]. rewrite HF, Hh, (us_hart _ _ _ _ _ _ _ _ _ Hus).
    split; [apply Hus|]. split; [done|]. eapply frame_trans; [apply Hus|].
    eapply frame_incl; [|exact Hm]. intros x Hx. rewrite <- (us_perm _ _ _ _ _ _ _ _ _ Hus).
    unfold owned. lelem. }
  unfold uvmfree. destruct (Z.gtb_spec sz 0) as [Hpos|Hz].
  - set (n := PGROUNDUP sz / PGSIZE).
    assert (En : n * PGSIZE = PGROUNDUP sz) by (unfold n, page_aligned in *; cdlia).
    assert (Hn0 : 0 <= n) by (clear -En Hb Hpos; clia).
    destruct (uvmunmap_free s root F T U 0 n) as (s1 & F1 & U1 & Hu & Hv1 & Hp1 & Hun & Hview & Hh1 & Hf1);
      try done; try lia.
    { intros i Hi. apply Hc. split; [unfold page_aligned; rewrite Z.add_0_l; apply Z.mod_mul; clia|].
      clear -Hb En Hi. clia. }
    cbn [bind]. rewrite Hu. cbn [obind]. apply (Hgo s1 F1 U1).
    + split; try done.
      * eapply frame_incl; [|exact Hf1]. intros x Hx. rewrite <- Hp1. unfold owned. lelem.
      * intros va pa b _ HU1 Hbb. apply Hf1.
        exact (vinv_user_frame _ _ _ _ _ _ _ _ _ Hv1 HU1 Hbb (fun x Hx => Hx)).
    + intros va Hva. rewrite Hview by done. unfold clear_view.
      case_decide; [by intros []|]. apply Hn. lia.
    + apply map_eq. intros va. rewrite lookup_empty, (Hun va). case_decide; [done|].
      destruct (U !! va) as [pa|] eqn:E; [|done]. destruct (Hc va) as [Hc1 _].
      destruct Hc1; [eauto|]. exfalso. lia.
  - cbn [bind ret obind]. apply (Hgo s F U); [by apply ustep_refl| |].
    + intros va Hva. apply Hn. clear -Hva Hb Hz Hsz Ha. unfold page_aligned in *. cdlia.
    + apply map_eq. intros va. rewrite lookup_empty.
      destruct (U !! va) as [pa|] eqn:E; [|done]. destruct (Hc va) as [Hc1 _].
      destruct Hc1; [eauto|]. exfalso. lia.
Qed.

(** ** uvmcreate *)

Lemma pt_rep_root m q :
  page_ok q -> (forall b, in_page q b -> rd m b = 0) -> pt_rep m {[ [] := q ]} q.
Proof.
  intros Hq Hz. split.
  - apply lookup_singleton_eq.
  - intros p a [<- _]%lookup_singleton_Some. cbn. lia.
  - intros i p x [? _]%lookup_singleton_Some. done.
  - intros i x [? _]%lookup_singleton_Some. done.
  - intros p a i [<- <-]%lookup_singleton_Some _ Hi. rewrite lookup_singleton_ne by done.
    rewrite load64_zero; [done|]. intros b Hb. apply Hz. by eapply entry_in_page.
Qed.

(** [uvmcreate] makes an empty address space out of the first free page. *)
Lemma uvmcreate_vinv s q F :
  kinv s (q :: F) ->
  exists s', uvmcreate s = Ok q s' /\ vinv s' q F {[ [] := q ]} ∅ /\
    (forall va, 0 <= va < MAXVA -> pte_of s'.(k_mem) {[ [] := q ]} va = 0) /\
    owned F {[ [] := q ]} ∅ ≡ₚ q :: F /\
    s'.(k_hart) = s.(k_hart) /\ frame [q] s.(k_mem) s'.(k_mem).
Proof.
  intros Hk. destruct (kalloc_inv s q F Hk) as (s1 & Ea & Hk1 & Hq & Hn & Hh & Hf & _).
  assert (Hperm : owned F {[ [] := q ]} ∅ ≡ₚ q :: F).
  { unfold owned, pages_of. rewrite map_to_list_singleton, map_to_list_empty. cbn.
    symmetry. apply Permutation_cons_append. }
  unfold uvmcreate. cbn [bind]. rewrite Ea. cbn [obind]. pose proof (page_pos q Hq).
  destruct (Z.eqb_spec q 0); [lia|]. cbn. fold (mem_st s1 (memset (k_mem s1) q 0 PGSIZE)).
  exists (mem_st s1 (memset (k_mem s1) q 0 PGSIZE)). split; [done|].
  split; [|split; [|split; [done|split; [done|]]]].
  - destruct Hk1 as [Hk1 Hk2 Hk3 Hk4 Hk5]. split; try done; rewrite ?Hperm.
    + eapply fl_rep_except; [done| |apply memset_page|done]. intros a b Ha Hab.
      apply (pages_in_ne a q b); try done; [by eapply Forall_elem|]. by intros ->.
    + apply pt_rep_root; [done|]. intros b Hb. cbn [mem_st k_mem].
      rewrite rd_memset by clia. by rewrite decide_True.
    + by apply NoDup_cons.
    + by apply Forall_cons.
  - intros va Hva. unfold pte_of, leaf_path. by rewrite lookup_singleton_ne.
  - eapply frame_trans; [apply frame_page, Hf|apply memset_frame].
Qed.

End Uvmfree.
