(* ===== verification/Uvmcopy.v ===== *)
(** * Copying an address space (uvmcopy)

    Two address spaces share the free list and own different pages; fork
    copies one into the other. *)

From S2P Require Import Prelude Riscv Memory Spinlock Kalloc Vm Pagetable Uvm Uspace Freewalk.

Section Uvmcopy.
Context `{ImageOk}.

(** ** Another address space *)

(** No page of the space [T], [U] is among [L]. *)
Definition apart (T : ptree) (U : gmap Z Z) (L : list Z) : Prop :=
  forall x, x ∈ pages_of T ++ pages_of U -> x ∉ L.

Lemma apart_perm T U L L' : L' ≡ₚ L -> apart T U L -> apart T U L'.
Proof. intros Hp Ha x Hx. rewrite Hp. by apply Ha. Qed.

(** A space is not changed by a step of another one. *)
Lemma vinv_other s root F T U new F1 T1 U1 s' F' T' U' :
  vinv s root F T U -> apart T U (owned F1 T1 U1) -> ustep new s F1 T1 U1 s' F' T' U' ->
  vinv s' root F' T U /\ (forall va, pte_of s'.(k_mem) T va = pte_of s.(k_mem) T va) /\
  (forall va pa b, U !! va = Some pa -> in_page pa b -> rd s'.(k_mem) b = rd s.(k_mem) b).
Proof.
  intros Hv Hd [Hv' Hp Ht Hh Hf _]. pose proof (vi_pages _ _ _ _ _ Hv) as Hok. unfold owned in Hok.
  rewrite !Forall_app in Hok. destruct Hok as (_ & HT & HU).
  assert (Hok1 : Forall page_ok (owned F1 T1 U1)) by (rewrite <- Hp; apply Hv').
  assert (Hsame : forall a b, a ∈ pages_of T ++ pages_of U -> in_page a b ->
            ~ (exists x, x ∈ owned F1 T1 U1 /\ in_page x b)).
  { intros a b Ha Hab (x & Hx & Hxb).
    refine (pages_in_ne a x b _ (Forall_elem _ _ _ Hok1 Hx) _ Hab Hxb).
    - apply elem_of_app in Ha as [Ha|Ha]; [exact (Forall_elem _ _ _ HT Ha)|exact (Forall_elem _ _ _ HU Ha)].
    - intros ->. exact (Hd x Ha Hx). }
  destruct (pt_frame _ _ _ T root (vi_pt _ _ _ _ _ Hv) Hf) as [Hpt Hpte].
  { intros p a b Ha. apply Hsame. apply elem_of_app. left. apply elem_pages_of. eauto. }
  split; [|split; [done|]].
  - pose proof (vi_nodup _ _ _ _ _ Hv) as Hnd. pose proof (vinv_kinv _ _ _ _ _ Hv') as Hk'.
    unfold owned in Hnd. apply NoDup_app in Hnd as (_ & _ & Hnd).
    split; try done; try apply Hv'.
    + unfold owned. apply NoDup_app. split_and!; [apply Hk'| |done].
      intros x Hx Hx'. apply (Hd x Hx'). rewrite <- Hp. unfold owned. lelem.
    + unfold owned. rewrite !Forall_app. split_and!; try done. apply Hk'.
    + intros va pa Hpa. rewrite Hpte. by apply (vi_user _ _ _ _ _ Hv).
  - intros va pa b Hpa Hb. apply Hf, (Hsame pa); [|done]. apply elem_of_app. right.
    apply elem_pages_of. eauto.
Qed.

(** ** One page *)

Lemma PTE_FLAGS_range pte : 0 <= PTE_FLAGS pte < 2 ^ 10.
Proof. unfold PTE_FLAGS. change 0x3FF with (Z.ones 10). rewrite Z.land_ones by lia. apply Z.mod_pos_bound. lia. Qed.

Lemma flags_valid pte : valid pte -> Z.lor (PTE_FLAGS pte) PTE_V = PTE_FLAGS pte.
Proof.
  intros Hv. apply Z.bits_inj'. intros n Hn. rewrite Z.lor_spec.
  destruct (decide (n = 0)) as [->|Hne].
  - change (Z.testbit PTE_V 0) with true. rewrite orb_true_r. unfold PTE_FLAGS.
    rewrite Z.land_spec. change (Z.testbit 0x3FF 0) with true. rewrite andb_true_r.
    destruct (Z.testbit pte 0) eqn:E; [done|]. exfalso. apply Hv. apply Z.bits_inj'. intros k Hk.
    rewrite Z.land_spec, Z.bits_0. destruct (decide (k = 0)) as [->|]; [by rewrite E|].
    change PTE_V with (2 ^ 0). rewrite Z.pow2_bits_false by lia. apply andb_false_r.
  - change PTE_V with (2 ^ 0). rewrite Z.pow2_bits_false by lia. apply orb_false_r.
Qed.

Lemma flags_readable pte : Z.land pte PTE_R <> 0 -> Z.land (PTE_FLAGS pte) PTE_R <> 0.
Proof. change PTE_R with (Z.shiftl 1 1). by rewrite <- land_flag. Qed.

Lemma memmove_frame q src m : frame [q] m (memmove m q src PGSIZE).
Proof. apply frame_page. intros b Hb. rewrite rd_memmove by clia. by rewrite decide_False. Qed.

(** One turn of the loop: page [i] of the old space is copied, or the clean-up
    runs on an unchanged space. *)
Lemma uvmcopy_step s old new F T U F2 T2 U2 sz i pa :
  vinv s old F T U -> vinv s new F2 T2 U2 -> apart T U (owned F2 T2 U2) ->
  U !! i = Some pa -> i < sz -> i + PGSIZE <= MAXVA -> ~ valid (pte_of s.(k_mem) T2 i) ->
  (exists q s' F' T', uvmcopy_body old new sz i s = Ok (inl (i + PGSIZE)) s' /\
     ustep new s F2 T2 U2 s' F' T' (<[i := q]> U2) /\ U2 !! i = None /\
     (forall va, 0 <= va < MAXVA -> pte_of s'.(k_mem) T' va =
        map_view (pte_of s.(k_mem) T2) i 1 q (PTE_FLAGS (pte_of s.(k_mem) T i)) va) /\
     (forall o, 0 <= o < PGSIZE -> rd s'.(k_mem) (q + o) = rd s.(k_mem) (pa + o)) /\
     (length F2 <= length F' + 3)%nat) \/
  (exists s' F' T', uvmcopy_body old new sz i s =
       (uvmunmap new 0 (i / PGSIZE) true ;; ret (inr (-1))) s' /\
     ustep new s F2 T2 U2 s' F' T' U2 /\
     (forall va, 0 <= va < MAXVA -> pte_of s'.(k_mem) T' va = pte_of s.(k_mem) T2 va) /\
     (length F2 < 3)%nat).
Proof.
  intros Hvo Hvn Hd HU Hlt HM Hn.
  destruct (vi_user _ _ _ _ _ Hvo i pa HU) as (Hir & Hia & Hval & Epa & Hfl).
  destruct (valid_leaf _ _ _ Hval) as [l Hl].
  destruct (vinv_leaf _ _ _ _ _ _ _ Hvo Hl) as [Hlok _].
  unfold uvmcopy_body. destruct (Z.ltb_spec i sz); [|lia]. cbn [bind].
  rewrite (vinv_walk _ _ _ _ _ _ Hvo) by done. rewrite Hl. cbn [obind].
  pose proof (page_pos l Hlok). pose proof (PX_range 0 i ltac:(lia)).
  destruct (Z.eqb_spec (l + 8 * PX 0 i) 0); [lia|].
  unfold load_pte. cbn [bind obind gets]. rewrite <- (pte_of_leaf (k_mem s) _ _ _ Hl).
  destruct (Z.eqb_spec (Z.land (pte_of (k_mem s) T i) PTE_V) 0); [done|]. rewrite Epa. cbn [bind].
  destruct F2 as [|q F2].
  { right. rewrite (kalloc_nil s (vinv_kinv _ _ _ _ _ Hvn)). exists s, [], T2.
    split; [done|]. split; [by apply ustep_refl|]. split; [done|cbn; lia]. }
  destruct (vinv_kalloc s new q F2 T2 U2 Hvn) as (s1 & Hk & Hv1 & Hq & Hno & Hview1 & Hh1 & Hf1).
  rewrite Hk. cbn [obind]. pose proof (page_pos q Hq). destruct (Z.eqb_spec q 0); [lia|].
  set (flags := PTE_FLAGS (pte_of (k_mem s) T i)) in *.
  destruct (fill_and_map s1 new F2 T2 U2 q i flags (memmove s1.(k_mem) q pa PGSIZE) Hv1 Hq Hno
              (memmove_frame q pa _) Hia ltac:(lia) HM (PTE_FLAGS_range _))
    as (r & s' & F' & T' & Hm & Hx & Hno' & Hlen & Hr);
    [by apply flags_readable|by rewrite Hview1|].
  cbn [bind update modify obind view put mem_l k_mem k_hart kmem_lock freelist].
  fold (mem_st s1 (memmove (k_mem s1) q pa PGSIZE)). rewrite Hm. cbn [obind].
  destruct Hr as [[-> Hpte]|[-> Hlen']].
  - left. exists q, s', F', T'. cbn. rewrite u64_small by clia. split; [done|].
    rewrite decide_True in Hx by done.
    destruct (grow_step s new q F2 T2 U2 i s1 _ s' F' T' _ Hvn Hv1 Hno Hq Hh1 Hf1
                (memmove_frame q pa _) Hx Hno' ltac:(clia) Hia Hpte) as (Hus & HU2 & Hz).
    split; [done|]. split; [done|]. split; [|split; [|cbn; lia]].
    + intros va Hva. rewrite (ve_pte _ _ _ _ _ _ _ _ _ Hx) by done. by apply map_view_ext.
    + intros o Ho. rewrite Hz by (unfold in_page; clia). rewrite rd_memmove by clia.
      rewrite decide_True by clia. replace (pa + (q + o - q)) with (pa + o) by lia.
      apply Hf1. intros (x & Hx1%list_elem_of_singleton & Hxb). subst x.
      assert (HpaU : pa ∈ pages_of U) by (apply elem_pages_of; eauto).
      pose proof (vi_pages _ _ _ _ _ Hvo) as Hok. unfold owned in Hok. rewrite !Forall_app in Hok.
      refine (pages_in_ne pa q (pa + o) (Forall_elem _ _ _ (proj2 (proj2 Hok)) HpaU) Hq _ _ Hxb);
        [|unfold in_page; clia].
      intros ->. apply (Hd q); [lelem|]. unfold owned. cbn. lelem.
  - right. cbn [nz negb Z.eqb]. rewrite decide_False in Hx by done.
    destruct (give_back s new q F2 T2 U2 s1 _ s' F' T' Hvn Hno' Hq Hh1 Hf1 (memmove_frame q pa _))
      as (s2 & Hk2 & Hus & Hview2).
    { eapply vext_view; [exact Hx|]. intros. apply Hview1. }
    exists s2, (q :: F'), T'. cbn [bind]. rewrite Hk2.
    split; [done|]. split; [done|]. split; [done|cbn; lia].
Qed.

(** ** The loop *)

(** The pages from [i] on are copies: same flags, same bytes, other pages. *)
Record copied (s : kst) (T : ptree) (U : gmap Z Z) (T2 : ptree) (U2 : gmap Z Z)
    (s' : kst) (T2' : ptree) (U2' : gmap Z Z) (i sz : Z) : Prop := {
  cp_sub : U2 ⊆ U2';
  cp_covers : covers U2' sz;
  cp_page : forall va pa, U !! va = Some pa -> i <= va -> exists q, U2' !! va = Some q /\
    PTE_FLAGS (pte_of s'.(k_mem) T2' va) = PTE_FLAGS (pte_of s.(k_mem) T va) /\
    forall o, 0 <= o < PGSIZE -> rd s'.(k_mem) (q + o) = rd s.(k_mem) (pa + o);
  cp_old : forall va, 0 <= va < MAXVA -> ~ (i <= va < PGROUNDUP sz) ->
    pte_of s'.(k_mem) T2' va = pte_of s.(k_mem) T2 va
}.

Lemma copied_cons s old new F T U F2 T2 U2 q s1 F1 T1 s' F' T' U' i sz pa :
  vinv s old F T U -> apart T U (owned F2 T2 U2) -> U !! i = Some pa -> i + PGSIZE <= PGROUNDUP sz ->
  ustep new s F2 T2 U2 s1 F1 T1 (<[i := q]> U2) -> U2 !! i = None ->
  (forall va, 0 <= va < MAXVA -> pte_of s1.(k_mem) T1 va =
     map_view (pte_of s.(k_mem) T2) i 1 q (PTE_FLAGS (pte_of s.(k_mem) T i)) va) ->
  (forall o, 0 <= o < PGSIZE -> rd s1.(k_mem) (q + o) = rd s.(k_mem) (pa + o)) ->
  ustep new s1 F1 T1 (<[i := q]> U2) s' F' T' U' ->
  copied s1 T U T1 (<[i := q]> U2) s' T' U' (i + PGSIZE) sz ->
  copied s T U T2 U2 s' T' U' i sz.
Proof.
  intros Hv Hd HU Hsz Hus HU2 Hview Hz Hus' [Hsub Hc Hpage Hold].
  destruct (vinv_other _ _ _ _ _ _ _ _ _ _ _ _ _ Hv Hd Hus) as (_ & Hpte & Hdata).
  destruct (vi_user _ _ _ _ _ Hv i pa HU) as (Hir & Hia & Hp).
  assert (HU'i : U' !! i = Some q) by (eapply lookup_weaken; [apply lookup_insert_eq|done]).
  assert (Hq : page_ok q).
  { eapply Forall_elem; [apply (vi_pages _ _ _ _ _ (us_vinv _ _ _ _ _ _ _ _ _ Hus'))|].
    assert (q ∈ pages_of U') by (apply elem_pages_of; eauto). unfold owned. lelem. }
  split; [|done| |].
  - etransitivity; [|exact Hsub]. by apply insert_subseteq.
  - intros va pa' Hva Hge. destruct (decide (va = i)) as [->|Hne].
    + exists q. split; [done|]. rewrite HU in Hva. injection Hva as <-. split.
      * rewrite Hold, Hview, map_view_one, decide_True by (done || clia).
        destruct (map_pte q (PTE_FLAGS (pte_of (k_mem s) T i))) as (_ & _ & _ & Hfl);
          [apply Hq|split; [pose proof (page_pos q Hq); lia|apply page_lt, Hq]|apply PTE_FLAGS_range|].
        rewrite Hfl. apply flags_valid. apply Hp.
      * intros o Ho. rewrite (us_data _ _ _ _ _ _ _ _ _ Hus' i q) by
          (done || apply lookup_insert_eq || (unfold in_page; clia)). by apply Hz.
    + destruct (vi_user _ _ _ _ _ Hv va pa' Hva) as (_ & Hal & _).
      destruct (Hpage va pa' Hva) as (q' & Hq' & Hfl & Hby).
      { unfold page_aligned in *. cdlia. }
      exists q'. split; [done|]. split; [by rewrite Hfl, Hpte|].
      intros o Ho. rewrite Hby by done. apply (Hdata va pa'); [done|unfold in_page; clia].
  - intros va Hva Hr. rewrite Hold, Hview by (done || clia).
    unfold map_view. rewrite decide_False by clia. done.
Qed.

(** The clean-up: everything copied so far is given back. *)
Lemma uvmcopy_cleanup s new F2 T2 U2 i :
  vinv s new F2 T2 U2 -> page_aligned i -> 0 <= i <= MAXVA -> covers U2 i ->
  exists s' F', uvmunmap new 0 (i / PGSIZE) true s = Ok tt s' /\
    ustep new s F2 T2 U2 s' F' T2 ∅ /\
    (forall va, 0 <= va < MAXVA -> pte_of s'.(k_mem) T2 va =
       if decide (0 <= va < i) then 0 else pte_of s.(k_mem) T2 va).
Proof.
  intros Hv Ha Hi Hc. assert (En : i / PGSIZE * PGSIZE = i) by (unfold page_aligned in *; cdlia).
  destruct (uvmunmap_free s new F2 T2 U2 0 (i / PGSIZE))
    as (s1 & F1 & U1 & Hu & Hv1 & Hp1 & Hun & Hview & Hh1 & Hf1); try done; try cdlia.
  { intros j Hj. apply Hc. unfold page_aligned. rewrite Z.add_0_l, Z.mod_mul by clia.
    split; [done|]. clear -En Hj. clia. }
  assert (U1 = ∅) as ->.
  { apply map_eq. intros va. rewrite lookup_empty, (Hun va). case_decide; [done|].
    destruct (U2 !! va) as [pa|] eqn:E; [|done]. destruct (Hc va) as [Hc1 _].
    destruct Hc1; [eauto|]. exfalso. lia. }
  exists s1, F1. split; [done|]. split.
  - split; try done. eapply frame_incl; [|exact Hf1]. intros x Hx. rewrite <- Hp1. unfold owned. lelem.
  - intros va Hva. rewrite Hview by done. unfold clear_view. rewrite En. done.
Qed.

Lemma uvmcopy_loop old new T U sz n : forall s F F2 T2 U2 i fuel,
  vinv s old F T U -> vinv s new F2 T2 U2 -> apart T U (owned F2 T2 U2) ->
  covers U sz -> covers U2 i -> page_aligned i -> 0 <= i -> 0 <= sz <= MAXVA ->
  i + Z.of_nat n * PGSIZE = PGROUNDUP sz -> (n < fuel)%nat ->
  (forall va, i <= va < PGROUNDUP sz -> ~ valid (pte_of s.(k_mem) T2 va)) ->
  exists r s' F' T' U', loop fuel (uvmcopy_body old new sz) i s = Ok r s' /\
    ustep new s F2 T2 U2 s' F' T' U' /\
    (r = 0 /\ copied s T U T2 U2 s' T' U' i sz \/
     r = -1 /\ U' = ∅ /\ shrunk s T2 s' T' 0 sz /\ (length F2 < 3 * n)%nat).
Proof.
  induction n as [|n IH]; intros s F F2 T2 U2 i fuel Ho Hn Hd Hc Hc2 Hia Hi0 Hsz Hend Hfuel Hinv;
    (destruct fuel as [|fuel]; [lia|]); rewrite loop_S;
    destruct (PGROUNDUP_bounds sz Hsz) as (Har & Hbr & HMr).
  - replace (Z.of_nat 0 * PGSIZE) with 0 in Hend by lia.
    unfold uvmcopy_body. destruct (Z.ltb_spec i sz); [lia|]. cbn.
    exists 0, s, F2, T2, U2. split; [done|]. split; [by apply ustep_refl|]. left. split; [done|].
    split; try done.
    + intros va. rewrite (Hc2 va). unfold page_aligned in *. split; intros [? ?]; (split; [done|]); cdlia.
    + intros va pa HU Hge. destruct (Hc va) as [Hc1 _]. destruct Hc1; [eauto|lia].
  - destruct (Hc i) as [_ [pa HU]]. { split; [done|]. clear -Hi0 Hend Hbr. clia. }
    destruct (uvmcopy_step s old new F T U F2 T2 U2 sz i pa Ho Hn Hd HU ltac:(clia) ltac:(clia)
                ltac:(apply Hinv; clia))
      as [(q & s1 & F1 & T1 & Hb & Hus & HU2 & Hview & Hz & Hlen)|(s1 & F1 & T1 & Hb & Hus & Hview & Hlen)];
      rewrite Hb; cbn [obind].
    + destruct (vinv_other _ _ _ _ _ _ _ _ _ _ _ _ _ Ho Hd Hus) as (Ho1 & _ & _).
      destruct (IH s1 F1 F1 T1 (<[i := q]> U2) (i + PGSIZE) fuel)
        as (r & s' & F' & T' & U' & Hl & Hus' & Hr); try done; try clia.
      * apply Hus.
      * eapply apart_perm; [apply Hus|done].
      * apply covers_grow; done || lia.
      * unfold page_aligned in *. cdlia.
      * intros va Hva. rewrite Hview by clia. unfold map_view. rewrite decide_False by clia.
        apply Hinv. clia.
      * exists r, s', F', T', U'. split; [done|]. split.
        { eapply ustep_trans; [exact Hus|exact Hus'|]. intros va pa' HUv _.
          rewrite lookup_insert_ne; [done|]. congruence. }
        destruct Hr as [[-> Hcp]|(-> & -> & [Hs1 Hs2] & Hlen')]; [left|right]; (split; [done|]).
        { eapply (copied_cons s old new); try done. clia. }
        split; [done|]. split; [|lia]. split; [done|]. intros va Hva Hout. rewrite Hs2, Hview by done.
        unfold map_view. rewrite decide_False by clia. done.
    + destruct (uvmcopy_cleanup s1 new F1 T1 U2 i (us_vinv _ _ _ _ _ _ _ _ _ Hus) Hia ltac:(clia) Hc2)
        as (s2 & F2' & Hu & Hus2 & Hview2).
      cbn [bind]. rewrite Hu. cbn. exists (-1), s2, F2', T1, ∅. split; [done|].
      split; [by eapply ustep_trans|]. right. split; [done|]. split; [done|]. split; [|lia].
      split; intros va Hva; [|intros Hout]; rewrite Hview2, Hview by clia.
      * case_decide; [by intros []|]. apply Hinv. lia.
      * rewrite decide_False by (clear -Hout Hend Hva; clia). done.
Qed.

End Uvmcopy.
