(* ===== verification/Copy.v ===== *)
(** * Copying between kernel and user memory (copyin, copyout, copyinstr)

    User memory is a function of virtual addresses: [utrans] is the check and
    translation that the hardware would make for a user access, [uread] the
    byte a user program sees.  The copy functions agree with it byte for
    byte, refuse exactly the addresses the user may not use, and change no
    other byte. *)

From S2P Require Import Prelude Riscv Memory Spinlock Kalloc Vm Pagetable Uvm Uspace.

(** The physical page for a user access at [va]; [w] for a store. *)
Definition utrans (m : mem) (T : ptree) (w : bool) (va : Z) : option Z :=
  let pte := pte_of m T va in
  if (va <? MAXVA) && nz (Z.land pte PTE_V) && nz (Z.land pte PTE_U) && (negb w || nz (Z.land pte PTE_W))
  then Some (PTE2PA pte) else None.

(** The byte at user address [va]. *)
Definition uread (m : mem) (T : ptree) (va : Z) : Z :=
  match utrans m T false va with
  | Some pa => rd m (pa + va mod PGSIZE)
  | None => 0
  end.

Fixpoint ubytes (m : mem) (T : ptree) (va : Z) (n : nat) : list Z :=
  match n with
  | O => []
  | S n' => uread m T va :: ubytes m T (va + 1) n'
  end.

(** A range that the user may read (write). *)
Definition uok (m : mem) (T : ptree) (w : bool) (va len : Z) : Prop :=
  forall a, va <= a < va + len -> is_Some (utrans m T w a).

(** The pages with PTE_U are the pages the address space owns. *)
Definition uonly (m : mem) (T : ptree) (U : gmap Z Z) : Prop :=
  forall va pa, utrans m T false va = Some pa -> 0 <= va -> U !! PGROUNDDOWN va = Some pa.

Section Copy.
Context `{ImageOk}.

Lemma PGROUNDDOWN_bounds va :
  page_aligned (PGROUNDDOWN va) /\ PGROUNDDOWN va <= va < PGROUNDDOWN va + PGSIZE.
Proof. rewrite PGROUNDDOWN_spec. unfold page_aligned. cdlia. Qed.

Lemma PGROUNDDOWN_page va : same_page (PGROUNDDOWN va) va.
Proof. rewrite PGROUNDDOWN_spec. unfold same_page. cdlia. Qed.

Lemma utrans_page m T w va va' :
  0 <= va -> 0 <= va' -> same_page va va' -> utrans m T w va = utrans m T w va'.
Proof.
  intros Hva Hva' Hs. unfold utrans.
  assert (E : (va <? MAXVA) = (va' <? MAXVA)).
  { apply eq_true_iff_eq. rewrite !Z.ltb_lt. unfold same_page in Hs. cdlia. }
  rewrite E. destruct (Z.ltb_spec va' MAXVA); [|done].
  rewrite (pte_of_page m T va va'); [done| |lia|done]. split; [done|].
  by apply Z.ltb_lt.
Qed.

Lemma utrans_down m T w va : 0 <= va -> utrans m T w (PGROUNDDOWN va) = utrans m T w va.
Proof.
  intros Hva. apply utrans_page; [|done|apply PGROUNDDOWN_page].
  rewrite PGROUNDDOWN_spec. cdlia.
Qed.

Lemma utrans_weaken m T va pa : utrans m T true va = Some pa -> utrans m T false va = Some pa.
Proof.
  unfold utrans. cbn. destruct (va <? MAXVA), (nz (Z.land (pte_of m T va) PTE_V)),
    (nz (Z.land (pte_of m T va) PTE_U)), (nz (Z.land (pte_of m T va) PTE_W)); cbn; done.
Qed.

(** The pages that user accesses reach. *)
Lemma utrans_user s root F T U w va pa :
  vinv s root F T U -> uonly s.(k_mem) T U -> utrans s.(k_mem) T w va = Some pa -> 0 <= va ->
  U !! PGROUNDDOWN va = Some pa /\ page_ok pa.
Proof.
  intros Hv Hu Ht Hva.
  assert (HU : U !! PGROUNDDOWN va = Some pa).
  { apply Hu; [|done]. destruct w; [by apply utrans_weaken|done]. }
  split; [done|]. eapply Forall_elem; [apply (vi_pages _ _ _ _ _ Hv)|]. unfold owned.
  assert (pa ∈ pages_of U) by (apply elem_pages_of; eauto). lelem.
Qed.

(** [walkaddr] is the translation of a user load. *)
Lemma walkaddr_eq s root F T U va :
  vinv s root F T U -> 0 <= va ->
  walkaddr root va s = Ok (default 0 (utrans s.(k_mem) T false va)) s.
Proof.
  intros Hv Hva. unfold walkaddr, utrans. destruct (Z.geb_spec va MAXVA), (Z.ltb_spec va MAXVA);
    try lia; [done|]. cbn [bind]. rewrite (vinv_walk _ _ _ _ _ _ Hv) by lia.
  destruct (T !! leaf_path va) as [q|] eqn:E; cbn [obind].
  - destruct (vinv_leaf _ _ _ _ _ _ _ Hv E) as [Hq _]. pose proof (page_pos q Hq).
    pose proof (PX_range 0 va ltac:(lia)). destruct (Z.eqb_spec (q + 8 * PX 0 va) 0); [lia|].
    unfold load_pte. cbn [bind obind gets]. rewrite <- (pte_of_leaf (k_mem s) _ _ _ E). cbn [negb andb orb].
    rewrite andb_true_r. unfold nz.
    destruct (Z.eqb_spec (Z.land (pte_of (k_mem s) T va) PTE_V) 0); [done|].
    destruct (Z.eqb_spec (Z.land (pte_of (k_mem s) T va) PTE_U) 0); done.
  - unfold pte_of. rewrite E. done.
Qed.

(** ** Bytes of one page *)

Lemma ubytes_page m T va pa n :
  0 <= va -> utrans m T false va = Some pa -> va mod PGSIZE + Z.of_nat n <= PGSIZE ->
  ubytes m T va n = ld_bytes m (pa + va mod PGSIZE) n.
Proof.
  intros Hva Ht. assert (Hgen : forall a, same_page a va -> 0 <= a ->
      a mod PGSIZE + Z.of_nat n <= PGSIZE -> ubytes m T a n = ld_bytes m (pa + a mod PGSIZE) n).
  { clear -Hva Ht. induction n as [|n IH]; intros a Hs Ha Hn; [done|]. cbn [ubytes ld_bytes].
    f_equal; [unfold uread; by rewrite (utrans_page m T false a va), Ht|].
    destruct n as [|n]; [done|]. rewrite (IH (a + 1)); [|unfold same_page in *; cdlia..].
    f_equal. cdlia. }
  by apply Hgen.
Qed.

Lemma ubytes_app m T va a b :
  ubytes m T va (a + b) = ubytes m T va a ++ ubytes m T (va + Z.of_nat a) b.
Proof.
  revert va. induction a as [|a IH]; intros va; cbn [ubytes Nat.add app].
  - f_equal. lia.
  - rewrite IH. do 3 f_equal. lia.
Qed.

Lemma ubytes_ext m m' T T' va n :
  (forall a, va <= a < va + Z.of_nat n -> uread m T a = uread m' T' a) ->
  ubytes m T va n = ubytes m' T' va n.
Proof.
  revert va. induction n as [|n IH]; intros va Hs; cbn [ubytes]; [done|].
  f_equal; [apply Hs; lia|]. apply IH. intros a Ha. apply Hs. lia.
Qed.

Lemma length_ubytes m T va n : length (ubytes m T va n) = n.
Proof. revert va. induction n; cbn; auto. Qed.

(** ** copyin *)

(** The number of bytes of a copy that lie on the page of [va]. *)
Definition chunk (va len : Z) : Z := Z.min (PGSIZE - va mod PGSIZE) len.

Lemma chunk_bounds va len : 0 < len -> 0 < chunk va len <= len /\ va mod PGSIZE + chunk va len <= PGSIZE.
Proof. unfold chunk. cdlia. Qed.

Lemma chunk_code va len :
  (if PGSIZE - (va - PGROUNDDOWN va) >? len then len else PGSIZE - (va - PGROUNDDOWN va)) = chunk va len.
Proof.
  rewrite PGROUNDDOWN_spec. unfold chunk. destruct (Z.gtb_spec (PGSIZE - (va - (va - va mod PGSIZE))) len); lia.
Qed.

Lemma copyin_step s root F T U srcva dst len :
  vinv s root F T U -> uonly s.(k_mem) T U -> 0 <= srcva -> 0 < len ->
  copyin_body root (srcva, dst, len) s =
  match utrans s.(k_mem) T false srcva with
  | None => Ok (inr (-1, dst)) s
  | Some _ =>
      let n := chunk srcva len in
      Ok (inl (PGROUNDDOWN srcva + PGSIZE, dst ++ ubytes s.(k_mem) T srcva (Z.to_nat n), len - n)) s
  end.
Proof.
  intros Hv Hu Hva Hlen. unfold copyin_body. destruct (Z.gtb_spec len 0); [|lia]. cbn [bind].
  rewrite (walkaddr_eq _ _ _ _ _ _ Hv) by (rewrite PGROUNDDOWN_spec; cdlia).
  rewrite utrans_down by done. cbn [obind].
  destruct (utrans (k_mem s) T false srcva) as [pa|] eqn:E; cbn [default from_option id]; [|done].
  destruct (utrans_user _ _ _ _ _ _ _ _ Hv Hu E Hva) as [_ Hpa]. pose proof (page_pos pa Hpa).
  destruct (Z.eqb_spec pa 0); [lia|]. cbn [bind gets obind ret]. rewrite chunk_code.
  destruct (chunk_bounds srcva len Hlen) as [Hc1 Hc2].
  rewrite (ubytes_page _ _ _ pa) by (done || lia).
  replace (srcva - PGROUNDDOWN srcva) with (srcva mod PGSIZE) by (rewrite PGROUNDDOWN_spec; lia).
  rewrite u64_small; [done|]. unfold utrans in E.
  destruct (Z.ltb_spec srcva MAXVA); [|done]. pose proof (PGROUNDDOWN_bounds srcva). clia.
Qed.

Lemma copyin_loop s root F T U :
  vinv s root F T U -> uonly s.(k_mem) T U -> forall n fuel srcva dst len,
  0 <= srcva -> 0 <= len -> srcva + len <= PGROUNDDOWN srcva + Z.of_nat n * PGSIZE -> (n < fuel)%nat ->
  (uok s.(k_mem) T false srcva len /\
   loop fuel (copyin_body root) (srcva, dst, len) s =
     Ok (0, dst ++ ubytes s.(k_mem) T srcva (Z.to_nat len)) s) \/
  (exists k, 0 <= k < len /\ uok s.(k_mem) T false srcva k /\
   utrans s.(k_mem) T false (srcva + k) = None /\
   loop fuel (copyin_body root) (srcva, dst, len) s =
     Ok (-1, dst ++ ubytes s.(k_mem) T srcva (Z.to_nat k)) s).
Proof.
  intros Hv Hu. induction n as [|n IH]; intros fuel srcva dst len Hva Hlen Hend Hfuel;
    (destruct fuel as [|fuel]; [lia|]); rewrite loop_S;
    pose proof (PGROUNDDOWN_bounds srcva) as [Hal Hb].
  - replace len with 0 by lia. left. split; [intros a Ha; lia|]. cbn. by rewrite app_nil_r.
  - destruct (decide (len = 0)) as [->|Hne].
    { left. split; [intros a Ha; lia|]. cbn. by rewrite app_nil_r. }
    rewrite (copyin_step s root F T U) by (done || lia).
    destruct (utrans (k_mem s) T false srcva) as [pa|] eqn:E; cbn [obind].
    2:{ right. exists 0. split; [lia|]. split; [intros a Ha; lia|]. rewrite Z.add_0_r.
        split; [done|]. cbn. by rewrite app_nil_r. }
    destruct (chunk_bounds srcva len ltac:(lia)) as [Hc1 Hc2]. set (c := chunk srcva len) in *.
    assert (Hfirst : uok (k_mem s) T false srcva c).
    { intros a Ha. rewrite (utrans_page _ _ _ a srcva), E; [eauto|lia|done|].
      unfold same_page. clear -Ha Hc2 Hva. cdlia. }
    destruct (decide (c = len)) as [Ec|Ec].
    { rewrite Ec, Z.sub_diag. left. split; [by rewrite <- Ec|]. destruct fuel as [|fuel]; [lia|].
      rewrite loop_S. cbn. done. }
    assert (Enext : PGROUNDDOWN srcva + PGSIZE = srcva + c).
    { unfold c, chunk in *. rewrite PGROUNDDOWN_spec in *. lia. }
    rewrite Enext.
    assert (Eal : PGROUNDDOWN (srcva + c) = srcva + c).
    { rewrite <- Enext. rewrite PGROUNDDOWN_spec at 1. unfold page_aligned in Hal.
      rewrite <- (Z.mul_1_l PGSIZE) at 2. rewrite Z.mod_add by clia. lia. }
    destruct (IH fuel (srcva + c) (dst ++ ubytes (k_mem s) T srcva (Z.to_nat c)) (len - c))
      as [[Hok Hl]|(k & Hk & Hok & Hbad & Hl)]; try lia.
    + left. split.
      * intros a Ha. destruct (decide (a < srcva + c)); [apply Hfirst; lia|apply Hok; lia].
      * rewrite Hl, <- app_assoc. replace (Z.to_nat len) with (Z.to_nat c + Z.to_nat (len - c))%nat by lia.
        rewrite ubytes_app, Z2Nat.id by lia. done.
    + right. exists (c + k). split; [lia|]. split; [|split].
      * intros a Ha. destruct (decide (a < srcva + c)); [apply Hfirst; lia|apply Hok; lia].
      * by rewrite Z.add_assoc.
      * rewrite Hl, <- app_assoc. replace (Z.to_nat (c + k)) with (Z.to_nat c + Z.to_nat k)%nat by lia.
        rewrite ubytes_app, Z2Nat.id by lia. done.
Qed.

Lemma copy_fuel va len :
  0 <= va -> 0 <= len ->
  va + len <= PGROUNDDOWN va + Z.of_nat (Z.to_nat (len / PGSIZE) + 2) * PGSIZE.
Proof.
  intros Hva Hlen. pose proof (PGROUNDDOWN_bounds va). rewrite Nat2Z.inj_add, Z2Nat.id by cdlia.
  unfold page_aligned in *. cdlia.
Qed.

(** ** copyout *)

(** User memory after the bytes [bs] are stored at [va]. *)
Definition uwritten (m : mem) (T : ptree) (va : Z) (bs : list Z) (a : Z) : Z :=
  if decide (va <= a < va + Z.of_nat (length bs)) then nth (Z.to_nat (a - va)) bs 0
  else uread m T a.

(** The state after a store to user memory: the address space is the same. *)
Record ustore (s : kst) (root : Z) (F : list Z) (T : ptree) (U : gmap Z Z) (s' : kst)
    (va : Z) (bs : list Z) : Prop := {
  ust_vinv : vinv s' root F T U;
  ust_pte : forall a, pte_of s'.(k_mem) T a = pte_of s.(k_mem) T a;
  ust_hart : s'.(k_hart) = s.(k_hart);
  ust_data : forall a, 0 <= a -> uread s'.(k_mem) T a = uwritten s.(k_mem) T va bs a;
  ust_frame : frame (pages_of U) s.(k_mem) s'.(k_mem)
}.

Lemma utrans_pte m m' T w va : (forall a, pte_of m' T a = pte_of m T a) -> utrans m' T w va = utrans m T w va.
Proof. intros E. unfold utrans. by rewrite E. Qed.

Lemma uok_pte m m' T w va len : (forall a, pte_of m' T a = pte_of m T a) -> uok m' T w va len <-> uok m T w va len.
Proof. intros E. unfold uok. split; intros Hu a Ha; specialize (Hu a Ha); by rewrite (utrans_pte m m') in *. Qed.

Lemma uonly_pte m m' T U : (forall a, pte_of m' T a = pte_of m T a) -> uonly m T U -> uonly m' T U.
Proof. intros E Hu va pa. rewrite (utrans_pte m m') by done. apply Hu. Qed.

Lemma uwritten_nil m T va a : uwritten m T va [] a = uread m T a.
Proof. unfold uwritten. cbn. rewrite decide_False by lia. done. Qed.

Lemma nth_byte bs i : Forall is_byte bs -> is_byte (nth i bs 0).
Proof.
  revert i. induction bs as [|b bs IH]; intros [|i] Hb; cbn; inversion Hb; subst; auto;
    unfold is_byte; lia.
Qed.

Lemma ustore_page s root F T U va pa bs :
  vinv s root F T U -> uonly s.(k_mem) T U -> 0 <= va -> utrans s.(k_mem) T true va = Some pa ->
  va mod PGSIZE + Z.of_nat (length bs) <= PGSIZE -> Forall is_byte bs ->
  ustore s root F T U (mem_st s (st_bytes s.(k_mem) (pa + va mod PGSIZE) bs)) va bs.
Proof.
  intros Hv Hu Hva Ht Hlen Hbs. destruct (utrans_user _ _ _ _ _ _ _ _ Hv Hu Ht Hva) as [HU Hpa].
  set (m' := st_bytes (k_mem s) (pa + va mod PGSIZE) bs).
  assert (Hf : frame [pa] (k_mem s) m').
  { apply frame_page. intros b Hb. apply rd_st_bytes_out. intros Hin. apply Hb.
    unfold in_page. cdlia. }
  assert (HpaU : pa ∈ pages_of U) by (apply elem_pages_of; eauto).
  pose proof (vi_nodup _ _ _ _ _ Hv) as Hnd. unfold owned in Hnd. rewrite app_assoc in Hnd.
  apply NoDup_app in Hnd as (_ & Hnd & HndU).
  destruct (vinv_mem s root F T U [pa] m' Hv Hf) as [Hv' Hpte].
  { by apply Forall_singleton. }
  { intros x ->%list_elem_of_singleton Hx. exact (Hnd pa Hx HpaU). }
  split; try done.
  - intros a Ha. unfold uread, uwritten. cbn [mem_st k_mem]. rewrite (utrans_pte (k_mem s) m') by done.
    destruct (decide (va <= a < va + Z.of_nat (length bs))) as [Hin|Hout].
    + assert (Hsp : same_page a va) by (unfold same_page; clear -Hin Hlen Hva; cdlia).
      rewrite (utrans_page _ _ _ a va), (utrans_weaken _ _ _ _ Ht) by (done || lia).
      unfold m'. rewrite rd_st_bytes. unfold same_page in Hsp.
      rewrite decide_True by (clear -Hin Hsp; cdlia).
      replace (pa + a mod PGSIZE - (pa + va mod PGSIZE)) with (a - va) by (clear -Hsp; cdlia).
      apply Z.mod_small. by apply nth_byte.
    + destruct (utrans (k_mem s) T false a) as [pa'|] eqn:Ea; [|unfold uread; by rewrite Ea].
      unfold uread. rewrite Ea.
      destruct (utrans_user _ _ _ _ _ _ _ _ Hv Hu Ea Ha) as [HU' Hpa'].
      unfold m'. apply rd_st_bytes_out. intros Hin.
      assert (pa' = pa) as ->.
      { destruct Hpa as [Hal _], Hpa' as [Hal' _]. apply (pages_disjoint pa' pa (pa' + a mod PGSIZE) Hal' Hal);
          unfold in_page; clear -Hin Hlen; cdlia. }
      pose proof (pages_of_inj U _ _ _ HndU HU HU') as E. rewrite !PGROUNDDOWN_spec in E.
      apply Hout. lia.
  - eapply frame_incl; [|exact Hf]. by intros x ->%list_elem_of_singleton.
Qed.

Lemma ustore_refl s root F T U va : vinv s root F T U -> ustore s root F T U s va [].
Proof. intros Hv. split; try done. intros a _. by rewrite uwritten_nil. Qed.

Lemma ustore_app s root F T U s1 s2 va bs1 bs2 :
  ustore s root F T U s1 va bs1 -> ustore s1 root F T U s2 (va + Z.of_nat (length bs1)) bs2 ->
  ustore s root F T U s2 va (bs1 ++ bs2).
Proof.
  intros [Hv1 Hp1 Hh1 Hd1 Hf1] [Hv2 Hp2 Hh2 Hd2 Hf2]. split; try done.
  - intros a. by rewrite Hp2.
  - by rewrite Hh2.
  - intros a Ha. rewrite Hd2 by done. unfold uwritten. rewrite Hd1 by done. unfold uwritten.
    rewrite length_app. repeat case_decide; try (exfalso; lia); try done.
    + rewrite app_nth2 by lia. f_equal. lia.
    + rewrite app_nth1 by lia. done.
  - by eapply frame_trans.
Qed.

Lemma copyout_step s root F T U dstva src len :
  vinv s root F T U -> 0 <= dstva -> 0 < len ->
  copyout_body root (dstva, src, len) s =
  match utrans s.(k_mem) T true dstva with
  | None => Ok (inr (-1)) s
  | Some pa =>
      let n := chunk dstva len in
      Ok (inl (PGROUNDDOWN dstva + PGSIZE, drop (Z.to_nat n) src, len - n))
         (mem_st s (st_bytes s.(k_mem) (pa + dstva mod PGSIZE) (take (Z.to_nat n) src)))
  end.
Proof.
  intros Hv Hva Hlen. unfold copyout_body. destruct (Z.gtb_spec len 0); [|lia].
  rewrite <- (utrans_down _ _ _ dstva) by done. unfold utrans.
  pose proof (PGROUNDDOWN_bounds dstva) as [_ Hb].
  assert (H0d : 0 <= PGROUNDDOWN dstva) by (rewrite PGROUNDDOWN_spec; cdlia).
  destruct (Z.geb_spec (PGROUNDDOWN dstva) MAXVA), (Z.ltb_spec (PGROUNDDOWN dstva) MAXVA);
    try lia; [done|]. cbn [bind]. rewrite (vinv_walk _ _ _ _ _ _ Hv) by lia.
  destruct (T !! leaf_path (PGROUNDDOWN dstva)) as [q|] eqn:E; cbn [obind].
  2:{ unfold pte_of. rewrite E. done. }
  destruct (vinv_leaf _ _ _ _ _ _ _ Hv E) as [Hq _]. pose proof (page_pos q Hq).
  pose proof (PX_range 0 (PGROUNDDOWN dstva) ltac:(lia)).
  destruct (Z.eqb_spec (q + 8 * PX 0 (PGROUNDDOWN dstva)) 0); [lia|].
  unfold load_pte. cbn [bind obind gets]. rewrite <- (pte_of_leaf (k_mem s) _ _ _ E).
  set (pte := pte_of (k_mem s) T (PGROUNDDOWN dstva)). unfold nz.
  destruct (Z.land pte PTE_V =? 0); [done|]. destruct (Z.land pte PTE_U =? 0); [done|].
  destruct (Z.land pte PTE_W =? 0); [done|]. cbn [orb andb negb]. rewrite chunk_code.
  replace (dstva - PGROUNDDOWN dstva) with (dstva mod PGSIZE) by (rewrite PGROUNDDOWN_spec; lia).
  cbn. rewrite u64_small by clia. done.
Qed.

Lemma next_page va c :
  PGROUNDDOWN va + PGSIZE = va + c -> PGROUNDDOWN (va + c) = va + c.
Proof.
  intros Enext. pose proof (PGROUNDDOWN_bounds va) as [Hal _]. rewrite <- Enext.
  rewrite PGROUNDDOWN_spec at 1. unfold page_aligned in Hal.
  rewrite <- (Z.mul_1_l PGSIZE) at 2. rewrite Z.mod_add by clia. lia.
Qed.

Lemma chunk_next va len : chunk va len <> len -> PGROUNDDOWN va + PGSIZE = va + chunk va len.
Proof. unfold chunk. rewrite PGROUNDDOWN_spec. lia. Qed.

(** The first page of a range is usable as a whole. *)
Lemma uok_chunk m T w va len pa :
  0 <= va -> 0 < len -> utrans m T w va = Some pa -> uok m T w va (chunk va len).
Proof.
  intros Hva Hlen E a Ha. destruct (chunk_bounds va len Hlen) as [Hc1 Hc2].
  rewrite (utrans_page _ _ _ a va), E; [eauto|lia|done|].
  unfold same_page. clear -Ha Hc2 Hva. cdlia.
Qed.

Lemma uok_app m T w va a b : 0 <= a -> uok m T w va a -> uok m T w (va + a) b -> uok m T w va (a + b).
Proof.
  intros Ha H1 H2 x Hx. destruct (decide (x < va + a)); [apply H1; lia|apply H2; lia].
Qed.

Lemma copyout_loop root F T U n : forall s fuel dstva src,
  vinv s root F T U -> uonly s.(k_mem) T U -> 0 <= dstva -> Forall is_byte src ->
  let len := Z.of_nat (length src) in
  dstva + len <= PGROUNDDOWN dstva + Z.of_nat n * PGSIZE -> (n < fuel)%nat ->
  (uok s.(k_mem) T true dstva len /\ exists s',
   loop fuel (copyout_body root) (dstva, src, len) s = Ok 0 s' /\
   ustore s root F T U s' dstva src) \/
  (exists k s', (k < length src)%nat /\ uok s.(k_mem) T true dstva (Z.of_nat k) /\
   utrans s.(k_mem) T true (dstva + Z.of_nat k) = None /\
   loop fuel (copyout_body root) (dstva, src, len) s = Ok (-1) s' /\
   ustore s root F T U s' dstva (take k src)).
Proof.
  induction n as [|n IH]; intros s fuel dstva src Hv Hu Hva Hby len Hend Hfuel;
    (destruct fuel as [|fuel]; [lia|]); rewrite loop_S;
    pose proof (PGROUNDDOWN_bounds dstva) as [Hal Hb].
  - destruct src; [|unfold len in *; cbn in Hend; lia].
    left. split; [intros a Ha; cbn in Ha; lia|]. exists s. split; [done|]. by apply ustore_refl.
  - destruct (decide (len = 0)) as [Hz|Hne].
    { destruct src; [|unfold len in *; cbn in Hz; lia].
      left. split; [intros a Ha; cbn in Ha; lia|]. exists s. split; [done|]. by apply ustore_refl. }
    rewrite (copyout_step s root F T U) by (done || lia).
    destruct (utrans (k_mem s) T true dstva) as [pa|] eqn:E; cbn [obind].
    2:{ right. exists 0%nat, s. split; [lia|]. split; [intros a Ha; lia|]. rewrite Z.add_0_r.
        split; [done|]. split; [done|]. by apply ustore_refl. }
    destruct (chunk_bounds dstva len ltac:(lia)) as [Hc1 Hc2].
    pose proof (uok_chunk _ _ _ _ len _ Hva ltac:(lia) E) as Hfirst. pose proof (chunk_next dstva len) as Hnext.
    set (c := chunk dstva len) in *. cbv zeta.
    assert (Hlt : length (take (Z.to_nat c) src) = Z.to_nat c) by (rewrite length_take; lia).
    pose proof (ustore_page s root F T U dstva pa (take (Z.to_nat c) src) Hv Hu Hva E ltac:(lia)
                  (Forall_take _ _ _ Hby)) as Hst.
    set (s1 := mem_st s _) in *.
    destruct (decide (c = len)) as [Ec|Ec].
    { left. split; [by rewrite <- Ec|]. exists s1. rewrite Ec, Z.sub_diag.
      destruct fuel as [|fuel]; [lia|]. rewrite loop_S. split; [done|].
      by rewrite take_ge in Hst by lia. }
    specialize (Hnext Ec). rewrite Hnext.
    replace (len - c) with (Z.of_nat (length (drop (Z.to_nat c) src))) by (rewrite length_drop; lia).
    destruct (IH s1 fuel (dstva + c) (drop (Z.to_nat c) src))
      as [[Hok (s' & Hl & Hst')]|(k & s' & Hk & Hok & Hbad & Hl & Hst')];
      try (rewrite ?length_drop, ?next_page by done; lia); [apply Hst|..].
    + eapply uonly_pte; [apply Hst|done].
    + by apply Forall_drop.
    + left. rewrite (uok_pte (k_mem s) (k_mem s1)), length_drop in Hok by apply Hst. split.
      * replace len with (c + Z.of_nat (length src - Z.to_nat c)) by lia. apply uok_app; done || lia.
      * exists s'. split; [done|]. rewrite <- (take_drop (Z.to_nat c) src).
        eapply ustore_app; [exact Hst|]. by rewrite Hlt, Z2Nat.id by lia.
    + right. exists (Z.to_nat c + k)%nat, s'. rewrite length_drop in Hk. split; [lia|].
      rewrite (uok_pte (k_mem s) (k_mem s1)) in Hok by apply Hst.
      rewrite (utrans_pte (k_mem s) (k_mem s1)) in Hbad by apply Hst.
      rewrite Nat2Z.inj_add, Z2Nat.id, Z.add_assoc by lia.
      split; [apply uok_app; done || lia|]. split; [done|]. split; [done|].
      replace (take (Z.to_nat c + k) src) with (take (Z.to_nat c) src ++ take k (drop (Z.to_nat c) src)).
      * eapply ustore_app; [exact Hst|]. by rewrite Hlt, Z2Nat.id by lia.
      * rewrite <- (take_drop (Z.to_nat c) src) at 3. rewrite take_app, Hlt, take_take.
        do 2 f_equal; lia.
Qed.

(** ** copyinstr *)

(** The position of the first NUL. *)
Fixpoint find0 (l : list Z) : option nat :=
  match l with
  | [] => None
  | b :: l' => if b =? 0 then Some O else option_map S (find0 l')
  end.

Lemma find0_lt l k : find0 l = Some k -> (k < length l)%nat.
Proof.
  revert k. induction l as [|b l IH]; cbn; intros k; [done|]. destruct (b =? 0).
  - intros [= <-]. lia.
  - destruct (find0 l) as [j|]; [|done]. intros [= <-]. specialize (IH j eq_refl). lia.
Qed.

Lemma find0_app l1 l2 :
  find0 (l1 ++ l2) = match find0 l1 with
                     | Some k => Some k
                     | None => option_map (Nat.add (length l1)) (find0 l2)
                     end.
Proof.
  induction l1 as [|b l1 IH]; cbn; [by destruct (find0 l2)|]. destruct (b =? 0); [done|].
  rewrite IH. destruct (find0 l1); [done|]. by destruct (find0 l2).
Qed.

Lemma find0_take l k : find0 l = Some k -> find0 (take (S k) l) = Some k.
Proof.
  revert k. induction l as [|b l IH]; cbn; intros k; [done|]. destruct (b =? 0).
  - by intros [= <-].
  - destruct (find0 l) as [j|]; [|done]. intros [= <-]. cbn in IH. by rewrite IH.
Qed.

Lemma copystr_eq m p n :
  copystr m p n = match find0 (ld_bytes m p n) with
                  | Some k => (take (S k) (ld_bytes m p n), true)
                  | None => (ld_bytes m p n, false)
                  end.
Proof.
  revert p. induction n as [|n IH]; intros p; cbn [copystr ld_bytes find0]; [done|].
  destruct (Z.eqb_spec (rd m p) 0) as [E|]; [by rewrite E|].
  rewrite IH. by destruct (find0 (ld_bytes m (p + 1) n)).
Qed.

Lemma take_ubytes m T va k n : (k <= n)%nat -> take k (ubytes m T va n) = ubytes m T va k.
Proof.
  intros Hk. replace n with (k + (n - k))%nat by lia. rewrite ubytes_app.
  rewrite take_app_le, take_ge by (rewrite length_ubytes; lia). done.
Qed.

Lemma copyinstr_step s root F T U srcva dst max :
  vinv s root F T U -> uonly s.(k_mem) T U -> 0 <= srcva -> 0 < max ->
  copyinstr_body root (srcva, dst, max, false) s =
  match utrans s.(k_mem) T false srcva with
  | None => Ok (inr (-1, dst)) s
  | Some _ =>
      let n := chunk srcva max in
      let bs := ubytes s.(k_mem) T srcva (Z.to_nat n) in
      match find0 bs with
      | Some k => Ok (inl (PGROUNDDOWN srcva + PGSIZE, dst ++ take (S k) bs, max - Z.of_nat k, true)) s
      | None => Ok (inl (PGROUNDDOWN srcva + PGSIZE, dst ++ bs, max - n, false)) s
      end
  end.
Proof.
  intros Hv Hu Hva Hlen. unfold copyinstr_body. destruct (Z.gtb_spec max 0); [|lia]. cbn [negb andb bind].
  rewrite (walkaddr_eq _ _ _ _ _ _ Hv) by (rewrite PGROUNDDOWN_spec; cdlia).
  rewrite utrans_down by done. cbn [obind].
  destruct (utrans (k_mem s) T false srcva) as [pa|] eqn:E; cbn [default from_option id]; [|done].
  destruct (utrans_user _ _ _ _ _ _ _ _ Hv Hu E Hva) as [_ Hpa]. pose proof (page_pos pa Hpa).
  destruct (Z.eqb_spec pa 0); [lia|]. cbn [bind gets obind ret]. rewrite chunk_code.
  destruct (chunk_bounds srcva max Hlen) as [Hc1 Hc2].
  replace (srcva - PGROUNDDOWN srcva) with (srcva mod PGSIZE) by (rewrite PGROUNDDOWN_spec; lia).
  rewrite copystr_eq, <- (ubytes_page _ _ _ pa) by (done || lia).
  rewrite u64_small; [|unfold utrans in E; destruct (Z.ltb_spec srcva MAXVA); [|done];
    pose proof (PGROUNDDOWN_bounds srcva); clia].
  cbv zeta. destruct (find0 _) as [k|] eqn:Ek.
  - pose proof (find0_lt _ _ Ek) as Hk. rewrite length_ubytes in Hk.
    rewrite length_take, length_ubytes. do 4 f_equal. lia.
  - rewrite length_ubytes, Z2Nat.id by lia. done.
Qed.

(** The outcomes of [copyinstr]: a string, no NUL in [max] bytes, or a bad
    address before any NUL. *)
Inductive strres (m : mem) (T : ptree) (va max : Z) : Z -> list Z -> Prop :=
| str_ok k : Z.of_nat k < max -> uok m T false va (Z.of_nat (S k)) ->
    find0 (ubytes m T va (S k)) = Some k -> strres m T va max 0 (ubytes m T va (S k))
| str_long : uok m T false va max -> find0 (ubytes m T va (Z.to_nat max)) = None ->
    strres m T va max (-1) (ubytes m T va (Z.to_nat max))
| str_bad k : Z.of_nat k < max -> uok m T false va (Z.of_nat k) ->
    find0 (ubytes m T va k) = None -> utrans m T false (va + Z.of_nat k) = None ->
    strres m T va max (-1) (ubytes m T va k).

Lemma strres_app m T va c max r bs :
  0 <= c <= max -> uok m T false va c -> find0 (ubytes m T va (Z.to_nat c)) = None ->
  strres m T (va + c) (max - c) r bs ->
  strres m T va max r (ubytes m T va (Z.to_nat c) ++ bs).
Proof.
  intros [Hc Hcm] Hok Hn Hs.
  assert (Hcat : forall j, ubytes m T va (Z.to_nat c) ++ ubytes m T (va + c) j = ubytes m T va (Z.to_nat c + j)).
  { intros j. by rewrite ubytes_app, Z2Nat.id by done. }
  destruct Hs as [k Hk Hu Hf|Hu Hf|k Hk Hu Hf Hb]; rewrite Hcat.
  - replace (Z.to_nat c + S k)%nat with (S (Z.to_nat c + k)) by lia. apply str_ok; [lia| |].
    + replace (Z.of_nat (S (Z.to_nat c + k))) with (c + Z.of_nat (S k)) by lia. by apply uok_app.
    + replace (S (Z.to_nat c + k)) with (Z.to_nat c + S k)%nat by lia.
      rewrite <- Hcat, find0_app, Hn, Hf, length_ubytes. done.
  - replace (Z.to_nat c + Z.to_nat (max - c))%nat with (Z.to_nat max) by lia. apply str_long.
    + replace max with (c + (max - c)) by lia. by apply uok_app.
    + replace (Z.to_nat max) with (Z.to_nat c + Z.to_nat (max - c))%nat by lia.
      rewrite <- Hcat, find0_app, Hn, Hf. done.
  - apply str_bad; [lia| | |].
    + rewrite Nat2Z.inj_add, Z2Nat.id by done. by apply uok_app.
    + rewrite <- Hcat, find0_app, Hn, Hf. done.
    + rewrite Nat2Z.inj_add, Z2Nat.id, Z.add_assoc by done. done.
Qed.

Lemma copyinstr_loop s root F T U :
  vinv s root F T U -> uonly s.(k_mem) T U -> forall n fuel srcva dst max,
  0 <= srcva -> 0 <= max -> srcva + max <= PGROUNDDOWN srcva + Z.of_nat n * PGSIZE -> (n < fuel)%nat ->
  exists r bs, loop fuel (copyinstr_body root) (srcva, dst, max, false) s = Ok (r, dst ++ bs) s /\
    strres s.(k_mem) T srcva max r bs.
Proof.
  intros Hv Hu.
  assert (Hzero : forall fuel srcva dst, (0 < fuel)%nat -> exists r bs,
            loop fuel (copyinstr_body root) (srcva, dst, 0, false) s = Ok (r, dst ++ bs) s /\
            strres s.(k_mem) T srcva 0 r bs).
  { intros [|fuel] srcva dst Hf; [lia|]. rewrite loop_S. exists (-1), []. cbn. rewrite app_nil_r.
    split; [done|]. apply (str_long _ _ _ 0); [intros a Ha; lia|done]. }
  induction n as [|n IH]; intros fuel srcva dst max Hva Hmax Hend Hfuel;
    pose proof (PGROUNDDOWN_bounds srcva) as [Hal Hb].
  { replace max with 0 by lia. apply Hzero. lia. }
  destruct (decide (max = 0)) as [->|Hne]; [apply Hzero; lia|].
  destruct fuel as [|fuel]; [lia|]. rewrite loop_S.
  rewrite (copyinstr_step s root F T U) by (done || lia).
  destruct (utrans (k_mem s) T false srcva) as [pa|] eqn:E; cbn [obind].
  2:{ exists (-1), []. cbn. rewrite app_nil_r. split; [done|].
      apply (str_bad _ _ _ max 0); try done; [lia|intros a Ha; lia|]. by rewrite Z.add_0_r. }
  destruct (chunk_bounds srcva max ltac:(lia)) as [Hc1 Hc2].
  pose proof (uok_chunk _ _ _ _ max _ Hva ltac:(lia) E) as Hfirst. pose proof (chunk_next srcva max) as Hnext.
  set (c := chunk srcva max) in *. cbv zeta.
  destruct (find0 (ubytes (k_mem s) T srcva (Z.to_nat c))) as [k|] eqn:Ek; cbn [obind].
  - pose proof (find0_lt _ _ Ek) as Hk. rewrite length_ubytes in Hk.
    destruct fuel as [|fuel]; [lia|]. rewrite loop_S. cbn.
    eexists 0, _. split; [done|]. apply find0_take in Ek. rewrite take_ubytes in * by lia.
    apply str_ok; [lia| |done]. intros a Ha. apply Hfirst. lia.
  - destruct (decide (c = max)) as [Ec|Ec].
    { rewrite Ec, Z.sub_diag. destruct fuel as [|fuel]; [lia|]. rewrite loop_S. cbn.
      exists (-1), (ubytes (k_mem s) T srcva (Z.to_nat max)). split; [done|].
      apply str_long; by rewrite <- Ec. }
    specialize (Hnext Ec). rewrite Hnext.
    destruct (IH fuel (srcva + c) (dst ++ ubytes (k_mem s) T srcva (Z.to_nat c)) (max - c))
      as (r & bs & Hl & Hs); try lia; [rewrite next_page by done; lia|].
    rewrite Hl. exists r, (ubytes (k_mem s) T srcva (Z.to_nat c) ++ bs). rewrite app_assoc.
    split; [done|]. apply strres_app; done || lia.
Qed.

End Copy.
