(* ===== verification/Aspace.v ===== *)
(** * Properties of address spaces

    The life of a user address space, from uvmcreate to uvmfree, under any
    sequence of the operations that the system calls perform on it, and the
    theorems about kernel/vm.c that the rest of the kernel relies on. *)

From S2P Require Import Prelude Riscv Memory Spinlock Kalloc Vm Pagetable Uvm Uspace Freewalk Uvmcopy Copy.

Section Aspace.
Context `{ImageOk}.

(** A user address space of [sz] bytes that maps nothing else. *)
Record uspace (s : kst) (root : Z) (F : list Z) (T : ptree) (U : gmap Z Z) (sz : Z) : Prop := {
  usp_vinv : vinv s root F T U;
  usp_covers : covers U sz;
  usp_sz : 0 <= sz <= MAXVA;
  usp_rest : forall va, PGROUNDUP sz <= va < MAXVA -> ~ valid (pte_of s.(k_mem) T va)
}.

Lemma nz_true z : nz z = true <-> z <> 0.
Proof. unfold nz. rewrite negb_true_iff, Z.eqb_neq. done. Qed.

(** User accesses reach owned pages only. *)
Lemma uspace_uonly s root F T U sz : uspace s root F T U sz -> uonly s.(k_mem) T U.
Proof.
  intros [Hv Hc Hsz Hr] va pa Ht Hva. unfold utrans in Ht.
  destruct (Z.ltb_spec va MAXVA) as [Hm|]; [|done]. cbn [andb negb orb] in Ht. rewrite andb_true_r in Ht.
  destruct (nz (Z.land (pte_of (k_mem s) T va) PTE_V)) eqn:EV; [|done].
  destruct (nz (Z.land (pte_of (k_mem s) T va) PTE_U)); [|done]. injection Ht as <-.
  apply nz_true in EV. pose proof (PGROUNDDOWN_bounds va) as [Hal Hb].
  destruct (PGROUNDUP_bounds sz Hsz) as (Hal' & Hb' & _).
  destruct (decide (va < PGROUNDUP sz)) as [Hlt|]; [|exfalso; apply (Hr va); [lia|done]].
  destruct (Hc (PGROUNDDOWN va)) as [_ [pa' HU]].
  { split; [done|]. unfold page_aligned in *. clear -Hal Hal' Hb Hb' Hlt Hva. cdlia. }
  rewrite HU. f_equal. destruct (vi_user _ _ _ _ _ Hv _ _ HU) as (Hd & _ & _ & Epa & _).
  by rewrite <- (pte_of_page _ _ (PGROUNDDOWN va) va), Epa by (done || apply PGROUNDDOWN_page).
Qed.

(** The operations of a process on its own address space. *)
Inductive space_step (root : Z) : kst * Z -> kst * Z -> Prop :=
| ss_grow s sz newsz xperm r s' :
    sz <= newsz <= MAXVA -> 0 <= xperm < 2 ^ 10 ->
    uvmalloc root sz newsz xperm s = Ok r s' ->
    space_step root (s, sz) (s', if r =? 0 then sz else r)
| ss_shrink s sz newsz r s' :
    0 <= newsz <= sz -> uvmdealloc root sz newsz s = Ok r s' ->
    space_step root (s, sz) (s', r)
| ss_write s sz dstva src r s' :
    0 <= dstva -> Forall is_byte src ->
    copyout root dstva src (Z.of_nat (length src)) s = Ok r s' ->
    space_step root (s, sz) (s', sz)
| ss_clear s sz va s' :
    page_aligned va -> 0 <= va < sz -> uvmclear root va s = Ok tt s' ->
    space_step root (s, sz) (s', sz).

Lemma ustep_grown s root F T U s' F' T' U' sz newsz xperm :
  uspace s root F T U sz -> sz <= newsz <= MAXVA -> ustep root s F T U s' F' T' U' ->
  grown s T U s' T' U' (PGROUNDUP sz) newsz xperm -> uspace s' root F' T' U' newsz.
Proof.
  intros [Hv Hc Hsz Hr] Hn Hus [Hsub Hc' Hnew Hold]. split; [apply Hus|done|lia|].
  intros va Hva. destruct (PGROUNDUP_bounds newsz ltac:(lia)) as (Ha' & Hb' & _).
  destruct (PGROUNDUP_bounds sz Hsz) as (Ha & Hb & _).
  rewrite Hold by lia. apply Hr. unfold page_aligned in *. clear -Ha Ha' Hb Hb' Hn Hva. cdlia.
Qed.

Lemma space_grow s root F T U sz newsz xperm :
  uspace s root F T U sz -> sz <= newsz <= MAXVA -> 0 <= xperm < 2 ^ 10 ->
  exists r s' F' T' U', uvmalloc root sz newsz xperm s = Ok r s' /\
    ustep root s F T U s' F' T' U' /\ uspace s' root F' T' U' (if r =? 0 then sz else r).
Proof.
  intros Hs Hn Hx. pose proof Hs as [Hv Hc Hsz Hr].
  destruct (PGROUNDUP_bounds sz Hsz) as (Ha & Hb & HM).
  destruct (PGROUNDUP_bounds newsz ltac:(lia)) as (Ha' & Hb' & HM').
  destruct (uvmalloc_ustep s root F T U sz newsz xperm Hv Hc ltac:(lia) ltac:(lia) Hx)
    as (r & s' & F' & T' & U' & E & Hus & Hres).
  { intros va Hva. apply Hr. lia. }
  exists r, s', F', T', U'. split; [done|]. split; [done|].
  destruct Hres as [(-> & Hg & _)|(-> & -> & [Hs1 Hs2] & _)].
  - destruct (Z.eqb_spec newsz 0).
    + replace sz with newsz in * by lia. by eapply ustep_grown.
    + by eapply ustep_grown.
  - cbn. split; [apply Hus|done|done|]. intros va Hva.
    destruct (decide (va < PGROUNDUP newsz)); [apply Hs1; lia|].
    rewrite Hs2 by lia. by apply Hr.
Qed.

Lemma space_shrink s root F T U sz newsz :
  uspace s root F T U sz -> 0 <= newsz <= sz ->
  exists s' F' U', uvmdealloc root sz newsz s = Ok newsz s' /\
    ustep root s F T U s' F' T U' /\ uspace s' root F' T U' newsz.
Proof.
  intros [Hv Hc Hsz Hr] Hn.
  destruct (uvmdealloc_ustep s root F T U sz newsz Hv Hc Hn ltac:(lia)) as (s' & F' & U' & E & Hus & Hcut & Hview).
  exists s', F', U'. split; [done|]. split; [done|].
  split; [apply Hus|by eapply covers_cut; [exact Hc|lia|lia|]|lia|].
  intros va Hva. destruct (PGROUNDUP_bounds newsz ltac:(lia)) as (_ & Hb & _). rewrite Hview by lia.
  case_decide; [by intros []|]. apply Hr. lia.
Qed.

Lemma copyout_cases s root F T U dstva src :
  vinv s root F T U -> uonly s.(k_mem) T U -> 0 <= dstva -> Forall is_byte src ->
  let len := Z.of_nat (length src) in
  (uok s.(k_mem) T true dstva len /\ exists s',
   copyout root dstva src len s = Ok 0 s' /\ ustore s root F T U s' dstva src) \/
  (exists k s', (k < length src)%nat /\ uok s.(k_mem) T true dstva (Z.of_nat k) /\
   utrans s.(k_mem) T true (dstva + Z.of_nat k) = None /\
   copyout root dstva src len s = Ok (-1) s' /\ ustore s root F T U s' dstva (take k src)).
Proof.
  intros Hv Hu Hva Hby len. unfold copyout.
  apply (copyout_loop root F T U (Z.to_nat (len / PGSIZE) + 2)); try done; [|lia].
  apply copy_fuel; unfold len; lia.
Qed.

Lemma ustore_ustep s root F T U s' va bs :
  vinv s root F T U -> ustore s root F T U s' va bs ->
  vinv s' root F T U /\ forall a, pte_of s'.(k_mem) T a = pte_of s.(k_mem) T a.
Proof. intros Hv Hst. split; apply Hst. Qed.

Lemma space_write s root F T U sz dstva src :
  uspace s root F T U sz -> 0 <= dstva -> Forall is_byte src ->
  exists r s', copyout root dstva src (Z.of_nat (length src)) s = Ok r s' /\ uspace s' root F T U sz.
Proof.
  intros Hs Hva Hby. pose proof Hs as [Hv Hc Hsz Hr].
  assert (Hkeep : forall s' bs, ustore s root F T U s' dstva bs -> uspace s' root F T U sz).
  { intros s' bs Hst. split; try done; [apply Hst|]. intros va. rewrite (ust_pte _ _ _ _ _ _ _ _ Hst). apply Hr. }
  destruct (copyout_cases s root F T U dstva src Hv (uspace_uonly _ _ _ _ _ _ Hs) Hva Hby)
    as [(_ & s' & E & Hst)|(k & s' & _ & _ & _ & E & Hst)]; eauto 6.
Qed.

(** ** uvmclear *)

Lemma clear_flag v b : Z.land v b = Z.land v (Z.land (Z.lnot PTE_U) b) ->
  Z.land (Z.land v (Z.lnot PTE_U)) b = Z.land v b.
Proof. intros E. by rewrite <- Z.land_assoc. Qed.

Lemma clear_PTE_U v pa :
  0 <= v < 2 ^ 64 -> user_pte v pa ->
  u64 (Z.land v (Z.lnot PTE_U)) = Z.land v (Z.lnot PTE_U) /\
  user_pte (Z.land v (Z.lnot PTE_U)) pa /\ Z.land (Z.land v (Z.lnot PTE_U)) PTE_U = 0.
Proof.
  intros Hv (Hval & Hpa & Hr). split_and!.
  - apply u64_small, land_range; lia.
  - unfold user_pte, valid. rewrite !clear_flag by done. split; [done|]. split; [|done].
    rewrite <- Hpa. unfold PTE2PA. rewrite Z.shiftr_land. change (Z.shiftr (Z.lnot PTE_U) 10) with (-1).
    by rewrite Z.land_m1_r.
  - rewrite <- Z.land_assoc. change (Z.land (Z.lnot PTE_U) PTE_U) with 0. apply Z.land_0_r.
Qed.

Lemma uvmclear_vinv s root F T U va pa :
  vinv s root F T U -> U !! va = Some pa ->
  exists s', uvmclear root va s = Ok tt s' /\ vinv s' root F T U /\
    (forall a, 0 <= a < MAXVA -> pte_of s'.(k_mem) T a =
       if decide (same_page va a) then Z.land (pte_of s.(k_mem) T va) (Z.lnot PTE_U)
       else pte_of s.(k_mem) T a) /\
    frame (pages_of T) s.(k_mem) s'.(k_mem).
Proof.
  intros Hv HU. destruct (vi_user _ _ _ _ _ Hv va pa HU) as (Hva & Hal & Hp).
  destruct (valid_leaf _ _ _ (proj1 Hp)) as [q Hq].
  destruct (vinv_leaf _ _ _ _ _ _ _ Hv Hq) as [Hqok _].
  unfold uvmclear. cbn [bind]. rewrite (vinv_walk _ _ _ _ _ _ Hv), Hq by done. cbn [obind].
  pose proof (page_pos q Hqok). pose proof (PX_range 0 va ltac:(lia)).
  destruct (Z.eqb_spec (q + 8 * PX 0 va) 0); [lia|].
  unfold load_pte, store_pte. cbn. rewrite <- (pte_of_leaf (k_mem s) _ _ _ Hq).
  set (v := pte_of (k_mem s) T va) in *.
  destruct (clear_PTE_U v pa) as (Eu & Hp' & _); [|done|].
  { unfold v. rewrite (pte_of_leaf _ _ _ _ Hq). apply load64_range. }
  destruct (vinv_store s root F T U va q (Z.land v (Z.lnot PTE_U)) Hv Hq Hva U) as [Hv' Hview];
    try apply Hv.
  { intros va' pa' HU'. destruct (vi_user _ _ _ _ _ Hv va' pa' HU') as (Hr & Ha' & Hu').
    split; [done|]. split; [done|]. case_decide as E; [|done]. rewrite Eu.
    apply same_page_aligned in E; [|done..]. subst va'. rewrite HU in HU'. by injection HU' as <-. }
  fold (store_st s (q + 8 * PX 0 va) (Z.land v (Z.lnot PTE_U))).
  eexists. split; [done|]. split; [done|]. split; [|by eapply store_frame].
  intros a Ha. rewrite Hview by done. by rewrite Eu.
Qed.

Lemma space_clear s root F T U sz va :
  uspace s root F T U sz -> page_aligned va -> 0 <= va < sz ->
  exists s', uvmclear root va s = Ok tt s' /\ uspace s' root F T U sz.
Proof.
  intros [Hv Hc Hsz Hr] Hal Hva. destruct (Hc va) as [_ [pa HU]]; [done|].
  destruct (uvmclear_vinv s root F T U va pa Hv HU) as (s' & E & Hv' & Hview & _).
  exists s'. split; [done|]. split; try done. intros a Ha.
  destruct (PGROUNDUP_bounds sz Hsz) as (Hal' & Hb & _). rewrite Hview by lia.
  rewrite decide_False; [by apply Hr|]. unfold same_page, page_aligned in *.
  clear -Hal Hal' Ha Hb Hva. cdlia.
Qed.

(** ** Reachable address spaces *)

Lemma space_steps root s sz s' sz' P :
  rtc (space_step root) (s, sz) (s', sz') ->
  (exists F T U, uspace s root F T U sz /\ owned F T U ≡ₚ P) ->
  exists F T U, uspace s' root F T U sz' /\ owned F T U ≡ₚ P.
Proof.
  intros Hr. remember (s, sz) as c eqn:Ec. remember (s', sz') as c' eqn:Ec'.
  revert s sz Ec. induction Hr as [c|c [s1 sz1] c2 Hst Hr IH]; intros s sz ->.
  { injection Ec' as <- <-. done. }
  intros (F & T & U & Hs & Hp). apply (IH Ec' s1 sz1 eq_refl).
  inversion Hst as [? ? newsz xperm r ? Hn Hx E|? ? newsz r ? Hn E|? ? dstva src r ? Hd Hb E|? ? va ? Ha Hva E];
    subst; clear Hst.
  - destruct (space_grow s root F T U sz newsz xperm Hs Hn Hx) as (r' & s2 & F' & T' & U' & E' & Hus & Hs').
    rewrite E in E'. injection E' as <- <-. exists F', T', U'. split; [done|]. by rewrite (us_perm _ _ _ _ _ _ _ _ _ Hus).
  - destruct (space_shrink s root F T U sz newsz Hs Hn) as (s2 & F' & U' & E' & Hus & Hs').
    rewrite E in E'. injection E' as -> <-. exists F', T, U'. split; [done|]. by rewrite (us_perm _ _ _ _ _ _ _ _ _ Hus).
  - destruct (space_write s root F T U _ dstva src Hs Hd Hb) as (r' & s2 & E' & Hs').
    rewrite E in E'. injection E' as _ <-. by exists F, T, U.
  - destruct (space_clear s root F T U _ va Hs Ha Hva) as (s2 & E' & Hs').
    rewrite E in E'. injection E' as <-. by exists F, T, U.
Qed.

Lemma uvmcreate_uspace s q F :
  kinv s (q :: F) ->
  exists s', uvmcreate s = Ok q s' /\ uspace s' q F {[ [] := q ]} ∅ 0 /\
    owned F {[ [] := q ]} ∅ ≡ₚ q :: F.
Proof.
  intros Hk. destruct (uvmcreate_vinv s q F Hk) as (s' & E & Hv & Hview & Hp & _).
  exists s'. split; [done|]. split; [|done]. split; [done| |clia|].
  - intros va. rewrite lookup_empty. split; [intros [? [=]]|lia].
  - intros va Hva. rewrite Hview by (change (PGROUNDUP 0) with 0 in Hva; done). by intros [].
Qed.

End Aspace.

(** ** A second address space *)

Section Second.
Context `{ImageOk}.

Lemma uvmcreate_second s old q F T U sz :
  uspace s old (q :: F) T U sz ->
  exists s', uvmcreate s = Ok q s' /\ uspace s' old F T U sz /\
    uspace s' q F {[ [] := q ]} ∅ 0 /\ apart T U (owned F {[ [] := q ]} ∅) /\
    frame [q] s.(k_mem) s'.(k_mem).
Proof.
  intros [Hv Hc Hsz Hr]. pose proof (vinv_kinv _ _ _ _ _ Hv) as Hk.
  destruct (uvmcreate_uspace s q F Hk) as (s' & E & Hs & Hp).
  destruct (uvmcreate_vinv s q F Hk) as (s'' & E' & _ & _ & _ & _ & Hf). rewrite E in E'.
  injection E' as <-. pose proof (vi_nodup _ _ _ _ _ Hv) as Hnd. unfold owned in Hnd. cbn in Hnd.
  exists s'. split; [done|]. split; [|split; [done|split; [|done]]].
  - destruct (vinv_kalloc s old q F T U Hv) as (s1 & Ek & Hv1 & Hq & Hno & Hview & _ & Hf1).
    unfold uvmcreate in E. cbn [bind] in E. rewrite Ek in E. cbn [obind] in E.
    pose proof (page_pos q Hq). destruct (Z.eqb_spec q 0); [lia|]. cbn in E. injection E as <-.
    destruct (vinv_mem s1 old F T U [q] (memset s1.(k_mem) q 0 PGSIZE) Hv1 (memset_frame q _ 0))
      as [Hv2 Hview2]; [by apply Forall_singleton| |].
    { intros x ->%list_elem_of_singleton Hx. apply Hno. unfold owned. lelem. }
    split; try done. intros va Hva. cbn [k_mem]. rewrite Hview2, Hview. by apply Hr.
  - intros x Hx. rewrite Hp. apply NoDup_cons in Hnd as [Hn1 Hnd].
    apply NoDup_app in Hnd as (_ & Hnd & _). intros [->|HF]%elem_of_cons; [lelem|]. by apply (Hnd x HF).
Qed.

End Second.

(** ** Properties *)

Section AspaceProperties.
Context `{ImageOk}.

(** C3: no page is leaked or freed twice in the life of an address space.
    Make one with [uvmcreate], run any sequence of [uvmalloc] (including ones
    that run out of memory), [uvmdealloc], [copyout] and [uvmclear] on it, and
    [uvmfree] it: it succeeds, and the free list is a permutation of what it
    was before [uvmcreate]. *)
Theorem address_space_no_leak (s0 s1 s : kst) (root : Z) (F0 : list Z) (sz : Z) :
  kinv s0 F0 -> uvmcreate s0 = Ok root s1 -> root <> 0 ->
  rtc (space_step root) (s1, 0) (s, sz) ->
  exists s' F', uvmfree root sz s = Ok tt s' /\ kinv s' F' /\ F' ≡ₚ F0.
Proof.
  intros Hk Ec Hnz Hr. destruct F0 as [|q F0].
  { unfold uvmcreate in Ec. cbn [bind] in Ec. rewrite (kalloc_nil s0 Hk) in Ec. cbn in Ec. congruence. }
  destruct (uvmcreate_uspace s0 q F0 Hk) as (s1' & Ec' & Hs & Hp). rewrite Ec in Ec'.
  injection Ec' as -> <-.
  destruct (space_steps q s1 0 s sz (q :: F0) Hr) as (F & T & U & [Hv Hc Hsz Hrest] & Hperm); [eauto 6|].
  destruct (uvmfree_all s q F T U sz Hv Hc Hsz Hrest) as (s' & F' & Ef & Hk' & HF' & _).
  exists s', F'. split; [done|]. split; [done|]. by rewrite HF'.
Qed.

(** C35: [uvmalloc] grows an address space to [newsz] or leaves it as it was.
    On success the pages below [PGROUNDUP oldsz] are untouched and every new
    page is zeroed, user-readable, and mapped with [PTE_R|PTE_U|xperm]; on
    failure it returns 0 with the same user pages and nothing mapped above
    them, which can only happen if there were fewer free pages than three per
    page asked for (the page and two page-table pages), the most a success uses.  Either way the pages
    owned are the same, the contents of the existing pages stay, and no byte
    outside the owned pages changes. *)
Theorem uvmalloc_spec (s : kst) (root : Z) (F : list Z) (T : ptree) (U : gmap Z Z)
    (oldsz newsz xperm : Z) :
  uspace s root F T U oldsz -> oldsz <= newsz <= MAXVA -> 0 <= xperm < 2 ^ 10 ->
  exists r s' F' T' U', uvmalloc root oldsz newsz xperm s = Ok r s' /\
    ustep root s F T U s' F' T' U' /\
    (r = newsz /\ grown s T U s' T' U' (PGROUNDUP oldsz) newsz xperm /\
     (length F <= length F' + 3 * Z.to_nat ((PGROUNDUP newsz - PGROUNDUP oldsz) / PGSIZE))%nat \/
     r = 0 /\ U' = U /\ shrunk s T s' T' (PGROUNDUP oldsz) newsz /\
     (length F < 3 * Z.to_nat ((PGROUNDUP newsz - PGROUNDUP oldsz) / PGSIZE))%nat).
Proof.
  intros [Hv Hc Hsz Hr] Hn Hx. destruct (PGROUNDUP_bounds newsz ltac:(lia)) as (_ & _ & HM).
  apply uvmalloc_ustep; try done; try lia. intros va Hva. apply Hr. lia.
Qed.

(** C17: [uvmcopy] makes a copy of an address space: on success every user page
    of the old one has a page of the new one at the same address with the same
    permission bits and the same 4096 bytes, and on failure the new space is
    empty again, which needs fewer free pages than three per page.  The old space keeps its mappings and its bytes. *)
Theorem uvmcopy_spec (s : kst) (old new : Z) (F : list Z) (T : ptree) (U : gmap Z Z) (T2 : ptree) (sz : Z) :
  uspace s old F T U sz -> uspace s new F T2 ∅ 0 -> apart T U (owned F T2 ∅) ->
  exists r s' F' T' U', uvmcopy old new sz s = Ok r s' /\
    ustep new s F T2 ∅ s' F' T' U' /\ vinv s' old F' T U /\
    (forall va, 0 <= va -> uread s'.(k_mem) T va = uread s.(k_mem) T va) /\
    (r = 0 /\ copied s T U T2 ∅ s' T' U' 0 sz \/
     r = -1 /\ U' = ∅ /\ shrunk s T2 s' T' 0 sz /\
     (length F < 3 * Z.to_nat (PGROUNDUP sz / PGSIZE))%nat).
Proof.
  intros Ho Hn Hd. pose proof Ho as [Hvo Hco Hsz Hro]. pose proof Hn as [Hvn Hcn _ Hrn].
  destruct (PGROUNDUP_bounds sz Hsz) as (Hal & Hb & HM).
  assert (En : PGROUNDUP sz / PGSIZE * PGSIZE = PGROUNDUP sz) by (unfold page_aligned in Hal; cdlia).
  destruct (uvmcopy_loop old new T U sz (Z.to_nat (PGROUNDUP sz / PGSIZE)) s F F T2 ∅ 0
              (Z.to_nat (sz / PGSIZE) + 2)) as (r & s' & F' & T' & U' & E & Hus & Hres);
    try done; try lia.
  { rewrite Z2Nat.id by (clear -Hsz Hb; cdlia). lia. }
  { clear -Hb Hsz. cdlia. }
  { intros va Hva. apply Hrn. change (PGROUNDUP 0) with 0. lia. }
  destruct (vinv_other _ _ _ _ _ _ _ _ _ _ _ _ _ Hvo Hd Hus) as (Hvo' & Hpte & Hdata).
  exists r, s', F', T', U'. split; [done|]. split; [done|]. split; [done|]. split; [|done].
  intros va Hva. unfold uread. rewrite (utrans_pte (k_mem s) (k_mem s')) by done.
  destruct (utrans (k_mem s) T false va) as [pa|] eqn:Ea; [|done].
  destruct (utrans_user _ _ _ _ _ _ _ _ Hvo (uspace_uonly _ _ _ _ _ _ Ho) Ea Hva) as [HU _].
  apply (Hdata _ _ _ HU). unfold in_page. cdlia.
Qed.

Lemma copyin_cases s root F T U srcva len :
  vinv s root F T U -> uonly s.(k_mem) T U -> 0 <= srcva -> 0 <= len ->
  (uok s.(k_mem) T false srcva len /\
   copyin root srcva len s = Ok (0, ubytes s.(k_mem) T srcva (Z.to_nat len)) s) \/
  (exists k, 0 <= k < len /\ uok s.(k_mem) T false srcva k /\
   utrans s.(k_mem) T false (srcva + k) = None /\
   copyin root srcva len s = Ok (-1, ubytes s.(k_mem) T srcva (Z.to_nat k)) s).
Proof.
  intros Hv Hu Hva Hlen. unfold copyin.
  exact (copyin_loop s root F T U Hv Hu (Z.to_nat (len / PGSIZE) + 2) (Z.to_nat (len / PGSIZE) + 3)
           srcva [] len Hva Hlen (copy_fuel _ _ Hva Hlen) ltac:(lia)).
Qed.

Lemma ubytes_written m T va bs :
  (forall a, va <= a < va + Z.of_nat (length bs) -> uread m T a = nth (Z.to_nat (a - va)) bs 0) ->
  ubytes m T va (length bs) = bs.
Proof.
  revert va. induction bs as [|b bs IH]; intros va Hr; cbn [ubytes length]; [done|]. f_equal.
  - rewrite Hr by (cbn; lia). by rewrite Z.sub_diag.
  - apply IH. intros a Ha. rewrite Hr by (cbn; lia).
    replace (Z.to_nat (a - va)) with (S (Z.to_nat (a - (va + 1)))) by lia. done.
Qed.

(** C21: [copyout] writes kernel bytes to user memory.  It returns 0 exactly if
    every destination byte is writable by the user (mapped, [PTE_U], [PTE_W]);
    then the user sees the bytes at [dstva] and no other user byte has
    changed, and [copyin] of the range gives the bytes back.  Otherwise it
    returns -1, with the bytes before the first bad page written.  Page
    tables, kernel memory and pages of other processes never change. *)
Theorem copyout_copyin (s : kst) (root : Z) (F : list Z) (T : ptree) (U : gmap Z Z) (sz dstva : Z)
    (src : list Z) :
  uspace s root F T U sz -> 0 <= dstva -> Forall is_byte src ->
  let len := Z.of_nat (length src) in
  exists r s', copyout root dstva src len s = Ok r s' /\ vinv s' root F T U /\
    frame (pages_of U) s.(k_mem) s'.(k_mem) /\
    (r = 0 /\ uok s.(k_mem) T true dstva len /\
     (forall a, 0 <= a -> uread s'.(k_mem) T a = uwritten s.(k_mem) T dstva src a) /\
     copyin root dstva len s' = Ok (0, src) s' \/
     r = -1 /\ exists k, (k < length src)%nat /\ utrans s.(k_mem) T true (dstva + Z.of_nat k) = None /\
     uok s.(k_mem) T true dstva (Z.of_nat k) /\
     forall a, 0 <= a -> uread s'.(k_mem) T a = uwritten s.(k_mem) T dstva (take k src) a).
Proof.
  intros Hs Hva Hby len. pose proof Hs as [Hv Hc Hsz Hr]. pose proof (uspace_uonly _ _ _ _ _ _ Hs) as Hu.
  destruct (copyout_cases s root F T U dstva src Hv Hu Hva Hby)
    as [(Hok & s' & E & [Hv' Hpte Hh Hd Hf])|(k & s' & Hk & Hok & Hbad & E & [Hv' Hpte Hh Hd Hf])].
  2:{ exists (-1), s'. split; [done|]. split; [done|]. split; [done|]. right. split; [done|]. by exists k. }
  exists 0, s'. split; [done|]. split; [done|]. split; [done|]. left.
  split; [done|]. split; [done|]. split; [done|].
  destruct (copyin_cases s' root F T U dstva len Hv' (uonly_pte _ _ _ _ Hpte Hu) Hva ltac:(lia))
    as [[_ ->]|(k & Hk & _ & Hbad & _)].
  - unfold len. rewrite Nat2Z.id. rewrite ubytes_written; [done|]. intros a Ha. rewrite Hd by lia.
    unfold uwritten. by rewrite decide_True by lia.
  - exfalso. destruct (Hok (dstva + k)) as [pa Hpa]; [lia|]. apply utrans_weaken in Hpa.
    rewrite (utrans_pte (k_mem s) (k_mem s')) in Hbad by done. congruence.
Qed.

(** [copyin] returns exactly what the user could have read: 0 and the
    bytes of the range if the user may read all of it, and -1 and the bytes
    before the first unreadable page otherwise; the state is unchanged. *)
Theorem copyin_spec (s : kst) (root : Z) (F : list Z) (T : ptree) (U : gmap Z Z) (sz srcva len : Z) :
  uspace s root F T U sz -> 0 <= srcva -> 0 <= len ->
  (uok s.(k_mem) T false srcva len /\
   copyin root srcva len s = Ok (0, ubytes s.(k_mem) T srcva (Z.to_nat len)) s) \/
  (exists k, 0 <= k < len /\ uok s.(k_mem) T false srcva k /\
   utrans s.(k_mem) T false (srcva + k) = None /\
   copyin root srcva len s = Ok (-1, ubytes s.(k_mem) T srcva (Z.to_nat k)) s).
Proof.
  intros Hs. apply (copyin_cases s root F T U srcva len); [apply Hs|by eapply uspace_uonly].
Qed.

(** [copyinstr] returns 0 with a NUL-terminated string (no earlier NUL)
    if there is one within [max] readable bytes, and -1 if the first [max]
    bytes have no NUL or an unreadable page comes before any NUL. *)
Theorem copyinstr_spec (s : kst) (root : Z) (F : list Z) (T : ptree) (U : gmap Z Z) (sz srcva max : Z) :
  uspace s root F T U sz -> 0 <= srcva -> 0 <= max ->
  exists r bs, copyinstr root srcva max s = Ok (r, bs) s /\ strres s.(k_mem) T srcva max r bs.
Proof.
  intros Hs Hva Hmax. unfold copyinstr.
  exact (copyinstr_loop s root F T U (usp_vinv _ _ _ _ _ _ Hs) (uspace_uonly _ _ _ _ _ _ Hs)
           (Z.to_nat (max / PGSIZE) + 2) (Z.to_nat (max / PGSIZE) + 3)
           srcva [] max Hva Hmax (copy_fuel _ _ Hva Hmax) ltac:(lia)).
Qed.

End AspaceProperties.

(** ** Examples *)

(** A kernel that leaves twelve pages of RAM. *)
#[local] Instance demo_image12 : Image := {|
  kend := PHYSTOP - 12 * PGSIZE;
  etext := KERNBASE + 8 * PGSIZE;
  trampoline := KERNBASE + 7 * PGSIZE;
  uservec := KERNBASE + 7 * PGSIZE;
  userret := KERNBASE + 7 * PGSIZE + 156;
  kernelvec := KERNBASE + 0x5000;
  usertrap_addr := KERNBASE + 0x2000;
  forkret_addr := KERNBASE + 0x1000
|}.

#[local] Instance demo_image12_ok : ImageOk.
Proof. by split. Qed.

(** An empty address space with eleven free pages left. *)
Lemma demo_space : exists s0 q F s1, kinv s0 (q :: F) /\ length F = 11%nat /\
  uvmcreate s0 = Ok q s1 /\ uspace s1 q F {[ [] := q ]} ∅ 0.
Proof.
  destruct (kinit_inv demo_kst demo_hart_stable eq_refl) as (s0 & l & _ & Hk & _ & Hl).
  assert (Hlen : length l = 12%nat).
  { transitivity (length all_pages); [|vm_compute; reflexivity]. apply Permutation_length.
    apply NoDup_Permutation; [apply Hk|apply NoDup_pages_from|]. intros x.
    rewrite Hl. symmetry. apply elem_all_pages. }
  destruct l as [|q F]; [discriminate|]. injection Hlen as Hlen.
  destruct (uvmcreate_uspace s0 q F Hk) as (s1 & E & Hs & _). exists s0, q, F, s1. auto.
Qed.

(** One with a writable page at 0. *)
Lemma demo_page : exists s root F T U, uspace s root F T U PGSIZE /\
  uok s.(k_mem) T true 0 PGSIZE /\ (8 <= length F)%nat.
Proof.
  destruct demo_space as (s0 & q & F & s1 & Hk & Hlen & Ec & Hs).
  destruct (uvmalloc_ustep s1 q F _ ∅ 0 PGSIZE PTE_W (usp_vinv _ _ _ _ _ _ Hs) (usp_covers _ _ _ _ _ _ Hs)
              ltac:(clia) ltac:(clia) ltac:(clia)) as (r & s' & F' & T' & U' & E & Hus & Hres).
  { intros va Hva. apply (usp_rest _ _ _ _ _ _ Hs). change (PGROUNDUP PGSIZE) with 4096 in Hva. clia. }
  destruct Hres as [(_ & Hg & Hl)|(_ & _ & _ & Hl)].
  2:{ rewrite Hlen in Hl. vm_compute in Hl. lia. }
  exists s', q, F', T', U'.
  pose proof (ustep_grown s1 q F _ ∅ s' F' T' U' 0 PGSIZE PTE_W Hs ltac:(clia) Hus Hg) as Hs'.
  split; [done|]. split.
  2:{ rewrite Hlen in Hl. change (3 * _)%nat with 3%nat in Hl. lia. }
  intros a Ha. destruct (usp_covers _ _ _ _ _ _ Hs' 0) as [_ [pa HU]].
  { split; [done|clia]. }
  destruct (gr_new _ _ _ _ _ _ _ _ _ Hg 0 pa HU) as [Hpte _]; [change (PGROUNDUP 0) with 0; lia|].
  assert (Hpa : page_ok pa).
  { eapply Forall_elem; [apply (vi_pages _ _ _ _ _ (usp_vinv _ _ _ _ _ _ Hs'))|].
    assert (pa ∈ pages_of U') by (apply elem_pages_of; eauto). unfold owned. lelem. }
  rewrite (utrans_page _ _ _ a 0) by (try lia; unfold same_page; cdlia).
  destruct (map_pte pa (uperm PTE_W)) as (_ & Hval & _ & Hfl); [apply Hpa|..].
  { split; [pose proof (page_pos pa Hpa); lia|by apply page_lt]. } { done. }
  rewrite <- Hpte in *. unfold utrans.
  rewrite (land_flag _ 4 ltac:(lia) : Z.land _ PTE_U = _), (land_flag _ 2 ltac:(lia) : Z.land _ PTE_W = _), Hfl.
  rewrite (proj2 (nz_true _) Hval). eauto.
Qed.

Lemma address_space_no_leak_witness :
  exists s0 s1 s root F0 s' F', kinv s0 F0 /\ uvmcreate s0 = Ok root s1 /\
    rtc (space_step root) (s1, 0) (s, 0) /\ uvmfree root 0 s = Ok tt s' /\ kinv s' F' /\ F' ≡ₚ F0.
Proof.
  destruct demo_space as (s0 & q & F & s1 & Hk & Hlen & Ec & Hs).
  destruct (space_grow s1 q F _ ∅ 0 PGSIZE PTE_W Hs ltac:(clia) ltac:(clia))
    as (r & s2 & F2 & T2 & U2 & E2 & _ & Hs2).
  destruct (space_shrink s2 q F2 T2 U2 _ 0 Hs2) as (s3 & F3 & U3 & E3 & _ & Hs3).
  { pose proof (usp_sz _ _ _ _ _ _ Hs2). lia. }
  assert (Hsteps : rtc (space_step q) (s1, 0) (s3, 0)).
  { eapply rtc_l; [apply (ss_grow q s1 0 PGSIZE PTE_W r s2); [clia|clia|exact E2]|].
    eapply rtc_l; [apply (ss_shrink q s2 _ 0 0 s3); [|exact E3]|apply rtc_refl].
    pose proof (usp_sz _ _ _ _ _ _ Hs2). lia. }
  destruct (address_space_no_leak s0 s1 s3 q (q :: F) 0 Hk Ec) as (s' & F' & Ef & Hk' & HF').
  - inversion Hk as [_ _ _ _ Hp]. inversion Hp; subst. pose proof (page_pos q ltac:(done)). lia.
  - exact Hsteps.
  - exists s0, s1, s3, q, (q :: F), s', F'. auto 10.
Defined.

Lemma uvmalloc_spec_witness :
  exists s root F T s' F' T' U', uspace s root F T ∅ 0 /\
    uvmalloc root 0 PGSIZE PTE_W s = Ok PGSIZE s' /\ grown s T ∅ s' T' U' 0 PGSIZE PTE_W /\
    ustep root s F T ∅ s' F' T' U'.
Proof.
  destruct demo_space as (s0 & q & F & s1 & Hk & Hlen & Ec & Hs).
  destruct (uvmalloc_spec s1 q F _ ∅ 0 PGSIZE PTE_W Hs ltac:(clia) ltac:(clia))
    as (r & s' & F' & T' & U' & E & Hus & [(-> & Hg & _)|(_ & _ & _ & Hl)]).
  - exists s1, q, F, {[ [] := q ]}, s', F', T', U'. auto.
  - exfalso. rewrite Hlen in Hl. vm_compute in Hl. lia.
Defined.

Lemma copyout_copyin_witness :
  exists s root T s', copyout root 4094 [7; 8] 2 s = Ok 0 s' /\
    copyin root 4094 2 s' = Ok (0, [7; 8]) s' /\ uread s'.(k_mem) T 4095 = 8.
Proof.
  destruct demo_page as (s & root & F & T & U & Hs & Hok & _).
  destruct (copyout_copyin s root F T U PGSIZE 4094 [7; 8] Hs ltac:(lia)) as (r & s' & E & _ & _ & Hr).
  { repeat constructor; unfold is_byte; lia. }
  destruct Hr as [(-> & _ & Hd & Ei)|(_ & k & Hk & Hbad & _)].
  - exists s, root, T, s'. split; [exact E|]. split; [exact Ei|]. rewrite Hd by lia. reflexivity.
  - exfalso. cbn in Hk. destruct (Hok (4094 + Z.of_nat k)) as [pa Hpa]; [clia|congruence].
Defined.

Lemma uok_weaken m T va len : uok m T true va len -> uok m T false va len.
Proof. intros Hok a Ha. destruct (Hok a Ha) as [pa Hpa]. apply utrans_weaken in Hpa. eauto. Qed.

Lemma copyin_spec_witness :
  exists s root T, copyin root 10 20 s = Ok (0, ubytes s.(k_mem) T 10 20) s.
Proof.
  destruct demo_page as (s & root & F & T & U & Hs & Hok & _). exists s, root, T.
  destruct (copyin_spec s root F T U PGSIZE 10 20 Hs ltac:(lia) ltac:(lia))
    as [[_ E]|(k & Hk & _ & Hbad & _)]; [exact E|].
  exfalso. apply uok_weaken in Hok. destruct (Hok (10 + k)) as [pa Hpa]; [clia|congruence].
Defined.

Lemma copyinstr_spec_witness :
  exists s root T r bs, copyinstr root 4000 200 s = Ok (r, bs) s /\ strres s.(k_mem) T 4000 200 r bs.
Proof.
  destruct demo_page as (s & root & F & T & U & Hs & _ & _).
  destruct (copyinstr_spec s root F T U PGSIZE 4000 200 Hs ltac:(lia) ltac:(lia)) as (r & bs & E & Hr).
  exists s, root, T, r, bs. auto.
Defined.

Lemma uvmcopy_spec_witness :
  exists s old new s' F' T' U', uvmcopy old new PGSIZE s = Ok 0 s' /\
    vinv s' new F' T' U' /\ covers U' PGSIZE.
Proof.
  destruct demo_page as (s1 & root & [|q F] & T & U & Hs & _ & Hlen); [cbn in Hlen; lia|].
  destruct (uvmcreate_second s1 root q F T U PGSIZE Hs) as (s & _ & Ho & Hn & Hd & _).
  destruct (uvmcopy_spec s root q F T U _ PGSIZE Ho Hn Hd)
    as (r & s' & F' & T' & U' & E & Hus & _ & _ & [[-> Hcp]|(_ & _ & _ & Hl)]).
  - exists s, root, q, s', F', T', U'. split; [exact E|]. split; [apply Hus|apply Hcp].
  - exfalso. change (3 * _)%nat with 3%nat in Hl. cbn in Hlen. lia.
Defined.
