(* ===== verification/Tty.v ===== *)
(** * The console's data (kernel/uart.c, kernel/console.c, kernel/printf.c)

    The 16550a UART, its transmit buffer, the console's input line and the
    state of the kernel's printf.  The device is modelled by the bytes it has
    sent, the bytes waiting in its receive FIFO and, for each future read of
    the line status register, whether it finds the transmitter busy (idle
    when the list is exhausted). *)

From S2P Require Import Prelude Riscv Memory Spinlock.

Definition RHR : Z := 0.
Definition THR : Z := 0.
Definition IER : Z := 1.
Definition IER_RX_ENABLE : Z := 1.
Definition IER_TX_ENABLE : Z := 2.
Definition FCR : Z := 2.
Definition FCR_FIFO_ENABLE : Z := 1.
Definition FCR_FIFO_CLEAR : Z := 6.
Definition LCR : Z := 3.
Definition LCR_EIGHT_BITS : Z := 3.
Definition LCR_BAUD_LATCH : Z := 128.
Definition LSR : Z := 5.
Definition LSR_RX_READY : Z := 1.
Definition LSR_TX_IDLE : Z := 32.
Definition UART_TX_BUF_SIZE : Z := 32.
Definition INPUT_BUF_SIZE : Z := 128.

Record tty := Tty {
  (** the device *)
  u_regs : gmap Z Z;
  u_sent : list Z;
  u_rx : list Z;
  u_busy : list bool;
  (** uart.c *)
  tx_lock : spinlock;
  tx_buf : list Z;
  tx_w : Z;
  tx_r : Z;
  (** console.c *)
  c_lock : spinlock;
  c_buf : list Z;
  c_r : Z;
  c_w : Z;
  c_e : Z;
  (** printf.c *)
  panicked : Z;
  pr_lock : spinlock;
  pr_locking : Z
}.

Definition tty0 : tty :=
  Tty ∅ [] [] [] (initlock "") (replicate 32 0) 0 0 (initlock "") (replicate 128 0) 0 0 0 0 (initlock "") 0.

Definition u_regs_l : lens tty (gmap Z Z) := Lens u_regs (fun x s =>
  Tty x s.(u_sent) s.(u_rx) s.(u_busy) s.(tx_lock) s.(tx_buf) s.(tx_w) s.(tx_r) s.(c_lock)
       s.(c_buf) s.(c_r) s.(c_w) s.(c_e) s.(panicked) s.(pr_lock) s.(pr_locking)).
Definition u_sent_l : lens tty (list Z) := Lens u_sent (fun x s =>
  Tty s.(u_regs) x s.(u_rx) s.(u_busy) s.(tx_lock) s.(tx_buf) s.(tx_w) s.(tx_r) s.(c_lock)
       s.(c_buf) s.(c_r) s.(c_w) s.(c_e) s.(panicked) s.(pr_lock) s.(pr_locking)).
Definition u_rx_l : lens tty (list Z) := Lens u_rx (fun x s =>
  Tty s.(u_regs) s.(u_sent) x s.(u_busy) s.(tx_lock) s.(tx_buf) s.(tx_w) s.(tx_r) s.(c_lock)
       s.(c_buf) s.(c_r) s.(c_w) s.(c_e) s.(panicked) s.(pr_lock) s.(pr_locking)).
Definition u_busy_l : lens tty (list bool) := Lens u_busy (fun x s =>
  Tty s.(u_regs) s.(u_sent) s.(u_rx) x s.(tx_lock) s.(tx_buf) s.(tx_w) s.(tx_r) s.(c_lock)
       s.(c_buf) s.(c_r) s.(c_w) s.(c_e) s.(panicked) s.(pr_lock) s.(pr_locking)).
Definition tx_lock_l : lens tty spinlock := Lens tx_lock (fun x s =>
  Tty s.(u_regs) s.(u_sent) s.(u_rx) s.(u_busy) x s.(tx_buf) s.(tx_w) s.(tx_r) s.(c_lock)
       s.(c_buf) s.(c_r) s.(c_w) s.(c_e) s.(panicked) s.(pr_lock) s.(pr_locking)).
Definition tx_buf_l : lens tty (list Z) := Lens tx_buf (fun x s =>
  Tty s.(u_regs) s.(u_sent) s.(u_rx) s.(u_busy) s.(tx_lock) x s.(tx_w) s.(tx_r) s.(c_lock)
       s.(c_buf) s.(c_r) s.(c_w) s.(c_e) s.(panicked) s.(pr_lock) s.(pr_locking)).
Definition tx_w_l : lens tty Z := Lens tx_w (fun x s =>
  Tty s.(u_regs) s.(u_sent) s.(u_rx) s.(u_busy) s.(tx_lock) s.(tx_buf) x s.(tx_r) s.(c_lock)
       s.(c_buf) s.(c_r) s.(c_w) s.(c_e) s.(panicked) s.(pr_lock) s.(pr_locking)).
Definition tx_r_l : lens tty Z := Lens tx_r (fun x s =>
  Tty s.(u_regs) s.(u_sent) s.(u_rx) s.(u_busy) s.(tx_lock) s.(tx_buf) s.(tx_w) x s.(c_lock)
       s.(c_buf) s.(c_r) s.(c_w) s.(c_e) s.(panicked) s.(pr_lock) s.(pr_locking)).
Definition c_lock_l : lens tty spinlock := Lens c_lock (fun x s =>
  Tty s.(u_regs) s.(u_sent) s.(u_rx) s.(u_busy) s.(tx_lock) s.(tx_buf) s.(tx_w) s.(tx_r) x
       s.(c_buf) s.(c_r) s.(c_w) s.(c_e) s.(panicked) s.(pr_lock) s.(pr_locking)).
Definition c_buf_l : lens tty (list Z) := Lens c_buf (fun x s =>
  Tty s.(u_regs) s.(u_sent) s.(u_rx) s.(u_busy) s.(tx_lock) s.(tx_buf) s.(tx_w) s.(tx_r)
       s.(c_lock) x s.(c_r) s.(c_w) s.(c_e) s.(panicked) s.(pr_lock) s.(pr_locking)).
Definition c_r_l : lens tty Z := Lens c_r (fun x s =>
  Tty s.(u_regs) s.(u_sent) s.(u_rx) s.(u_busy) s.(tx_lock) s.(tx_buf) s.(tx_w) s.(tx_r)
       s.(c_lock) s.(c_buf) x s.(c_w) s.(c_e) s.(panicked) s.(pr_lock) s.(pr_locking)).
Definition c_w_l : lens tty Z := Lens c_w (fun x s =>
  Tty s.(u_regs) s.(u_sent) s.(u_rx) s.(u_busy) s.(tx_lock) s.(tx_buf) s.(tx_w) s.(tx_r)
       s.(c_lock) s.(c_buf) s.(c_r) x s.(c_e) s.(panicked) s.(pr_lock) s.(pr_locking)).
Definition c_e_l : lens tty Z := Lens c_e (fun x s =>
  Tty s.(u_regs) s.(u_sent) s.(u_rx) s.(u_busy) s.(tx_lock) s.(tx_buf) s.(tx_w) s.(tx_r)
       s.(c_lock) s.(c_buf) s.(c_r) s.(c_w) x s.(panicked) s.(pr_lock) s.(pr_locking)).
Definition panicked_l : lens tty Z := Lens panicked (fun x s =>
  Tty s.(u_regs) s.(u_sent) s.(u_rx) s.(u_busy) s.(tx_lock) s.(tx_buf) s.(tx_w) s.(tx_r)
       s.(c_lock) s.(c_buf) s.(c_r) s.(c_w) s.(c_e) x s.(pr_lock) s.(pr_locking)).
Definition pr_lock_l : lens tty spinlock := Lens pr_lock (fun x s =>
  Tty s.(u_regs) s.(u_sent) s.(u_rx) s.(u_busy) s.(tx_lock) s.(tx_buf) s.(tx_w) s.(tx_r)
       s.(c_lock) s.(c_buf) s.(c_r) s.(c_w) s.(c_e) s.(panicked) x s.(pr_locking)).
Definition pr_locking_l : lens tty Z := Lens pr_locking (fun x s =>
  Tty s.(u_regs) s.(u_sent) s.(u_rx) s.(u_busy) s.(tx_lock) s.(tx_buf) s.(tx_w) s.(tx_r)
       s.(c_lock) s.(c_buf) s.(c_r) s.(c_w) s.(c_e) s.(panicked) s.(pr_lock) x).
#[export] Instance tx_lock_laws : LensLaws tx_lock_l.
Proof. by split; intros; destruct s. Qed.
#[export] Instance c_lock_laws : LensLaws c_lock_l.
Proof. by split; intros; destruct s. Qed.
#[export] Instance pr_lock_laws : LensLaws pr_lock_l.
Proof. by split; intros; destruct s. Qed.
