(* ===== verification/Proc.v ===== *)
(** * Processes (kernel/proc.c, the part below the file system)

    The process table, allocation and freeing of processes, sleep and wakeup,
    kill, the scheduler.  [swtch] to the scheduler is the [Swtch] outcome: the
    continuation runs when the process is scheduled again.  fork, exit and
    userinit, which use the file system, are in the files above it. *)

From S2P Require Import Prelude Riscv Memory Spinlock Kalloc Vm Tty.

Inductive procstate := UNUSED | USED | SLEEPING | RUNNABLE | RUNNING | ZOMBIE.

#[export] Instance procstate_eq_dec : EqDecision procstate.
Proof. solve_decision. Defined.

(** What processes sleep on: the addresses that the kernel passes to [sleep]. *)
Inductive chan :=
| ch0
| chProc (p : fin 64)
| chTicks
| chBufLock (b : fin 30)
| chInodeLock (i : fin 50)
| chLog
| chNread (pi : Z)
| chNwrite (pi : Z)
| chConsR
| chUartTxR
| chDiskFree
| chDiskBuf (b : fin 30).

#[export] Instance chan_eq_dec : EqDecision chan.
Proof. solve_decision. Defined.

(** [struct context]: ra, sp and the callee-saved registers s0 to s11. *)
Record context := Context { ctx_ra : Z; ctx_sp : Z; ctx_s : list Z }.

Definition context0 : context := Context 0 0 (replicate 12 0).

Record proc := Proc {
  p_lock : spinlock;
  p_state : procstate;
  p_chan : chan;
  p_killed : Z;
  p_xstate : Z;
  p_pid : Z;
  p_parent : option (fin 64);
  p_kstack : Z;
  p_sz : Z;
  p_pagetable : Z;
  p_trapframe : Z;
  p_context : context;
  p_ofile : vec (option (fin 100)) 16;
  p_cwd : option (fin 50);
  p_name : list Z;
  p_tracemask : Z
}.

(** A process slot of the zero-initialised table. *)
Definition proc0 : proc :=
  Proc (initlock "") UNUSED ch0 0 0 0 None 0 0 0 0 context0 (vreplicate 16 None) None
       (replicate 16 0) 0.

Definition with_lock (x : spinlock) (p : proc) : proc :=
  Proc x p.(p_state) p.(p_chan) p.(p_killed) p.(p_xstate) p.(p_pid) p.(p_parent)
       p.(p_kstack) p.(p_sz) p.(p_pagetable) p.(p_trapframe) p.(p_context) p.(p_ofile)
       p.(p_cwd) p.(p_name) p.(p_tracemask).
Definition with_state (x : procstate) (p : proc) : proc :=
  Proc p.(p_lock) x p.(p_chan) p.(p_killed) p.(p_xstate) p.(p_pid) p.(p_parent) p.(p_kstack)
       p.(p_sz) p.(p_pagetable) p.(p_trapframe) p.(p_context) p.(p_ofile) p.(p_cwd)
       p.(p_name) p.(p_tracemask).
Definition with_chan (x : chan) (p : proc) : proc :=
  Proc p.(p_lock) p.(p_state) x p.(p_killed) p.(p_xstate) p.(p_pid) p.(p_parent)
       p.(p_kstack) p.(p_sz) p.(p_pagetable) p.(p_trapframe) p.(p_context) p.(p_ofile)
       p.(p_cwd) p.(p_name) p.(p_tracemask).
Definition with_killed (x : Z) (p : proc) : proc :=
  Proc p.(p_lock) p.(p_state) p.(p_chan) x p.(p_xstate) p.(p_pid) p.(p_parent) p.(p_kstack)
       p.(p_sz) p.(p_pagetable) p.(p_trapframe) p.(p_context) p.(p_ofile) p.(p_cwd)
       p.(p_name) p.(p_tracemask).
Definition with_xstate (x : Z) (p : proc) : proc :=
  Proc p.(p_lock) p.(p_state) p.(p_chan) p.(p_killed) x p.(p_pid) p.(p_parent) p.(p_kstack)
       p.(p_sz) p.(p_pagetable) p.(p_trapframe) p.(p_context) p.(p_ofile) p.(p_cwd)
       p.(p_name) p.(p_tracemask).
Definition with_pid (x : Z) (p : proc) : proc :=
  Proc p.(p_lock) p.(p_state) p.(p_chan) p.(p_killed) p.(p_xstate) x p.(p_parent)
       p.(p_kstack) p.(p_sz) p.(p_pagetable) p.(p_trapframe) p.(p_context) p.(p_ofile)
       p.(p_cwd) p.(p_name) p.(p_tracemask).
Definition with_parent (x : option (fin 64)) (p : proc) : proc :=
  Proc p.(p_lock) p.(p_state) p.(p_chan) p.(p_killed) p.(p_xstate) p.(p_pid) x p.(p_kstack)
       p.(p_sz) p.(p_pagetable) p.(p_trapframe) p.(p_context) p.(p_ofile) p.(p_cwd)
       p.(p_name) p.(p_tracemask).
Definition with_kstack (x : Z) (p : proc) : proc :=
  Proc p.(p_lock) p.(p_state) p.(p_chan) p.(p_killed) p.(p_xstate) p.(p_pid) p.(p_parent) x
       p.(p_sz) p.(p_pagetable) p.(p_trapframe) p.(p_context) p.(p_ofile) p.(p_cwd)
       p.(p_name) p.(p_tracemask).
Definition with_sz (x : Z) (p : proc) : proc :=
  Proc p.(p_lock) p.(p_state) p.(p_chan) p.(p_killed) p.(p_xstate) p.(p_pid) p.(p_parent)
       p.(p_kstack) x p.(p_pagetable) p.(p_trapframe) p.(p_context) p.(p_ofile) p.(p_cwd)
       p.(p_name) p.(p_tracemask).
Definition with_pagetable (x : Z) (p : proc) : proc :=
  Proc p.(p_lock) p.(p_state) p.(p_chan) p.(p_killed) p.(p_xstate) p.(p_pid) p.(p_parent)
       p.(p_kstack) p.(p_sz) x p.(p_trapframe) p.(p_context) p.(p_ofile) p.(p_cwd)
       p.(p_name) p.(p_tracemask).
Definition with_trapframe (x : Z) (p : proc) : proc :=
  Proc p.(p_lock) p.(p_state) p.(p_chan) p.(p_killed) p.(p_xstate) p.(p_pid) p.(p_parent)
       p.(p_kstack) p.(p_sz) p.(p_pagetable) x p.(p_context) p.(p_ofile) p.(p_cwd)
       p.(p_name) p.(p_tracemask).
Definition with_context (x : context) (p : proc) : proc :=
  Proc p.(p_lock) p.(p_state) p.(p_chan) p.(p_killed) p.(p_xstate) p.(p_pid) p.(p_parent)
       p.(p_kstack) p.(p_sz) p.(p_pagetable) p.(p_trapframe) x p.(p_ofile) p.(p_cwd)
       p.(p_name) p.(p_tracemask).
Definition with_ofile (x : vec (option (fin 100)) 16) (p : proc) : proc :=
  Proc p.(p_lock) p.(p_state) p.(p_chan) p.(p_killed) p.(p_xstate) p.(p_pid) p.(p_parent)
       p.(p_kstack) p.(p_sz) p.(p_pagetable) p.(p_trapframe) p.(p_context) x p.(p_cwd)
       p.(p_name) p.(p_tracemask).
Definition with_cwd (x : option (fin 50)) (p : proc) : proc :=
  Proc p.(p_lock) p.(p_state) p.(p_chan) p.(p_killed) p.(p_xstate) p.(p_pid) p.(p_parent)
       p.(p_kstack) p.(p_sz) p.(p_pagetable) p.(p_trapframe) p.(p_context) p.(p_ofile) x
       p.(p_name) p.(p_tracemask).
Definition with_name (x : list Z) (p : proc) : proc :=
  Proc p.(p_lock) p.(p_state) p.(p_chan) p.(p_killed) p.(p_xstate) p.(p_pid) p.(p_parent)
       p.(p_kstack) p.(p_sz) p.(p_pagetable) p.(p_trapframe) p.(p_context) p.(p_ofile)
       p.(p_cwd) x p.(p_tracemask).
Definition with_tracemask (x : Z) (p : proc) : proc :=
  Proc p.(p_lock) p.(p_state) p.(p_chan) p.(p_killed) p.(p_xstate) p.(p_pid) p.(p_parent)
       p.(p_kstack) p.(p_sz) p.(p_pagetable) p.(p_trapframe) p.(p_context) p.(p_ofile)
       p.(p_cwd) p.(p_name) x.

(** ** The state of the process layer *)

Record pst := Pst {
  p_k : kst;
  procs : vec proc 64;
  nextpid : Z;
  pid_lock : spinlock;
  wait_lock : spinlock;
  initproc : option (fin 64);
  ticks : Z;
  tickslock : spinlock;
  kernel_pagetable : Z;
  the_tty : tty
}.

Definition p_k_l : lens pst kst := Lens p_k
  (fun x s => Pst x s.(procs) s.(nextpid) s.(pid_lock) s.(wait_lock) s.(initproc) s.(ticks) s.(tickslock) s.(kernel_pagetable) s.(the_tty)).
Definition procs_l : lens pst (vec proc 64) := Lens procs
  (fun x s => Pst s.(p_k) x s.(nextpid) s.(pid_lock) s.(wait_lock) s.(initproc) s.(ticks) s.(tickslock) s.(kernel_pagetable) s.(the_tty)).
Definition nextpid_l : lens pst Z := Lens nextpid
  (fun x s => Pst s.(p_k) s.(procs) x s.(pid_lock) s.(wait_lock) s.(initproc) s.(ticks) s.(tickslock) s.(kernel_pagetable) s.(the_tty)).
Definition pid_lock_l : lens pst spinlock := Lens pid_lock
  (fun x s => Pst s.(p_k) s.(procs) s.(nextpid) x s.(wait_lock) s.(initproc) s.(ticks) s.(tickslock) s.(kernel_pagetable) s.(the_tty)).
Definition wait_lock_l : lens pst spinlock := Lens wait_lock
  (fun x s => Pst s.(p_k) s.(procs) s.(nextpid) s.(pid_lock) x s.(initproc) s.(ticks) s.(tickslock) s.(kernel_pagetable) s.(the_tty)).
Definition initproc_l : lens pst (option (fin 64)) := Lens initproc
  (fun x s => Pst s.(p_k) s.(procs) s.(nextpid) s.(pid_lock) s.(wait_lock) x s.(ticks) s.(tickslock) s.(kernel_pagetable) s.(the_tty)).
Definition ticks_l : lens pst Z := Lens ticks
  (fun x s => Pst s.(p_k) s.(procs) s.(nextpid) s.(pid_lock) s.(wait_lock) s.(initproc) x s.(tickslock) s.(kernel_pagetable) s.(the_tty)).
Definition tickslock_l : lens pst spinlock := Lens tickslock
  (fun x s => Pst s.(p_k) s.(procs) s.(nextpid) s.(pid_lock) s.(wait_lock) s.(initproc) s.(ticks) x s.(kernel_pagetable) s.(the_tty)).
Definition kernel_pagetable_l : lens pst Z := Lens kernel_pagetable
  (fun x s => Pst s.(p_k) s.(procs) s.(nextpid) s.(pid_lock) s.(wait_lock) s.(initproc) s.(ticks) s.(tickslock) x s.(the_tty)).
Definition the_tty_l : lens pst tty := Lens the_tty
  (fun x s => Pst s.(p_k) s.(procs) s.(nextpid) s.(pid_lock) s.(wait_lock) s.(initproc) s.(ticks) s.(tickslock) s.(kernel_pagetable) x).

Definition proc_l (i : fin 64) : lens pst proc := lcomp procs_l (vec_l i).
Definition plock_l : lens proc spinlock := Lens p_lock with_lock.
Definition proc_lock (i : fin 64) : lens pst spinlock := lcomp (proc_l i) plock_l.

#[export] Instance pst_HasHart : HasHart pst := lcomp p_k_l hart_l.
#[export] Instance p_k_laws : LensLaws p_k_l.
Proof. by split; intros; destruct s. Qed.
#[export] Instance procs_laws : LensLaws procs_l.
Proof. by split; intros; destruct s. Qed.
#[export] Instance nextpid_laws : LensLaws nextpid_l.
Proof. by split; intros; destruct s. Qed.
#[export] Instance pid_lock_laws : LensLaws pid_lock_l.
Proof. by split; intros; destruct s. Qed.
#[export] Instance wait_lock_laws : LensLaws wait_lock_l.
Proof. by split; intros; destruct s. Qed.
#[export] Instance initproc_laws : LensLaws initproc_l.
Proof. by split; intros; destruct s. Qed.
#[export] Instance ticks_laws : LensLaws ticks_l.
Proof. by split; intros; destruct s. Qed.
#[export] Instance tickslock_laws : LensLaws tickslock_l.
Proof. by split; intros; destruct s. Qed.
#[export] Instance kernel_pagetable_laws : LensLaws kernel_pagetable_l.
Proof. by split; intros; destruct s. Qed.
#[export] Instance plock_laws : LensLaws plock_l.
Proof. by split; intros; destruct s. Qed.
#[export] Instance p_k_procs : LensDisjoint p_k_l procs_l.
Proof. by split. Qed.
#[export] Instance p_k_pid_lock : LensDisjoint p_k_l pid_lock_l.
Proof. by split. Qed.
#[export] Instance p_k_wait_lock : LensDisjoint p_k_l wait_lock_l.
Proof. by split. Qed.
#[export] Instance p_k_tickslock : LensDisjoint p_k_l tickslock_l.
Proof. by split. Qed.
#[export] Instance the_tty_laws : LensLaws the_tty_l.
Proof. by split; intros; destruct s. Qed.
#[export] Instance p_k_tty : LensDisjoint p_k_l the_tty_l.
Proof. by split. Qed.
#[export] Instance pst_hart_laws : LensLaws (the_hart (S := pst)).
Proof. unfold the_hart, pst_HasHart. apply _. Qed.
#[export] Instance pst_hart_proc i : LensDisjoint (the_hart (S := pst)) (proc_lock i).
Proof. unfold the_hart, pst_HasHart, proc_lock, proc_l. apply _. Qed.
#[export] Instance pst_hart_pid : LensDisjoint (the_hart (S := pst)) pid_lock_l.
Proof. unfold the_hart, pst_HasHart. apply _. Qed.
#[export] Instance pst_hart_wait : LensDisjoint (the_hart (S := pst)) wait_lock_l.
Proof. unfold the_hart, pst_HasHart. apply _. Qed.
#[export] Instance pst_hart_ticks : LensDisjoint (the_hart (S := pst)) tickslock_l.
Proof. unfold the_hart, pst_HasHart. apply _. Qed.

(** A state with a process layer in it. *)
Class HasProcs (S : Type) := the_pst : lens S pst.
#[export] Instance pst_HasProcs : HasProcs pst := Lens (fun s => s) (fun s _ => s).
#[export] Instance HasProcs_HasHart (S : Type) `{HasProcs S} : HasHart S | 100 :=
  lcomp the_pst the_hart.

(** The process slots in the order of the loops [for(p = proc; ...; p++)]. *)
Definition all_procs : list (fin 64) := enum (fin 64).

Section Proc.
Context `{Image}.

(** ** Initialisation *)

Definition kvminit : M pst unit :=
  kpgtbl <- zoom p_k_l kvmmake ;;
  set kernel_pagetable_l kpgtbl.

Definition procinit : M pst unit :=
  set pid_lock_l (initlock "nextpid") ;;
  set wait_lock_l (initlock "wait_lock") ;;
  iterM all_procs (fun p =>
    update (proc_l p) (fun x =>
      with_kstack (KSTACK (Z.of_nat p)) (with_state UNUSED (with_lock (initlock "proc") x)))).

(** ** The current process *)

Definition myproc : M pst (option (fin 64)) :=
  push_off ;;
  h <- get the_hart ;;
  pop_off ;;
  ret h.(cpu_proc).

(** [p->...] where [p] may be null: the kernel maps no page at 0, and the
    fault is one that kerneltrap does not handle. *)
Definition deref {S A : Type} (p : option A) : M S A :=
  match p with
  | Some a => ret a
  | None => panic "kerneltrap"
  end.

Definition myprocp : M pst (fin 64) := p <- myproc ;; deref p.

(** ** Allocating and freeing processes *)

Definition allocpid : M pst Z :=
  acquire pid_lock_l ;;
  pid <- get nextpid_l ;;
  set nextpid_l (s32 (pid + 1)) ;;
  release pid_lock_l ;;
  ret pid.

Definition proc_pagetable (trapframe : Z) : M kst Z :=
  pagetable <- uvmcreate ;;
  if pagetable =? 0 then ret 0
  else
    r <- mappages pagetable TRAMPOLINE PGSIZE trampoline (Z.lor PTE_R PTE_X) ;;
    if r <? 0 then
      uvmfree pagetable 0 ;;
      ret 0
    else
      r <- mappages pagetable TRAPFRAME PGSIZE trapframe (Z.lor PTE_R PTE_W) ;;
      if r <? 0 then
        uvmunmap pagetable TRAMPOLINE 1 false ;;
        uvmfree pagetable 0 ;;
        ret 0
      else ret pagetable.

Definition proc_freepagetable (pagetable sz : Z) : M kst unit :=
  uvmunmap pagetable TRAMPOLINE 1 false ;;
  uvmunmap pagetable TRAPFRAME 1 false ;;
  uvmfree pagetable sz.

Definition freeproc (p : fin 64) : M pst unit :=
  x <- get (proc_l p) ;;
  (if nz x.(p_trapframe) then zoom p_k_l (kfree x.(p_trapframe)) else ret tt) ;;
  update (proc_l p) (with_trapframe 0) ;;
  (if nz x.(p_pagetable) then zoom p_k_l (proc_freepagetable x.(p_pagetable) x.(p_sz)) else ret tt) ;;
  update (proc_l p) (fun x =>
    with_state UNUSED (with_xstate 0 (with_killed 0 (with_chan ch0
      (with_name (<[0%nat := 0]> x.(p_name)) (with_parent None (with_pid 0
        (with_sz 0 (with_pagetable 0 x))))))))).

(** The search of [allocproc]: it leaves the lock of the slot it finds held. *)
Definition allocproc_find : M pst (option (fin 64)) :=
  for_each all_procs (fun p =>
    acquire (proc_lock p) ;;
    x <- get (proc_l p) ;;
    if decide (x.(p_state) = UNUSED) then ret (Some p)
    else
      release (proc_lock p) ;;
      ret None).

Definition allocproc : M pst (option (fin 64)) :=
  found <- allocproc_find ;;
  match found with
  | None => ret None
  | Some p =>
      pid <- allocpid ;;
      update (proc_l p) (fun x => with_state USED (with_pid pid x)) ;;
      tf <- zoom p_k_l kalloc ;;
      update (proc_l p) (with_trapframe tf) ;;
      if tf =? 0 then
        freeproc p ;;
        release (proc_lock p) ;;
        ret None
      else
        pt <- zoom p_k_l (proc_pagetable tf) ;;
        update (proc_l p) (with_pagetable pt) ;;
        if pt =? 0 then
          freeproc p ;;
          release (proc_lock p) ;;
          ret None
        else
          update (proc_l p) (fun x =>
            with_context (Context forkret_addr (u64 (x.(p_kstack) + PGSIZE)) (replicate 12 0)) x) ;;
          ret (Some p)
  end.

Definition cprocnum : M pst Z :=
  gets (fun s => Z.of_nat (length (filter (fun p => (s.(procs) !!! p).(p_state) <> UNUSED) all_procs))).

Definition growproc (n : Z) : M pst Z :=
  p <- myprocp ;;
  x <- get (proc_l p) ;;
  let sz := x.(p_sz) in
  if n >? 0 then
    sz' <- zoom p_k_l (uvmalloc x.(p_pagetable) sz (u64 (sz + n)) PTE_W) ;;
    if sz' =? 0 then ret (-1)
    else
      update (proc_l p) (with_sz sz') ;;
      ret 0
  else if n <? 0 then
    sz' <- zoom p_k_l (uvmdealloc x.(p_pagetable) sz (u64 (sz + n))) ;;
    update (proc_l p) (with_sz sz') ;;
    ret 0
  else
    update (proc_l p) (with_sz sz) ;;
    ret 0.

(** ** The scheduler *)

(** [swtch] to another kernel thread: the continuation runs when some thread
    switches back. *)
Definition swtch {S : Type} : M S unit := fun s => Swtch s (fun s' => Ok tt s').

Definition sched : M pst unit :=
  p <- myprocp ;;
  x <- get (proc_l p) ;;
  h <- get the_hart ;;
  if negb (holding h x.(p_lock)) then panic "sched p->lock"
  else if negb (h.(noff) =? 1) then panic "sched locks"
  else if decide (x.(p_state) = RUNNING) then panic "sched running"
  else if intr_get h then panic "sched interruptible"
  else
    let intena := h.(intena) in
    swtch ;;
    update the_hart (with_intena intena).

Definition yield : M pst unit :=
  p <- myprocp ;;
  acquire (proc_lock p) ;;
  update (proc_l p) (with_state RUNNABLE) ;;
  sched ;;
  release (proc_lock p).

(** One turn of the loop of [scheduler]. *)
Definition scheduler_body (p : fin 64) : M pst unit :=
  acquire (proc_lock p) ;;
  x <- get (proc_l p) ;;
  (if decide (x.(p_state) = RUNNABLE) then
     update (proc_l p) (with_state RUNNING) ;;
     update the_hart (with_cpu_proc (Some p)) ;;
     swtch ;;
     update the_hart (with_cpu_proc None)
   else ret tt) ;;
  release (proc_lock p).

(** [rounds] passes over the process table; the code goes on for ever. *)
Definition scheduler (rounds : nat) : M pst unit :=
  update the_hart (with_cpu_proc None) ;;
  iterM (seq 0 rounds) (fun _ =>
    update the_hart intr_on ;;
    iterM all_procs scheduler_body).

(** ** Sleep, wakeup, kill *)

(** The lock [lk] may be of a component above the process layer. *)
Definition sleep {S : Type} `{HasProcs S} (c : chan) (lk : lens S spinlock) : M S unit :=
  p <- zoom the_pst myprocp ;;
  zoom the_pst (acquire (proc_lock p)) ;;
  release lk ;;
  zoom the_pst (
    update (proc_l p) (fun x => with_state SLEEPING (with_chan c x)) ;;
    sched ;;
    update (proc_l p) (with_chan ch0) ;;
    release (proc_lock p)) ;;
  acquire lk.

Definition wakeup (c : chan) : M pst unit :=
  iterM all_procs (fun p =>
    me <- myproc ;;
    if decide (me = Some p) then ret tt
    else
      acquire (proc_lock p) ;;
      x <- get (proc_l p) ;;
      (if decide (x.(p_state) = SLEEPING /\ x.(p_chan) = c)
       then update (proc_l p) (with_state RUNNABLE) else ret tt) ;;
      release (proc_lock p)).

Definition kill (pid : Z) : M pst Z :=
  r <- for_each all_procs (fun p =>
    acquire (proc_lock p) ;;
    x <- get (proc_l p) ;;
    if x.(p_pid) =? pid then
      update (proc_l p) (with_killed 1) ;;
      (if decide (x.(p_state) = SLEEPING) then update (proc_l p) (with_state RUNNABLE) else ret tt) ;;
      release (proc_lock p) ;;
      ret (Some 0)
    else
      release (proc_lock p) ;;
      ret None) ;;
  ret (default (-1) r).

Definition setkilled (p : fin 64) : M pst unit :=
  acquire (proc_lock p) ;;
  update (proc_l p) (with_killed 1) ;;
  release (proc_lock p).

Definition killed (p : fin 64) : M pst Z :=
  acquire (proc_lock p) ;;
  x <- get (proc_l p) ;;
  release (proc_lock p) ;;
  ret x.(p_killed).

(** ** Children *)

Definition reparent (p : fin 64) : M pst unit :=
  iterM all_procs (fun pp =>
    x <- get (proc_l pp) ;;
    if decide (x.(p_parent) = Some p) then
      ip <- get initproc_l ;;
      update (proc_l pp) (with_parent ip) ;;
      wakeup (match ip with Some i => chProc i | None => ch0 end)
    else ret tt).

(** The scan of [wait] over the table: [inr r] returns [r] with the locks
    released, [inl havekids] falls out of the loop. *)
Fixpoint wait_scan (me : fin 64) (addr : Z) (l : list (fin 64)) (havekids : bool) : M pst (bool + Z) :=
  match l with
  | [] => ret (inl havekids)
  | pp :: l' =>
      x <- get (proc_l pp) ;;
      if decide (x.(p_parent) = Some me) then
        acquire (proc_lock pp) ;;
        x <- get (proc_l pp) ;;
        if decide (x.(p_state) = ZOMBIE) then
          let pid := x.(p_pid) in
          px <- get (proc_l me) ;;
          r <- (if negb (addr =? 0)
                then zoom p_k_l (copyout px.(p_pagetable) addr (le_bytes 4 x.(p_xstate)) 4)
                else ret 0) ;;
          if r <? 0 then
            release (proc_lock pp) ;;
            release wait_lock_l ;;
            ret (inr (-1))
          else
            freeproc pp ;;
            release (proc_lock pp) ;;
            release wait_lock_l ;;
            ret (inr pid)
        else
          release (proc_lock pp) ;;
          wait_scan me addr l' true
      else wait_scan me addr l' havekids
  end.

(** [fuel] bounds the number of times a child's exit wakes the parent. *)
Definition wait (fuel : nat) (addr : Z) : M pst Z :=
  p <- myprocp ;;
  acquire wait_lock_l ;;
  loop fuel (fun _ : unit =>
    r <- wait_scan p addr all_procs false ;;
    match r with
    | inr r => ret (inr r)
    | inl havekids =>
        k <- (if negb havekids then ret 1 else killed p) ;;
        if nz k then
          release wait_lock_l ;;
          ret (inr (-1))
        else
          sleep (chProc p) wait_lock_l ;;
          ret (inl tt)
    end) tt.

(** ** Copies to and from user or kernel memory *)

(** An address that is the user's, one in the kernel's pages, or a kernel
    buffer outside them (a variable on the kernel stack), given by its bytes. *)
Inductive uaddr := UserAddr (a : Z) | KernAddr (a : Z) | KernBuf (bs : list Z).

(** Pointer arithmetic on it. *)
Definition uaddr_add (a : uaddr) (n : Z) : uaddr :=
  match a with
  | UserAddr a => UserAddr (u64 (a + n))
  | KernAddr a => KernAddr (u64 (a + n))
  | KernBuf bs => KernBuf (drop (Z.to_nat n) bs)
  end.

(** The bytes stored in a [KernBuf] are the caller's to keep. *)
Definition either_copyout (dst : uaddr) (src : list Z) (len : Z) : M pst Z :=
  p <- myproc ;;
  match dst with
  | UserAddr a =>
      p <- deref p ;;
      x <- get (proc_l p) ;;
      zoom p_k_l (copyout x.(p_pagetable) a src len)
  | KernAddr a =>
      zoom p_k_l (update mem_l (fun m => st_bytes m a (take (Z.to_nat len) src))) ;;
      ret 0
  | KernBuf _ => ret 0
  end.

Definition either_copyin (src : uaddr) (len : Z) : M pst (Z * list Z) :=
  p <- myproc ;;
  match src with
  | UserAddr a =>
      p <- deref p ;;
      x <- get (proc_l p) ;;
      zoom p_k_l (copyin x.(p_pagetable) a len)
  | KernAddr a =>
      bs <- gets (fun s => ld_bytes s.(p_k).(k_mem) a (Z.to_nat len)) ;;
      ret (0, bs)
  | KernBuf bs => ret (0, take (Z.to_nat len) bs)
  end.

End Proc.
