(* ===== verification/ProcSpec.v ===== *)
(** * The process table: behaviour of the operations

    Every operation of kernel/proc.c that locks a process is brought to a
    closed form: the state after it, as a function of the process table. *)

From S2P Require Import Prelude Riscv Memory Spinlock Kalloc Vm Tty Proc.

Definition phart (s : pst) : hart := s.(p_k).(k_hart).
Definition pproc (s : pst) (p : fin 64) : proc := s.(procs) !!! p.

(** The state in which [p->lock] is held and [p] is otherwise [x]. *)
Definition lk_st (p : fin 64) (x : proc) (s : pst) : pst :=
  put (proc_l p) (with_lock (held_by (phart s) x.(p_lock)) x) (put the_hart (push_off_h (phart s)) s).

Definition put_proc (p : fin 64) (x : proc) (s : pst) : pst := put (proc_l p) x s.

Lemma pproc_put p x s : pproc (put_proc p x s) p = x.
Proof. unfold pproc. cbn. apply vlookup_insert. Qed.
Lemma pproc_put_ne p q x s : p <> q -> pproc (put_proc p x s) q = pproc s q.
Proof. intros Hne. unfold pproc. cbn. by apply vlookup_insert_ne. Qed.
Lemma phart_put p x s : phart (put_proc p x s) = phart s.
Proof. done. Qed.
Lemma put_proc_id p s : put_proc p (pproc s p) s = s.
Proof. apply (put_view (l := proc_l p)). Qed.
Lemma put_proc_put p x y s : put_proc p x (put_proc p y s) = put_proc p x s.
Proof. apply (put_put (l := proc_l p)). Qed.

Arguments put_proc : simpl never.
Arguments pproc : simpl never.

Lemma with_lock_lock x : with_lock x.(p_lock) x = x.
Proof. by destruct x. Qed.
Lemma with_lock_lock2 a b x : with_lock a (with_lock b x) = with_lock a x.
Proof. done. Qed.

Section Locked.
Context (s : pst).
Hypothesis Hh : hart_stable (phart s).

Lemma acquire_proc p :
  lock_free (pproc s p).(p_lock) -> acquire (proc_lock p) s = Ok tt (lk_st p (pproc s p) s).
Proof. intros Hl. exact (acquire_eq (proc_lock p) s Hl). Qed.

Lemma release_proc p x :
  lock_free x.(p_lock) -> release (proc_lock p) (lk_st p x s) = Ok tt (put_proc p x s).
Proof.
  intros Hl.
  pose proof (release_held (proc_lock p) (phart s) x.(p_lock) (put_proc p x s) Hh Hl) as E.
  replace (put (proc_lock p) (p_lock x) (put the_hart (phart s) (put_proc p x s)))
    with (put_proc p x s) in E.
  - rewrite <- E. f_equal. unfold lk_st, put_proc, proc_lock.
    cbn. rewrite vlookup_insert. f_equal. symmetry. apply (put_put (l := vec_l p)).
  - unfold put_proc, proc_lock. cbn. rewrite vlookup_insert, with_lock_lock.
    unfold phart. destruct s as [[] ? ? ? ? ? ? ? ? ?]; cbn. f_equal.
    symmetry. apply (put_put (l := vec_l p)).
Qed.

Lemma get_locked p x : view (proc_l p) (lk_st p x s) = with_lock (held_by (phart s) x.(p_lock)) x.
Proof. cbn. apply vlookup_insert. Qed.

(** Changing the other fields under the lock. *)
Lemma update_locked p x f :
  (forall lk y, f (with_lock lk y) = with_lock lk (f y)) ->
  put (proc_l p) (f (view (proc_l p) (lk_st p x s))) (lk_st p x s) = lk_st p (f x) s.
Proof.
  intros Hf. rewrite get_locked, Hf. unfold lk_st. rewrite put_put. f_equal. f_equal. f_equal.
  specialize (Hf (p_lock x) x). rewrite with_lock_lock in Hf. by rewrite Hf.
Qed.
End Locked.

Lemma update_locked_m p x f s :
  (forall lk y, f (with_lock lk y) = with_lock lk (f y)) ->
  update (proc_l p) f (lk_st p x s) = Ok tt (lk_st p (f x) s).
Proof. intros Hf. unfold update, modify. by rewrite update_locked. Qed.

Lemma get_locked_m p x s :
  get (proc_l p) (lk_st p x s) = Ok (with_lock (held_by (phart s) x.(p_lock)) x) (lk_st p x s).
Proof. unfold get, gets. by rewrite get_locked. Qed.

Lemma f_lock_keep f x :
  (forall lk y, f (with_lock lk y) = with_lock lk (f y)) -> p_lock (f x) = p_lock x.
Proof. intros Hf. specialize (Hf (p_lock x) x). rewrite with_lock_lock in Hf. by rewrite Hf. Qed.

(** ** The current process *)

Lemma myproc_eq s : hart_stable (phart s) -> myproc s = Ok (phart s).(cpu_proc) s.
Proof.
  intros Hh. unfold myproc. cbn [bind]. rewrite push_off_eq. cbn [bind obind].
  unfold get, gets. cbn [bind obind]. rewrite pop_off_eq.
  - cbn. change (view (lcomp p_k_l hart_l) s) with (phart s).
    assert (E : pop_off_h (push_off_h (phart s)) = phart s) by by apply pop_push_off_stable.
    unfold phart in *. rewrite E. destruct s as [[] ? ? ? ? ? ? ? ? ?]; cbn. f_equal.
    unfold push_off_h. by destruct (noff _ =? 0).
  - cbn. apply push_off_off.
  - cbn. rewrite push_off_noff. destruct Hh as [[? _] _]. unfold phart in *. cbn in *. lia.
Qed.

Lemma myprocp_eq s p :
  hart_stable (phart s) -> (phart s).(cpu_proc) = Some p -> myprocp s = Ok p s.
Proof. intros Hh Hp. unfold myprocp. cbn [bind]. rewrite myproc_eq, Hp by done. done. Qed.

(** ** Loops over the table *)

(** The table with [g] applied to the processes of [l]. *)
Definition map_procs (g : fin 64 -> proc -> proc) (l : list (fin 64)) (s : pst) : pst :=
  put procs_l (fun_to_vec (fun p => if decide (p ∈ l) then g p (pproc s p) else pproc s p)) s.

Lemma pproc_map g l s p :
  pproc (map_procs g l s) p = if decide (p ∈ l) then g p (pproc s p) else pproc s p.
Proof. unfold pproc, map_procs. cbn. by rewrite lookup_fun_to_vec. Qed.

Lemma map_procs_ext g g' l l' s :
  (forall p, pproc (map_procs g l s) p = pproc (map_procs g' l' s) p) -> map_procs g l s = map_procs g' l' s.
Proof.
  intros E. unfold map_procs. cbn. f_equal. apply vec_eq. intros p. specialize (E p).
  rewrite !pproc_map in E. by rewrite !lookup_fun_to_vec.
Qed.

Lemma iter_procs (P : pst -> Prop) g body l : NoDup l ->
  (forall s p, P s -> p ∈ l -> body p s = Ok tt (put_proc p (g p (pproc s p)) s) /\
     P (put_proc p (g p (pproc s p)) s)) ->
  forall s, P s -> iterM l body s = Ok tt (map_procs g l s) /\ P (map_procs g l s).
Proof.
  induction l as [|p l IH]; intros Hnd Hbody s Hs.
  - cbn [iterM]. assert (E : map_procs g [] s = s).
    { unfold map_procs. destruct s; cbn. f_equal. apply vec_eq. intros q.
      by rewrite lookup_fun_to_vec, decide_False by apply not_elem_of_nil. }
    by rewrite E.
  - apply NoDup_cons in Hnd as [Hp Hnd]. destruct (Hbody s p Hs) as [Hb Hs1]; [lelem|].
    cbn [iterM bind]. rewrite Hb. cbn [bind obind].
    destruct (IH Hnd) with (s := put_proc p (g p (pproc s p)) s) as [Hi Hs2]; [|done|].
    { intros s' q Hs' Hq. apply Hbody; [done|lelem]. }
    rewrite Hi. assert (E : map_procs g l (put_proc p (g p (pproc s p)) s) = map_procs g (p :: l) s).
    { unfold map_procs. cbn. f_equal. apply vec_eq. intros q. rewrite !lookup_fun_to_vec.
      destruct (decide (q = p)) as [->|Hne].
      - rewrite decide_False, decide_True by (done || lelem). apply pproc_put.
      - rewrite pproc_put_ne by congruence.
        destruct (decide (q ∈ l)), (decide (q ∈ p :: l)); try done; exfalso; lelem. }
    rewrite E in *. done.
Qed.

Lemma elem_all_procs p : p ∈ all_procs.
Proof. unfold all_procs. apply elem_of_enum. Qed.
Lemma NoDup_all_procs : NoDup all_procs.
Proof. unfold all_procs. apply NoDup_enum. Qed.

(** All processes are unlocked, apart from those of [L]. *)
Definition unlocked (L : fin 64 -> Prop) (s : pst) : Prop :=
  hart_stable (phart s) /\ forall p, ~ L p -> lock_free (pproc s p).(p_lock).

Lemma unlocked_put L s p x :
  unlocked L s -> lock_free x.(p_lock) -> unlocked L (put_proc p x s).
Proof.
  intros [Hh Hl] Hx. split; [done|]. intros q Hq. destruct (decide (p = q)) as [->|Hne].
  - by rewrite pproc_put.
  - rewrite pproc_put_ne by done. auto.
Qed.

(** Changing a process under its lock. *)
Lemma locked_update s p f :
  hart_stable (phart s) -> lock_free (pproc s p).(p_lock) ->
  (forall lk y, f (with_lock lk y) = with_lock lk (f y)) ->
  (acquire (proc_lock p) ;; update (proc_l p) f ;; release (proc_lock p)) s =
  Ok tt (put_proc p (f (pproc s p)) s).
Proof.
  intros Hh Hl Hf. cbn [bind]. rewrite acquire_proc by done. cbn [bind obind].
  rewrite update_locked_m by done. cbn [bind obind]. apply release_proc; [done|].
  by rewrite f_lock_keep.
Qed.

(** ** wakeup *)

Definition wake (c : chan) (x : proc) : proc :=
  if decide (x.(p_state) = SLEEPING /\ x.(p_chan) = c) then with_state RUNNABLE x else x.

Lemma wake_lock c x : p_lock (wake c x) = p_lock x.
Proof. unfold wake. by case_decide. Qed.

Definition wake_other (me : option (fin 64)) (c : chan) (p : fin 64) (x : proc) : proc :=
  if decide (me = Some p) then x else wake c x.

Lemma wakeup_eq c s :
  unlocked (fun p => (phart s).(cpu_proc) = Some p) s ->
  wakeup c s = Ok tt (map_procs (wake_other (phart s).(cpu_proc) c) all_procs s).
Proof.
  intros Hu. unfold wakeup.
  refine (proj1 (iter_procs
    (fun s' => phart s' = phart s /\ unlocked (fun p => (phart s).(cpu_proc) = Some p) s')
    (wake_other (phart s).(cpu_proc) c) _ _ NoDup_all_procs _ s _)); [|done].
  intros s' p [Eh [Hh Hl]] _. cbn [bind]. rewrite myproc_eq by (by rewrite Eh in * ). cbn [bind obind].
  rewrite Eh. unfold wake_other. case_decide as Em.
  { rewrite put_proc_id. split; [done|]. split; [done|]. by split. }
  pose proof (Hl p Em) as Hlp. rewrite Eh in Hh. cbn [bind]. rewrite acquire_proc by done. cbn [bind obind].
  rewrite get_locked_m. cbn [bind obind p_state p_chan with_lock]. unfold wake. split.
  - case_decide; cbn [bind obind ret].
    + rewrite update_locked_m by done. cbn [bind obind]. rewrite release_proc; [done|by rewrite Eh|done].
    + rewrite release_proc; [done|by rewrite Eh|done].
  - split; [done|]. apply unlocked_put; [split; [by rewrite Eh|done]|]. by case_decide.
Qed.

(** ** Simple reads and writes under the lock *)

Lemma setkilled_eq p s :
  hart_stable (phart s) -> lock_free (pproc s p).(p_lock) ->
  setkilled p s = Ok tt (put_proc p (with_killed 1 (pproc s p)) s).
Proof. intros Hh Hl. unfold setkilled. by apply locked_update. Qed.

Lemma killed_eq p s :
  hart_stable (phart s) -> lock_free (pproc s p).(p_lock) ->
  killed p s = Ok (pproc s p).(p_killed) s.
Proof.
  intros Hh Hl. unfold killed. cbn [bind]. rewrite acquire_proc by done. cbn [bind obind].
  rewrite get_locked_m. cbn [bind obind]. rewrite release_proc by done. cbn. by rewrite put_proc_id.
Qed.

(** ** kill *)

(** The first process of [l] with this pid. *)
Fixpoint find_pid (s : pst) (pid : Z) (l : list (fin 64)) : option (fin 64) :=
  match l with
  | [] => None
  | p :: l' => if (pproc s p).(p_pid) =? pid then Some p else find_pid s pid l'
  end.

Definition do_kill (x : proc) : proc :=
  let x := with_killed 1 x in
  if decide (x.(p_state) = SLEEPING) then with_state RUNNABLE x else x.

Lemma kill_eq pid s :
  unlocked (fun _ => False) s ->
  kill pid s = match find_pid s pid all_procs with
               | Some p => Ok 0 (put_proc p (do_kill (pproc s p)) s)
               | None => Ok (-1) s
               end.
Proof.
  intros [Hh Hl]. unfold kill. induction all_procs as [|p l IH]; [done|].
  cbn [find_pid for_each bind]. rewrite acquire_proc by auto. cbn [bind obind].
  rewrite get_locked_m. cbn [bind obind p_pid with_lock].
  destruct (Z.eqb_spec (pproc s p).(p_pid) pid).
  - cbn [bind]. rewrite update_locked_m by done. cbn [bind obind]. unfold do_kill. cbn [p_state with_lock with_killed].
    case_decide; cbn [bind obind ret].
    + rewrite update_locked_m by done. cbn [bind obind]. by rewrite (release_proc s Hh) by exact (Hl p (fun H => H)).
    + by rewrite (release_proc s Hh) by exact (Hl p (fun H => H)).
  - cbn [bind]. rewrite (release_proc s Hh) by exact (Hl p (fun H => H)). rewrite put_proc_id. cbn [bind obind ret]. exact IH.
Qed.

Lemma find_pid_some s pid l p : find_pid s pid l = Some p -> (pproc s p).(p_pid) = pid /\ p ∈ l.
Proof.
  induction l as [|q l IH]; cbn; [done|]. destruct (Z.eqb_spec (pproc s q).(p_pid) pid).
  - intros [= <-]. split; [done|lelem].
  - intros E. destruct (IH E). split; [done|lelem].
Qed.

Lemma find_pid_none s pid l : find_pid s pid l = None -> forall p, p ∈ l -> (pproc s p).(p_pid) <> pid.
Proof.
  induction l as [|q l IH]; cbn; [intros _ p []%elem_of_nil|].
  destruct (Z.eqb_spec (pproc s q).(p_pid) pid); [done|]. intros E p [->|Hp]%elem_of_cons; auto.
Qed.

(** ** reparent *)

Lemma map_procs_hart g l s : phart (map_procs g l s) = phart s.
Proof. done. Qed.

Definition initchan (s : pst) : chan :=
  match s.(initproc) with Some i => chProc i | None => ch0 end.

(** ** Unlocked states after a wakeup *)

Lemma unlocked_wake s c :
  unlocked (fun _ => False) s ->
  unlocked (fun _ => False) (map_procs (wake_other (phart s).(cpu_proc) c) all_procs s).
Proof.
  intros [Hh Hl]. split; [done|]. intros p _. rewrite pproc_map. unfold wake_other.
  repeat case_decide; rewrite ?wake_lock; auto.
Qed.

Lemma unlocked_weaken (L L' : fin 64 -> Prop) s :
  (forall p, L p -> L' p) -> unlocked L s -> unlocked L' s.
Proof. intros Hi [Hh Hl]. split; [done|]. intros p Hp. apply Hl. auto. Qed.

(** ** sched *)

(** Code that runs with one lock held and interrupts off. *)
Definition one_lock (h : hart) : Prop := noff h = 1 /\ intr_get h = false.

Lemma one_lock_stable h : one_lock h -> hart_stable h.
Proof. intros [Hn Hi]. split; [split; [lia|done]|lia]. Qed.

Lemma sched_eq p t :
  one_lock (phart t) -> (phart t).(cpu_proc) = Some p ->
  holding (phart t) (pproc t p).(p_lock) = true -> (pproc t p).(p_state) <> RUNNING ->
  sched t = Swtch t (fun t' => Ok tt (put the_hart (with_intena (phart t).(intena) (phart t')) t')).
Proof.
  intros Ho Hp Hk Hr. unfold sched. cbn [bind].
  rewrite (myprocp_eq t p (one_lock_stable _ Ho) Hp). cbn [bind obind get gets].
  change (view (proc_l p) t) with (pproc t p). change (view the_hart t) with (phart t).
  rewrite Hk. destruct Ho as [Hn Hi]. rewrite Hn. cbn [negb Z.eqb Pos.eqb].
  rewrite decide_False by done. rewrite Hi. done.
Qed.

(** ** sleep *)

Section Sleep.
Context {S : Type} `{HasProcs S} `{!LensLaws (the_pst (S := S))}.
Context (lk : lens S spinlock) `{!LensLaws lk} `{!LensDisjoint (the_pst (S := S)) lk}.

(** The process view of a state of a component above. *)
Definition pv (s : S) : pst := view the_pst s.

Lemma view_hart_put t s : view (the_hart (S := S)) (put the_pst t s) = phart t.
Proof. unfold the_hart, HasProcs_HasHart. cbn [lcomp view]. by rewrite view_put. Qed.

Lemma put_hart_put h t s :
  put (the_hart (S := S)) h (put the_pst t s) = put the_pst (put the_hart h t) s.
Proof. unfold the_hart, HasProcs_HasHart. cbn [lcomp put]. by rewrite view_put, put_put. Qed.

(** The state in which [sleep] leaves the processor. *)
Definition asleep (p : fin 64) (c : chan) (s : S) : S :=
  put lk (Spinlock 0 (view lk s).(lk_name) None)
    (put the_pst
       (put_proc p (with_lock (held_by (phart (pv s)) (pproc (pv s) p).(p_lock))
                      (with_state SLEEPING (with_chan c (pproc (pv s) p)))) (pv s)) s).

(** What it does when it is scheduled again, on a hart whose state is [h2]. *)
Definition awake (p : fin 64) (ie : Z) (s : S) : S :=
  let t := pv s in
  let h := pop_off_h (with_intena ie (phart t)) in
  let x := pproc t p in
  let t1 := put_proc p (with_lock (Spinlock 0 x.(p_lock).(lk_name) None) (with_chan ch0 x))
              (put the_hart h t) in
  put lk (held_by h (view lk s)) (put the_pst (put the_hart (push_off_h h) t1) s).

Lemma sleep_release p s x :
  one_lock (phart (pv s)) -> holding (phart (pv s)) (view lk s) = true ->
  release lk (put the_pst (lk_st p x (pv s)) s) =
  Ok tt (put lk (Spinlock 0 (view lk s).(lk_name) None)
           (put the_pst (put_proc p (with_lock (held_by (phart (pv s)) x.(p_lock)) x) (pv s)) s)).
Proof.
  intros Ho Hk.
  assert (Ehart : view the_hart (put the_pst (lk_st p x (pv s)) s) = push_off_h (phart (pv s))).
  { unfold the_hart, HasProcs_HasHart. cbn [lcomp view]. by rewrite view_put. }
  assert (Dj : LensDisjoint (the_hart (S := S)) lk).
  { unfold the_hart, HasProcs_HasHart. apply _. }
  assert (Ll : LensLaws (the_hart (S := S))).
  { unfold the_hart, HasProcs_HasHart. apply _. }
  rewrite (release_eq lk).
  - rewrite Ehart, pop_push_off_stable by by apply one_lock_stable.
    rewrite (view_put_r (l := the_pst) (k := lk)). do 2 f_equal.
    unfold the_hart at 1, HasProcs_HasHart. cbn [lcomp put]. rewrite view_put, put_put. f_equal.
    unfold lk_st, put_proc, pv. destruct (view the_pst s) as [[] ? ? ? ? ? ? ? ? ?]. done.
  - rewrite Ehart, (view_put_r (l := the_pst) (k := lk)). unfold holding in *. by rewrite push_off_cpuid.
  - rewrite Ehart. apply push_off_off.
  - rewrite Ehart, push_off_noff. destruct Ho. lia.
Qed.

Lemma sleep_eq p c s :
  one_lock (phart (pv s)) -> (phart (pv s)).(cpu_proc) = Some p ->
  holding (phart (pv s)) (view lk s) = true -> lock_free (pproc (pv s) p).(p_lock) ->
  sleep c lk s = Swtch (asleep p c s) (fun s2 =>
    obind (zoom the_pst (update the_hart (with_intena (phart (pv s)).(intena)) ;;
                         update (proc_l p) (with_chan ch0) ;;
                         release (proc_lock p)) s2)
      (fun _ => acquire lk)).
Proof.
  intros Ho Hp Hk Hl. pose proof (one_lock_stable _ Ho) as Hs. unfold sleep. cbn [bind].
  rewrite (zoom_ok _ _ _ _ _ (myprocp_eq (pv s) p Hs Hp)). cbn [obind].
  unfold pv at 1. rewrite put_view. cbn [bind].
  rewrite (zoom_ok _ _ _ _ _ (acquire_proc (pv s) p Hl)). cbn [obind]. cbn [bind].
  rewrite (sleep_release p s (pproc (pv s) p) Ho Hk). cbn [obind].
  set (x := pproc (pv s) p) in *. set (h := phart (pv s)) in *.
  set (free := Spinlock 0 _ None). cbn [bind]. unfold zoom at 1.
  rewrite (view_put_l (l := the_pst) (k := lk)), view_put.
  cbn [bind update modify obind]. unfold put_proc at 2 3. rewrite view_put, put_put.
  fold (put_proc p (with_state SLEEPING (with_chan c (with_lock (held_by h (p_lock x)) x))) (pv s)).
  rewrite (sched_eq p).
  - cbn [obind zoom_out]. f_equal. unfold asleep. fold h x free.
    rewrite (put_comm (l := the_pst) (k := lk)), put_put. done.
  - done.
  - done.
  - rewrite pproc_put. cbn [p_lock with_state with_chan with_lock]. rewrite phart_put. fold h.
    unfold holding, holding_id, held_by. cbn. by apply bool_decide_eq_true.
  - by rewrite pproc_put.
Qed.

Lemma awake_eq p ie s :
  one_lock (phart (pv s)) -> holding (phart (pv s)) (pproc (pv s) p).(p_lock) = true ->
  lock_free (view lk s) ->
  obind (zoom the_pst (update the_hart (with_intena ie) ;;
                       update (proc_l p) (with_chan ch0) ;;
                       release (proc_lock p)) s) (fun _ => acquire lk) = Ok tt (awake p ie s).
Proof.
  intros [Hn Hi] Hk Hl. set (t := pv s) in *. set (h := phart t) in *. set (x := pproc t p) in *.
  assert (E : (update the_hart (with_intena ie) ;; update (proc_l p) (with_chan ch0) ;;
               release (proc_lock p)) t =
    Ok tt (put_proc p (with_lock (Spinlock 0 x.(p_lock).(lk_name) None) (with_chan ch0 x))
             (put the_hart (pop_off_h (with_intena ie h)) t))).
  { cbn [bind update modify obind]. rewrite (release_eq (proc_lock p)).
    - f_equal. unfold put_proc, h, x, phart, pproc. clearbody t. destruct t as [[] ? ? ? ? ? ? ? ? ?].
      cbn. rewrite !vlookup_insert. f_equal. apply (put_put (l := vec_l p)).
    - unfold h, x, phart, pproc in Hk. clearbody t. destruct t as [[] ? ? ? ? ? ? ? ? ?].
      cbn in Hk |- *. rewrite vlookup_insert. exact Hk.
    - unfold h, phart in Hi. clearbody t. by destruct t as [[] ? ? ? ? ? ? ? ? ?].
    - unfold h, phart in Hn. clearbody t. destruct t as [[] ? ? ? ? ? ? ? ? ?]. cbn in *. lia. }
  rewrite (zoom_ok _ _ _ _ _ E). cbn [obind].
  assert (Dj : LensDisjoint (the_hart (S := S)) lk) by (unfold the_hart, HasProcs_HasHart; apply _).
  assert (Ll : LensLaws (the_hart (S := S))) by (unfold the_hart, HasProcs_HasHart; apply _).
  rewrite (acquire_eq lk) by by rewrite (view_put_r (l := the_pst) (k := lk)).
  rewrite (view_put_r (l := the_pst) (k := lk)). f_equal. unfold awake. fold t h x.
  rewrite view_hart_put, put_hart_put. unfold put_proc, phart. cbn. done.
Qed.
End Sleep.

(** ** Properties *)

(** [wakeup] makes exactly the other processes that sleep on the channel
    runnable; nothing else in the kernel changes. *)
Theorem wakeup_spec (c : chan) (s : pst) :
  unlocked (fun p => (phart s).(cpu_proc) = Some p) s ->
  exists s', wakeup c s = Ok tt s' /\ s' = put procs_l s'.(procs) s /\
    forall p, pproc s' p =
      if decide ((phart s).(cpu_proc) <> Some p /\ (pproc s p).(p_state) = SLEEPING /\ (pproc s p).(p_chan) = c)
      then with_state RUNNABLE (pproc s p) else pproc s p.
Proof.
  intros Hu. exists (map_procs (wake_other (phart s).(cpu_proc) c) all_procs s).
  split; [by apply wakeup_eq|]. split; [done|]. intros p. rewrite pproc_map.
  rewrite decide_True by apply elem_all_procs. unfold wake_other, wake.
  repeat case_decide; try done; tauto.
Qed.

(** [kill] marks the first process with the pid as killed, waking it if it
    sleeps, and returns 0; without such a process it returns -1 and changes
    nothing. *)
Theorem kill_spec (pid : Z) (s : pst) :
  unlocked (fun _ => False) s ->
  (exists p s', kill pid s = Ok 0 s' /\ (pproc s p).(p_pid) = pid /\
     (pproc s' p).(p_killed) = 1 /\ (pproc s' p).(p_state) <> SLEEPING /\
     ((pproc s p).(p_state) <> SLEEPING -> (pproc s' p).(p_state) = (pproc s p).(p_state)) /\
     forall q, q <> p -> pproc s' q = pproc s q) \/
  ((forall p, (pproc s p).(p_pid) <> pid) /\ kill pid s = Ok (-1) s).
Proof.
  intros Hu. rewrite kill_eq by done. destruct (find_pid s pid all_procs) as [p|] eqn:E; [left|right].
  - destruct (find_pid_some _ _ _ _ E) as [Hp _].
    exists p, (put_proc p (do_kill (pproc s p)) s). split; [done|]. split; [done|].
    rewrite pproc_put. unfold do_kill. split; [by case_decide|].
    split; [by case_decide|]. split; [by case_decide|].
    intros q Hq. apply pproc_put_ne. congruence.
  - split; [|done]. intros p. eapply find_pid_none; [done|]. apply elem_all_procs.
Qed.


(** ** Examples *)

(** A table in which process 1, pid 7, sleeps on [ticks]. *)
Definition demo_sleeper : proc :=
  with_lock (initlock "proc") (with_pid 7 (with_chan chTicks (with_state SLEEPING proc0))).
Definition demo_procs : vec proc 64 :=
  fun_to_vec (fun p => if decide (p = 1%fin) then demo_sleeper else with_lock (initlock "proc") proc0).
Definition demo_pst (h : hart) : pst :=
  Pst (Kst h ∅ (initlock "kmem") 0) demo_procs 8 (initlock "nextpid") (initlock "wait_lock")
      (Some 0%fin) 0 (initlock "time") 0 tty0.

Lemma demo_pproc h p :
  pproc (demo_pst h) p = if decide (p = 1%fin) then demo_sleeper else with_lock (initlock "proc") proc0.
Proof. unfold pproc. cbn. apply lookup_fun_to_vec. Qed.

Lemma demo_unlocked L h : hart_stable h -> unlocked L (demo_pst h).
Proof. intros Hh. split; [done|]. intros p _. rewrite demo_pproc. by case_decide. Qed.

Lemma wakeup_spec_witness :
  exists s', wakeup chTicks (demo_pst demo_hart) = Ok tt s' /\ (pproc s' 1%fin).(p_state) = RUNNABLE.
Proof.
  destruct (wakeup_spec chTicks (demo_pst demo_hart)) as (s' & E & _ & Hp).
  - apply demo_unlocked, demo_hart_stable.
  - exists s'. split; [exact E|]. rewrite Hp. rewrite demo_pproc. reflexivity.
Defined.

Lemma kill_spec_witness :
  exists s', kill 7 (demo_pst demo_hart) = Ok 0 s' /\ kill 9 (demo_pst demo_hart) = Ok (-1) (demo_pst demo_hart).
Proof.
  pose proof (demo_unlocked (fun _ => False) _ demo_hart_stable) as Hu.
  destruct (kill_spec 7 (demo_pst demo_hart) Hu) as [(p & s' & E & _)|[Hn _]].
  - exists s'. split; [exact E|].
    destruct (kill_spec 9 (demo_pst demo_hart) Hu) as [(q & s2 & _ & Hq & _)|[_ E9]]; [|exact E9].
    exfalso. rewrite demo_pproc in Hq. destruct (decide (q = 1%fin)); discriminate Hq.
  - exfalso. apply (Hn 1%fin). rewrite demo_pproc. reflexivity.
Defined.

(** A component with one lock on top of the process table. *)
#[local] Instance demo_HasProcs : HasProcs (pst * spinlock) := Lens fst (fun t s => (t, s.2)).
#[local] Instance demo_HasProcs_laws : LensLaws (the_pst (S := pst * spinlock)).
Proof. split; by intros; destruct s. Qed.
Definition demo_lock_l : lens (pst * spinlock) spinlock := Lens snd (fun l s => (s.1, l)).
#[local] Instance demo_lock_laws : LensLaws demo_lock_l.
Proof. split; by intros; destruct s. Qed.
#[local] Instance demo_lock_disjoint : LensDisjoint (the_pst (S := pst * spinlock)) demo_lock_l.
Proof. by split. Qed.

(** Process 2 runs with the lock held. *)
Definition demo_running : hart := with_cpu_proc (Some 2%fin) (push_off_h demo_hart).

