(* ===== verification/ProcMem.v ===== *)
(** * The address space of a process

    proc_pagetable and proc_freepagetable of kernel/proc.c: a process's
    address space has the trampoline and the trapframe mapped at its top, and
    building or freeing it neither leaks nor loses a page, whichever
    allocation fails. *)

From S2P Require Import Prelude Riscv Memory Spinlock Kalloc Vm Pagetable Uvm Uspace Freewalk Uvmcopy Copy Aspace Tty Proc.

Section ProcMem.
Context `{ImageOk}.

(** Unmapping one page without freeing it. *)
Lemma uvmunmap_one s root F T U va :
  vinv s root F T U -> page_aligned va -> 0 <= va -> va + PGSIZE <= MAXVA -> U !! va = None ->
  valid (pte_of s.(k_mem) T va) -> Z.land (pte_of s.(k_mem) T va) PTE_R <> 0 ->
  exists s', uvmunmap root va 1 false s = Ok tt s' /\ vinv s' root F T U /\
    (forall a, 0 <= a < MAXVA -> pte_of s'.(k_mem) T a = clear_view (pte_of s.(k_mem) T) va 1 a) /\
    s'.(k_hart) = s.(k_hart) /\ frame (pages_of T) s.(k_mem) s'.(k_mem).
Proof.
  intros Hv Ha Ha0 HM HU Hval Hr.
  destruct (uvmunmap_step s root F T U va (va + PGSIZE) false Hv Ha ltac:(clia) ltac:(clia) HU)
    as (s' & Hb & Hv' & Hview & Hh & Hf); try done.
  exists s'. split; [|done]. unfold uvmunmap. replace (va mod PGSIZE) with 0 by done.
  cbn [nz negb Z.eqb]. rewrite Z.mul_1_l, u64_small by clia. change (Z.to_nat 1 + 1)%nat with 2%nat.
  rewrite loop_S, Hb. cbn [obind]. rewrite loop_S. unfold uvmunmap_body.
  destruct (Z.ltb_spec (va + PGSIZE) (va + PGSIZE)); [lia|done].
Qed.

(** The leaf entries of the two pages at the top. *)
Definition trampoline_pte : Z := Z.lor (Z.lor (PA2PTE trampoline) (Z.lor PTE_R PTE_X)) PTE_V.
Definition trapframe_pte (tf : Z) : Z := Z.lor (Z.lor (PA2PTE tf) (Z.lor PTE_R PTE_W)) PTE_V.

(** The address space of a process of size [sz] with trapframe [tf]. *)
Record pspace (s : kst) (root : Z) (F : list Z) (T : ptree) (U : gmap Z Z) (sz tf : Z) : Prop := {
  psp_vinv : vinv s root F T U;
  psp_covers : covers U sz;
  psp_sz : 0 <= sz <= TRAPFRAME;
  psp_trampoline : pte_of s.(k_mem) T TRAMPOLINE = trampoline_pte;
  psp_trapframe : pte_of s.(k_mem) T TRAPFRAME = trapframe_pte tf;
  psp_rest : forall va, PGROUNDUP sz <= va < TRAPFRAME -> ~ valid (pte_of s.(k_mem) T va)
}.

Lemma leaf_readable pa x :
  page_aligned pa -> 0 <= pa < 2 ^ 56 -> 0 <= x < 2 ^ 10 ->
  let pte := Z.lor (Z.lor (PA2PTE pa) (Z.lor PTE_R x)) PTE_V in
  valid pte /\ Z.land pte PTE_R <> 0.
Proof.
  intros Ha Hr Hx pte. assert (Hp : 0 <= Z.lor PTE_R x < 2 ^ 10) by (apply lor_range; clia).
  destruct (map_pte pa _ Ha Hr Hp) as (_ & Hval & _ & Hfl). split; [done|].
  change PTE_R with (Z.shiftl 1 1). unfold pte. rewrite (land_flag _ 1) by lia.
  change (Z.shiftl 1 1) with PTE_R. rewrite Hfl. rewrite !Z.land_lor_distr_l.
  intros [[E _]%Z.lor_eq_0_iff _]%Z.lor_eq_0_iff. done.
Qed.

Lemma trampoline_ok : page_aligned trampoline /\ 0 <= trampoline /\ trampoline + PGSIZE <= 2 ^ 56.
Proof.
  pose proof trampoline_range. pose proof etext_range. pose proof kend_range.
  split; [apply trampoline_aligned|]. clia.
Qed.

Lemma map_view_hit g va pa perm :
  page_aligned va -> map_view g va 1 pa perm va = Z.lor (Z.lor (PA2PTE pa) perm) PTE_V.
Proof.
  intros Ha. unfold map_view. rewrite decide_True by clia. do 3 f_equal.
  rewrite PGROUNDDOWN_spec. unfold page_aligned in Ha. lia.
Qed.

(** ** proc_pagetable *)

(** Freeing an empty address space after a failure. *)
Lemma free_empty s root F T :
  vinv s root F T ∅ -> (forall va, 0 <= va < MAXVA -> ~ valid (pte_of s.(k_mem) T va)) ->
  exists s' F', uvmfree root 0 s = Ok tt s' /\ kinv s' F' /\ F' ≡ₚ F ++ pages_of T /\
    s'.(k_hart) = s.(k_hart) /\ frame (F ++ pages_of T) s.(k_mem) s'.(k_mem).
Proof.
  intros Hv Hn. assert (Eo : owned F T ∅ = F ++ pages_of T).
  { unfold owned. unfold pages_of at 2. rewrite map_to_list_empty. cbn. by rewrite app_nil_r. }
  destruct (uvmfree_all s root F T ∅ 0 Hv) as (s' & F' & E & Hk & Hp & Hh & Hf).
  - intros va. rewrite lookup_empty. split; [intros [? [=]]|lia].
  - clia.
  - intros va Hva. apply Hn. change (PGROUNDUP 0) with 0 in Hva. lia.
  - rewrite Eo in *. by exists s', F'.
Qed.

Lemma clear_invalid g va n a : ~ valid (g a) -> ~ valid (clear_view g va n a).
Proof. unfold clear_view. case_decide; [by intros _ []|done]. Qed.

(** What [proc_pagetable] returns, with the pages it has used. *)
Definition pagetable_result (s : kst) (F : list Z) (tf : Z) (r : Z) (s' : kst) : Prop :=
  s'.(k_hart) = s.(k_hart) /\ frame F s.(k_mem) s'.(k_mem) /\
  (r <> 0 /\ (exists F' T, pspace s' r F' T ∅ 0 tf /\ F' ++ pages_of T ≡ₚ F) \/
   r = 0 /\ exists F', kinv s' F' /\ F' ≡ₚ F).

(** Mapping one page of the top of an empty address space. *)
Lemma map_top s root F T va pa x :
  vinv s root F T ∅ -> page_aligned va -> 0 <= va -> va + PGSIZE <= MAXVA ->
  page_aligned pa -> 0 <= pa -> pa + PGSIZE <= 2 ^ 56 -> 0 <= x < 2 ^ 10 ->
  ~ valid (pte_of s.(k_mem) T va) ->
  exists r s' F' T', mappages root va PGSIZE pa x s = Ok r s' /\
    (r = 0 /\ vext s root F T ∅ s' F' T' (map_view (pte_of s.(k_mem) T) va 1 pa x) \/
     r = -1 /\ vext s root F T ∅ s' F' T' (pte_of s.(k_mem) T)).
Proof.
  intros Hv Ha Ha0 HM Hpa Hpa0 HpM Hx Hn.
  destruct (mappages_vext s root F T ∅ va 1 pa x) as (r & s' & F' & T' & k & E & Hx' & _ & Hr);
    try done; try lia.
  { intros a Hra. rewrite (pte_of_page _ _ a va); [done|clia|clia|].
    unfold same_page, page_aligned in *. cdlia. }
  rewrite Z.mul_1_l in E. exists r, s', F', T'. split; [done|].
  destruct Hr as [[-> ->]|(-> & _ & Hk & _)]; [by left|right]. split; [done|].
  eapply vext_view; [exact Hx'|]. intros a Hra. replace k with 0 by lia. apply map_view_0.
Qed.

Lemma TRAMPOLINE_ok : page_aligned TRAMPOLINE /\ 0 <= TRAMPOLINE /\ TRAMPOLINE + PGSIZE <= MAXVA.
Proof. split_and!; try clia. reflexivity. Qed.
Lemma TRAPFRAME_ok : page_aligned TRAPFRAME /\ 0 <= TRAPFRAME /\ TRAPFRAME + PGSIZE <= MAXVA.
Proof. split_and!; try clia. reflexivity. Qed.

(** The second mapping and its failure path. *)
Lemma pagetable_trapframe s root F T tf :
  vinv s root F T ∅ ->
  (forall va, 0 <= va < MAXVA -> pte_of s.(k_mem) T va =
     map_view (fun _ => 0) TRAMPOLINE 1 trampoline (Z.lor PTE_R PTE_X) va) ->
  page_ok tf -> root <> 0 ->
  exists r s', (r <- mappages root TRAPFRAME PGSIZE tf (Z.lor PTE_R PTE_W) ;;
                if r <? 0 then uvmunmap root TRAMPOLINE 1 false ;; uvmfree root 0 ;; ret 0
                else ret root) s = Ok r s' /\
    pagetable_result s (F ++ pages_of T) tf r s'.
Proof.
  intros Hv Hview Htf Hroot. destruct TRAMPOLINE_ok as (Ht1 & Ht2 & Ht3).
  destruct TRAPFRAME_ok as (Hf1 & Hf2 & Hf3). destruct trampoline_ok as (Ha1 & Ha2 & Ha3).
  pose proof (page_pos tf Htf). pose proof Htf as [Htfa Htfr].
  destruct (map_top s root F T TRAPFRAME tf (Z.lor PTE_R PTE_W) Hv Hf1 Hf2 Hf3 Htfa)
    as (r & s1 & F1 & T1 & E & Hr); [lia|clia|done| |].
  { rewrite Hview by clia. unfold map_view. rewrite decide_False by clia. by intros []. }
  cbn [bind]. rewrite E. cbn [obind]. destruct Hr as [[-> Hx]|[-> Hx]].
  - exists root, s1. split; [done|]. split; [apply Hx|]. split; [apply Hx|]. left. split; [done|].
    exists F1, T1. split; [|apply Hx]. pose proof (ve_pte _ _ _ _ _ _ _ _ _ Hx) as Hp. split.
    + apply Hx.
    + intros va. rewrite lookup_empty. split; [intros [? [=]]|lia].
    + clia.
    + rewrite Hp by clia. unfold map_view at 1. rewrite decide_False by clia.
      rewrite Hview, map_view_hit by (done || clia). done.
    + rewrite Hp, map_view_hit by (done || clia). done.
    + intros va Hva. change (PGROUNDUP 0) with 0 in Hva. rewrite Hp by clia.
      unfold map_view at 1. rewrite decide_False by clia.
      rewrite Hview by clia. unfold map_view. rewrite decide_False by clia. by intros [].
  - cbn [Z.ltb Z.compare]. pose proof (ve_vinv _ _ _ _ _ _ _ _ _ Hx) as Hv1.
    destruct (leaf_readable trampoline PTE_X Ha1 ltac:(clia) ltac:(clia)) as [Hval Hrd].
    assert (Epte : pte_of s1.(k_mem) T1 TRAMPOLINE = trampoline_pte).
    { rewrite (ve_pte _ _ _ _ _ _ _ _ _ Hx), Hview, map_view_hit by (done || clia). done. }
    destruct (uvmunmap_one s1 root F1 T1 ∅ TRAMPOLINE Hv1 Ht1 Ht2 Ht3 (lookup_empty _))
      as (s2 & E2 & Hv2 & Hview2 & Hh2 & Hf2'); [by rewrite Epte..|].
    destruct (free_empty s2 root F1 T1 Hv2) as (s3 & F3 & E3 & Hk3 & Hp3 & Hh3 & Hf3').
    { intros va Hva. rewrite Hview2 by done. unfold clear_view. case_decide as Ec; [by intros []|].
      rewrite (ve_pte _ _ _ _ _ _ _ _ _ Hx), Hview by done. unfold map_view.
      rewrite decide_False by done. by intros []. }
    cbn [bind]. rewrite E2. cbn [bind obind]. rewrite E3. cbn. exists 0, s3. split; [done|].
    split; [by rewrite Hh3, Hh2, (ve_hart _ _ _ _ _ _ _ _ _ Hx)|]. split.
    + eapply frame_trans; [apply Hx|]. eapply frame_trans.
      * eapply frame_incl; [|exact Hf2']. intros a Hin. rewrite <- (ve_perm _ _ _ _ _ _ _ _ _ Hx). lelem.
      * eapply frame_incl; [|exact Hf3']. intros a Hin. by rewrite <- (ve_perm _ _ _ _ _ _ _ _ _ Hx).
    + right. split; [done|]. exists F3. split; [done|]. by rewrite Hp3, (ve_perm _ _ _ _ _ _ _ _ _ Hx).
Qed.

Lemma pagetable_result_weaken s s0 F L tf r s' :
  s.(k_hart) = s0.(k_hart) -> frame L s0.(k_mem) s.(k_mem) -> F ≡ₚ L ->
  pagetable_result s F tf r s' -> pagetable_result s0 L tf r s'.
Proof.
  intros Hh Hf Hp (Hh' & Hf' & Hr). split; [by rewrite Hh'|]. split.
  - eapply frame_trans; [exact Hf|]. eapply frame_incl; [|exact Hf']. intros x. by rewrite Hp.
  - destruct Hr as [(Hnz & F' & T & Hps & Hperm)|(-> & F' & Hk & Hperm)]; [left|right]; (split; [done|]).
    + exists F', T. split; [done|]. by rewrite Hperm.
    + exists F'. split; [done|]. by rewrite Hperm.
Qed.

Lemma proc_pagetable_cases s F tf :
  kinv s F -> page_ok tf ->
  exists r s', proc_pagetable tf s = Ok r s' /\ pagetable_result s F tf r s'.
Proof.
  intros Hk Htf. unfold proc_pagetable. destruct F as [|q F].
  { unfold uvmcreate. cbn [bind]. rewrite (kalloc_nil s Hk). cbn. exists 0, s. split; [done|].
    split; [done|]. split; [done|]. right. split; [done|]. by exists []. }
  destruct (uvmcreate_vinv s q F Hk) as (s1 & E1 & Hv1 & Hview1 & Hp1 & Hh1 & Hf1).
  assert (Ep : F ++ pages_of ({[ [] := q ]} : ptree) ≡ₚ q :: F).
  { rewrite <- Hp1. unfold owned. unfold pages_of at 3. rewrite map_to_list_empty. cbn.
    by rewrite app_nil_r. }
  destruct TRAMPOLINE_ok as (Ht1 & Ht2 & Ht3). destruct trampoline_ok as (Ha1 & Ha2 & Ha3).
  cbn [bind]. rewrite E1. cbn [bind obind].
  assert (Hq : q <> 0) by (inversion Hk as [_ _ _ _ Hp]; inversion Hp; subst; pose proof (page_pos q ltac:(done)); lia).
  destruct (Z.eqb_spec q 0); [done|]. cbn [bind].
  destruct (map_top s1 q F _ TRAMPOLINE trampoline (Z.lor PTE_R PTE_X) Hv1 Ht1 Ht2 Ht3 Ha1 Ha2 Ha3)
    as (r & s2 & F2 & T2 & E2 & Hr); [done|rewrite Hview1 by clia; by intros []|].
  rewrite E2. cbn [obind]. destruct Hr as [[-> Hx]|[-> Hx]]; cbn [Z.ltb Z.compare].
  - destruct (pagetable_trapframe s2 q F2 T2 tf (ve_vinv _ _ _ _ _ _ _ _ _ Hx)) as (r & s' & E & Hres);
      [|done|done|].
    { intros va Hva. rewrite (ve_pte _ _ _ _ _ _ _ _ _ Hx) by done. by apply map_view_ext, Hview1. }
    exists r, s'. split; [exact E|]. eapply pagetable_result_weaken; [| | |exact Hres].
    + by rewrite (ve_hart _ _ _ _ _ _ _ _ _ Hx), Hh1.
    + eapply frame_trans; [eapply frame_incl; [|exact Hf1]; intros x; lelem|].
      eapply frame_incl; [|apply Hx]. intros x. by rewrite Ep.
    + by rewrite (ve_perm _ _ _ _ _ _ _ _ _ Hx), Ep.
  - destruct (free_empty s2 q F2 T2 (ve_vinv _ _ _ _ _ _ _ _ _ Hx)) as (s3 & F3 & E3 & Hk3 & Hp3 & Hh3 & Hf3).
    { intros va Hva. rewrite (ve_pte _ _ _ _ _ _ _ _ _ Hx), Hview1 by done. by intros []. }
    cbn [bind]. rewrite E3. cbn. exists 0, s3. split; [done|].
    eapply (pagetable_result_weaken s2); [| | |split; [done|]; split; [exact Hf3|]; right; split; [done|]; by exists F3].
    + by rewrite (ve_hart _ _ _ _ _ _ _ _ _ Hx), Hh1.
    + eapply frame_trans; [eapply frame_incl; [|exact Hf1]; intros x; lelem|].
      eapply frame_incl; [|apply Hx]. intros x. by rewrite Ep.
    + by rewrite (ve_perm _ _ _ _ _ _ _ _ _ Hx), Ep.
Qed.

(** ** proc_freepagetable *)

Lemma proc_freepagetable_all s root F T U sz tf :
  pspace s root F T U sz tf -> page_ok tf ->
  exists s' F', proc_freepagetable root sz s = Ok tt s' /\ kinv s' F' /\ F' ≡ₚ owned F T U /\
    s'.(k_hart) = s.(k_hart) /\ frame (owned F T U) s.(k_mem) s'.(k_mem).
Proof.
  intros [Hv Hc Hsz Ht Hf Hr] Htf. destruct TRAMPOLINE_ok as (Ht1 & Ht2 & Ht3).
  destruct TRAPFRAME_ok as (Hf1 & Hf2 & Hf3). destruct trampoline_ok as (Ha1 & Ha2 & Ha3).
  pose proof (page_pos tf Htf). pose proof Htf as [Htfa Htfr].
  assert (Hno : forall va, TRAPFRAME <= va -> U !! va = None).
  { intros va Hva. destruct (U !! va) as [pa|] eqn:E; [|done]. destruct (Hc va) as [Hc1 _].
    destruct Hc1; [eauto|lia]. }
  destruct (leaf_readable trampoline PTE_X Ha1 ltac:(clia) ltac:(clia)) as [Hval Hrd].
  destruct (leaf_readable tf PTE_W Htfa ltac:(clia) ltac:(clia)) as [Hval' Hrd'].
  destruct (uvmunmap_one s root F T U TRAMPOLINE Hv Ht1 Ht2 Ht3) as (s1 & E1 & Hv1 & Hview1 & Hh1 & Hfr1);
    [apply Hno; clia|by rewrite Ht..|].
  destruct (uvmunmap_one s1 root F T U TRAPFRAME Hv1 Hf1 Hf2 Hf3) as (s2 & E2 & Hv2 & Hview2 & Hh2 & Hfr2);
    [apply Hno; lia|rewrite Hview1 by clia; unfold clear_view; rewrite decide_False, Hf by clia; done..|].
  destruct (PGROUNDUP_bounds sz ltac:(clia)) as (Hal & Hb & HM).
  destruct (uvmfree_all s2 root F T U sz Hv2 Hc ltac:(clia)) as (s3 & F3 & E3 & Hk3 & Hp3 & Hh3 & Hfr3).
  { intros va Hva. rewrite Hview2 by lia. unfold clear_view at 1. case_decide; [by intros []|].
    rewrite Hview1 by lia. unfold clear_view. case_decide; [by intros []|]. apply Hr. clia. }
  unfold proc_freepagetable. cbn [bind]. rewrite E1. cbn [bind obind]. rewrite E2. cbn [bind obind].
  exists s3, F3. split; [done|]. split; [done|]. split; [done|]. split; [by rewrite Hh3, Hh2|].
  eapply frame_trans; [eapply frame_incl; [|exact Hfr1]|eapply frame_trans; [eapply frame_incl; [|exact Hfr2]|exact Hfr3]];
    intros x Hx; unfold owned; lelem.
Qed.

End ProcMem.
