(* ===== verification/AllocProc.v ===== *)
(** * Allocating and freeing processes

    allocproc and freeproc of kernel/proc.c: the slot they take, the pages
    they use, and that a failure at any point gives everything back. *)

From S2P Require Import Prelude Riscv Memory Spinlock Kalloc Vm Pagetable Uvm Uspace Freewalk Uvmcopy Copy Aspace Proc ProcSpec Tty ProcMem.

(** A memory state on another hart. *)
Definition khart (h : hart) (k : kst) : kst := Kst h k.(k_mem) k.(kmem_lock) k.(freelist).

Definition put_k (k : kst) (s : pst) : pst := put p_k_l k s.

Section AllocProc.
Context `{ImageOk}.

Lemma kinv_hart h k F : kinv k F -> hart_stable h -> kinv (khart h k) F.
Proof. intros [H1 H2 H3 H4 H5] Hh. by split. Qed.

Lemma vinv_hart h k root F T U : vinv k root F T U -> hart_stable h -> vinv (khart h k) root F T U.
Proof. intros [H1 H2 H3 H4 H5 H6 H7] Hh. by split. Qed.

Lemma pspace_hart h k root F T U sz tf :
  pspace k root F T U sz tf -> hart_stable h -> pspace (khart h k) root F T U sz tf.
Proof. intros [H1 H2 H3 H4 H5 H6] Hh. split; try done. by apply vinv_hart. Qed.

Lemma push_stable h : hart_stable h -> hart_stable (push_off_h h).
Proof.
  intros [Hok _]. split; [by apply push_off_ok|]. rewrite push_off_noff. destruct Hok. lia.
Qed.

(** Code of the memory layer that runs with [p->lock] held. *)
Lemma zoom_locked {A : Type} (m : M kst A) p x s a k' :
  m (khart (push_off_h (phart s)) s.(p_k)) = Ok a k' -> k'.(k_hart) = push_off_h (phart s) ->
  zoom p_k_l m (lk_st p x s) = Ok a (lk_st p x (put_k (khart (phart s) k') s)).
Proof.
  intros E Eh. rewrite (zoom_ok _ _ _ a k'); [|exact E]. f_equal. unfold lk_st, put_k, phart in *.
  destruct s as [[] ? ? ? ? ? ? ? ? ?], k'. cbn in *. by subst.
Qed.

Lemma phart_put_k k s : phart (put_k k s) = k.(k_hart).
Proof. done. Qed.
Lemma pproc_put_k k s p : pproc (put_k k s) p = pproc s p.
Proof. done. Qed.

(** ** allocpid *)

Definition next_pid (s : pst) : pst := put nextpid_l (s32 (s.(nextpid) + 1)) s.

Lemma allocpid_eq s :
  hart_stable (phart s) -> lock_free s.(pid_lock) -> allocpid s = Ok s.(nextpid) (next_pid s).
Proof.
  intros Hh Hl. unfold allocpid. cbn [bind]. rewrite (acquire_eq pid_lock_l) by done.
  cbn [bind obind get gets set modify].
  pose proof (release_held pid_lock_l (phart s) s.(pid_lock) (next_pid s) Hh Hl) as E.
  unfold next_pid, phart in *. destruct s as [[] ? ? ? ? ? ? ? ? ?]. cbn in E |- *.
  rewrite E. done.
Qed.

(** ** The search *)

Fixpoint find_unused (s : pst) (l : list (fin 64)) : option (fin 64) :=
  match l with
  | [] => None
  | p :: l' => if decide ((pproc s p).(p_state) = UNUSED) then Some p else find_unused s l'
  end.

Lemma allocproc_find_eq s :
  unlocked (fun _ => False) s ->
  allocproc_find s = match find_unused s all_procs with
                     | Some p => Ok (Some p) (lk_st p (pproc s p) s)
                     | None => Ok None s
                     end.
Proof.
  intros [Hh Hl]. unfold allocproc_find. induction all_procs as [|p l IH]; [done|].
  cbn [find_unused for_each bind]. rewrite acquire_proc by auto. cbn [bind obind].
  rewrite get_locked_m. cbn [bind obind p_state with_lock]. case_decide; [done|].
  cbn [bind]. rewrite (release_proc s Hh) by exact (Hl p (fun H => H)). rewrite put_proc_id. exact IH.
Qed.

Lemma find_unused_some s l p : find_unused s l = Some p -> (pproc s p).(p_state) = UNUSED.
Proof. induction l as [|q l IH]; cbn; [done|]. case_decide; [by intros [= <-]|auto]. Qed.

Lemma find_unused_none s l : find_unused s l = None -> forall p, p ∈ l -> (pproc s p).(p_state) <> UNUSED.
Proof.
  induction l as [|q l IH]; cbn; [intros _ p []%elem_of_nil|].
  case_decide; [done|]. intros E p [->|Hp]%elem_of_cons; auto.
Qed.

(** ** freeproc *)

(** The fields of a freed slot. *)
Definition freed (x : proc) : proc :=
  with_state UNUSED (with_xstate 0 (with_killed 0 (with_chan ch0
    (with_name (<[0%nat := 0]> x.(p_name)) (with_parent None (with_pid 0
      (with_sz 0 (with_pagetable 0 (with_trapframe 0 x))))))))).

(** What a process owns besides the slot: nothing yet, a trapframe, or a
    trapframe and an address space. *)
Inductive powns (k : kst) (x : proc) (F : list Z) : list Z -> Prop :=
| po_none : kinv k F -> x.(p_trapframe) = 0 -> x.(p_pagetable) = 0 -> powns k x F []
| po_tf : kinv k F -> x.(p_pagetable) = 0 -> page_ok x.(p_trapframe) -> (x.(p_trapframe) ∉ F) ->
    powns k x F [x.(p_trapframe)]
| po_space T U : pspace k x.(p_pagetable) F T U x.(p_sz) x.(p_trapframe) -> x.(p_pagetable) <> 0 ->
    page_ok x.(p_trapframe) -> (x.(p_trapframe) ∉ owned F T U) ->
    powns k x F (x.(p_trapframe) :: pages_of T ++ pages_of U).

Lemma powns_hart h k x F L : powns k x F L -> hart_stable h -> powns (khart h k) x F L.
Proof.
  intros [Hk Ht Hp|Hk Hp Ht Hn|T U Hs Hp Ht Hn] Hh.
  - apply po_none; [by apply kinv_hart|done|done].
  - apply po_tf; try done. by apply kinv_hart.
  - apply po_space; try done. by apply pspace_hart.
Qed.

(** The memory part of [freeproc]. *)
Definition freeproc_mem (x : proc) : M kst unit :=
  (if nz x.(p_trapframe) then kfree x.(p_trapframe) else ret tt) ;;
  (if nz x.(p_pagetable) then proc_freepagetable x.(p_pagetable) x.(p_sz) else ret tt).

Lemma freeproc_mem_ok k x F L :
  powns k x F L ->
  exists k1 k2 F', (if nz x.(p_trapframe) then kfree x.(p_trapframe) else ret tt) k = Ok tt k1 /\
    (if nz x.(p_pagetable) then proc_freepagetable x.(p_pagetable) x.(p_sz) else ret tt) k1 = Ok tt k2 /\
    k1.(k_hart) = k.(k_hart) /\ k2.(k_hart) = k.(k_hart) /\ kinv k2 F' /\ F' ≡ₚ F ++ L /\
    frame (F ++ L) k.(k_mem) k2.(k_mem).
Proof.
  intros [Hk Ht Hp|Hk Hp Ht Hn|T U Hs Hp Ht Hn].
  - rewrite Ht, Hp. cbn. exists k, k, F. by rewrite app_nil_r.
  - rewrite Hp. pose proof (page_pos _ Ht).
    replace (nz (p_trapframe x)) with true by (symmetry; apply nz_true; lia).
    destruct (kfree_inv k F _ Hk Ht Hn) as (k1 & E & Hk1 & Hh & Hf). rewrite E. cbn.
    exists k1, k1, (p_trapframe x :: F). split_and!; try done.
    + apply Permutation_cons_append.
    + apply frame_page in Hf. eapply frame_incl; [|exact Hf]. intros a. lelem.
  - pose proof (page_pos _ Ht). replace (nz (p_trapframe x)) with true by (symmetry; apply nz_true; lia).
    replace (nz (p_pagetable x)) with true by (symmetry; by apply nz_true).
    destruct Hs as [Hv Hc Hsz Q1 Q2 Q3].
    destruct (vinv_kfree k _ _ F T U Hv Ht Hn) as (k1 & E & Hv1 & Hview & Hh & Hf). rewrite E.
    destruct (proc_freepagetable_all k1 (p_pagetable x) (p_trapframe x :: F) T U (p_sz x) (p_trapframe x))
      as (k2 & F' & E2 & Hk2 & Hp2 & Hh2 & Hf2); [|done|].
    { split; try done; [by rewrite Hview..|]. intros va Hva. rewrite Hview. by apply Q3. }
    exists k1, k2, F'. split; [done|]. split; [done|]. split; [done|]. split; [by rewrite Hh2|].
    split; [done|]. split; [rewrite Hp2; unfold owned; cbn; apply Permutation_middle|].
    eapply frame_trans; (eapply frame_incl; [|eassumption]); intros a; unfold owned; lelem.
Qed.

(** [freeproc] gives back all the pages of the process and clears its slot. *)
Lemma freeproc_eq s p x F L :
  hart_stable (phart s) -> powns s.(p_k) x F L ->
  exists k' F', freeproc p (lk_st p x s) = Ok tt (lk_st p (freed x) (put_k k' s)) /\
    k'.(k_hart) = phart s /\ kinv k' F' /\ F' ≡ₚ F ++ L /\ frame (F ++ L) s.(p_k).(k_mem) k'.(k_mem).
Proof.
  intros Hh Ho. pose proof (powns_hart (push_off_h (phart s)) _ _ _ _ Ho (push_stable _ Hh)) as Ho'.
  destruct (freeproc_mem_ok _ _ _ _ Ho') as (k1 & k2 & F' & E1 & E2 & Hh1 & Hh2 & Hk2 & Hp2 & Hf2).
  unfold freeproc. cbn [bind]. rewrite get_locked_m. cbn [bind obind p_trapframe p_pagetable p_sz with_lock].
  rewrite (zoom_if p_k_l), (zoom_locked _ _ _ _ _ _ E1 Hh1). cbn [bind obind].
  rewrite update_locked_m by done. cbn [bind obind]. rewrite (zoom_if p_k_l).
  rewrite (zoom_locked _ p (with_trapframe 0 x) (put_k (khart (phart s) k1) s) tt k2).
  - cbn [bind obind]. rewrite update_locked_m by done. exists (khart (phart s) k2), F'.
    split; [done|]. split; [done|]. split; [by apply kinv_hart|]. done.
  - rewrite <- E2. f_equal. cbn. unfold phart in Hh1. destruct k1; cbn in *. by subst.
  - done.
Qed.

(** ** allocproc *)

(** The slot after a successful [allocproc]. *)
Definition allocated (pid tf pt : Z) (x : proc) : proc :=
  with_context (Context forkret_addr (u64 (x.(p_kstack) + PGSIZE)) (replicate 12 0))
    (with_pagetable pt (with_trapframe tf (with_state USED (with_pid pid x)))).

(** The slot that [allocproc] gives up for want of memory. *)
Definition given_up (pid : Z) (x : proc) : proc := freed (with_state USED (with_pid pid x)).

Lemma freed_trapframe tf x : freed (with_trapframe tf x) = freed x.
Proof. done. Qed.
Lemma freed_pagetable pt x : freed (with_pagetable pt x) = freed x.
Proof. done. Qed.

(** The outcome of [allocproc] when the slot [p] is free. *)
Definition alloc_result (s : pst) (p : fin 64) (F : list Z) (r : option (fin 64)) (s' : pst) : Prop :=
  exists k' F', k'.(k_hart) = phart s /\ frame F s.(p_k).(k_mem) k'.(k_mem) /\
  (r = Some p /\ (exists tf pt T,
      s' = lk_st p (allocated s.(nextpid) tf pt (pproc s p)) (put_k k' (next_pid s)) /\
      pspace k' pt F' T ∅ 0 tf /\ page_ok tf /\ (tf ∉ owned F' T ∅) /\ pt <> 0 /\
      tf :: F' ++ pages_of T ≡ₚ F) \/
   r = None /\ s' = put_proc p (given_up s.(nextpid) (pproc s p)) (put_k k' (next_pid s)) /\
      kinv k' F' /\ F' ≡ₚ F).

Lemma lk_next_pid p x s : next_pid (lk_st p x s) = lk_st p x (next_pid s).
Proof. done. Qed.

(** Failure: the slot is freed and unlocked. *)
Lemma give_back_slot s p x F L :
  hart_stable (phart s) -> powns s.(p_k) x F L -> lock_free x.(p_lock) ->
  exists k' F', (freeproc p ;; release (proc_lock p) ;; ret (None : option (fin 64))) (lk_st p x s) =
      Ok None (put_proc p (freed x) (put_k k' s)) /\
    k'.(k_hart) = phart s /\ kinv k' F' /\ F' ≡ₚ F ++ L /\ frame (F ++ L) s.(p_k).(k_mem) k'.(k_mem).
Proof.
  intros Hh Ho Hl. destruct (freeproc_eq s p x F L Hh Ho) as (k' & F' & E & Hk' & Hrest).
  exists k', F'. split; [|done]. cbn [bind]. rewrite E. cbn [bind obind].
  rewrite (release_proc (put_k k' s)); [done|by rewrite phart_put_k, Hk'|done].
Qed.

Lemma allocproc_found s p F :
  unlocked (fun _ => False) s -> lock_free s.(pid_lock) -> kinv s.(p_k) F ->
  find_unused s all_procs = Some p -> (pproc s p).(p_pagetable) = 0 ->
  exists r s', allocproc s = Ok r s' /\ alloc_result s p F r s'.
Proof.
  intros Hu Hpl Hk Hfind Hpt. pose proof Hu as [Hh Hl]. unfold allocproc. cbn [bind].
  rewrite allocproc_find_eq, Hfind by done. cbn [bind obind].
  rewrite allocpid_eq by (done || by apply push_stable). rewrite lk_next_pid. cbn [bind obind].
  rewrite update_locked_m by done. cbn [bind obind nextpid].
  set (x1 := with_state USED (with_pid (nextpid s) (pproc s p))). set (s1 := next_pid s).
  change (nextpid (lk_st p (pproc s p) s)) with (nextpid s). fold x1.
  assert (Hlp : lock_free (p_lock x1)) by exact (Hl p (fun H => H)).
  pose proof (kinv_hart (push_off_h (phart s1)) _ _ Hk (push_stable _ Hh)) as Hk1.
  destruct F as [|tf F].
  - rewrite (zoom_locked _ _ _ _ _ _ (kalloc_nil _ Hk1) eq_refl). cbn [bind obind Z.eqb].
    rewrite update_locked_m by done. cbn [obind].
    set (s2 := put_k _ s1).
    destruct (give_back_slot s2 p (with_trapframe 0 x1) [] []) as (k' & F' & E & Eh & Hk' & Hp & Hf);
      [done|apply po_none; [by apply (kinv_hart (phart s1)) in Hk1|done|done]|done|].
    exists None, (put_proc p (freed (with_trapframe 0 x1)) (put_k k' s2)). split; [exact E|].
    exists k', F'. split; [done|]. split; [done|]. by right.
  - destruct (kalloc_inv _ _ _ Hk1) as (k1 & Ea & Hk2 & Htf & Htn & Eh1 & Hf1 & _).
    rewrite (zoom_locked _ _ _ _ _ _ Ea Eh1). cbn [bind obind].
    rewrite update_locked_m by done. cbn [obind]. pose proof (page_pos tf Htf).
    destruct (Z.eqb_spec tf 0); [lia|]. cbn [bind].
    set (s2 := put_k (khart (phart s1) k1) s1).
    assert (Ek : khart (push_off_h (phart s2)) (p_k s2) = k1).
    { unfold s2. cbn. destruct k1; cbn in Eh1 |- *. by subst. }
    destruct (proc_pagetable_cases k1 F tf Hk2 Htf) as (pt & k2 & Ep & Eh2 & Hf2 & Hres).
    rewrite <- Ek in Ep. rewrite (zoom_locked _ p (with_trapframe tf x1) s2 pt k2 Ep)
      by (rewrite Eh2, Eh1; done).
    cbn [bind obind]. rewrite update_locked_m by done. cbn [obind].
    set (s3 := put_k (khart (phart s2) k2) s2).
    assert (Hf12 : frame (tf :: F) (k_mem (p_k s)) (k_mem k2)).
    { eapply frame_trans; [eapply frame_incl; [|exact (frame_page _ _ _ Hf1)]|eapply frame_incl; [|exact Hf2]];
        intros a; lelem. }
    destruct Hres as [(Hnz & F' & T & Hps & Hperm)|(-> & F' & Hk' & Hperm)].
    + destruct (Z.eqb_spec pt 0); [done|]. cbn [bind]. rewrite update_locked_m by done. cbn.
      eexists _, _. split; [done|]. exists (khart (phart s) k2), F'. split; [done|]. split; [done|].
      left. split; [done|]. exists tf, pt, T. split; [done|]. split; [by apply pspace_hart|].
      split; [done|]. split; [|split; [done|by rewrite Hperm]].
      unfold owned. unfold pages_of at 2. rewrite map_to_list_empty. cbn. rewrite app_nil_r, Hperm. done.
    + cbn [Z.eqb]. destruct (give_back_slot s3 p (with_pagetable 0 (with_trapframe tf x1)) F' [tf])
        as (k' & F'' & E & Eh & Hk'' & Hp & Hf); [done| |done|].
      { apply po_tf; try done; [by apply kinv_hart|]. cbn. by rewrite Hperm. }
      exists None. eexists. split; [exact E|]. exists k', F''. split; [done|]. split.
      * eapply frame_trans; [exact Hf12|]. eapply frame_incl; [|exact Hf]. intros a. rewrite Hperm. lelem.
      * right. split; [done|]. split; [done|]. split; [done|]. rewrite Hp, Hperm.
        symmetry. apply Permutation_cons_append.
Qed.

End AllocProc.

(** ** Properties *)

Section AllocProcProperties.
Context `{ImageOk}.


(** C34: [freeproc], called with [p->lock] held, clears the slot and returns
    every page the process owned (trapframe, page tables, user memory) to the
    free list, each exactly once, touching no other memory. *)
Theorem freeproc_returns_pages (s : pst) (p : fin 64) (x : proc) (F L : list Z) :
  hart_stable (phart s) -> powns s.(p_k) x F L ->
  exists k' F', freeproc p (lk_st p x s) = Ok tt (lk_st p (freed x) (put_k k' s)) /\
    k'.(k_hart) = phart s /\ kinv k' F' /\ F' ≡ₚ F ++ L /\ frame (F ++ L) s.(p_k).(k_mem) k'.(k_mem).
Proof. apply freeproc_eq. Qed.

End AllocProcProperties.

(** ** Examples *)

#[local] Existing Instance demo_image12.
#[local] Existing Instance demo_image12_ok.

Lemma demo_kinv : exists k F, kinv k F /\ k.(k_hart) = demo_hart.
Proof.
  destruct (kinit_inv demo_kst demo_hart_stable eq_refl) as (k & F & _ & Hk & Hh & _). eauto.
Qed.

Definition demo_pst_k (k : kst) : pst := put_k k (demo_pst demo_hart).


Lemma freeproc_returns_pages_witness :
  exists k F tf k' F', freeproc 3%fin (lk_st 3%fin (with_trapframe tf proc0) (demo_pst_k k)) =
      Ok tt (lk_st 3%fin proc0 (put_k k' (demo_pst_k k))) /\ kinv k' F' /\ F' ≡ₚ F ++ [tf].
Proof.
  destruct demo_space as (k0 & q & F & _ & Hk & _).
  destruct (kalloc_inv k0 q F Hk) as (k & _ & Hk1 & Hq & Hn & _).
  destruct (freeproc_returns_pages (demo_pst_k k) 3%fin (with_trapframe q proc0) F [q])
    as (k' & F' & E & _ & Hk' & Hp & _).
  - apply Hk1.
  - apply po_tf; [exact Hk1|reflexivity|exact Hq|exact Hn].
  - exists k, F, q, k', F'. split; [exact E|]. split; [exact Hk'|exact Hp].
Defined.
