(* ===== verification/Sleeplock.v ===== *)
(** * Sleep locks (kernel/sleeplock.c)

    Over any state that contains the process layer and the lock.  The loop of
    [acquiresleep] is bounded by [patience], the number of times a process is
    woken without finding the lock free. *)

From S2P Require Import Prelude Riscv Memory Spinlock Kalloc Vm Tty Proc ProcSpec.

(** How often a process goes back to sleep in one system call. *)
Class Patience := patience : nat.

Record sleeplock := Sleeplock {
  sl_locked : Z;
  sl_lk : spinlock;
  sl_name : string;
  sl_pid : Z
}.

Definition with_sl_lk (lk : spinlock) (x : sleeplock) : sleeplock :=
  Sleeplock x.(sl_locked) lk x.(sl_name) x.(sl_pid).

Definition sl_lk_l : lens sleeplock spinlock := Lens sl_lk with_sl_lk.
#[export] Instance sl_lk_laws : LensLaws sl_lk_l.
Proof. by split; intros; destruct s. Qed.

Definition initsleeplock (name : string) : sleeplock := Sleeplock 0 (initlock "sleep lock") name 0.

Section SleepOps.
Context {S : Type} `{HasProcs S} `{Patience}.

Definition sl_spin (l : lens S sleeplock) : lens S spinlock := lcomp l sl_lk_l.

(** [myproc()->pid] *)
Definition mypid : M S Z :=
  p <- zoom the_pst myprocp ;;
  gets (fun s => (pproc (view the_pst s) p).(p_pid)).

(** [while(lk->locked) sleep(lk, &lk->lk);] *)
Definition acquiresleep_body (c : chan) (l : lens S sleeplock) (_ : unit) : M S (unit + unit) :=
  x <- get l ;;
  if nz x.(sl_locked) then
    sleep c (sl_spin l) ;;
    ret (inl tt)
  else ret (inr tt).

Definition acquiresleep (c : chan) (l : lens S sleeplock) : M S unit :=
  acquire (sl_spin l) ;;
  loop (Datatypes.S patience) (acquiresleep_body c l) tt ;;
  update l (fun x => Sleeplock 1 x.(sl_lk) x.(sl_name) x.(sl_pid)) ;;
  pid <- mypid ;;
  update l (fun x => Sleeplock x.(sl_locked) x.(sl_lk) x.(sl_name) pid) ;;
  release (sl_spin l).

Definition releasesleep (c : chan) (l : lens S sleeplock) : M S unit :=
  acquire (sl_spin l) ;;
  update l (fun x => Sleeplock 0 x.(sl_lk) x.(sl_name) x.(sl_pid)) ;;
  update l (fun x => Sleeplock x.(sl_locked) x.(sl_lk) x.(sl_name) 0) ;;
  zoom the_pst (wakeup c) ;;
  release (sl_spin l).

Definition holdingsleep (l : lens S sleeplock) : M S bool :=
  acquire (sl_spin l) ;;
  pid <- mypid ;;
  r <- gets (fun s => nz (view l s).(sl_locked) && ((view l s).(sl_pid) =? pid)) ;;
  release (sl_spin l) ;;
  ret r.

End SleepOps.
Arguments acquiresleep {S _ _} c l : simpl never.
Arguments releasesleep {S _} c l : simpl never.
Arguments holdingsleep {S _} l : simpl never.

(** ** Other processes waking up *)

(** Nothing changed but processes that were asleep and are now runnable. *)
Definition wakes (t t' : pst) : Prop :=
  t' = put procs_l t'.(procs) t /\
  forall p, pproc t' p = pproc t p \/
    ((pproc t p).(p_state) = SLEEPING /\ (phart t).(cpu_proc) <> Some p /\
     pproc t' p = with_state RUNNABLE (pproc t p)).

Lemma wakes_refl t : wakes t t.
Proof. split; [by destruct t|]. by left. Qed.

Lemma wakes_hart t t' : wakes t t' -> phart t' = phart t.
Proof. intros [-> _]. done. Qed.

Lemma wakes_k t t' : wakes t t' -> t'.(p_k) = t.(p_k).
Proof. intros [-> _]. done. Qed.

Lemma wakes_lock t t' p : wakes t t' -> (pproc t' p).(p_lock) = (pproc t p).(p_lock).
Proof. intros [_ Hp]. by destruct (Hp p) as [->|(_ & _ & ->)]. Qed.

Lemma wakes_pid t t' p : wakes t t' -> (pproc t' p).(p_pid) = (pproc t p).(p_pid).
Proof. intros [_ Hp]. by destruct (Hp p) as [->|(_ & _ & ->)]. Qed.

Lemma wakes_me t t' p : wakes t t' -> (phart t).(cpu_proc) = Some p -> pproc t' p = pproc t p.
Proof. intros [_ Hp] Hme. by destruct (Hp p) as [->|(_ & Hn & ->)]. Qed.

Lemma wakes_trans t1 t2 t3 : wakes t1 t2 -> wakes t2 t3 -> wakes t1 t3.
Proof.
  intros H12 H23. pose proof (wakes_hart _ _ H12) as Eh. destruct H12 as [E12 Hp12], H23 as [E23 Hp23]. split.
  - rewrite E23. rewrite E12 at 1. by destruct t1.
  - intros p. destruct (Hp23 p) as [->|(Hs & Hn & ->)]; [apply Hp12|].
    destruct (Hp12 p) as [E|(_ & _ & E)]; rewrite E in Hs; [|done].
    right. rewrite Eh in Hn. by rewrite E.
Qed.

Lemma wakes_wakeup c t :
  unlocked (fun p => (phart t).(cpu_proc) = Some p) t ->
  exists t', wakeup c t = Ok tt t' /\ wakes t t'.
Proof.
  intros Hu. eexists. split; [by apply wakeup_eq|]. split; [done|]. intros p. rewrite pproc_map.
  rewrite decide_True by apply elem_all_procs. unfold wake_other, wake.
  repeat case_decide; try (by left). right. tauto.
Qed.

Lemma unlocked_wakes L t t' : wakes t t' -> unlocked L t -> unlocked L t'.
Proof.
  intros Hw [Hh Hl]. split; [by rewrite (wakes_hart _ _ Hw)|].
  intros p Hp. rewrite (wakes_lock _ _ _ Hw). auto.
Qed.

(** A process is running and holds no process lock. *)
Definition running (p : fin 64) (t : pst) : Prop :=
  unlocked (fun _ => False) t /\ (phart t).(cpu_proc) = Some p.

Lemma running_wakes p t t' : wakes t t' -> running p t -> running p t'.
Proof.
  intros Hw [Hu Hp]. split; [by eapply unlocked_wakes|]. by rewrite (wakes_hart _ _ Hw).
Qed.

(** It may sleep: no lock is held, and its entry in the table says so. *)
Record thread (p : fin 64) (t : pst) : Prop := {
  th_run : running p t;
  th_noff : noff (phart t) = 0;
  th_state : (pproc t p).(p_state) = RUNNING;
  th_chan : (pproc t p).(p_chan) = ch0
}.

Lemma thread_wakes p t t' : wakes t t' -> thread p t -> thread p t'.
Proof.
  intros Hw [Hr Hn Hs Hc]. pose proof (wakes_me _ _ p Hw (proj2 Hr)) as E.
  split; [by eapply running_wakes|by rewrite (wakes_hart _ _ Hw)|by rewrite E|by rewrite E].
Qed.

(** ** Critical sections of a component above the process layer *)

Section Critical.
Context {S : Type} `{HasProcs S} `{!LensLaws (the_pst (S := S))}.
Context (lk : lens S spinlock) `{!LensLaws lk} `{!LensDisjoint (the_pst (S := S)) lk}.

#[local] Instance hart_disjoint : LensDisjoint (the_hart (S := S)) lk.
Proof. unfold the_hart, HasProcs_HasHart. apply _. Qed.
#[local] Instance hart_laws' : LensLaws (the_hart (S := S)).
Proof. unfold the_hart, HasProcs_HasHart. apply _. Qed.

(** The state inside the critical section: the lock and the hart, and the
    rest as in [s]. *)
Definition in_lock (s : S) : S :=
  put lk (held_by (phart (pv s)) (view lk s)) (put the_hart (push_off_h (phart (pv s))) s).

Lemma acquire_in s : lock_free (view lk s) -> acquire lk s = Ok tt (in_lock s).
Proof. intros Hl. exact (acquire_eq lk s Hl). Qed.

Lemma release_in s :
  hart_stable (phart (pv s)) -> lock_free (view lk s) -> release lk (in_lock s) = Ok tt s.
Proof.
  intros Hh Hl. pose proof (release_held lk (phart (pv s)) (view lk s) s Hh Hl) as E.
  unfold in_lock. rewrite E. unfold the_hart, HasProcs_HasHart. cbn [lcomp put].
  assert (E1 : put the_pst (put the_hart (phart (pv s)) (view the_pst s)) s = s).
  { transitivity (put the_pst (view the_pst s) s); [|apply put_view]. f_equal.
    exact (put_view (l := the_hart) (view the_pst s)). }
  rewrite E1. by rewrite put_view.
Qed.

Lemma pv_in s : pv (in_lock s) = put the_hart (push_off_h (phart (pv s))) (pv s).
Proof.
  unfold pv at 1, in_lock. rewrite (view_put_l (l := the_pst) (k := lk)).
  unfold the_hart at 1, HasProcs_HasHart. cbn [lcomp put]. by rewrite view_put.
Qed.

(** Code of the process layer inside the section. *)
Lemma zoom_in {A : Type} (m : M pst A) s a t :
  m (put the_hart (push_off_h (phart (pv s))) (pv s)) = Ok a (put the_hart (push_off_h (phart (pv s))) t) ->
  phart t = phart (pv s) ->
  zoom the_pst m (in_lock s) = Ok a (in_lock (put the_pst t s)).
Proof.
  intros E Eh. rewrite (zoom_ok _ _ _ _ _ (eq_trans (f_equal m (pv_in s)) E)). f_equal.
  unfold in_lock.
  assert (Ep : pv (put the_pst t s) = t) by (unfold pv; by rewrite view_put).
  rewrite Ep, Eh, (view_put_r (l := the_pst) (k := lk)).
  rewrite (put_comm (l := the_pst) (k := lk)). f_equal.
  rewrite put_hart_put.
  change (put the_hart ?h s) with (put the_pst (put the_hart h (pv s)) s) at 1. by rewrite put_put.
Qed.

(** Changes of another part of the state inside the section. *)
Lemma put_in {T : Type} (k : lens S T) `{!LensDisjoint (the_pst (S := S)) k} `{!LensDisjoint lk k} v s :
  put k v (in_lock s) = in_lock (put k v s).
Proof.
  unfold in_lock. rewrite <- (put_comm (l := lk) (k := k)).
  change (put the_hart ?h ?x) with (put the_pst (put the_hart h (pv x)) x).
  unfold pv. rewrite !(view_put_l (l := the_pst) (k := k)), (view_put_l (l := lk) (k := k)).
  by rewrite (put_comm (l := the_pst) (k := k)).
Qed.

Lemma view_in {T : Type} (k : lens S T) `{!LensDisjoint (the_pst (S := S)) k} `{!LensDisjoint lk k} s :
  view k (in_lock s) = view k s.
Proof.
  unfold in_lock. rewrite (view_put_r (l := lk) (k := k)).
  change (put the_hart ?h ?x) with (put the_pst (put the_hart h (pv x)) x).
  by rewrite (view_put_r (l := the_pst) (k := k)).
Qed.

End Critical.

(** A record with its spinlock in it. *)
Section CriticalRecord.
Context {S T : Type} `{HasProcs S} `{!LensLaws (the_pst (S := S))}.
Context (l : lens S T) `{!LensLaws l} `{!LensDisjoint (the_pst (S := S)) l}.
Context (k : lens T spinlock) `{!LensLaws k}.

Lemma update_in_rec f s :
  (forall lk x, f (put k lk x) = put k lk (f x)) ->
  update l f (in_lock (lcomp l k) s) = Ok tt (in_lock (lcomp l k) (put l (f (view l s)) s)).
Proof.
  intros Hf. unfold update, modify. f_equal. unfold in_lock. cbn [lcomp view put].
  change (put the_hart ?h ?x) with (put the_pst (put the_hart h (pv x)) x).
  unfold pv. rewrite !view_put, !put_put, !(view_put_l (l := the_pst) (k := l)),
    !(view_put_r (l := the_pst) (k := l)), !view_put.
  rewrite Hf. rewrite (put_comm (l := the_pst) (k := l)), put_put. f_equal. f_equal. f_equal.
  specialize (Hf (view k (view l s)) (view l s)). rewrite put_view in Hf. rewrite Hf. by rewrite view_put.
Qed.

Lemma view_in_rec s :
  view l (in_lock (lcomp l k) s) = put k (held_by (phart (pv s)) (view k (view l s))) (view l s).
Proof.
  unfold in_lock. cbn [lcomp view put].
  change (put the_hart ?h ?x) with (put the_pst (put the_hart h (pv x)) x).
  by rewrite view_put, (view_put_r (l := the_pst) (k := l)).
Qed.

End CriticalRecord.

(** ** What the operations do *)

Section SleepLemmas.
Context {S : Type} `{HasProcs S} `{!LensLaws (the_pst (S := S))} `{Patience}.
Context (l : lens S sleeplock) `{!LensLaws l} `{!LensDisjoint (the_pst (S := S)) l}.

#[local] Instance sl_spin_laws : LensLaws (sl_spin l).
Proof. unfold sl_spin. apply _. Qed.
#[local] Instance sl_spin_disjoint : LensDisjoint (the_pst (S := S)) (sl_spin l).
Proof. unfold sl_spin. apply _. Qed.

(** Changing the sleep lock under its spinlock. *)
Lemma update_in_sl f s :
  (forall lk x, f (with_sl_lk lk x) = with_sl_lk lk (f x)) ->
  update l f (in_lock (sl_spin l) s) = Ok tt (in_lock (sl_spin l) (put l (f (view l s)) s)).
Proof. exact (update_in_rec l sl_lk_l f s). Qed.

Lemma view_in_sl s :
  view l (in_lock (sl_spin l) s) = with_sl_lk (held_by (phart (pv s)) (view l s).(sl_lk)) (view l s).
Proof. exact (view_in_rec l sl_lk_l s). Qed.

Lemma mypid_eq p s : running p (pv s) -> mypid s = Ok (pproc (pv s) p).(p_pid) s.
Proof.
  intros [[Hh _] Hp]. unfold mypid. cbn [bind].
  rewrite (zoom_ok _ _ _ _ _ (myprocp_eq (pv s) p Hh Hp)). cbn. unfold pv. by rewrite put_view.
Qed.

(** The running process inside a critical section. *)
Lemma running_in (lk : lens S spinlock) `{!LensLaws lk} `{!LensDisjoint (the_pst (S := S)) lk} p s :
  running p (pv s) -> running p (pv (in_lock lk s)).
Proof.
  intros [[Hh Hl] Hp]. rewrite pv_in by apply _. split; [split|].
  - destruct Hh as [Hok _]. split; [by apply push_off_ok|].
    change (phart (put the_hart ?h ?t)) with h. rewrite push_off_noff. destruct Hok. lia.
  - exact Hl.
  - change (phart (put the_hart ?h ?t)) with h. unfold push_off_h. by destruct (noff _ =? 0).
Qed.

Lemma mypid_in (lk : lens S spinlock) `{!LensLaws lk} `{!LensDisjoint (the_pst (S := S)) lk} p s :
  running p (pv s) -> mypid (in_lock lk s) = Ok (pproc (pv s) p).(p_pid) (in_lock lk s).
Proof.
  intros Hr. rewrite (mypid_eq p) by by apply running_in. by rewrite pv_in by apply _.
Qed.

Lemma acquiresleep_eq p c s :
  running p (pv s) -> lock_free (view l s).(sl_lk) -> (view l s).(sl_locked) = 0 ->
  acquiresleep c l s =
  Ok tt (put l (Sleeplock 1 (view l s).(sl_lk) (view l s).(sl_name) (pproc (pv s) p).(p_pid)) s).
Proof.
  intros Hr Hl Hun. pose proof Hr as [[Hh _] _]. unfold acquiresleep. cbn [bind].
  rewrite (acquire_in (sl_spin l)) by done. cbn [bind obind]. rewrite loop_S. unfold acquiresleep_body.
  cbn [bind get gets obind].
  assert (E0 : sl_locked (view l (in_lock (sl_spin l) s)) = 0).
  { by rewrite view_in_sl. }
  rewrite E0. cbn [nz Z.eqb negb obind ret bind].
  rewrite update_in_sl by done. cbn [bind obind].
  set (s1 := put l _ s).
  assert (Ep : pv s1 = pv s) by (unfold s1, pv; by rewrite (view_put_l (l := the_pst) (k := l))).
  rewrite (mypid_in (sl_spin l) p) by by rewrite Ep. cbn [bind obind]. rewrite update_in_sl by done.
  cbn [bind obind]. rewrite (release_in (sl_spin l)).
  - rewrite Ep. unfold s1. by rewrite view_put, put_put.
  - unfold pv. rewrite (view_put_l (l := the_pst) (k := l)). fold (pv s1). by rewrite Ep.
  - unfold sl_spin. cbn [lcomp view]. rewrite view_put. unfold s1. rewrite view_put. done.
Qed.

Lemma holdingsleep_eq p s :
  running p (pv s) -> lock_free (view l s).(sl_lk) ->
  holdingsleep l s =
  Ok (nz (view l s).(sl_locked) && ((view l s).(sl_pid) =? (pproc (pv s) p).(p_pid))) s.
Proof.
  intros Hr Hl. pose proof Hr as [[Hh _] _]. unfold holdingsleep. cbn [bind].
  rewrite (acquire_in (sl_spin l)) by done. cbn [bind obind].
  rewrite (mypid_in (sl_spin l) p) by done. cbn [bind obind gets].
  rewrite (release_in (sl_spin l)) by done. cbn [obind ret]. by rewrite view_in_sl.
Qed.

(** [wakeup] inside a critical section. *)
Lemma wakeup_in (lk : lens S spinlock) `{!LensLaws lk} `{!LensDisjoint (the_pst (S := S)) lk} p c s :
  running p (pv s) ->
  exists t, wakes (pv s) t /\ zoom the_pst (wakeup c) (in_lock lk s) = Ok tt (in_lock lk (put the_pst t s)).
Proof.
  intros Hr. pose proof (running_in lk p s Hr) as Hr1. rewrite pv_in in Hr1 by apply _.
  destruct (wakes_wakeup c _ (unlocked_weaken _ _ _ (fun q (F : False) => match F with end) (proj1 Hr1)))
    as (t' & Ew & Hw).
  set (t := put the_hart (phart (pv s)) t').
  assert (Et : t' = put the_hart (push_off_h (phart (pv s))) t).
  { unfold t. destruct Hw as [Ew' _]. rewrite Ew'. unfold phart. destruct (pv s) as [[] ? ? ? ? ? ? ? ? ?]. done. }
  exists t. split.
  - destruct Hw as [Ew' Hw]. split.
    + unfold t. rewrite Ew'. unfold phart. destruct (pv s) as [[] ? ? ? ? ? ? ? ? ?]. done.
    + intros q. destruct (Hw q) as [E|(E1 & E2 & E3)]; [by left|]. right.
      split; [done|]. split; [|done]. intros E. apply E2.
      change (phart (put the_hart ?h ?x)) with h. unfold push_off_h. by destruct (noff _ =? 0).
  - apply zoom_in; [apply _..| |done]. rewrite Ew. by rewrite <- Et.
Qed.

Lemma releasesleep_eq p c s :
  running p (pv s) -> lock_free (view l s).(sl_lk) ->
  exists t, wakes (pv s) t /\
    releasesleep c l s =
    Ok tt (put l (Sleeplock 0 (view l s).(sl_lk) (view l s).(sl_name) 0) (put the_pst t s)).
Proof.
  intros Hr Hl. pose proof Hr as [[Hh Hu] Hp]. unfold releasesleep. cbn [bind].
  rewrite (acquire_in (sl_spin l)) by done. cbn [bind obind].
  rewrite update_in_sl by done. cbn [bind obind]. rewrite update_in_sl by done. cbn [bind obind].
  rewrite view_put, put_put. cbn [sl_locked sl_lk sl_name sl_pid].
  set (s1 := put l _ s).
  assert (Ep : pv s1 = pv s) by (unfold s1, pv; by rewrite (view_put_l (l := the_pst) (k := l))).
  destruct (wakeup_in (sl_spin l) p c s1) as (t & Hw & Ew); [by rewrite Ep|]. rewrite Ep in Hw.
  exists t. split; [done|]. rewrite Ew. cbn [bind obind]. rewrite (release_in (sl_spin l)).
  - f_equal. unfold s1. by rewrite (put_comm (l := the_pst) (k := l)).
  - unfold pv. rewrite view_put. by rewrite (wakes_hart _ _ Hw).
  - unfold sl_spin. cbn [lcomp view]. rewrite (view_put_r (l := the_pst) (k := l)).
    unfold s1. by rewrite view_put.
Qed.
End SleepLemmas.
