(* ===== verification/Turn.v ===== *)
(** * A process that sleeps, and the scheduler that runs meanwhile

    [sleep] ends in the scheduler, which goes on until it finds the process
    runnable again.  [turn] is the path through the scheduler of kernel/proc.c
    on which nothing else is runnable: it releases [p->lock], turns interrupts
    on, takes an interrupt that wakes the process up, and switches back to it.
    A [sleep] followed by a [turn] gives the hart, the lock and the process
    back as they were. *)

From S2P Require Import Prelude Riscv Memory Spinlock Kalloc Vm Tty Proc ProcSpec Sleeplock.

(** ** The hart on the way *)

Lemma intr_off_on h : intr_off (intr_on h) = intr_off h.
Proof.
  unfold intr_off, intr_on, with_sstatus. destruct h as [? x ? ? ? ? ? ? ? ? ?]. cbn [sstatus].
  f_equal. change SSTATUS_SIE with (2 ^ 1). apply Z.bits_inj'. intros i Hi.
  rewrite !Z.land_spec, Z.lor_spec, Z.lnot_spec, Z.pow2_bits_eqb by lia.
  destruct (Z.eqb_spec 1 i); [by rewrite !andb_false_r|by rewrite orb_false_r].
Qed.

Lemma push_off_cpu q h : push_off_h (with_cpu_proc q h) = with_cpu_proc q (push_off_h h).
Proof. unfold push_off_h. by destruct h as [? ? ? ? ? ? ? ? ? [] ?]. Qed.

(** The hart in the trap handler that interrupts the scheduler, with the
    interrupt flag [acquire] saves. *)
Definition idle_h (h : hart) : hart := with_intena 0 (intr_off (with_cpu_proc None h)).

Lemma idle_stable h : noff h = 0 -> hart_stable (idle_h h).
Proof.
  intros Hn. unfold idle_h. assert (Ei : intr_get (with_intena 0 (intr_off (with_cpu_proc None h))) = false).
  { apply (intr_get_off (with_cpu_proc None h)). }
  split; [split|].
  - cbn. lia.
  - cbn. lia.
  - intros _. by rewrite Ei.
Qed.

Lemma idle_push h : noff h = 0 -> push_off_h (idle_h h) = push_off_h (intr_off (with_cpu_proc None h)).
Proof. intros Hn. unfold idle_h, push_off_h. cbn [noff with_intena intr_off with_sstatus with_cpu_proc]. rewrite Hn. done. Qed.

(** Back in the process, the hart is as it was. *)
Lemma rise_hart p h : hart_stable h -> noff h = 0 -> cpu_proc h = Some p ->
  with_intena (b2z (intr_get h)) (with_cpu_proc (Some p) (push_off_h (intr_on (idle_h h)))) = push_off_h h.
Proof.
  intros Hs Hn Hp. unfold push_off_h at 1. change (noff (intr_on (idle_h h))) with (noff h). rewrite Hn. cbn [Z.eqb].
  rewrite intr_off_on. change (intr_off (idle_h h)) with (with_intena 0 (with_cpu_proc None (intr_off (intr_off h)))).
  rewrite (intr_off_id (intr_off h)) by apply intr_get_off. unfold push_off_h. rewrite Hn. cbn [Z.eqb].
  destruct h. cbn in *. by subst.
Qed.

(** ** The scheduler *)

Section Proc.
Implicit Types (t : pst) (x : proc).

(** The rest of a turn of the scheduler's loop, once [p] is asleep. *)
Lemma fall_eq p x t :
  hart_stable (phart t) -> noff (phart t) = 0 -> lock_free x.(p_lock) ->
  (update the_hart (with_cpu_proc None) ;; release (proc_lock p))
    (put_proc p (with_lock (held_by (phart t) x.(p_lock)) x) (put the_hart (push_off_h (phart t)) t)) =
  Ok tt (put_proc p x (put the_hart (with_cpu_proc None (phart t)) t)).
Proof.
  intros Hs Hn Hl. set (t0 := put the_hart (with_cpu_proc None (phart t)) t).
  assert (Hs0 : hart_stable (phart t0)) by exact Hs.
  rewrite <- (release_proc t0 Hs0 p x Hl). cbn [bind update modify obind]. f_equal. unfold lk_st.
  change (phart t0) with (with_cpu_proc None (phart t)). rewrite push_off_cpu. unfold t0, put_proc, phart.
  by destruct t as [[] ? ? ? ? ? ? ? ? ?].
Qed.

(** The turn in which it is found runnable. *)
Lemma scheduler_runs p t :
  lock_free (pproc t p).(p_lock) -> (pproc t p).(p_state) = RUNNABLE ->
  exists k, scheduler_body p t = Swtch
    (put_proc p (with_lock (held_by (phart t) (pproc t p).(p_lock)) (with_state RUNNING (pproc t p)))
       (put the_hart (with_cpu_proc (Some p) (push_off_h (phart t))) t)) k.
Proof.
  intros Hl Hs. unfold scheduler_body. cbn [bind]. rewrite acquire_proc by done. cbn [bind obind].
  rewrite get_locked_m. cbn [bind obind p_state with_lock]. rewrite decide_True by done. cbn [bind obind].
  rewrite update_locked_m by done. cbn [bind obind update modify swtch]. by eexists.
Qed.
End Proc.

(** ** A turn *)

Section Turn.
Context {S : Type} `{HasProcs S} `{!LensLaws (the_pst (S := S))}.
Context (lk : lens S spinlock) `{!LensLaws lk} `{!LensDisjoint (the_pst (S := S)) lk}.

(** A trap from the kernel that calls [handler]: interrupts are off in it. *)
Definition interrupt (handler : M S unit) : M S unit :=
  update the_hart intr_off ;; handler ;; update the_hart intr_on.

(** The scheduler from the switch away from [p] to the switch back, with
    [env] in between. *)
Definition turn (p : fin 64) (env : M S unit) : M S unit :=
  zoom the_pst (update the_hart (with_cpu_proc None) ;; release (proc_lock p)) ;;
  update the_hart intr_on ;;
  env ;;
  zoom the_pst (scheduler_body p).

(** Run [m], with a turn of the scheduler when it switches away. *)
Definition with_turn {A : Type} (p : fin 64) (env : M S unit) (m : M S A) : M S A := fun s =>
  match m s with
  | Swtch s1 k =>
      match turn p env s1 with
      | Swtch s2 _ => k s2
      | Ok _ _ => undefined s1
      | Panic msg => Panic msg
      | Spin => Spin
      | OutOfFuel => OutOfFuel
      end
  | o => o
  end.

(** [p] asleep on [c], the scheduler waiting for an interrupt. *)
Definition dozing (p : fin 64) (c : chan) (s : S) : S :=
  put the_pst (put_proc p (with_state SLEEPING (with_chan c (pproc (pv s) p)))
    (put the_hart (intr_on (with_cpu_proc None (phart (pv s)))) (pv s))) s.

Lemma update_hart f (s : S) : update the_hart f s = Ok tt (put the_pst (put the_hart (f (phart (pv s))) (pv s)) s).
Proof. done. Qed.

Lemma doze_eq p c s {A} (k : unit -> M S A) :
  thread p (pv s) -> lock_free (view lk s) ->
  (zoom the_pst (update the_hart (with_cpu_proc None) ;; release (proc_lock p)) ;; update the_hart intr_on ;; k tt)
    (asleep lk p c (in_lock lk s)) = k tt (dozing p c s).
Proof.
  intros [[[Hs Hul] Hp] Hn _ _] Hl. set (t := pv s) in *. set (x := pproc t p).
  set (y := with_state SLEEPING (with_chan c x)).
  assert (Ea : asleep lk p c (in_lock lk s) =
    put the_pst (put_proc p (with_lock (held_by (phart t) y.(p_lock)) y) (put the_hart (push_off_h (phart t)) t)) s).
  { unfold asleep. rewrite pv_in by apply _. fold t.
    unfold in_lock at 1 2. rewrite !view_put, held_by_free by done. fold t.
    change (put the_hart ?h s) with (put the_pst (put the_hart h t) s).
    rewrite (put_comm (l := the_pst) (k := lk)), !put_put.
    change (view lk s) with (view lk s). rewrite <- (put_comm (l := the_pst) (k := lk)), put_view.
    do 2 f_equal. unfold y, x, held_by. change (phart (put the_hart ?h ?u)) with h. by rewrite push_off_cpuid. }
  rewrite Ea. cbn [bind].
  assert (Ef := fall_eq p y t Hs Hn (Hul p (fun F => F))).
  unfold zoom at 1. rewrite view_put, Ef. cbn [zoom_out obind bind]. rewrite put_put, update_hart. cbn [obind]. f_equal.
  unfold pv at 1 2. rewrite view_put, put_put. done.
Qed.

(** Woken up by a handler that left the hart as [idle_h] has it, the process
    goes on in its critical section. *)
Lemma rouse_eq p c s s' :
  thread p (pv s) -> phart (pv s') = intr_on (idle_h (phart (pv s))) ->
  pproc (pv s') p = with_state RUNNABLE (with_chan c (pproc (pv s) p)) -> lock_free (view lk s') ->
  exists s2 k, zoom the_pst (scheduler_body p) s' = Swtch s2 k /\
    obind (zoom the_pst (update the_hart (with_intena (b2z (intr_get (phart (pv s))))) ;;
                         update (proc_l p) (with_chan ch0) ;;
                         release (proc_lock p)) s2) (fun _ => acquire lk) =
    Ok tt (in_lock lk (put the_pst (put_proc p (pproc (pv s) p) (put the_hart (phart (pv s)) (pv s'))) s')).
Proof.
  intros [[[Hs Hul] Hp] Hn Hst Hch] Eh Ex Hl. set (h := phart (pv s)) in *. set (x := pproc (pv s) p) in *.
  destruct (scheduler_runs p (pv s')) as [k E]; [rewrite Ex; exact (Hul p (fun F => F))|by rewrite Ex|].
  eexists _, _. split; [unfold zoom; fold (pv s'); rewrite E; reflexivity|]. clear E.
  set (y := put_proc _ _ _).
  assert (Ev : pv (put the_pst y s') = y) by (unfold pv; apply view_put).
  assert (Eyh : phart y = with_cpu_proc (Some p) (push_off_h (intr_on (idle_h h)))) by (unfold y; by rewrite <- Eh).
  assert (Eyx : pproc y p = with_lock (held_by (phart (pv s')) x.(p_lock)) (with_state RUNNING (with_chan c x))).
  { unfold y. by rewrite pproc_put, Ex. }
  rewrite (awake_eq lk p).
  - f_equal. unfold awake, in_lock. rewrite Ev, Eyh, Eyx, rise_hart by done. rewrite pop_push_off_stable by done.
    set (z := with_lock _ _). assert (Ez : z = x).
    { unfold z. cbn [p_lock with_lock held_by lk_name]. pose proof (Hul p (fun F => F)) as [Hl1 Hl2]. fold x in Hl1, Hl2.
      clearbody x. destruct x as [[] ? ? ? ? ? ? ? ? ? ? ? ? ? ? ?]. cbn in *. by subst. }
    rewrite Ez, !(view_put_r (l := the_pst) (k := lk)), put_put, put_hart_put.
    unfold pv at 1 3. rewrite !view_put. change (phart (put_proc p x (put the_hart h (pv s')))) with h.
    do 2 f_equal. unfold y, put_proc. clearbody x h. destruct (pv s') as [[] ? ? ? ? ? ? ? ? ?]. cbn. f_equal.
    apply (put_put (l := vec_l p)).
  - rewrite Ev, Eyh. split; [|exact (push_off_off (intr_on (idle_h h)))].
    change (noff h + 1 = 1). lia.
  - rewrite Ev, Eyh, Eyx, Eh. exact (held_by_holding (intr_on (idle_h h)) x.(p_lock)).
  - by rewrite (view_put_r (l := the_pst) (k := lk)).
Qed.

(** A [sleep] with a turn of the scheduler. *)
Lemma nap_eq p c env s s' :
  thread p (pv s) -> lock_free (view lk s) -> env (dozing p c s) = Ok tt s' ->
  phart (pv s') = intr_on (idle_h (phart (pv s))) ->
  pproc (pv s') p = with_state RUNNABLE (with_chan c (pproc (pv s) p)) -> lock_free (view lk s') ->
  exists s1 k s2 k2, sleep c lk (in_lock lk s) = Swtch s1 k /\ turn p env s1 = Swtch s2 k2 /\
    k s2 = Ok tt (in_lock lk (put the_pst (put_proc p (pproc (pv s) p) (put the_hart (phart (pv s)) (pv s'))) s')).
Proof.
  intros Ht Hl He Hh Hx Hl'. destruct (rouse_eq p c s s' Ht Hh Hx Hl') as (s2 & k2 & E2 & E3).
  pose proof Ht as [[[Hs Hul] Hp] Hn _ _].
  exists (asleep lk p c (in_lock lk s)). eexists _, s2, k2. split; [|split].
  - apply sleep_eq; [apply _|apply _| | | |]; rewrite pv_in by apply _; change (phart (put the_hart ?h ?t)) with h.
    + split; [rewrite push_off_noff; lia|apply push_off_off].
    + change (phart (pv s)) with (phart (pv s)). unfold push_off_h. rewrite Hn. exact Hp.
    + unfold in_lock. rewrite view_put. apply held_by_holding.
    + exact (Hul p (fun F => F)).
  - unfold turn. refine (eq_trans (doze_eq p c s (fun _ => env ;; zoom the_pst (scheduler_body p)) Ht Hl) _).
    cbn [bind]. rewrite He. cbn [obind]. exact E2.
  - rewrite pv_in by apply _. change (phart (put the_hart ?h ?t)) with h.
    replace (intena (push_off_h (phart (pv s)))) with (b2z (intr_get (phart (pv s)))); [exact E3|].
    unfold push_off_h. by rewrite Hn.
Qed.

(** The lock of the handler: [acquire] overwrites the saved interrupt flag. *)
Lemma in_idle h t s : noff h = 0 ->
  in_lock lk (put the_pst (put the_hart (intr_off (with_cpu_proc None h)) t) s) =
  in_lock lk (put the_pst (put the_hart (idle_h h) t) s).
Proof.
  intros Hn. unfold in_lock. assert (Ev : forall u, pv (put the_pst u s) = u) by (intros; unfold pv; apply view_put).
  rewrite !Ev, !(view_put_r (l := the_pst) (k := lk)), !put_hart_put. change (phart (put the_hart ?h ?t)) with h.
  by rewrite idle_push.
Qed.
End Turn.
