(* ===== verification/Uart.v ===== *)
(** * The UART driver and the kernel's printf (kernel/uart.c, kernel/printf.c,
    consputc of kernel/console.c, procdump of kernel/proc.c)

    Code over the process layer, whose state has the console in it.  A C
    [char] is a byte: the RISC-V ABI's [char] is unsigned. *)

From S2P Require Import Prelude Riscv Memory Spinlock Kalloc Vm Tty Proc ProcSpec Sleeplock.

Definition uart {A : Type} (l : lens tty A) : lens pst A := lcomp the_tty_l l.

(** The bytes of a string constant. *)
Fixpoint str (s : string) : list Z :=
  match s with
  | EmptyString => []
  | String c s' => Z.of_N (Ascii.N_of_ascii c) :: str s'
  end.

(** ** The device *)

(** A write to register 0 is a byte to send, except in the mode that sets the
    baud rate; bit 1 of the FIFO control register empties the receiver. *)
Definition WriteReg (reg v : Z) : M pst unit :=
  update the_tty_l (fun t =>
    if (reg =? THR) && negb (Z.testbit (t.(u_regs) !!! LCR) 7)
    then put u_sent_l (t.(u_sent) ++ [u8 v]) t
    else
      let t := put u_regs_l (<[reg := u8 v]> t.(u_regs)) t in
      if (reg =? FCR) && Z.testbit v 1 then put u_rx_l [] t else t).

(** The line status register: a byte waits to be read, and the transmitter
    is idle. *)
Definition read_LSR : M pst Z :=
  t <- get the_tty_l ;;
  set (uart u_busy_l) (tl t.(u_busy)) ;;
  ret (Z.lor (if decide (t.(u_rx) = []) then 0 else LSR_RX_READY)
             (if hd false t.(u_busy) then 0 else LSR_TX_IDLE)).

Definition read_RHR : M pst Z :=
  t <- get the_tty_l ;;
  set (uart u_rx_l) (tl t.(u_rx)) ;;
  ret (u8 (hd 0 t.(u_rx))).

(** ** uart.c *)

Definition uartinit : M pst unit :=
  WriteReg IER 0 ;;
  WriteReg LCR LCR_BAUD_LATCH ;;
  WriteReg 0 3 ;;
  WriteReg 1 0 ;;
  WriteReg LCR LCR_EIGHT_BITS ;;
  WriteReg FCR (Z.lor FCR_FIFO_ENABLE FCR_FIFO_CLEAR) ;;
  WriteReg IER (Z.lor IER_TX_ENABLE IER_RX_ENABLE) ;;
  set (uart tx_lock_l) (initlock "uart").

(** [for(;;);] *)
Definition spin {S A : Type} : M S A := fun _ => Spin.

Definition freeze : M pst unit :=
  t <- get the_tty_l ;;
  if nz t.(panicked) then spin else ret tt.

(** One iteration per byte taken from the buffer. *)
Definition uartstart_body (_ : unit) : M pst (unit + unit) :=
  t <- get the_tty_l ;;
  if t.(tx_w) =? t.(tx_r) then ret (inr tt)
  else
    lsr <- read_LSR ;;
    if Z.land lsr LSR_TX_IDLE =? 0 then ret (inr tt)
    else
      let c := t.(tx_buf) !!! Z.to_nat (t.(tx_r) mod UART_TX_BUF_SIZE) in
      set (uart tx_r_l) (u64 (t.(tx_r) + 1)) ;;
      wakeup chUartTxR ;;
      WriteReg THR c ;;
      ret (inl tt).

Definition uartstart : M pst unit :=
  t <- get the_tty_l ;;
  loop (S (Z.to_nat (u64 (t.(tx_w) - t.(tx_r))))) uartstart_body tt.

(** [while(uart_tx_w == uart_tx_r + UART_TX_BUF_SIZE) sleep(...);] *)
Definition uartputc_wait (_ : unit) : M pst (unit + unit) :=
  t <- get the_tty_l ;;
  if t.(tx_w) =? u64 (t.(tx_r) + UART_TX_BUF_SIZE) then
    sleep chUartTxR (uart tx_lock_l) ;;
    ret (inl tt)
  else ret (inr tt).

Definition uartputc `{Patience} (c : Z) : M pst unit :=
  acquire (uart tx_lock_l) ;;
  freeze ;;
  loop (S patience) uartputc_wait tt ;;
  update the_tty_l (fun t =>
    put tx_buf_l (<[Z.to_nat (t.(tx_w) mod UART_TX_BUF_SIZE) := u8 c]> t.(tx_buf)) t) ;;
  update (uart tx_w_l) (fun w => u64 (w + 1)) ;;
  uartstart ;;
  release (uart tx_lock_l).

(** [while((ReadReg(LSR) & LSR_TX_IDLE) == 0);] *)
Definition uart_idle_wait (_ : unit) : M pst (unit + unit) :=
  lsr <- read_LSR ;;
  ret (if Z.land lsr LSR_TX_IDLE =? 0 then inl tt else inr tt).

(** The device says busy as often as [u_busy] has it. *)
Definition uartputc_sync (c : Z) : M pst unit :=
  push_off ;;
  freeze ;;
  t <- get the_tty_l ;;
  loop (S (length t.(u_busy))) uart_idle_wait tt ;;
  WriteReg THR c ;;
  pop_off.

Definition uartgetc : M pst Z :=
  lsr <- read_LSR ;;
  if nz (Z.land lsr 1) then read_RHR else ret (-1).

(** ** consputc *)

Definition BACKSPACE : Z := 256.

Definition consputc (c : Z) : M pst unit :=
  if c =? BACKSPACE then
    uartputc_sync 8 ;; uartputc_sync 32 ;; uartputc_sync 8
  else uartputc_sync c.

(** ** printf.c *)

Definition digits : list Z := str "0123456789abcdef".
Definition digit (n : Z) : Z := nth (Z.to_nat n) digits 0.

(** The digits of [x], least significant first; 32 binary digits are the
    most an [uint] has. *)
Fixpoint printint_digits (fuel : nat) (x base : Z) : list Z :=
  match fuel with
  | O => []
  | S n => digit (x mod base) :: (if x / base =? 0 then [] else printint_digits n (x / base) base)
  end.

(** The buffer [buf] that [printint] fills, and prints backwards. *)
Definition printint_buf (xx base : Z) (sign : bool) : list Z :=
  let neg := sign && (xx <? 0) in
  let x := u32 (if neg then - xx else xx) in
  printint_digits 32 x base ++ (if neg then [45] else []).

Definition printint (xx base : Z) (sign : bool) : M pst unit :=
  iterM (rev (printint_buf xx base sign)) consputc.

Definition printptr (x : Z) : M pst unit :=
  consputc 48 ;;
  consputc 120 ;;
  iterM (seq 0 16) (fun i => consputc (digit (Z.shiftr (u64 (Z.shiftl x (4 * Z.of_nat i))) 60))).

(** A variable argument: an [int], an [uint64], a [char *]. *)
Inductive vararg := AInt (x : Z) | APtr (x : Z) | AStr (s : option (list Z)).

(** The bytes of a string up to its terminator. *)
Fixpoint cstr (s : list Z) : list Z :=
  match s with
  | [] => []
  | c :: s' => if c =? 0 then [] else c :: cstr s'
  end.

(** The loop over the format; taking an argument that is not there, or one
    of another type, has no defined behaviour. *)
Fixpoint printf_loop (fmt : list Z) (ap : list vararg) : M pst unit :=
  match fmt with
  | [] => ret tt
  | c :: fmt1 =>
      if c =? 0 then ret tt
      else if negb (c =? 37) then consputc c ;; printf_loop fmt1 ap
      else
        match fmt1 with
        | [] => ret tt
        | c :: fmt2 =>
            if c =? 0 then ret tt
            else if c =? 100 then
              match ap with
              | AInt x :: ap => printint (s32 x) 10 true ;; printf_loop fmt2 ap
              | _ => undefined
              end
            else if c =? 120 then
              match ap with
              | AInt x :: ap => printint (s32 x) 16 true ;; printf_loop fmt2 ap
              | _ => undefined
              end
            else if c =? 112 then
              match ap with
              | APtr x :: ap => printptr x ;; printf_loop fmt2 ap
              | _ => undefined
              end
            else if c =? 115 then
              match ap with
              | AStr s :: ap =>
                  iterM (cstr (default (str "(null)") s)) consputc ;; printf_loop fmt2 ap
              | _ => undefined
              end
            else if c =? 37 then consputc 37 ;; printf_loop fmt2 ap
            else consputc 37 ;; consputc c ;; printf_loop fmt2 ap
        end
  end.

Definition printf (fmt : option (list Z)) (ap : list vararg) : M pst unit :=
  locking <- get (uart pr_locking_l) ;;
  (if nz locking then acquire (uart pr_lock_l) else ret tt) ;;
  match fmt with
  | None => panic "null fmt"
  | Some fmt =>
      printf_loop fmt ap ;;
      if nz locking then release (uart pr_lock_l) else ret tt
  end.

(** A call with a literal format. *)
Definition cprintf (fmt : string) (ap : list vararg) : M pst unit := printf (Some (str fmt)) ap.

Definition newline : string := String (Ascii.ascii_of_nat 10) EmptyString.

(** What [panic] does before it spins: elsewhere in the model it is the
    outcome [Panic]. *)
Definition panic_print {A : Type} (s : list Z) : M pst A :=
  set (uart pr_locking_l) 0 ;;
  cprintf "panic: " [] ;;
  printf (Some s) [] ;;
  cprintf newline [] ;;
  set (uart panicked_l) 1 ;;
  spin.

Definition printfinit : M pst unit :=
  set (uart pr_lock_l) (initlock "pr") ;;
  set (uart pr_locking_l) 1.

(** ** procdump *)

Definition state_name (st : procstate) : string :=
  match st with
  | UNUSED => "unused"
  | USED => "used"
  | SLEEPING => "sleep "
  | RUNNABLE => "runble"
  | RUNNING => "run   "
  | ZOMBIE => "zombie"
  end.

Definition procdump : M pst unit :=
  cprintf newline [] ;;
  iterM all_procs (fun p =>
    x <- get (proc_l p) ;;
    if decide (x.(p_state) = UNUSED) then ret tt
    else
      cprintf "%d %s %s" [AInt x.(p_pid); AStr (Some (str (state_name x.(p_state)))); AStr (Some x.(p_name))] ;;
      cprintf newline []).

