(* ===== verification/UartThm.v ===== *)
(** * Output: the UART and printf

    Sending a character polls the device until it is idle; the printf of
    kernel/printf.c sends the characters of a format and its arguments, and
    those only. *)

From S2P Require Import Prelude Riscv Memory Spinlock Kalloc Vm Tty Proc ProcSpec Sleeplock Uart.

(** ** Sending a character and waiting for the device *)

(** The busy readings that remain after the first idle one. *)
Fixpoint after_busy (l : list bool) : list bool :=
  match l with
  | [] => []
  | true :: l' => after_busy l'
  | false :: l' => l'
  end.

(** The device can send: output is not frozen by a panic, and the line is in
    its normal mode. *)
Definition tty_ready (t : tty) : Prop := t.(panicked) = 0 /\ Z.testbit (t.(u_regs) !!! LCR) 7 = false.

Definition tty_putc (c : Z) (t : tty) : tty :=
  put u_sent_l (t.(u_sent) ++ [u8 c]) (put u_busy_l (after_busy t.(u_busy)) t).

Definition put_tty (t : tty) (s : pst) : pst := put the_tty_l t s.
Arguments put_tty : simpl never.

Lemma put_tty_twice t t' s : put_tty t (put_tty t' s) = put_tty t s.
Proof. done. Qed.

Lemma lsr_idle (rx busy : bool) :
  (Z.land (Z.lor (if rx then 0 else LSR_RX_READY) (if busy then 0 else LSR_TX_IDLE)) LSR_TX_IDLE =? 0) = busy.
Proof. by destruct rx, busy. Qed.

Lemma read_LSR_idle s :
  exists lsr, read_LSR s = Ok lsr (put_tty (put u_busy_l (tl s.(the_tty).(u_busy)) s.(the_tty)) s) /\
    (Z.land lsr LSR_TX_IDLE =? 0) = hd false s.(the_tty).(u_busy).
Proof.
  eexists. split; [reflexivity|]. cbn [view the_tty_l]. destruct (decide (u_rx (the_tty s) = [])).
  - exact (lsr_idle true _).
  - exact (lsr_idle false _).
Qed.

Lemma idle_loop b : forall s n, s.(the_tty).(u_busy) = b -> (length b < n)%nat ->
  loop n uart_idle_wait tt s = Ok tt (put_tty (put u_busy_l (after_busy b) s.(the_tty)) s).
Proof.
  induction b as [|x b IH]; intros s [|n] Eb Hn; cbn [length] in Hn; try lia;
    rewrite loop_S; unfold uart_idle_wait at 1; cbn [bind]; destruct (read_LSR_idle s) as (lsr & -> & El);
    rewrite Eb in *; cbn [obind ret]; rewrite El; cbn [hd tl].
  - done.
  - destruct x; cbn [after_busy]; [|done]. rewrite IH by (done || lia). done.
Qed.

Lemma write_THR c s :
  Z.testbit (s.(the_tty).(u_regs) !!! LCR) 7 = false ->
  WriteReg THR c s = Ok tt (put_tty (put u_sent_l (s.(the_tty).(u_sent) ++ [u8 c]) s.(the_tty)) s).
Proof. intros Hm. unfold WriteReg, update, modify. cbn [view the_tty_l]. by rewrite Hm. Qed.

Section Sync.
Context (s : pst).
Hypothesis Hh : hart_stable (phart s).
Hypothesis Ht : tty_ready s.(the_tty).

Lemma uartputc_sync_eq c : uartputc_sync c s = Ok tt (put_tty (tty_putc c s.(the_tty)) s).
Proof.
  destruct Ht as [Hp Hm]. unfold uartputc_sync. cbn [bind]. rewrite push_off_eq. cbn [bind obind].
  set (s1 := put the_hart _ s). unfold freeze. cbn [bind get gets obind].
  change (view the_tty_l s1) with (the_tty s). rewrite Hp. cbn [nz Z.eqb negb ret obind bind get gets].
  change (view the_tty_l s1) with (the_tty s).
  rewrite (idle_loop (u_busy (the_tty s))) by (done || lia). cbn [bind obind].
  rewrite write_THR by done. cbn [obind]. rewrite pop_off_eq.
  - f_equal. change (view the_hart (put_tty ?t ?s)) with (phart s).
    change (phart (put_tty ?t s1)) with (push_off_h (phart s)).
    rewrite pop_push_off_stable by done. destruct s as [[] ? ? ? ? ? ? ? ? ?]; reflexivity.
  - apply push_off_off.
  - change (1 <= noff (push_off_h (phart s))). rewrite push_off_noff. destruct Hh as [[? _] _]. lia.
Qed.
End Sync.

Lemma tty_putc_ready c t : tty_ready t -> tty_ready (tty_putc c t).
Proof. done. Qed.

Definition tty_puts (l : list Z) (t : tty) : tty := foldl (fun t c => tty_putc c t) t l.

Lemma tty_puts_sent l t : u_sent (tty_puts l t) = u_sent t ++ (u8 <$> l).
Proof.
  revert t. induction l as [|c l IH]; intros t; cbn; [by rewrite app_nil_r|].
  unfold tty_puts in IH. rewrite IH. cbn. by rewrite <- app_assoc.
Qed.

Lemma tty_puts_ready l t : tty_ready t -> tty_ready (tty_puts l t).
Proof. revert t. induction l as [|c l IH]; intros t Ht; [done|]. cbn. by apply IH. Qed.

Lemma tty_puts_app l l' t : tty_puts (l ++ l') t = tty_puts l' (tty_puts l t).
Proof. apply foldl_app. Qed.

(** Only the bytes sent and the device's readings change. *)
Lemma tty_puts_frame l t :
  tty_puts l t = put u_sent_l (u_sent (tty_puts l t)) (put u_busy_l (u_busy (tty_puts l t)) t).
Proof.
  revert t. induction l as [|c l IH]; intros t; [by destruct t|]. cbn. unfold tty_puts in IH. by rewrite IH at 1.
Qed.

Lemma consputs_eq l : forall s, hart_stable (phart s) -> tty_ready s.(the_tty) -> Forall (fun c => c <> BACKSPACE) l ->
  iterM l consputc s = Ok tt (put_tty (tty_puts l s.(the_tty)) s).
Proof.
  induction l as [|c l IH]; intros s Hh Ht Hl; cbn [iterM].
  - unfold tty_puts. cbn. f_equal. by destruct s.
  - inversion Hl; subst. cbn [bind]. unfold consputc at 1. destruct (Z.eqb_spec c BACKSPACE); [done|].
    rewrite uartputc_sync_eq by done. cbn [obind]. by rewrite IH.
Qed.

(** ** Critical sections of the console's locks *)

#[export] Instance uart_laws {A : Type} (k : lens tty A) `{!LensLaws k} : LensLaws (uart k).
Proof. unfold uart. apply _. Qed.
#[export] Instance uart_hart {A : Type} (k : lens tty A) : LensDisjoint (the_hart (S := pst)) (uart k).
Proof. unfold uart, the_hart, pst_HasHart. apply _. Qed.

Section TtyLock.
Context (k : lens tty spinlock) `{!LensLaws k}.

(** The state inside the section, where the rest is as in [s]. *)
Definition in_tty (s : pst) : pst :=
  put (uart k) (held_by (phart s) (view k s.(the_tty))) (put the_hart (push_off_h (phart s)) s).

Lemma acquire_tty s : lock_free (view k s.(the_tty)) -> acquire (uart k) s = Ok tt (in_tty s).
Proof. exact (acquire_eq (uart k) s). Qed.

Lemma release_tty s :
  hart_stable (phart s) -> lock_free (view k s.(the_tty)) -> release (uart k) (in_tty s) = Ok tt s.
Proof.
  intros Hh Hl. unfold in_tty.
  rewrite (release_held (uart k) (phart s) (view k (the_tty s)) s Hh Hl). f_equal.
  assert (E : put the_hart (phart s) s = s) by by destruct s as [[] ? ? ? ? ? ? ? ? ?].
  rewrite E. exact (put_view (l := uart k) s).
Qed.

Lemma in_tty_stable s : hart_stable (phart s) -> hart_stable (phart (in_tty s)).
Proof.
  intros [Hh _]. change (hart_stable (push_off_h (phart s))). split; [by apply push_off_ok|].
  rewrite push_off_noff. destruct Hh. lia.
Qed.
End TtyLock.

(** ** printint *)

(** The digits of [x] as numbers, least significant first. *)
Fixpoint drev (fuel : nat) (x base : Z) : list Z :=
  match fuel with
  | O => []
  | S n => x mod base :: (if x / base =? 0 then [] else drev n (x / base) base)
  end.

Lemma printint_digits_eq n : forall x base, printint_digits n x base = digit <$> drev n x base.
Proof.
  induction n as [|n IH]; intros x base; [done|]. cbn [printint_digits drev fmap list_fmap]. f_equal.
  destruct (x / base =? 0); [done|apply IH].
Qed.

(** What digits denote, most significant first. *)
Definition dvalue (base : Z) (ds : list Z) : Z := foldl (fun acc d => acc * base + d) 0 ds.

Lemma drev_value n : forall x base, 2 <= base -> 0 <= x < base ^ Z.of_nat n -> n <> O ->
  dvalue base (rev (drev n x base)) = x /\ Forall (fun d => 0 <= d < base) (drev n x base).
Proof.
  unfold dvalue. induction n as [|n IH]; intros x base Hb Hx Hn; [done|]. cbn [drev rev].
  rewrite foldl_app. cbn [foldl]. pose proof (Z.mod_pos_bound x base ltac:(lia)) as Hm.
  pose proof (Z.div_mod x base ltac:(lia)) as Hdm. destruct (Z.eqb_spec (x / base) 0) as [E|E].
  - cbn. split; [lia|]. by constructor.
  - rewrite Nat2Z.inj_succ, Z.pow_succ_r in Hx by lia. assert (0 <= x / base) by (apply Z.div_pos; lia).
    destruct (IH (x / base) base) as [IH1 IH2]; try done.
    + split; [done|]. apply Z.div_lt_upper_bound; lia.
    + intros ->. cbn in Hx. assert (x / base < 1) by (apply Z.div_lt_upper_bound; lia). lia.
    + rewrite IH1. split; [lia|]. by constructor.
Qed.

(** No leading zeros. *)
Lemma drev_lead n : forall x base, 2 <= base -> 0 < x < base ^ Z.of_nat n -> last (drev n x base) <> Some 0.
Proof.
  induction n as [|n IH]; intros x base Hb Hx; [done|]. cbn [drev].
  rewrite Nat2Z.inj_succ, Z.pow_succ_r in Hx by lia. assert (0 <= x / base) by (apply Z.div_pos; lia).
  pose proof (Z.div_mod x base ltac:(lia)) as Hdm. destruct (Z.eqb_spec (x / base) 0) as [E|E].
  - cbn. intros [= Hz]. lia.
  - assert (Hne : drev n (x / base) base <> []).
    { destruct n; [|done]. cbn in Hx. assert (x / base < 1) by (apply Z.div_lt_upper_bound; lia). lia. }
    specialize (IH (x / base) base Hb).
    destruct (drev n (x / base) base) as [|d l]; [done|]. rewrite last_cons_cons. apply IH.
    split; [lia|]. apply Z.div_lt_upper_bound; lia.
Qed.

Lemma drev_length k : forall n x base, 2 <= base -> 0 <= x < base ^ Z.of_nat k -> (1 <= k)%nat ->
  (length (drev n x base) <= k)%nat.
Proof.
  induction k as [|k IH]; intros n x base Hb Hx Hk; [lia|]. destruct n as [|n]; cbn [drev length]; [lia|].
  rewrite Nat2Z.inj_succ, Z.pow_succ_r in Hx by lia. assert (0 <= x / base) by (apply Z.div_pos; lia).
  assert (x / base < base ^ Z.of_nat k) by (apply Z.div_lt_upper_bound; lia).
  destruct (Z.eqb_spec (x / base) 0); cbn [length]; [lia|]. destruct k as [|k].
  - cbn in *. lia.
  - assert (length (drev n (x / base) base) <= S k)%nat by (apply IH; lia). lia.
Qed.

Lemma digit_char d : 0 <= d < 16 -> u8 (digit d) = digit d /\ digit d <> BACKSPACE.
Proof.
  intros Hd. assert (Hall : Forall (fun d => u8 (digit d) = digit d /\ digit d <> BACKSPACE) (seqZ 0 16)).
  { refine (bool_decide_unpack _ _). by vm_compute. }
  rewrite Forall_forall in Hall. apply Hall. apply elem_of_seqZ. lia.
Qed.

Lemma digits_out (base : Z) ds : base <= 16 -> Forall (fun d => 0 <= d < base) ds ->
  u8 <$> (digit <$> ds) = digit <$> ds /\ Forall (fun c => c <> BACKSPACE) (digit <$> ds).
Proof.
  intros Hb. induction ds as [|d ds IH]; intros Hd; [done|]. inversion Hd; subst.
  destruct (digit_char d ltac:(lia)) as [E1 E2], IH as [E3 E4]; [done|].
  rewrite !fmap_cons, E1, E3. split; [done|]. by constructor.
Qed.

(** The number as it is printed: the sign and the digits. *)
Definition show_int (xx base : Z) : list Z :=
  (if xx <? 0 then [45] else []) ++ (digit <$> rev (drev 32 (Z.abs xx) base)).

Lemma printint_buf_eq xx base :
  - 2 ^ 31 <= xx < 2 ^ 31 -> rev (printint_buf xx base true) = show_int xx base.
Proof.
  intros Hx. unfold printint_buf, show_int. cbn [andb]. rewrite printint_digits_eq, rev_app_distr.
  f_equal; [by destruct (xx <? 0)|]. transitivity (digit <$> rev (drev 32 (u32 (if xx <? 0 then - xx else xx)) base)).
  { symmetry. exact (map_rev digit _). }
  do 3 f_equal. destruct (Z.ltb_spec xx 0); rewrite u32_small by lia; lia.
Qed.

Lemma fits_32 x base : 2 <= base -> 0 <= x <= 2 ^ 31 -> 0 <= x < base ^ Z.of_nat 32.
Proof.
  intros Hb Hx. split; [lia|]. apply Z.lt_le_trans with (2 ^ Z.of_nat 32); [lia|]. apply Z.pow_le_mono_l. lia.
Qed.

Lemma show_int_out xx base :
  - 2 ^ 31 <= xx < 2 ^ 31 -> 2 <= base <= 16 ->
  u8 <$> show_int xx base = show_int xx base /\ Forall (fun c => c <> BACKSPACE) (show_int xx base).
Proof.
  intros Hx Hb. destruct (drev_value 32 (Z.abs xx) base) as [_ Hd]; [lia|apply fits_32; lia|done|].
  destruct (digits_out base (rev (drev 32 (Z.abs xx) base))) as [E1 E2]; [lia|by apply Forall_rev|].
  unfold show_int. rewrite fmap_app, E1. split.
  - by destruct (xx <? 0).
  - apply Forall_app. split; [|done]. destruct (xx <? 0); by repeat constructor.
Qed.

Lemma printint_eq xx base s :
  hart_stable (phart s) -> tty_ready s.(the_tty) -> - 2 ^ 31 <= xx < 2 ^ 31 -> 2 <= base <= 16 ->
  printint xx base true s = Ok tt (put_tty (tty_puts (show_int xx base) s.(the_tty)) s).
Proof.
  intros Hh Ht Hx Hb. unfold printint. rewrite printint_buf_eq by done. apply consputs_eq; [done..|].
  by apply show_int_out.
Qed.

(** [printint] prints every [int], the most negative one included, in
    bases up to 16: it sends a minus sign if the number is negative and
    digits that denote its absolute value, without leading zeros, changes
    nothing but the output, and always finishes: the polling of the device
    ends.  In the bases the kernel uses its 16-byte buffer is large enough. *)
Theorem printint_spec (xx base : Z) (s : pst) :
  hart_stable (phart s) -> tty_ready s.(the_tty) -> - 2 ^ 31 <= xx < 2 ^ 31 -> 2 <= base <= 16 ->
  exists ds busy,
    printint xx base true s =
      Ok tt (put the_tty_l (put u_sent_l (s.(the_tty).(u_sent) ++ (if xx <? 0 then [45] else []) ++ (digit <$> ds))
                             (put u_busy_l busy s.(the_tty))) s) /\
    Forall (fun d => 0 <= d < base) ds /\ dvalue base ds = Z.abs xx /\
    (xx = 0 /\ ds = [0] \/ xx <> 0 /\ head ds <> Some 0) /\
    (10 <= base -> (length (printint_buf xx base true) <= 11)%nat).
Proof.
  intros Hh Ht Hx Hb. set (ds := rev (drev 32 (Z.abs xx) base)).
  destruct (drev_value 32 (Z.abs xx) base) as [Hv Hd]; [lia|apply fits_32; lia|done|].
  exists ds, (u_busy (tty_puts (show_int xx base) (the_tty s))). split_and!; try done.
  - rewrite printint_eq by done. f_equal. unfold put_tty. f_equal. rewrite tty_puts_frame at 1. f_equal.
    rewrite tty_puts_sent. by rewrite (proj1 (show_int_out xx base Hx Hb)).
  - by apply Forall_rev.
  - destruct (decide (xx = 0)) as [->|Hne]; [by left|right]. split; [done|]. unfold ds. rewrite rev_alt. change (rev_append ?l []) with (reverse l). rewrite head_reverse.
    apply drev_lead; [lia|]. pose proof (fits_32 (Z.abs xx) base). lia.
  - intros H10. pose proof (printint_buf_eq xx base Hx) as E. apply (f_equal length) in E. rewrite length_rev in E. rewrite E.
    unfold show_int. rewrite length_app, length_fmap, length_rev.
    assert (length (drev 32 (Z.abs xx) base) <= 10)%nat.
    { apply drev_length; [lia| |lia]. split; [lia|]. apply Z.lt_le_trans with (10 ^ Z.of_nat 10); [lia|].
      apply Z.pow_le_mono_l. lia. }
    destruct (xx <? 0); cbn [length]; lia.
Qed.

(** ** printf *)

(** A pointer: 16 hexadecimal digits. *)
Definition show_ptr (x : Z) : list Z :=
  [48; 120] ++ ((fun i => digit (x / 16 ^ (15 - i) mod 16)) <$> seqZ 0 16).

(** What [printf] prints for a format and its arguments, when the arguments
    match the format. *)
Fixpoint render (fmt : list Z) (ap : list vararg) : option (list Z) :=
  match fmt with
  | [] => Some []
  | c :: fmt1 =>
      if c =? 0 then Some []
      else if negb (c =? 37) then app [c] <$> render fmt1 ap
      else
        match fmt1 with
        | [] => Some []
        | c :: fmt2 =>
            if c =? 0 then Some []
            else if c =? 100 then
              match ap with AInt x :: ap => app (show_int (s32 x) 10) <$> render fmt2 ap | _ => None end
            else if c =? 120 then
              match ap with AInt x :: ap => app (show_int (s32 x) 16) <$> render fmt2 ap | _ => None end
            else if c =? 112 then
              match ap with APtr x :: ap => app (show_ptr x) <$> render fmt2 ap | _ => None end
            else if c =? 115 then
              match ap with
              | AStr s :: ap => app (cstr (default (str "(null)") s)) <$> render fmt2 ap
              | _ => None
              end
            else if c =? 37 then app [37] <$> render fmt2 ap
            else app [37; c] <$> render fmt2 ap
        end
  end.

Definition arg_ok (a : vararg) : Prop :=
  match a with
  | AInt _ => True
  | APtr x => 0 <= x < 2 ^ 64
  | AStr s => Forall is_byte (default [] s)
  end.

Lemma is_byte_out l : Forall is_byte l -> u8 <$> l = l /\ Forall (fun c => c <> BACKSPACE) l.
Proof.
  induction l as [|c l IH]; intros Hl; [done|]. inversion Hl as [|? ? Hc Hl']; subst. destruct (IH Hl') as [E F].
  unfold is_byte in Hc. rewrite fmap_cons, E. unfold u8. rewrite Z.mod_small by lia. split; [done|].
  constructor; [unfold BACKSPACE; lia|done].
Qed.

Lemma ptr_digit x i : 0 <= x < 2 ^ 64 -> (i < 16)%nat ->
  Z.shiftr (u64 (Z.shiftl x (4 * Z.of_nat i))) 60 = x / 16 ^ (15 - Z.of_nat i) mod 16.
Proof.
  intros Hx Hi. rewrite Z.shiftr_div_pow2, Z.shiftl_mul_pow2 by lia. unfold u64.
  do 16 (destruct i as [|i]; [cbn -[Z.div Z.modulo Z.mul]; dlia|]). lia.
Qed.

Lemma show_ptr_out x : u8 <$> show_ptr x = show_ptr x /\ Forall (fun c => c <> BACKSPACE) (show_ptr x).
Proof.
  unfold show_ptr. set (f := fun i => x / 16 ^ (15 - i) mod 16).
  change ((fun i => digit _) <$> seqZ 0 16) with ((fun i => digit (f i)) <$> seqZ 0 16).
  rewrite (list_fmap_compose f digit). destruct (digits_out 16 (f <$> seqZ 0 16)) as [E1 E2]; [lia| |].
  - apply Forall_fmap, Forall_true. intros i. apply Z.mod_pos_bound. lia.
  - rewrite fmap_app, E1. split; [done|]. apply Forall_app. split; [by repeat constructor|done].
Qed.

Lemma printptr_eq x s :
  hart_stable (phart s) -> tty_ready s.(the_tty) -> 0 <= x < 2 ^ 64 ->
  printptr x s = Ok tt (put_tty (tty_puts (show_ptr x) s.(the_tty)) s).
Proof.
  intros Hh Ht Hx. rewrite <- consputs_eq; [|done|done|apply show_ptr_out].
  change (printptr x s) with (iterM ([48; 120] ++
    ((fun i => digit (Z.shiftr (u64 (Z.shiftl x (4 * Z.of_nat i))) 60)) <$> seq 0 16)) consputc s).
  unfold show_ptr. do 2 f_equal. change (seqZ 0 16) with (Z.of_nat <$> seq 0 16).
  rewrite <- list_fmap_compose. apply list_fmap_ext. intros k i Hk%lookup_seq. unfold compose.
  rewrite ptr_digit by lia. done.
Qed.

Lemma cstr_byte l : Forall is_byte l -> Forall is_byte (cstr l).
Proof. induction 1 as [|c l Hc Hl IH]; cbn; [constructor|]. destruct (c =? 0); by constructor. Qed.

(** [out] is sent from any state that can print. *)
Definition prints (m : M pst unit) (out : list Z) : Prop :=
  forall s, hart_stable (phart s) -> tty_ready s.(the_tty) ->
    m s = Ok tt (put_tty (tty_puts out s.(the_tty)) s).

Lemma prints_bind m m' out out' : prints m out -> prints m' out' -> prints (m ;; m') (out ++ out').
Proof.
  intros Hm Hm' s Hh Ht. cbn [bind]. rewrite Hm by done. cbn [obind].
  rewrite Hm'; [|done|by apply tty_puts_ready]. by rewrite tty_puts_app.
Qed.

Lemma prints_ret : prints (ret tt) [].
Proof. intros s _ _. cbn. by destruct s. Qed.

Lemma prints_chars l : Forall is_byte l -> prints (iterM l consputc) l.
Proof. intros Hl s Hh Ht. apply consputs_eq; [done..|]. by apply is_byte_out. Qed.

Lemma prints_char c : is_byte c -> prints (consputc c) [c].
Proof.
  intros Hc s Hh Ht. unfold consputc. destruct (Z.eqb_spec c BACKSPACE) as [->|].
  - unfold is_byte, BACKSPACE in Hc. lia.
  - by apply uartputc_sync_eq.
Qed.

Lemma prints_int x base : 2 <= base <= 16 -> prints (printint (s32 x) base true) (show_int (s32 x) base).
Proof. intros Hb s Hh Ht. apply printint_eq; [done..|apply s32_range|done]. Qed.

Lemma prints_ptr x : 0 <= x < 2 ^ 64 -> prints (printptr x) (show_ptr x).
Proof. intros Hx s Hh Ht. by apply printptr_eq. Qed.

(** The rest of the format after a piece of output. *)
Lemma prints_next (m m' : M pst unit) (out : list Z) (r : option (list Z)) out' :
  prints m out -> app out <$> r = Some out' -> (forall o, r = Some o -> prints m' o) -> prints (m ;; m') out'.
Proof.
  intros Hm Hr Hm'. destruct r as [o|]; [|done]. injection Hr as <-. apply prints_bind; auto.
Qed.

Lemma printf_loop_prints n : forall fmt ap out, (length fmt <= n)%nat ->
  Forall is_byte fmt -> Forall arg_ok ap -> render fmt ap = Some out -> prints (printf_loop fmt ap) out.
Proof.
  induction n as [|n IH]; intros fmt ap out Hn Hf Ha Hr;
    (destruct fmt as [|c fmt]; [injection Hr as <-; apply prints_ret|]); [cbn in Hn; lia|].
  cbn [render printf_loop length] in *. inversion Hf as [|? ? Hc Hf']; subst.
  destruct (c =? 0); [injection Hr as <-; apply prints_ret|].
  destruct (negb (c =? 37)).
  { apply (prints_next _ _ _ _ _ (prints_char c Hc) Hr). intros o Ho. apply IH; try done. lia. }
  destruct fmt as [|d fmt]; [injection Hr as <-; apply prints_ret|]. cbn [length] in Hn.
  inversion Hf' as [|? ? Hd Hf'']; subst. destruct (d =? 0) eqn:E0; [injection Hr as <-; apply prints_ret|].
  assert (Hrest : forall ap' o, Forall arg_ok ap' -> render fmt ap' = Some o -> prints (printf_loop fmt ap') o).
  { intros ap' o Ha' Ho. apply IH; try done. lia. }
  assert (Hnext : forall m o ap', prints m o -> Forall arg_ok ap' -> app o <$> render fmt ap' = Some out ->
    prints (m ;; printf_loop fmt ap') out).
  { intros m o ap' Hm Ha' Hr'. apply (prints_next _ _ _ _ _ Hm Hr'). auto. }
  destruct (d =? 100); [destruct ap as [|[x|x|x] ap]; try done; inversion Ha; subst; by apply (Hnext _ _ _ (prints_int x 10 ltac:(lia)))|].
  destruct (d =? 120); [destruct ap as [|[x|x|x] ap]; try done; inversion Ha; subst; by apply (Hnext _ _ _ (prints_int x 16 ltac:(lia)))|].
  destruct (d =? 112); [destruct ap as [|[x|x|x] ap]; try done; inversion Ha; subst; by apply (Hnext _ _ _ (prints_ptr x ltac:(done)))|].
  destruct (d =? 115).
  { destruct ap as [|[x|x|x] ap]; try done. inversion Ha as [|? ? Hx Ha']; subst.
    refine (Hnext _ _ _ (prints_chars _ _) Ha' Hr). apply cstr_byte. destruct x; [done|].
    refine (bool_decide_unpack _ _). unfold is_byte. by vm_compute. }
  assert (H37 : is_byte 37) by done.
  destruct (d =? 37); [by apply (Hnext _ _ _ (prints_char 37 H37))|].
  change (app [37; d]) with (fun l => app [37] (app [d] l)) in Hr.
  destruct (render fmt ap) as [o|] eqn:Eo; [|done]. injection Hr as <-.
  apply (prints_bind _ _ [37] (d :: o)); [by apply prints_char|].
  apply (prints_bind _ _ [d] o); [by apply prints_char|auto].
Qed.

Lemma tty_puts_lock out x t : tty_puts out (put pr_lock_l x t) = put pr_lock_l x (tty_puts out t).
Proof. revert t. induction out as [|c out IH]; intros t; [done|]. exact (IH (tty_putc c t)). Qed.

Lemma tty_puts_pr out s :
  put_tty (tty_puts out (the_tty (in_tty pr_lock_l s))) (in_tty pr_lock_l s) =
  in_tty pr_lock_l (put_tty (tty_puts out (the_tty s)) s).
Proof.
  unfold put_tty, in_tty. cbn [uart lcomp put view].
  change (the_tty (put the_tty_l ?t ?s)) with t. change (view the_tty_l (put the_tty_l ?t ?s)) with t.
  change (view the_tty_l (put the_hart ?h s)) with (the_tty s). rewrite tty_puts_lock.
  rewrite (tty_puts_frame out (the_tty s)) at 3. done.
Qed.

Lemma printf_prints fmt ap out s :
  hart_stable (phart s) -> tty_ready s.(the_tty) -> lock_free s.(the_tty).(pr_lock) ->
  Forall is_byte fmt -> Forall arg_ok ap -> render fmt ap = Some out ->
  printf (Some fmt) ap s = Ok tt (put_tty (tty_puts out s.(the_tty)) s).
Proof.
  intros Hh Ht Hl Hf Ha Hr. pose proof (printf_loop_prints (length fmt) fmt ap out ltac:(done) Hf Ha Hr) as Hp.
  unfold printf. cbn [bind get gets obind]. destruct (nz (view (uart pr_locking_l) s)).
  - cbn [obind bind]. rewrite (acquire_tty pr_lock_l s Hl). cbn [obind bind].
    rewrite Hp; [|by apply in_tty_stable|done]. cbn [obind]. rewrite tty_puts_pr.
    apply (release_tty pr_lock_l (put_tty (tty_puts out (the_tty s)) s)); [done|].
    by rewrite tty_puts_frame.
  - cbn [obind ret bind]. rewrite Hp by done. done.
Qed.

(** C31: [printf] prints its format: characters as they are, [%d] and [%x] as
    the sign and digits of an [int], [%p] as 16 hexadecimal digits, [%s] as
    the string up to its NUL (or (null)), [%%] as a percent sign, and an
    unknown sequence unchanged.  It leaves its lock and the rest of the state
    as they were.  Without a format it panics. *)
Theorem printf_spec (fmt : list Z) (ap : list vararg) (out : list Z) (s : pst) :
  hart_stable (phart s) -> tty_ready s.(the_tty) -> lock_free s.(the_tty).(pr_lock) ->
  Forall is_byte fmt -> Forall arg_ok ap -> render fmt ap = Some out ->
  (exists busy, printf (Some fmt) ap s =
    Ok tt (put the_tty_l (put u_sent_l (s.(the_tty).(u_sent) ++ (u8 <$> out)) (put u_busy_l busy s.(the_tty))) s)) /\
  printf None ap s = Panic "null fmt".
Proof.
  intros Hh Ht Hl Hf Ha Hr. split.
  - exists (u_busy (tty_puts out (the_tty s))). rewrite (printf_prints fmt ap out) by done.
    unfold put_tty. do 2 f_equal. rewrite tty_puts_frame at 1. by rewrite tty_puts_sent.
  - unfold printf. cbn [bind get gets obind]. destruct (nz (view (uart pr_locking_l) s)); [|done].
    cbn [bind]. by rewrite (acquire_tty pr_lock_l s Hl).
Qed.

(** ** Examples *)

Definition demo_tty (h : hart) : pst := demo_pst h.

Lemma printint_spec_witness :
  exists s', printint (- 2 ^ 31) 10 true (demo_tty demo_hart) = Ok tt s' /\
    u_sent (the_tty s') = str "-2147483648".
Proof.
  destruct (printint_spec (- 2 ^ 31) 10 (demo_tty demo_hart)) as (ds & busy & E & _).
  - apply demo_hart_stable.
  - split; reflexivity.
  - lia.
  - lia.
  - assert (E2 : match printint (- 2 ^ 31) 10 true (demo_tty demo_hart) with
                 | Ok _ s' => u_sent (the_tty s') | _ => [] end = str "-2147483648") by (vm_compute; reflexivity).
    eexists. split; [exact E|]. rewrite E in E2. exact E2.
Defined.

Lemma printf_spec_witness :
  exists s', printf (Some (str "pid %d: %s%%")) [AInt 7; AStr (Some (str "sh"))] (demo_tty demo_hart) = Ok tt s' /\
    u_sent (the_tty s') = str "pid 7: sh%".
Proof.
  destruct (printf_spec (str "pid %d: %s%%") [AInt 7; AStr (Some (str "sh"))] (str "pid 7: sh%")
              (demo_tty demo_hart)) as [[busy E] _].
  - apply demo_hart_stable.
  - split; reflexivity.
  - split; reflexivity.
  - refine (bool_decide_unpack _ _). unfold is_byte. vm_compute. reflexivity.
  - constructor; [exact I|]. constructor; [|constructor].
    refine (bool_decide_unpack _ _). unfold is_byte. vm_compute. reflexivity.
  - vm_compute. reflexivity.
  - eexists. split; [exact E|]. reflexivity.
Defined.
