(* ===== verification/Console.v ===== *)
(** * The console (kernel/console.c, uartintr of kernel/uart.c)

    Reads and writes of the console device, and the interrupt handler that
    edits the input line. *)

From S2P Require Import Prelude Riscv Memory Spinlock Kalloc Vm Tty Proc ProcSpec Sleeplock Uart.

(** Control-x. *)
Definition ctrl (c : Z) : Z := c - 64.

Definition cons_at (t : tty) (i : Z) : Z := t.(c_buf) !!! Z.to_nat (u32 i mod INPUT_BUF_SIZE).

Section Console.
Context `{Image} `{Patience}.

Definition consolewrite_body (src : uaddr) (n i : Z) : M pst (Z + Z) :=
  if negb (i <? n) then ret (inr i)
  else
    x <- either_copyin (uaddr_add src i) 1 ;;
    let '(r, bs) := x in
    if r =? -1 then ret (inr i)
    else
      uartputc (hd 0 bs) ;;
      ret (inl (i + 1)).

Definition consolewrite (src : uaddr) (n : Z) : M pst Z :=
  loop (S (Z.to_nat n)) (consolewrite_body src n) 0.

(** [while(cons.r == cons.w) ...]; [true] when the process was killed. *)
Definition consoleread_wait (_ : unit) : M pst (unit + bool) :=
  t <- get the_tty_l ;;
  if t.(c_r) =? t.(c_w) then
    p <- myprocp ;;
    k <- killed p ;;
    if nz k then
      release (uart c_lock_l) ;;
      ret (inr true)
    else
      sleep chConsR (uart c_lock_l) ;;
      ret (inl tt)
  else ret (inr false).

(** [inr None]: returned inside the loop; [inr (Some n)]: left it. *)
Definition consoleread_body (target : Z) (x : uaddr * Z) : M pst ((uaddr * Z) + option Z) :=
  let '(dst, n) := x in
  if negb (0 <? n) then ret (inr (Some n))
  else
    k <- loop (S patience) consoleread_wait tt ;;
    if k : bool then ret (inr None)
    else
      t <- get the_tty_l ;;
      let c := cons_at t t.(c_r) in
      set (uart c_r_l) (u32 (t.(c_r) + 1)) ;;
      if c =? ctrl 68 then
        (if u32 n <? target then update (uart c_r_l) (fun r => u32 (r - 1)) else ret tt) ;;
        ret (inr (Some n))
      else
        r <- either_copyout dst [c] 1 ;;
        if r =? -1 then ret (inr (Some n))
        else if c =? 10 then ret (inr (Some (n - 1)))
        else ret (inl (uaddr_add dst 1, n - 1)).

Definition consoleread (dst : uaddr) (n : Z) : M pst Z :=
  let target := u32 n in
  acquire (uart c_lock_l) ;;
  r <- loop (S (Z.to_nat n)) (consoleread_body target) (dst, n) ;;
  match r with
  | None => ret (-1)
  | Some n =>
      release (uart c_lock_l) ;;
      ret (s32 (target - n))
  end.

(** One character erased by control-U. *)
Definition kill_line_body (_ : unit) : M pst (unit + unit) :=
  t <- get the_tty_l ;;
  if negb (t.(c_e) =? t.(c_w)) && negb (cons_at t (t.(c_e) - 1) =? 10) then
    set (uart c_e_l) (u32 (t.(c_e) - 1)) ;;
    consputc BACKSPACE ;;
    ret (inl tt)
  else ret (inr tt).

Definition kill_line : M pst unit :=
  t <- get the_tty_l ;;
  loop (S (Z.to_nat (u32 (t.(c_e) - t.(c_w))))) kill_line_body tt.

Definition erase_char : M pst unit :=
  t <- get the_tty_l ;;
  if negb (t.(c_e) =? t.(c_w)) then
    set (uart c_e_l) (u32 (t.(c_e) - 1)) ;;
    consputc BACKSPACE
  else ret tt.

(** [cons.buf[cons.e++ % INPUT_BUF_SIZE] = c] *)
Definition cons_store (c : Z) (t : tty) : tty :=
  put c_e_l (u32 (t.(c_e) + 1))
    (put c_buf_l (<[Z.to_nat (t.(c_e) mod INPUT_BUF_SIZE) := u8 c]> t.(c_buf)) t).

Definition type_char (c : Z) : M pst unit :=
  t <- get the_tty_l ;;
  if nz c && (u32 (t.(c_e) - t.(c_r)) <? INPUT_BUF_SIZE) then
    let c := if c =? 13 then 10 else c in
    consputc c ;;
    update the_tty_l (cons_store c) ;;
    t <- get the_tty_l ;;
    if (c =? 10) || (c =? ctrl 68) || (u32 (t.(c_e) - t.(c_r)) =? INPUT_BUF_SIZE) then
      set (uart c_w_l) t.(c_e) ;;
      wakeup chConsR
    else ret tt
  else ret tt.

Definition consoleintr (c : Z) : M pst unit :=
  acquire (uart c_lock_l) ;;
  (if c =? ctrl 80 then procdump
   else if c =? ctrl 85 then kill_line
   else if (c =? ctrl 72) || (c =? 127) then erase_char
   else type_char c) ;;
  release (uart c_lock_l).

(** The part of [consoleinit] below the file layer: the device switch is set
    up where it is declared. *)
Definition consoleinit_tty : M pst unit :=
  set (uart c_lock_l) (initlock "cons") ;;
  uartinit.

(** ** uartintr *)

Definition uartintr_body (_ : unit) : M pst (unit + unit) :=
  c <- uartgetc ;;
  if c =? -1 then ret (inr tt)
  else
    consoleintr c ;;
    ret (inl tt).

(** As many iterations as bytes wait in the receiver. *)
Definition uartintr : M pst unit :=
  t <- get the_tty_l ;;
  loop (S (length t.(u_rx))) uartintr_body tt ;;
  acquire (uart tx_lock_l) ;;
  uartstart ;;
  release (uart tx_lock_l).

End Console.
