(* ===== verification/ConsThm.v ===== *)
(** * The transmit buffer of the UART and the console's input line

    uartputc and uartstart (kernel/uart.c) keep a bounded queue; consoleintr
    (kernel/console.c) edits the line being typed and hands over whole lines. *)

From S2P Require Import Prelude Ring Riscv Memory Spinlock Kalloc Vm Tty Proc ProcSpec Sleeplock Uart UartThm Console.

(** ** The transmit buffer *)

Lemma tx_size : 0 < UART_TX_BUF_SIZE < 2 ^ 64.
Proof. unfold UART_TX_BUF_SIZE. lia. Qed.
Lemma tx_div : (UART_TX_BUF_SIZE | 2 ^ 64).
Proof. exists (2 ^ 59). done. Qed.

Definition tx_len (t : tty) : Z := rlen (2 ^ 64) t.(tx_r) t.(tx_w).
Definition tx_queue (t : tty) : list Z := rqueue UART_TX_BUF_SIZE (2 ^ 64) t.(tx_buf) t.(tx_r) t.(tx_w).

Record tx_ok (t : tty) : Prop := {
  tx_ring : ring_ok UART_TX_BUF_SIZE (2 ^ 64) t.(tx_buf) t.(tx_r) t.(tx_w);
  tx_bytes : Forall is_byte t.(tx_buf);
  tx_mode : Z.testbit (t.(u_regs) !!! LCR) 7 = false
}.

(** What has been sent and what waits to be. *)
Definition ostream (t : tty) : list Z := t.(u_sent) ++ tx_queue t.

(** The fields that the transmitting code does not touch. *)
Definition tx_frame (t t' : tty) : Prop :=
  t' = put u_sent_l t'.(u_sent) (put u_busy_l t'.(u_busy) (put tx_r_l t'.(tx_r) t)).

Lemma tx_frame_refl t : tx_frame t t.
Proof. by destruct t. Qed.
Lemma tx_frame_trans t1 t2 t3 : tx_frame t1 t2 -> tx_frame t2 t3 -> tx_frame t1 t3.
Proof. unfold tx_frame. intros E1 E2. rewrite E2. rewrite E1. by destruct t1. Qed.

Lemma wakes_tty t t' : wakes t t' -> t'.(the_tty) = t.(the_tty).
Proof. intros [-> _]. done. Qed.

Lemma wakes_put_tty x t t' : wakes t t' -> wakes (put_tty x t) (put_tty x t').
Proof. intros [E Hp]. split; [rewrite E; by destruct t|done]. Qed.

Lemma running_put_tty p x t : running p t -> running p (put_tty x t).
Proof. done. Qed.

(** One byte sent, or the reason to stop. *)
Lemma uartstart_step p s :
  running p s -> tx_ok s.(the_tty) ->
  (exists t' s', uartstart_body tt s = Ok (inl tt) s' /\ wakes (put_tty t' s) s' /\ tx_ok t' /\
     tx_frame s.(the_tty) t' /\ ostream t' = ostream s.(the_tty) /\ tx_len t' = tx_len s.(the_tty) - 1 /\
     t'.(u_busy) = tl s.(the_tty).(u_busy)) \/
  (exists t', uartstart_body tt s = Ok (inr tt) (put_tty t' s) /\ tx_ok t' /\ tx_frame s.(the_tty) t' /\
     ostream t' = ostream s.(the_tty) /\ (tx_queue t' = [] \/ hd false s.(the_tty).(u_busy) = true)).
Proof.
  intros Hr [Hring Hb Hm]. destruct Hring as [Hd Hrr Hww Hl] eqn:E0. clear E0.
  unfold uartstart_body. cbn [bind get gets obind]. change (view the_tty_l s) with (the_tty s).
  rewrite Z.eqb_sym, (ring_empty _ _ tx_size) by done. fold (tx_len (the_tty s)).
  pose proof (rlen_range _ _ tx_size (tx_r (the_tty s)) (tx_w (the_tty s))) as Hlen. fold (tx_len (the_tty s)) in Hlen.
  destruct (Z.eqb_spec (tx_len (the_tty s)) 0) as [Ez|Ez].
  { right. exists (the_tty s). split_and!; [|done|apply tx_frame_refl|done|].
    - cbn. f_equal. by destruct s.
    - left. unfold tx_queue, rqueue. by rewrite (Ez : rlen _ _ _ = 0). }
  cbn [bind]. destruct (read_LSR_idle s) as (lsr & -> & El). cbn [obind]. rewrite El.
  destruct (hd false (u_busy (the_tty s))) eqn:Eb.
  { right. eexists. split_and!; [reflexivity|by split|by destruct (the_tty s)|done|by right]. }
  left. cbn [bind set modify obind].
  set (s1 := put (uart tx_r_l) _ _).
  destruct (wakes_wakeup chUartTxR s1) as (s2 & Ew & Hw).
  { eapply unlocked_weaken; [|exact (proj1 Hr)]. by intros q []. }
  rewrite Ew. cbn [obind bind]. rewrite write_THR.
  2:{ by rewrite (wakes_tty _ _ Hw). }
  cbn [obind ret]. rewrite (wakes_tty _ _ Hw).
  destruct (ring_pop _ _ tx_size tx_div _ _ _ Hring ltac:(unfold tx_len in *; lia)) as (Hok & Hlen' & Hq).
  eexists _, _. split; [reflexivity|]. split.
  { exact (wakes_put_tty _ _ _ Hw). }
  split_and!; [by split| | |exact Hlen'|done].
  - by destruct (the_tty s).
  - unfold ostream, tx_queue. change (the_tty s1) with (put tx_r_l (u64 (tx_r (the_tty s) + 1))
      (put u_busy_l (tl (u_busy (the_tty s))) (the_tty s))).
    cbn [put u_sent_l u_busy_l tx_r_l u_sent tx_buf tx_r tx_w]. rewrite Hq, <- app_assoc. cbn [app].
    do 2 f_equal. unfold u8. rewrite Z.mod_small; [done|].
    eapply (Forall_elem is_byte); [exact Hb|]. apply list_elem_of_lookup_total_2. rewrite Hd.
    apply (ring_slot _ _ tx_size).
Qed.

(** [uartstart] sends from the front of the queue until it is empty or the
    device is busy. *)
Lemma uartstart_loop p n : forall s, running p s -> tx_ok s.(the_tty) -> tx_len s.(the_tty) < Z.of_nat n ->
  exists t' s', loop n uartstart_body tt s = Ok tt s' /\ wakes (put_tty t' s) s' /\ tx_ok t' /\
    tx_frame s.(the_tty) t' /\ ostream t' = ostream s.(the_tty) /\
    (Forall (fun b => b = false) s.(the_tty).(u_busy) -> tx_queue t' = []).
Proof.
  induction n as [|n IH]; intros s Hr Hok Hn.
  { pose proof (rlen_range _ _ tx_size (tx_r (the_tty s)) (tx_w (the_tty s))). unfold tx_len in Hn. lia. }
  rewrite loop_S. destruct (uartstart_step p s Hr Hok) as
    [(t1 & s1 & -> & Hw & Hok1 & Hf1 & Ho1 & Hl1 & Hb1)|(t1 & -> & Hok1 & Hf1 & Ho1 & Hs)].
  - cbn [obind]. pose proof (wakes_tty _ _ Hw) as Et. change (the_tty (put_tty t1 s)) with t1 in Et.
    destruct (IH s1) as (t' & s' & -> & Hw' & Hok' & Hf' & Ho' & Hs').
    + by apply (running_wakes p (put_tty t1 s)).
    + by rewrite Et.
    + rewrite Et. lia.
    + rewrite Et in *. exists t', s'. split_and!; try done.
      * eapply wakes_trans; [|exact Hw']. exact (wakes_put_tty t' _ _ Hw).
      * by eapply tx_frame_trans.
      * congruence.
      * intros Hbs. apply Hs'. rewrite Hb1. destruct (u_busy (the_tty s)); [done|]. by inversion Hbs.
  - exists t1, (put_tty t1 s). split_and!; try done; [apply wakes_refl|].
    intros Hbs. destruct Hs as [|Hs]; [done|]. destruct (u_busy (the_tty s)) as [|b l]; [done|].
    inversion Hbs; subst. done.
Qed.

Lemma uartstart_eq p s :
  running p s -> tx_ok s.(the_tty) ->
  exists t' s', uartstart s = Ok tt s' /\ wakes (put_tty t' s) s' /\ tx_ok t' /\
    tx_frame s.(the_tty) t' /\ ostream t' = ostream s.(the_tty) /\
    (Forall (fun b => b = false) s.(the_tty).(u_busy) -> tx_queue t' = []).
Proof.
  intros Hr Hok. unfold uartstart. cbn [bind get gets obind]. change (view the_tty_l s) with (the_tty s).
  apply (uartstart_loop p); [done..|]. change (u64 ?x) with (x mod 2 ^ 64). fold (rlen (2 ^ 64) (tx_r (the_tty s)) (tx_w (the_tty s))).
  pose proof (rlen_range _ _ tx_size (tx_r (the_tty s)) (tx_w (the_tty s))). unfold tx_len. lia.
Qed.

(** ** Wakeups inside a critical section *)

Lemma wakes_in_tty k `{!LensLaws k} s S' : wakes (in_tty k s) S' -> exists s', S' = in_tty k s' /\ wakes s s'.
Proof.
  intros [E Hp]. exists (put procs_l S'.(procs) s). split.
  - rewrite E. by destruct s.
  - split; [done|]. intros p. destruct (Hp p) as [Ep|(Hs & Hn & Ep)]; [by left|right].
    split_and!; [done| |done]. intros Hc. apply Hn. change (phart (in_tty k s)) with (push_off_h (phart s)).
    unfold push_off_h. by destruct (noff (phart s) =? 0).
Qed.

Lemma running_in_tty k `{!LensLaws k} p s : running p s -> running p (in_tty k s).
Proof.
  intros [[Hh Hl] Hp]. split; [split|].
  - by apply in_tty_stable.
  - exact Hl.
  - change (phart (in_tty k s)) with (push_off_h (phart s)). unfold push_off_h. by destruct (noff (phart s) =? 0).
Qed.

(** ** uartputc *)

Definition tx_push (c : Z) (t : tty) : tty :=
  put tx_w_l (u64 (t.(tx_w) + 1)) (put tx_buf_l (<[Z.to_nat (t.(tx_w) mod UART_TX_BUF_SIZE) := u8 c]> t.(tx_buf)) t).

Lemma tx_push_ok c t :
  tx_ok t -> tx_len t < UART_TX_BUF_SIZE -> tx_ok (tx_push c t) /\ ostream (tx_push c t) = ostream t ++ [u8 c].
Proof.
  intros [Hr Hb Hm] Hl. destruct (ring_push _ _ tx_size tx_div _ _ _ (u8 c) Hr Hl) as [Hok Hq].
  split; [split; [exact Hok| |done]|].
  - apply Forall_insert; [done|]. apply Z.mod_pos_bound. lia.
  - unfold ostream, tx_queue. etransitivity; [exact (f_equal (app (u_sent t)) Hq)|]. apply app_assoc.
Qed.

(** Only the transmit buffer, its counters and the device change. *)
Definition tx_only (t t' : tty) : Prop :=
  t' = put u_sent_l t'.(u_sent) (put u_busy_l t'.(u_busy) (put tx_r_l t'.(tx_r)
         (put tx_w_l t'.(tx_w) (put tx_buf_l t'.(tx_buf) t)))).

(** The transmit lock's section around [uartstart]. *)
Lemma uartstart_in p s :
  running p s -> tx_ok s.(the_tty) -> lock_free s.(the_tty).(tx_lock) ->
  exists t' s', (uartstart ;; release (uart tx_lock_l)) (in_tty tx_lock_l s) = Ok tt s' /\
    wakes (put_tty t' s) s' /\ tx_ok t' /\ tx_frame s.(the_tty) t' /\ ostream t' = ostream s.(the_tty) /\
    (Forall (fun b => b = false) s.(the_tty).(u_busy) -> tx_queue t' = []).
Proof.
  intros Hr Hok Hl. destruct (uartstart_eq p (in_tty tx_lock_l s)) as (t' & S' & E & Hw & Hok' & Hf & Ho & Hi).
  { exact (running_in_tty tx_lock_l p s Hr). } { by destruct Hok. }
  set (t1 := put tx_lock_l (tx_lock (the_tty s)) t').
  assert (Et : put_tty t' (in_tty tx_lock_l s) = in_tty tx_lock_l (put_tty t1 s)).
  { unfold t1. rewrite Hf. by destruct s as [[] ? ? ? ? ? ? ? ? []]. }
  rewrite Et in Hw. destruct (wakes_in_tty tx_lock_l _ _ Hw) as (s' & -> & Hw').
  exists t1, s'. split_and!; try done.
  - cbn [bind]. rewrite E. cbn [obind]. apply (release_tty tx_lock_l).
    + rewrite (wakes_hart _ _ Hw'). apply Hr.
    + by rewrite (wakes_tty _ _ Hw').
  - by destruct Hok'.
  - unfold tx_frame, t1. rewrite Hf. by destruct s as [[] ? ? ? ? ? ? ? ? []].
Qed.

(** C27: the bytes that [uartputc] is given leave the machine in order.  With
    room in the 32-byte transmit buffer it returns, and what has been sent
    followed by what is buffered has grown by exactly its byte; if the device
    is idle nothing stays buffered.  The buffer's counters wrap at 2^64. *)
Theorem uartputc_spec `{Patience} (p : fin 64) (s : pst) (c : Z) :
  running p s -> s.(the_tty).(panicked) = 0 -> tx_ok s.(the_tty) -> lock_free s.(the_tty).(tx_lock) ->
  tx_len s.(the_tty) < UART_TX_BUF_SIZE ->
  exists t' s', uartputc c s = Ok tt s' /\ wakes (put the_tty_l t' s) s' /\ tx_ok t' /\
    tx_only s.(the_tty) t' /\ ostream t' = ostream s.(the_tty) ++ [u8 c] /\
    (Forall (fun b => b = false) s.(the_tty).(u_busy) -> tx_queue t' = []).
Proof.
  intros Hr Hp Hok Hl Hlen. destruct (tx_push_ok c _ Hok Hlen) as [Hok1 Ho1].
  destruct (uartstart_in p (put_tty (tx_push c (the_tty s)) s) Hr Hok1 Hl) as (t' & s' & E & Hw & Hok' & Hf & Ho & Hi).
  exists t', s'. split_and!; [|exact Hw|done| |rewrite Ho; exact Ho1|exact Hi].
  - unfold uartputc. cbn [bind]. rewrite (acquire_tty tx_lock_l) by done. cbn [obind bind].
    unfold freeze. cbn [bind get gets obind].
    change (panicked (view the_tty_l (in_tty tx_lock_l s))) with (panicked (the_tty s)). rewrite Hp.
    cbn [nz Z.eqb negb ret obind bind]. rewrite loop_S. unfold uartputc_wait at 1. cbn [bind get gets obind].
    change (tx_w (view the_tty_l (in_tty tx_lock_l s))) with (tx_w (the_tty s)).
    change (tx_r (view the_tty_l (in_tty tx_lock_l s))) with (tx_r (the_tty s)).
    destruct Hok as [[_ Hrr Hww _] _ _].
    rewrite (rlen_full _ _ tx_size tx_div _ _ Hrr Hww :
               (tx_w (the_tty s) =? u64 (tx_r (the_tty s) + UART_TX_BUF_SIZE)) = _).
    destruct (Z.eqb_spec (rlen (2 ^ 64) (tx_r (the_tty s)) (tx_w (the_tty s))) UART_TX_BUF_SIZE);
      [unfold tx_len in Hlen; lia|].
    cbn [obind ret bind update modify]. rewrite <- E. by destruct s as [[] ? ? ? ? ? ? ? ? []].
  - unfold tx_only. unfold tx_frame in Hf. rewrite Hf. by destruct (the_tty s).
Qed.

(** ** The console's input line *)

Lemma cons_size : 0 < INPUT_BUF_SIZE < 2 ^ 32.
Proof. unfold INPUT_BUF_SIZE. lia. Qed.
Lemma cons_div : (INPUT_BUF_SIZE | 2 ^ 32).
Proof. exists (2 ^ 25). done. Qed.

Definition clen (a b : Z) : Z := rlen (2 ^ 32) a b.
Definition cqueue (t : tty) (a b : Z) : list Z := rqueue INPUT_BUF_SIZE (2 ^ 32) t.(c_buf) a b.

(** What [consoleread] may read, and the line that is still being edited. *)
Definition ccom (t : tty) : list Z := cqueue t t.(c_r) t.(c_w).
Definition cline (t : tty) : list Z := cqueue t t.(c_w) t.(c_e).

Record cons_ok (t : tty) : Prop := {
  co_ring : ring_ok INPUT_BUF_SIZE (2 ^ 32) t.(c_buf) t.(c_r) t.(c_e);
  co_w : 0 <= t.(c_w) < 2 ^ 32;
  co_split : clen t.(c_r) t.(c_w) + clen t.(c_w) t.(c_e) = clen t.(c_r) t.(c_e);
  co_line : Forall (fun c => c <> 10) (cline t)
}.

(** The editor that the interrupt handler implements: the bytes that can be
    read and the current line, after the character [c] was typed. *)
Definition edit (c : Z) (x : list Z * list Z) : list Z * list Z :=
  let '(com, line) := x in
  if c =? ctrl 80 then (com, line)
  else if c =? ctrl 85 then (com, [])
  else if (c =? ctrl 72) || (c =? 127) then (com, removelast line)
  else if (c =? 0) || (128 <=? Z.of_nat (length com + length line)) then (com, line)
  else
    let c := if c =? 13 then 10 else c in
    if (c =? 10) || (c =? ctrl 68) || (Z.of_nat (length com + length line) =? 127)
    then (com ++ line ++ [c], [])
    else (com, line ++ [c]).

(** What it echoes. *)
Definition rubout : list Z := [8; 32; 8].
Definition echo (c : Z) (x : list Z * list Z) : list Z :=
  let '(com, line) := x in
  if c =? ctrl 85 then concat (replicate (length line) rubout)
  else if (c =? ctrl 72) || (c =? 127) then if decide (line = []) then [] else rubout
  else if (c =? 0) || (128 <=? Z.of_nat (length com + length line)) then []
  else [if c =? 13 then 10 else c].

Lemma cons_lens t :
  cons_ok t -> Z.of_nat (length (ccom t)) = clen t.(c_r) t.(c_w) /\ Z.of_nat (length (cline t)) = clen t.(c_w) t.(c_e) /\
  0 <= clen t.(c_r) t.(c_w) /\ 0 <= clen t.(c_w) t.(c_e) /\ clen t.(c_r) t.(c_e) <= 128.
Proof.
  intros [Hr _ _ _]. unfold ccom, cline, cqueue, clen. rewrite !(length_rqueue _ _ cons_size).
  pose proof (rlen_range _ _ cons_size (c_r t) (c_w t)). pose proof (rlen_range _ _ cons_size (c_w t) (c_e t)).
  pose proof (ro_len _ _ _ _ _ Hr). unfold INPUT_BUF_SIZE in *. lia.
Qed.

Lemma line_ring t : cons_ok t -> ring_ok INPUT_BUF_SIZE (2 ^ 32) t.(c_buf) t.(c_w) t.(c_e).
Proof.
  intros Ht. pose proof (cons_lens t Ht) as (_ & _ & ? & ? & ?). destruct Ht as [[] ? Hs _].
  split; try done. unfold clen, INPUT_BUF_SIZE in *. lia.
Qed.

(** Erasing the last character of the line. *)
Definition cons_erase (t : tty) : tty := put c_e_l (u32 (t.(c_e) - 1)) t.

Lemma cons_erase_ok t :
  cons_ok t -> cline t <> [] ->
  cons_ok (cons_erase t) /\ ccom (cons_erase t) = ccom t /\ cline (cons_erase t) = removelast (cline t) /\
  cline t = cline (cons_erase t) ++ [cons_at t (t.(c_e) - 1)].
Proof.
  intros Ht Hne. pose proof (cons_lens t Ht) as (Hl1 & Hl2 & H1 & H2 & H3).
  assert (Hpos : 0 < clen (c_w t) (c_e t)) by (destruct (cline t); [done|cbn in Hl2; lia]).
  destruct (ring_unpush _ _ cons_size cons_div _ _ _ (line_ring t Ht) Hpos) as (Hr1 & El & Eq).
  destruct Ht as [Hr Hw Hs Hline].
  destruct (ring_unpush _ _ cons_size cons_div _ _ _ Hr ltac:(unfold clen in *; lia)) as (Hr2 & El2 & _).
  assert (E : cline t = cline (cons_erase t) ++ [cons_at t (c_e t - 1)]) by exact Eq.
  split_and!; try done.
  - split; [exact Hr2|done| |].
    + unfold clen in *. cbn. unfold u32. lia.
    + rewrite E in Hline. by apply Forall_app in Hline as [? _].
  - rewrite E. by rewrite removelast_last.
Qed.

(** Adding one, to the line or with the line to what can be read. *)
Definition cons_commit (t : tty) : tty := put c_w_l t.(c_e) t.

Lemma cons_store_queues t c :
  cons_ok t -> clen t.(c_r) t.(c_e) < 128 -> is_byte c ->
  let t' := cons_store c t in
  ring_ok INPUT_BUF_SIZE (2 ^ 32) t'.(c_buf) t'.(c_r) t'.(c_e) /\
  clen t'.(c_r) t'.(c_w) + clen t'.(c_w) t'.(c_e) = clen t'.(c_r) t'.(c_e) /\
  clen t'.(c_r) t'.(c_e) = clen t.(c_r) t.(c_e) + 1 /\
  ccom t' = ccom t /\ cline t' = cline t ++ [c].
Proof.
  intros Ht Hlen Hc t'. pose proof (cons_lens t Ht) as (Hl1 & Hl2 & H1 & H2 & H3).
  pose proof (line_ring t Ht) as Hlr. destruct Ht as [Hr Hw Hs Hline]. unfold clen in *.
  assert (Eu : u8 c = c) by (apply Z.mod_small; exact Hc).
  destruct (ring_push _ _ cons_size cons_div _ _ _ (u8 c) Hr ltac:(unfold INPUT_BUF_SIZE; lia)) as [Hr1 _].
  destruct (ring_push _ _ cons_size cons_div _ _ _ (u8 c) Hlr ltac:(unfold INPUT_BUF_SIZE; lia)) as [_ Hq].
  pose proof (rlen_push _ _ cons_size (c_r t) (c_e t) ltac:(unfold INPUT_BUF_SIZE; lia)) as E1.
  pose proof (rlen_push _ _ cons_size (c_w t) (c_e t) ltac:(unfold INPUT_BUF_SIZE; lia)) as E2.
  split_and!; [exact Hr1| |exact E1| |].
  - unfold t'. cbn. unfold u32. rewrite E1, E2. lia.
  - apply (ring_other _ _ cons_size cons_div _ (c_r t) (c_w t) (c_e t)); unfold INPUT_BUF_SIZE; lia.
  - rewrite <- Eu. exact Hq.
Qed.

Lemma cons_keep_ok t c :
  cons_ok t -> clen t.(c_r) t.(c_e) < 128 -> is_byte c -> c <> 10 ->
  let t' := cons_store c t in cons_ok t' /\ ccom t' = ccom t /\ cline t' = cline t ++ [c].
Proof.
  intros Ht Hlen Hc H10 t'. destruct (cons_store_queues t c Ht Hlen Hc) as (Hr & Hs & _ & Ecom & Eline).
  fold t' in Hr, Hs, Ecom, Eline. split_and!; [|done|done]. split; [done|apply Ht|done|].
  rewrite Eline. apply Forall_app. split; [apply Ht|by constructor].
Qed.

Lemma cons_commit_ok t c :
  cons_ok t -> clen t.(c_r) t.(c_e) < 128 -> is_byte c ->
  let t' := cons_commit (cons_store c t) in
  cons_ok t' /\ ccom t' = ccom t ++ cline t ++ [c] /\ cline t' = [].
Proof.
  intros Ht Hlen Hc t'. destruct (cons_store_queues t c Ht Hlen Hc) as (Hr & Hs & _ & Ecom & Eline).
  assert (Ez : clen (c_e (cons_store c t)) (c_e (cons_store c t)) = 0) by (unfold clen, rlen; by rewrite Z.sub_diag).
  assert (El : cline t' = []).
  { unfold cline, cqueue, rqueue, t'. cbn [cons_commit put c_w_l c_w c_e c_buf]. unfold clen in Ez. by rewrite Ez. }
  split_and!; [split|..]; try done.
  - apply Hr.
  - unfold t'. cbn [cons_commit put c_w_l c_w c_e c_r c_buf]. rewrite Ez. lia.
  - by rewrite El.
  - rewrite <- Eline, <- Ecom. exact (ring_split _ _ cons_size cons_div _ _ _ _ Hs).
Qed.

(** ** Code inside the section of the console's lock *)

Lemma in_tty_put k `{!LensLaws k} (f : tty -> tty) s :
  (forall x t, f (put k x t) = put k x (f t)) ->
  put_tty (f (the_tty (in_tty k s))) (in_tty k s) = in_tty k (put_tty (f (the_tty s)) s).
Proof.
  intros Hf. assert (Ev : view k (f (the_tty s)) = view k (the_tty s)).
  { specialize (Hf (view k (the_tty s)) (the_tty s)). rewrite put_view in Hf. rewrite Hf. apply view_put. }
  unfold put_tty, in_tty. cbn [uart lcomp put view].
  change (the_tty (put the_tty_l ?t ?s)) with t. change (view the_tty_l (put the_tty_l ?t ?s)) with t.
  change (view the_tty_l (put the_hart ?h ?s)) with (the_tty s). rewrite Hf.
  change (the_tty (put the_tty_l ?t ?s)) with t. by rewrite Ev.
Qed.

Lemma consputc_in s c :
  hart_stable (phart s) -> tty_ready s.(the_tty) -> c <> BACKSPACE ->
  consputc c (in_tty c_lock_l s) = Ok tt (in_tty c_lock_l (put_tty (tty_putc c s.(the_tty)) s)).
Proof.
  intros Hh Ht Hc. unfold consputc. destruct (Z.eqb_spec c BACKSPACE); [done|].
  rewrite uartputc_sync_eq; [|exact (in_tty_stable c_lock_l s Hh)|done].
  by rewrite (in_tty_put c_lock_l (tty_putc c)).
Qed.

Lemma backspace_in s :
  hart_stable (phart s) -> tty_ready s.(the_tty) ->
  consputc BACKSPACE (in_tty c_lock_l s) = Ok tt (in_tty c_lock_l (put_tty (tty_puts rubout s.(the_tty)) s)).
Proof.
  intros Hh Ht. pose proof (fun s c Hh Ht => uartputc_sync_eq (in_tty c_lock_l s) (in_tty_stable c_lock_l s Hh) Ht c) as Hs.
  unfold consputc. cbn [Z.eqb BACKSPACE Pos.eqb bind].
  rewrite Hs by done. cbn [obind bind]. rewrite (in_tty_put c_lock_l (tty_putc 8)) by done.
  rewrite Hs by done. cbn [obind bind]. rewrite (in_tty_put c_lock_l (tty_putc 32)) by done.
  rewrite Hs by done. cbn [obind bind]. by rewrite (in_tty_put c_lock_l (tty_putc 8)) by done.
Qed.

(** Output leaves the input line alone. *)
Lemma cons_puts l t :
  cons_ok t -> cons_ok (tty_puts l t) /\ ccom (tty_puts l t) = ccom t /\ cline (tty_puts l t) = cline t.
Proof. intros [? ? ? ?]. rewrite tty_puts_frame. by split_and!; [split|..]. Qed.

(** Only the line and the device change. *)
Definition cons_only (t t' : tty) : Prop :=
  t' = put u_sent_l t'.(u_sent) (put u_busy_l t'.(u_busy) (put c_buf_l t'.(c_buf)
         (put c_e_l t'.(c_e) (put c_w_l t'.(c_w) t)))).

(** What one piece of the handler does: [x] are the queues and [out] the
    echo afterwards. *)
Definition edits (m : M pst unit) (s : pst) (x : list Z * list Z) (out : list Z) : Prop :=
  exists t' s', m (in_tty c_lock_l s) = Ok tt (in_tty c_lock_l s') /\ wakes (put_tty t' s) s' /\
    cons_ok t' /\ cons_only s.(the_tty) t' /\ (ccom t', cline t') = x /\ t'.(u_sent) = s.(the_tty).(u_sent) ++ out.

Section Line.
Context (p : fin 64).

Definition cready (s : pst) : Prop := running p s /\ tty_ready s.(the_tty) /\ cons_ok s.(the_tty).

Lemma empty_line t : cons_ok t -> (t.(c_e) =? t.(c_w)) = bool_decide (cline t = []).
Proof.
  intros Ht. pose proof (cons_lens t Ht) as (_ & Hl & _). destruct (line_ring t Ht) as [_ Hw He _].
  rewrite Z.eqb_sym, (ring_empty _ _ cons_size) by done. fold (clen (c_w t) (c_e t)). rewrite <- Hl.
  destruct (cline t); [done|]. cbn [length]. rewrite bool_decide_eq_false_2 by done.
  apply Z.eqb_neq. lia.
Qed.

Lemma typed_refl s : cready s -> edits (ret tt) s (ccom s.(the_tty), cline s.(the_tty)) [].
Proof.
  intros (_ & _ & Hc). exists (the_tty s), s. split_and!; try done.
  - assert (E : put_tty (the_tty s) s = s) by by destruct s. rewrite E. apply wakes_refl.
  - by destruct (the_tty s).
  - by rewrite app_nil_r.
Qed.

(** [cons.e--; consputc(BACKSPACE);] *)
Definition erased (s : pst) : pst := put_tty (tty_puts rubout (cons_erase s.(the_tty))) s.

Lemma erase_in s :
  cready s ->
  (set (uart c_e_l) (u32 (s.(the_tty).(c_e) - 1)) ;; consputc BACKSPACE) (in_tty c_lock_l s) =
  Ok tt (in_tty c_lock_l (erased s)).
Proof.
  intros ([[Hh _] _] & Ht & _). cbn [bind set modify obind].
  change (put (uart c_e_l) ?x (in_tty c_lock_l s)) with (put_tty (put c_e_l x (the_tty (in_tty c_lock_l s))) (in_tty c_lock_l s)).
  rewrite (in_tty_put c_lock_l (put c_e_l (u32 (c_e (the_tty s) - 1)))) by done.
  exact (backspace_in (put_tty (cons_erase (the_tty s)) s) Hh Ht).
Qed.

Lemma erased_ready s :
  cready s -> cline s.(the_tty) <> [] ->
  cready (erased s) /\ ccom (erased s).(the_tty) = ccom s.(the_tty) /\
  cline (erased s).(the_tty) = removelast (cline s.(the_tty)) /\
  (erased s).(the_tty).(u_sent) = s.(the_tty).(u_sent) ++ rubout /\ cons_only s.(the_tty) (erased s).(the_tty).
Proof.
  intros (Hr & Ht & Hc) Hne. destruct (cons_erase_ok _ Hc Hne) as (Hc1 & E1 & E2 & _).
  destruct (cons_puts rubout _ Hc1) as (Hc2 & E3 & E4).
  change (the_tty (erased s)) with (tty_puts rubout (cons_erase (the_tty s))).
  split_and!.
  - split_and!; [done|by apply tty_puts_ready|done].
  - congruence.
  - congruence.
  - by rewrite tty_puts_sent.
  - unfold cons_only. rewrite tty_puts_frame at 1. by destruct (the_tty s).
Qed.

Lemma erase_char_edits s :
  cready s ->
  edits erase_char s (ccom s.(the_tty), removelast (cline s.(the_tty)))
    (if decide (cline s.(the_tty) = []) then [] else rubout).
Proof.
  intros Hs. pose proof Hs as (_ & _ & Hc).
  destruct (decide (cline (the_tty s) = [])) as [El|El].
  - destruct (typed_refl s Hs) as (t' & s' & E & Hrest). exists t', s'. split.
    + rewrite <- E. unfold erase_char. cbn [bind get gets obind].
      change (c_e (view the_tty_l (in_tty c_lock_l s))) with (c_e (the_tty s)).
      change (c_w (view the_tty_l (in_tty c_lock_l s))) with (c_w (the_tty s)).
      rewrite (empty_line _ Hc), El. done.
    + rewrite El in *. done.
  - destruct (erased_ready s Hs El) as (_ & E1 & E2 & E3 & E4).
    exists (the_tty (erased s)), (erased s). split_and!; try done; [|apply wakes_refl| |congruence].
    + unfold erase_char. cbn [bind get gets obind].
      change (c_e (view the_tty_l (in_tty c_lock_l s))) with (c_e (the_tty s)).
      change (c_w (view the_tty_l (in_tty c_lock_l s))) with (c_w (the_tty s)).
      rewrite (empty_line _ Hc), bool_decide_eq_false_2 by done. exact (erase_in s Hs).
    + by destruct (erased_ready s Hs El) as ((_ & _ & ?) & _).
Qed.

Lemma cons_only_trans t1 t2 t3 : cons_only t1 t2 -> cons_only t2 t3 -> cons_only t1 t3.
Proof. unfold cons_only. intros E1 E2. rewrite E2, E1. by destruct t1. Qed.

Lemma concat_rubout n : concat (replicate (S n) rubout) = rubout ++ concat (replicate n rubout).
Proof. done. Qed.

Lemma kill_line_loop n : forall s fuel, cready s -> length (cline s.(the_tty)) = n -> (n < fuel)%nat ->
  edits (loop fuel kill_line_body tt) s (ccom s.(the_tty), []) (concat (replicate n rubout)).
Proof.
  induction n as [|n IH]; intros s [|fuel] Hs Hn Hf; try lia; pose proof Hs as (_ & _ & Hc).
  - destruct (typed_refl s Hs) as (t' & s' & E & Hrest). exists t', s'.
    assert (El : cline (the_tty s) = []) by by apply nil_length_inv. rewrite El in Hrest. split; [|done].
    rewrite <- E, loop_S. unfold kill_line_body at 1. cbn [bind get gets obind].
    change (c_e (view the_tty_l (in_tty c_lock_l s))) with (c_e (the_tty s)).
    change (c_w (view the_tty_l (in_tty c_lock_l s))) with (c_w (the_tty s)).
    by rewrite (empty_line _ Hc), El.
  - assert (Hne : cline (the_tty s) <> []) by (by destruct (cline (the_tty s))).
    destruct (erased_ready s Hs Hne) as (Hs1 & E1 & E2 & E3 & E4).
    destruct (cons_erase_ok _ Hc Hne) as (_ & _ & _ & Elast).
    assert (Hlast : cons_at (the_tty s) (c_e (the_tty s) - 1) <> 10).
    { destruct Hc as [_ _ _ Hl]. rewrite Elast in Hl. apply Forall_app in Hl as [_ Hl]. by inversion Hl. }
    destruct (IH (erased s) fuel Hs1) as (t' & s' & E & Hw & Hc' & Ho & Hx & Hsent); [|lia|].
    { rewrite E2. pose proof (f_equal length Elast) as El. rewrite length_app in El. cbn [length] in El.
      destruct (cons_erase_ok _ Hc Hne) as (_ & _ & Er & _). rewrite <- Er. lia. }
    exists t', s'. split_and!; [|exact Hw|done|by eapply cons_only_trans|by rewrite Hx, E1|].
    + rewrite loop_S. unfold kill_line_body at 1. cbn [bind get gets obind].
      change (c_e (view the_tty_l (in_tty c_lock_l s))) with (c_e (the_tty s)).
      change (c_w (view the_tty_l (in_tty c_lock_l s))) with (c_w (the_tty s)).
      change (cons_at (view the_tty_l (in_tty c_lock_l s))) with (cons_at (the_tty s)).
      rewrite (empty_line _ Hc), bool_decide_eq_false_2 by done.
      destruct (Z.eqb_spec (cons_at (the_tty s) (c_e (the_tty s) - 1)) 10); [done|]. cbn [negb andb].
      pose proof (erase_in s Hs) as Ee. cbn [bind set modify obind] in Ee |- *. rewrite Ee. cbn [obind ret].
      exact E.
    + rewrite Hsent, E3, concat_rubout. by rewrite <- app_assoc.
Qed.

Lemma kill_line_edits s :
  cready s ->
  edits kill_line s (ccom s.(the_tty), []) (concat (replicate (length (cline s.(the_tty))) rubout)).
Proof.
  intros Hs. pose proof Hs as (_ & _ & Hc). pose proof (cons_lens _ Hc) as (_ & Hl & _).
  destruct (kill_line_loop (length (cline (the_tty s))) s (S (Z.to_nat (clen (c_w (the_tty s)) (c_e (the_tty s))))) Hs)
    as (t' & s' & E & Hrest); [done|lia|].
  exists t', s'. split; [exact E|exact Hrest].
Qed.

(** A character that is stored, and the wakeup when it ends a line. *)
Definition typed (c : Z) (s : pst) : pst := put_tty (cons_store c (tty_putc c s.(the_tty))) s.

Lemma typed_in s c :
  update the_tty_l (cons_store c) (in_tty c_lock_l (put_tty (tty_putc c s.(the_tty)) s)) =
  Ok tt (in_tty c_lock_l (typed c s)).
Proof. done. Qed.

Lemma commit_in s :
  running p s ->
  exists s', (set (uart c_w_l) s.(the_tty).(c_e) ;; wakeup chConsR) (in_tty c_lock_l s) = Ok tt (in_tty c_lock_l s') /\
    wakes (put_tty (cons_commit s.(the_tty)) s) s'.
Proof.
  intros Hr. cbn [bind set modify obind].
  change (put (uart c_w_l) ?x (in_tty c_lock_l s)) with (put_tty (put c_w_l x (the_tty (in_tty c_lock_l s))) (in_tty c_lock_l s)).
  rewrite (in_tty_put c_lock_l (put c_w_l (c_e (the_tty s)))) by done.
  set (s1 := put_tty (put c_w_l (c_e (the_tty s)) (the_tty s)) s).
  destruct (wakes_wakeup chConsR (in_tty c_lock_l s1)) as (S' & E & Hw).
  { eapply unlocked_weaken; [|exact (proj1 (running_in_tty c_lock_l p s1 Hr))]. by intros q []. }
  destruct (wakes_in_tty c_lock_l s1 S' Hw) as (s' & -> & Hw'). eauto.
Qed.

Lemma type_char_edits s c :
  cready s -> is_byte c -> c <> ctrl 85 -> c <> ctrl 72 -> c <> 127 -> c <> ctrl 80 ->
  edits (type_char c) s (edit c (ccom s.(the_tty), cline s.(the_tty))) (echo c (ccom s.(the_tty), cline s.(the_tty))).
Proof.
  intros Hs Hb HU HH HD HP. pose proof Hs as (Hr & Ht & Hc).
  pose proof (cons_lens _ Hc) as (Hl1 & Hl2 & H1 & H2 & H3). pose proof (co_split _ Hc) as Hsp.
  unfold edit, echo. apply Z.eqb_neq in HU, HH, HD, HP. rewrite HU, HH, HD, HP. cbn [orb].
  set (n := clen (c_r (the_tty s)) (c_e (the_tty s))) in *.
  replace (Z.of_nat (length (ccom (the_tty s)) + length (cline (the_tty s)))) with n by lia.
  destruct ((c =? 0) || (128 <=? n)) eqn:Etest.
  { destruct (typed_refl s Hs) as (t' & s' & E & Hrest). exists t', s'. split; [|exact Hrest]. rewrite <- E.
    unfold type_char. cbn [bind get gets obind].
    change (u32 (c_e (view the_tty_l (in_tty c_lock_l s)) - c_r (view the_tty_l (in_tty c_lock_l s)))) with n.
    unfold nz, INPUT_BUF_SIZE. rewrite Z.leb_antisym in Etest. by destruct (c =? 0), (n <? 128). }
  assert (Hn : n < 128) by (apply orb_false_iff in Etest as [_ E]; zb; lia).
  assert (Hc0 : (c =? 0) = false) by (by apply orb_false_iff in Etest as [? _]).
  set (d := if c =? 13 then 10 else c).
  assert (Hd : is_byte d) by (unfold d; by destruct (c =? 13)).
  assert (Hk : d <> BACKSPACE) by (unfold is_byte, BACKSPACE in *; lia).
  assert (Eu : u_sent (the_tty s) ++ [u8 d] = u_sent (the_tty s) ++ [d]) by (do 2 f_equal; apply Z.mod_small; exact Hd).
  destruct (cons_puts [d] _ Hc) as (Hc1 & Ecom & Eline). change (tty_puts [d] ?t) with (tty_putc d t) in *.
  assert (Ecode : type_char c (in_tty c_lock_l s) =
    (if (d =? 10) || (d =? ctrl 68) || (n =? 127)
     then set (uart c_w_l) (c_e (the_tty (typed d s))) ;; wakeup chConsR else ret tt) (in_tty c_lock_l (typed d s))).
  { unfold type_char. cbn [bind get gets obind].
    change (u32 (c_e (view the_tty_l (in_tty c_lock_l s)) - c_r (view the_tty_l (in_tty c_lock_l s)))) with n.
    unfold nz. rewrite Hc0. destruct (Z.ltb_spec n INPUT_BUF_SIZE); [|unfold INPUT_BUF_SIZE in *; lia].
    cbn [negb andb]. fold d. cbn [bind]. rewrite consputc_in by (done || apply Hr || apply Hk). cbn [obind bind].
    rewrite (typed_in s d). cbn [obind get gets bind].
    destruct (cons_store_queues _ d Hc1 Hn Hd) as (_ & _ & E1 & _).
    change (u32 (c_e (view the_tty_l (in_tty c_lock_l (typed d s))) - c_r (view the_tty_l (in_tty c_lock_l (typed d s)))))
      with (clen (c_r (cons_store d (tty_putc d (the_tty s)))) (c_e (cons_store d (tty_putc d (the_tty s))))).
    rewrite E1. fold n. change (clen (c_r (tty_putc d (the_tty s))) (c_e (tty_putc d (the_tty s)))) with n.
    replace (n + 1 =? INPUT_BUF_SIZE) with (n =? 127); [done|].
    unfold INPUT_BUF_SIZE. destruct (Z.eqb_spec n 127), (Z.eqb_spec (n + 1) 128); lia. }
  destruct ((d =? 10) || (d =? ctrl 68) || (n =? 127)) eqn:Eend.
  - destruct (cons_commit_ok _ d Hc1 Hn Hd) as (Hc2 & E2 & E3). destruct (commit_in (typed d s) Hr) as (s' & E & Hw).
    exists (cons_commit (cons_store d (tty_putc d (the_tty s)))), s'. split_and!; [by rewrite Ecode, E|exact Hw|done| |by rewrite E3, E2, Ecom, Eline|exact Eu].
    by destruct s as [[] ? ? ? ? ? ? ? ? []].
  - destruct (cons_keep_ok _ d Hc1 Hn Hd) as (Hc2 & E2 & E3).
    { apply orb_false_iff in Eend as [[E _]%orb_false_iff _]. zb. done. }
    exists (cons_store d (tty_putc d (the_tty s))), (typed d s).
    split_and!; [by rewrite Ecode|apply wakes_refl|done| |by rewrite E2, E3, Ecom, Eline|exact Eu].
    by destruct s as [[] ? ? ? ? ? ? ? ? []].
Qed.
End Line.

(** ** The process listing *)

Lemma tty_puts_c_lock out x t : tty_puts out (put c_lock_l x t) = put c_lock_l x (tty_puts out t).
Proof. revert t. induction out as [|c out IH]; intros t; [done|]. exact (IH (tty_putc c t)). Qed.

Lemma cprintf_in fmt ap out s :
  hart_stable (phart s) -> tty_ready s.(the_tty) -> lock_free s.(the_tty).(pr_lock) ->
  Forall is_byte (str fmt) -> Forall arg_ok ap -> render (str fmt) ap = Some out ->
  cprintf fmt ap (in_tty c_lock_l s) = Ok tt (in_tty c_lock_l (put_tty (tty_puts out s.(the_tty)) s)).
Proof.
  intros Hh Ht Hl Hf Ha Hr. unfold cprintf.
  rewrite (printf_prints (str fmt) ap out); [|exact (in_tty_stable c_lock_l s Hh)|done..].
  rewrite (in_tty_put c_lock_l (tty_puts out)); [done|]. intros x t. apply tty_puts_c_lock.
Qed.

Definition listing (m : M pst unit) (s : pst) : Prop :=
  exists out, m (in_tty c_lock_l s) = Ok tt (in_tty c_lock_l (put_tty (tty_puts out s.(the_tty)) s)).

Lemma str_byte s : Forall is_byte (str s).
Proof.
  induction s as [|c s IH]; cbn; [constructor|]. constructor; [|done]. unfold is_byte.
  pose proof (Ascii.N_ascii_bounded c). lia.
Qed.

Lemma procdump_listing s :
  hart_stable (phart s) -> tty_ready s.(the_tty) -> lock_free s.(the_tty).(pr_lock) ->
  (forall q, Forall is_byte (pproc s q).(p_name)) -> listing procdump s.
Proof.
  intros Hh Ht Hl Hn. unfold procdump.
  assert (Hloop : forall l s0, hart_stable (phart s0) -> tty_ready s0.(the_tty) -> lock_free s0.(the_tty).(pr_lock) ->
    (forall q, pproc s0 q = pproc s q) -> listing (iterM l (fun p =>
      x <- get (proc_l p) ;;
      if decide (x.(p_state) = UNUSED) then ret tt
      else
        cprintf "%d %s %s" [AInt x.(p_pid); AStr (Some (str (state_name x.(p_state)))); AStr (Some x.(p_name))] ;;
        cprintf newline [])) s0).
  { induction l as [|q l IH]; intros s0 Hh0 Ht0 Hl0 Hp0.
    - by exists [].
    - cbn [iterM bind get gets obind]. unfold listing. cbn [bind get gets obind].
      change (view (proc_l q) (in_tty c_lock_l s0)) with (pproc s0 q). rewrite Hp0.
      destruct (decide (p_state (pproc s q) = UNUSED)); [exact (IH s0 Hh0 Ht0 Hl0 Hp0)|].
      set (ap := [AInt _; AStr _; AStr _]).
      destruct (render (str "%d %s %s") ap) as [o1|] eqn:E1; [|discriminate E1].
      cbn [bind]. rewrite (cprintf_in _ ap o1); [|done..|apply str_byte| |exact E1].
      2:{ repeat constructor; [apply str_byte|apply Hn]. }
      cbn [obind bind]. set (s1 := put_tty (tty_puts o1 (the_tty s0)) s0).
      assert (Ht1 : tty_ready (the_tty s1)) by by apply tty_puts_ready.
      assert (Hl1 : lock_free (pr_lock (the_tty s1))).
      { change (the_tty s1) with (tty_puts o1 (the_tty s0)). by rewrite tty_puts_frame. }
      rewrite (cprintf_in newline [] [10] s1); [|done..|apply str_byte|constructor|done]. cbn [obind].
      destruct (IH (put_tty (tty_puts [10] (the_tty s1)) s1)) as [o2 E2]; [done|by apply tty_puts_ready|done|done|].
      exists (o1 ++ [10] ++ o2). rewrite E2. f_equal. f_equal. rewrite !tty_puts_app. done. }
  unfold listing. cbn [bind]. rewrite (cprintf_in newline [] [10] s); [|done..|apply str_byte|constructor|done].
  cbn [obind]. destruct (Hloop all_procs (put_tty (tty_puts [10] (the_tty s)) s)) as [o E];
    [done|by apply tty_puts_ready|done|done|].
  exists ([10] ++ o). rewrite E. by rewrite tty_puts_app.
Qed.

(** ** consoleintr *)

(** The switch of the handler. *)
Definition handler (c : Z) : M pst unit :=
  if c =? ctrl 80 then procdump
  else if c =? ctrl 85 then kill_line
  else if (c =? ctrl 72) || (c =? 127) then erase_char
  else type_char c.

Lemma handler_edits p s c :
  cready p s -> lock_free s.(the_tty).(pr_lock) -> (forall q, Forall is_byte (pproc s q).(p_name)) -> is_byte c ->
  exists out, edits (handler c) s (edit c (ccom s.(the_tty), cline s.(the_tty))) out /\
    (c <> ctrl 80 -> out = echo c (ccom s.(the_tty), cline s.(the_tty))).
Proof.
  intros Hs Hl Hn Hb. unfold handler. destruct (Z.eqb_spec c (ctrl 80)) as [->|HP].
  - pose proof Hs as (([Hh _] & _) & Ht & Hc). destruct (procdump_listing s Hh Ht Hl Hn) as [o E].
    destruct (cons_puts o _ Hc) as (Hc1 & E1 & E2). exists (u8 <$> o). split; [|done].
    exists (tty_puts o (the_tty s)), (put_tty (tty_puts o (the_tty s)) s).
    split_and!; [done|apply wakes_refl|done| |by rewrite E1, E2|apply tty_puts_sent].
    unfold cons_only. rewrite (tty_puts_frame o (the_tty s)). by destruct (the_tty s).
  - exists (echo c (ccom (the_tty s), cline (the_tty s))). split; [|done]. unfold edit, echo.
    apply Z.eqb_neq in HP as HP'. rewrite HP'. destruct (Z.eqb_spec c (ctrl 85)) as [->|HU].
    { exact (kill_line_edits p s Hs). }
    destruct (Z.eqb_spec c (ctrl 72)) as [->|HH]; [exact (erase_char_edits p s Hs)|].
    destruct (Z.eqb_spec c 127) as [->|HD]; [exact (erase_char_edits p s Hs)|]. cbn [orb].
    pose proof (type_char_edits p s c Hs Hb HU HH HD HP) as He. unfold edit, echo in He.
    apply Z.eqb_neq in HU, HH, HD. by rewrite HP', HU, HH, HD in He.
Qed.


(** ** Examples *)

#[local] Instance demo_patience : Patience := 0%nat.

Definition demo_cons : pst := demo_pst (with_cpu_proc (Some 2%fin) demo_hart).

Lemma demo_cons_running : running 2%fin demo_cons.
Proof. split; [by apply demo_unlocked|done]. Qed.

Lemma uartputc_spec_witness :
  exists t' s', uartputc 65 demo_cons = Ok tt s' /\ ostream t' = [65] /\ tx_queue t' = [].
Proof.
  destruct (uartputc_spec 2%fin demo_cons 65 demo_cons_running) as (t' & s' & E & _ & _ & _ & Ho & Hq).
  - reflexivity.
  - split; [split; [reflexivity|split; vm_compute; congruence..|vm_compute; congruence]| |reflexivity].
    refine (bool_decide_unpack _ _). unfold is_byte. vm_compute. reflexivity.
  - split; reflexivity.
  - vm_compute. reflexivity.
  - exists t', s'. split; [exact E|]. split; [exact Ho|]. apply Hq. constructor.
Defined.

