(* ===== verification/Pipe.v ===== *)
(** * Pipes (kernel/pipe.c)

    Over any state that contains the process layer and the pipe; pipealloc,
    which uses the file table, is with the files.  The loops that sleep are
    bounded by [patience]. *)

From S2P Require Import Prelude Riscv Memory Spinlock Kalloc Vm Tty Proc ProcSpec Sleeplock.

Definition PIPESIZE : Z := 512.

Record pipe := Pipe {
  pi_lock : spinlock;
  pi_data : list Z;
  pi_nread : Z;
  pi_nwrite : Z;
  pi_readopen : Z;
  pi_writeopen : Z
}.

#[export] Instance pipe_eq_dec : EqDecision pipe.
Proof. solve_decision. Defined.

(** Memory that is not a pipe. *)
#[export] Instance pipe_inhabited : Inhabited pipe := populate (Pipe (initlock "") [] 0 0 0 0).

Definition with_pi_lock (x : spinlock) (p : pipe) : pipe :=
  Pipe x p.(pi_data) p.(pi_nread) p.(pi_nwrite) p.(pi_readopen) p.(pi_writeopen).
Definition with_pi_data (x : list Z) (p : pipe) : pipe :=
  Pipe p.(pi_lock) x p.(pi_nread) p.(pi_nwrite) p.(pi_readopen) p.(pi_writeopen).
Definition with_nread (x : Z) (p : pipe) : pipe :=
  Pipe p.(pi_lock) p.(pi_data) x p.(pi_nwrite) p.(pi_readopen) p.(pi_writeopen).
Definition with_nwrite (x : Z) (p : pipe) : pipe :=
  Pipe p.(pi_lock) p.(pi_data) p.(pi_nread) x p.(pi_readopen) p.(pi_writeopen).
Definition with_readopen (x : Z) (p : pipe) : pipe :=
  Pipe p.(pi_lock) p.(pi_data) p.(pi_nread) p.(pi_nwrite) x p.(pi_writeopen).
Definition with_writeopen (x : Z) (p : pipe) : pipe :=
  Pipe p.(pi_lock) p.(pi_data) p.(pi_nread) p.(pi_nwrite) p.(pi_readopen) x.

Definition pi_lock_l : lens pipe spinlock := Lens pi_lock with_pi_lock.
#[export] Instance pi_lock_laws : LensLaws pi_lock_l.
Proof. by split; intros; destruct s. Qed.

(** [pi->data[pi->nwrite++ % PIPESIZE] = ch] *)
Definition pipe_push (c : Z) (p : pipe) : pipe :=
  with_nwrite (u32 (p.(pi_nwrite) + 1))
    (with_pi_data (<[Z.to_nat (p.(pi_nwrite) mod PIPESIZE) := c]> p.(pi_data)) p).
(** [pi->data[pi->nread % PIPESIZE]] *)
Definition pipe_peek (p : pipe) : Z := p.(pi_data) !!! Z.to_nat (p.(pi_nread) mod PIPESIZE).

Section Pipe.
Context {S : Type} `{HasProcs S} `{Patience} `{Image}.

(** [pi] is the pipe's address, [l] where the state keeps the pipe. *)
Context (pi : Z) (l : lens S pipe).

Definition pilock : lens S spinlock := lcomp l pi_lock_l.

(** The page of a pipe that is closed at both ends is freed. *)
Definition pipeclose (writable : bool) : M S unit :=
  acquire pilock ;;
  (if writable then
     update l (with_writeopen 0) ;;
     zoom the_pst (wakeup (chNread pi))
   else
     update l (with_readopen 0) ;;
     zoom the_pst (wakeup (chNwrite pi))) ;;
  x <- get l ;;
  if (x.(pi_readopen) =? 0) && (x.(pi_writeopen) =? 0) then
    release pilock ;;
    set l inhabitant ;;
    zoom the_pst (zoom p_k_l (kfree pi))
  else release pilock.

(** [inr None]: the call has returned -1. *)
Definition pipewrite_body (pr : option (fin 64)) (addr n i : Z) : M S (Z + option Z) :=
  if negb (i <? n) then ret (inr (Some i))
  else
    x <- get l ;;
    k <- (if x.(pi_readopen) =? 0 then ret 1
          else pr <- deref pr ;; zoom the_pst (killed pr)) ;;
    if nz k then
      release pilock ;;
      ret (inr None)
    else
      x <- get l ;;
      if x.(pi_nwrite) =? u32 (x.(pi_nread) + PIPESIZE) then
        zoom the_pst (wakeup (chNread pi)) ;;
        sleep (chNwrite pi) pilock ;;
        ret (inl i)
      else
        pr <- deref pr ;;
        y <- zoom the_pst (get (proc_l pr)) ;;
        r <- zoom the_pst (zoom p_k_l (copyin y.(p_pagetable) (u64 (addr + i)) 1)) ;;
        if r.1 =? -1 then ret (inr (Some i))
        else
          update l (pipe_push (hd 0 r.2)) ;;
          ret (inl (i + 1)).

Definition pipewrite (addr n : Z) : M S Z :=
  pr <- zoom the_pst myproc ;;
  acquire pilock ;;
  r <- loop (Z.to_nat n + patience + 1) (pipewrite_body pr addr n) 0 ;;
  match r with
  | None => ret (-1)
  | Some i =>
      zoom the_pst (wakeup (chNread pi)) ;;
      release pilock ;;
      ret i
  end.

(** [true]: killed while waiting. *)
Definition piperead_wait (pr : option (fin 64)) (_ : unit) : M S (unit + bool) :=
  x <- get l ;;
  if (x.(pi_nread) =? x.(pi_nwrite)) && nz x.(pi_writeopen) then
    pr <- deref pr ;;
    k <- zoom the_pst (killed pr) ;;
    if nz k then
      release pilock ;;
      ret (inr true)
    else
      sleep (chNread pi) pilock ;;
      ret (inl tt)
  else ret (inr false).

Definition piperead_body (pr : option (fin 64)) (addr n i : Z) : M S (Z + Z) :=
  if negb (i <? n) then ret (inr i)
  else
    x <- get l ;;
    if x.(pi_nread) =? x.(pi_nwrite) then ret (inr i)
    else
      update l (with_nread (u32 (x.(pi_nread) + 1))) ;;
      pr <- deref pr ;;
      y <- zoom the_pst (get (proc_l pr)) ;;
      r <- zoom the_pst (zoom p_k_l (copyout y.(p_pagetable) (u64 (addr + i)) [pipe_peek x] 1)) ;;
      if r =? -1 then ret (inr i)
      else ret (inl (i + 1)).

Definition piperead (addr n : Z) : M S Z :=
  pr <- zoom the_pst myproc ;;
  acquire pilock ;;
  k <- loop (Datatypes.S patience) (piperead_wait pr) tt ;;
  if k : bool then ret (-1)
  else
    i <- loop (Datatypes.S (Z.to_nat n)) (piperead_body pr addr n) 0 ;;
    zoom the_pst (wakeup (chNwrite pi)) ;;
    release pilock ;;
    ret i.

End Pipe.
