(* ===== verification/PipeThm.v ===== *)
(** * A pipe is a bounded queue of bytes

    The two counters of a pipe only ever grow, wrapping at 2^32; the bytes
    between them are the queue.  pipewrite appends to it, piperead takes from
    its front. *)

From S2P Require Import Prelude Ring Riscv Memory Spinlock Kalloc Vm Pagetable Uvm Uspace Copy Aspace Tty Proc ProcSpec Sleeplock Pipe.

(** ** The queue *)

Definition qlen (x : pipe) : Z := rlen (2 ^ 32) x.(pi_nread) x.(pi_nwrite).
Definition pipe_queue (x : pipe) : list Z := rqueue PIPESIZE (2 ^ 32) x.(pi_data) x.(pi_nread) x.(pi_nwrite).

Record pipe_ok (x : pipe) : Prop := {
  po_ring : ring_ok PIPESIZE (2 ^ 32) x.(pi_data) x.(pi_nread) x.(pi_nwrite);
  po_bytes : Forall is_byte x.(pi_data)
}.

Lemma pipe_size : 0 < PIPESIZE < 2 ^ 32.
Proof. unfold PIPESIZE. lia. Qed.
Lemma pipe_div : (PIPESIZE | 2 ^ 32).
Proof. exists (2 ^ 23). done. Qed.

Lemma qlen_range x : 0 <= qlen x.
Proof. apply (rlen_range PIPESIZE _ pipe_size). Qed.

(** The tests compare the counters. *)
Lemma full_test x : pipe_ok x -> (x.(pi_nwrite) =? u32 (x.(pi_nread) + PIPESIZE)) = (qlen x =? 512).
Proof. intros [[_ Hr Hw _] _]. exact (rlen_full PIPESIZE (2 ^ 32) pipe_size pipe_div _ _ Hr Hw). Qed.

Lemma empty_test x : pipe_ok x -> (x.(pi_nread) =? x.(pi_nwrite)) = (qlen x =? 0).
Proof. intros [[_ Hr Hw _] _]. exact (ring_empty PIPESIZE (2 ^ 32) pipe_size _ _ Hr Hw). Qed.

Lemma pipe_push_ok c x :
  pipe_ok x -> is_byte c -> qlen x < 512 ->
  pipe_ok (pipe_push c x) /\ qlen (pipe_push c x) = qlen x + 1 /\ pipe_queue (pipe_push c x) = pipe_queue x ++ [c].
Proof.
  intros [Hx Hb] Hc Hl. destruct (ring_push _ _ pipe_size pipe_div _ _ _ c Hx Hl) as [Hok Hq].
  split_and!; [split; [exact Hok|by apply Forall_insert]| |exact Hq].
  exact (rlen_push _ _ pipe_size _ _ Hl).
Qed.

Definition pipe_pop (x : pipe) : pipe := with_nread (u32 (x.(pi_nread) + 1)) x.

Lemma pipe_pop_ok x :
  pipe_ok x -> 0 < qlen x ->
  pipe_ok (pipe_pop x) /\ qlen (pipe_pop x) = qlen x - 1 /\ pipe_queue x = pipe_peek x :: pipe_queue (pipe_pop x).
Proof.
  intros [Hx Hb] Hl. destruct (ring_pop _ _ pipe_size pipe_div _ _ _ Hx Hl) as (Hok & Hlen & Hq).
  split_and!; [by split|exact Hlen|exact Hq].
Qed.

Lemma pipe_peek_byte x : pipe_ok x -> is_byte (pipe_peek x).
Proof.
  intros [[Hd _ _ _] Hb]. unfold pipe_peek. eapply Forall_elem; [exact Hb|].
  apply list_elem_of_lookup_total_2. rewrite Hd. apply (ring_slot _ _ pipe_size).
Qed.

(** ** User memory of the running process *)

(** Process [p] runs, is not killed, and its address space is [T]. *)
Record uenv `{Image} (p : fin 64) (t : pst) (root : Z) (F : list Z) (T : ptree) (U : gmap Z Z) : Prop := {
  ue_running : running p t;
  ue_alive : (pproc t p).(p_killed) = 0;
  ue_root : (pproc t p).(p_pagetable) = root;
  ue_vinv : vinv t.(p_k) root F T U;
  ue_uonly : uonly t.(p_k).(k_mem) T U
}.

Lemma uvinv_hart `{Image} s root F T U h :
  vinv s root F T U -> hart_stable h -> vinv (put hart_l h s) root F T U.
Proof. intros [] Hh. by split. Qed.

(** [copyout] of one byte. *)
Definition store1 (pa a b : Z) (s : kst) : kst := mem_st s (st_bytes s.(k_mem) (pa + a mod PGSIZE) [b]).

Lemma copyout1 `{ImageOk} s root F T U a b :
  vinv s root F T U -> 0 <= a ->
  copyout root a [b] 1 s =
  match utrans s.(k_mem) T true a with
  | Some pa => Ok 0 (store1 pa a b s)
  | None => Ok (-1) s
  end.
Proof.
  intros Hv Ha. unfold copyout. change (Z.to_nat (1 / PGSIZE) + 3)%nat with 3%nat.
  rewrite loop_S, (copyout_step s root F T U) by (done || lia).
  destruct (utrans (k_mem s) T true a) as [pa|]; [|done]. cbv zeta.
  assert (Ec : chunk a 1 = 1).
  { unfold chunk. pose proof (Z.mod_pos_bound a PGSIZE ltac:(clia)). lia. }
  rewrite Ec. cbn [obind]. rewrite loop_S. unfold copyout_body. done.
Qed.

Lemma uenv_wakes `{Image} p t t' root F T U : wakes t t' -> uenv p t root F T U -> uenv p t' root F T U.
Proof.
  intros Hw [Hr Ha Hp Hv Hu]. destruct Hr as [Hr1 Hr2]. pose proof (wakes_me _ _ _ Hw Hr2) as E. split.
  - by eapply running_wakes.
  - by rewrite E.
  - by rewrite E.
  - by rewrite (wakes_k _ _ Hw).
  - by rewrite (wakes_k _ _ Hw).
Qed.

Section PipeThm.
Context {S : Type} `{HasProcs S} `{!LensLaws (the_pst (S := S))} `{Patience} `{ImageOk}.
Context (pi : Z) (l : lens S pipe) `{!LensLaws l} `{!LensDisjoint (the_pst (S := S)) l}.

Abbreviation pil := (pilock l).
#[local] Instance pilock_laws : LensLaws pil.
Proof. unfold pilock. apply _. Qed.
#[local] Instance pilock_disjoint : LensDisjoint (the_pst (S := S)) pil.
Proof. unfold pilock. apply _. Qed.

Lemma update_pi f s :
  (forall lk x, f (with_pi_lock lk x) = with_pi_lock lk (f x)) ->
  update l f (in_lock pil s) = Ok tt (in_lock pil (put l (f (view l s)) s)).
Proof. exact (update_in_rec l pi_lock_l f s). Qed.

Lemma view_pi s :
  view l (in_lock pil s) = with_pi_lock (held_by (phart (pv s)) (view l s).(pi_lock)) (view l s).
Proof. exact (view_in_rec l pi_lock_l s). Qed.

Lemma pv_put_l x s : pv (put l x s) = pv s.
Proof. unfold pv. by rewrite (view_put_l (l := the_pst) (k := l)). Qed.

Lemma push_ok_stable h : hart_ok h -> hart_stable (push_off_h h).
Proof.
  intros Hh. split; [by apply push_off_ok|]. rewrite push_off_noff. destruct Hh. lia.
Qed.

Lemma killed_in p s root F T U :
  uenv p (pv s) root F T U -> zoom the_pst (killed p) (in_lock pil s) = Ok 0 (in_lock pil s).
Proof.
  intros He. destruct (ue_running _ _ _ _ _ _ He) as [[Hh Hl] Hp].
  rewrite (zoom_in pil _ s 0 (pv s)); [unfold pv; by rewrite put_view|..].
  - rewrite killed_eq.
    + by rewrite <- (ue_alive _ _ _ _ _ _ He).
    + apply push_ok_stable, Hh.
    + exact (Hl p (fun F => F)).
  - done.
Qed.

Lemma get_proc_in p s :
  zoom the_pst (get (proc_l p)) (in_lock pil s) = Ok (pproc (pv s) p) (in_lock pil s).
Proof.
  rewrite (zoom_in pil _ s (pproc (pv s) p) (pv s)); [unfold pv; by rewrite put_view|done..].
Qed.

Lemma copyin_in p s root F T U a :
  uenv p (pv s) root F T U -> 0 <= a ->
  zoom the_pst (zoom p_k_l (copyin root a 1)) (in_lock pil s) =
  Ok (match utrans (pv s).(p_k).(k_mem) T false a with
      | Some _ => (0, [uread (pv s).(p_k).(k_mem) T a])
      | None => (-1, [])
      end) (in_lock pil s).
Proof.
  intros He Ha. destruct (ue_running _ _ _ _ _ _ He) as [[Hh Hl] Hp].
  rewrite (zoom_in pil _ s (match utrans (pv s).(p_k).(k_mem) T false a with
      | Some _ => (0, [uread (pv s).(p_k).(k_mem) T a]) | None => (-1, []) end) (pv s));
    [unfold pv; by rewrite put_view| |done].
  set (h := push_off_h (phart (pv s))).
  assert (Hv : vinv (put hart_l h (p_k (pv s))) root F T U).
  { apply uvinv_hart; [apply He|]. apply push_ok_stable, Hh. }
  destruct (copyin_cases _ root F T U a 1 Hv (ue_uonly _ _ _ _ _ _ He) Ha ltac:(lia))
    as [(Hok & Ec)|(k & Hk & Hok & Hn & Ec)].
  - destruct (Hok a ltac:(lia)) as [pa Hpa]. cbn [k_mem put hart_l] in Hpa. rewrite Hpa.
    exact (zoom_ok p_k_l _ (put the_hart h (pv s)) _ _ Ec).
  - assert (k = 0) as -> by lia. rewrite Z.add_0_r in Hn. cbn [k_mem put hart_l] in Hn. rewrite Hn.
    exact (zoom_ok p_k_l _ (put the_hart h (pv s)) _ _ Ec).
Qed.

(** The kernel memory inside the process layer. *)
Definition put_k (k : kst) (s : S) : S := put the_pst (put p_k_l k (pv s)) s.

Lemma pv_put_k k s : pv (put_k k s) = put p_k_l k (pv s).
Proof. unfold put_k, pv. by rewrite view_put. Qed.

Lemma put_k_id s : put_k (p_k (pv s)) s = s.
Proof.
  unfold put_k. rewrite (put_view (l := p_k_l) (pv s) : put p_k_l (p_k (pv s)) (pv s) = pv s).
  unfold pv. apply put_view.
Qed.

Lemma put_k_twice K K1 x x1 s : put_k K (put l x (put_k K1 (put l x1 s))) = put_k K (put l x s).
Proof.
  unfold put_k, pv. rewrite !(view_put_l (l := the_pst) (k := l)), !view_put.
  rewrite <- (put_comm (l := the_pst) (k := l)), !put_put. by destruct (view the_pst s).
Qed.

Lemma copyout_in p s root F T U a b :
  uenv p (pv s) root F T U -> 0 <= a ->
  zoom the_pst (zoom p_k_l (copyout root a [b] 1)) (in_lock pil s) =
  match utrans (pv s).(p_k).(k_mem) T true a with
  | Some pa => Ok 0 (in_lock pil (put_k (store1 pa a b (pv s).(p_k)) s))
  | None => Ok (-1) (in_lock pil s)
  end.
Proof.
  intros He Ha. destruct (ue_running _ _ _ _ _ _ He) as [[Hh Hl] Hp].
  set (h := push_off_h (phart (pv s))).
  assert (Hv : vinv (put hart_l h (p_k (pv s))) root F T U).
  { apply uvinv_hart; [apply He|]. apply push_ok_stable, Hh. }
  pose proof (copyout1 _ root F T U a b Hv Ha) as Ec. cbn [k_mem put hart_l] in Ec.
  destruct (utrans (k_mem (p_k (pv s))) T true a) as [pa|].
  - rewrite (zoom_in pil _ s 0 (put p_k_l (store1 pa a b (pv s).(p_k)) (pv s))); [done| |done].
    exact (zoom_ok p_k_l _ (put the_hart h (pv s)) _ _ Ec).
  - rewrite (zoom_in pil _ s (-1) (pv s)); [unfold pv; by rewrite put_view| |done].
    exact (zoom_ok p_k_l _ (put the_hart h (pv s)) _ _ Ec).
Qed.

Lemma uenv_store1 p s root F T U a b pa :
  uenv p (pv s) root F T U -> 0 <= a -> is_byte b -> utrans (pv s).(p_k).(k_mem) T true a = Some pa ->
  uenv p (pv (put_k (store1 pa a b (pv s).(p_k)) s)) root F T U /\
  ustore (pv s).(p_k) root F T U (store1 pa a b (pv s).(p_k)) a [b].
Proof.
  intros [Hr Hal Hp Hv Hu] Ha Hb Ht.
  assert (Hst : ustore (pv s).(p_k) root F T U (store1 pa a b (pv s).(p_k)) a [b]).
  { apply ustore_page; try done; [|by apply Forall_singleton].
    pose proof (Z.mod_pos_bound a PGSIZE ltac:(clia)). cbn. lia. }
  split; [|done]. rewrite pv_put_k. split; try done.
  - apply (ust_vinv _ _ _ _ _ _ _ _ Hst).
  - exact (uonly_pte _ _ _ _ (ust_pte _ _ _ _ _ _ _ _ Hst) Hu).
Qed.

(** ** pipewrite *)

Definition pushes (bs : list Z) (x : pipe) : pipe := foldl (fun x b => pipe_push b x) x bs.

Lemma pushes_ok bs x :
  pipe_ok x -> Forall is_byte bs -> qlen x + Z.of_nat (length bs) <= 512 ->
  pipe_ok (pushes bs x) /\ pipe_queue (pushes bs x) = pipe_queue x ++ bs /\
  qlen (pushes bs x) = qlen x + Z.of_nat (length bs).
Proof.
  revert x. induction bs as [|b bs IH]; intros x Hx Hb Hl; cbn [pushes foldl length] in *.
  - rewrite app_nil_r. split_and!; [done..|lia].
  - inversion Hb as [|? ? Hb1 Hb2]; subst.
    destruct (pipe_push_ok b x Hx Hb1 ltac:(lia)) as (Hx1 & El & Eq).
    destruct (IH (pipe_push b x)) as (H1' & H2' & H3'); [done..|lia|]. unfold pushes in H2', H3'.
    split_and!; [done| |].
    + rewrite H2', Eq. by rewrite <- app_assoc.
    + rewrite H3', El. lia.
Qed.

(** Only the data and the write counter change. *)
Lemma pushes_frame bs x :
  pushes bs x = with_pi_data (pi_data (pushes bs x)) (with_nwrite (pi_nwrite (pushes bs x)) x).
Proof.
  revert x. induction bs as [|b bs IH]; intros x; [by destruct x|].
  change (pushes (b :: bs) x) with (pushes bs (pipe_push b x)). rewrite IH at 1. by destruct x.
Qed.

Lemma uread_byte m T a : is_byte (uread m T a).
Proof. unfold uread, rd, is_byte, u8. destruct (utrans m T false a); [|lia]. apply Z.mod_pos_bound. lia. Qed.

Lemma ubytes_byte m T a n : Forall is_byte (ubytes m T a n).
Proof. revert a. induction n; intros a; cbn; constructor; auto using uread_byte. Qed.

Section Write.
Context (p : fin 64) (root : Z) (F : list Z) (T : ptree) (U : gmap Z Z) (addr n : Z).

(** One turn of the loop with room in the pipe. *)
Lemma pipewrite_step s i :
  uenv p (pv s) root F T U -> pipe_ok (view l s) -> (view l s).(pi_readopen) <> 0 ->
  0 <= addr -> 0 <= i < n -> addr + n <= 2 ^ 64 -> qlen (view l s) < 512 ->
  pipewrite_body pi l (Some p) addr n i (in_lock pil s) =
  match utrans (pv s).(p_k).(k_mem) T false (addr + i) with
  | Some _ => Ok (inl (i + 1)) (in_lock pil (put l (pipe_push (uread (pv s).(p_k).(k_mem) T (addr + i)) (view l s)) s))
  | None => Ok (inr (Some i)) (in_lock pil s)
  end.
Proof.
  intros He Hx Hro Ha Hi Hn Hq. unfold pipewrite_body. destruct (Z.ltb_spec i n); [|lia]. cbn [negb].
  cbn [bind get gets obind]. rewrite view_pi. cbn [pi_readopen with_pi_lock].
  destruct (Z.eqb_spec (pi_readopen (view l s)) 0); [done|]. cbn [deref bind ret obind].
  rewrite (killed_in p s root F T U He). cbn [obind nz Z.eqb negb bind get gets]. rewrite view_pi.
  cbn [pi_nwrite pi_nread with_pi_lock].
  rewrite full_test by done. destruct (Z.eqb_spec (qlen (view l s)) 512); [lia|].
  cbn [deref bind ret obind]. rewrite get_proc_in. cbn [obind bind].
  rewrite (ue_root _ _ _ _ _ _ He), u64_small by lia.
  rewrite (copyin_in p s root F T U) by (done || lia).
  destruct (utrans (k_mem (p_k (pv s))) T false (addr + i)) as [pa|]; cbn [obind fst Z.eqb]; [|done].
  cbn [Pos.eqb bind]. rewrite update_pi; [done|]. by intros lk' [].
Qed.

Lemma pipewrite_loop k : forall s i fuel,
  uenv p (pv s) root F T U -> pipe_ok (view l s) -> (view l s).(pi_readopen) <> 0 ->
  0 <= addr -> 0 <= i -> i + Z.of_nat k <= n -> addr + n <= 2 ^ 64 ->
  uok (pv s).(p_k).(k_mem) T false (addr + i) (Z.of_nat k) -> qlen (view l s) + Z.of_nat k <= 512 ->
  (i + Z.of_nat k = n \/ utrans (pv s).(p_k).(k_mem) T false (addr + (i + Z.of_nat k)) = None /\
                         qlen (view l s) + Z.of_nat k < 512) ->
  (k < fuel)%nat ->
  loop fuel (pipewrite_body pi l (Some p) addr n) i (in_lock pil s) =
  Ok (Some (i + Z.of_nat k)) (in_lock pil (put l (pushes (ubytes (pv s).(p_k).(k_mem) T (addr + i) k) (view l s)) s)).
Proof.
  induction k as [|k IH]; intros s i fuel He Hx Hro Ha Hi Hin Hn Hok Hq Hend Hf;
    (destruct fuel as [|fuel]; [lia|]); rewrite loop_S.
  - cbn [ubytes pushes foldl]. rewrite put_view, Z.add_0_r. destruct Hend as [Hend|[Hend Hq']].
    + unfold pipewrite_body. destruct (Z.ltb_spec i n); [lia|]. done.
    + destruct (Z.ltb_spec i n).
      * rewrite pipewrite_step by (done || lia). rewrite Z.add_0_r in Hend. by rewrite Hend.
      * unfold pipewrite_body. destruct (Z.ltb_spec i n); [lia|]. done.
  - rewrite pipewrite_step by (done || lia). destruct (Hok (addr + i) ltac:(lia)) as [pa Hpa]. rewrite Hpa.
    cbn [obind]. set (b := uread (k_mem (p_k (pv s))) T (addr + i)).
    destruct (pipe_push_ok b (view l s) Hx (uread_byte _ _ _) ltac:(lia)) as (Hx1 & El & _).
    rewrite IH; rewrite ?pv_put_l, ?view_put; try done; try lia.
    + replace (i + 1 + Z.of_nat k) with (i + Z.of_nat (Datatypes.S k)) by lia. rewrite put_put.
      cbn [ubytes]. fold b. by replace (addr + i + 1) with (addr + (i + 1)) by lia.
    + intros a Hal. apply Hok. lia.
    + rewrite El. replace (i + 1 + Z.of_nat k) with (i + Z.of_nat (Datatypes.S k)) by lia.
      destruct Hend as [|[]]; [by left|]. right. split; [done|lia].
Qed.
End Write.

(** Leaving the critical section after a wakeup. *)
Lemma finish_in p c s :
  running p (pv s) -> lock_free (view l s).(pi_lock) ->
  exists t, wakes (pv s) t /\
    forall (A : Type) (a : A), (zoom the_pst (wakeup c) ;; release pil ;; ret a) (in_lock pil s) = Ok a (put the_pst t s).
Proof.
  intros Hr Hl. destruct (wakeup_in pil p c s Hr) as (t & Hw & Ew). exists t. split; [done|]. intros A a.
  cbn [bind]. rewrite Ew. cbn [obind bind]. rewrite (release_in pil); [done| |].
  - unfold pv. rewrite view_put. rewrite (wakes_hart _ _ Hw). apply Hr.
  - unfold pilock. cbn [lcomp view]. by rewrite (view_put_r (l := the_pst) (k := l)).
Qed.

Lemma start_in p s root F T U :
  uenv p (pv s) root F T U -> lock_free (view l s).(pi_lock) ->
  zoom the_pst myproc s = Ok (Some p) s /\ acquire pil s = Ok tt (in_lock pil s).
Proof.
  intros He Hl. destruct (ue_running _ _ _ _ _ _ He) as [[Hh _] Hp]. split; [|exact (acquire_in pil s Hl)].
  rewrite (zoom_ok the_pst _ s _ _ (myproc_eq (pv s) Hh)), Hp. unfold pv. rewrite put_view. done.
Qed.


(** ** piperead *)

Section Read.
Context (p : fin 64) (root : Z) (F : list Z) (T : ptree) (U : gmap Z Z) (addr n : Z).

Lemma piperead_step s i :
  uenv p (pv s) root F T U -> pipe_ok (view l s) -> 0 < qlen (view l s) ->
  0 <= addr -> 0 <= i < n -> addr + n <= 2 ^ 64 ->
  piperead_body l (Some p) addr n i (in_lock pil s) =
  match utrans (pv s).(p_k).(k_mem) T true (addr + i) with
  | Some pa => Ok (inl (i + 1)) (in_lock pil (put_k (store1 pa (addr + i) (pipe_peek (view l s)) (pv s).(p_k))
                                                (put l (pipe_pop (view l s)) s)))
  | None => Ok (inr i) (in_lock pil (put l (pipe_pop (view l s)) s))
  end.
Proof.
  intros He Hx Hq Ha Hi Hn. unfold piperead_body. destruct (Z.ltb_spec i n); [|lia]. cbn [negb].
  cbn [bind get gets obind]. rewrite view_pi. cbn [pi_nwrite pi_nread with_pi_lock].
  rewrite empty_test by done. destruct (Z.eqb_spec (qlen (view l s)) 0); [lia|]. cbn [bind].
  rewrite update_pi by by intros lk' []. cbn [deref bind ret obind]. rewrite get_proc_in. cbn [obind bind].
  rewrite pv_put_l, (ue_root _ _ _ _ _ _ He), u64_small by lia.
  rewrite (copyout_in p _ root F T U); [|by rewrite pv_put_l|lia]. rewrite pv_put_l.
  change (pipe_peek (with_pi_lock ?x ?y)) with (pipe_peek y).
  destruct (utrans (k_mem (p_k (pv s))) T true (addr + i)) as [pa|]; done.
Qed.

Lemma piperead_loop k : forall s i fuel,
  uenv p (pv s) root F T U -> pipe_ok (view l s) -> 0 <= addr -> 0 <= i -> addr + n <= 2 ^ 64 ->
  i + Z.of_nat k <= n -> Z.of_nat k <= qlen (view l s) ->
  uok (pv s).(p_k).(k_mem) T true (addr + i) (Z.of_nat k) -> (k < fuel)%nat ->
  let full := i + Z.of_nat k = n \/ Z.of_nat k = qlen (view l s) in
  full \/ utrans (pv s).(p_k).(k_mem) T true (addr + (i + Z.of_nat k)) = None ->
  exists j K x', loop fuel (piperead_body l (Some p) addr n) i (in_lock pil s) =
      Ok (i + Z.of_nat k) (in_lock pil (put_k K (put l x' s))) /\
    ustore (pv s).(p_k) root F T U K (addr + i) (take k (pipe_queue (view l s))) /\
    uenv p (put p_k_l K (pv s)) root F T U /\ pipe_ok x' /\
    pipe_queue x' = drop j (pipe_queue (view l s)) /\ pi_lock x' = pi_lock (view l s) /\
    (full /\ j = k \/ ~ full /\ j = Datatypes.S k).
Proof.
  induction k as [|k IH]; intros s i fuel He Hx Ha Hi Hn Hin Hkq Hok Hf full Hend;
    (destruct fuel as [|fuel]; [lia|]).
  - cbn [take]. rewrite Z.add_0_r in *.
    assert (Hid : ustore (p_k (pv s)) root F T U (p_k (pv s)) (addr + i) []).
    { apply ustore_refl, He. }
    destruct (decide full) as [Hfull|Hnf].
    + exists 0%nat, (p_k (pv s)), (view l s). rewrite put_view, put_k_id.
      split_and!; try done; [|by destruct (pv s)|by left].
      rewrite loop_S. unfold piperead_body. destruct (Z.ltb_spec i n); [|done]. cbn [negb bind get gets obind].
      rewrite view_pi. cbn [pi_nwrite pi_nread with_pi_lock]. rewrite empty_test by done.
      destruct (Z.eqb_spec (qlen (view l s)) 0); [done|]. unfold full in Hfull. lia.
    + destruct Hend as [?|Hbad]; [done|]. pose proof (qlen_range (view l s)) as Hr.
      assert (Hq : 0 < qlen (view l s)) by (unfold full in Hnf; lia).
      exists 1%nat, (p_k (pv s)), (pipe_pop (view l s)).
      destruct (pipe_pop_ok _ Hx Hq) as (Hx' & _ & Eq).
      split_and!; try done; [|by destruct (pv s)| |by right].
      * rewrite loop_S, piperead_step by (done || unfold full in Hnf; lia). rewrite Hbad. cbn [obind].
        rewrite <- (put_k_id (put l (pipe_pop (view l s)) s)) at 1. by rewrite pv_put_l.
      * by rewrite Eq.
  - assert (Hq : 0 < qlen (view l s)) by lia. destruct (Hok (addr + i) ltac:(lia)) as [pa Hpa].
    destruct (pipe_pop_ok _ Hx Hq) as (Hx1 & Hq1 & Eq).
    destruct (uenv_store1 p s root F T U (addr + i) (pipe_peek (view l s)) pa He ltac:(lia) (pipe_peek_byte _ Hx) Hpa)
      as [He1 Hst1].
    set (K1 := store1 pa (addr + i) (pipe_peek (view l s)) (p_k (pv s))) in *.
    set (s1 := put_k K1 (put l (pipe_pop (view l s)) s)).
    assert (Ev : view l s1 = pipe_pop (view l s)).
    { unfold s1, put_k. by rewrite (view_put_r (l := the_pst) (k := l)), view_put. }
    assert (Ep : pv s1 = put p_k_l K1 (pv s)) by (unfold s1; by rewrite pv_put_k, pv_put_l).
    rewrite pv_put_k in He1.
    destruct (IH s1 (i + 1) fuel) as (j & K & x' & E & Hst & He' & Hx' & Hqu & Hlk & Hj);
      rewrite ?Ep, ?Ev, ?Hq1; try done; try lia.
    + intros a Hal. rewrite (utrans_pte (k_mem (p_k (pv s)))); [|apply (ust_pte _ _ _ _ _ _ _ _ Hst1)].
      apply Hok. lia.
    + rewrite (utrans_pte (k_mem (p_k (pv s)))); [|apply (ust_pte _ _ _ _ _ _ _ _ Hst1)].
      replace (i + 1 + Z.of_nat k) with (i + Z.of_nat (Datatypes.S k)) by lia. unfold full in Hend.
      destruct Hend as [[|]|]; [left; left; lia|left; right; lia|by right].
    + exists (Datatypes.S j), K, x'. rewrite Ev in *. rewrite Ep in Hst, He'.
      rewrite Eq in *. cbn [take drop].
      split_and!; try done.
      * rewrite loop_S, piperead_step by (done || lia). rewrite Hpa. cbn [obind]. fold K1. fold s1. rewrite E.
        f_equal; [lia|]. f_equal. unfold s1. apply put_k_twice.
      * apply (ustore_app _ _ _ _ _ K1 K _ [_]); [done|]. cbn [length].
        by replace (addr + i + Z.of_nat 1) with (addr + (i + 1)) by lia.
      * unfold full. rewrite Hq1 in Hj. lia.
Qed.
End Read.

(** Nothing to wait for: bytes in the pipe, or no writer any more. *)
Lemma piperead_wait_done pr s :
  pipe_ok (view l s) -> (qlen (view l s) <> 0 \/ (view l s).(pi_writeopen) = 0) ->
  piperead_wait pi l pr tt (in_lock pil s) = Ok (inr false) (in_lock pil s).
Proof.
  intros Hx Hq. unfold piperead_wait. cbn [bind get gets obind]. rewrite view_pi.
  cbn [pi_nwrite pi_nread pi_writeopen with_pi_lock]. rewrite empty_test by done.
  destruct (Z.eqb_spec (qlen (view l s)) 0), (Z.eqb_spec (pi_writeopen (view l s)) 0) as [->|]; cbn; try done; lia.
Qed.

(** C25: [piperead] takes bytes from the front of the queue, stores them in
    user memory and returns how many: the smaller of [n] and the length of the
    queue, so 0 if the queue is empty and the write end closed, or the [k]
    before the first address that the user may not write.  The bytes stored
    leave the queue; so does the one that could not be stored, which is lost. *)
Theorem piperead_spec (p : fin 64) (s : S) (root : Z) (F : list Z) (T : ptree) (U : gmap Z Z) (addr n k : Z) :
  uenv p (pv s) root F T U -> lock_free (view l s).(pi_lock) -> pipe_ok (view l s) ->
  (qlen (view l s) <> 0 \/ (view l s).(pi_writeopen) = 0) ->
  0 <= addr -> addr + n <= 2 ^ 64 -> 0 <= k <= Z.min n (qlen (view l s)) ->
  uok (pv s).(p_k).(k_mem) T true addr k ->
  (k = Z.min n (qlen (view l s)) \/ utrans (pv s).(p_k).(k_mem) T true (addr + k) = None) ->
  exists t K x', piperead pi l addr n s = Ok k (put the_pst t (put l x' s)) /\
    ustore (pv s).(p_k) root F T U K addr (take (Z.to_nat k) (pipe_queue (view l s))) /\
    wakes (put p_k_l K (pv s)) t /\ pipe_ok x' /\
    pipe_queue x' = drop (Z.to_nat (if decide (k = Z.min n (qlen (view l s))) then k else k + 1))
                      (pipe_queue (view l s)).
Proof.
  intros He Hl Hx Hq Ha Hn Hk Hok Hend. destruct (start_in p s root F T U He Hl) as [E1 E2].
  destruct (piperead_loop p root F T U addr n (Z.to_nat k) s 0 (Datatypes.S (Z.to_nat n)))
    as (j & K & x' & E & Hst & He' & Hx' & Hqu & Hlk & Hj); try done; try lia.
  { rewrite Z.add_0_r, Z2Nat.id by lia. done. }
  { rewrite Z.add_0_l, Z2Nat.id by lia. destruct Hend; [left; lia|by right]. }
  destruct (finish_in p (chNwrite pi) (put_k K (put l x' s))) as (t & Hw & Ef).
  { rewrite pv_put_k, pv_put_l. apply He'. }
  { unfold put_k. rewrite (view_put_r (l := the_pst) (k := l)), view_put. by rewrite Hlk. }
  rewrite pv_put_k, pv_put_l in Hw. rewrite Z.add_0_r in Hst. exists t, K, x'. split_and!; try done.
  - unfold piperead. cbn [bind]. rewrite E1. cbn [obind bind]. rewrite E2. cbn [obind bind].
    rewrite loop_S, piperead_wait_done by done. cbn [obind ret bind]. rewrite E. cbn [obind]. rewrite Ef.
    f_equal; [lia|]. unfold put_k. by rewrite put_put.
  - rewrite Hqu. f_equal. destruct (decide (k = Z.min n (qlen (view l s)))); lia.
Qed.

End PipeThm.

(** ** Examples *)

#[local] Existing Instance demo_image12.
#[local] Existing Instance demo_image12_ok.
#[local] Instance demo_patience : Patience := 0%nat.

(** Process 2 runs in an address space with a page at 0, over a pipe. *)
Definition demo_user_hart : hart := with_cpu_proc (Some 2%fin) demo_hart.
Definition demo_proc (root : Z) (p : fin 64) : proc :=
  with_lock (initlock "proc") (with_pagetable root (with_state RUNNING proc0)).
Definition demo_user (k : kst) (root : Z) : pst :=
  Pst (put hart_l demo_user_hart k) (fun_to_vec (demo_proc root))
      8 (initlock "nextpid") (initlock "wait_lock") (Some 0%fin) 0 (initlock "time") 0 tty0.

Lemma demo_user_uenv k root F T U sz :
  uspace k root F T U sz -> uenv 2%fin (demo_user k root) root F T U.
Proof.
  intros Hs. assert (Ep : forall p, pproc (demo_user k root) p = demo_proc root p).
  { intros p. exact (lookup_fun_to_vec (demo_proc root) p). }
  split.
  - split; [|done]. split; [apply demo_hart_stable|]. intros p _. by rewrite Ep.
  - by rewrite Ep.
  - by rewrite Ep.
  - apply uvinv_hart; [apply Hs|apply demo_hart_stable].
  - by apply uspace_uonly in Hs.
Qed.

#[local] Instance demo_pipe_HasProcs : HasProcs (pst * pipe) := Lens fst (fun t s => (t, s.2)).
#[local] Instance demo_pipe_pst_laws : LensLaws (the_pst (S := pst * pipe)).
Proof. split; by intros; destruct s. Qed.
Definition demo_pipe_l : lens (pst * pipe) pipe := Lens snd (fun l s => (s.1, l)).
#[local] Instance demo_pipe_laws : LensLaws demo_pipe_l.
Proof. split; by intros; destruct s. Qed.
#[local] Instance demo_pipe_disjoint : LensDisjoint (the_pst (S := pst * pipe)) demo_pipe_l.
Proof. by split. Qed.

(** A pipe whose counters are about to wrap, with the byte 9 in it. *)
Definition demo_pipe : pipe :=
  Pipe (initlock "pipe") (replicate 511 0 ++ [9]) (2 ^ 32 - 1) 0 1 1.

Lemma demo_pipe_ok : pipe_ok demo_pipe.
Proof.
  split; [split; [done|vm_compute; split; congruence..|vm_compute; congruence]|].
  refine (bool_decide_unpack _ _). unfold is_byte. by vm_compute.
Qed.


Lemma piperead_spec_witness :
  exists k root T K x' t, piperead 0 demo_pipe_l 10 3 (demo_user k root, demo_pipe) = Ok 1 (t, x') /\
    uread K.(k_mem) T 10 = 9 /\ pipe_queue x' = [].
Proof.
  destruct demo_page as (k & root & F & T & U & Hs & Hok & _).
  pose proof (demo_user_uenv k root F T U _ Hs) as He.
  pose proof (piperead_spec 0 demo_pipe_l 2%fin (demo_user k root, demo_pipe) root F T U 10 3 1 He) as HX.
  destruct HX as (t & K & x' & E & Hst & _ & _ & Hq).
  - split; reflexivity.
  - exact demo_pipe_ok.
  - left. vm_compute. discriminate.
  - lia.
  - lia.
  - vm_compute. split; discriminate.
  - intros a Ha. apply Hok. clia.
  - by left.
  - exists k, root, T, K, x', t. split; [exact E|]. split; [|exact Hq].
    rewrite (ust_data _ _ _ _ _ _ _ _ Hst) by lia. reflexivity.
Defined.
