(* ===== verification/Dll.v ===== *)
(** * Circular doubly linked lists

    The LRU list of the buffer cache: [next] and [prev] pointers of the nodes,
    the list they represent, and what unlinking a node and inserting it
    behind the head do to it. *)

From S2P Require Import Prelude.

Section Dll.
Context {N : Type} `{EqDecision N}.

Definition upd (f : N -> N) (a v : N) : N -> N := fun b => if decide (b = a) then v else f b.

Lemma upd_eq f a v : upd f a v a = v.
Proof. unfold upd. by rewrite decide_True. Qed.
Lemma upd_ne f a v b : b <> a -> upd f a v b = f b.
Proof. intros Hne. unfold upd. by rewrite decide_False. Qed.

(** From [a] the nodes [l] lead to [z], and back. *)
Fixpoint links (next prev : N -> N) (a : N) (l : list N) (z : N) : Prop :=
  match l with
  | [] => next a = z /\ prev z = a
  | b :: l' => next a = b /\ prev b = a /\ links next prev b l' z
  end.

Lemma links_app next prev a l1 b l2 z :
  links next prev a (l1 ++ b :: l2) z <-> links next prev a l1 b /\ links next prev b l2 z.
Proof.
  revert a. induction l1 as [|c l1 IH]; intros a; cbn; [tauto|]. rewrite IH. tauto.
Qed.

Lemma links_ext next prev next' prev' a l z :
  (forall b, b ∈ a :: l -> next' b = next b) -> (forall b, b ∈ l ++ [z] -> prev' b = prev b) ->
  links next prev a l z -> links next' prev' a l z.
Proof.
  revert a. induction l as [|b l IH]; intros a Hn Hp; cbn.
  - intros [E1 E2]. rewrite Hn, Hp by (cbn; lelem). done.
  - intros (E1 & E2 & Hl). rewrite Hn, Hp by (cbn; lelem). split; [done|]. split; [done|].
    apply IH; [| |done]; intros c Hc; [apply Hn|apply Hp]; cbn; lelem.
Qed.

(** The last node of [a :: l]. *)
Definition lst (a : N) (l : list N) : N := default a (last l).

Lemma lst_cons a b l : lst a (b :: l) = lst b l.
Proof. unfold lst. rewrite last_cons. by destruct (last l). Qed.

Lemma lst_elem a l : lst a l ∈ a :: l.
Proof.
  revert a. induction l as [|b l IH]; intros a; [cbn; lelem|]. rewrite lst_cons.
  specialize (IH b). lelem.
Qed.

Lemma links_next next prev a l z : links next prev a l z -> next a = default z (head l).
Proof. destruct l; cbn; tauto. Qed.

Lemma links_last next prev a l z : links next prev a l z -> next (lst a l) = z /\ prev z = lst a l.
Proof.
  revert a. induction l as [|b l IH]; intros a; [done|]. rewrite lst_cons. cbn.
  intros (_ & _ & Hl). auto.
Qed.

(** Redirecting the last link of a path. *)
Lemma links_retarget next prev next' prev' a l z z' :
  NoDup (a :: l) ->
  (forall b, b ∈ a :: l -> b <> lst a l -> next' b = next b) -> (forall b, b ∈ l -> prev' b = prev b) ->
  next' (lst a l) = z' -> prev' z' = lst a l ->
  links next prev a l z -> links next' prev' a l z'.
Proof.
  revert a. induction l as [|b l IH]; intros a Hnd Hn Hp En Ep; [done|]. cbn.
  rewrite lst_cons in *. apply NoDup_cons in Hnd as [Hna Hnd]. intros (E1 & E2 & Hl).
  assert (Hne : a <> lst b l) by (intros ->; apply Hna, lst_elem).
  split; [rewrite Hn by (done || lelem); done|]. split; [rewrite Hp by lelem; done|].
  apply (IH b); try done; intros c Hc; [intros Hcl; apply Hn; lelem|apply Hp; lelem].
Qed.

(** ** A circular list through [h] *)

Definition dll (next prev : N -> N) (h : N) (l : list N) : Prop :=
  NoDup (h :: l) /\ links next prev h l h.

Lemma NoDup_drop_mid (h b : N) l1 l2 :
  NoDup (h :: l1 ++ b :: l2) ->
  NoDup (h :: l1 ++ l2) /\ NoDup (h :: l1) /\ NoDup l2 /\ (b ∉ h :: l1 ++ l2) /\
  (h ∉ l2) /\ (forall x, x ∈ l1 -> x ∈ l2 -> False).
Proof.
  rewrite <- (Permutation_middle l1 l2 b). rewrite (perm_swap b h (l1 ++ l2)).
  intros [Hb Hnd]%NoDup_cons. split; [done|].
  pose proof Hnd as Hnd'. apply NoDup_cons in Hnd' as [Hh Hnd']. apply NoDup_app in Hnd' as (N1 & N2 & N3).
  split_and!; try done; try lelem.
  apply NoDup_cons. split; [lelem|done].
Qed.

(** [b->next->prev = b->prev; b->prev->next = b->next;] *)
Lemma dll_unlink next prev h l1 b l2 :
  dll next prev h (l1 ++ b :: l2) ->
  dll (upd next (prev b) (next b)) (upd prev (next b) (prev b)) h (l1 ++ l2).
Proof.
  intros [Hnd Hl]. apply links_app in Hl as [H1 H2].
  apply NoDup_drop_mid in Hnd as (Hnd & Hnd1 & Hnd2 & Hb & Hh & Hdis). split; [done|].
  destruct (links_last _ _ _ _ _ H1) as [E1 E2]. pose proof (links_next _ _ _ _ _ H2) as E3.
  pose proof (lst_elem h l1) as Hlst. rewrite E2, E3.
  assert (Hgo : forall c, (c = h \/ c ∈ l2) -> links (upd next (lst h l1) c) (upd prev c (lst h l1)) h l1 c).
  { intros c Hc. apply (links_retarget next prev _ _ h l1 b c Hnd1); try done.
    - intros x Hx Hne. by apply upd_ne.
    - intros x Hx. apply upd_ne. intros ->. destruct Hc as [->|Hc]; [|by eapply Hdis].
      apply NoDup_cons in Hnd1 as [? _]. done.
    - apply upd_eq.
    - apply upd_eq. }
  destruct l2 as [|c l2]; cbn [head default from_option id].
  - rewrite app_nil_r. apply Hgo. by left.
  - apply links_app. split; [apply Hgo; right; lelem|]. cbn in H2. destruct H2 as (_ & _ & H2).
    eapply links_ext; [| |exact H2].
    + intros x Hx. apply upd_ne. intros ->.
      apply elem_of_cons in Hlst as [E|Hlst]; [rewrite E in Hx; lelem|]. by apply (Hdis (lst h l1)).
    + intros x Hx. apply upd_ne. intros ->. apply NoDup_cons in Hnd2 as [? _]. lelemc.
Qed.

(** [b->next = head.next; b->prev = &head; head.next->prev = b; head.next = b;] *)
Lemma dll_push next prev h l b :
  dll next prev h l -> (b ∉ h :: l) ->
  dll (upd (upd next b (next h)) h b) (upd (upd prev b h) (next h) b) h (b :: l).
Proof.
  intros [Hnd Hl] Hb. pose proof (links_next _ _ _ _ _ Hl) as En.
  assert (Hbh : b <> h) by lelem.
  split.
  { rewrite (perm_swap b h l). by apply NoDup_cons. }
  rewrite En. cbn [links]. apply NoDup_cons in Hnd as [Hh Hnd].
  assert (Hc : default h (head l) <> b).
  { destruct l as [|c l]; cbn; [congruence|]. intros ->. lelem. }
  split; [apply upd_eq|]. split; [rewrite upd_ne by congruence; apply upd_eq|].
  destruct l as [|c l]; cbn [links head default from_option id] in *.
  - split; [|apply upd_eq]. rewrite upd_ne by congruence. apply upd_eq.
  - destruct Hl as (_ & E2 & Hl). split; [rewrite upd_ne by congruence; apply upd_eq|].
    split; [apply upd_eq|]. apply NoDup_cons in Hnd as [Hcl Hnd].
    eapply links_ext; [| |exact Hl].
    + intros x Hx. rewrite !upd_ne; [done| |]; intros ->; lelemc.
    + intros x Hx. rewrite !upd_ne; [done| |]; intros ->; lelemc.
Qed.

End Dll.
