(* ===== verification/Bio.v ===== *)
(** * The buffer cache (kernel/bio.c, kernel/buf.h)

    Thirty buffers, linked in a circular list from the most to the least
    recently used one.  The disk driver is an interface: an operation on the
    state and, in [DiskLaws], what it does to the blocks on the disk. *)

From S2P Require Import Prelude Riscv Memory Spinlock Kalloc Vm Tty Proc ProcSpec Sleeplock Dll.

Definition BSIZE : Z := 1024.

(** The head of the LRU list, or a buffer. *)
Inductive node := Head | Bn (i : fin 30).

#[export] Instance node_eq_dec : EqDecision node.
Proof. solve_decision. Defined.

Record buf := Buf {
  b_valid : Z;
  b_disk : Z;
  b_dev : Z;
  b_blockno : Z;
  b_lock : sleeplock;
  b_refcnt : Z;
  b_prev : node;
  b_next : node;
  b_data : list Z
}.

Definition with_b_valid (x : Z) (b : buf) : buf :=
  Buf x b.(b_disk) b.(b_dev) b.(b_blockno) b.(b_lock) b.(b_refcnt) b.(b_prev) b.(b_next)
      b.(b_data).
Definition with_b_disk (x : Z) (b : buf) : buf :=
  Buf b.(b_valid) x b.(b_dev) b.(b_blockno) b.(b_lock) b.(b_refcnt) b.(b_prev) b.(b_next)
      b.(b_data).
Definition with_b_dev (x : Z) (b : buf) : buf :=
  Buf b.(b_valid) b.(b_disk) x b.(b_blockno) b.(b_lock) b.(b_refcnt) b.(b_prev) b.(b_next)
      b.(b_data).
Definition with_b_blockno (x : Z) (b : buf) : buf :=
  Buf b.(b_valid) b.(b_disk) b.(b_dev) x b.(b_lock) b.(b_refcnt) b.(b_prev) b.(b_next)
      b.(b_data).
Definition with_b_lock (x : sleeplock) (b : buf) : buf :=
  Buf b.(b_valid) b.(b_disk) b.(b_dev) b.(b_blockno) x b.(b_refcnt) b.(b_prev) b.(b_next)
      b.(b_data).
Definition with_b_refcnt (x : Z) (b : buf) : buf :=
  Buf b.(b_valid) b.(b_disk) b.(b_dev) b.(b_blockno) b.(b_lock) x b.(b_prev) b.(b_next)
      b.(b_data).
Definition with_b_prev (x : node) (b : buf) : buf :=
  Buf b.(b_valid) b.(b_disk) b.(b_dev) b.(b_blockno) b.(b_lock) b.(b_refcnt) x b.(b_next)
      b.(b_data).
Definition with_b_next (x : node) (b : buf) : buf :=
  Buf b.(b_valid) b.(b_disk) b.(b_dev) b.(b_blockno) b.(b_lock) b.(b_refcnt) b.(b_prev) x
      b.(b_data).
Definition with_b_data (x : list Z) (b : buf) : buf :=
  Buf b.(b_valid) b.(b_disk) b.(b_dev) b.(b_blockno) b.(b_lock) b.(b_refcnt) b.(b_prev)
      b.(b_next) x.

(** A block of zeros. *)
Definition zblock : list Z := replicate 1024 0.
#[global] Arguments zblock : simpl never.

Lemma length_zblock : length zblock = 1024%nat.
Proof. exact (length_replicate 1024 0). Qed.

Definition buf0 : buf := Buf 0 0 0 0 (initsleeplock "") 0 Head Head zblock.

(** The state of the buffer cache over that of the process layer; [D] is the
    state of the disk and its driver. *)
Record bst (D : Type) := Bst {
  b_p : pst;
  bc_lock : spinlock;
  bufs : vec buf 30;
  head_prev : node;
  head_next : node;
  b_dsk : D
}.
Arguments Bst {D}.
Arguments b_p {D}.
Arguments bc_lock {D}.
Arguments bufs {D}.
Arguments head_prev {D}.
Arguments head_next {D}.
Arguments b_dsk {D}.

Section Lenses.
Context {D : Type}.
Definition b_p_l : lens (bst D) pst := Lens b_p
  (fun x s => Bst x s.(bc_lock) s.(bufs) s.(head_prev) s.(head_next) s.(b_dsk)).
Definition bc_lock_l : lens (bst D) spinlock := Lens bc_lock
  (fun x s => Bst s.(b_p) x s.(bufs) s.(head_prev) s.(head_next) s.(b_dsk)).
Definition bufs_l : lens (bst D) (vec buf 30) := Lens bufs
  (fun x s => Bst s.(b_p) s.(bc_lock) x s.(head_prev) s.(head_next) s.(b_dsk)).
Definition head_prev_l : lens (bst D) node := Lens head_prev
  (fun x s => Bst s.(b_p) s.(bc_lock) s.(bufs) x s.(head_next) s.(b_dsk)).
Definition head_next_l : lens (bst D) node := Lens head_next
  (fun x s => Bst s.(b_p) s.(bc_lock) s.(bufs) s.(head_prev) x s.(b_dsk)).
Definition b_dsk_l : lens (bst D) D := Lens b_dsk
  (fun x s => Bst s.(b_p) s.(bc_lock) s.(bufs) s.(head_prev) s.(head_next) x).
Definition buf_l (i : fin 30) : lens (bst D) buf := lcomp bufs_l (vec_l i).
Definition block_l : lens buf sleeplock := Lens b_lock with_b_lock.
#[export] Instance b_p_laws : LensLaws b_p_l.
Proof. by split; intros; destruct s. Qed.
#[export] Instance bc_lock_laws : LensLaws bc_lock_l.
Proof. by split; intros; destruct s. Qed.
#[export] Instance bufs_laws : LensLaws bufs_l.
Proof. by split; intros; destruct s. Qed.
#[export] Instance head_prev_laws : LensLaws head_prev_l.
Proof. by split; intros; destruct s. Qed.
#[export] Instance head_next_laws : LensLaws head_next_l.
Proof. by split; intros; destruct s. Qed.
#[export] Instance b_dsk_laws : LensLaws b_dsk_l.
Proof. by split; intros; destruct s. Qed.
#[export] Instance block_laws : LensLaws block_l.
Proof. by split; intros; destruct s. Qed.
#[export] Instance bst_HasProcs : HasProcs (bst D) := b_p_l.
#[export] Instance bst_pst_laws : LensLaws (the_pst (S := bst D)).
Proof. unfold the_pst, bst_HasProcs. apply _. Qed.
#[export] Instance bst_pst_bc_lock : LensDisjoint (the_pst (S := bst D)) bc_lock_l.
Proof. by split. Qed.
#[export] Instance bst_pst_bufs : LensDisjoint (the_pst (S := bst D)) bufs_l.
Proof. by split. Qed.
#[export] Instance bst_pst_b_dsk : LensDisjoint (the_pst (S := bst D)) b_dsk_l.
Proof. by split. Qed.
#[export] Instance bst_pst_buf i : LensDisjoint (the_pst (S := bst D)) (buf_l i).
Proof. unfold buf_l. apply _. Qed.
End Lenses.

(** ** The disk driver *)

(** [virtio_disk_rw(b, write)] of the driver with state [D]. *)
Class DiskDriver (D : Type) := disk_rw : fin 30 -> bool -> M (bst D) unit.

(** The driver's interrupt handler and its initialisation. *)
Class DiskControl (D : Type) := {
  disk_intr : M (bst D) unit;
  disk_init : M (bst D) unit
}.

Section Bio.
Context {D : Type} `{DiskDriver D} `{Patience}.

Definition bufslock (i : fin 30) : lens (bst D) sleeplock := lcomp (buf_l i) block_l.

(** ** Pointers of the LRU list *)

Definition next_of (s : bst D) (n : node) : node :=
  match n with Head => s.(head_next) | Bn i => (s.(bufs) !!! i).(b_next) end.
Definition prev_of (s : bst D) (n : node) : node :=
  match n with Head => s.(head_prev) | Bn i => (s.(bufs) !!! i).(b_prev) end.
Definition set_next (n v : node) : M (bst D) unit :=
  match n with
  | Head => set head_next_l v
  | Bn i => update (buf_l i) (with_b_next v)
  end.
Definition set_prev (n v : node) : M (bst D) unit :=
  match n with
  | Head => set head_prev_l v
  | Bn i => update (buf_l i) (with_b_prev v)
  end.

(** Put buffer [i] behind the head. *)
Definition link_front (i : fin 30) : M (bst D) unit :=
  n <- gets (fun s => next_of s Head) ;;
  set_next (Bn i) n ;;
  set_prev (Bn i) Head ;;
  n <- gets (fun s => next_of s Head) ;;
  set_prev n (Bn i) ;;
  set_next Head (Bn i).

Definition all_bufs : list (fin 30) := enum (fin 30).

Definition binit : M (bst D) unit :=
  set bc_lock_l (initlock "bcache") ;;
  set head_prev_l Head ;;
  set head_next_l Head ;;
  iterM all_bufs (fun b =>
    n <- gets (fun s => next_of s Head) ;;
    set_next (Bn b) n ;;
    set_prev (Bn b) Head ;;
    set (bufslock b) (initsleeplock "buffer") ;;
    n <- gets (fun s => next_of s Head) ;;
    set_prev n (Bn b) ;;
    set_next Head (Bn b)).

(** ** Getting a buffer *)

(** Follow [step] pointers from [n] to the first buffer that satisfies
    [test], up to the head. *)
Definition scan_body (step : bst D -> node -> node) (test : buf -> bool) (n : node) :
    M (bst D) (node + option (fin 30)) :=
  match n with
  | Head => ret (inr None)
  | Bn i =>
      b <- get (buf_l i) ;;
      if test b then ret (inr (Some i))
      else
        n <- gets (fun s => step s n) ;;
        ret (inl n)
  end.

Definition bget (dev blockno : Z) : M (bst D) (fin 30) :=
  acquire bc_lock_l ;;
  n <- gets (fun s => next_of s Head) ;;
  hit <- loop 31 (scan_body next_of
                    (fun b => (b.(b_dev) =? dev) && (b.(b_blockno) =? blockno))) n ;;
  match hit with
  | Some b =>
      update (buf_l b) (fun x => with_b_refcnt (u32 (x.(b_refcnt) + 1)) x) ;;
      release bc_lock_l ;;
      acquiresleep (chBufLock b) (bufslock b) ;;
      ret b
  | None =>
      n <- gets (fun s => prev_of s Head) ;;
      victim <- loop 31 (scan_body prev_of (fun b => b.(b_refcnt) =? 0)) n ;;
      match victim with
      | Some b =>
          update (buf_l b) (fun x =>
            with_b_refcnt 1 (with_b_valid 0 (with_b_blockno blockno (with_b_dev dev x)))) ;;
          release bc_lock_l ;;
          acquiresleep (chBufLock b) (bufslock b) ;;
          ret b
      | None => panic "bget: no buffers"
      end
  end.

Definition bread (dev blockno : Z) : M (bst D) (fin 30) :=
  b <- bget dev blockno ;;
  x <- get (buf_l b) ;;
  (if x.(b_valid) =? 0 then
     disk_rw b false ;;
     update (buf_l b) (with_b_valid 1)
   else ret tt) ;;
  ret b.

Definition bwrite (b : fin 30) : M (bst D) unit :=
  h <- holdingsleep (bufslock b) ;;
  if negb h then panic "bwrite"
  else disk_rw b true.

(** ** Releasing it *)

Definition brelse (b : fin 30) : M (bst D) unit :=
  h <- holdingsleep (bufslock b) ;;
  if negb h then panic "brelse"
  else
    releasesleep (chBufLock b) (bufslock b) ;;
    acquire bc_lock_l ;;
    update (buf_l b) (fun x => with_b_refcnt (u32 (x.(b_refcnt) - 1)) x) ;;
    x <- get (buf_l b) ;;
    (if x.(b_refcnt) =? 0 then
       x <- get (buf_l b) ;;
       set_prev x.(b_next) x.(b_prev) ;;
       x <- get (buf_l b) ;;
       set_next x.(b_prev) x.(b_next) ;;
       link_front b
     else ret tt) ;;
    release bc_lock_l.

Definition bpin (b : fin 30) : M (bst D) unit :=
  acquire bc_lock_l ;;
  update (buf_l b) (fun x => with_b_refcnt (u32 (x.(b_refcnt) + 1)) x) ;;
  release bc_lock_l.

Definition bunpin (b : fin 30) : M (bst D) unit :=
  acquire bc_lock_l ;;
  update (buf_l b) (fun x => with_b_refcnt (u32 (x.(b_refcnt) - 1)) x) ;;
  release bc_lock_l.

End Bio.
