(* ===== verification/Virtio.v ===== *)
(** * The disk driver (kernel/virtio_disk.c, kernel/virtio.h)

    The driver's book-keeping and the queue it shares with the device:
    descriptors, the ring of available requests and the ring of used ones.
    The pages of the queue are kept as the structures they hold, and the
    addresses the device gets as what they point to.  What the device answers
    to the reads of its registers is a parameter. *)

From S2P Require Import Prelude Riscv Memory Spinlock Kalloc Vm Tty Proc ProcSpec Sleeplock Bio.

Definition VIRTIO_MMIO_MAGIC_VALUE : Z := 0x000.
Definition VIRTIO_MMIO_VERSION : Z := 0x004.
Definition VIRTIO_MMIO_DEVICE_ID : Z := 0x008.
Definition VIRTIO_MMIO_VENDOR_ID : Z := 0x00c.
Definition VIRTIO_MMIO_DEVICE_FEATURES : Z := 0x010.
Definition VIRTIO_MMIO_DRIVER_FEATURES : Z := 0x020.
Definition VIRTIO_MMIO_QUEUE_SEL : Z := 0x030.
Definition VIRTIO_MMIO_QUEUE_NUM_MAX : Z := 0x034.
Definition VIRTIO_MMIO_QUEUE_NUM : Z := 0x038.
Definition VIRTIO_MMIO_QUEUE_READY : Z := 0x044.
Definition VIRTIO_MMIO_QUEUE_NOTIFY : Z := 0x050.
Definition VIRTIO_MMIO_INTERRUPT_STATUS : Z := 0x060.
Definition VIRTIO_MMIO_INTERRUPT_ACK : Z := 0x064.
Definition VIRTIO_MMIO_STATUS : Z := 0x070.
Definition VIRTIO_MMIO_QUEUE_DESC_LOW : Z := 0x080.
Definition VIRTIO_MMIO_QUEUE_DESC_HIGH : Z := 0x084.
Definition VIRTIO_MMIO_DRIVER_DESC_LOW : Z := 0x090.
Definition VIRTIO_MMIO_DRIVER_DESC_HIGH : Z := 0x094.
Definition VIRTIO_MMIO_DEVICE_DESC_LOW : Z := 0x0a0.
Definition VIRTIO_MMIO_DEVICE_DESC_HIGH : Z := 0x0a4.
Definition VIRTIO_CONFIG_S_ACKNOWLEDGE : Z := 1.
Definition VIRTIO_CONFIG_S_DRIVER : Z := 2.
Definition VIRTIO_CONFIG_S_DRIVER_OK : Z := 4.
Definition VIRTIO_CONFIG_S_FEATURES_OK : Z := 8.
Definition VIRTIO_BLK_F_RO : Z := 5.
Definition VIRTIO_BLK_F_SCSI : Z := 7.
Definition VIRTIO_BLK_F_CONFIG_WCE : Z := 11.
Definition VIRTIO_BLK_F_MQ : Z := 12.
Definition VIRTIO_F_ANY_LAYOUT : Z := 27.
Definition VIRTIO_RING_F_INDIRECT_DESC : Z := 28.
Definition VIRTIO_RING_F_EVENT_IDX : Z := 29.
Definition NUM : Z := 8.
Definition VRING_DESC_F_NEXT : Z := 1.
Definition VRING_DESC_F_WRITE : Z := 2.
Definition VIRTIO_BLK_T_IN : Z := 0.
Definition VIRTIO_BLK_T_OUT : Z := 1.

(** The addresses in descriptors: nothing, [ops[i]], the data of a buffer,
    [info[i].status]. *)
Inductive dma := DNull | DOp (i : fin 8) | DData (b : fin 30) | DStatus (i : fin 8).

(** [struct virtq_desc] *)
Record virtq_desc := Desc { d_addr : dma; d_len : Z; d_flags : Z; d_next : Z }.
Definition desc0 : virtq_desc := Desc DNull 0 0 0.

(** [struct virtio_blk_req] *)
Record virtio_blk_req := Req { r_type : Z; r_reserved : Z; r_sector : Z }.

(** [struct disk]; the rings' [idx] and [ring] are fields of their own, [dev_used_idx]
    being the one the device increments.  The last four
    fields are the device's: the writes to its registers, oldest first, how
    far it has looked in the ring of available requests, and the blocks on the
    disk with the writes that have reached them. *)
Record vdisk := Vdisk {
  v_pages : Z * Z * Z;
  v_desc : vec virtq_desc 8;
  avail_idx : Z;
  avail_ring : vec Z 8;
  dev_used_idx : Z;
  used_ring : vec Z 8;
  v_free : vec Z 8;
  used_idx : Z;
  info_b : vec (option (fin 30)) 8;
  info_status : vec Z 8;
  v_ops : vec virtio_blk_req 8;
  vdisk_lock : spinlock;
  mmio : list (Z * Z);
  dev_avail_idx : Z;
  v_blocks : gmap Z (list Z);
  v_writes : list (Z * list Z)
}.

Definition with_v_pages (x : Z * Z * Z) (d : vdisk) : vdisk :=
  Vdisk x d.(v_desc) d.(avail_idx) d.(avail_ring) d.(dev_used_idx) d.(used_ring) d.(v_free) d.(used_idx) d.(info_b)
    d.(info_status) d.(v_ops) d.(vdisk_lock) d.(mmio) d.(dev_avail_idx) d.(v_blocks) d.(v_writes).
Definition with_v_desc (x : vec virtq_desc 8) (d : vdisk) : vdisk :=
  Vdisk d.(v_pages) x d.(avail_idx) d.(avail_ring) d.(dev_used_idx) d.(used_ring) d.(v_free) d.(used_idx)
    d.(info_b) d.(info_status) d.(v_ops) d.(vdisk_lock) d.(mmio) d.(dev_avail_idx) d.(v_blocks) d.(v_writes).
Definition with_avail_idx (x : Z) (d : vdisk) : vdisk :=
  Vdisk d.(v_pages) d.(v_desc) x d.(avail_ring) d.(dev_used_idx) d.(used_ring) d.(v_free) d.(used_idx) d.(info_b)
    d.(info_status) d.(v_ops) d.(vdisk_lock) d.(mmio) d.(dev_avail_idx) d.(v_blocks) d.(v_writes).
Definition with_avail_ring (x : vec Z 8) (d : vdisk) : vdisk :=
  Vdisk d.(v_pages) d.(v_desc) d.(avail_idx) x d.(dev_used_idx) d.(used_ring) d.(v_free) d.(used_idx) d.(info_b)
    d.(info_status) d.(v_ops) d.(vdisk_lock) d.(mmio) d.(dev_avail_idx) d.(v_blocks) d.(v_writes).
Definition with_dev_used_idx (x : Z) (d : vdisk) : vdisk :=
  Vdisk d.(v_pages) d.(v_desc) d.(avail_idx) d.(avail_ring) x d.(used_ring) d.(v_free) d.(used_idx) d.(info_b)
    d.(info_status) d.(v_ops) d.(vdisk_lock) d.(mmio) d.(dev_avail_idx) d.(v_blocks) d.(v_writes).
Definition with_used_ring (x : vec Z 8) (d : vdisk) : vdisk :=
  Vdisk d.(v_pages) d.(v_desc) d.(avail_idx) d.(avail_ring) d.(dev_used_idx) x d.(v_free) d.(used_idx) d.(info_b)
    d.(info_status) d.(v_ops) d.(vdisk_lock) d.(mmio) d.(dev_avail_idx) d.(v_blocks) d.(v_writes).
Definition with_v_free (x : vec Z 8) (d : vdisk) : vdisk :=
  Vdisk d.(v_pages) d.(v_desc) d.(avail_idx) d.(avail_ring) d.(dev_used_idx) d.(used_ring) x d.(used_idx)
    d.(info_b) d.(info_status) d.(v_ops) d.(vdisk_lock) d.(mmio) d.(dev_avail_idx) d.(v_blocks) d.(v_writes).
Definition with_used_idx (x : Z) (d : vdisk) : vdisk :=
  Vdisk d.(v_pages) d.(v_desc) d.(avail_idx) d.(avail_ring) d.(dev_used_idx) d.(used_ring) d.(v_free) x d.(info_b)
    d.(info_status) d.(v_ops) d.(vdisk_lock) d.(mmio) d.(dev_avail_idx) d.(v_blocks) d.(v_writes).
Definition with_info_b (x : vec (option (fin 30)) 8) (d : vdisk) : vdisk :=
  Vdisk d.(v_pages) d.(v_desc) d.(avail_idx) d.(avail_ring) d.(dev_used_idx) d.(used_ring) d.(v_free) d.(used_idx)
    x d.(info_status) d.(v_ops) d.(vdisk_lock) d.(mmio) d.(dev_avail_idx) d.(v_blocks) d.(v_writes).
Definition with_info_status (x : vec Z 8) (d : vdisk) : vdisk :=
  Vdisk d.(v_pages) d.(v_desc) d.(avail_idx) d.(avail_ring) d.(dev_used_idx) d.(used_ring) d.(v_free) d.(used_idx)
    d.(info_b) x d.(v_ops) d.(vdisk_lock) d.(mmio) d.(dev_avail_idx) d.(v_blocks) d.(v_writes).
Definition with_v_ops (x : vec virtio_blk_req 8) (d : vdisk) : vdisk :=
  Vdisk d.(v_pages) d.(v_desc) d.(avail_idx) d.(avail_ring) d.(dev_used_idx) d.(used_ring) d.(v_free) d.(used_idx)
    d.(info_b) d.(info_status) x d.(vdisk_lock) d.(mmio) d.(dev_avail_idx) d.(v_blocks) d.(v_writes).
Definition with_vdisk_lock (x : spinlock) (d : vdisk) : vdisk :=
  Vdisk d.(v_pages) d.(v_desc) d.(avail_idx) d.(avail_ring) d.(dev_used_idx) d.(used_ring) d.(v_free) d.(used_idx)
    d.(info_b) d.(info_status) d.(v_ops) x d.(mmio) d.(dev_avail_idx) d.(v_blocks) d.(v_writes).
Definition with_mmio (x : list (Z * Z)) (d : vdisk) : vdisk :=
  Vdisk d.(v_pages) d.(v_desc) d.(avail_idx) d.(avail_ring) d.(dev_used_idx) d.(used_ring) d.(v_free) d.(used_idx)
    d.(info_b) d.(info_status) d.(v_ops) d.(vdisk_lock) x d.(dev_avail_idx) d.(v_blocks) d.(v_writes).
Definition with_dev_avail_idx (x : Z) (d : vdisk) : vdisk :=
  Vdisk d.(v_pages) d.(v_desc) d.(avail_idx) d.(avail_ring) d.(dev_used_idx) d.(used_ring) d.(v_free) d.(used_idx)
    d.(info_b) d.(info_status) d.(v_ops) d.(vdisk_lock) d.(mmio) x d.(v_blocks) d.(v_writes).
Definition with_v_blocks (x : gmap Z (list Z)) (d : vdisk) : vdisk :=
  Vdisk d.(v_pages) d.(v_desc) d.(avail_idx) d.(avail_ring) d.(dev_used_idx) d.(used_ring) d.(v_free) d.(used_idx)
    d.(info_b) d.(info_status) d.(v_ops) d.(vdisk_lock) d.(mmio) d.(dev_avail_idx) x d.(v_writes).
Definition with_v_writes (x : list (Z * list Z)) (d : vdisk) : vdisk :=
  Vdisk d.(v_pages) d.(v_desc) d.(avail_idx) d.(avail_ring) d.(dev_used_idx) d.(used_ring) d.(v_free) d.(used_idx)
    d.(info_b) d.(info_status) d.(v_ops) d.(vdisk_lock) d.(mmio) d.(dev_avail_idx) d.(v_blocks) x.

Definition v_pages_l : lens vdisk (Z * Z * Z) := Lens v_pages with_v_pages.
Definition v_desc_l : lens vdisk (vec virtq_desc 8) := Lens v_desc with_v_desc.
Definition avail_idx_l : lens vdisk (Z) := Lens avail_idx with_avail_idx.
Definition avail_ring_l : lens vdisk (vec Z 8) := Lens avail_ring with_avail_ring.
Definition dev_used_idx_l : lens vdisk (Z) := Lens dev_used_idx with_dev_used_idx.
Definition used_ring_l : lens vdisk (vec Z 8) := Lens used_ring with_used_ring.
Definition v_free_l : lens vdisk (vec Z 8) := Lens v_free with_v_free.
Definition used_idx_l : lens vdisk (Z) := Lens used_idx with_used_idx.
Definition info_b_l : lens vdisk (vec (option (fin 30)) 8) := Lens info_b with_info_b.
Definition info_status_l : lens vdisk (vec Z 8) := Lens info_status with_info_status.
Definition v_ops_l : lens vdisk (vec virtio_blk_req 8) := Lens v_ops with_v_ops.
Definition vdisk_lock_l : lens vdisk (spinlock) := Lens vdisk_lock with_vdisk_lock.
Definition mmio_l : lens vdisk (list (Z * Z)) := Lens mmio with_mmio.
Definition dev_avail_idx_l : lens vdisk (Z) := Lens dev_avail_idx with_dev_avail_idx.
Definition v_blocks_l : lens vdisk (gmap Z (list Z)) := Lens v_blocks with_v_blocks.
Definition v_writes_l : lens vdisk (list (Z * list Z)) := Lens v_writes with_v_writes.
#[export] Instance v_pages_laws : LensLaws v_pages_l.
Proof. by split; intros; destruct s. Qed.
#[export] Instance v_desc_laws : LensLaws v_desc_l.
Proof. by split; intros; destruct s. Qed.
#[export] Instance avail_idx_laws : LensLaws avail_idx_l.
Proof. by split; intros; destruct s. Qed.
#[export] Instance avail_ring_laws : LensLaws avail_ring_l.
Proof. by split; intros; destruct s. Qed.
#[export] Instance dev_used_idx_laws : LensLaws dev_used_idx_l.
Proof. by split; intros; destruct s. Qed.
#[export] Instance used_ring_laws : LensLaws used_ring_l.
Proof. by split; intros; destruct s. Qed.
#[export] Instance v_free_laws : LensLaws v_free_l.
Proof. by split; intros; destruct s. Qed.
#[export] Instance used_idx_laws : LensLaws used_idx_l.
Proof. by split; intros; destruct s. Qed.
#[export] Instance info_b_laws : LensLaws info_b_l.
Proof. by split; intros; destruct s. Qed.
#[export] Instance info_status_laws : LensLaws info_status_l.
Proof. by split; intros; destruct s. Qed.
#[export] Instance v_ops_laws : LensLaws v_ops_l.
Proof. by split; intros; destruct s. Qed.
#[export] Instance vdisk_lock_laws : LensLaws vdisk_lock_l.
Proof. by split; intros; destruct s. Qed.
#[export] Instance mmio_laws : LensLaws mmio_l.
Proof. by split; intros; destruct s. Qed.
#[export] Instance dev_avail_idx_laws : LensLaws dev_avail_idx_l.
Proof. by split; intros; destruct s. Qed.
#[export] Instance v_blocks_laws : LensLaws v_blocks_l.
Proof. by split; intros; destruct s. Qed.
#[export] Instance v_writes_laws : LensLaws v_writes_l.
Proof. by split; intros; destruct s. Qed.

(** The value the device's register [r] reads as after the writes [w]. *)
Class VirtioMmio := vreg : list (Z * Z) -> Z -> Z.

Section Virtio.
Context `{VirtioMmio} `{Patience}.
Abbreviation V := (M (bst vdisk)).

Definition vd {A : Type} (k : lens vdisk A) : lens (bst vdisk) A := lcomp b_dsk_l k.
Definition vlock : lens (bst vdisk) spinlock := vd vdisk_lock_l.

Definition R_read (r : Z) : V Z := w <- get (vd mmio_l) ;; ret (u32 (vreg w r)).
Definition R_write (r v : Z) : V unit := update (vd mmio_l) (fun w => w ++ [(r, u32 v)]).

(** An index into an array of [NUM] elements. *)
Definition idx8 (i : Z) : option (fin 8) :=
  match decide (Z.to_nat i < 8)%nat with
  | left H => if i <? 0 then None else Some (nat_to_fin H)
  | right _ => None
  end.
Definition at8 (i : Z) : V (fin 8) := match idx8 i with Some j => ret j | None => undefined end.

Definition desc_l (i : fin 8) : lens (bst vdisk) virtq_desc := vd (lcomp v_desc_l (vec_l i)).
Definition free_l (i : fin 8) : lens (bst vdisk) Z := vd (lcomp v_free_l (vec_l i)).
Definition all_descs : list (fin 8) := enum (fin 8).

(** ** Initialisation *)

Definition drop_bit (f bit : Z) : Z := Z.land f (u64 (Z.lnot (2 ^ bit))).

Definition virtio_disk_init : V unit :=
  set vlock (initlock "virtio_disk") ;;
  magic <- R_read VIRTIO_MMIO_MAGIC_VALUE ;;
  version <- R_read VIRTIO_MMIO_VERSION ;;
  id <- R_read VIRTIO_MMIO_DEVICE_ID ;;
  vendor <- R_read VIRTIO_MMIO_VENDOR_ID ;;
  if negb (magic =? 0x74726976) || negb (version =? 2) || negb (id =? 2) || negb (vendor =? 0x554d4551)
  then panic "could not find virtio disk"
  else
    R_write VIRTIO_MMIO_STATUS 0 ;;
    let status := VIRTIO_CONFIG_S_ACKNOWLEDGE in
    R_write VIRTIO_MMIO_STATUS status ;;
    let status := Z.lor status VIRTIO_CONFIG_S_DRIVER in
    R_write VIRTIO_MMIO_STATUS status ;;
    features <- R_read VIRTIO_MMIO_DEVICE_FEATURES ;;
    R_write VIRTIO_MMIO_DRIVER_FEATURES
      (foldl drop_bit features [VIRTIO_BLK_F_RO; VIRTIO_BLK_F_SCSI; VIRTIO_BLK_F_CONFIG_WCE; VIRTIO_BLK_F_MQ;
         VIRTIO_F_ANY_LAYOUT; VIRTIO_RING_F_EVENT_IDX; VIRTIO_RING_F_INDIRECT_DESC]) ;;
    let status := Z.lor status VIRTIO_CONFIG_S_FEATURES_OK in
    R_write VIRTIO_MMIO_STATUS status ;;
    status <- R_read VIRTIO_MMIO_STATUS ;;
    if Z.land status VIRTIO_CONFIG_S_FEATURES_OK =? 0 then panic "virtio disk FEATURES_OK unset"
    else
      R_write VIRTIO_MMIO_QUEUE_SEL 0 ;;
      ready <- R_read VIRTIO_MMIO_QUEUE_READY ;;
      if nz ready then panic "virtio disk should not be ready"
      else
        max <- R_read VIRTIO_MMIO_QUEUE_NUM_MAX ;;
        if max =? 0 then panic "virtio disk has no queue 0"
        else if max <? NUM then panic "virtio disk max queue too short"
        else
          desc <- zoom the_pst (zoom p_k_l kalloc) ;;
          avail <- zoom the_pst (zoom p_k_l kalloc) ;;
          used <- zoom the_pst (zoom p_k_l kalloc) ;;
          set (vd v_pages_l) (desc, avail, used) ;;
          if negb (nz desc) || negb (nz avail) || negb (nz used) then panic "virtio disk kalloc"
          else
            set (vd v_desc_l) (vreplicate 8 desc0) ;;
            set (vd avail_idx_l) 0 ;;
            set (vd avail_ring_l) (vreplicate 8 0) ;;
            set (vd dev_used_idx_l) 0 ;;
            set (vd used_ring_l) (vreplicate 8 0) ;;
            R_write VIRTIO_MMIO_QUEUE_NUM NUM ;;
            R_write VIRTIO_MMIO_QUEUE_DESC_LOW desc ;;
            R_write VIRTIO_MMIO_QUEUE_DESC_HIGH (Z.shiftr desc 32) ;;
            R_write VIRTIO_MMIO_DRIVER_DESC_LOW avail ;;
            R_write VIRTIO_MMIO_DRIVER_DESC_HIGH (Z.shiftr avail 32) ;;
            R_write VIRTIO_MMIO_DEVICE_DESC_LOW used ;;
            R_write VIRTIO_MMIO_DEVICE_DESC_HIGH (Z.shiftr used 32) ;;
            R_write VIRTIO_MMIO_QUEUE_READY 1 ;;
            iterM all_descs (fun i => set (free_l i) 1) ;;
            R_write VIRTIO_MMIO_STATUS (Z.lor status VIRTIO_CONFIG_S_DRIVER_OK).

(** ** Descriptors *)

Definition alloc_desc : V Z :=
  r <- for_each all_descs (fun i =>
    f <- get (free_l i) ;;
    if nz f then
      set (free_l i) 0 ;;
      ret (Some (Z.of_nat i))
    else ret None) ;;
  ret (default (-1) r).

Definition free_desc (i : Z) : V unit :=
  if NUM <=? i then panic "free_desc 1"
  else
    j <- at8 i ;;
    f <- get (free_l j) ;;
    if nz f then panic "free_desc 2"
    else
      set (desc_l j) desc0 ;;
      set (free_l j) 1 ;;
      zoom the_pst (wakeup chDiskFree).

Definition free_chain_body (i : Z) : V (Z + unit) :=
  j <- at8 i ;;
  d <- get (desc_l j) ;;
  free_desc i ;;
  if nz (Z.land d.(d_flags) VRING_DESC_F_NEXT) then ret (inl d.(d_next)) else ret (inr tt).

(** A chain longer than the table of descriptors would free one twice, which
    panics: [NUM + 1] turns are enough. *)
Definition free_chain (i : Z) : V unit := loop 9 free_chain_body i.

(** The loop of [alloc3_desc] with [n] descriptors to go, [idx] found. *)
Fixpoint alloc_descs (n : nat) (idx : list Z) : V (Z * list Z) :=
  match n with
  | O => ret (0, idx)
  | S n' =>
      i <- alloc_desc ;;
      if i <? 0 then
        iterM idx free_desc ;;
        ret (-1, idx)
      else alloc_descs n' (idx ++ [i])
  end.
Definition alloc3_desc : V (Z * list Z) := alloc_descs 3 [].

(** ** Requests *)

Definition alloc3_wait (_ : unit) : V (unit + list Z) :=
  r <- alloc3_desc ;;
  if r.1 =? 0 then ret (inr r.2)
  else
    sleep chDiskFree vlock ;;
    ret (inl tt).

Definition disk_wait (b : fin 30) (_ : unit) : V (unit + unit) :=
  x <- get (buf_l b) ;;
  if x.(b_disk) =? 1 then
    sleep (chDiskBuf b) vlock ;;
    ret (inl tt)
  else ret (inr tt).

(** The three descriptors of a request. *)
Definition format (b : fin 30) (write : bool) (sector : Z) (i0 i1 i2 : fin 8) : V unit :=
  set (vd (lcomp v_ops_l (vec_l i0))) (Req (if write then VIRTIO_BLK_T_OUT else VIRTIO_BLK_T_IN) 0 sector) ;;
  set (desc_l i0) (Desc (DOp i0) 16 VRING_DESC_F_NEXT (Z.of_nat i1)) ;;
  set (desc_l i1) (Desc (DData b) BSIZE (Z.lor (if write then 0 else VRING_DESC_F_WRITE) VRING_DESC_F_NEXT) (Z.of_nat i2)) ;;
  set (vd (lcomp info_status_l (vec_l i0))) 0xff ;;
  set (desc_l i2) (Desc (DStatus i0) 1 VRING_DESC_F_WRITE 0).

Definition virtio_disk_rw (b : fin 30) (write : bool) : V unit :=
  x <- get (buf_l b) ;;
  let sector := u32 (x.(b_blockno) * (BSIZE / 512)) in
  acquire vlock ;;
  idx <- loop (Datatypes.S patience) alloc3_wait tt ;;
  i0 <- at8 (idx !!! 0%nat) ;;
  i1 <- at8 (idx !!! 1%nat) ;;
  i2 <- at8 (idx !!! 2%nat) ;;
  format b write sector i0 i1 i2 ;;
  update (buf_l b) (with_b_disk 1) ;;
  set (vd (lcomp info_b_l (vec_l i0))) (Some b) ;;
  a <- get (vd avail_idx_l) ;;
  slot <- at8 (a mod NUM) ;;
  set (vd (lcomp avail_ring_l (vec_l slot))) (Z.of_nat i0) ;;
  update (vd avail_idx_l) (fun a => u16 (a + 1)) ;;
  R_write VIRTIO_MMIO_QUEUE_NOTIFY 0 ;;
  loop (Datatypes.S patience) (disk_wait b) tt ;;
  set (vd (lcomp info_b_l (vec_l i0))) None ;;
  free_chain (Z.of_nat i0) ;;
  release vlock.

(** ** The interrupt *)

Definition virtio_disk_intr_body (_ : unit) : V (unit + unit) :=
  u <- get (vd used_idx_l) ;;
  dev <- get (vd dev_used_idx_l) ;;
  if u =? dev then ret (inr tt)
  else
    slot <- at8 (u mod NUM) ;;
    id <- get (vd (lcomp used_ring_l (vec_l slot))) ;;
    j <- at8 id ;;
    st <- get (vd (lcomp info_status_l (vec_l j))) ;;
    if nz st then panic "virtio_disk_intr status"
    else
      b <- get (vd (lcomp info_b_l (vec_l j))) ;;
      match b with
      | None => undefined
      | Some b =>
          update (buf_l b) (with_b_disk 0) ;;
          zoom the_pst (wakeup (chDiskBuf b)) ;;
          update (vd used_idx_l) (fun u => u16 (u + 1)) ;;
          ret (inl tt)
      end.

(** The loop ends when it has seen every entry up to the device's index,
    which 16-bit arithmetic reaches in less than [2^16] turns. *)
Definition virtio_disk_intr : V unit :=
  acquire vlock ;;
  st <- R_read VIRTIO_MMIO_INTERRUPT_STATUS ;;
  R_write VIRTIO_MMIO_INTERRUPT_ACK (Z.land st 3) ;;
  u <- get (vd used_idx_l) ;;
  dev <- get (vd dev_used_idx_l) ;;
  loop (Z.to_nat (u16 (dev - u)) + 1) virtio_disk_intr_body tt ;;
  release vlock.

#[export] Instance virtio_driver : DiskDriver vdisk := virtio_disk_rw.
#[export] Instance virtio_control : DiskControl vdisk := { disk_intr := virtio_disk_intr; disk_init := virtio_disk_init }.
End Virtio.
