(* ===== verification/BioSpec.v ===== *)
(** * The buffer cache: specification

    Clients see the cache as a finite map from block numbers to entries
    (which buffer, its bytes, its reference count, which process holds it): the
    referenced buffers.  Everything else about the cache (the LRU list,
    clean unreferenced buffers, which buffer is recycled) is hidden by
    [brep].  The operations of bio.c are functions of that map. *)

From S2P Require Import Prelude Riscv Memory Spinlock Kalloc Vm Tty Proc ProcSpec Sleeplock Dll Bio.

(** ** What the disk driver promises *)

Definition in_disk (n : Z) : Prop := 0 <= n < FSSIZE.

Definition put_buf {D : Type} (i : fin 30) (b : buf) (s : bst D) : bst D := put (buf_l i) b s.
Definition bbuf {D : Type} (s : bst D) (i : fin 30) : buf := s.(bufs) !!! i.
Definition put_dp {D : Type} (d : D) (t : pst) (s : bst D) : bst D := put b_dsk_l d (put b_p_l t s).

Class DiskLaws (D : Type) `{DiskDriver D} := {
  (** the bytes of a block *)
  blocks : D -> Z -> list Z;
  (** the writes that have reached the disk, oldest first *)
  writes : D -> list (Z * list Z);
  disk_ok : D -> Prop;
  blocks_len d n : disk_ok d -> length (blocks d n) = 1024%nat;
  disk_read_law p i s :
    thread p s.(b_p) -> disk_ok s.(b_dsk) -> in_disk (bbuf s i).(b_blockno) ->
    exists d t, disk_rw i false s =
        Ok tt (put_dp d t (put_buf i (with_b_disk 0 (with_b_data (blocks s.(b_dsk) (bbuf s i).(b_blockno)) (bbuf s i))) s)) /\
      wakes s.(b_p) t /\ disk_ok d /\ (forall n, blocks d n = blocks s.(b_dsk) n) /\
      writes d = writes s.(b_dsk);
  disk_write_law p i s :
    thread p s.(b_p) -> disk_ok s.(b_dsk) -> in_disk (bbuf s i).(b_blockno) ->
    length (bbuf s i).(b_data) = 1024%nat ->
    exists d t, disk_rw i true s = Ok tt (put_dp d t (put_buf i (with_b_disk 0 (bbuf s i)) s)) /\
      wakes s.(b_p) t /\ disk_ok d /\
      (forall n, blocks d n = if decide (n = (bbuf s i).(b_blockno)) then (bbuf s i).(b_data)
                              else blocks s.(b_dsk) n) /\
      writes d = writes s.(b_dsk) ++ [((bbuf s i).(b_blockno), (bbuf s i).(b_data))]
}.

(** ** The map of referenced buffers *)

Record centry := CE { ce_idx : fin 30; ce_data : list Z; ce_ref : Z; ce_lock : option Z }.

Section BioSpec.
Context {D : Type} `{DiskLaws D} `{Patience}.
Implicit Types (s : bst D) (c : gmap Z centry).

(** The sleep lock of an entry: free, or held by a process. *)
Definition slk_ok (x : sleeplock) (holder : option Z) : Prop :=
  lock_free x.(sl_lk) /\
  match holder with
  | Some pid => x.(sl_locked) = 1 /\ x.(sl_pid) = pid
  | None => x.(sl_locked) = 0
  end.

Definition mypid_of (p : fin 64) (s : bst D) : Z := (pproc s.(b_p) p).(p_pid).

Record brep (p : fin 64) (s : bst D) (c : gmap Z centry) : Prop := {
  br_run : running p s.(b_p);
  br_disk : disk_ok s.(b_dsk);
  br_lock : lock_free s.(bc_lock);
  br_dll : exists lru, dll (next_of s) (prev_of s) Head (Bn <$> lru) /\ forall i, i ∈ lru;
  br_entry : forall n e, c !! n = Some e ->
    let b := bbuf s e.(ce_idx) in
    b.(b_dev) = ROOTDEV /\ b.(b_blockno) = n /\ b.(b_valid) <> 0 /\ b.(b_refcnt) = e.(ce_ref) /\
    1 <= e.(ce_ref) < 2 ^ 31 /\ b.(b_data) = e.(ce_data) /\ slk_ok b.(b_lock) e.(ce_lock);
  br_ref : forall i, (bbuf s i).(b_refcnt) <> 0 -> exists e, c !! (bbuf s i).(b_blockno) = Some e /\ e.(ce_idx) = i;
  br_free : forall i, (bbuf s i).(b_refcnt) = 0 -> slk_ok (bbuf s i).(b_lock) None /\
    ((bbuf s i).(b_valid) <> 0 -> (bbuf s i).(b_dev) = ROOTDEV /\
       (bbuf s i).(b_data) = blocks s.(b_dsk) (bbuf s i).(b_blockno));
  br_uniq : forall i j, (bbuf s i).(b_dev) = ROOTDEV -> (bbuf s j).(b_dev) = ROOTDEV ->
    (bbuf s i).(b_blockno) = (bbuf s j).(b_blockno) -> i = j;
  br_len : forall i, length (bbuf s i).(b_data) = 1024%nat
}.

(** The bytes of block [n] as the kernel sees them. *)
Definition bview (s : bst D) (c : gmap Z centry) (n : Z) : list Z :=
  match c !! n with Some e => e.(ce_data) | None => blocks s.(b_dsk) n end.

(** ** Walking the list *)

(** [l] are the buffers from [n] to the head in the direction of [step]. *)
Fixpoint steps (step : node -> node) (n : node) (l : list (fin 30)) : Prop :=
  match l with
  | [] => n = Head
  | i :: l' => n = Bn i /\ steps step (step (Bn i)) l'
  end.

Lemma links_steps next prev a l :
  links next prev a (Bn <$> l) Head -> steps next (next a) l.
Proof.
  revert a. induction l as [|i l IH]; intros a; cbn; [tauto|]. intros (E & _ & Hl).
  split; [done|]. by apply IH.
Qed.

Lemma links_steps_rev next prev a l z :
  links next prev a (Bn <$> l) z -> a = Head -> steps prev (prev z) (reverse l).
Proof.
  revert z. induction l as [|i l IH] using rev_ind; intros z; cbn.
  - by intros [_ ->] ->.
  - rewrite fmap_app, reverse_snoc. cbn [fmap list_fmap]. intros Hl Ha.
    apply links_app in Hl as [Hl1 Hl2]. destruct Hl2 as [_ E]. cbn. split; [done|]. by apply IH.
Qed.

Fixpoint find_buf (s : bst D) (test : buf -> bool) (l : list (fin 30)) : option (fin 30) :=
  match l with
  | [] => None
  | i :: l' => if test (bbuf s i) then Some i else find_buf s test l'
  end.

Lemma scan_eq step test s n l fuel :
  steps (step s) n l -> (length l < fuel)%nat ->
  loop fuel (scan_body step test) n s = Ok (find_buf s test l) s.
Proof.
  revert n fuel. induction l as [|i l IH]; intros n fuel Hs Hf; (destruct fuel as [|fuel]; [cbn in Hf; lia|]);
    rewrite loop_S; cbn [steps] in Hs.
  - by subst n.
  - destruct Hs as [-> Hs]. cbn [scan_body bind get gets obind find_buf].
    change (view (buf_l i) s) with (bbuf s i). destruct (test (bbuf s i)); [done|].
    cbn [bind gets obind ret]. apply IH; [done|cbn in Hf; lia].
Qed.

Lemma find_buf_some s test l i : find_buf s test l = Some i -> test (bbuf s i) = true /\ i ∈ l.
Proof.
  induction l as [|j l IH]; cbn; [done|]. destruct (test (bbuf s j)) eqn:E.
  - intros [= <-]. split; [done|lelem].
  - intros Ef. destruct (IH Ef). split; [done|lelem].
Qed.

Lemma find_buf_none s test l : find_buf s test l = None -> forall i, i ∈ l -> test (bbuf s i) = false.
Proof.
  induction l as [|j l IH]; cbn; [intros _ i []%elem_of_nil|]. destruct (test (bbuf s j)) eqn:E; [done|].
  intros Ef i [->|Hi]%elem_of_cons; auto.
Qed.

Lemma find_buf_ext s s' test l : (forall i, bbuf s' i = bbuf s i) -> find_buf s' test l = find_buf s test l.
Proof. intros E. induction l as [|j l IH]; cbn; [done|]. by rewrite E, IH. Qed.

(** ** Changing one buffer, the disk, and the process table *)

Lemma bbuf_put i b s j : bbuf (put_buf i b s) j = if decide (j = i) then b else bbuf s j.
Proof.
  unfold bbuf, put_buf. cbn. case_decide; subst; [by rewrite vlookup_insert|by rewrite vlookup_insert_ne].
Qed.
Lemma bbuf_put_eq i b s : bbuf (put_buf i b s) i = b.
Proof. by rewrite bbuf_put, decide_True. Qed.
Lemma bbuf_put_ne i b s j : j <> i -> bbuf (put_buf i b s) j = bbuf s j.
Proof. intros Hne. by rewrite bbuf_put, decide_False. Qed.
Lemma put_buf_twice i b b' s : put_buf i b' (put_buf i b s) = put_buf i b' s.
Proof. apply (put_put (l := buf_l i)). Qed.

Lemma dll_ext (next prev next' prev' : node -> node) l :
  (forall x, next' x = next x) -> (forall x, prev' x = prev x) ->
  dll next prev Head l -> dll next' prev' Head l.
Proof. intros En Ep [Hnd Hl]. split; [done|]. eapply links_ext; [| |exact Hl]; auto. Qed.

Lemma put_buf_next i b s x : b.(b_next) = (bbuf s i).(b_next) -> next_of (put_buf i b s) x = next_of s x.
Proof.
  intros E. destruct x as [|j]; [done|]. unfold next_of. fold (bbuf (put_buf i b s) j). rewrite bbuf_put.
  case_decide; subst; [by rewrite E|done].
Qed.
Lemma put_buf_prev i b s x : b.(b_prev) = (bbuf s i).(b_prev) -> prev_of (put_buf i b s) x = prev_of s x.
Proof.
  intros E. destruct x as [|j]; [done|]. unfold prev_of. fold (bbuf (put_buf i b s) j). rewrite bbuf_put.
  case_decide; subst; [by rewrite E|done].
Qed.

(** An entry and the buffer it describes. *)
Definition describes (b : buf) (n : Z) (e : centry) : Prop :=
  b.(b_dev) = ROOTDEV /\ b.(b_blockno) = n /\ b.(b_valid) <> 0 /\ b.(b_refcnt) = e.(ce_ref) /\
  1 <= e.(ce_ref) < 2 ^ 31 /\ b.(b_data) = e.(ce_data) /\ slk_ok b.(b_lock) e.(ce_lock).

Lemma br_describes p s c n e : brep p s c -> c !! n = Some e -> describes (bbuf s e.(ce_idx)) n e.
Proof. intros Hb Hc. exact (br_entry _ _ _ Hb n e Hc). Qed.

(** The entry of a referenced buffer is the one of its block. *)
Lemma br_idx p s c n e i :
  brep p s c -> c !! n = Some e -> (bbuf s i).(b_dev) = ROOTDEV -> (bbuf s i).(b_blockno) = n ->
  i = e.(ce_idx).
Proof.
  intros Hb Hc Hd Hn. destruct (br_describes _ _ _ _ _ Hb Hc) as (Hd' & Hn' & _).
  apply (br_uniq _ _ _ Hb); congruence.
Qed.

(** No entry describes an unreferenced buffer. *)
Lemma br_unref p s c n e i :
  brep p s c -> c !! n = Some e -> (bbuf s i).(b_refcnt) = 0 -> e.(ce_idx) <> i.
Proof. intros Hb Hc Hr <-. destruct (br_describes _ _ _ _ _ Hb Hc) as (_ & _ & _ & Hr' & ? & _). lia. Qed.

Lemma br_none p s c i :
  brep p s c -> (bbuf s i).(b_refcnt) = 0 -> (bbuf s i).(b_dev) = ROOTDEV ->
  c !! (bbuf s i).(b_blockno) = None.
Proof.
  intros Hb Hr Hd. destruct (c !! _) as [e|] eqn:Hc; [|done].
  pose proof (br_idx _ _ _ _ _ i Hb Hc Hd eq_refl). by destruct (br_unref _ _ _ _ _ i Hb Hc Hr).
Qed.

(** Buffer [i] can stand for block [n]. *)
Definition can_hold (s : bst D) (c : gmap Z centry) (i : fin 30) (n : Z) : Prop :=
  match c !! n with
  | Some e => e.(ce_idx) = i
  | None => (bbuf s i).(b_refcnt) = 0 /\
      forall j, (bbuf s j).(b_dev) = ROOTDEV -> (bbuf s j).(b_blockno) = n -> j = i
  end.

Lemma brep_set p s c i b n e :
  brep p s c -> can_hold s c i n -> describes b n e -> e.(ce_idx) = i -> length b.(b_data) = 1024%nat ->
  b.(b_next) = (bbuf s i).(b_next) -> b.(b_prev) = (bbuf s i).(b_prev) ->
  brep p (put_buf i b s) (<[n := e]> c).
Proof.
  intros Hb Hcan Hdes Hi Hlen En Ep.
  assert (Hother : forall m e', c !! m = Some e' -> m <> n -> e'.(ce_idx) <> i).
  { intros m e' Hm Hne E. unfold can_hold in Hcan. destruct (c !! n) as [e0|] eqn:Hn.
    - destruct (br_describes _ _ _ _ _ Hb Hn) as (_ & Hn0 & _), (br_describes _ _ _ _ _ Hb Hm) as (_ & Hm0 & _).
      apply Hne. rewrite <- Hm0, <- Hn0, E. by rewrite Hcan.
    - by apply (br_unref _ _ _ _ _ i Hb Hm (proj1 Hcan)). }
  assert (Hsole : forall j, (bbuf s j).(b_dev) = ROOTDEV -> (bbuf s j).(b_blockno) = n -> j = i).
  { intros j Hd Hn. unfold can_hold in Hcan. destruct (c !! n) as [e0|] eqn:Hc; [|by apply Hcan].
    rewrite <- Hcan. exact (br_idx _ _ _ _ _ j Hb Hc Hd Hn). }
  destruct Hdes as (Hd & Hn & Hv & Hr & Hrange & Hdat & Hs).
  constructor; try exact (br_run _ _ _ Hb); try exact (br_disk _ _ _ Hb); try exact (br_lock _ _ _ Hb).
  - destruct (br_dll _ _ _ Hb) as (lru & Hl & Hall). exists lru. split; [|done].
    eapply dll_ext; [| |exact Hl]; intros x; [by apply put_buf_next|by apply put_buf_prev].
  - intros m e' Hm. cbn zeta. rewrite lookup_insert in Hm. case_decide as Hnm; subst.
    + injection Hm as <-. by rewrite bbuf_put_eq.
    + rewrite bbuf_put_ne by (eapply Hother; [done|congruence]). exact (br_describes _ _ _ _ _ Hb Hm).
  - intros j. rewrite bbuf_put. case_decide as Hj; subst.
    + intros _. exists e. by rewrite lookup_insert, decide_True.
    + intros Hrj. destruct (br_ref _ _ _ Hb j Hrj) as (e' & Hc & He'). exists e'. split; [|done].
      rewrite lookup_insert_ne; [done|]. intros E. rewrite <- E in Hc. unfold can_hold in Hcan.
      rewrite Hc in Hcan. congruence.
  - intros j. rewrite bbuf_put. case_decide as Hj; [lia|]. exact (br_free _ _ _ Hb j).
  - intros j k. rewrite !bbuf_put. repeat case_decide; subst; try done.
    + intros _ Hk Ek. symmetry. by apply Hsole.
    + intros Hj _ Ej. by apply Hsole.
    + apply (br_uniq _ _ _ Hb).
  - intros j. rewrite bbuf_put. case_decide; [done|]. apply (br_len _ _ _ Hb).
Qed.

Lemma brep_dp p s c d t :
  brep p s c -> wakes s.(b_p) t -> disk_ok d ->
  (forall n, c !! n = None -> blocks d n = blocks s.(b_dsk) n) -> brep p (put_dp d t s) c.
Proof.
  intros Hb Hw Hd Hbl. constructor.
  - exact (running_wakes _ _ _ Hw (br_run _ _ _ Hb)).
  - exact Hd.
  - exact (br_lock _ _ _ Hb).
  - exact (br_dll _ _ _ Hb).
  - exact (br_entry _ _ _ Hb).
  - exact (br_ref _ _ _ Hb).
  - intros i Hr. destruct (br_free _ _ _ Hb i Hr) as [Hs Hv]. split; [exact Hs|].
    intros Hvi. destruct (Hv Hvi) as [Hdev Hdat]. split; [exact Hdev|].
    exact (eq_trans Hdat (eq_sym (Hbl _ (br_none _ _ _ _ Hb Hr Hdev)))).
  - exact (br_uniq _ _ _ Hb).
  - exact (br_len _ _ _ Hb).
Qed.

(** ** Under the lock of the cache *)

#[local] Instance bc_lock_buf i : LensDisjoint (bc_lock_l (D := D)) (buf_l i).
Proof. unfold buf_l. by split. Qed.

Lemma update_in_bc i f s :
  update (buf_l i) f (in_lock bc_lock_l s) = Ok tt (in_lock bc_lock_l (put_buf i (f (bbuf s i)) s)).
Proof. exact (f_equal (Ok tt) (put_in bc_lock_l (buf_l i) (f (bbuf s i)) s)). Qed.

Lemma scan_next_eq s test lru :
  dll (next_of s) (prev_of s) Head (Bn <$> lru) -> (length lru <= 30)%nat ->
  loop 31 (scan_body next_of test) (next_of s Head) (in_lock bc_lock_l s) =
  Ok (find_buf s test lru) (in_lock bc_lock_l s).
Proof.
  intros [_ Hl] Hlen. rewrite <- (find_buf_ext s (in_lock bc_lock_l s)) by done.
  apply (scan_eq next_of test (in_lock bc_lock_l s)); [|lia].
  exact (links_steps _ _ _ _ Hl).
Qed.

Lemma scan_prev_eq s test lru :
  dll (next_of s) (prev_of s) Head (Bn <$> lru) -> (length lru <= 30)%nat ->
  loop 31 (scan_body prev_of test) (prev_of s Head) (in_lock bc_lock_l s) =
  Ok (find_buf s test (reverse lru)) (in_lock bc_lock_l s).
Proof.
  intros [_ Hl] Hlen. rewrite <- (find_buf_ext s (in_lock bc_lock_l s)) by done.
  apply (scan_eq prev_of test (in_lock bc_lock_l s)); [|rewrite length_reverse; lia].
  exact (links_steps_rev _ _ _ _ _ Hl eq_refl).
Qed.

Lemma length_enum30 : length (enum (fin 30)) = 30%nat.
Proof. by vm_compute. Qed.

Lemma lru_length (lru : list (fin 30)) : NoDup (Head :: (Bn <$> lru)) -> (length lru <= 30)%nat.
Proof.
  intros [_ Hnd]%NoDup_cons. apply NoDup_fmap_1 in Hnd.
  pose proof (submseteq_length lru (enum (fin 30))) as Hle. rewrite length_enum30 in Hle.
  apply Hle. apply NoDup_submseteq; [done|]. intros x _. apply elem_of_enum.
Qed.

(** A buffer that nobody uses, when fewer than 30 blocks are referenced. *)
Lemma unref_exists p s c :
  brep p s c -> (size c < 30)%nat -> exists i, (bbuf s i).(b_refcnt) = 0.
Proof.
  intros Hb Hsz. destruct (decide (Exists (fun i => (bbuf s i).(b_refcnt) = 0) (enum (fin 30)))) as [He|He].
  { apply Exists_exists in He as (i & _ & Hi). by exists i. }
  exfalso. assert (Hall : forall i, (bbuf s i).(b_refcnt) <> 0).
  { intros i Hi. apply He, Exists_exists. exists i. split; [apply elem_of_enum|done]. }
  assert (Hnd : NoDup ((fun i => (bbuf s i).(b_blockno)) <$> enum (fin 30))).
  { apply NoDup_fmap_2_strong; [|apply NoDup_enum]. intros i j _ _ E.
    destruct (br_ref _ _ _ Hb i (Hall i)) as (e & He1 & He2), (br_ref _ _ _ Hb j (Hall j)) as (e' & He1' & He2').
    rewrite E in He1. congruence. }
  assert (Hsub : list_to_set ((fun i => (bbuf s i).(b_blockno)) <$> enum (fin 30)) ⊆ dom c).
  { intros n Hn. apply elem_of_list_to_set, list_elem_of_fmap in Hn as (i & -> & _).
    destruct (br_ref _ _ _ Hb i (Hall i)) as (e & He1 & _). by apply elem_of_dom_2 in He1. }
  apply subseteq_size in Hsub. rewrite size_list_to_set, length_fmap, length_enum30, size_dom in Hsub by done.
  lia.
Qed.

(** ** bget *)

(** The buffer [bget] returns for block [n]. *)
Definition got (p : fin 64) (s : bst D) (b : buf) (n v r : Z) : buf :=
  Buf v b.(b_disk) ROOTDEV n
      (Sleeplock 1 b.(b_lock).(sl_lk) b.(b_lock).(sl_name) (mypid_of p s)) r b.(b_prev) b.(b_next) b.(b_data).

(** What a process needs to get block [n]: nobody holds it, and there is a
    buffer for it. *)
Definition gettable (c : gmap Z centry) (n : Z) : Prop :=
  match c !! n with
  | Some e => e.(ce_lock) = None /\ e.(ce_ref) + 1 < 2 ^ 31
  | None => (size c < 30)%nat
  end.

Definition got_ref (c : gmap Z centry) (n : Z) : Z :=
  match c !! n with Some e => e.(ce_ref) + 1 | None => 1 end.

Lemma lock_buffer p s i b :
  running p s.(b_p) -> slk_ok b.(b_lock) None ->
  acquiresleep (chBufLock i) (bufslock i) (put_buf i b s) =
  Ok tt (put_buf i (with_b_lock (Sleeplock 1 b.(b_lock).(sl_lk) b.(b_lock).(sl_name) (mypid_of p s)) b) s).
Proof.
  intros Hr [Hl Hu].
  assert (Ev : view (bufslock i) (put_buf i b s) = b.(b_lock)).
  { unfold bufslock. cbn [lcomp view]. unfold put_buf. by rewrite view_put. }
  rewrite (acquiresleep_eq (bufslock i) p).
  - rewrite Ev. f_equal. unfold bufslock. cbn [lcomp put view]. unfold put_buf.
    rewrite view_put, put_put. done.
  - exact Hr.
  - by rewrite Ev.
  - by rewrite Ev.
Qed.

(** The end of [bget]: the chosen buffer is changed, the cache unlocked and
    the buffer locked. *)
Lemma bget_finish p s i f :
  running p s.(b_p) -> lock_free s.(bc_lock) -> slk_ok (f (bbuf s i)).(b_lock) None ->
  (update (buf_l i) f ;; release bc_lock_l ;; acquiresleep (chBufLock i) (bufslock i) ;; ret i)
    (in_lock bc_lock_l s) =
  Ok i (put_buf i (with_b_lock (Sleeplock 1 (f (bbuf s i)).(b_lock).(sl_lk) (f (bbuf s i)).(b_lock).(sl_name)
                                  (mypid_of p s)) (f (bbuf s i))) s).
Proof.
  intros Hr Hl Hs. cbn [bind]. rewrite update_in_bc. cbn [bind obind].
  rewrite (release_in bc_lock_l); [|exact (proj1 (proj1 Hr))|exact Hl].
  cbn [bind obind]. rewrite (lock_buffer p s i _ Hr Hs). done.
Qed.

(** The LRU list of the cache, most recently used first. *)
Definition lru_is (s : bst D) (lru : list (fin 30)) : Prop :=
  dll (next_of s) (prev_of s) Head (Bn <$> lru) /\ forall i, i ∈ lru.

(** The buffer [bget] picks: the one that holds the block, otherwise the least
    recently used one that nobody references. *)
Definition bget_choice (s : bst D) (n : Z) (lru : list (fin 30)) : option (fin 30) :=
  match find_buf s (fun b => (b.(b_dev) =? ROOTDEV) && (b.(b_blockno) =? n)) lru with
  | Some i => Some i
  | None => find_buf s (fun b => b.(b_refcnt) =? 0) (reverse lru)
  end.

Lemma bget_eq p s c n lru :
  brep p s c -> lru_is s lru -> gettable c n ->
  exists i v, bget_choice s n lru = Some i /\
    bget ROOTDEV n s = Ok i (put_buf i (got p s (bbuf s i) n v (got_ref c n)) s) /\
    can_hold s c i n /\
    (v = 0 /\ c !! n = None \/
     v = (bbuf s i).(b_valid) /\ (bbuf s i).(b_dev) = ROOTDEV /\ (bbuf s i).(b_blockno) = n).
Proof.
  intros Hb [Hdll Hall] Hg. pose proof (br_run _ _ _ Hb) as Hr. pose proof (br_lock _ _ _ Hb) as Hl.
  pose proof (lru_length lru (proj1 Hdll)) as Hlen.
  unfold bget. cbn [bind]. rewrite (acquire_in bc_lock_l s Hl). cbn [bind obind gets].
  change (next_of (in_lock bc_lock_l s) Head) with (next_of s Head). rewrite (scan_next_eq s _ lru) by done.
  cbn [bind obind]. unfold bget_choice. set (test := fun b => _ && _).
  destruct (find_buf s test lru) as [i|] eqn:Ef.
  - apply find_buf_some in Ef as [Ht _]. unfold test in Ht. apply andb_true_iff in Ht as [Hd%Z.eqb_eq Hn%Z.eqb_eq].
    assert (Hcan : can_hold s c i n /\ slk_ok (bbuf s i).(b_lock) None /\
                   u32 ((bbuf s i).(b_refcnt) + 1) = got_ref c n).
    { unfold can_hold, got_ref, gettable in *. destruct (c !! n) as [e|] eqn:Hc.
      - pose proof (br_idx _ _ _ _ _ i Hb Hc Hd Hn) as ->.
        destruct (br_describes _ _ _ _ _ Hb Hc) as (_ & _ & _ & -> & ? & _ & Hs).
        destruct Hg as [Hnone Hlt]. rewrite Hnone in Hs. split; [done|]. split; [done|]. apply Z.mod_small. lia.
      - destruct (decide ((bbuf s i).(b_refcnt) = 0)) as [Hz|Hnz].
        + split; [split; [done|]|].
          { intros j Hdj Hnj. apply (br_uniq _ _ _ Hb); congruence. }
          split; [apply (br_free _ _ _ Hb i Hz)|by rewrite Hz].
        + destruct (br_ref _ _ _ Hb i Hnz) as (e & He & _). congruence. }
    destruct Hcan as (Hcan & Hs & Er). exists i, (bbuf s i).(b_valid). split; [done|].
    rewrite (bget_finish p s i _ Hr Hl) by exact Hs. split; [|split; [done|by right]].
    unfold got, with_b_refcnt, with_b_lock.
    cbn [b_valid b_disk b_dev b_blockno b_lock b_refcnt b_prev b_next b_data]. by rewrite Er, Hd, Hn.
  - assert (Hmiss : forall j, (bbuf s j).(b_dev) = ROOTDEV -> (bbuf s j).(b_blockno) = n -> False).
    { intros j Hd Hn. pose proof (find_buf_none _ _ _ Ef j (Hall j)) as Ht. unfold test in Ht.
      rewrite Hd, Hn, !Z.eqb_refl in Ht. done. }
    assert (Hc : c !! n = None).
    { destruct (c !! n) as [e|] eqn:Hc; [|done].
      destruct (br_describes _ _ _ _ _ Hb Hc) as (Hd & Hn & _). by destruct (Hmiss (ce_idx e)). }
    cbn [bind obind gets]. change (prev_of (in_lock bc_lock_l s) Head) with (prev_of s Head).
    rewrite (scan_prev_eq s _ lru) by done. cbn [bind obind]. set (free := fun b => _ =? 0).
    unfold gettable in Hg. rewrite Hc in Hg. destruct (unref_exists _ _ _ Hb Hg) as [k Hk].
    destruct (find_buf s free (reverse lru)) as [i|] eqn:Ef2.
    + apply find_buf_some in Ef2 as [Ht _]. apply Z.eqb_eq in Ht. exists i, 0. split; [done|].
      rewrite (bget_finish p s i _ Hr Hl) by exact (proj1 (br_free _ _ _ Hb i Ht)).
      unfold can_hold, got_ref. rewrite Hc. split; [done|]. split; [|by left].
      split; [done|]. intros j Hd Hn. by destruct (Hmiss j).
    + pose proof (find_buf_none _ _ _ Ef2 k) as Ht. unfold free in Ht. rewrite Hk in Ht.
      rewrite elem_of_reverse in Ht. by specialize (Ht (Hall k)).
Qed.

(** ** bread *)

Definition same_disk (s s' : bst D) : Prop :=
  (forall m, blocks s'.(b_dsk) m = blocks s.(b_dsk) m) /\ writes s'.(b_dsk) = writes s.(b_dsk).

(** The entry of a block that was just read. *)
Definition bread_entry (p : fin 64) (s : bst D) (c : gmap Z centry) (i : fin 30) (n : Z) : centry :=
  CE i (bview s c n) (got_ref c n) (Some (mypid_of p s)).

Lemma got_slk p s b n v r :
  slk_ok b.(b_lock) None -> slk_ok (got p s b n v r).(b_lock) (Some (mypid_of p s)).
Proof. by intros [Hl _]. Qed.

Lemma can_hold_slk p s c i n :
  brep p s c -> gettable c n -> can_hold s c i n ->
  slk_ok (bbuf s i).(b_lock) None /\ 1 <= got_ref c n < 2 ^ 31.
Proof.
  intros Hb Hg Hcan. unfold can_hold, gettable, got_ref in *. destruct (c !! n) as [e|] eqn:Hc.
  - destruct (br_describes _ _ _ _ _ Hb Hc) as (_ & _ & _ & _ & ? & _ & Hs), Hg as [Hnone ?].
    rewrite Hnone, Hcan in Hs. split; [done|lia].
  - split; [apply (br_free _ _ _ Hb i), Hcan|lia].
Qed.

Lemma cached_view p s c i n :
  brep p s c -> can_hold s c i n -> (bbuf s i).(b_valid) <> 0 -> (bbuf s i).(b_blockno) = n ->
  (bbuf s i).(b_data) = bview s c n.
Proof.
  intros Hb Hcan Hv Hn. unfold can_hold, bview in *. destruct (c !! n) as [e|] eqn:Hc.
  - destruct (br_describes _ _ _ _ _ Hb Hc) as (_ & _ & _ & _ & _ & Hd & _). by rewrite <- Hcan.
  - destruct (br_free _ _ _ Hb i (proj1 Hcan)) as [_ Hf]. rewrite <- Hn. by apply Hf.
Qed.

Lemma bread_eq p s c n :
  brep p s c -> thread p s.(b_p) -> gettable c n -> in_disk n ->
  exists i s', bread ROOTDEV n s = Ok i s' /\ brep p s' (<[n := bread_entry p s c i n]> c) /\
    can_hold s c i n /\ same_disk s s' /\ wakes s.(b_p) s'.(b_p).
Proof.
  intros Hb Ht Hg Hin. destruct (br_dll _ _ _ Hb) as (lru & Hlru).
  destruct (bget_eq p s c n lru Hb Hlru Hg) as (i & v & _ & E & Hcan & Hv).
  destruct (can_hold_slk _ _ _ _ _ Hb Hg Hcan) as [Hs Hr].
  exists i. unfold bread. cbn [bind]. rewrite E. cbn [bind obind get gets].
  change (view (buf_l i) ?x) with (bbuf x i). rewrite bbuf_put_eq. cbn [b_valid got].
  destruct (Z.eqb_spec v 0) as [->|Hnz].
  - assert (Hc : c !! n = None).
    { destruct Hv as [[_ Hc]|(Hv & Hd & Hn)]; [done|]. destruct (c !! n) as [e|] eqn:Hc; [|done].
      pose proof (br_idx _ _ _ _ _ i Hb Hc Hd Hn) as ->.
      destruct (br_describes _ _ _ _ _ Hb Hc) as (_ & _ & Hv' & _). by destruct Hv'. }
    set (s1 := put_buf i _ s). assert (Eb : bbuf s1 i = got p s (bbuf s i) n 0 (got_ref c n)) by apply bbuf_put_eq.
    destruct (disk_read_law p i s1) as (d & t & Er & Hw & Hd & Hbl & Hwr);
      [exact Ht|exact (br_disk _ _ _ Hb)|by rewrite Eb|].
    cbn [bind]. rewrite Er. cbn [bind obind update modify ret].
    change (b_dsk s1) with (b_dsk s) in *. change (b_p s1) with (b_p s) in Hw. rewrite Eb.
    eexists. split; [reflexivity|]. split.
    + change (put (buf_l i) ?x (put_dp d t ?y)) with (put_dp d t (put_buf i x y)).
      apply (brep_dp p _ _ d t); [|exact Hw|exact Hd|intros m _; exact (Hbl m)].
      change (view (buf_l i) (put_dp d t ?y)) with (bbuf y i). unfold s1. rewrite bbuf_put_eq, !put_buf_twice.
      apply brep_set; try done; cbn.
      * unfold describes. cbn. unfold bview. rewrite Hc. split_and!; try done; [lia|lia|]. by destruct Hs.
      * apply blocks_len, (br_disk _ _ _ Hb).
    + split; [done|]. split; [|exact Hw]. split; [exact Hbl|exact Hwr].
  - destruct Hv as [[? _]|(Hv & Hd & Hn)]; [done|]. cbn [obind ret bind].
    eexists. split; [reflexivity|]. split; [|split; [done|split; [done|apply wakes_refl]]].
    apply brep_set; try done; [|apply (br_len _ _ _ Hb)]. unfold describes. cbn.
    split_and!; try done; [lia|lia| |by destruct Hs].
    apply (cached_view p); congruence.
Qed.

(** ** bwrite *)

Lemma entry_can_hold s c n e : c !! n = Some e -> can_hold s c e.(ce_idx) n.
Proof. intros Hc. unfold can_hold. by rewrite Hc. Qed.

Lemma view_bufslock i s : view (bufslock i) s = (bbuf s i).(b_lock).
Proof. done. Qed.

Lemma holding_entry p s c n e :
  brep p s c -> c !! n = Some e -> e.(ce_lock) = Some (mypid_of p s) ->
  holdingsleep (bufslock e.(ce_idx)) s = Ok true s.
Proof.
  intros Hb Hc Hl. destruct (br_describes _ _ _ _ _ Hb Hc) as (_ & _ & _ & _ & _ & _ & Hs).
  rewrite Hl in Hs. destruct Hs as (Hlk & H1' & H2'). rewrite (holdingsleep_eq (bufslock _) p).
  - rewrite view_bufslock, H1', H2'. unfold mypid_of, pv. cbn. by rewrite Z.eqb_refl.
  - exact (br_run _ _ _ Hb).
  - exact Hlk.
Qed.

Lemma bwrite_eq p s c n e :
  brep p s c -> thread p s.(b_p) -> c !! n = Some e -> e.(ce_lock) = Some (mypid_of p s) -> in_disk n ->
  exists s', bwrite e.(ce_idx) s = Ok tt s' /\ brep p s' c /\ wakes s.(b_p) s'.(b_p) /\
    (forall m, blocks s'.(b_dsk) m = if decide (m = n) then e.(ce_data) else blocks s.(b_dsk) m) /\
    writes s'.(b_dsk) = writes s.(b_dsk) ++ [(n, e.(ce_data))].
Proof.
  intros Hb Ht Hc Hl Hin. unfold bwrite. cbn [bind]. rewrite (holding_entry p s c n e Hb Hc Hl).
  cbn [obind negb]. destruct (br_describes _ _ _ _ _ Hb Hc) as (Hd & Hn & _ & _ & _ & Hdat & _).
  destruct (disk_write_law p (ce_idx e) s) as (d & t & Er & Hw & Hok & Hbl & Hwr);
    [exact Ht|exact (br_disk _ _ _ Hb)|by rewrite Hn|exact (br_len _ _ _ Hb _)|].
  rewrite Hn, Hdat in Hbl, Hwr. eexists. split; [exact Er|]. split; [|done]. set (s1 := put_buf _ _ s).
  assert (Hb1 : brep p s1 c).
  { rewrite <- (insert_id c n e Hc). apply brep_set; try done; [by apply entry_can_hold| |exact (br_len _ _ _ Hb _)].
    exact (br_describes _ _ _ _ _ Hb Hc). }
  apply brep_dp; try done. intros m Hm. rewrite Hbl, decide_False; [done|]. congruence.
Qed.

(** ** bpin and bunpin *)

Definition with_ref (r : Z) (e : centry) : centry := CE e.(ce_idx) e.(ce_data) r e.(ce_lock).

Lemma refcnt_eq p s c n e r f :
  brep p s c -> c !! n = Some e -> 1 <= r < 2 ^ 31 -> f (bbuf s e.(ce_idx)) = with_b_refcnt r (bbuf s e.(ce_idx)) ->
  exists s', (acquire bc_lock_l ;; update (buf_l e.(ce_idx)) f ;; release bc_lock_l) s = Ok tt s' /\
    brep p s' (<[n := with_ref r e]> c) /\ b_p s' = b_p s /\ b_dsk s' = b_dsk s.
Proof.
  intros Hb Hc Hr Hf. pose proof (br_lock _ _ _ Hb) as Hl. cbn [bind]. rewrite (acquire_in bc_lock_l s Hl).
  cbn [bind obind]. rewrite update_in_bc, Hf. cbn [bind obind].
  rewrite (release_in bc_lock_l); [|exact (proj1 (proj1 (br_run _ _ _ Hb)))|exact Hl].
  eexists. split; [reflexivity|]. split; [|done].
  destruct (br_describes _ _ _ _ _ Hb Hc) as (Hd & Hn & Hv & _ & _ & Hdat & Hs).
  apply brep_set; try done; [by apply entry_can_hold|]. exact (br_len _ _ _ Hb _).
Qed.

Lemma bpin_eq p s c n e :
  brep p s c -> c !! n = Some e -> e.(ce_ref) + 1 < 2 ^ 31 ->
  exists s', bpin e.(ce_idx) s = Ok tt s' /\ brep p s' (<[n := with_ref (e.(ce_ref) + 1) e]> c) /\
    b_p s' = b_p s /\ b_dsk s' = b_dsk s.
Proof.
  intros Hb Hc Hr. destruct (br_describes _ _ _ _ _ Hb Hc) as (_ & _ & _ & E & ? & _).
  apply refcnt_eq; [done|done|lia|]. rewrite E. unfold u32. by rewrite Z.mod_small by lia.
Qed.

Lemma bunpin_eq p s c n e :
  brep p s c -> c !! n = Some e -> 2 <= e.(ce_ref) ->
  exists s', bunpin e.(ce_idx) s = Ok tt s' /\ brep p s' (<[n := with_ref (e.(ce_ref) - 1) e]> c) /\
    b_p s' = b_p s /\ b_dsk s' = b_dsk s.
Proof.
  intros Hb Hc Hr. destruct (br_describes _ _ _ _ _ Hb Hc) as (_ & _ & _ & E & ? & _).
  apply refcnt_eq; [done|done|lia|]. rewrite E. unfold u32. by rewrite Z.mod_small by lia.
Qed.

(** ** The pointers *)

(** States that differ in the pointers only. *)
Definition core (b : buf) : buf := with_b_prev Head (with_b_next Head b).

Record relinked (s s' : bst D) : Prop := {
  rl_p : s'.(b_p) = s.(b_p);
  rl_lock : s'.(bc_lock) = s.(bc_lock);
  rl_dsk : s'.(b_dsk) = s.(b_dsk);
  rl_core : forall i, core (bbuf s' i) = core (bbuf s i)
}.

Lemma relinked_trans s1 s2 s3 : relinked s1 s2 -> relinked s2 s3 -> relinked s1 s3.
Proof. intros [] []. split; congruence. Qed.

Lemma core_inv b b' : core b' = core b ->
  b' = with_b_prev b'.(b_prev) (with_b_next b'.(b_next) b).
Proof. destruct b, b'. unfold core, with_b_prev, with_b_next. cbn. by intros [= -> -> -> -> -> -> ->]. Qed.

Lemma brep_relinked p s s' c lru :
  relinked s s' -> brep p s c -> lru_is s' lru -> brep p s' c.
Proof.
  intros [Ep El Ed Ec] Hb Hl.
  assert (E : forall i, bbuf s' i = with_b_prev (bbuf s' i).(b_prev) (with_b_next (bbuf s' i).(b_next) (bbuf s i)))
    by (intros i; apply core_inv, Ec).
  constructor.
  - rewrite Ep. apply (br_run _ _ _ Hb).
  - rewrite Ed. apply (br_disk _ _ _ Hb).
  - rewrite El. apply (br_lock _ _ _ Hb).
  - by exists lru.
  - intros n e Hc. cbn zeta. rewrite E. exact (br_entry _ _ _ Hb n e Hc).
  - intros i. rewrite E. exact (br_ref _ _ _ Hb i).
  - intros i. rewrite E, Ed. exact (br_free _ _ _ Hb i).
  - intros i j. rewrite (E i), (E j). exact (br_uniq _ _ _ Hb i j).
  - intros i. rewrite E. exact (br_len _ _ _ Hb i).
Qed.

#[local] Instance bc_lock_head_next : LensDisjoint (bc_lock_l (D := D)) head_next_l.
Proof. by split. Qed.
#[local] Instance bc_lock_head_prev : LensDisjoint (bc_lock_l (D := D)) head_prev_l.
Proof. by split. Qed.
#[local] Instance pst_head_next : LensDisjoint (the_pst (S := bst D)) head_next_l.
Proof. by split. Qed.
#[local] Instance pst_head_prev : LensDisjoint (the_pst (S := bst D)) head_prev_l.
Proof. by split. Qed.

Lemma set_next_in x v s :
  exists s', set_next x v (in_lock bc_lock_l s) = Ok tt (in_lock bc_lock_l s') /\ relinked s s' /\
    (forall y, next_of s' y = upd (next_of s) x v y) /\ (forall y, prev_of s' y = prev_of s y).
Proof.
  destruct x as [|i].
  - exists (put head_next_l v s). split; [exact (f_equal (Ok tt) (put_in bc_lock_l head_next_l v s))|].
    split; [done|]. split; [|by intros []]. intros [|j]; unfold upd; case_decide; done.
  - exists (put_buf i (with_b_next v (bbuf s i)) s). cbn [set_next]. rewrite update_in_bc. split; [done|].
    split; [split; try done|split].
    + intros j. rewrite bbuf_put. case_decide; by subst.
    + intros [|j]; unfold upd; [by rewrite decide_False|]. unfold next_of. fold (bbuf (put_buf i (with_b_next v (bbuf s i)) s) j).
      rewrite bbuf_put. repeat case_decide; by simplify_eq.
    + intros y. by apply put_buf_prev.
Qed.

Lemma set_prev_in x v s :
  exists s', set_prev x v (in_lock bc_lock_l s) = Ok tt (in_lock bc_lock_l s') /\ relinked s s' /\
    (forall y, next_of s' y = next_of s y) /\ (forall y, prev_of s' y = upd (prev_of s) x v y).
Proof.
  destruct x as [|i].
  - exists (put head_prev_l v s). split; [exact (f_equal (Ok tt) (put_in bc_lock_l head_prev_l v s))|].
    split; [done|]. split; [by intros []|]. intros [|j]; unfold upd; case_decide; done.
  - exists (put_buf i (with_b_prev v (bbuf s i)) s). cbn [set_prev]. rewrite update_in_bc. split; [done|].
    split; [split; try done|split].
    + intros j. rewrite bbuf_put. case_decide; by subst.
    + intros y. by apply put_buf_next.
    + intros [|j]; unfold upd; [by rewrite decide_False|]. unfold prev_of. fold (bbuf (put_buf i (with_b_prev v (bbuf s i)) s) j).
      rewrite bbuf_put. repeat case_decide; by simplify_eq.
Qed.

Lemma upd_ext {N : Type} `{EqDecision N} (f g : N -> N) a v x : (forall y, f y = g y) -> upd f a v x = upd g a v x.
Proof. intros E. unfold upd. by case_decide. Qed.

(** Moving a buffer to the front of the list. *)
Definition move_front (i : fin 30) : M (bst D) unit :=
  x <- get (buf_l i) ;;
  set_prev x.(b_next) x.(b_prev) ;;
  x <- get (buf_l i) ;;
  set_next x.(b_prev) x.(b_next) ;;
  link_front i.

Lemma link_front_in i s lru :
  dll (next_of s) (prev_of s) Head (Bn <$> lru) -> i ∉ lru ->
  exists s', link_front i (in_lock bc_lock_l s) = Ok tt (in_lock bc_lock_l s') /\ relinked s s' /\
    dll (next_of s') (prev_of s') Head (Bn <$> i :: lru).
Proof.
  intros Hl Hi. unfold link_front. cbn [bind gets obind].
  change (next_of (in_lock bc_lock_l s)) with (next_of s).
  destruct (set_next_in (Bn i) (next_of s Head) s) as (s1 & E1 & R1 & N1 & P1). rewrite E1. cbn [bind obind].
  destruct (set_prev_in (Bn i) Head s1) as (s2 & E2 & R2 & N2 & P2). rewrite E2. cbn [bind obind gets].
  change (next_of (in_lock bc_lock_l s2)) with (next_of s2).
  assert (Eh : next_of s2 Head = next_of s Head) by (rewrite N2, N1; by apply upd_ne). rewrite Eh.
  destruct (set_prev_in (next_of s Head) (Bn i) s2) as (s3 & E3 & R3 & N3 & P3). rewrite E3. cbn [bind obind].
  destruct (set_next_in Head (Bn i) s3) as (s4 & E4 & R4 & N4 & P4). rewrite E4.
  exists s4. split; [done|]. split; [eauto using relinked_trans|].
  assert (Hin : Bn i ∉ Head :: (Bn <$> lru)).
  { intros [?|Hin]%elem_of_cons; [done|]. by apply list_elem_of_fmap in Hin as (j & [= ->] & ?). }
  pose proof (dll_push _ _ _ _ _ Hl Hin) as Hd. eapply dll_ext; [| |exact Hd]; intros y.
  - rewrite N4. apply upd_ext. intros z. by rewrite N3, N2, N1.
  - rewrite P4, P3. apply upd_ext. intros z. rewrite P2. by apply upd_ext.
Qed.

Lemma move_front_in i s l1 l2 :
  dll (next_of s) (prev_of s) Head (Bn <$> l1 ++ i :: l2) ->
  exists s', move_front i (in_lock bc_lock_l s) = Ok tt (in_lock bc_lock_l s') /\ relinked s s' /\
    dll (next_of s') (prev_of s') Head (Bn <$> i :: l1 ++ l2).
Proof.
  rewrite fmap_app, fmap_cons. intros Hl. unfold move_front. cbn [bind get gets obind].
  change (b_next (view (buf_l i) (in_lock bc_lock_l s))) with (next_of s (Bn i)).
  change (b_prev (view (buf_l i) (in_lock bc_lock_l s))) with (prev_of s (Bn i)).
  destruct (set_prev_in (next_of s (Bn i)) (prev_of s (Bn i)) s) as (s1 & E1 & R1 & N1 & P1).
  rewrite E1. cbn [bind obind get gets].
  change (b_next (view (buf_l i) (in_lock bc_lock_l s1))) with (next_of s1 (Bn i)).
  change (b_prev (view (buf_l i) (in_lock bc_lock_l s1))) with (prev_of s1 (Bn i)).
  pose proof Hl as [Hnd Hlk]. apply links_app in Hlk as [_ Hlk]. apply links_next in Hlk.
  apply NoDup_drop_mid in Hnd as (_ & _ & _ & Hb & _ & _).
  assert (Hself : Bn i <> next_of s (Bn i)).
  { rewrite Hlk. destruct l2 as [|j l2]; cbn; [done|]. intros [= ->]. cbn in Hb. lelem. }
  rewrite N1, P1, (upd_ne _ _ _ _ Hself).
  destruct (set_next_in (prev_of s (Bn i)) (next_of s (Bn i)) s1) as (s2 & E2 & R2 & N2 & P2).
  rewrite E2. cbn [bind obind].
  assert (Hd2 : dll (next_of s2) (prev_of s2) Head (Bn <$> l1 ++ l2)).
  { rewrite fmap_app. eapply dll_ext; [| |exact (dll_unlink _ _ _ _ _ _ Hl)]; intros y.
    - rewrite N2. by apply upd_ext.
    - by rewrite P2, P1. }
  assert (Hni : i ∉ l1 ++ l2).
  { intros Hin. apply Hb. right. rewrite <- fmap_app. by apply list_elem_of_fmap_2. }
  destruct (link_front_in i s2 _ Hd2 Hni) as (s3 & E3 & R3 & Hd3).
  exists s3. split; [exact E3|]. split; [eauto using relinked_trans|done].
Qed.

(** ** brelse *)

Lemma brep_drop p s c n e b :
  brep p s c -> c !! n = Some e -> b.(b_dev) = ROOTDEV -> b.(b_blockno) = n -> b.(b_refcnt) = 0 ->
  slk_ok b.(b_lock) None -> b.(b_data) = blocks s.(b_dsk) n -> length b.(b_data) = 1024%nat ->
  b.(b_next) = (bbuf s e.(ce_idx)).(b_next) -> b.(b_prev) = (bbuf s e.(ce_idx)).(b_prev) ->
  brep p (put_buf e.(ce_idx) b s) (delete n c).
Proof.
  intros Hb Hc Hd Hn Hr Hs Hdat Hlen En Ep. set (i := ce_idx e).
  destruct (br_describes _ _ _ _ _ Hb Hc) as (Hd0 & Hn0 & _).
  constructor; try exact (br_run _ _ _ Hb); try exact (br_disk _ _ _ Hb); try exact (br_lock _ _ _ Hb).
  - destruct (br_dll _ _ _ Hb) as (lru & Hl & Hall). exists lru. split; [|done].
    eapply dll_ext; [| |exact Hl]; intros x; [by apply put_buf_next|by apply put_buf_prev].
  - intros m e' Hm. cbn zeta. apply lookup_delete_Some in Hm as [Hne Hm].
    destruct (br_describes _ _ _ _ _ Hb Hm) as (Hd1 & Hn1 & ?).
    rewrite bbuf_put_ne; [by split|]. intros E. unfold i in E. rewrite E in Hn1. congruence.
  - intros j. rewrite bbuf_put. case_decide as Hj; [done|]. intros Hrj.
    destruct (br_ref _ _ _ Hb j Hrj) as (e' & Hc' & He'). exists e'. split; [|done].
    rewrite lookup_delete_ne; [done|]. intros E. rewrite <- E in Hc'. unfold i in Hj. congruence.
  - intros j. rewrite bbuf_put. case_decide as Hj; [|exact (br_free _ _ _ Hb j)].
    intros _. split; [done|]. intros _. split; [done|]. rewrite Hn. exact Hdat.
  - intros j k. rewrite !bbuf_put. repeat case_decide; subst; try done.
    + intros _ Hk Ek. symmetry. by apply (br_idx _ _ _ _ _ k Hb Hc).
    + intros Hj _ Ej. by apply (br_idx _ _ _ _ _ j Hb Hc).
    + apply (br_uniq _ _ _ Hb).
  - intros j. rewrite bbuf_put. case_decide; [done|]. apply (br_len _ _ _ Hb).
Qed.

(** The map after the release of block [n]. *)
Definition released (n : Z) (e : centry) (c : gmap Z centry) : gmap Z centry :=
  if decide (e.(ce_ref) = 1) then delete n c
  else <[n := CE e.(ce_idx) e.(ce_data) (e.(ce_ref) - 1) None]> c.

Definition released_buf (b : buf) : buf :=
  with_b_refcnt (b.(b_refcnt) - 1)
    (with_b_lock (Sleeplock 0 b.(b_lock).(sl_lk) b.(b_lock).(sl_name) 0) b).

Lemma brep_released p s c n e :
  brep p s c -> c !! n = Some e -> (e.(ce_ref) = 1 -> e.(ce_data) = blocks s.(b_dsk) n) ->
  brep p (put_buf e.(ce_idx) (released_buf (bbuf s e.(ce_idx))) s) (released n e c).
Proof.
  intros Hb Hc Hclean. destruct (br_describes _ _ _ _ _ Hb Hc) as (Hd & Hn & Hv & Hr & Hrange & Hdat & Hs & _).
  unfold released. case_decide as H1'.
  - apply brep_drop; try done; cbn; [lia|rewrite Hdat; auto|apply (br_len _ _ _ Hb)].
  - apply brep_set; try done; [by apply entry_can_hold| |apply (br_len _ _ _ Hb)].
    unfold describes. cbn. split_and!; try done; lia.
Qed.

(** [lru] after the release of the last reference to buffer [i]. *)
Definition lru_release (last : bool) (i : fin 30) (lru : list (fin 30)) : list (fin 30) :=
  if last then i :: filter (fun j => j <> i) lru else lru.

Lemma filter_mid (i : fin 30) l1 l2 :
  NoDup (l1 ++ i :: l2) -> filter (fun j => j <> i) (l1 ++ i :: l2) = l1 ++ l2.
Proof.
  intros (N1 & N2 & [N3 N4]%NoDup_cons)%NoDup_app. rewrite filter_app, filter_cons_False by tauto.
  assert (Hall : forall l : list (fin 30), i ∉ l -> filter (fun j => j <> i) l = l).
  { intros l Hi. induction l as [|x l IH]; [done|]. rewrite filter_cons_True by lelemc. f_equal. apply IH. lelem. }
  rewrite !Hall; [done|done|]. intros Hi. apply (N2 i Hi). lelem.
Qed.

Lemma brelse_tail i s x lru :
  lock_free s.(bc_lock) -> hart_stable (phart s.(b_p)) -> lru_is s lru ->
  x = u32 ((bbuf s i).(b_refcnt) - 1) ->
  exists s', (acquire bc_lock_l ;;
    update (buf_l i) (fun x => with_b_refcnt (u32 (x.(b_refcnt) - 1)) x) ;;
    x <- get (buf_l i) ;;
    (if x.(b_refcnt) =? 0 then move_front i else ret tt) ;;
    release bc_lock_l) s = Ok tt s' /\
    relinked (put_buf i (with_b_refcnt x (bbuf s i)) s) s' /\ lru_is s' (lru_release (x =? 0) i lru).
Proof.
  intros Hl Hh [Hd Hall] ->. set (x := u32 _). cbn [bind]. rewrite (acquire_in bc_lock_l s Hl).
  cbn [bind obind]. rewrite update_in_bc. fold x. cbn [bind obind get gets]. set (s1 := put_buf i _ s).
  change (view (buf_l i) (in_lock bc_lock_l s1)) with (bbuf s1 i).
  assert (Eb : bbuf s1 i = with_b_refcnt x (bbuf s i)) by apply bbuf_put_eq. rewrite Eb. cbn [b_refcnt with_b_refcnt].
  assert (Hd1 : dll (next_of s1) (prev_of s1) Head (Bn <$> lru)).
  { eapply dll_ext; [| |exact Hd]; intros y; [by apply put_buf_next|by apply put_buf_prev]. }
  destruct (x =? 0) eqn:Ex; cbn [lru_release].
  - destruct (list_elem_of_split lru i (Hall i)) as (l1 & l2 & ->).
    destruct (move_front_in i s1 l1 l2 Hd1) as (s2 & E & R & Hd2). rewrite E. cbn [obind].
    rewrite (release_in bc_lock_l) by (rewrite ?(rl_p _ _ R); unfold pv; cbn; rewrite ?(rl_p _ _ R), ?(rl_lock _ _ R); done).
    exists s2. split; [done|]. split; [done|]. rewrite filter_mid.
    + split; [done|]. intros j. specialize (Hall j). lelem.
    + destruct Hd as [[_ Hnd]%NoDup_cons _]. by apply NoDup_fmap_1 in Hnd.
  - cbn [obind ret]. rewrite (release_in bc_lock_l) by done. exists s1. by split.
Qed.

Lemma brelse_eq p s c n e lru :
  brep p s c -> lru_is s lru -> c !! n = Some e -> e.(ce_lock) = Some (mypid_of p s) ->
  (e.(ce_ref) = 1 -> e.(ce_data) = blocks s.(b_dsk) n) ->
  exists s', brelse e.(ce_idx) s = Ok tt s' /\ brep p s' (released n e c) /\ same_disk s s' /\
    wakes s.(b_p) s'.(b_p) /\ lru_is s' (lru_release (e.(ce_ref) =? 1) e.(ce_idx) lru).
Proof.
  intros Hb Hlru Hc Hl Hclean. unfold brelse. cbn [bind]. rewrite (holding_entry p s c n e Hb Hc Hl).
  cbn [obind negb bind].
  destruct (br_describes _ _ _ _ _ Hb Hc) as (_ & _ & _ & Hr & Hrange & _ & Hlk & _).
  pose proof (releasesleep_eq (bufslock (ce_idx e)) p (chBufLock (ce_idx e)) s) as Hrs.
  destruct (Hrs (br_run _ _ _ Hb) Hlk) as (t & Hw & E).
  rewrite E. cbn [obind]. clear E. set (s1 := put (bufslock _) _ _).
  assert (Es1 : s1 = put_dp s.(b_dsk) t (put_buf (ce_idx e) (with_b_lock (Sleeplock 0 (bbuf s (ce_idx e)).(b_lock).(sl_lk)
     (bbuf s (ce_idx e)).(b_lock).(sl_name) 0) (bbuf s (ce_idx e))) s)) by done.
  assert (Eb : bbuf s1 (ce_idx e) = with_b_lock (Sleeplock 0 (bbuf s (ce_idx e)).(b_lock).(sl_lk)
     (bbuf s (ce_idx e)).(b_lock).(sl_name) 0) (bbuf s (ce_idx e))).
  { rewrite Es1. exact (bbuf_put_eq (ce_idx e) _ s). }
  destruct (brelse_tail (ce_idx e) s1 (e.(ce_ref) - 1) lru) as (s' & Et & R & Hlru').
  - exact (br_lock _ _ _ Hb).
  - exact (proj1 (proj1 (running_wakes _ _ _ Hw (br_run _ _ _ Hb)))).
  - destruct Hlru as [Hd Hall]. split; [|done]. rewrite Es1. eapply dll_ext; [| |exact Hd]; intros y.
    + change (next_of (put_dp ?d ?u ?x) y) with (next_of x y). by apply put_buf_next.
    + change (prev_of (put_dp ?d ?u ?x) y) with (prev_of x y). by apply put_buf_prev.
  - rewrite Eb. cbn. rewrite Hr. unfold u32. rewrite Z.mod_small by lia. done.
  - exists s'. split; [exact Et|]. rewrite Eb in R.
    assert (Ez : (e.(ce_ref) - 1 =? 0) = (e.(ce_ref) =? 1)) by (destruct (Z.eqb_spec (ce_ref e) 1); lia).
    rewrite Ez in Hlru'. split; [|split; [|split; [|done]]].
    + eapply brep_relinked; [exact R| |exact Hlru'].
      pose proof (brep_released p s c n e Hb Hc Hclean) as Hrel.
      apply (brep_dp _ _ _ s.(b_dsk) t) in Hrel; [|exact Hw|exact (br_disk _ _ _ Hb)|done].
      unfold released_buf in Hrel. rewrite Hr in Hrel.
      rewrite Es1. change (put_buf ?i ?b (put_dp ?d ?t' (put_buf ?j ?b' ?x))) with (put_dp d t' (put_buf i b (put_buf j b' x))).
      rewrite put_buf_twice. exact Hrel.
    + split; rewrite (rl_dsk _ _ R); done.
    + rewrite (rl_p _ _ R). exact Hw.
Qed.

End BioSpec.
