(* ===== verification/BioThm.v ===== *)
(** * The buffer cache: properties

    Initialisation, what [bread] and [brelse] promise to the layers above, and
    the error of [bget] when every buffer is in use. *)

From S2P Require Import Prelude Riscv Memory Spinlock Kalloc Vm Tty Proc ProcSpec Sleeplock Dll Bio BioSpec.

(** ** An ideal disk: requests complete at once *)

Record ideal_disk := IdealDisk { id_blocks : gmap Z (list Z); id_writes : list (Z * list Z) }.

Definition id_get (d : ideal_disk) (n : Z) : list Z := default zblock (d.(id_blocks) !! n).

#[export] Instance ideal_driver : DiskDriver ideal_disk := fun i write =>
  b <- get (buf_l i) ;;
  if write then
    update b_dsk_l (fun d => IdealDisk (<[b.(b_blockno) := b.(b_data)]> d.(id_blocks))
                               (d.(id_writes) ++ [(b.(b_blockno), b.(b_data))])) ;;
    set (buf_l i) (with_b_disk 0 b)
  else
    d <- get b_dsk_l ;;
    set (buf_l i) (with_b_disk 0 (with_b_data (id_get d b.(b_blockno)) b)).

#[export] Program Instance ideal_laws : DiskLaws ideal_disk := {
  blocks := id_get;
  writes := id_writes;
  disk_ok d := map_Forall (fun _ b => length b = 1024%nat) d.(id_blocks)
}.
Next Obligation.
  intros d n Hd. unfold id_get. destruct (id_blocks d !! n) as [b|] eqn:E; [|exact length_zblock].
  exact (Hd n b E).
Qed.
Next Obligation.
  intros p i s _ Hd _. exists s.(b_dsk), s.(b_p). split; [done|]. split; [apply wakes_refl|]. done.
Qed.
Next Obligation.
  intros p i s _ Hd _ Hlen. eexists _, s.(b_p). split; [reflexivity|]. split; [apply wakes_refl|]. split.
  - by apply map_Forall_insert_2.
  - split; [|done]. intros n. unfold id_get, bbuf. cbn. rewrite lookup_insert.
    repeat case_decide; congruence || done.
Qed.

(** ** Initialisation *)

Definition demo_run : pst :=
  put_proc 2%fin (with_state RUNNING (with_lock (initlock "proc") proc0))
    (demo_pst (with_cpu_proc (Some 2%fin) demo_hart)).

Lemma demo_run_pproc p : p <> 2%fin -> pproc demo_run p = pproc (demo_pst (with_cpu_proc (Some 2%fin) demo_hart)) p.
Proof. intros Hp. by apply pproc_put_ne. Qed.

Lemma demo_run_running : running 2%fin demo_run.
Proof.
  split; [|done]. destruct (demo_unlocked (fun _ => False) (with_cpu_proc (Some 2%fin) demo_hart)) as [Hh Hl]; [done|].
  split; [exact Hh|]. intros p Hp. destruct (decide (p = 2%fin)) as [->|Hne]; [by unfold demo_run; rewrite pproc_put|].
  rewrite demo_run_pproc by done. by apply Hl.
Qed.

Lemma demo_run_thread : thread 2%fin demo_run.
Proof.
  split; [exact demo_run_running|done|..]; unfold demo_run; by rewrite pproc_put.
Qed.

Section Init.
Context {D : Type} `{DiskLaws D} `{Patience}.

(** [k] as a buffer, the head when there is no such buffer. *)
Definition nth_node (k : nat) : node := from_option Bn Head (all_bufs !! k).

Definition binit_buf (i : fin 30) : buf :=
  Buf 0 0 0 0 (initsleeplock "buffer") 0 (nth_node (Datatypes.S i))
      (match fin_to_nat i with O => Head | Datatypes.S k => nth_node k end) zblock.

Definition binit_st (t : pst) (d : D) : bst D :=
  Bst t (initlock "bcache") (fun_to_vec binit_buf) (Bn 0%fin) (Bn 29%fin) d.

Lemma binit_eq t lk hp hn (d : D) : binit (Bst t lk (vreplicate 30 buf0) hp hn d) = Ok tt (binit_st t d).
Proof. by vm_compute. Qed.

Lemma binit_lru t d : lru_is (binit_st t d) (reverse all_bufs).
Proof.
  split; [split|].
  - refine (bool_decide_unpack _ _). by vm_compute.
  - vm_compute. tauto.
  - intros i. apply elem_of_reverse, elem_of_enum.
Qed.

Lemma binit_brep p t d : running p t -> disk_ok d -> brep p (binit_st t d) ∅.
Proof.
  intros Hr Hd.
  assert (E : forall i, bbuf (binit_st t d) i = binit_buf i).
  { intros i. unfold bbuf, binit_st. cbn [bufs]. apply lookup_fun_to_vec. }
  constructor; try done.
  - exists (reverse all_bufs). apply binit_lru.
  - intros i. by rewrite E.
  - intros i. by rewrite E.
  - intros i j. by rewrite !E.
  - intros i. rewrite E. apply length_zblock.
Qed.

(** ** Properties *)

(** C12: [bread] of a block that nobody holds returns, without touching the
    disk's contents, the buffer [bget] picks (the one that caches the block, or
    else the least recently used unreferenced one).  The buffer is locked by
    the caller, has one more reference, and holds the bytes of the block as
    the kernel sees them, also when a dirty copy was in the cache; every other
    referenced buffer is as before. *)
Theorem bread_spec p s c n lru :
  brep p s c -> thread p s.(b_p) -> lru_is s lru -> gettable c n -> in_disk n ->
  exists i s', bread ROOTDEV n s = Ok i s' /\ bget_choice s n lru = Some i /\
    brep p s' (<[n := CE i (bview s c n) (got_ref c n) (Some (mypid_of p s))]> c) /\
    (forall m, blocks s'.(b_dsk) m = blocks s.(b_dsk) m) /\ writes s'.(b_dsk) = writes s.(b_dsk) /\
    wakes s.(b_p) s'.(b_p).
Proof.
  intros Hb Ht Hl Hg Hin. destruct (bread_eq p s c n Hb Ht Hg Hin) as (i & s' & E & Hb' & _ & [Hd1 Hd2] & Hw).
  exists i, s'. split; [done|]. split; [|done].
  destruct (bget_eq p s c n lru Hb Hl Hg) as (i' & v & Ec & Eg & _).
  rewrite Ec. f_equal. unfold bread in E. cbn [bind] in E. rewrite Eg in E. cbn [bind obind get gets] in E.
  destruct (b_valid _ =? 0) in E; cbn [bind obind ret] in E; [|by injection E].
  destruct (disk_rw i' false _) in E; cbn in E; congruence.
Qed.

(** [brelse] of a buffer the caller holds drops its reference and its
    lock, keeps the bytes of every block, and on the last reference moves the
    buffer to the front of the LRU list and leaves the others in their order.
    The last reference is given up only on a block that equals its copy on
    the disk. *)
Theorem brelse_spec p s c n e lru :
  brep p s c -> lru_is s lru -> c !! n = Some e -> e.(ce_lock) = Some (mypid_of p s) ->
  (e.(ce_ref) = 1 -> e.(ce_data) = blocks s.(b_dsk) n) ->
  exists s', brelse e.(ce_idx) s = Ok tt s' /\ brep p s' (released n e c) /\
    lru_is s' (if e.(ce_ref) =? 1 then e.(ce_idx) :: filter (fun j => j <> e.(ce_idx)) lru else lru) /\
    (forall m, bview s' (released n e c) m = bview s c m) /\ writes s'.(b_dsk) = writes s.(b_dsk).
Proof.
  intros Hb Hl Hc Hlk Hclean. destruct (brelse_eq p s c n e lru Hb Hl Hc Hlk Hclean) as (s' & E & Hb' & [Hd1 Hd2] & _ & Hl').
  exists s'. split; [done|]. split; [done|]. split; [done|]. split; [|done].
  intros m. unfold bview, released. case_decide as H1'.
  - destruct (decide (m = n)) as [->|Hne].
    + rewrite lookup_delete_eq, Hc, Hd1. symmetry. auto.
    + rewrite lookup_delete_ne by congruence. by rewrite Hd1.
  - destruct (decide (m = n)) as [->|Hne].
    + by rewrite lookup_insert_eq, Hc.
    + rewrite lookup_insert_ne by congruence. by rewrite Hd1.
Qed.

(** When every buffer is referenced and none caches the block, [bget]
    panics: it never recycles a buffer that is in use. *)
Theorem bget_no_buffers (s : bst D) n lru :
  lock_free s.(bc_lock) -> lru_is s lru ->
  (forall i, (bbuf s i).(b_refcnt) <> 0) ->
  (forall i, (bbuf s i).(b_dev) = ROOTDEV -> (bbuf s i).(b_blockno) <> n) ->
  bget ROOTDEV n s = Panic "bget: no buffers".
Proof.
  intros Hlk [Hd Hall] Href Hmiss. pose proof (lru_length lru (proj1 Hd)) as Hlen.
  unfold bget. cbn [bind]. rewrite (acquire_in bc_lock_l s Hlk). cbn [bind obind gets].
  change (next_of (in_lock bc_lock_l s) Head) with (next_of s Head). rewrite (scan_next_eq s _ lru) by done.
  cbn [bind obind]. destruct (find_buf s _ lru) as [i|] eqn:Ef.
  { exfalso. apply find_buf_some in Ef as [Ht _]. apply andb_true_iff in Ht as [Hdv%Z.eqb_eq Hn%Z.eqb_eq].
    by apply (Hmiss i). }
  cbn [bind gets obind]. change (prev_of (in_lock bc_lock_l s) Head) with (prev_of s Head).
  rewrite (scan_prev_eq s _ lru) by done. cbn [bind obind].
  destruct (find_buf s _ (reverse lru)) as [i|] eqn:Ef2; [|done].
  exfalso. apply find_buf_some in Ef2 as [Ht%Z.eqb_eq _]. by apply (Href i).
Qed.

End Init.

(** ** Examples *)

#[local] Instance demo_patience : Patience := 2%nat.

(** A disk whose block 5 starts with 7, the cache just initialised, process 2
    running. *)
Definition demo_disk : ideal_disk := IdealDisk {[ 5 := 7 :: replicate 1023 0 ]} [].
Definition demo_bst : bst ideal_disk := binit_st demo_run demo_disk.

Lemma demo_disk_ok : disk_ok demo_disk.
Proof. by apply map_Forall_singleton. Qed.

Lemma demo_brep : brep 2%fin demo_bst ∅.
Proof. apply binit_brep; [apply demo_run_running|apply demo_disk_ok]. Qed.

Lemma bread_spec_witness :
  exists s', bread ROOTDEV 5 demo_bst = Ok 0%fin s' /\ brep 2%fin s' {[ 5 := CE 0%fin (7 :: replicate 1023 0) 1 (Some 0) ]}.
Proof.
  destruct (bread_spec 2%fin demo_bst ∅ 5 (reverse all_bufs) demo_brep demo_run_thread (binit_lru _ _)) as (i & s' & E & Hc & Hb & _).
  - vm_compute. lia.
  - vm_compute. split; congruence.
  - exists s'. vm_compute in Hc. injection Hc as <-. split; [exact E|exact Hb].
Defined.

Definition demo_bread : bst ideal_disk :=
  match bread ROOTDEV 5 demo_bst with Ok _ s => s | _ => demo_bst end.

Lemma demo_bread_brep :
  brep 2%fin demo_bread {[ 5 := CE 0%fin (7 :: replicate 1023 0) 1 (Some 0) ]} /\ b_dsk demo_bread = demo_disk.
Proof.
  split; [|by vm_compute].
  destruct (bread_eq 2%fin demo_bst ∅ 5 demo_brep demo_run_thread) as (i & s' & E & Hb & _).
  - vm_compute. lia.
  - vm_compute. split; congruence.
  - unfold demo_bread. rewrite E.
    assert (Ei : match bread ROOTDEV 5 demo_bst with Ok i _ => i | _ => 1%fin end = 0%fin) by by vm_compute.
    rewrite E in Ei. subst i. exact Hb.
Qed.

Lemma demo_bread_lru : lru_is demo_bread (reverse all_bufs).
Proof.
  split; [split|].
  - refine (bool_decide_unpack _ _). by vm_compute.
  - vm_compute. tauto.
  - intros i. apply elem_of_reverse, elem_of_enum.
Qed.

Lemma brelse_spec_witness :
  exists s', brelse 0%fin demo_bread = Ok tt s' /\ brep 2%fin s' ∅ /\
    lru_is s' (0%fin :: filter (fun j => j <> 0%fin) (reverse all_bufs)).
Proof.
  destruct (brelse_spec 2%fin demo_bread _ 5 (CE 0%fin (7 :: replicate 1023 0) 1 (Some 0)) (reverse all_bufs)
              (proj1 demo_bread_brep) demo_bread_lru) as (s' & E & Hb & Hl & _).
  - reflexivity.
  - vm_compute. reflexivity.
  - intros _. rewrite (proj2 demo_bread_brep). reflexivity.
  - exists s'. split; [exact E|]. split; [exact Hb|exact Hl].
Defined.

(** A cache in which every buffer is referenced. *)
Definition full_buf (i : fin 30) : buf :=
  with_b_refcnt 1 (with_b_dev ROOTDEV (with_b_blockno (Z.of_nat i) (binit_buf i))).
Definition demo_full : bst ideal_disk :=
  Bst demo_run (initlock "bcache") (fun_to_vec full_buf) (Bn 0%fin) (Bn 29%fin) demo_disk.

Lemma demo_full_buf i : bbuf demo_full i = full_buf i.
Proof. unfold bbuf, demo_full. cbn [bufs]. apply lookup_fun_to_vec. Qed.

Lemma bget_no_buffers_witness : bget ROOTDEV 100 demo_full = Panic "bget: no buffers".
Proof.
  apply (bget_no_buffers demo_full 100 (reverse all_bufs)).
  - split; reflexivity.
  - split; [split|].
    + refine (bool_decide_unpack _ _). vm_compute. exact I.
    + vm_compute. tauto.
    + intros i. apply elem_of_reverse, elem_of_enum.
  - intros i. rewrite demo_full_buf. cbn. lia.
  - intros i _. rewrite demo_full_buf. cbn. pose proof (fin_to_nat_lt i). lia.
Defined.
