(* ===== verification/VirtioThm.v ===== *)
(** * The disk driver: descriptors, requests and completion

    A request of kernel/virtio_disk.c from the descriptors it takes, through
    the device and its interrupt, to the return of virtio_disk_rw.  The device
    is the class [VirtioDevice], with what it does with a pending request. *)

From S2P Require Import Prelude Riscv Memory Spinlock Kalloc Vm Tty Proc ProcSpec Sleeplock Turn Dll Bio Virtio BioSpec BioThm.

Section Descs.
Context `{VirtioMmio}.
Implicit Types (s : bst vdisk) (d : vdisk).

(** The free descriptors, in order. *)
Definition free_list (f : vec Z 8) : list (fin 8) := filter (fun i => f !!! i <> 0) all_descs.

Lemma elem_free_list f i : i ∈ free_list f <-> f !!! i <> 0.
Proof. unfold free_list. rewrite list_elem_of_filter. split; [tauto|]. intros Hi. split; [done|apply elem_of_enum]. Qed.

Lemma free_list_nodup f : NoDup (free_list f).
Proof. apply NoDup_filter, NoDup_enum. Qed.

Lemma vfree_eq s (i : fin 8) : view (free_l i) s = s.(b_dsk).(v_free) !!! i.
Proof. done. Qed.

Lemma alloc_scan (l : list (fin 8)) s :
  for_each l (fun i =>
    f <- get (free_l i) ;;
    if nz f then set (free_l i) 0 ;; ret (Some (Z.of_nat i)) else ret None) s =
  match filter (fun i => s.(b_dsk).(v_free) !!! i <> 0) l with
  | [] => Ok None s
  | i :: _ => Ok (Some (Z.of_nat i)) (put (free_l i) 0 s)
  end.
Proof.
  induction l as [|i l IH]; [done|]. cbn [for_each bind get gets obind]. rewrite vfree_eq. unfold nz.
  destruct (Z.eqb_spec (v_free (b_dsk s) !!! i) 0) as [E|E]; cbn [negb ret obind].
  - rewrite filter_cons_False by (rewrite E; tauto). exact IH.
  - by rewrite filter_cons_True.
Qed.

Lemma alloc_desc_eq s :
  alloc_desc s =
  match free_list s.(b_dsk).(v_free) with
  | [] => Ok (-1) s
  | i :: _ => Ok (Z.of_nat i) (put (free_l i) 0 s)
  end.
Proof.
  unfold alloc_desc. cbn [bind]. rewrite alloc_scan. unfold free_list, all_descs. by destruct (filter _ _).
Qed.

(** Taking the first free descriptor leaves the others. *)
Lemma free_list_take (f : vec Z 8) i l : free_list f = i :: l -> free_list (vinsert i 0 f) = l.
Proof.
  intros E. pose proof (free_list_nodup f) as Hn. rewrite E in Hn. apply NoDup_cons in Hn as [Hi Hn].
  assert (Hf : forall j, vinsert i 0 f !!! j <> 0 <-> f !!! j <> 0 /\ j <> i).
  { intros j. destruct (decide (i = j)) as [->|Hne]; [rewrite vlookup_insert; intuition congruence|].
    rewrite vlookup_insert_ne by done. intuition congruence. }
  unfold free_list in *.
  assert (E2 : filter (fun j => vinsert i 0 f !!! j <> 0) all_descs = filter (fun j => j <> i) (filter (fun j => f !!! j <> 0) all_descs)).
  { rewrite list_filter_filter. apply list_filter_iff. intros j. rewrite Hf. tauto. }
  rewrite E2, E. rewrite filter_cons_False by tauto. clear -Hi. induction l as [|j l IH]; [done|].
  apply not_elem_of_cons in Hi as [Hj Hi]. rewrite filter_cons_True by congruence. by rewrite IH.
Qed.

Definition dnum (i : fin 8) : Z := Z.of_nat i.

(** [n] descriptors in a row. *)
Fixpoint take_descs (l : list (fin 8)) s : bst vdisk :=
  match l with [] => s | i :: l' => take_descs l' (put (free_l i) 0 s) end.

Lemma alloc_descs_ok n : forall idx s, (n <= length (free_list s.(b_dsk).(v_free)))%nat ->
  let l := take n (free_list s.(b_dsk).(v_free)) in
  alloc_descs n idx s = Ok (0, idx ++ (dnum <$> l)) (take_descs l s) /\
  free_list (take_descs l s).(b_dsk).(v_free) = drop n (free_list s.(b_dsk).(v_free)).
Proof.
  induction n as [|n IH]; intros idx s Hn; cbn [alloc_descs take].
  - by rewrite app_nil_r.
  - cbn [bind]. rewrite alloc_desc_eq. destruct (free_list (v_free (b_dsk s))) as [|i l] eqn:E; [cbn in Hn; lia|].
    cbn [obind]. rewrite (proj2 (Z.ltb_ge _ _)) by lia. cbn [take drop fmap list_fmap take_descs].
    assert (E2 : free_list (v_free (b_dsk (put (free_l i) 0 s))) = l) by exact (free_list_take _ _ _ E).
    specialize (IH (idx ++ [Z.of_nat i]) (put (free_l i) 0 s)). rewrite E2 in IH. cbn in Hn. destruct IH as [-> ->]; [lia|].
    rewrite <- app_assoc. done.
Qed.

Lemma take_descs_free l s i : (take_descs l s).(b_dsk).(v_free) !!! i = if decide (i ∈ l) then 0 else s.(b_dsk).(v_free) !!! i.
Proof.
  revert s. induction l as [|j l IH]; intros s; cbn [take_descs]; [by rewrite decide_False by apply not_elem_of_nil|].
  rewrite IH. destruct (decide (i ∈ l)) as [Hi|Hi]; [by rewrite decide_True by (apply elem_of_cons; tauto)|].
  destruct (decide (i = j)) as [->|Hne].
  - rewrite decide_True by (apply elem_of_cons; tauto). change (v_free (b_dsk (put (free_l j) 0 s))) with (vinsert j 0 (v_free (b_dsk s))).
    by rewrite vlookup_insert.
  - rewrite decide_False by (rewrite elem_of_cons; tauto). change (v_free (b_dsk (put (free_l j) 0 s))) with (vinsert j 0 (v_free (b_dsk s))).
    by rewrite vlookup_insert_ne.
Qed.

Lemma take_descs_frame l s : take_descs l s = put (vd v_free_l) (take_descs l s).(b_dsk).(v_free) s.
Proof.
  revert s. induction l as [|j l IH]; intros s; cbn [take_descs]; [by destruct s as [? ? ? ? ? []]|]. rewrite IH at 1. done.
Qed.

Lemma idx8_num (i : fin 8) : idx8 (dnum i) = Some i.
Proof.
  unfold idx8, dnum. pose proof (fin_to_nat_lt i) as Hi. rewrite Nat2Z.id. destruct (decide (i < 8)%nat); [|lia].
  rewrite (proj2 (Z.ltb_ge _ _)) by lia. f_equal. apply nat_to_fin_to_nat.
Qed.

Lemma at8_num (i : fin 8) s : at8 (dnum i) s = Ok i s.
Proof. unfold at8. by rewrite idx8_num. Qed.

(** The place of a request in a ring. *)
Lemma avail_slot a : exists j : fin 8, a mod NUM = dnum j.
Proof.
  pose proof (Z.mod_pos_bound a NUM ltac:(done)) as Ha. assert (Hlt : (Z.to_nat (a mod NUM) < 8)%nat) by (unfold NUM in *; lia).
  exists (nat_to_fin Hlt). unfold dnum. rewrite fin_to_nat_to_fin. lia.
Qed.
End Descs.

Lemma NoDup_3 {A : Type} (x y z : A) : NoDup [x; y; z] -> x <> y /\ x <> z /\ y <> z.
Proof. rewrite !NoDup_cons, !not_elem_of_cons. tauto. Qed.

(** ** Requests *)

(** The fields of the queue once a request for block [n] with the buffer [b]
    has been put into the descriptors [i0], [i1] and [i2] and made available. *)
Definition posted (b : fin 30) (write : bool) (n : Z) (i0 i1 i2 j : fin 8) (d : vdisk) : vdisk :=
  Vdisk d.(v_pages)
    (vinsert i2 (Desc (DStatus i0) 1 VRING_DESC_F_WRITE 0)
      (vinsert i1 (Desc (DData b) BSIZE (Z.lor (if write then 0 else VRING_DESC_F_WRITE) VRING_DESC_F_NEXT) (dnum i2))
        (vinsert i0 (Desc (DOp i0) 16 VRING_DESC_F_NEXT (dnum i1)) d.(v_desc))))
    (u16 (d.(avail_idx) + 1)) (vinsert j (dnum i0) d.(avail_ring)) d.(dev_used_idx) d.(used_ring)
    (vinsert i2 0 (vinsert i1 0 (vinsert i0 0 d.(v_free)))) d.(used_idx)
    (vinsert i0 (Some b) d.(info_b)) (vinsert i0 0xff d.(info_status))
    (vinsert i0 (Req (if write then VIRTIO_BLK_T_OUT else VIRTIO_BLK_T_IN) 0 (u32 (n * (BSIZE / 512)))) d.(v_ops))
    d.(vdisk_lock) (d.(mmio) ++ [(VIRTIO_MMIO_QUEUE_NOTIFY, 0)]) d.(dev_avail_idx) d.(v_blocks) d.(v_writes).

Section Post.
Context `{VirtioMmio} `{Patience}.
Implicit Types (s : bst vdisk) (d : vdisk).

(** What [virtio_disk_rw] does from the request on. *)
Definition rw_rest (b : fin 30) (i0 : fin 8) : M (bst vdisk) unit :=
  loop (Datatypes.S patience) (disk_wait b) tt ;;
  set (vd (lcomp info_b_l (vec_l i0))) None ;;
  free_chain (Z.of_nat i0) ;;
  release vlock.

Lemma post_eq b write s i0 i1 i2 r j :
  lock_free s.(b_dsk).(vdisk_lock) -> free_list s.(b_dsk).(v_free) = i0 :: i1 :: i2 :: r ->
  s.(b_dsk).(avail_idx) mod NUM = dnum j ->
  virtio_disk_rw b write s =
  rw_rest b i0 (in_lock vlock (put_buf b (with_b_disk 1 (bbuf s b))
    (put b_dsk_l (posted b write (bbuf s b).(b_blockno) i0 i1 i2 j s.(b_dsk)) s))).
Proof.
  intros Hl Hf Hj. unfold virtio_disk_rw. cbn [bind get gets obind]. rewrite (acquire_in vlock s Hl). cbn [bind obind].
  rewrite loop_S. unfold alloc3_wait at 1, alloc3_desc. cbn [bind].
  assert (Hf1 : free_list (v_free (b_dsk (in_lock vlock s))) = i0 :: i1 :: i2 :: r) by exact Hf.
  destruct (alloc_descs_ok 3 [] (in_lock vlock s)) as [E _]; [rewrite Hf1; cbn; lia|]. rewrite Hf1 in E. cbn [app] in E.
  change (take 3 (i0 :: i1 :: i2 :: r)) with [i0; i1; i2] in E. cbn [fmap list_fmap] in E.
  rewrite E. cbn [obind fst snd Z.eqb ret bind].
  change ([dnum i0; dnum i1; dnum i2] !!! 0%nat) with (dnum i0). change ([dnum i0; dnum i1; dnum i2] !!! 1%nat) with (dnum i1).
  change ([dnum i0; dnum i1; dnum i2] !!! 2%nat) with (dnum i2).
  do 3 (rewrite at8_num; cbn [obind bind]). cbn [obind bind format set modify update get gets].
  match goal with |- context [at8 ?e ?st] => change e with (avail_idx (b_dsk s) mod NUM); set (s1 := st) end.
  rewrite Hj, at8_num. unfold rw_rest, R_write. cbn [obind bind set update modify get gets].
  match goal with |- obind (loop _ _ _ ?x) _ = obind (loop _ _ _ ?y) _ => replace x with y; [done|] end.
  unfold s1. destruct s as [t bc bf hp hn d]. destruct d. reflexivity.
Qed.
End Post.

(** ** The device *)

Definition v_get (d : vdisk) (n : Z) : list Z := default zblock (d.(v_blocks) !! n).

(** A request for block [n] is the one the device has to look at next: the
    descriptors of its chain and its header are as virtio 1.1 (5.2.6) has
    them. *)
Record pending (b : fin 30) (write : bool) (n : Z) (i0 i1 i2 : fin 8) (d : vdisk) : Prop := {
  pd_idx : d.(avail_idx) = u16 (d.(dev_avail_idx) + 1);
  pd_ring : forall j, d.(dev_avail_idx) mod NUM = dnum j -> d.(avail_ring) !!! j = dnum i0;
  pd_hdr : d.(v_desc) !!! i0 = Desc (DOp i0) 16 VRING_DESC_F_NEXT (dnum i1);
  pd_data : d.(v_desc) !!! i1 =
    Desc (DData b) BSIZE (Z.lor (if write then 0 else VRING_DESC_F_WRITE) VRING_DESC_F_NEXT) (dnum i2);
  pd_status : d.(v_desc) !!! i2 = Desc (DStatus i0) 1 VRING_DESC_F_WRITE 0;
  pd_req : d.(v_ops) !!! i0 = Req (if write then VIRTIO_BLK_T_OUT else VIRTIO_BLK_T_IN) 0 (2 * n)
}.

(** The state once the device has served it: the block is transferred, the
    status byte is 0 and the chain is in the used ring. *)
Definition served (b : fin 30) (write : bool) (n : Z) (i0 u : fin 8) (s : bst vdisk) : bst vdisk :=
  let d := s.(b_dsk) in let data := (bbuf s b).(b_data) in
  put b_dsk_l (Vdisk d.(v_pages) d.(v_desc) d.(avail_idx) d.(avail_ring) (u16 (d.(dev_used_idx) + 1))
      (vinsert u (dnum i0) d.(used_ring)) d.(v_free) d.(used_idx) d.(info_b) (vinsert i0 0 d.(info_status)) d.(v_ops)
      d.(vdisk_lock) d.(mmio) (u16 (d.(dev_avail_idx) + 1))
      (if write then <[n := data]> d.(v_blocks) else d.(v_blocks))
      (if write then d.(v_writes) ++ [(n, data)] else d.(v_writes)))
    (if write then s else put_buf b (with_b_data (v_get d n) (bbuf s b)) s).

Lemma served_p b write n i0 u s : (served b write n i0 u s).(b_p) = s.(b_p).
Proof. by destruct write. Qed.

(** What the driver relies on of the device. *)
Class VirtioDevice := {
  dev_run : bst vdisk -> bst vdisk;
  dev_law b write n i0 i1 i2 u s :
    pending b write n i0 i1 i2 s.(b_dsk) -> in_disk n -> (write = true -> length (bbuf s b).(b_data) = 1024%nat) ->
    s.(b_dsk).(dev_used_idx) mod NUM = dnum u ->
    dev_run s = served b write n i0 u s
}.

(** ** The interrupt handler *)

(** The lock is apart from the rest of the driver's state. *)
#[export] Instance vlock_mmio_l : LensDisjoint vdisk_lock_l mmio_l.
Proof. by split; intros; destruct s. Qed.
#[export] Instance vlock_used_idx_l : LensDisjoint vdisk_lock_l used_idx_l.
Proof. by split; intros; destruct s. Qed.
#[export] Instance vlock_dev_used_idx_l : LensDisjoint vdisk_lock_l dev_used_idx_l.
Proof. by split; intros; destruct s. Qed.
#[export] Instance vlock_info_b_l : LensDisjoint vdisk_lock_l info_b_l.
Proof. by split; intros; destruct s. Qed.
#[export] Instance vlock_v_free_l : LensDisjoint vdisk_lock_l v_free_l.
Proof. by split; intros; destruct s. Qed.
#[export] Instance vlock_v_desc_l : LensDisjoint vdisk_lock_l v_desc_l.
Proof. by split; intros; destruct s. Qed.

Section Intr.
Context `{VirtioMmio}.
Implicit Types (s : bst vdisk).

#[export] Instance vlock_buf b : LensDisjoint vlock (buf_l b).
Proof. by split; intros; destruct s. Qed.
#[export] Instance vlock_ne {A} (k : lens vdisk A) `{!LensDisjoint vdisk_lock_l k} : LensDisjoint vlock (vd k).
Proof. unfold vlock, vd. apply _. Qed.

Definition intr_rest : M (bst vdisk) unit :=
  st <- R_read VIRTIO_MMIO_INTERRUPT_STATUS ;;
  R_write VIRTIO_MMIO_INTERRUPT_ACK (Z.land st 3) ;;
  u <- get (vd used_idx_l) ;;
  dev <- get (vd dev_used_idx_l) ;;
  loop (Z.to_nat (u16 (dev - u)) + 1) virtio_disk_intr_body tt ;;
  release vlock.

(** The state once the entry for [b] has been taken from the used ring. *)
Definition intr_done (b : fin 30) (m : list (Z * Z)) s : bst vdisk :=
  put_buf b (with_b_disk 0 (bbuf s b))
    (put_dp (with_used_idx s.(b_dsk).(dev_used_idx) (with_mmio m s.(b_dsk)))
       (map_procs (wake_other (phart s.(b_p)).(cpu_proc) (chDiskBuf b)) all_procs s.(b_p)) s).

Lemma u16_next u : 0 <= u < 2 ^ 16 -> u16 (u16 (u + 1) - u) = 1 /\ u <> u16 (u + 1).
Proof. intros Hu. unfold u16. split; Z.to_euclidean_division_equations; lia. Qed.

Lemma wakeup_in_exact c s :
  unlocked (fun _ => False) s.(b_p) ->
  zoom the_pst (wakeup c) (in_lock vlock s) =
  Ok tt (in_lock vlock (put b_p_l (map_procs (wake_other (phart s.(b_p)).(cpu_proc) c) all_procs s.(b_p)) s)).
Proof.
  intros [Hs Hu]. apply (zoom_in vlock); [|done]. set (h := phart (pv s)).
  assert (Ec : cpu_proc (push_off_h h) = cpu_proc h) by (unfold push_off_h; by destruct (noff h =? 0)).
  rewrite wakeup_eq.
  - change (phart (put the_hart ?h ?t)) with h. rewrite Ec. reflexivity.
  - split; [|intros p _; exact (Hu p (fun F => F))]. change (phart (put the_hart ?h ?t)) with h.
    destruct Hs as [Hok _]. split; [by apply push_off_ok|]. rewrite push_off_noff. destruct Hok as [Hok _]. change (0 <= noff h) in Hok. lia.
Qed.

Lemma intr_rest_eq b i0 u s :
  unlocked (fun _ => False) s.(b_p) -> lock_free s.(b_dsk).(vdisk_lock) ->
  0 <= s.(b_dsk).(used_idx) < 2 ^ 16 -> s.(b_dsk).(dev_used_idx) = u16 (s.(b_dsk).(used_idx) + 1) ->
  s.(b_dsk).(used_idx) mod NUM = dnum u -> s.(b_dsk).(used_ring) !!! u = dnum i0 ->
  s.(b_dsk).(info_status) !!! i0 = 0 -> s.(b_dsk).(info_b) !!! i0 = Some b ->
  exists m, intr_rest (in_lock vlock s) = Ok tt (intr_done b m s).
Proof.
  intros Hu Hl Hi Hd Hs Hr Hst Hb. destruct (u16_next _ Hi) as [E1 Hne]. rewrite <- Hd in E1, Hne.
  unfold intr_rest, R_read, R_write. cbn [bind get gets obind ret update modify].
  rewrite (put_in vlock (vd mmio_l)). set (m := _ ++ _). set (s1 := put (vd mmio_l) m s).
  rewrite (view_in vlock (vd used_idx_l)), (view_in vlock (vd dev_used_idx_l)).
  change (view (vd used_idx_l) s1) with (used_idx (b_dsk s)). change (view (vd dev_used_idx_l) s1) with (dev_used_idx (b_dsk s)).
  rewrite E1. change (Z.to_nat 1 + 1)%nat with 2%nat. rewrite loop_S. unfold virtio_disk_intr_body at 1.
  cbn [bind get gets obind]. rewrite (view_in vlock (vd used_idx_l)), (view_in vlock (vd dev_used_idx_l)).
  change (view (vd used_idx_l) s1) with (used_idx (b_dsk s)). change (view (vd dev_used_idx_l) s1) with (dev_used_idx (b_dsk s)).
  rewrite (proj2 (Z.eqb_neq _ _) Hne). cbn [bind]. rewrite Hs, at8_num. cbn [obind bind get gets].
  change (view (vd (lcomp used_ring_l (vec_l u))) (in_lock vlock s1)) with (used_ring (b_dsk s) !!! u).
  rewrite Hr, at8_num. cbn [obind bind get gets].
  change (view (vd (lcomp info_status_l (vec_l i0))) (in_lock vlock s1)) with (info_status (b_dsk s) !!! i0).
  rewrite Hst. cbn [nz Z.eqb negb bind get gets obind].
  change (view (vd (lcomp info_b_l (vec_l i0))) (in_lock vlock s1)) with (info_b (b_dsk s) !!! i0).
  rewrite Hb. cbn [bind update modify obind].
  rewrite (view_in vlock (buf_l b)), (put_in vlock (buf_l b)). set (s2 := put (buf_l b) _ s1).
  rewrite (wakeup_in_exact (chDiskBuf b) s2) by exact Hu. cbn [obind bind update modify ret].
  rewrite (view_in vlock (vd used_idx_l)), (put_in vlock (vd used_idx_l)). set (s3 := put (vd used_idx_l) _ _).
  rewrite loop_S. unfold virtio_disk_intr_body. cbn [bind get gets obind].
  rewrite (view_in vlock (vd used_idx_l)), (view_in vlock (vd dev_used_idx_l)).
  change (view (vd used_idx_l) s3) with (u16 (used_idx (b_dsk s) + 1)). change (view (vd dev_used_idx_l) s3) with (dev_used_idx (b_dsk s)).
  rewrite Hd, Z.eqb_refl. cbn [ret obind]. exists m. rewrite (release_in vlock s3).
  - f_equal. unfold s3, s2, s1, intr_done. rewrite Hd. by destruct s as [t ? ? ? ? []].
  - exact (proj1 Hu).
  - exact Hl.
Qed.
End Intr.

(** ** The end of a request *)

Section Finish.
Context `{VirtioMmio}.
Implicit Types (s : bst vdisk).

Lemma free_desc_in i p s :
  running p s.(b_p) -> s.(b_dsk).(v_free) !!! i = 0 ->
  exists t, wakes s.(b_p) t /\ free_desc (dnum i) (in_lock vlock s) =
    Ok tt (in_lock vlock (put b_p_l t (put (free_l i) 1 (put (desc_l i) desc0 s)))).
Proof.
  intros Hr Hf. unfold free_desc. pose proof (fin_to_nat_lt i) as Hi.
  rewrite (proj2 (Z.leb_gt _ _)) by (unfold dnum, NUM; lia). cbn [bind]. rewrite at8_num. cbn [obind bind get gets].
  unfold free_l at 1. rewrite (view_in vlock (vd (lcomp v_free_l (vec_l i)))).
  change (view (vd (lcomp v_free_l (vec_l i))) s) with (v_free (b_dsk s) !!! i). rewrite Hf.
  cbn [nz Z.eqb negb bind set modify obind]. unfold desc_l at 1. rewrite (put_in vlock (vd (lcomp v_desc_l (vec_l i)))).
  unfold free_l at 1. rewrite (put_in vlock (vd (lcomp v_free_l (vec_l i)))). set (s1 := put _ 1 _).
  destruct (wakeup_in vlock p chDiskFree s1) as (t & Hw & E); [exact Hr|]. exists t. split; [exact Hw|exact E].
Qed.

Lemma put_dp_free i t s :
  put b_p_l t (put (free_l i) 1 (put (desc_l i) desc0 s)) =
  put_dp (with_v_free (vinsert i 1 s.(b_dsk).(v_free)) (with_v_desc (vinsert i desc0 s.(b_dsk).(v_desc)) s.(b_dsk))) t s.
Proof. by destruct s as [? ? ? ? ? []]. Qed.

(** One descriptor of the chain. *)
Lemma free_chain_step n i p s :
  running p s.(b_p) -> s.(b_dsk).(v_free) !!! i = 0 ->
  exists t, wakes s.(b_p) t /\ loop (Datatypes.S n) free_chain_body (dnum i) (in_lock vlock s) =
    (let s1 := put_dp (with_v_free (vinsert i 1 s.(b_dsk).(v_free)) (with_v_desc (vinsert i desc0 s.(b_dsk).(v_desc)) s.(b_dsk))) t s in
     if nz (Z.land (s.(b_dsk).(v_desc) !!! i).(d_flags) VRING_DESC_F_NEXT)
     then loop n free_chain_body (s.(b_dsk).(v_desc) !!! i).(d_next) (in_lock vlock s1)
     else Ok tt (in_lock vlock s1)).
Proof.
  intros Hr Hf. destruct (free_desc_in i p s Hr Hf) as (t & Hw & E). exists t. split; [done|].
  rewrite loop_S. unfold free_chain_body at 1. cbn [bind]. rewrite at8_num. cbn [obind bind get gets].
  unfold desc_l at 1. rewrite (view_in vlock (vd (lcomp v_desc_l (vec_l i)))).
  change (view (vd (lcomp v_desc_l (vec_l i))) s) with (v_desc (b_dsk s) !!! i).
  rewrite E, put_dp_free. cbn [obind]. by destruct (nz _).
Qed.

Definition finished (i0 i1 i2 : fin 8) (d : vdisk) : vdisk :=
  with_v_free (vinsert i2 1 (vinsert i1 1 (vinsert i0 1 d.(v_free))))
    (with_v_desc (vinsert i2 desc0 (vinsert i1 desc0 (vinsert i0 desc0 d.(v_desc))))
       (with_info_b (vinsert i0 None d.(info_b)) d)).

Lemma finish_eq b (write : bool) i0 i1 i2 p s :
  running p s.(b_p) -> lock_free s.(b_dsk).(vdisk_lock) -> NoDup [i0; i1; i2] ->
  s.(b_dsk).(v_desc) !!! i0 = Desc (DOp i0) 16 VRING_DESC_F_NEXT (dnum i1) ->
  s.(b_dsk).(v_desc) !!! i1 =
    Desc (DData b) BSIZE (Z.lor (if write then 0 else VRING_DESC_F_WRITE) VRING_DESC_F_NEXT) (dnum i2) ->
  s.(b_dsk).(v_desc) !!! i2 = Desc (DStatus i0) 1 VRING_DESC_F_WRITE 0 ->
  s.(b_dsk).(v_free) !!! i0 = 0 -> s.(b_dsk).(v_free) !!! i1 = 0 -> s.(b_dsk).(v_free) !!! i2 = 0 ->
  exists t, wakes s.(b_p) t /\
    (set (vd (lcomp info_b_l (vec_l i0))) None ;; free_chain (dnum i0) ;; release vlock) (in_lock vlock s) =
    Ok tt (put_dp (finished i0 i1 i2 s.(b_dsk)) t s).
Proof.
  intros Hr Hl Hnd D0 D1 D2 F0 F1 F2. destruct (NoDup_3 _ _ _ Hnd) as (N1 & N2 & N3).
  cbn [bind set modify obind]. rewrite (put_in vlock (vd (lcomp info_b_l (vec_l i0)))). set (s0 := put _ _ s). unfold free_chain.
  destruct (free_chain_step 8 i0 p s0) as (t1 & W1 & ->); [exact Hr|exact F0|]. cbv zeta. set (s1 := put_dp _ t1 s0).
  change (v_desc (b_dsk s0)) with (v_desc (b_dsk s)). rewrite D0. cbn [d_flags d_next].
  change (nz (Z.land VRING_DESC_F_NEXT VRING_DESC_F_NEXT)) with true. cbv iota.
  assert (R1 : running p (b_p s1)) by exact (running_wakes p _ _ W1 Hr).
  destruct (free_chain_step 7 i1 p s1) as (t2 & W2 & ->); [exact R1|unfold s1; cbn; by rewrite vlookup_insert_ne|].
  cbv zeta. set (s2 := put_dp _ t2 s1). replace (v_desc (b_dsk s1) !!! i1) with (v_desc (b_dsk s) !!! i1)
    by (unfold s1; cbn; by rewrite vlookup_insert_ne). rewrite D1. cbn [d_flags d_next].
  replace (nz (Z.land (Z.lor (if write then 0 else VRING_DESC_F_WRITE) VRING_DESC_F_NEXT) VRING_DESC_F_NEXT)) with true
    by by destruct write. cbv iota.
  assert (R2 : running p (b_p s2)) by exact (running_wakes p _ _ W2 R1).
  destruct (free_chain_step 6 i2 p s2) as (t3 & W3 & ->);
    [exact R2|unfold s2, s1; cbn; by rewrite !vlookup_insert_ne|].
  cbv zeta. set (s3 := put_dp _ t3 s2). replace (v_desc (b_dsk s2) !!! i2) with (v_desc (b_dsk s) !!! i2)
    by (unfold s2, s1; cbn; by rewrite !vlookup_insert_ne). rewrite D2. cbn [d_flags].
  change (nz (Z.land VRING_DESC_F_WRITE VRING_DESC_F_NEXT)) with false. cbn [obind].
  exists t3. split; [exact (wakes_trans _ _ _ W1 (wakes_trans _ _ _ W2 W3))|].
  rewrite (release_in vlock s3); [|exact (proj1 (proj1 (running_wakes p _ _ W3 R2)))|exact Hl].
  reflexivity.
Qed.
End Finish.

(** ** Driver, device and scheduler together *)

(** No request is under way. *)
Record idle (d : vdisk) : Prop := {
  id_lock : lock_free d.(vdisk_lock);
  id_free : forall i, d.(v_free) !!! i <> 0;
  id_avail : d.(dev_avail_idx) = d.(avail_idx);
  id_used : d.(used_idx) = d.(dev_used_idx);
  id_range : 0 <= d.(used_idx) < 2 ^ 16;
  id_blocks : forall n, length (v_get d n) = 1024%nat
}.

Section Run.
Context `{VirtioMmio} `{Patience} `{VirtioDevice}.
Implicit Types (s : bst vdisk).

(** While the process sleeps the device serves its request and interrupts. *)
Definition disk_env : M (bst vdisk) unit := modify dev_run ;; interrupt virtio_disk_intr.

Definition disk_rw_run (b : fin 30) (write : bool) : M (bst vdisk) unit := fun s =>
  match (phart s.(b_p)).(cpu_proc) with
  | Some p => with_turn p disk_env (virtio_disk_rw b write) s
  | None => undefined s
  end.

Lemma idle_free_list d : idle d -> free_list d.(v_free) = all_descs.
Proof.
  intros Hd. unfold free_list. induction all_descs as [|i l IH]; [done|].
  rewrite filter_cons_True by apply (id_free _ Hd). by rewrite IH.
Qed.

Lemma posted_pending b write n i0 i1 i2 j d :
  NoDup [i0; i1; i2] -> in_disk n -> d.(dev_avail_idx) = d.(avail_idx) -> d.(avail_idx) mod NUM = dnum j ->
  pending b write n i0 i1 i2 (posted b write n i0 i1 i2 j d).
Proof.
  intros Hnd Hn Ha Hj. destruct (NoDup_3 _ _ _ Hnd) as (N1 & N2 & N3).
  split; cbn.
  - by rewrite Ha.
  - intros j'. rewrite Ha, Hj. intros E. unfold dnum in E. assert (j = j') as <- by (apply fin_to_nat_inj; lia). apply vlookup_insert.
  - by rewrite !vlookup_insert_ne, vlookup_insert by congruence.
  - by rewrite vlookup_insert_ne, vlookup_insert by congruence.
  - apply vlookup_insert.
  - rewrite vlookup_insert. f_equal. unfold in_disk, FSSIZE in Hn. unfold u32. rewrite Z.mod_small; [|split].
    + change (BSIZE / 512) with 2. lia.
    + change (BSIZE / 512) with 2. lia.
    + change (BSIZE / 512) with 2. lia.
Qed.

(** An interrupt of the disk: the handler takes the lock, with interrupts off,
    and turns them on again when it is done. *)
Lemma disk_intr_in (s : bst vdisk) : lock_free s.(b_dsk).(vdisk_lock) -> virtio_disk_intr s = intr_rest (in_lock vlock s).
Proof. intros Hl. unfold virtio_disk_intr. cbn [bind]. rewrite (acquire_in vlock) by exact Hl. done. Qed.
Lemma disk_env_in (s : bst vdisk) :
  let t := dev_run s in
  disk_env s = obind (virtio_disk_intr (put b_p_l (put the_hart (intr_off (phart t.(b_p))) t.(b_p)) t)) (fun _ => update the_hart intr_on).
Proof. done. Qed.

Lemma disk_in_idle h t (s : bst vdisk) : noff h = 0 ->
  in_lock vlock (put b_p_l (put the_hart (intr_off (with_cpu_proc None h)) t) s) = in_lock vlock (put b_p_l (put the_hart (idle_h h) t) s).
Proof. exact (in_idle vlock h t s). Qed.

(** The states of a request: asleep, served, and after the interrupt. *)
Section States.
Context (p : fin 64) (b : fin 30) (write : bool) (i0 i1 i2 j u : fin 8) (s : bst vdisk).
Abbreviation h := (phart s.(b_p)).
Abbreviation n := (bbuf s b).(b_blockno).
Definition st_posted : bst vdisk :=
  put_buf b (with_b_disk 1 (bbuf s b)) (put b_dsk_l (posted b write n i0 i1 i2 j s.(b_dsk)) s).
Definition st_served : bst vdisk := served b write n i0 u (dozing p (chDiskBuf b) st_posted).
Definition st_idle : bst vdisk := put b_p_l (put the_hart (idle_h h) st_served.(b_p)) st_served.
Definition st_woken (m : list (Z * Z)) : bst vdisk :=
  let s1 := intr_done b m st_idle in put b_p_l (put the_hart (intr_on (idle_h h)) s1.(b_p)) s1.

Lemma bp_put t (s0 : bst vdisk) : b_p (put b_p_l t s0) = t.
Proof. done. Qed.
Lemma bp_posted : b_p st_posted = b_p s.
Proof. done. Qed.
Lemma pproc_hart x t q : pproc (put the_hart x t) q = pproc t q.
Proof. done. Qed.
Lemma phart_in x (t : pst) : phart (put the_hart x t) = x.
Proof. done. Qed.
Lemma dozing_p c (s0 : bst vdisk) :
  b_p (dozing p c s0) =
  put_proc p (with_state SLEEPING (with_chan c (pproc (b_p s0) p))) (put the_hart (intr_on (with_cpu_proc None (phart (b_p s0)))) (b_p s0)).
Proof. done. Qed.
Lemma done_p m (s0 : bst vdisk) :
  b_p (intr_done b m s0) = map_procs (wake_other (phart s0.(b_p)).(cpu_proc) (chDiskBuf b)) all_procs s0.(b_p).
Proof. done. Qed.
Lemma done_hart m (s0 : bst vdisk) : phart (b_p (intr_done b m s0)) = phart (b_p s0).
Proof. done. Qed.

(** The processes while the request is asleep: one of them is [p]. *)
Lemma idle_p q :
  pproc st_idle.(b_p) q =
  if decide (p = q) then with_state SLEEPING (with_chan (chDiskBuf b) (pproc s.(b_p) p)) else pproc s.(b_p) q.
Proof.
  unfold st_idle. rewrite bp_put, pproc_hart. unfold st_served. rewrite served_p, dozing_p, bp_posted.
  case_decide as E; [subst q; apply pproc_put|by rewrite pproc_put_ne].
Qed.
Lemma idle_hart : phart st_idle.(b_p) = idle_h h.
Proof. unfold st_idle. by rewrite bp_put, phart_in. Qed.

Lemma idle_dsk : b_dsk st_idle =
  let d := posted b write n i0 i1 i2 j s.(b_dsk) in
  Vdisk d.(v_pages) d.(v_desc) d.(avail_idx) d.(avail_ring) (u16 (d.(dev_used_idx) + 1))
    (vinsert u (dnum i0) d.(used_ring)) d.(v_free) d.(used_idx) d.(info_b) (vinsert i0 0 d.(info_status)) d.(v_ops)
    d.(vdisk_lock) d.(mmio) (u16 (d.(dev_avail_idx) + 1))
    (if write then <[n := (bbuf st_posted b).(b_data)]> d.(v_blocks) else d.(v_blocks))
    (if write then d.(v_writes) ++ [(n, (bbuf st_posted b).(b_data))] else d.(v_writes)).
Proof. done. Qed.

(** The device serves the request that [st_posted] has pending. *)
Lemma served_run :
  idle s.(b_dsk) -> in_disk n -> (write = true -> length (bbuf s b).(b_data) = 1024%nat) -> NoDup [i0; i1; i2] ->
  s.(b_dsk).(avail_idx) mod NUM = dnum j -> s.(b_dsk).(used_idx) mod NUM = dnum u ->
  dev_run (dozing p (chDiskBuf b) st_posted) = st_served.
Proof.
  intros Hd Hn Hlen Hnd Hj Hu. apply (dev_law b write n i0 i1 i2 u).
  - exact (posted_pending b write n i0 i1 i2 j _ Hnd Hn (id_avail _ Hd) Hj).
  - done.
  - intros Hw. change (length (b_data (vinsert b (with_b_disk 1 (bbuf s b)) (bufs s) !!! b)) = 1024%nat). rewrite vlookup_insert. exact (Hlen Hw).
  - cbn. by rewrite <- (id_used _ Hd).
Qed.
Lemma served_hart : phart st_served.(b_p) = intr_on (with_cpu_proc None h).
Proof. unfold st_served. by rewrite served_p. Qed.

Lemma env_eq :
  thread p s.(b_p) -> idle s.(b_dsk) -> in_disk n -> (write = true -> length (bbuf s b).(b_data) = 1024%nat) ->
  NoDup [i0; i1; i2] -> s.(b_dsk).(avail_idx) mod NUM = dnum j -> s.(b_dsk).(used_idx) mod NUM = dnum u ->
  exists m, disk_env (dozing p (chDiskBuf b) st_posted) = Ok tt (st_woken m).
Proof.
  intros [[[Hs Hul] Hp] Hn0 Hst Hch] Hd Hn Hlen Hnd Hj Hu. rewrite disk_env_in. cbv zeta. rewrite served_run by done.
  rewrite served_hart, intr_off_on, disk_intr_in by exact (id_lock _ Hd).
  rewrite disk_in_idle by done. fold st_idle.
  destruct (intr_rest_eq b i0 u st_idle) as [m E].
  - split; [rewrite idle_hart; by apply idle_stable|]. intros q _. rewrite idle_p. case_decide; [exact (Hul p (fun F => F))|exact (Hul q (fun F => F))].
  - rewrite idle_dsk. exact (id_lock _ Hd).
  - rewrite idle_dsk. exact (id_range _ Hd).
  - rewrite idle_dsk. cbn. by rewrite (id_used _ Hd).
  - rewrite idle_dsk. exact Hu.
  - rewrite idle_dsk. cbn. apply vlookup_insert.
  - rewrite idle_dsk. cbn. apply vlookup_insert.
  - rewrite idle_dsk. cbn. apply vlookup_insert.
  - exists m. rewrite E. cbn [obind]. rewrite update_hart. change (pv ?x) with (b_p x). by rewrite done_hart, idle_hart.
Qed.

(** Awake again, the process goes on from here. *)
Definition st_back (m : list (Z * Z)) : bst vdisk :=
  put b_p_l (put_proc p (pproc s.(b_p) p) (put the_hart h (st_woken m).(b_p))) (st_woken m).

Lemma woken_p m q :
  pproc (st_woken m).(b_p) q =
  wake (chDiskBuf b) (if decide (p = q) then with_state SLEEPING (with_chan (chDiskBuf b) (pproc s.(b_p) p)) else pproc s.(b_p) q).
Proof.
  unfold st_woken. rewrite bp_put, pproc_hart, done_p, pproc_map, decide_True by apply elem_all_procs.
  unfold wake_other. rewrite idle_hart, decide_False by done. by rewrite idle_p.
Qed.

Lemma woken_rest m : put the_hart h (st_woken m).(b_p) = put procs_l (st_woken m).(b_p).(procs) s.(b_p).
Proof.
  unfold st_woken. change (b_p (put b_p_l ?t _)) with t. unfold intr_done. change (b_p (put_buf _ _ (put_dp _ ?t _))) with t.
  unfold st_idle. change (b_p (put b_p_l ?t _)) with t. unfold st_served. rewrite served_p.
  unfold dozing. change (pv st_posted) with (b_p s). change (b_p (put the_pst ?t _)) with t.
  generalize (b_p s). intros [[] ? ? ? ? ? ? ? ? ?]. reflexivity.
Qed.

Lemma back_wakes m : thread p s.(b_p) -> wakes s.(b_p) (st_back m).(b_p).
Proof.
  intros Ht. unfold st_back. change (b_p (put b_p_l ?t _)) with t. rewrite woken_rest. split.
  { by destruct (b_p s). }
  intros q. destruct (decide (p = q)) as [<-|Hne]; [left; apply pproc_put|].
  rewrite pproc_put_ne by done. change (pproc (put procs_l ?v _) q) with (v !!! q).
  change (procs (b_p (st_woken m)) !!! q) with (pproc (b_p (st_woken m)) q). rewrite woken_p, decide_False by done.
  unfold wake. case_decide as E; [|by left]. right. split; [tauto|]. split; [|done].
  rewrite (proj2 (th_run _ _ Ht)). congruence.
Qed.

(** The disk at that point, and the buffer. *)
Definition back_d (m : list (Z * Z)) : vdisk :=
  let d := s.(b_dsk) in let e := posted b write n i0 i1 i2 j d in
  Vdisk d.(v_pages) e.(v_desc) e.(avail_idx) e.(avail_ring) (u16 (d.(dev_used_idx) + 1)) (vinsert u (dnum i0) d.(used_ring))
    e.(v_free) (u16 (d.(dev_used_idx) + 1)) e.(info_b) (vinsert i0 0 e.(info_status)) e.(v_ops) d.(vdisk_lock) m
    (u16 (d.(dev_avail_idx) + 1)) (if write then <[n := (bbuf s b).(b_data)]> d.(v_blocks) else d.(v_blocks))
    (if write then d.(v_writes) ++ [(n, (bbuf s b).(b_data))] else d.(v_writes)).
Definition rw_buf : buf := with_b_disk 0 (if write then bbuf s b else with_b_data (v_get s.(b_dsk) n) (bbuf s b)).

Lemma vbuf_put i x (z : bst vdisk) : bbuf (put_buf i x z) i = x.
Proof. unfold bbuf. cbn. apply vlookup_insert. Qed.

Lemma disk_back_eq m : st_back m = put_dp (back_d m) (st_back m).(b_p) (put_buf b rw_buf s).
Proof.
  assert (Eb : bbuf (dozing p (chDiskBuf b) st_posted) b = with_b_disk 1 (bbuf s b)) by exact (vbuf_put b _ _).
  assert (Ei : bufs st_served = vinsert b (with_b_disk 1 (if write then bbuf s b else with_b_data (v_get s.(b_dsk) n) (bbuf s b))) (bufs s)).
  { unfold st_served, served. rewrite Eb. unfold st_posted. destruct write; [done|]. exact (put_put (l := vec_l b) _ _ _). }
  assert (Ew : bufs (st_woken m) = bufs (put_buf b rw_buf s)).
  { change (bufs (st_woken m)) with (vinsert b (with_b_disk 0 (bufs st_served !!! b)) (bufs st_served)). rewrite Ei, vlookup_insert.
    exact (put_put (l := vec_l b) _ _ _). }
  assert (Ed : b_dsk (st_woken m) = back_d m).
  { unfold st_woken, intr_done, back_d, st_idle, st_served, served. rewrite Eb. unfold st_posted. by destruct write. }
  unfold st_back. change (b_p (put b_p_l ?t _)) with t. set (t := put_proc _ _ _). clearbody t. unfold put_dp.
  transitivity (Bst t (bc_lock s) (bufs (st_woken m)) (head_prev s) (head_next s) (b_dsk (st_woken m))); [|by rewrite Ew, Ed].
  unfold st_woken, intr_done, st_idle, st_served, served. by destruct write.
Qed.

Lemma back_disk m : b_disk (bbuf (st_back m) b) = 0.
Proof. rewrite disk_back_eq. change (bbuf (put_dp _ _ ?z) b) with (bbuf z b). by rewrite vbuf_put. Qed.

Lemma finish_posted m :
  NoDup [i0; i1; i2] -> running p (b_p (st_back m)) -> lock_free s.(b_dsk).(vdisk_lock) ->
  exists t, wakes (b_p (st_back m)) t /\
    (set (vd (lcomp info_b_l (vec_l i0))) None ;; free_chain (dnum i0) ;; release vlock) (in_lock vlock (st_back m)) =
    Ok tt (put_dp (finished i0 i1 i2 (back_d m)) t (put_buf b rw_buf s)).
Proof.
  intros Hnd Hr Hl. assert (Ed : b_dsk (st_back m) = back_d m) by by rewrite disk_back_eq. destruct (NoDup_3 _ _ _ Hnd) as (N1 & N2 & N3).
  destruct (finish_eq b write i0 i1 i2 p (st_back m)) as (t & Hw & Ef); [exact Hr|by rewrite Ed|exact Hnd|rewrite Ed; cbn..|].
  - by rewrite !vlookup_insert_ne, vlookup_insert by congruence.
  - by rewrite vlookup_insert_ne, vlookup_insert by congruence.
  - apply vlookup_insert.
  - by rewrite !vlookup_insert_ne, vlookup_insert by congruence.
  - by rewrite vlookup_insert_ne, vlookup_insert by congruence.
  - apply vlookup_insert.
  - exists t. split; [done|]. rewrite Ef, Ed. f_equal. rewrite (disk_back_eq m). generalize (b_p (st_back m)), (back_d m). reflexivity.
Qed.

Lemma run_eq k :
  thread p s.(b_p) -> idle s.(b_dsk) -> in_disk n -> (write = true -> length (bbuf s b).(b_data) = 1024%nat) ->
  patience = Datatypes.S k -> free_list s.(b_dsk).(v_free) = i0 :: i1 :: i2 :: drop 3 all_descs ->
  s.(b_dsk).(avail_idx) mod NUM = dnum j -> s.(b_dsk).(used_idx) mod NUM = dnum u ->
  exists m t, with_turn p disk_env (virtio_disk_rw b write) s = Ok tt (put_dp (finished i0 i1 i2 (back_d m)) t (put_buf b rw_buf s)) /\
    wakes s.(b_p) t.
Proof.
  intros Ht Hd Hn Hlen Hk Hf Hj Hu. 
  assert (Hnd : NoDup [i0; i1; i2]).
  { pose proof (free_list_nodup (v_free (b_dsk s))) as E. rewrite Hf in E. by apply (NoDup_app [i0; i1; i2]) in E as [E _]. }
  destruct (env_eq Ht Hd Hn Hlen Hnd Hj Hu) as [m Em]. assert (Ht' : thread p (pv st_posted)) by exact Ht.
  destruct (nap_eq vlock p (chDiskBuf b) disk_env st_posted (st_woken m) Ht' (id_lock _ Hd) Em) as (s1 & k1 & s2 & k2 & E1 & E2 & E3).
  { done. }
  { change (pv (st_woken m)) with (b_p (st_woken m)). rewrite woken_p, decide_True by done. unfold wake. by rewrite decide_True. }
  { exact (id_lock _ Hd). }
  change (put the_pst _ (st_woken m)) with (st_back m) in E3.
  assert (Ed : b_dsk (st_back m) = back_d m) by by rewrite disk_back_eq.
  assert (Hr : running p (b_p (st_back m))) by exact (running_wakes p _ _ (back_wakes m Ht) (th_run _ _ Ht)).
  destruct (finish_posted m Hnd Hr (id_lock _ Hd)) as (t & Hw & Ef). exists m, t.
  split; [|exact (wakes_trans _ _ _ (back_wakes m Ht) Hw)].
  unfold with_turn. rewrite (post_eq b write s i0 i1 i2 _ j (id_lock _ Hd) Hf Hj). unfold rw_rest. fold st_posted.
  rewrite Hk. cbn [bind]. rewrite loop_S. unfold disk_wait at 1. cbn [bind get gets obind].
  rewrite (view_in vlock (buf_l b)). change (view (buf_l b) st_posted) with (bbuf st_posted b). unfold st_posted at 1.
  rewrite vbuf_put. cbn [b_disk with_b_disk Z.eqb Pos.eqb bind]. rewrite E1. cbn [obind]. rewrite E2, E3.
  cbn [obind ret]. rewrite loop_S. unfold disk_wait at 1. cbn [bind get gets obind].
  rewrite (view_in vlock (buf_l b)). change (view (buf_l b) (st_back m)) with (bbuf (st_back m) b).
  rewrite back_disk. cbn [Z.eqb ret obind]. exact Ef.
Qed.
End States.

Lemma finished_idle b write i0 i1 i2 j u s m :
  idle s.(b_dsk) -> (write = true -> length (bbuf s b).(b_data) = 1024%nat) ->
  idle (finished i0 i1 i2 (back_d b write i0 i1 i2 j u s m)).
Proof.
  intros Hd Hlen. split; cbn.
  - exact (id_lock _ Hd).
  - intros k. destruct (decide (k = i2)) as [->|N2]; [by rewrite vlookup_insert|]. rewrite vlookup_insert_ne by done.
    destruct (decide (k = i1)) as [->|N1]; [by rewrite vlookup_insert|]. rewrite vlookup_insert_ne by done.
    destruct (decide (k = i0)) as [->|N0]; [by rewrite vlookup_insert|]. rewrite !vlookup_insert_ne by done. apply (id_free _ Hd).
  - by rewrite (id_avail _ Hd).
  - done.
  - unfold u16. apply Z.mod_pos_bound. lia.
  - intros n. destruct write; [|apply (id_blocks _ Hd)]. unfold v_get. cbn.
    destruct (decide (b_blockno (bbuf s b) = n)) as [->|Hne].
    + rewrite lookup_insert_eq. by apply Hlen.
    + rewrite lookup_insert_ne by done. apply (id_blocks _ Hd).
Qed.

(** The driver, the device and the scheduler run a request to its end. *)
Lemma disk_run_ok p b (write : bool) s :
  thread p s.(b_p) -> idle s.(b_dsk) -> in_disk (bbuf s b).(b_blockno) -> (write = true -> length (bbuf s b).(b_data) = 1024%nat) ->
  (1 <= patience)%nat ->
  exists d t, disk_rw_run b write s = Ok tt (put_dp d t (put_buf b (rw_buf b write s) s)) /\
    wakes s.(b_p) t /\ idle d /\
    (forall n, v_get d n = if write then if decide (n = (bbuf s b).(b_blockno)) then (bbuf s b).(b_data) else v_get s.(b_dsk) n
                           else v_get s.(b_dsk) n) /\
    d.(v_writes) = s.(b_dsk).(v_writes) ++ (if write then [((bbuf s b).(b_blockno), (bbuf s b).(b_data))] else []).
Proof.
  intros Ht Hd Hn Hlen Hpat. destruct (avail_slot (avail_idx (b_dsk s))) as [j Hj], (avail_slot (used_idx (b_dsk s))) as [u Hu].
  unfold disk_rw_run. rewrite (proj2 (th_run _ _ Ht)). destruct patience as [|k] eqn:Hk; [lia|].
  destruct (run_eq p b write 0%fin 1%fin 2%fin j u s k Ht Hd Hn Hlen Hk (idle_free_list _ Hd) Hj Hu) as (m & t & E & Hw).
  eexists _, t. split; [exact E|]. split; [done|]. split; [by apply finished_idle|]. split.
  - intros n. unfold v_get. cbn. destruct write; [|done]. case_decide as En.
    + subst n. by rewrite lookup_insert_eq.
    + by rewrite lookup_insert_ne by congruence.
  - cbn. destruct write; [done|]. by rewrite app_nil_r.
Qed.

(** So it is the disk that the buffer cache relies on. *)
Definition disk_machine : DiskDriver vdisk := disk_rw_run.


Program Definition machine_laws (Hpat : (1 <= patience)%nat) : @DiskLaws vdisk disk_machine := {|
  blocks := v_get;
  writes := v_writes;
  disk_ok := idle
|}.
Next Obligation. intros _ d n Hd. exact (id_blocks _ Hd n). Qed.
Next Obligation.
  intros Hpat p i s Ht Hd Hn. destruct (disk_run_ok p i false s Ht Hd Hn) as (d & t & E & Hw & Hd' & Hb & Hv); [done|done|].
  exists d, t. rewrite app_nil_r in Hv. done.
Qed.
Next Obligation.
  intros Hpat p i s Ht Hd Hn Hlen. destruct (disk_run_ok p i true s Ht Hd Hn) as (d & t & E & Hw & Hd' & Hb & Hv); [done|done|].
  exists d, t. done.
Qed.
End Run.

(** ** Properties *)

(** C15: the disk driver of virtio_disk.c does what the buffer cache relies on,
    when it runs with a device that follows the virtio specification and with
    the scheduler: from an idle disk a request returns, with the process,
    its hart and the driver's lock as they were.  A read leaves the bytes of the
    block in the buffer; a write is on the disk, as the last write that reached
    it; no other block changes, the buffer is no longer owned by the disk, the
    descriptors are free again and no process but sleepers that were woken up
    has changed. *)
Theorem virtio_disk_rw_spec `{VirtioMmio} `{Patience} `{VirtioDevice} p b (write : bool) (s : bst vdisk) :
  (1 <= patience)%nat -> thread p s.(b_p) -> idle s.(b_dsk) -> in_disk (bbuf s b).(b_blockno) ->
  (write = true -> length (bbuf s b).(b_data) = 1024%nat) ->
  exists d t, disk_rw_run b write s =
      Ok tt (put_dp d t (put_buf b (with_b_disk 0 (if write then bbuf s b
        else with_b_data (v_get s.(b_dsk) (bbuf s b).(b_blockno)) (bbuf s b))) s)) /\
    wakes s.(b_p) t /\ idle d /\
    (forall n, v_get d n = if write then if decide (n = (bbuf s b).(b_blockno)) then (bbuf s b).(b_data) else v_get s.(b_dsk) n
                           else v_get s.(b_dsk) n) /\
    d.(v_writes) = s.(b_dsk).(v_writes) ++ (if write then [((bbuf s b).(b_blockno), (bbuf s b).(b_data))] else []).
Proof. intros. by apply (disk_run_ok p). Qed.

(** ** A device *)

(** Serves the next request of the available ring. *)
Definition demo_dev (s : bst vdisk) : bst vdisk :=
  let d := s.(b_dsk) in
  if d.(avail_idx) =? d.(dev_avail_idx) then s
  else default s (
    j ← idx8 (d.(dev_avail_idx) mod NUM); i0 ← idx8 (d.(avail_ring) !!! j);
    i1 ← idx8 (d.(v_desc) !!! i0).(d_next); u ← idx8 (d.(dev_used_idx) mod NUM);
    match (d.(v_desc) !!! i1).(d_addr) with
    | DData b => Some (served b ((d.(v_ops) !!! i0).(r_type) =? VIRTIO_BLK_T_OUT) ((d.(v_ops) !!! i0).(r_sector) / 2) i0 u s)
    | _ => None
    end).

#[export] Program Instance demo_device : VirtioDevice := {| dev_run := demo_dev |}.
Next Obligation.
  intros b write n i0 i1 i2 u s [Hi Hr Hh Hda _ Hq] Hn _ Hu. unfold demo_dev.
  rewrite (proj2 (Z.eqb_neq _ _)).
  2: { rewrite Hi. unfold u16. Z.to_euclidean_division_equations; lia. }
  destruct (avail_slot (dev_avail_idx (b_dsk s))) as [j Hj]. rewrite Hj, idx8_num. cbn. rewrite (Hr j Hj), idx8_num. cbn.
  rewrite Hh. cbn. rewrite idx8_num. cbn. rewrite Hu, idx8_num. cbn. rewrite Hda, Hq. cbn.
  replace (2 * n / 2) with n by (rewrite Z.mul_comm, Z.div_mul; lia). by destruct write.
Qed.

#[local] Instance demo_mmio : VirtioMmio := fun _ _ => 0.
#[local] Instance demo_patience : Patience := 1%nat.

Definition demo_vdisk : vdisk :=
  Vdisk (0, 0, 0) (vreplicate 8 desc0) 0xffff (vreplicate 8 0) 0xffff (vreplicate 8 0) (vreplicate 8 1) 0xffff
    (vreplicate 8 None) (vreplicate 8 0) (vreplicate 8 (Req 0 0 0)) (initlock "virtio_disk") [] 0xffff
    {[ 5 := 7 :: replicate 1023 0 ]} [].
Definition demo_vst : bst vdisk := Bst demo_run (initlock "bcache") (vreplicate 30 (with_b_blockno 5 buf0)) Head Head demo_vdisk.

Lemma demo_idle : idle demo_vdisk.
Proof.
  split; try done.
  - intros i. change (v_free demo_vdisk) with (vreplicate 8 1). by rewrite vlookup_replicate.
  - intros n. unfold v_get, demo_vdisk. cbn [v_blocks]. destruct (decide (n = 5)) as [->|Hne].
    + by rewrite lookup_singleton_eq.
    + rewrite lookup_singleton_ne by congruence. exact length_zblock.
Qed.

(** A read of block 5, with the ring indices about to wrap around. *)
Lemma virtio_disk_rw_spec_witness :
  exists d t, disk_rw_run 3%fin false demo_vst =
    Ok tt (put_dp d t (put_buf 3%fin (with_b_disk 0 (with_b_data (7 :: replicate 1023 0) (with_b_blockno 5 buf0))) demo_vst)) /\ idle d.
Proof.
  destruct (virtio_disk_rw_spec 2%fin 3%fin false demo_vst (le_n 1) demo_run_thread demo_idle) as (d & t & E & _ & Hd & _).
  - unfold in_disk. split; [done|]. reflexivity.
  - discriminate.
  - exists d, t. split; [exact E|exact Hd].
Defined.
