(* ===== verification/Block.v ===== *)
(** * Integers inside a block

    A buffer's bytes read and written through a C struct or an array of
    integers: little-endian fields at byte offsets. *)

From S2P Require Import Prelude Riscv Memory.

(** The [w]-byte unsigned integer at offset [off] of [l]. *)
Definition get_le (w : nat) (l : list Z) (off : nat) : Z := le_val (take w (drop off l)).

(** [l] with that integer replaced. *)
Definition put_le (w : nat) (off : nat) (v : Z) (l : list Z) : list Z :=
  take off l ++ le_bytes w v ++ drop (off + w) l.

(** [l] with the bytes [bs] at offset [off]. *)
Definition put_at (off : nat) (bs l : list Z) : list Z :=
  take off l ++ bs ++ drop (off + length bs) l.

Lemma put_le_at w off v l : put_le w off v l = put_at off (le_bytes w v) l.
Proof. unfold put_le, put_at. by rewrite length_le_bytes. Qed.

Lemma length_put_at off bs l : (off + length bs <= length l)%nat -> length (put_at off bs l) = length l.
Proof. intros H. unfold put_at. rewrite !length_app, length_take, length_drop. lia. Qed.

Lemma length_put_le w off v l : (off + w <= length l)%nat -> length (put_le w off v l) = length l.
Proof. intros H. rewrite put_le_at. apply length_put_at. by rewrite length_le_bytes. Qed.

Lemma lookup_put_at off bs l i :
  (off + length bs <= length l)%nat ->
  put_at off bs l !! i =
  if decide (off <= i < off + length bs)%nat then bs !! (i - off)%nat else l !! i.
Proof.
  intros H. unfold put_at. case_decide as Hi.
  - rewrite lookup_app_r by (rewrite length_take; lia). rewrite length_take, Nat.min_l by lia.
    by rewrite lookup_app_l by lia.
  - destruct (decide (i < off)%nat).
    + rewrite lookup_app_l by (rewrite length_take; lia). by rewrite lookup_take_lt.
    + rewrite !lookup_app_r by (rewrite ?length_take, ?Nat.min_l by lia; lia).
      rewrite lookup_drop, length_take, Nat.min_l by lia. f_equal. lia.
Qed.

Lemma take_drop_put_at off bs l :
  (off + length bs <= length l)%nat -> take (length bs) (drop off (put_at off bs l)) = bs.
Proof.
  intros H. unfold put_at. rewrite drop_app_length' by (rewrite length_take; lia).
  by rewrite take_app_length.
Qed.

Lemma take_drop_put_at_ne off bs l o n :
  (off + length bs <= length l)%nat -> (o + n <= off \/ off + length bs <= o)%nat ->
  take n (drop o (put_at off bs l)) = take n (drop o l).
Proof.
  intros H Hd. apply list_eq. intros i. rewrite !lookup_take. case_decide; [|done].
  rewrite !lookup_drop, lookup_put_at by done. by rewrite decide_False by lia.
Qed.

Lemma take_drop_put_le_ne w off v l o n :
  (off + w <= length l)%nat -> (o + n <= off \/ off + w <= o)%nat ->
  take n (drop o (put_le w off v l)) = take n (drop o l).
Proof. intros H Hd. rewrite put_le_at. apply take_drop_put_at_ne; by rewrite length_le_bytes. Qed.

Lemma get_put_le w off v l :
  (off + w <= length l)%nat -> get_le w (put_le w off v l) off = v mod 256 ^ Z.of_nat w.
Proof.
  intros H. unfold get_le. rewrite put_le_at, <- le_val_le_bytes. f_equal.
  rewrite <- (length_le_bytes w v) at 1. apply take_drop_put_at. by rewrite length_le_bytes.
Qed.

Lemma get_put_le_ne w w' off o v l :
  (off + w <= length l)%nat -> (o + w' <= off \/ off + w <= o)%nat ->
  get_le w' (put_le w off v l) o = get_le w' l o.
Proof.
  intros H Hd. unfold get_le. rewrite put_le_at. f_equal. apply take_drop_put_at_ne; by rewrite length_le_bytes.
Qed.
