(* ===== verification/Log.v ===== *)
(** * The write-ahead log (kernel/log.c)

    The state of the log over that of the buffer cache.  [begin_op] may wait
    any number of times; its loop is bounded by [patience]. *)

From S2P Require Import Prelude Riscv Memory Spinlock Kalloc Vm Tty Proc ProcSpec Sleeplock Bio Block.

(** [struct log], with the fields of its header [lh]. *)
Record lgst (D : Type) := Lgst {
  l_b : bst D;
  lg_lock : spinlock;
  lg_start : Z;
  lg_size : Z;
  lg_outstanding : Z;
  lg_committing : Z;
  lg_dev : Z;
  lh_n : Z;
  lh_block : list Z
}.
Arguments Lgst {D}.
Arguments l_b {D}.
Arguments lg_lock {D}.
Arguments lg_start {D}.
Arguments lg_size {D}.
Arguments lg_outstanding {D}.
Arguments lg_committing {D}.
Arguments lg_dev {D}.
Arguments lh_n {D}.
Arguments lh_block {D}.

Section Lenses.
Context {D : Type}.
Definition l_b_l : lens (lgst D) (bst D) := Lens l_b
  (fun x s => Lgst x s.(lg_lock) s.(lg_start) s.(lg_size) s.(lg_outstanding) s.(lg_committing)
                   s.(lg_dev) s.(lh_n) s.(lh_block)).
Definition lg_lock_l : lens (lgst D) spinlock := Lens lg_lock
  (fun x s => Lgst s.(l_b) x s.(lg_start) s.(lg_size) s.(lg_outstanding) s.(lg_committing)
                   s.(lg_dev) s.(lh_n) s.(lh_block)).
Definition lg_start_l : lens (lgst D) Z := Lens lg_start
  (fun x s => Lgst s.(l_b) s.(lg_lock) x s.(lg_size) s.(lg_outstanding) s.(lg_committing)
                   s.(lg_dev) s.(lh_n) s.(lh_block)).
Definition lg_size_l : lens (lgst D) Z := Lens lg_size
  (fun x s => Lgst s.(l_b) s.(lg_lock) s.(lg_start) x s.(lg_outstanding) s.(lg_committing)
                   s.(lg_dev) s.(lh_n) s.(lh_block)).
Definition lg_outstanding_l : lens (lgst D) Z := Lens lg_outstanding
  (fun x s => Lgst s.(l_b) s.(lg_lock) s.(lg_start) s.(lg_size) x s.(lg_committing)
                   s.(lg_dev) s.(lh_n) s.(lh_block)).
Definition lg_committing_l : lens (lgst D) Z := Lens lg_committing
  (fun x s => Lgst s.(l_b) s.(lg_lock) s.(lg_start) s.(lg_size) s.(lg_outstanding) x
                   s.(lg_dev) s.(lh_n) s.(lh_block)).
Definition lg_dev_l : lens (lgst D) Z := Lens lg_dev
  (fun x s => Lgst s.(l_b) s.(lg_lock) s.(lg_start) s.(lg_size) s.(lg_outstanding) s.(lg_committing)
                   x s.(lh_n) s.(lh_block)).
Definition lh_n_l : lens (lgst D) Z := Lens lh_n
  (fun x s => Lgst s.(l_b) s.(lg_lock) s.(lg_start) s.(lg_size) s.(lg_outstanding) s.(lg_committing)
                   s.(lg_dev) x s.(lh_block)).
Definition lh_block_l : lens (lgst D) (list Z) := Lens lh_block
  (fun x s => Lgst s.(l_b) s.(lg_lock) s.(lg_start) s.(lg_size) s.(lg_outstanding) s.(lg_committing)
                   s.(lg_dev) s.(lh_n) x).
#[export] Instance l_b_laws : LensLaws l_b_l.
Proof. by split; intros; destruct s. Qed.
#[export] Instance lg_lock_laws : LensLaws lg_lock_l.
Proof. by split; intros; destruct s. Qed.
#[export] Instance lgst_HasProcs : HasProcs (lgst D) := lcomp l_b_l b_p_l.
#[export] Instance lgst_pst_laws : LensLaws (the_pst (S := lgst D)).
Proof. unfold the_pst, lgst_HasProcs. apply _. Qed.
#[export] Instance lgst_b_lock : LensDisjoint l_b_l lg_lock_l.
Proof. by split. Qed.
#[export] Instance lgst_pst_lock : LensDisjoint (the_pst (S := lgst D)) lg_lock_l.
Proof. unfold the_pst, lgst_HasProcs. apply _. Qed.
End Lenses.

Section Log.
Context {D : Type} `{DiskDriver D} `{Patience}.

(** [log.lh.block[i]] *)
Definition get_block (i : Z) : M (lgst D) Z :=
  l <- get lh_block_l ;;
  match l !! Z.to_nat i with
  | Some b => if 0 <=? i then ret b else undefined
  | None => undefined
  end.
Definition set_block (i b : Z) : M (lgst D) unit :=
  l <- get lh_block_l ;;
  if (0 <=? i) && (i <? Z.of_nat (length l)) then set lh_block_l (<[Z.to_nat i := b]> l) else undefined.

(** [b->data] *)
Definition get_data (b : fin 30) : M (bst D) (list Z) := x <- get (buf_l b) ;; ret x.(b_data).
Definition set_data (b : fin 30) (d : list Z) : M (bst D) unit := update (buf_l b) (with_b_data d).

(** [memmove(dst->data, src->data, BSIZE)] *)
Definition copy_data (dst src : fin 30) : M (bst D) unit := d <- get_data src ;; set_data dst d.

(** ** Installing and recovering *)

Definition install_one (recovering dev start tail : Z) : M (lgst D) unit :=
  lbuf <- zoom l_b_l (bread dev (u32 (start + tail + 1))) ;;
  b <- get_block tail ;;
  dbuf <- zoom l_b_l (bread dev (u32 b)) ;;
  zoom l_b_l (copy_data dbuf lbuf) ;;
  zoom l_b_l (bwrite dbuf) ;;
  (if recovering =? 0 then zoom l_b_l (bunpin dbuf) else ret tt) ;;
  zoom l_b_l (brelse lbuf) ;;
  zoom l_b_l (brelse dbuf).

Definition install_trans (recovering : Z) : M (lgst D) unit :=
  n <- get lh_n_l ;;
  dev <- get lg_dev_l ;;
  start <- get lg_start_l ;;
  iterM (seqZ 0 n) (install_one recovering dev start).

(** [lh->n] and [lh->block[i]] of a header block. *)
Definition head_n (d : list Z) : Z := s32 (get_le 4 d 0).
Definition head_block (d : list Z) (i : Z) : Z := s32 (get_le 4 d (Z.to_nat (4 + 4 * i))).

Definition read_head : M (lgst D) unit :=
  dev <- get lg_dev_l ;;
  start <- get lg_start_l ;;
  buf <- zoom l_b_l (bread dev (u32 start)) ;;
  d <- zoom l_b_l (get_data buf) ;;
  set lh_n_l (head_n d) ;;
  iterM (seqZ 0 (head_n d)) (fun i => set_block i (head_block d i)) ;;
  zoom l_b_l (brelse buf).

Definition write_head : M (lgst D) unit :=
  dev <- get lg_dev_l ;;
  start <- get lg_start_l ;;
  buf <- zoom l_b_l (bread dev (u32 start)) ;;
  n <- get lh_n_l ;;
  zoom l_b_l (update (buf_l buf) (fun x => with_b_data (put_le 4 0 n x.(b_data)) x)) ;;
  iterM (seqZ 0 n) (fun i =>
    b <- get_block i ;;
    zoom l_b_l (update (buf_l buf) (fun x =>
      with_b_data (put_le 4 (Z.to_nat (4 + 4 * i)) b x.(b_data)) x))) ;;
  zoom l_b_l (bwrite buf) ;;
  zoom l_b_l (brelse buf).

Definition recover_from_log : M (lgst D) unit :=
  read_head ;;
  install_trans 1 ;;
  set lh_n_l 0 ;;
  write_head.

Definition initlog (dev logstart nlog : Z) : M (lgst D) unit :=
  if 4 + 4 * LOGSIZE >=? BSIZE then panic "initlog: too big logheader"
  else
    set lg_lock_l (initlock "log") ;;
    set lg_start_l (s32 logstart) ;;
    set lg_size_l (s32 nlog) ;;
    set lg_dev_l dev ;;
    recover_from_log.

(** ** System calls *)

Definition begin_op_body (_ : unit) : M (lgst D) (unit + unit) :=
  c <- get lg_committing_l ;;
  if nz c then
    sleep chLog lg_lock_l ;;
    ret (inl tt)
  else
    n <- get lh_n_l ;;
    o <- get lg_outstanding_l ;;
    if n + (o + 1) * MAXOPBLOCKS >? LOGSIZE then
      sleep chLog lg_lock_l ;;
      ret (inl tt)
    else
      update lg_outstanding_l (fun x => s32 (x + 1)) ;;
      release lg_lock_l ;;
      ret (inr tt).

Definition begin_op : M (lgst D) unit :=
  acquire lg_lock_l ;;
  loop (Datatypes.S patience) begin_op_body tt.

Definition write_log_one (dev start tail : Z) : M (lgst D) unit :=
  to <- zoom l_b_l (bread dev (u32 (start + tail + 1))) ;;
  b <- get_block tail ;;
  from <- zoom l_b_l (bread dev (u32 b)) ;;
  zoom l_b_l (copy_data to from) ;;
  zoom l_b_l (bwrite to) ;;
  zoom l_b_l (brelse from) ;;
  zoom l_b_l (brelse to).

Definition write_log : M (lgst D) unit :=
  n <- get lh_n_l ;;
  dev <- get lg_dev_l ;;
  start <- get lg_start_l ;;
  iterM (seqZ 0 n) (write_log_one dev start).

Definition commit : M (lgst D) unit :=
  n <- get lh_n_l ;;
  if n >? 0 then
    write_log ;;
    write_head ;;
    install_trans 0 ;;
    set lh_n_l 0 ;;
    write_head
  else ret tt.

Definition end_op : M (lgst D) unit :=
  acquire lg_lock_l ;;
  update lg_outstanding_l (fun x => s32 (x - 1)) ;;
  c <- get lg_committing_l ;;
  if nz c then panic "log.committing"
  else
    o <- get lg_outstanding_l ;;
    do_commit <- (if o =? 0 then
                    set lg_committing_l 1 ;;
                    ret true
                  else
                    zoom the_pst (wakeup chLog) ;;
                    ret false) ;;
    release lg_lock_l ;;
    if do_commit : bool then
      commit ;;
      acquire lg_lock_l ;;
      set lg_committing_l 0 ;;
      zoom the_pst (wakeup chLog) ;;
      release lg_lock_l
    else ret tt.

(** The first [i < n] with [log.lh.block[i] == blockno], [n] if there is
    none. *)
Definition log_find (n blockno : Z) : M (lgst D) Z :=
  r <- for_each (seqZ 0 n) (fun i =>
         b <- get_block i ;;
         ret (if u32 b =? blockno then Some i else None)) ;;
  ret (default n r).

Definition log_write (b : fin 30) : M (lgst D) unit :=
  acquire lg_lock_l ;;
  n <- get lh_n_l ;;
  size <- get lg_size_l ;;
  if (n >=? LOGSIZE) || (n >=? size - 1) then panic "too big a transaction"
  else
    o <- get lg_outstanding_l ;;
    if o <? 1 then panic "log_write outside of trans"
    else
      x <- zoom l_b_l (get (buf_l b)) ;;
      i <- log_find n x.(b_blockno) ;;
      set_block i (s32 x.(b_blockno)) ;;
      (if i =? n then
         zoom l_b_l (bpin b) ;;
         update lh_n_l (fun n => s32 (n + 1))
       else ret tt) ;;
      release lg_lock_l.

End Log.
