(* ===== verification/LogCrash.v ===== *)
(** * Crashes of the log

    The disk as a function from block numbers to bytes, the writes a commit
    and a recovery make, and what a recovery leaves after a crash between any
    two of them.  Nothing here depends on the code: [LogSpec] shows that the
    code makes these writes. *)

From S2P Require Import Prelude Riscv Memory Spinlock Kalloc Vm Tty Proc ProcSpec Sleeplock Bio BioSpec Block Log.

(** ** Sequences of disk writes *)

Definition wr_disk (d : Z -> list Z) (w : Z * list Z) : Z -> list Z :=
  fun m => if decide (m = w.1) then w.2 else d m.

(** The disk [d] after the writes [ws], oldest first. *)
Definition apply_writes (d : Z -> list Z) (ws : list (Z * list Z)) : Z -> list Z := foldl wr_disk d ws.

Lemma apply_writes_app d ws1 ws2 m :
  apply_writes d (ws1 ++ ws2) m = apply_writes (apply_writes d ws1) ws2 m.
Proof. unfold apply_writes. by rewrite foldl_app. Qed.

Lemma apply_writes_cons d w ws m : apply_writes d (w :: ws) m = apply_writes (wr_disk d w) ws m.
Proof. done. Qed.

Lemma apply_writes_snoc d ws a x m :
  apply_writes d (ws ++ [(a, x)]) m = if decide (m = a) then x else apply_writes d ws m.
Proof. by rewrite apply_writes_app. Qed.

Lemma apply_writes_ext d d' ws m : (forall n, d n = d' n) -> apply_writes d ws m = apply_writes d' ws m.
Proof.
  revert d d'. induction ws as [|w ws IH]; intros d d' E; cbn; [done|]. apply IH. intros n. unfold wr_disk.
  by case_decide.
Qed.

Lemma apply_writes_out d ws m : m ∉ ws.*1 -> apply_writes d ws m = d m.
Proof.
  revert d. induction ws as [|w ws IH]; intros d Hm; cbn; [done|]. rewrite fmap_cons in Hm.
  unfold apply_writes in IH. rewrite IH by lelem. unfold wr_disk. rewrite decide_False by lelemc. done.
Qed.

(** Writes that agree with what a later write of the same block leaves. *)
Lemma apply_writes_in d d' ws m : m ∈ ws.*1 -> apply_writes d ws m = apply_writes d' ws m.
Proof.
  revert d d'. induction ws as [|w ws IH]; intros d d' Hm; [by apply elem_of_nil in Hm|].
  rewrite !apply_writes_cons. destruct (decide (m ∈ ws.*1)) as [Hin|Hout]; [by apply IH|].
  rewrite !apply_writes_out by done. rewrite fmap_cons in Hm. unfold wr_disk. rewrite !decide_True by lelem. done.
Qed.

(** Repeating a prefix of the writes changes nothing. *)
Lemma apply_writes_prefix d ws1 ws2 m :
  apply_writes (apply_writes d ws1) (ws1 ++ ws2) m = apply_writes d (ws1 ++ ws2) m.
Proof.
  destruct (decide (m ∈ (ws1 ++ ws2).*1)) as [Hin|Hout]; [by apply apply_writes_in|].
  rewrite !apply_writes_out; [done|exact Hout|rewrite fmap_app in Hout; lelem|exact Hout].
Qed.

(** ** The header block *)

(** The bytes of the header after [hb->n = n; hb->block[k] = bl[0]; ...]. *)
Fixpoint put_blocks (k : nat) (bl : list Z) (d : list Z) : list Z :=
  match bl with
  | [] => d
  | b :: bl' => put_blocks (Datatypes.S k) bl' (put_le 4 (4 + 4 * k) b d)
  end.

Definition head_bytes (bl : list Z) (d : list Z) : list Z :=
  put_blocks 0 bl (put_le 4 0 (Z.of_nat (length bl)) d).

Lemma length_put_blocks k bl d :
  (4 + 4 * (k + length bl) <= length d)%nat -> length (put_blocks k bl d) = length d.
Proof.
  revert k d. induction bl as [|b bl IH]; intros k d Hl; [done|]. cbn [put_blocks length] in *.
  rewrite IH; rewrite length_put_le; lia.
Qed.

Lemma length_head_bytes bl d : (4 + 4 * length bl <= length d)%nat -> length (head_bytes bl d) = length d.
Proof.
  intros Hl. unfold head_bytes. rewrite length_put_blocks; rewrite length_put_le; lia.
Qed.

Lemma get_put_blocks_before k bl d o :
  (4 + 4 * (k + length bl) <= length d)%nat -> (o + 4 <= 4 + 4 * k)%nat ->
  get_le 4 (put_blocks k bl d) o = get_le 4 d o.
Proof.
  revert k d. induction bl as [|b bl IH]; intros k d Hl Ho; [done|]. cbn [put_blocks length] in *.
  rewrite IH by (rewrite ?length_put_le; lia). apply get_put_le_ne; lia.
Qed.

Lemma get_put_blocks k bl d i b :
  (4 + 4 * (k + length bl) <= length d)%nat -> bl !! i = Some b ->
  get_le 4 (put_blocks k bl d) (4 + 4 * (k + i)) = b mod 256 ^ 4.
Proof.
  revert k d i. induction bl as [|b0 bl IH]; intros k d i Hl Hi; [done|]. cbn [put_blocks length] in *.
  destruct i as [|i].
  - injection Hi as ->. rewrite Nat.add_0_r.
    rewrite get_put_blocks_before by (rewrite ?length_put_le; lia). apply get_put_le. lia.
  - replace (k + Datatypes.S i)%nat with (Datatypes.S k + i)%nat by lia.
    apply IH; [rewrite length_put_le; lia|done].
Qed.

Lemma s32_mod n : s32 (n mod 256 ^ 4) = s32 n.
Proof. unfold s32, signed. change (256 ^ 4) with (2 ^ 32). by rewrite Zmod_mod. Qed.

Lemma head_n_bytes bl d :
  (4 + 4 * length bl <= length d)%nat -> (length bl <= 30)%nat -> head_n (head_bytes bl d) = Z.of_nat (length bl).
Proof.
  intros Hl H30. unfold head_n, head_bytes. rewrite get_put_blocks_before by (rewrite ?length_put_le; lia).
  rewrite get_put_le by lia. rewrite s32_mod. apply s32_small. lia.
Qed.

Lemma head_block_bytes bl d i b :
  (4 + 4 * length bl <= length d)%nat -> bl !! i = Some b -> in_disk b ->
  head_block (head_bytes bl d) (Z.of_nat i) = b.
Proof.
  intros Hl Hi Hb. unfold head_block, head_bytes.
  replace (Z.to_nat (4 + 4 * Z.of_nat i)) with (4 + 4 * (0 + i))%nat by lia.
  rewrite (get_put_blocks 0 bl _ i b); [|rewrite length_put_le; lia|done].
  rewrite s32_mod. apply s32_small. unfold in_disk, FSSIZE in Hb. lia.
Qed.

(** Clearing the count keeps the rest of the header. *)
Lemma head_n_clear d : (4 <= length d)%nat -> head_n (put_le 4 0 0 d) = 0.
Proof. intros Hl. unfold head_n. by rewrite get_put_le by lia. Qed.

(** ** Commit and recovery as writes *)

Section Crash.
Context (start size : Z).
Implicit Types (d : Z -> list Z) (bl : list Z) (ds : list (list Z)).

Definition in_area (m : Z) : Prop := start <= m < start + size.

(** The blocks of the log from [a] on. *)
Definition log_writes (a : Z) ds : list (Z * list Z) := zip (seqZ a (Z.of_nat (length ds))) ds.

(** The blocks a header names, in order. *)
Definition head_list (h : list Z) : list Z := (head_block h) <$> seqZ 0 (head_n h).

(** What the installation of [bl] from the log area of [d] writes. *)
Definition install_writes d bl : list (Z * list Z) :=
  zip bl ((fun i => d (start + 1 + i)) <$> seqZ 0 (Z.of_nat (length bl))).

Definition recover_writes d : list (Z * list Z) :=
  install_writes d (head_list (d start)) ++ [(start, put_le 4 0 0 (d start))].

Definition recover_disk d : Z -> list Z := apply_writes d (recover_writes d).

Definition commit_writes d bl ds : list (Z * list Z) :=
  log_writes (start + 1) ds ++ [(start, head_bytes bl (d start))] ++ zip bl ds ++
  [(start, put_le 4 0 0 (head_bytes bl (d start)))].

(** A header whose blocks are data blocks on the disk, as many as fit. *)
Definition head_ok (h : list Z) : Prop :=
  length h = 1024%nat /\ 0 <= head_n h <= size - 1 /\
  forall i, 0 <= i < head_n h -> in_disk (head_block h i) /\ ~ in_area (head_block h i).

Lemma apply_writes_at d d' ws m : d m = d' m -> apply_writes d ws m = apply_writes d' ws m.
Proof.
  intros E. destruct (decide (m ∈ ws.*1)); [by apply apply_writes_in|]. by rewrite !apply_writes_out.
Qed.

Lemma prefix_app_or {A : Type} (l l1 l2 : list A) :
  l `prefix_of` l1 ++ l2 -> l `prefix_of` l1 \/ exists l', l = l1 ++ l' /\ l' `prefix_of` l2.
Proof.
  intros [k E]. symmetry in E. apply app_eq_app in E as (l' & [[-> ->]|[-> ->]]).
  - right. exists l'. split; [done|]. by eexists.
  - left. by eexists.
Qed.

Lemma zip_fst_subset {A B : Type} (l : list A) (k : list B) x : x ∈ (zip l k).*1 -> x ∈ l.
Proof. revert k. induction l as [|a l IH]; intros [|b k]; cbn; intros Hx; lelemc || (apply elem_of_cons in Hx as [->|Hx]; [lelem|]; apply IH in Hx; lelem). Qed.

Lemma prefix_fst {A B : Type} (l k : list (A * B)) x : l `prefix_of` k -> x ∈ l.*1 -> x ∈ k.*1.
Proof. intros [k' ->] Hx. rewrite fmap_app. lelem. Qed.

Lemma log_writes_fst a ds x : x ∈ (log_writes a ds).*1 -> a <= x < a + Z.of_nat (length ds).
Proof. intros Hx%zip_fst_subset. by apply elem_of_seqZ in Hx. Qed.

(** ** Reading the log back *)

Lemma log_writes_read d a ds i x :
  ds !! i = Some x -> apply_writes d (log_writes a ds) (a + Z.of_nat i) = x.
Proof.
  unfold log_writes. revert d a i. induction ds as [|y ds IH]; intros d a i Hi; [done|].
  cbn [length]. rewrite Nat2Z.inj_succ, seqZ_cons by lia.
  replace (Z.pred (Z.succ (Z.of_nat (length ds)))) with (Z.of_nat (length ds)) by lia.
  cbn [zip zip_with]. rewrite apply_writes_cons. destruct i as [|i].
  - injection Hi as <-. rewrite Z.add_0_r. rewrite apply_writes_out; [unfold wr_disk; by rewrite decide_True|].
    intros Hx%zip_fst_subset. apply elem_of_seqZ in Hx. lia.
  - replace (a + Z.of_nat (Datatypes.S i)) with (Z.succ a + Z.of_nat i) by lia. by apply IH.
Qed.

Lemma fmap_seqZ_lookup (f : Z -> list Z) ds :
  (forall i x, ds !! i = Some x -> f (Z.of_nat i) = x) -> f <$> seqZ 0 (Z.of_nat (length ds)) = ds.
Proof.
  intros Hf. apply list_eq. intros i. rewrite list_lookup_fmap. destruct (ds !! i) as [x|] eqn:E.
  - rewrite (proj2 (lookup_seqZ 0 (Z.of_nat (length ds)) i (Z.of_nat i))) by (apply lookup_lt_Some in E; lia).
    cbn. f_equal. by apply Hf.
  - rewrite lookup_seqZ_ge; [done|]. apply lookup_ge_None in E. lia.
Qed.

Lemma head_list_bytes bl h :
  length h = 1024%nat -> (length bl <= 30)%nat -> Forall in_disk bl -> head_list (head_bytes bl h) = bl.
Proof.
  intros Hl H30 Hd. unfold head_list. rewrite head_n_bytes by lia.
  apply list_eq. intros i. rewrite list_lookup_fmap. destruct (bl !! i) as [x|] eqn:E.
  - rewrite (proj2 (lookup_seqZ 0 (Z.of_nat (length bl)) i (Z.of_nat i))) by (apply lookup_lt_Some in E; lia).
    cbn. f_equal. apply head_block_bytes; [lia|done|]. by eapply Forall_lookup_1.
  - rewrite lookup_seqZ_ge; [done|]. apply lookup_ge_None in E. lia.
Qed.

(** ** Recovery *)

(** A disk whose log is empty stays as it is. *)
Lemma recover_empty d m : head_n (d start) = 0 -> m <> start -> recover_disk d m = d m.
Proof.
  intros Hn Hm. unfold recover_disk, recover_writes. rewrite apply_writes_snoc, decide_False by done.
  unfold head_list. by rewrite Hn.
Qed.

(** The data blocks of a disk that holds the transaction [bl], [ds] in its
    log. *)
Lemma recover_committed d bl ds m :
  head_list (d start) = bl -> length bl = length ds ->
  (forall i x, ds !! i = Some x -> d (start + 1 + Z.of_nat i) = x) -> m <> start ->
  recover_disk d m = apply_writes d (zip bl ds) m.
Proof.
  intros Hh Hl Hlog Hm. unfold recover_disk, recover_writes.
  rewrite apply_writes_snoc, decide_False by done. rewrite Hh. unfold install_writes.
  rewrite Hl, fmap_seqZ_lookup; done.
Qed.

Lemma install_writes_fst d bl x : x ∈ (install_writes d bl).*1 -> x ∈ bl.
Proof. apply zip_fst_subset. Qed.

Lemma head_list_out h x : head_ok h -> x ∈ head_list h -> in_disk x /\ ~ in_area x.
Proof.
  intros (_ & _ & Hh) (i & -> & Hi)%list_elem_of_fmap. apply elem_of_seqZ in Hi. apply Hh. lia.
Qed.

Lemma start_in_area : 2 <= size -> in_area start.
Proof. unfold in_area. lia. Qed.

Lemma head_ok_clear h : (4 <= length h)%nat -> length h = 1024%nat -> 2 <= size -> head_ok (put_le 4 0 0 h).
Proof.
  intros H4 Hl Hs. assert (En : head_n (put_le 4 0 0 h) = 0) by by apply head_n_clear.
  split; [rewrite length_put_le; lia|]. rewrite En. split; [lia|]. intros i. lia.
Qed.

(** A crash while the blocks are installed: the log is still there. *)
Lemma recover_crash_install d pre :
  2 <= size -> head_ok (d start) -> pre `prefix_of` install_writes d (head_list (d start)) ->
  head_ok (apply_writes d pre start) /\
  forall m, recover_disk (apply_writes d pre) m = recover_disk d m.
Proof.
  intros Hsz Hh Hpre. pose proof Hh as (Hl & [Hn0 Hn1] & _).
  assert (Hout : forall x, in_area x -> apply_writes d pre x = d x).
  { intros x Hx. apply apply_writes_out. intros Hin. apply (prefix_fst _ _ _ Hpre), install_writes_fst in Hin.
    by apply (head_list_out _ _ Hh) in Hin as [_ ?]. }
  pose proof (Hout _ (start_in_area Hsz)) as Es. rewrite Es. split; [done|]. intros m.
  assert (Ew : recover_writes (apply_writes d pre) = recover_writes d).
  { unfold recover_writes, install_writes. rewrite Es. f_equal. f_equal. apply list_fmap_ext.
    intros i x Hx. apply Hout. unfold head_list in Hx. rewrite length_fmap, length_seqZ, Z2Nat.id in Hx by lia.
    apply lookup_seqZ in Hx. unfold in_area. lia. }
  unfold recover_disk. rewrite Ew. unfold recover_writes. destruct Hpre as [suf ->].
  rewrite <- !app_assoc. apply apply_writes_prefix.
Qed.

(** A crash during the recovery: a later recovery finds the log as it was,
    or already cleared, and leaves the same data blocks. *)
Lemma recover_crash d pre :
  2 <= size -> head_ok (d start) -> pre `prefix_of` recover_writes d ->
  head_ok (apply_writes d pre start) /\
  forall m, m <> start -> recover_disk (apply_writes d pre) m = recover_disk d m.
Proof.
  intros Hsz Hh Hpre. pose proof Hh as (Hl & _). unfold recover_writes in Hpre.
  apply prefix_app_or in Hpre as [Hpre|(k & -> & [k' Hk])].
  - destruct (recover_crash_install d pre Hsz Hh Hpre). auto.
  - destruct k as [|w k].
    { rewrite app_nil_r. destruct (recover_crash_install d _ Hsz Hh (reflexivity _)). auto. }
    cbn in Hk. injection Hk as <- Hk. symmetry in Hk. apply app_eq_nil in Hk as [-> _].
    rewrite apply_writes_snoc, decide_True by done.
    split; [apply head_ok_clear; [lia|lia|done]|]. intros m Hm.
    rewrite recover_empty; [done| |done].
    rewrite apply_writes_snoc, decide_True by done. apply head_n_clear. lia.
Qed.

(** Any number of crashes during recoveries. *)
Inductive recovering (d : Z -> list Z) : (Z -> list Z) -> Prop :=
| rec_start : recovering d d
| rec_crash d' pre : recovering d d' -> pre `prefix_of` recover_writes d' -> recovering d (apply_writes d' pre).

Lemma recovering_same d d' :
  2 <= size -> head_ok (d start) -> recovering d d' ->
  head_ok (d' start) /\ forall m, m <> start -> recover_disk d' m = recover_disk d m.
Proof.
  intros Hsz Hh. induction 1 as [|d' pre _ [IH1 IH2] Hpre]; [done|].
  destruct (recover_crash d' pre Hsz IH1 Hpre) as [H1 H2]. split; [done|].
  intros m Hm. rewrite H2 by done. by apply IH2.
Qed.

(** ** Commit *)

Section Commit.
Context (d : Z -> list Z) (bl : list Z) (ds : list (list Z)).
Context (Hsz : 2 <= size <= LOGSIZE) (Hlen : length (d start) = 1024%nat) (Hempty : head_n (d start) = 0).
Context (Hbl : Forall (fun x => in_disk x /\ ~ in_area x) bl) (Hds : length bl = length ds).
Context (Hfit : Z.of_nat (length bl) <= size - 1).

(** The header once the transaction is committed. *)
Lemma commit_head_ok : head_ok (head_bytes bl (d start)).
Proof.
  unfold LOGSIZE, MAXOPBLOCKS in Hsz. split; [rewrite length_head_bytes; lia|].
  rewrite head_n_bytes by lia. split; [lia|]. intros i Hi.
  destruct (lookup_lt_is_Some_2 bl (Z.to_nat i)) as [x Hx]; [lia|].
  pose proof (Forall_lookup_1 _ _ _ _ Hbl Hx) as [Hd Ha].
  replace i with (Z.of_nat (Z.to_nat i)) by lia. rewrite (head_block_bytes bl _ _ x) by (done || lia). done.
Qed.

(** Before the header is written the disk still holds the old state. *)
Lemma commit_crash_log pre :
  pre `prefix_of` log_writes (start + 1) ds ->
  head_ok (apply_writes d pre start) /\ forall m, ~ in_area m -> recover_disk (apply_writes d pre) m = d m.
Proof.
  intros Hpre. assert (Es : apply_writes d pre start = d start).
  { apply apply_writes_out. intros Hin. apply (prefix_fst _ _ _ Hpre), log_writes_fst in Hin. lia. }
  rewrite Es. split; [split; [done|]; rewrite Hempty; split; [lia|]; intros i; lia|].
  intros m Hm. rewrite recover_empty; [|by rewrite Es|intros ->; apply Hm, start_in_area; lia].
  apply apply_writes_out. intros Hin. apply (prefix_fst _ _ _ Hpre), log_writes_fst in Hin.
  apply Hm. unfold in_area. lia.
Qed.

(** Once it is written a recovery installs the new state. *)
Lemma commit_crash_install pre :
  pre `prefix_of` zip bl ds ->
  let d' := apply_writes d (log_writes (start + 1) ds ++ [(start, head_bytes bl (d start))] ++ pre) in
  head_ok (d' start) /\ forall m, ~ in_area m -> recover_disk d' m = apply_writes d (zip bl ds) m.
Proof.
  intros Hpre. set (d1 := apply_writes d (log_writes (start + 1) ds ++ [(start, head_bytes bl (d start))])).
  assert (Ed : forall m, apply_writes d (log_writes (start + 1) ds ++ [(start, head_bytes bl (d start))] ++ pre) m
               = apply_writes d1 pre m).
  { intros m. unfold d1. by rewrite app_assoc, apply_writes_app. }
  cbn zeta. set (d' := apply_writes d (log_writes (start + 1) ds ++ [(start, head_bytes bl (d start))] ++ pre)) in *.
  assert (Hout : forall x, in_area x -> d' x = d1 x).
  { intros x Hx. rewrite Ed. apply apply_writes_out. intros Hin.
    apply (prefix_fst _ _ _ Hpre), zip_fst_subset in Hin.
    by destruct (Forall_elem _ _ _ Hbl Hin). }
  assert (Es : d' start = head_bytes bl (d start)).
  { rewrite Hout by (apply start_in_area; lia). unfold d1. by rewrite apply_writes_snoc, decide_True. }
  rewrite Es. split; [apply commit_head_ok|]. intros m Hm.
  assert (Hms : m <> start) by (intros ->; apply Hm, start_in_area; lia).
  rewrite (recover_committed d' bl ds); [| |done| |done].
  - rewrite (apply_writes_at d' (apply_writes d1 pre) _ m (Ed m)). destruct Hpre as [suf ->].
    rewrite apply_writes_prefix. apply apply_writes_at. unfold d1.
    rewrite apply_writes_snoc, decide_False by done. apply apply_writes_out. intros Hin%log_writes_fst.
    apply Hm. unfold in_area. lia.
  - rewrite Es. unfold LOGSIZE, MAXOPBLOCKS in Hsz. apply head_list_bytes; [done|lia|].
    eapply Forall_impl; [exact Hbl|]. by intros x [].
  - intros i x Hx. pose proof (lookup_lt_Some _ _ _ Hx). rewrite Hout by (unfold in_area; lia).
    unfold d1. rewrite apply_writes_snoc, decide_False by lia. by apply log_writes_read.
Qed.

(** The disk once the commit is done. *)
Lemma commit_done :
  head_n (apply_writes d (commit_writes d bl ds) start) = 0 /\
  forall m, ~ in_area m -> apply_writes d (commit_writes d bl ds) m = apply_writes d (zip bl ds) m.
Proof.
  unfold commit_writes. rewrite !app_assoc. destruct commit_head_ok as (Hlh & _).
  split; [rewrite apply_writes_snoc, decide_True by done; apply head_n_clear; lia|].
  intros m Hm. assert (Hms : m <> start) by (intros ->; apply Hm, start_in_area; lia).
  rewrite apply_writes_snoc, decide_False by done. rewrite apply_writes_app.
  apply apply_writes_at. rewrite apply_writes_snoc, decide_False by done.
  apply apply_writes_out. intros Hin%log_writes_fst. apply Hm. unfold in_area. lia.
Qed.

(** A crash at any point of a commit. *)
Lemma commit_crash pre :
  pre `prefix_of` commit_writes d bl ds ->
  head_ok (apply_writes d pre start) /\
  forall m, ~ in_area m -> recover_disk (apply_writes d pre) m =
    if decide (length pre <= length bl)%nat then d m else apply_writes d (zip bl ds) m.
Proof.
  intros Hpre. unfold commit_writes in Hpre. apply prefix_app_or in Hpre as [Hpre|(k & -> & Hk)].
  { destruct (commit_crash_log pre Hpre) as [Hh Hr]. split; [done|]. intros m Hm. rewrite decide_True; [auto|].
    apply prefix_length in Hpre. unfold log_writes in Hpre. rewrite length_zip_with, length_seqZ in Hpre. lia. }
  assert (Ell : length (log_writes (start + 1) ds) = length bl).
  { unfold log_writes. rewrite length_zip_with, length_seqZ. lia. }
  destruct k as [|w k].
  { rewrite app_nil_r. destruct (commit_crash_log _ (reflexivity _)) as [Hh Hr]. split; [done|].
    intros m Hm. rewrite decide_True by lia. auto. }
  destruct Hk as [k' Hk]. cbn in Hk. injection Hk as <- Hk.
  rewrite length_app, Ell. cbn [length].
  assert (Hk' : k `prefix_of` zip bl ds ++ [(start, put_le 4 0 0 (head_bytes bl (d start)))]) by by exists k'.
  apply prefix_app_or in Hk' as [Hk'|(k2 & -> & Hk2)].
  { destruct (commit_crash_install k Hk') as [Hh Hr]. split; [done|]. intros m Hm.
    rewrite decide_False by lia. auto. }
  destruct k2 as [|w k2].
  { rewrite app_nil_r. destruct (commit_crash_install _ (reflexivity _)) as [Hh Hr]. split; [done|].
    intros m Hm. rewrite decide_False by lia. auto. }
  destruct Hk2 as [k3 Hk3]. cbn in Hk3. injection Hk3 as <- Hk3. symmetry in Hk3. apply app_eq_nil in Hk3 as [-> _].
  destruct commit_done as [Hn Hd]. unfold commit_writes in Hn, Hd. cbn [app] in Hn, Hd.
  destruct commit_head_ok as (Hlh & _). split.
  - change ((start, head_bytes bl (d start)) :: zip bl ds ++ [(start, put_le 4 0 0 (head_bytes bl (d start)))])
      with ([(start, head_bytes bl (d start))] ++ zip bl ds ++ [(start, put_le 4 0 0 (head_bytes bl (d start)))]).
    rewrite !app_assoc, apply_writes_snoc, decide_True by done. apply head_ok_clear; lia.
  - intros m Hm. rewrite decide_False by lia.
    rewrite recover_empty; [by apply Hd|exact Hn|]. intros ->. apply Hm, start_in_area. lia.
Qed.

End Commit.
End Crash.
