(* ===== verification/LogSpec.v ===== *)
(** * The log: what its operations write

    The writes of [write_log], [write_head], [install_trans] and the recovery
    in order, with the map of referenced buffers before and after. *)

From S2P Require Import Prelude Riscv Memory Spinlock Kalloc Vm Tty Proc ProcSpec Sleeplock Bio BioSpec Block Log LogCrash.

(** Read the fields of the log through a change of the cache below it. *)
Ltac lgfields :=
  cbn [bind get gets obind view lh_n_l lg_dev_l lg_start_l lg_size_l lg_outstanding_l lg_committing_l lh_block_l];
  repeat first [ progress change (lh_n (put l_b_l ?b ?s)) with (lh_n s)
               | progress change (lg_dev (put l_b_l ?b ?s)) with (lg_dev s)
               | progress change (lg_start (put l_b_l ?b ?s)) with (lg_start s)
               | progress change (lg_size (put l_b_l ?b ?s)) with (lg_size s)
               | progress change (lh_block (put l_b_l ?b ?s)) with (lh_block s) ].

Section LogSpec.
Context {D : Type} `{DiskLaws D} `{Patience}.
Implicit Types (b : bst D) (s : lgst D) (c : gmap Z centry) (ws : list (Z * list Z)).

(** From [b] to [b'] the disk was written [ws], and other processes may have
    been woken. *)
Definition bstep b b' ws : Prop :=
  writes b'.(b_dsk) = writes b.(b_dsk) ++ ws /\
  (forall m, blocks b'.(b_dsk) m = apply_writes (blocks b.(b_dsk)) ws m) /\
  wakes b.(b_p) b'.(b_p).

Lemma bstep_refl b : bstep b b [].
Proof. split; [by rewrite app_nil_r|]. split; [done|apply wakes_refl]. Qed.

Lemma bstep_trans b1 b2 b3 ws1 ws2 : bstep b1 b2 ws1 -> bstep b2 b3 ws2 -> bstep b1 b3 (ws1 ++ ws2).
Proof.
  intros (W1 & B1 & P1) (W2 & B2 & P2). split; [by rewrite W2, W1, app_assoc|]. split.
  - intros m. rewrite apply_writes_app, B2. by apply apply_writes_ext.
  - by eapply wakes_trans.
Qed.

Lemma bstep_pid p b b' ws : bstep b b' ws -> mypid_of p b' = mypid_of p b.
Proof. intros (_ & _ & Hw). exact (wakes_pid _ _ _ Hw). Qed.

Lemma bstep_same b b' : same_disk b b' -> wakes b.(b_p) b'.(b_p) -> bstep b b' [].
Proof. intros [Hb Hw] Hp. split; [by rewrite app_nil_r|]. split; [exact Hb|done]. Qed.

(** ** The cache operations as steps *)

(** The cache between operations of a process that may sleep. *)
Record trep p b c : Prop := {
  tr_b :> brep p b c;
  tr_thr : thread p b.(b_p)
}.

Lemma trep_step p b c b' c' ws : trep p b c -> brep p b' c' -> bstep b b' ws -> trep p b' c'.
Proof. intros [_ Ht] Hb (_ & _ & Hw). split; [done|]. by eapply thread_wakes. Qed.

Lemma bread_step p b c n :
  trep p b c -> gettable c n -> in_disk n ->
  exists i b', bread ROOTDEV n b = Ok i b' /\
    trep p b' (<[n := CE i (bview b c n) (got_ref c n) (Some (mypid_of p b))]> c) /\
    can_hold b c i n /\ bstep b b' [].
Proof.
  intros Hb Hg Hin. destruct (bread_eq p b c n Hb (tr_thr _ _ _ Hb) Hg Hin) as (i & b' & E & Hb' & Hc & Hs & Hw).
  exists i, b'. pose proof (bstep_same _ _ Hs Hw). split; [done|]. split; [by eapply trep_step|done].
Qed.

Lemma bwrite_step p b c n e :
  trep p b c -> c !! n = Some e -> e.(ce_lock) = Some (mypid_of p b) -> in_disk n ->
  exists b', bwrite e.(ce_idx) b = Ok tt b' /\ trep p b' c /\ bstep b b' [(n, e.(ce_data))].
Proof.
  intros Hb Hc Hl Hin. destruct (bwrite_eq p b c n e Hb (tr_thr _ _ _ Hb) Hc Hl Hin) as (b' & E & Hb' & Hw & Hbl & Hwr).
  assert (Hs : bstep b b' [(n, e.(ce_data))]) by (split; [done|]; split; [exact Hbl|done]).
  exists b'. split; [done|]. split; [by eapply trep_step|done].
Qed.

Lemma brelse_step p b c n e :
  trep p b c -> c !! n = Some e -> e.(ce_lock) = Some (mypid_of p b) ->
  (e.(ce_ref) = 1 -> e.(ce_data) = blocks b.(b_dsk) n) ->
  exists b', brelse e.(ce_idx) b = Ok tt b' /\ trep p b' (released n e c) /\ bstep b b' [].
Proof.
  intros Hb Hc Hl Hcl. destruct (br_dll _ _ _ Hb) as (lru & Hlru).
  destruct (brelse_eq p b c n e lru Hb Hlru Hc Hl Hcl) as (b' & E & Hb' & Hs & Hw & _).
  pose proof (bstep_same _ _ Hs Hw). exists b'. split; [done|]. split; [by eapply trep_step|done].
Qed.

Lemma bunpin_step p b c n e :
  trep p b c -> c !! n = Some e -> 2 <= e.(ce_ref) ->
  exists b', bunpin e.(ce_idx) b = Ok tt b' /\ trep p b' (<[n := with_ref (e.(ce_ref) - 1) e]> c) /\ bstep b b' [].
Proof.
  intros Hb Hc Hr. destruct (bunpin_eq p b c n e Hb Hc Hr) as (b' & E & Hb' & Ep & Ed).
  assert (Hs : bstep b b' []) by (apply bstep_same; [split; by rewrite Ed|rewrite Ep; apply wakes_refl]).
  exists b'. split; [done|]. split; [by eapply trep_step|done].
Qed.

(** The process changes the bytes of a buffer it holds. *)
Definition with_ce_data (d : list Z) (e : centry) : centry := CE e.(ce_idx) d e.(ce_ref) e.(ce_lock).

Lemma set_data_step p b c n e d :
  trep p b c -> c !! n = Some e -> length d = 1024%nat ->
  exists b', set_data e.(ce_idx) d b = Ok tt b' /\ trep p b' (<[n := with_ce_data d e]> c) /\ bstep b b' [].
Proof.
  intros Hb Hc Hd. exists (put_buf e.(ce_idx) (with_b_data d (bbuf b e.(ce_idx))) b).
  assert (Hs : bstep b (put_buf e.(ce_idx) (with_b_data d (bbuf b e.(ce_idx))) b) []) by (apply bstep_same; [done|apply wakes_refl]).
  split; [done|]. split; [|done]. eapply trep_step; [done| |done].
  destruct (br_describes _ _ _ _ _ Hb Hc) as (H1' & H2' & H3' & H4' & H5' & _ & H7').
  pose proof (tr_b _ _ _ Hb). apply brep_set; try done. by apply entry_can_hold.
Qed.

Lemma entry_data p b c n e : brep p b c -> c !! n = Some e -> (bbuf b e.(ce_idx)).(b_data) = e.(ce_data).
Proof. intros Hb Hc. by destruct (br_describes _ _ _ _ _ Hb Hc) as (_ & _ & _ & _ & _ & E & _). Qed.

Lemma entry_len p b c n e : brep p b c -> c !! n = Some e -> length e.(ce_data) = 1024%nat.
Proof. intros Hb Hc. rewrite <- (entry_data _ _ _ _ _ Hb Hc). apply (br_len _ _ _ Hb). Qed.

Lemma copy_data_step p b c n e n' e' :
  trep p b c -> c !! n = Some e -> c !! n' = Some e' ->
  exists b', copy_data e.(ce_idx) e'.(ce_idx) b = Ok tt b' /\
    trep p b' (<[n := with_ce_data e'.(ce_data) e]> c) /\ bstep b b' [].
Proof.
  intros Hb Hc Hc'. unfold copy_data, get_data. cbn [bind get gets obind ret].
  change (b_data (view (buf_l (ce_idx e')) b)) with (bbuf b (ce_idx e')).(b_data).
  rewrite (entry_data _ _ _ _ _ Hb Hc'). apply set_data_step; try done. exact (entry_len _ _ _ _ _ Hb Hc').
Qed.

(** ** Steps in the state of the log *)

Lemma zoom_b {A : Type} (m : M (bst D) A) s b a b' :
  m b = Ok a b' -> zoom l_b_l m (put l_b_l b s) = Ok a (put l_b_l b' s).
Proof. intros E. unfold zoom. cbn [view put l_b_l l_b]. rewrite E. done. Qed.

Lemma get_block_eq s k x : s.(lh_block) !! k = Some x -> get_block (Z.of_nat k) s = Ok x s.
Proof.
  intros E. unfold get_block. cbn [bind get gets obind view lh_block_l]. rewrite Nat2Z.id, E.
  by rewrite (proj2 (Z.leb_le 0 (Z.of_nat k))) by lia.
Qed.

(** The log's blocks on the disk, and the fields that do not change once it is
    initialised. *)
Record lg_wf s : Prop := {
  wf_dev : s.(lg_dev) = ROOTDEV;
  wf_start : 0 <= s.(lg_start);
  wf_size : 2 <= s.(lg_size) <= LOGSIZE;
  wf_disk : s.(lg_start) + s.(lg_size) <= FSSIZE;
  wf_len : length s.(lh_block) = 30%nat
}.

Definition in_log s (m : Z) : Prop := s.(lg_start) <= m < s.(lg_start) + s.(lg_size).

Lemma log_blockno s k :
  lg_wf s -> 0 <= k < s.(lg_size) ->
  u32 (s.(lg_start) + k) = s.(lg_start) + k /\ in_disk (s.(lg_start) + k) /\ in_log s (s.(lg_start) + k).
Proof.
  intros [_ Hs _ Hd _] Hk. unfold FSSIZE in *. split; [apply u32_small; lia|]. unfold in_disk, in_log, FSSIZE. lia.
Qed.

(** ** Two blocks at a time *)

(** The entry of block [n], with bytes [d], while the process holds it. *)
Definition held c (n : Z) (i : fin 30) (d : list Z) (pid : Z) : centry := CE i d (got_ref c n) (Some pid).

(** The map once a held block is released with the bytes [d]. *)
Definition back c (n : Z) (d : list Z) : gmap Z centry :=
  match c !! n with
  | Some e => <[n := CE e.(ce_idx) d e.(ce_ref) None]> c
  | None => c
  end.

Definition hold2 c n1 i1 d1 n2 i2 d2 pid : gmap Z centry :=
  <[n2 := held c n2 i2 d2 pid]> (<[n1 := held c n1 i1 d1 pid]> c).

Lemma hold2_fst c n1 i1 d1 n2 i2 d2 pid :
  n1 <> n2 -> hold2 c n1 i1 d1 n2 i2 d2 pid !! n1 = Some (held c n1 i1 d1 pid).
Proof. intros Hne. unfold hold2. rewrite lookup_insert_ne by congruence. apply lookup_insert_eq. Qed.
Lemma hold2_snd c n1 i1 d1 n2 i2 d2 pid : hold2 c n1 i1 d1 n2 i2 d2 pid !! n2 = Some (held c n2 i2 d2 pid).
Proof. apply lookup_insert_eq. Qed.

(** The buffer of a block in the map is the one the map says. *)
Definition idx_ok c n (i : fin 30) : Prop := forall e, c !! n = Some e -> i = e.(ce_idx).

Lemma can_hold_idx b c i n : can_hold b c i n -> idx_ok c n i.
Proof. unfold can_hold. intros Hc e He. by rewrite He in Hc. Qed.

Lemma bread2 p b c n1 n2 :
  trep p b c -> n1 <> n2 -> in_disk n1 -> in_disk n2 -> gettable c n1 -> gettable c n2 ->
  (size c < 29 \/ size c < 30 /\ (is_Some (c !! n1) \/ is_Some (c !! n2)))%nat ->
  exists i1 b1 i2 b2, bread ROOTDEV n1 b = Ok i1 b1 /\ bread ROOTDEV n2 b1 = Ok i2 b2 /\
    trep p b2 (hold2 c n1 i1 (bview b c n1) n2 i2 (bview b c n2) (mypid_of p b)) /\
    idx_ok c n1 i1 /\ idx_ok c n2 i2 /\ bstep b b2 [].
Proof.
  intros Hb Hne D1 D2 G1 G2 Hsz. destruct (bread_step p b c n1 Hb G1 D1) as (i1 & b1 & E1 & Hb1 & Hc1 & S1).
  set (c1 := <[n1 := _]> c) in *.
  assert (El : c1 !! n2 = c !! n2) by (unfold c1; by rewrite lookup_insert_ne).
  assert (G2' : gettable c1 n2).
  { unfold gettable in *. rewrite El. destruct (c !! n2) as [e2|] eqn:E2; [done|].
    unfold c1. rewrite map_size_insert. destruct (c !! n1) as [e1|] eqn:En1; [done|].
    destruct Hsz as [?|[? [[x Hx]|[x Hx]]]]; [lia|congruence|congruence]. }
  destruct (bread_step p b1 c1 n2 Hb1 G2' D2) as (i2 & b2 & E2 & Hb2 & Hc2 & S2).
  exists i1, b1, i2, b2. split; [done|]. split; [done|].
  pose proof (bstep_trans _ _ _ _ _ S1 S2) as S12. cbn [app] in S12.
  split; [|split; [by eapply can_hold_idx|split; [|done]]].
  - assert (Ev : bview b1 c1 n2 = bview b c n2).
    { unfold bview. rewrite El. destruct S1 as (_ & Bl & _). by rewrite Bl. }
    assert (Er : got_ref c1 n2 = got_ref c n2) by (unfold got_ref; by rewrite El).
    rewrite Ev, Er, (bstep_pid _ _ _ _ S1) in Hb2. exact Hb2.
  - intros e He. apply (can_hold_idx _ _ _ _ Hc2). by rewrite El.
Qed.

(** The map [c'] once block [n], held since [c], is released. *)
Definition dropped c c' n i d : gmap Z centry :=
  match c !! n with Some e => <[n := CE i d e.(ce_ref) None]> c' | None => delete n c' end.

(** Releasing a held block. *)
Lemma brelse_held p b c c' n i d pid :
  trep p b c' -> c' !! n = Some (held c n i d pid) -> pid = mypid_of p b -> idx_ok c n i ->
  (c !! n = None -> d = blocks b.(b_dsk) n) -> (forall e, c !! n = Some e -> 1 <= e.(ce_ref)) ->
  exists b', brelse i b = Ok tt b' /\ bstep b b' [] /\
    trep p b' (dropped c c' n i d).
Proof.
  intros Hb Hc Hp Hi Hcl Hpos.
  destruct (brelse_step p b c' n (held c n i d pid) Hb Hc) as (b' & E & Hb' & S').
  - by subst.
  - cbn. unfold got_ref. destruct (c !! n) as [e|] eqn:En; [|auto]. specialize (Hpos e eq_refl). lia.
  - exists b'. split; [exact E|]. split; [done|]. unfold dropped. unfold released, held, got_ref in Hb'. cbn in Hb'.
    destruct (c !! n) as [e|] eqn:En; [|by rewrite decide_True in Hb'].
    specialize (Hpos e eq_refl). rewrite decide_False in Hb' by lia.
    by replace (ce_ref e + 1 - 1) with (ce_ref e) in Hb' by lia.
Qed.

Lemma back_ne c n d m : m <> n -> back c n d !! m = c !! m.
Proof. intros Hne. unfold back. destruct (c !! n); [|done]. by rewrite lookup_insert_ne. Qed.
Lemma back_eq c n d : back c n d !! n = (fun e => CE e.(ce_idx) d e.(ce_ref) None) <$> c !! n.
Proof. unfold back. destruct (c !! n) eqn:E; [by rewrite lookup_insert_eq|done]. Qed.

(** Releasing a block without having changed it. *)
Lemma back_same c n d :
  (forall e, c !! n = Some e -> e.(ce_data) = d /\ e.(ce_lock) = None) -> back c n d = c.
Proof.
  intros Hc. apply map_eq. intros m. destruct (decide (m = n)) as [->|Hne]; [|by apply back_ne].
  rewrite back_eq. destruct (c !! n) as [e|] eqn:E; [|done]. destruct (Hc e eq_refl) as [<- Hl].
  cbn. f_equal. destruct e. cbn in *. by subst.
Qed.

Lemma brelse2 p b c n1 i1 d1 n2 i2 d2 pid :
  trep p b (hold2 c n1 i1 d1 n2 i2 d2 pid) -> pid = mypid_of p b -> n1 <> n2 ->
  idx_ok c n1 i1 -> idx_ok c n2 i2 ->
  (c !! n1 = None -> d1 = blocks b.(b_dsk) n1) -> (c !! n2 = None -> d2 = blocks b.(b_dsk) n2) ->
  (forall n e, c !! n = Some e -> 1 <= e.(ce_ref)) ->
  exists b1 b2, brelse i2 b = Ok tt b1 /\ brelse i1 b1 = Ok tt b2 /\ bstep b b2 [] /\
    trep p b2 (back (back c n1 d1) n2 d2).
Proof.
  intros Hb Hp Hne I1 I2 C1 C2 Hpos.
  destruct (brelse_held p b c _ n2 i2 d2 pid Hb) as (b1 & E1 & S1 & Hb1); try done; [apply hold2_snd|by apply Hpos|].
  set (c1 := dropped _ _ _ _ _) in Hb1.
  destruct (brelse_held p b1 c c1 n1 i1 d1 pid Hb1) as (b2 & E2 & S2 & Hb2).
  - unfold c1, dropped. destruct (c !! n2); rewrite ?lookup_insert_ne, ?lookup_delete_ne by congruence; by apply hold2_fst.
  - by rewrite (bstep_pid _ _ _ _ S1).
  - done.
  - destruct S1 as (_ & Bl & _). intros Hn. rewrite Bl. by apply C1.
  - apply Hpos.
  - exists b1, b2. split; [done|]. split; [done|]. split; [exact (bstep_trans _ _ _ _ _ S1 S2)|].
    replace (back (back c n1 d1) n2 d2) with (dropped c c1 n1 i1 d1); [done|].
    apply map_eq. intros m. unfold c1, dropped, hold2, idx_ok in *.
    destruct (decide (m = n2)) as [->|H2].
    + rewrite back_eq, back_ne by done.
      destruct (c !! n2) as [e2|] eqn:En2, (c !! n1) as [e1|] eqn:En1; simplify_map_eq; try done;
        by rewrite (I2 _ eq_refl).
    + rewrite back_ne by done. destruct (decide (m = n1)) as [->|H1'].
      * rewrite back_eq.
        destruct (c !! n2) as [e2|] eqn:En2, (c !! n1) as [e1|] eqn:En1; simplify_map_eq; try done;
          by rewrite (I1 _ eq_refl).
      * rewrite back_ne by done.
        destruct (c !! n2) as [e2|] eqn:En2, (c !! n1) as [e1|] eqn:En1; by simplify_map_eq.
Qed.

(** ** One block of the log *)

(** What the log keeps true of a block it has recorded. *)
Definition pinned c (x : Z) (e : centry) : Prop :=
  in_disk x /\ c !! x = Some e /\ e.(ce_lock) = None /\ e.(ce_ref) + 1 < 2 ^ 31.

Lemma br_pos p b c : trep p b c -> forall n e, c !! n = Some e -> 1 <= e.(ce_ref).
Proof. intros Hb n e Hc. by destruct (br_describes _ _ _ _ _ Hb Hc) as (_ & _ & _ & _ & [? _] & _). Qed.

Lemma in_disk_u32 x : in_disk x -> u32 x = x.
Proof. intros Hx. unfold in_disk, FSSIZE in Hx. apply u32_small. lia. Qed.

Lemma write_log_one_eq p b c s k x e :
  trep p b c -> lg_wf s -> 0 <= Z.of_nat k < s.(lg_size) - 1 ->
  s.(lh_block) !! k = Some x -> pinned c x e ->
  (forall m, in_log s m -> c !! m = None) -> (size c < 30)%nat ->
  exists b', write_log_one ROOTDEV s.(lg_start) (Z.of_nat k) (put l_b_l b s) = Ok tt (put l_b_l b' s) /\
    trep p b' c /\ bstep b b' [(s.(lg_start) + Z.of_nat k + 1, e.(ce_data))].
Proof.
  intros Hb Hwf Hk Hx (Hdx & Hc & Hlk & Href) Hlog Hsz.
  destruct (log_blockno s (Z.of_nat k + 1) Hwf) as (Eu & Hin & Hil); [lia|]. rewrite Z.add_assoc in *.
  set (L := lg_start s + Z.of_nat k + 1) in *. pose proof (Hlog L Hil) as HcL.
  assert (HLx : L <> x) by congruence.
  unfold write_log_one. cbn [bind]. fold L. rewrite Eu.
  destruct (bread2 p b c L x Hb HLx Hin Hdx) as (i & b1 & j & b2 & E1 & E2 & Hb2 & I1 & I2 & S2);
    [unfold gettable; by rewrite ?HcL, ?Hc..|right; split; [done|right; by eexists]|].
  rewrite (zoom_b _ _ _ _ _ E1). cbn [bind obind]. rewrite (get_block_eq (put l_b_l b1 s) k x Hx). cbn [bind obind].
  rewrite (in_disk_u32 x Hdx), (zoom_b _ _ _ _ _ E2). cbn [bind obind].
  assert (Ev : bview b c x = ce_data e) by (unfold bview; by rewrite Hc). rewrite Ev in Hb2.
  destruct (copy_data_step p b2 _ L _ x _ Hb2 (hold2_fst _ _ _ _ _ _ _ _ HLx) (hold2_snd _ _ _ _ _ _ _ _))
    as (b3 & E3 & Hb3 & S3). cbn [ce_idx ce_data held] in E3, Hb3.
  rewrite (zoom_b _ _ _ _ _ E3). cbn [bind obind].
  pose proof (bstep_trans _ _ _ _ _ S2 S3) as S13. cbn [app] in S13.
  set (pid := mypid_of p b) in *.
  assert (Ec3 : <[L := with_ce_data (ce_data e) (held c L i (bview b c L) pid)]>
                (hold2 c L i (bview b c L) x j (ce_data e) pid) = hold2 c L i (ce_data e) x j (ce_data e) pid).
  { unfold hold2. rewrite (insert_insert_ne _ L x) by done. by rewrite insert_insert_eq. }
  unfold held in Ec3, Hb3. rewrite Ec3 in Hb3. clear Ec3.
  destruct (bwrite_step p b3 _ L _ Hb3 (hold2_fst _ _ _ _ _ _ _ _ HLx)) as (b4 & E4 & Hb4 & S4);
    [by rewrite (bstep_pid _ _ _ _ S13)|done|]. cbn [ce_idx ce_data held] in E4, S4.
  rewrite (zoom_b _ _ _ _ _ E4). cbn [bind obind].
  pose proof (bstep_trans _ _ _ _ _ S13 S4) as S14. cbn [app] in S14.
  destruct (brelse2 p b4 c L i (ce_data e) x j (ce_data e) pid Hb4) as (b5 & b6 & E5 & E6 & S6 & Hb6); try done.
  { by rewrite (bstep_pid _ _ _ _ S14). }
  { intros _. destruct S14 as (_ & Bl & _). rewrite Bl. cbn. unfold wr_disk. cbn. by rewrite decide_True. }
  { congruence. }
  { by eapply br_pos. }
  rewrite (zoom_b _ _ _ _ _ E5). cbn [bind obind]. rewrite (zoom_b _ _ _ _ _ E6).
  exists b6. split; [done|]. split; [|exact (bstep_trans _ _ _ _ _ S14 S6)].
  rewrite (back_same c L), back_same in Hb6; [exact Hb6| |]; intros e' He'; [|congruence].
  rewrite Hc in He'. injection He' as <-. done.
Qed.

(** ** The blocks of a transaction *)

(** The process has logged the blocks [bl], whose bytes in the cache are
    [ds]. *)
Record txn (s : lgst D) c (bl : list Z) (ds : list (list Z)) : Prop := {
  tx_wf : lg_wf s;
  tx_n : s.(lh_n) = Z.of_nat (length bl);
  tx_fit : Z.of_nat (length bl) <= s.(lg_size) - 1;
  tx_blocks : take (length bl) s.(lh_block) = bl;
  tx_nodup : NoDup bl;
  tx_pinned : Forall2 (fun x d => ~ in_log s x /\ exists e, pinned c x e /\ e.(ce_data) = d) bl ds;
  tx_log : forall m, in_log s m -> c !! m = None;
  tx_size : (size c < 30)%nat
}.

Lemma tx_block s c bl ds k x : txn s c bl ds -> bl !! k = Some x -> s.(lh_block) !! k = Some x.
Proof.
  intros Ht Hk. rewrite <- (tx_blocks _ _ _ _ Ht) in Hk. by apply lookup_take_Some in Hk as [? _].
Qed.

Lemma tx_entry s c bl ds k x :
  txn s c bl ds -> bl !! k = Some x ->
  exists d e, ds !! k = Some d /\ ~ in_log s x /\ pinned c x e /\ e.(ce_data) = d.
Proof.
  intros Ht Hk. destruct (Forall2_lookup_l _ _ _ _ _ (tx_pinned _ _ _ _ Ht) Hk) as (d & Hd & Hn & e & He & Ed).
  by exists d, e.
Qed.

Lemma tx_len s c bl ds : txn s c bl ds -> length bl = length ds.
Proof. intros Ht. exact (Forall2_length _ _ _ (tx_pinned _ _ _ _ Ht)). Qed.

(** ** write_log *)

Lemma seqZ_S a n : seqZ a (Z.of_nat (Datatypes.S n)) = a :: seqZ (Z.succ a) (Z.of_nat n).
Proof. rewrite seqZ_cons by lia. do 2 f_equal. lia. Qed.

Lemma write_log_loop p s c bl ds n k b :
  txn s c bl ds -> trep p b c -> (k + n = length bl)%nat ->
  exists b', iterM (seqZ (Z.of_nat k) (Z.of_nat n)) (write_log_one ROOTDEV s.(lg_start)) (put l_b_l b s)
      = Ok tt (put l_b_l b' s) /\
    trep p b' c /\ bstep b b' (log_writes (s.(lg_start) + 1 + Z.of_nat k) (drop k ds)).
Proof.
  intros Ht. revert k b. induction n as [|n IH]; intros k b Hb Hk.
  - exists b. split; [done|]. split; [done|]. rewrite drop_ge by (rewrite <- (tx_len _ _ _ _ Ht); lia).
    apply bstep_refl.
  - rewrite seqZ_S. cbn [iterM bind].
    destruct (lookup_lt_is_Some_2 bl k) as [x Hx]; [lia|].
    destruct (tx_entry _ _ _ _ _ _ Ht Hx) as (d & e & Hd & Hn & He & Ed).
    pose proof (tx_fit _ _ _ _ Ht).
    destruct (write_log_one_eq p b c s k x e Hb (tx_wf _ _ _ _ Ht)) as (b1 & E1 & Hb1 & S1);
      [lia|by eapply tx_block|done|exact (tx_log _ _ _ _ Ht)|exact (tx_size _ _ _ _ Ht)|].
    rewrite E1. cbn [obind]. replace (Z.succ (Z.of_nat k)) with (Z.of_nat (Datatypes.S k)) by lia.
    destruct (IH (Datatypes.S k) b1 Hb1) as (b2 & E2 & Hb2 & S2); [lia|].
    exists b2. split; [done|]. split; [done|].
    rewrite (drop_S _ _ _ Hd). unfold log_writes. cbn [length]. rewrite seqZ_S. cbn [zip zip_with].
    rewrite Ed in S1. pose proof (bstep_trans _ _ _ _ _ S1 S2) as S12. cbn [app] in S12.
    replace (lg_start s + Z.of_nat k + 1) with (lg_start s + 1 + Z.of_nat k) in S12 by lia.
    replace (lg_start s + 1 + Z.of_nat (Datatypes.S k)) with (Z.succ (lg_start s + 1 + Z.of_nat k)) in S12 by lia.
    exact S12.
Qed.

Lemma write_log_eq p s c bl ds b :
  txn s c bl ds -> trep p b c ->
  exists b', write_log (put l_b_l b s) = Ok tt (put l_b_l b' s) /\
    trep p b' c /\ bstep b b' (log_writes (s.(lg_start) + 1) ds).
Proof.
  intros Ht Hb. destruct (write_log_loop p s c bl ds (length bl) 0 b Ht Hb) as (b' & E & Hb' & S'); [lia|].
  exists b'. split; [|split; [done|by rewrite Z.add_0_r in S']].
  unfold write_log. lgfields.
  rewrite (tx_n _ _ _ _ Ht), (wf_dev _ (tx_wf _ _ _ _ Ht)). exact E.
Qed.

(** ** write_head *)

Lemma upd_data_step p b c n e f :
  trep p b c -> c !! n = Some e -> length (f e.(ce_data)) = 1024%nat ->
  exists b', update (buf_l e.(ce_idx)) (fun x => with_b_data (f x.(b_data)) x) b = Ok tt b' /\
    trep p b' (<[n := with_ce_data (f e.(ce_data)) e]> c) /\ bstep b b' [].
Proof.
  intros Hb Hc Hl. destruct (set_data_step p b c n e (f e.(ce_data)) Hb Hc Hl) as (b' & E & Hb' & S').
  exists b'. split; [|done]. rewrite <- E. unfold set_data, update, modify.
  change (view (buf_l (ce_idx e)) b) with (bbuf b (ce_idx e)). by rewrite (entry_data _ _ _ _ _ Hb Hc).
Qed.

Lemma put_blocks_loop p s c n bl k e b :
  trep p b c -> c !! n = Some e -> (4 + 4 * (k + length bl) <= 1024)%nat ->
  (forall j x, bl !! j = Some x -> s.(lh_block) !! (k + j)%nat = Some x) ->
  exists b', iterM (seqZ (Z.of_nat k) (Z.of_nat (length bl))) (fun i =>
      b <- get_block i ;;
      zoom l_b_l (update (buf_l e.(ce_idx)) (fun x =>
        with_b_data (put_le 4 (Z.to_nat (4 + 4 * i)) b x.(b_data)) x))) (put l_b_l b s) = Ok tt (put l_b_l b' s) /\
    trep p b' (<[n := with_ce_data (put_blocks k bl e.(ce_data)) e]> c) /\ bstep b b' [].
Proof.
  revert k c e b. induction bl as [|x bl IH]; intros k c e b Hb Hc Hl Hbl.
  - exists b. split; [done|]. split; [|apply bstep_refl]. cbn. rewrite insert_id; [done|]. by destruct e.
  - cbn [length]. rewrite seqZ_S. cbn [iterM bind].
    rewrite (get_block_eq (put l_b_l b s) k x) by (rewrite <- (Nat.add_0_r k); by apply Hbl). cbn [obind bind].
    pose proof (entry_len _ _ _ _ _ Hb Hc) as Hlen. cbn [length] in Hl.
    destruct (upd_data_step p b c n e (put_le 4 (Z.to_nat (4 + 4 * Z.of_nat k)) x) Hb Hc) as (b1 & E1 & Hb1 & S1);
      [rewrite length_put_le; lia|].
    rewrite (zoom_b _ _ _ _ _ E1). cbn [obind].
    set (e1 := with_ce_data _ e) in *. replace (Z.succ (Z.of_nat k)) with (Z.of_nat (Datatypes.S k)) by lia.
    destruct (IH (Datatypes.S k) _ e1 b1 Hb1 (lookup_insert_eq _ _ _)) as (b2 & E2 & Hb2 & S2); [lia| |].
    { intros j y Hy. replace (Datatypes.S k + j)%nat with (k + Datatypes.S j)%nat by lia. by apply Hbl. }
    exists b2. split; [exact E2|]. split; [|exact (bstep_trans _ _ _ _ _ S1 S2)].
    rewrite insert_insert_eq in Hb2. cbn [put_blocks]. replace (4 + 4 * k)%nat with (Z.to_nat (4 + 4 * Z.of_nat k)) by lia.
    exact Hb2.
Qed.

Lemma write_head_eq p s c bl b :
  trep p b c -> lg_wf s -> s.(lh_n) = Z.of_nat (length bl) -> (length bl <= 30)%nat ->
  (forall j x, bl !! j = Some x -> s.(lh_block) !! j = Some x) ->
  c !! s.(lg_start) = None -> (size c < 30)%nat ->
  exists b', write_head (put l_b_l b s) = Ok tt (put l_b_l b' s) /\ trep p b' c /\
    bstep b b' [(s.(lg_start), head_bytes bl (blocks b.(b_dsk) s.(lg_start)))].
Proof.
  intros Hb Hwf Hn H30 Hbl Hc Hsz. set (st := lg_start s) in *.
  destruct (log_blockno s 0 Hwf) as (Eu & Hin & _); [destruct Hwf; lia|]. rewrite Z.add_0_r in Eu, Hin. fold st in Eu, Hin.
  unfold write_head. lgfields. rewrite (wf_dev _ Hwf). fold st. rewrite Eu.
  destruct (bread_step p b c st Hb) as (i & b1 & E1 & Hb1 & _ & S1); [by unfold gettable; rewrite Hc|done|].
  rewrite (zoom_b _ _ _ _ _ E1). cbn [obind]. lgfields. rewrite Hn.
  unfold bview, got_ref in Hb1. rewrite Hc in Hb1. set (e1 := CE i _ _ _) in Hb1. set (c1 := <[st := e1]> c) in Hb1.
  assert (Hl : length (ce_data e1) = 1024%nat) by (eapply entry_len; [exact Hb1|apply lookup_insert_eq]).
  destruct (upd_data_step p b1 c1 st e1 (put_le 4 0 (Z.of_nat (length bl))) Hb1 (lookup_insert_eq _ _ _))
    as (b2 & E2 & Hb2 & S2); [rewrite length_put_le; lia|].
  rewrite (zoom_b _ _ _ _ _ E2). cbn [obind bind]. clear E1 E2.
  set (e2 := with_ce_data _ e1) in Hb2.
  destruct (put_blocks_loop p s _ st bl 0 e2 b2 Hb2 (lookup_insert_eq _ _ _)) as (b3 & E3 & Hb3 & S3); [lia|done|].
  change (Z.of_nat 0) with 0 in E3. change (ce_idx e2) with i in E3. rewrite E3. cbn [bind obind]. clear E3.
  set (e3 := with_ce_data _ e2) in Hb3.
  pose proof (bstep_trans _ _ _ _ _ S1 (bstep_trans _ _ _ _ _ S2 S3)) as S13. cbn [app] in S13.
  destruct (bwrite_step p b3 _ st e3 Hb3 (lookup_insert_eq _ _ _)) as (b4 & E4 & Hb4 & S4);
    [by rewrite (bstep_pid _ _ _ _ S13)|done|].
  change (ce_idx e3) with i in E4. rewrite (zoom_b _ _ _ _ _ E4). cbn [bind obind].
  pose proof (bstep_trans _ _ _ _ _ S13 S4) as S14. cbn [app] in S14.
  destruct (brelse_step p b4 _ st e3 Hb4 (lookup_insert_eq _ _ _)) as (b5 & E5 & Hb5 & S5).
  { by rewrite (bstep_pid _ _ _ _ S14). }
  { intros _. destruct S14 as (_ & Bl & _). rewrite Bl. cbn. unfold wr_disk. cbn. by rewrite decide_True. }
  change (ce_idx e3) with i in E5. rewrite (zoom_b _ _ _ _ _ E5).
  exists b5. split; [done|]. split; [|exact (bstep_trans _ _ _ _ _ S14 S5)].
  unfold released in Hb5. rewrite decide_True in Hb5 by done. unfold c1 in Hb5.
  rewrite !insert_insert_eq, delete_insert_id in Hb5 by done. exact Hb5.
Qed.

(** ** install_trans *)

(** The map once the log gives up its reference to block [x]. *)
Definition unpin c (x : Z) : gmap Z centry :=
  match c !! x with
  | Some e => if decide (e.(ce_ref) = 1) then delete x c else <[x := with_ref (e.(ce_ref) - 1) e]> c
  | None => c
  end.

(** Read the log block and its home, copy and write the home. *)
Lemma install_copy p b c s k x d :
  trep p b c -> lg_wf s -> 0 <= Z.of_nat k < s.(lg_size) - 1 ->
  s.(lh_block) !! k = Some x -> in_disk x -> ~ in_log s x -> gettable c x ->
  (forall m, in_log s m -> c !! m = None) -> (size c < 29 \/ size c < 30 /\ is_Some (c !! x))%nat ->
  blocks b.(b_dsk) (s.(lg_start) + 1 + Z.of_nat k) = d ->
  exists i1 b1 i2 b2 b3 b4, bread ROOTDEV (u32 (s.(lg_start) + Z.of_nat k + 1)) b = Ok i1 b1 /\
    bread ROOTDEV (u32 x) b1 = Ok i2 b2 /\ copy_data i2 i1 b2 = Ok tt b3 /\ bwrite i2 b3 = Ok tt b4 /\
    trep p b4 (hold2 c (s.(lg_start) + 1 + Z.of_nat k) i1 d x i2 d (mypid_of p b)) /\
    idx_ok c (s.(lg_start) + 1 + Z.of_nat k) i1 /\ idx_ok c x i2 /\ bstep b b4 [(x, d)].
Proof.
  intros Hb Hwf Hk Hx Hdx Hnx Hg Hlog Hsz Hd.
  destruct (log_blockno s (Z.of_nat k + 1) Hwf) as (Eu & Hin & Hil); [lia|].
  replace (lg_start s + (Z.of_nat k + 1)) with (lg_start s + 1 + Z.of_nat k) in * by lia.
  replace (lg_start s + Z.of_nat k + 1) with (lg_start s + 1 + Z.of_nat k) in * by lia.
  set (L := lg_start s + 1 + Z.of_nat k) in *. pose proof (Hlog L Hil) as HcL. rewrite Eu, (in_disk_u32 x Hdx).
  assert (HLx : L <> x) by congruence.
  destruct (bread2 p b c L x Hb HLx Hin Hdx) as (i & b1 & j & b2 & E1 & E2 & Hb2 & I1 & I2 & S2);
    [unfold gettable; rewrite HcL; lia|done|destruct Hsz as [?|[? ?]]; [by left|right; split; [done|by right]]|].
  assert (Ev : bview b c L = d) by (unfold bview; by rewrite HcL). rewrite Ev in Hb2.
  destruct (copy_data_step p b2 _ x _ L _ Hb2 (hold2_snd _ _ _ _ _ _ _ _) (hold2_fst _ _ _ _ _ _ _ _ HLx))
    as (b3 & E3 & Hb3 & S3). cbn [ce_idx ce_data held] in E3, Hb3.
  pose proof (bstep_trans _ _ _ _ _ S2 S3) as S13. cbn [app] in S13.
  unfold hold2 at 1 in Hb3. rewrite insert_insert_eq in Hb3.
  change (trep p b3 (hold2 c L i d x j d (mypid_of p b))) in Hb3.
  destruct (bwrite_step p b3 _ x _ Hb3 (hold2_snd _ _ _ _ _ _ _ _)) as (b4 & E4 & Hb4 & S4);
    [by rewrite (bstep_pid _ _ _ _ S13)|done|]. cbn [ce_idx ce_data held] in E4, S4.
  exists i, b1, j, b2, b3, b4. split_and!; try done. exact (bstep_trans _ _ _ _ _ S13 S4).
Qed.

Lemma hold2_comm c n1 i1 d1 n2 i2 d2 pid :
  n1 <> n2 -> hold2 c n1 i1 d1 n2 i2 d2 pid = hold2 c n2 i2 d2 n1 i1 d1 pid.
Proof. intros Hne. unfold hold2. by rewrite insert_insert_ne. Qed.

Lemma install_one_recover p b c s k x d :
  trep p b c -> lg_wf s -> 0 <= Z.of_nat k < s.(lg_size) - 1 ->
  s.(lh_block) !! k = Some x -> in_disk x -> ~ in_log s x -> c !! x = None ->
  (forall m, in_log s m -> c !! m = None) -> (size c < 29)%nat ->
  blocks b.(b_dsk) (s.(lg_start) + 1 + Z.of_nat k) = d ->
  exists b', install_one 1 ROOTDEV s.(lg_start) (Z.of_nat k) (put l_b_l b s) = Ok tt (put l_b_l b' s) /\
    trep p b' c /\ bstep b b' [(x, d)].
Proof.
  intros Hb Hwf Hk Hx Hdx Hnx Hc Hlog Hsz Hd.
  destruct (install_copy p b c s k x d) as (i & b1 & j & b2 & b3 & b4 & E1 & E2 & E3 & E4 & Hb4 & I1 & I2 & S4);
    try done; [unfold gettable; rewrite Hc; lia|by left|].
  set (L := lg_start s + 1 + Z.of_nat k) in *.
  assert (HcL : c !! L = None) by (apply Hlog; unfold L, in_log; lia).
  assert (HLx : L <> x) by (intros <-; apply Hnx; unfold L, in_log; lia).
  assert (HbL : forall y, bstep b b4 [(x, y)] -> y = blocks b4.(b_dsk) x /\ blocks b4.(b_dsk) L = blocks b.(b_dsk) L).
  { intros y (_ & Bl & _). rewrite !Bl. cbn. unfold wr_disk. cbn. by rewrite decide_True, decide_False. }
  rewrite hold2_comm in Hb4 by done.
  destruct (brelse2 p b4 c x j d L i d (mypid_of p b) Hb4) as (b5 & b6 & E5 & E6 & S6 & Hb6); try done.
  { by rewrite (bstep_pid _ _ _ _ S4). }
  { intros _. by apply HbL. }
  { intros _. rewrite (proj2 (HbL d S4)). by rewrite Hd. }
  { by eapply br_pos. }
  unfold install_one. cbn [bind]. rewrite (zoom_b _ _ _ _ _ E1). cbn [bind obind].
  rewrite (get_block_eq (put l_b_l b1 s) k x Hx). cbn [bind obind].
  rewrite (zoom_b _ _ _ _ _ E2). cbn [bind obind]. rewrite (zoom_b _ _ _ _ _ E3). cbn [bind obind].
  rewrite (zoom_b _ _ _ _ _ E4). cbn [bind obind Z.eqb ret].
  rewrite (zoom_b _ _ _ _ _ E5). cbn [bind obind]. rewrite (zoom_b _ _ _ _ _ E6).
  exists b6. split; [done|]. split; [|exact (bstep_trans _ _ _ _ _ S4 S6)].
  rewrite (back_same c x), back_same in Hb6; [exact Hb6| |]; intros e' He'; congruence.
Qed.

Lemma install_one_commit p b c s k x e :
  trep p b c -> lg_wf s -> 0 <= Z.of_nat k < s.(lg_size) - 1 ->
  s.(lh_block) !! k = Some x -> ~ in_log s x -> pinned c x e ->
  (forall m, in_log s m -> c !! m = None) -> (size c < 30)%nat ->
  blocks b.(b_dsk) (s.(lg_start) + 1 + Z.of_nat k) = e.(ce_data) ->
  exists b', install_one 0 ROOTDEV s.(lg_start) (Z.of_nat k) (put l_b_l b s) = Ok tt (put l_b_l b' s) /\
    trep p b' (unpin c x) /\ bstep b b' [(x, e.(ce_data))].
Proof.
  intros Hb Hwf Hk Hx Hnx (Hdx & Hc & Hlk & Href) Hlog Hsz Hd. set (d := ce_data e) in *.
  destruct (install_copy p b c s k x d) as (i & b1 & j & b2 & b3 & b4 & E1 & E2 & E3 & E4 & Hb4 & I1 & I2 & S4);
    try done; [unfold gettable; by rewrite Hc|right; split; [done|by eexists]|].
  set (L := lg_start s + 1 + Z.of_nat k) in *. set (pid := mypid_of p b) in *.
  assert (HcL : c !! L = None) by (apply Hlog; unfold L, in_log; lia).
  assert (HLx : L <> x) by (intros <-; apply Hnx; unfold L, in_log; lia).
  pose proof (br_pos _ _ _ Hb _ _ Hc) as Hpos.
  assert (Er : got_ref c x = ce_ref e + 1) by (unfold got_ref; by rewrite Hc).
  destruct (bunpin_step p b4 _ x _ Hb4 (hold2_snd _ _ _ _ _ _ _ _)) as (b5 & E5 & Hb5 & S5); [cbn; lia|].
  cbn [ce_idx held] in E5. set (e5 := with_ref _ _) in Hb5.
  pose proof (bstep_trans _ _ _ _ _ S4 S5) as S45. cbn [app] in S45.
  destruct (brelse_held p b5 c _ L i d pid Hb5) as (b6 & E6 & S6 & Hb6); try done.
  { rewrite lookup_insert_ne by congruence. by apply hold2_fst. }
  { by rewrite (bstep_pid _ _ _ _ S45). }
  { intros _. destruct S45 as (_ & Bl & _). rewrite Bl. cbn. unfold wr_disk. cbn. by rewrite decide_False. }
  { by apply (br_pos _ _ _ Hb). }
  pose proof (bstep_trans _ _ _ _ _ S45 S6) as S46. cbn [app] in S46.
  unfold dropped in Hb6. rewrite HcL in Hb6.
  destruct (brelse_step p b6 _ x e5 Hb6) as (b7 & E7 & Hb7 & S7).
  { rewrite lookup_delete_ne by congruence. apply lookup_insert_eq. }
  { by rewrite (bstep_pid _ _ _ _ S46). }
  { intros _. destruct S46 as (_ & Bl & _). rewrite Bl. cbn. unfold wr_disk. cbn. by rewrite decide_True. }
  change (ce_idx e5) with j in E7.
  unfold install_one. cbn [bind]. rewrite (zoom_b _ _ _ _ _ E1). cbn [bind obind].
  rewrite (get_block_eq (put l_b_l b1 s) k x Hx). cbn [bind obind].
  rewrite (zoom_b _ _ _ _ _ E2). cbn [bind obind]. rewrite (zoom_b _ _ _ _ _ E3). cbn [bind obind].
  rewrite (zoom_b _ _ _ _ _ E4). cbn [bind obind Z.eqb].
  rewrite (zoom_b _ _ _ _ _ E5). cbn [bind obind]. rewrite (zoom_b _ _ _ _ _ E6). cbn [bind obind].
  rewrite (zoom_b _ _ _ _ _ E7). exists b7. split; [done|]. split; [|exact (bstep_trans _ _ _ _ _ S46 S7)].
  replace (unpin c x) with (released x e5 (delete L (<[x := e5]> (hold2 c L i d x j d pid)))); [exact Hb7|].
  assert (E5r : ce_ref e5 = ce_ref e) by (unfold e5; cbn; lia).
  unfold unpin, released. rewrite Hc, E5r. unfold hold2. rewrite insert_insert_eq.
  assert (Hdel : forall y, delete L (<[x := y]> (<[L := held c L i d pid]> c)) = <[x := y]> c).
  { intros y. by rewrite delete_insert_ne, delete_insert_id by congruence. }
  rewrite Hdel. case_decide.
  - by rewrite delete_insert_eq.
  - rewrite insert_insert_eq. f_equal. unfold with_ref, e5, held. cbn. rewrite (I2 e Hc), Hlk. done.
Qed.

Definition unpins c (bl : list Z) : gmap Z centry := foldl unpin c bl.

Lemma unpin_ne c x y : y <> x -> unpin c x !! y = c !! y.
Proof.
  intros Hne. unfold unpin. destruct (c !! x) as [e|]; [|done].
  case_decide; [by rewrite lookup_delete_ne|by rewrite lookup_insert_ne].
Qed.

Lemma unpin_none c x y : c !! y = None -> unpin c x !! y = None.
Proof.
  intros Hy. destruct (decide (y = x)) as [->|Hne]; [|by rewrite unpin_ne]. unfold unpin. by rewrite Hy.
Qed.

Lemma unpin_size c x : (size (unpin c x) <= size c)%nat.
Proof.
  unfold unpin. destruct (c !! x) as [e|] eqn:E; [|done]. case_decide.
  - rewrite map_size_delete, E. cbn. lia.
  - by rewrite map_size_insert, E.
Qed.

Lemma unpins_ne c bl y : y ∉ bl -> unpins c bl !! y = c !! y.
Proof.
  revert c. induction bl as [|x bl IH]; intros c Hy; [done|]. cbn. unfold unpins in IH.
  rewrite IH by lelem. apply unpin_ne. lelemc.
Qed.

Lemma unpins_none c bl y : c !! y = None -> unpins c bl !! y = None.
Proof. revert c. induction bl as [|x bl IH]; intros c Hy; [done|]. cbn. by apply IH, unpin_none. Qed.

Lemma unpins_size c bl : (size (unpins c bl) <= size c)%nat.
Proof.
  revert c. induction bl as [|x bl IH]; intros c; [done|]. cbn. pose proof (unpin_size c x). pose proof (IH (unpin c x)).
  unfold unpins in *. lia.
Qed.

Lemma install_loop_commit p s c bl ds n k b :
  txn s c bl ds -> trep p b (unpins c (take k bl)) -> (k + n = length bl)%nat ->
  (forall i d, ds !! i = Some d -> blocks b.(b_dsk) (s.(lg_start) + 1 + Z.of_nat i) = d) ->
  exists b', iterM (seqZ (Z.of_nat k) (Z.of_nat n)) (install_one 0 ROOTDEV s.(lg_start)) (put l_b_l b s)
      = Ok tt (put l_b_l b' s) /\
    trep p b' (unpins c bl) /\ bstep b b' (zip (drop k bl) (drop k ds)).
Proof.
  intros Ht. revert k b. induction n as [|n IH]; intros k b Hb Hk Hlog.
  - exists b. rewrite take_ge in Hb by lia. split; [done|]. split; [done|]. rewrite drop_ge by lia. apply bstep_refl.
  - rewrite seqZ_S. cbn [iterM bind]. pose proof (tx_fit _ _ _ _ Ht). pose proof (tx_nodup _ _ _ _ Ht) as Hnd.
    destruct (lookup_lt_is_Some_2 bl k) as [x Hx]; [lia|].
    destruct (tx_entry _ _ _ _ _ _ Ht Hx) as (d & e & Hd & Hn & He & Ed).
    assert (Hnk : x ∉ take k bl).
    { intros Hin. apply list_elem_of_lookup in Hin as (j & Hj). apply lookup_take_Some in Hj as [Hj Hlt].
      pose proof (NoDup_lookup _ _ _ _ Hnd Hx Hj). lia. }
    assert (Hp : pinned (unpins c (take k bl)) x e).
    { destruct He as (? & Hc & ?). split; [done|]. by rewrite unpins_ne. }
    destruct (install_one_commit p b _ s k x e Hb (tx_wf _ _ _ _ Ht)) as (b1 & E1 & Hb1 & S1); try done; [lia|..].
    { by eapply tx_block. }
    { intros m Hm. apply unpins_none. exact (tx_log _ _ _ _ Ht m Hm). }
    { pose proof (unpins_size c (take k bl)). pose proof (tx_size _ _ _ _ Ht). lia. }
    { rewrite Ed. by apply Hlog. }
    rewrite E1. cbn [obind]. replace (Z.succ (Z.of_nat k)) with (Z.of_nat (Datatypes.S k)) by lia.
    destruct (IH (Datatypes.S k) b1) as (b2 & E2 & Hb2 & S2); [|lia| |].
    { rewrite (take_S_r _ _ _ Hx). unfold unpins. rewrite foldl_app. exact Hb1. }
    { intros i d' Hd'. destruct S1 as (_ & Bl & _). rewrite Bl. cbn. unfold wr_disk. cbn.
      rewrite decide_False; [by apply Hlog|]. intros <-. apply Hn. unfold in_log.
      pose proof (tx_len _ _ _ _ Ht). apply lookup_lt_Some in Hd'. lia. }
    exists b2. split; [done|]. split; [done|]. rewrite (drop_S _ _ _ Hx), (drop_S _ _ _ Hd). cbn [zip zip_with].
    rewrite Ed in S1. exact (bstep_trans _ _ _ _ _ S1 S2).
Qed.

(** ** commit *)

Lemma set_n_put s b n : put lh_n_l n (put l_b_l b s) = put l_b_l b (put lh_n_l n s).
Proof. done. Qed.

Lemma wf_set_n s n : lg_wf s -> lg_wf (put lh_n_l n s).
Proof. intros []. by split. Qed.

Lemma commit_eq p s c bl ds b :
  txn s c bl ds -> trep p b c -> bl <> [] ->
  exists b', commit (put l_b_l b s) = Ok tt (put l_b_l b' (put lh_n_l 0 s)) /\
    trep p b' (unpins c bl) /\ bstep b b' (commit_writes s.(lg_start) (blocks b.(b_dsk)) bl ds).
Proof.
  intros Ht Hb Hne. pose proof (tx_wf _ _ _ _ Ht) as Hwf. pose proof (tx_fit _ _ _ _ Ht) as Hfit.
  pose proof (wf_size _ Hwf) as Hsize. unfold LOGSIZE, MAXOPBLOCKS in Hsize. set (st := lg_start s).
  assert (Hstart : in_log s st) by (unfold in_log; lia).
  unfold commit. lgfields. rewrite (tx_n _ _ _ _ Ht).
  assert (Hpos : (Z.of_nat (length bl) >? 0) = true) by (apply Z.gtb_lt; destruct bl; [done|cbn; lia]). rewrite Hpos.
  cbn [bind]. destruct (write_log_eq p s c bl ds b Ht Hb) as (b1 & E1 & Hb1 & S1). rewrite E1. cbn [obind bind].
  destruct (write_head_eq p s c bl b1 Hb1 Hwf (tx_n _ _ _ _ Ht)) as (b2 & E2 & Hb2 & S2);
    [lia|intros j x Hj; by eapply tx_block|exact (tx_log _ _ _ _ Ht _ Hstart)|exact (tx_size _ _ _ _ Ht)|].
  rewrite E2. cbn [obind bind]. unfold install_trans. lgfields.
  rewrite (tx_n _ _ _ _ Ht), (wf_dev _ Hwf).
  assert (Es1 : blocks (b_dsk b1) st = blocks (b_dsk b) st).
  { destruct S1 as (_ & Bl & _). rewrite Bl. apply apply_writes_out. intros Hin%log_writes_fst. unfold st in Hin. lia. }
  fold st in S2. rewrite Es1 in S2. pose proof (bstep_trans _ _ _ _ _ S1 S2) as S12. fold st in S12.
  destruct (install_loop_commit p s c bl ds (length bl) 0 b2 Ht Hb2) as (b3 & E3 & Hb3 & S3); [lia| |].
  { intros i d Hd. destruct S12 as (_ & Bl & _). rewrite Bl, apply_writes_snoc, decide_False by (unfold st; lia).
    by apply log_writes_read. }
  change (Z.of_nat 0) with 0 in E3. rewrite E3. cbn [obind bind set modify]. rewrite set_n_put. rewrite !drop_0 in S3.
  destruct (write_head_eq p (put lh_n_l 0 s) _ [] b3 Hb3 (wf_set_n _ 0 Hwf) eq_refl) as (b4 & E4 & Hb4 & S4);
    [cbn; lia|done|apply unpins_none; exact (tx_log _ _ _ _ Ht _ Hstart)| |].
  { pose proof (unpins_size c bl). pose proof (tx_size _ _ _ _ Ht). lia. }
  rewrite E4. exists b4. split; [done|]. split; [done|].
  pose proof (bstep_trans _ _ _ _ _ S12 S3) as S13.
  assert (Es3 : blocks (b_dsk b3) st = head_bytes bl (blocks (b_dsk b) st)).
  { destruct S13 as (_ & Bl & _). rewrite Bl, apply_writes_app. rewrite apply_writes_out.
    - by rewrite apply_writes_snoc, decide_True.
    - intros Hin%zip_fst_subset. apply list_elem_of_lookup in Hin as (j & Hj).
      by destruct (tx_entry _ _ _ _ _ _ Ht Hj) as (? & ? & _ & ? & _). }
  cbn [put lh_n_l lg_start] in S4. fold st in S4. rewrite Es3 in S4.
  pose proof (bstep_trans _ _ _ _ _ S13 S4) as S14. rewrite <- !app_assoc in S14. exact S14.
Qed.

(** ** Recovery *)

Lemma set_blocks_loop s (f : Z -> Z) n k :
  length s.(lh_block) = 30%nat -> (k + n <= 30)%nat ->
  exists l, iterM (seqZ (Z.of_nat k) (Z.of_nat n)) (fun i => set_block i (f i)) s = Ok tt (put lh_block_l l s) /\
    length l = 30%nat /\ (forall j, (k <= j < k + n)%nat -> l !! j = Some (f (Z.of_nat j))) /\
    (forall j, ~ (k <= j < k + n)%nat -> l !! j = s.(lh_block) !! j).
Proof.
  revert k s. induction n as [|n IH]; intros k s Hl Hk.
  - exists s.(lh_block). split; [by destruct s|]. split; [done|]. split; [lia|done].
  - rewrite seqZ_S. cbn [iterM bind]. unfold set_block at 1. lgfields.
    assert (Hr : (0 <=? Z.of_nat k) && (Z.of_nat k <? Z.of_nat (length (lh_block s))) = true).
    { apply andb_true_iff. split; [apply Z.leb_le|apply Z.ltb_lt]; lia. }
    rewrite Hr, Nat2Z.id. cbn [set modify obind].
    set (s1 := put lh_block_l _ s). replace (Z.succ (Z.of_nat k)) with (Z.of_nat (Datatypes.S k)) by lia.
    destruct (IH (Datatypes.S k) s1) as (l & E & Hll & Hin & Hout); [by cbn; rewrite length_insert|lia|].
    exists l. split; [exact E|]. split; [done|]. split.
    + intros j Hj. destruct (decide (j = k)) as [->|Hne]; [|apply Hin; lia].
      rewrite Hout by lia. cbn. rewrite list_lookup_insert_eq by lia. done.
    + intros j Hj. rewrite Hout by lia. cbn. apply list_lookup_insert_ne. lia.
Qed.

Lemma read_head_eq p s c b :
  trep p b c -> lg_wf s -> c !! s.(lg_start) = None -> (size c < 30)%nat ->
  head_ok s.(lg_start) s.(lg_size) (blocks b.(b_dsk) s.(lg_start)) ->
  exists b' l, read_head (put l_b_l b s) =
      Ok tt (put l_b_l b' (put lh_block_l l (put lh_n_l (head_n (blocks b.(b_dsk) s.(lg_start))) s))) /\
    trep p b' c /\ bstep b b' [] /\ length l = 30%nat /\
    (forall j x, head_list (blocks b.(b_dsk) s.(lg_start)) !! j = Some x -> l !! j = Some x).
Proof.
  intros Hb Hwf Hc Hsz (Hlen & Hn & _). set (st := lg_start s) in *. set (h := blocks _ st) in *.
  destruct (log_blockno s 0 Hwf) as (Eu & Hin & _); [destruct Hwf; lia|]. rewrite Z.add_0_r in Eu, Hin. fold st in Eu, Hin.
  unfold read_head. lgfields. rewrite (wf_dev _ Hwf). fold st. rewrite Eu.
  destruct (bread_step p b c st Hb) as (i & b1 & E1 & Hb1 & _ & S1); [by unfold gettable; rewrite Hc|done|].
  rewrite (zoom_b _ _ _ _ _ E1). cbn [obind bind]. clear E1.
  unfold bview, got_ref in Hb1. rewrite Hc in Hb1. fold h in Hb1. set (e1 := CE i _ _ _) in Hb1.
  assert (Eg : get_data i b1 = Ok h b1).
  { unfold get_data. cbn [bind get gets obind ret]. f_equal.
    exact (entry_data _ _ _ _ _ Hb1 (lookup_insert_eq _ st e1)). }
  rewrite (zoom_b _ _ _ _ _ Eg). cbn [obind bind set modify]. rewrite set_n_put.
  pose proof (wf_size _ Hwf) as Hsize. unfold LOGSIZE, MAXOPBLOCKS in Hsize.
  destruct (set_blocks_loop (put l_b_l b1 (put lh_n_l (head_n h) s)) (head_block h) (Z.to_nat (head_n h)) 0)
    as (l & E2 & Hll & Hl1 & _); [exact (wf_len _ Hwf)|lia|].
  rewrite Z2Nat.id in E2 by lia. change (Z.of_nat 0) with 0 in E2. rewrite E2. cbn [obind bind].
  change (put lh_block_l l (put l_b_l b1 ?x)) with (put l_b_l b1 (put lh_block_l l x)).
  destruct (brelse_step p b1 _ st e1 Hb1 (lookup_insert_eq _ _ _)) as (b2 & E3 & Hb2 & S2).
  { by rewrite (bstep_pid _ _ _ _ S1). }
  { intros _. destruct S1 as (_ & Bl & _). by rewrite Bl. }
  change (ce_idx e1) with i in E3. rewrite (zoom_b _ _ _ _ _ E3).
  exists b2, l. split; [done|]. split; [|split; [exact (bstep_trans _ _ _ _ _ S1 S2)|split; [done|]]].
  - unfold released in Hb2. rewrite decide_True in Hb2 by done. by rewrite delete_insert_id in Hb2.
  - intros j x Hj. unfold head_list in Hj. rewrite list_lookup_fmap in Hj.
    destruct (seqZ 0 (head_n h) !! j) as [y|] eqn:Ey; [|done]. cbn in Hj. injection Hj as <-.
    apply lookup_seqZ in Ey as [-> Hlt]. rewrite Hl1 by lia. done.
Qed.

Lemma install_loop_recover p s c bl n k b :
  trep p b c -> lg_wf s -> (k + n = length bl)%nat -> Z.of_nat (length bl) <= s.(lg_size) - 1 ->
  (forall j x, bl !! j = Some x -> s.(lh_block) !! j = Some x /\ in_disk x /\ ~ in_log s x /\ c !! x = None) ->
  (forall m, in_log s m -> c !! m = None) -> (size c < 29)%nat ->
  exists b', iterM (seqZ (Z.of_nat k) (Z.of_nat n)) (install_one 1 ROOTDEV s.(lg_start)) (put l_b_l b s)
      = Ok tt (put l_b_l b' s) /\ trep p b' c /\
    bstep b b' (zip (drop k bl) ((fun i => blocks b.(b_dsk) (s.(lg_start) + 1 + i)) <$> seqZ (Z.of_nat k) (Z.of_nat n))).
Proof.
  intros Hb Hwf. revert k b Hb. induction n as [|n IH]; intros k b Hb Hk Hfit Hbl Hlog Hsz.
  - exists b. split; [done|]. split; [done|]. rewrite drop_ge by lia. apply bstep_refl.
  - rewrite seqZ_S. cbn [iterM bind]. destruct (lookup_lt_is_Some_2 bl k) as [x Hx]; [lia|].
    destruct (Hbl k x Hx) as (Hb1 & Hb2 & Hb3 & Hb4).
    edestruct (install_one_recover p b c s k x) as (b1 & E1 & Hbr & S1); try done; [lia|].
    rewrite E1. cbn [obind]. replace (Z.succ (Z.of_nat k)) with (Z.of_nat (Datatypes.S k)) by lia.
    destruct (IH (Datatypes.S k) b1 Hbr) as (b2 & E2 & Hbr2 & S2); try done; [lia|].
    exists b2. split; [done|]. split; [done|]. rewrite (drop_S _ _ _ Hx). cbn [fmap list_fmap zip zip_with].
    refine (eq_rect _ (bstep b b2) (bstep_trans _ _ _ _ _ S1 S2) _ _). cbn [app]. do 2 f_equal.
    apply list_fmap_ext. intros i y Hy. apply lookup_seqZ in Hy as [-> Hlt]. destruct S1 as (_ & Bl & _).
    rewrite Bl. cbn. unfold wr_disk. cbn. rewrite decide_False; [done|]. intros <-. apply Hb3. unfold in_log. lia.
Qed.

Lemma recover_from_log_eq p s c b :
  trep p b c -> lg_wf s -> (forall m, c !! m = None) ->
  head_ok s.(lg_start) s.(lg_size) (blocks b.(b_dsk) s.(lg_start)) ->
  exists b' l, recover_from_log (put l_b_l b s) = Ok tt (put l_b_l b' (put lh_block_l l (put lh_n_l 0 s))) /\
    length l = 30%nat /\ trep p b' c /\ bstep b b' (recover_writes s.(lg_start) (blocks b.(b_dsk))).
Proof.
  intros Hb Hwf Hc Hh. assert (Hsz : size c = 0%nat) by (apply map_size_empty_iff, map_empty; exact Hc).
  unfold recover_from_log. cbn [bind].
  destruct (read_head_eq p s c b Hb Hwf (Hc _)) as (b1 & l & E1 & Hb1 & S1 & Hll & Hl); [lia|done|].
  rewrite E1. cbn [obind bind]. set (h := blocks (b_dsk b) (lg_start s)) in *. set (s1 := put lh_block_l l _).
  assert (Hwf1 : lg_wf s1) by (destruct Hwf; by split).
  destruct Hh as (Hlen & Hn & Hout). unfold install_trans. lgfields. rewrite (wf_dev _ Hwf1).
  change (lh_n s1) with (head_n h). change (lg_start s1) with (lg_start s).
  assert (Hlh : length (head_list h) = Z.to_nat (head_n h)) by (unfold head_list; by rewrite length_fmap, length_seqZ).
  destruct (install_loop_recover p s1 c (head_list h) (Z.to_nat (head_n h)) 0 b1 Hb1 Hwf1) as (b2 & E2 & Hb2 & S2);
    try done; [rewrite Hlh; cbn; lia| |lia|].
  { intros j x Hj. split; [by apply Hl|]. apply list_elem_of_lookup_2 in Hj.
    apply (head_list_out (lg_start s) (lg_size s)) in Hj as [? ?]; [|done]. split; [done|]. split; [done|apply Hc]. }
  rewrite Z2Nat.id in E2, S2 by lia. change (Z.of_nat 0) with 0 in E2, S2.
  change (lg_start s1) with (lg_start s) in E2, S2. rewrite E2. cbn [obind bind set modify].
  rewrite set_n_put. pose proof (bstep_trans _ _ _ _ _ S1 S2) as S12. cbn [app] in S12. rewrite drop_0 in S12.
  destruct (write_head_eq p (put lh_n_l 0 s1) c [] b2 Hb2 (wf_set_n _ 0 Hwf1) eq_refl) as (b3 & E3 & Hb3 & S3);
    [cbn; lia|done|apply Hc|lia|].
  rewrite E3. exists b3, l. split; [done|]. split; [done|]. split; [done|].
  assert (Es : blocks (b_dsk b2) (lg_start s) = h).
  { destruct S12 as (_ & Bl & _). rewrite Bl. apply apply_writes_out. intros Hin%zip_fst_subset.
    apply (head_list_out (lg_start s) (lg_size s)) in Hin as [_ Ha]; [|done]. apply Ha.
    pose proof (wf_size _ Hwf). unfold in_area. lia. }
  change (lg_start (put lh_n_l 0 s1)) with (lg_start s) in S3. rewrite Es in S3.
  refine (eq_rect _ (bstep b b3) (bstep_trans _ _ _ _ _ S12 S3) _ _).
  unfold recover_writes, install_writes. fold h. rewrite Hlh, Z2Nat.id by lia. f_equal. f_equal.
  apply list_fmap_ext. intros i y _. destruct S1 as (_ & Bl & _). by rewrite Bl.
Qed.

End LogSpec.
