(* ===== verification/LogOps.v ===== *)
(** * The log: system calls

    [log_write], [begin_op] and [end_op] as functions of the logged blocks
    and the map of referenced buffers. *)

From S2P Require Import Prelude Riscv Memory Spinlock Kalloc Vm Tty Proc ProcSpec Sleeplock Bio BioSpec Block Log LogCrash LogSpec.

Section LogOps.
Context {D : Type} `{DiskLaws D} `{Patience}.
Implicit Types (b : bst D) (s : lgst D) (c : gmap Z centry).

(** ** Code of the cache under the lock of the log *)

Lemma brep_p p b c t :
  brep p b c -> running p t -> brep p (put b_p_l t b) c.
Proof. intros [] Hr. by split. Qed.

Definition with_hart (h : hart) (t : pst) : pst := put the_hart h t.

Lemma running_hart p t h :
  running p t -> hart_stable h -> h.(cpu_proc) = Some p -> running p (with_hart h t).
Proof. intros [[_ Hl] _] Hh Hp. split; [split; [exact Hh|exact Hl]|exact Hp]. Qed.

(** An operation of the cache that leaves the process table as it is. *)
Lemma zoom_b_in {A : Type} p (m : M (bst D) A) s c a c' :
  brep p s.(l_b) c -> lock_free s.(lg_lock) ->
  (forall b, brep p b c -> b.(bufs) = s.(l_b).(bufs) -> b.(b_dsk) = s.(l_b).(b_dsk) ->
     exists b', m b = Ok a b' /\ brep p b' c' /\ b'.(b_p) = b.(b_p) /\ b'.(b_dsk) = b.(b_dsk)) ->
  exists b', zoom l_b_l m (in_lock lg_lock_l s) = Ok a (in_lock lg_lock_l (put l_b_l b' s)) /\
    brep p b' c' /\ b'.(b_p) = s.(l_b).(b_p) /\ b'.(b_dsk) = s.(l_b).(b_dsk).
Proof.
  intros Hb Hl Hm. pose proof (br_run _ _ _ Hb) as Hr.
  set (bi := l_b (in_lock lg_lock_l s)).
  assert (Ebi : bi = put b_p_l (with_hart (push_off_h (phart s.(l_b).(b_p))) s.(l_b).(b_p)) s.(l_b)) by done.
  assert (Hri : running p (b_p bi)) by exact (running_in lg_lock_l p s Hr).
  destruct (Hm bi) as (b1 & E & Hb1 & Ep & Ed); [|done|done|].
  { rewrite Ebi. apply brep_p; [done|]. rewrite Ebi in Hri. exact Hri. }
  exists (put b_p_l s.(l_b).(b_p) b1). split.
  - unfold zoom. change (view l_b_l (in_lock lg_lock_l s)) with bi. rewrite E. cbn [zoom_out]. f_equal.
    unfold in_lock. rewrite Ebi in Ep. destruct b1, s as [[]]. cbn in Ep. subst. done.
  - split; [by apply brep_p|]. split; [done|exact Ed].
Qed.

(** ** Finding a block in the header *)

Fixpoint find_ix (x : Z) (bl : list Z) : nat :=
  match bl with
  | [] => O
  | y :: bl' => if y =? x then O else Datatypes.S (find_ix x bl')
  end.

Lemma find_ix_in x bl : x ∈ bl -> bl !! find_ix x bl = Some x /\ (find_ix x bl < length bl)%nat.
Proof.
  induction bl as [|y bl IH]; intros Hx; [by apply elem_of_nil in Hx|]. cbn.
  destruct (Z.eqb_spec y x) as [->|Hne]; [split; [done|lia]|].
  apply elem_of_cons in Hx as [->|Hx]; [done|]. destruct (IH Hx). cbn. split; [done|lia].
Qed.

Lemma find_ix_out x bl : x ∉ bl -> find_ix x bl = length bl.
Proof.
  induction bl as [|y bl IH]; intros Hx; [done|]. cbn. destruct (Z.eqb_spec y x) as [->|Hne]; [lelem|].
  rewrite IH by lelem. done.
Qed.

(** The blocks in the header in memory. *)
Record logged s (bl : list Z) : Prop := {
  lo_n : s.(lh_n) = Z.of_nat (length bl);
  lo_len : length s.(lh_block) = 30%nat;
  lo_fit : (length bl <= 30)%nat;
  lo_blocks : take (length bl) s.(lh_block) = bl;
  lo_disk : Forall in_disk bl
}.

Lemma log_find_loop s x bl k :
  (forall j y, bl !! j = Some y -> s.(lh_block) !! (k + j)%nat = Some y) -> Forall in_disk bl ->
  for_each (seqZ (Z.of_nat k) (Z.of_nat (length bl)))
    (fun i => b <- get_block i ;; ret (if u32 b =? x then Some i else None)) s =
  Ok (if decide (x ∈ bl) then Some (Z.of_nat (k + find_ix x bl)) else None) s.
Proof.
  revert k. induction bl as [|y bl IH]; intros k Hl Hd; [done|]. cbn [length]. rewrite seqZ_S. cbn [for_each bind].
  rewrite (get_block_eq s k y) by (rewrite <- (Nat.add_0_r k); by apply Hl). cbn [obind bind ret].
  apply Forall_cons in Hd as [Hy Hd]. rewrite (in_disk_u32 y Hy). cbn [find_ix].
  destruct (Z.eqb_spec y x) as [->|Hne].
  - rewrite decide_True by lelem. by rewrite Nat.add_0_r.
  - replace (Z.succ (Z.of_nat k)) with (Z.of_nat (Datatypes.S k)) by lia. rewrite IH; [|intros j z Hj|done].
    + assert (Hiff : x ∈ y :: bl <-> x ∈ bl) by (split; lelemc). f_equal.
      destruct (decide (x ∈ bl)); [rewrite decide_True by tauto|by rewrite decide_False by tauto].
      do 2 f_equal. lia.
    + replace (Datatypes.S k + j)%nat with (k + Datatypes.S j)%nat by lia. by apply Hl.
Qed.

Lemma logged_lookup s bl j y : logged s bl -> bl !! j = Some y -> s.(lh_block) !! j = Some y.
Proof. intros Hl Hj. rewrite <- (lo_blocks _ _ Hl) in Hj. by apply lookup_take_Some in Hj as [? _]. Qed.

Lemma log_find_eq s x bl :
  logged s bl -> log_find (Z.of_nat (length bl)) x s = Ok (Z.of_nat (find_ix x bl)) s.
Proof.
  intros Hl. unfold log_find. cbn [bind].
  pose proof (log_find_loop s x bl 0 (fun j y Hj => logged_lookup s bl j y Hl Hj) (lo_disk _ _ Hl)) as E.
  change (Z.of_nat 0) with 0 in E. rewrite E. cbn [obind ret]. f_equal.
  destruct (decide (x ∈ bl)); [done|]. by rewrite find_ix_out.
Qed.

(** ** log_write *)

(** The parts of the log that its operations leave alone. *)
Record lg_frame s s' : Prop := {
  fr_lock : s'.(lg_lock) = s.(lg_lock);
  fr_start : s'.(lg_start) = s.(lg_start);
  fr_size : s'.(lg_size) = s.(lg_size);
  fr_dev : s'.(lg_dev) = s.(lg_dev);
  fr_out : s'.(lg_outstanding) = s.(lg_outstanding);
  fr_com : s'.(lg_committing) = s.(lg_committing)
}.

(** The logged blocks and the map after [log_write] of block [x]. *)
Definition log_add (x : Z) (bl : list Z) : list Z := if decide (x ∈ bl) then bl else bl ++ [x].
Definition log_pin (x : Z) (e : centry) (bl : list Z) c : gmap Z centry :=
  if decide (x ∈ bl) then c else <[x := with_ref (e.(ce_ref) + 1) e]> c.

Lemma logged_add s s' bl x :
  logged s bl -> in_disk x -> (length bl < 30)%nat -> s'.(lh_block) = <[length bl := x]> s.(lh_block) ->
  s'.(lh_n) = s.(lh_n) + 1 -> logged s' (bl ++ [x]).
Proof.
  intros [] Hx Hlt El En. assert (Hll : length s'.(lh_block) = 30%nat) by (rewrite El, length_insert; done).
  split; rewrite ?length_app; cbn [length].
  - rewrite En, lo_n0. lia.
  - done.
  - lia.
  - replace (length bl + 1)%nat with (Datatypes.S (length bl)) by lia.
    rewrite (take_S_r _ _ x) by (rewrite El; apply list_lookup_insert_eq; lia). f_equal.
    rewrite El, take_insert_ge by lia. done.
  - apply Forall_app. split; [done|]. by apply Forall_singleton.
Qed.

Lemma get_buf_in s i :
  zoom l_b_l (get (buf_l i)) (in_lock lg_lock_l s) = Ok (bbuf s.(l_b) i) (in_lock lg_lock_l s).
Proof. by destruct s as [[]]. Qed.

Lemma log_write_eq p s c bl x e :
  brep p s.(l_b) c -> lock_free s.(lg_lock) -> logged s bl ->
  Z.of_nat (length bl) < s.(lg_size) - 1 -> s.(lg_size) <= LOGSIZE -> 1 <= s.(lg_outstanding) ->
  c !! x = Some e -> in_disk x -> e.(ce_ref) + 1 < 2 ^ 31 ->
  exists s', log_write e.(ce_idx) s = Ok tt s' /\ logged s' (log_add x bl) /\ lg_frame s s' /\
    brep p s'.(l_b) (log_pin x e bl c) /\ s'.(l_b).(b_p) = s.(l_b).(b_p) /\ s'.(l_b).(b_dsk) = s.(l_b).(b_dsk).
Proof.
  intros Hb Hl Hlog Hfit Hsz Ho Hc Hx Hr. pose proof (br_run _ _ _ Hb) as [[Hh _] _].
  unfold LOGSIZE, MAXOPBLOCKS in Hsz. pose proof (lo_n _ _ Hlog) as En.
  unfold log_write. cbn [bind]. rewrite (acquire_in lg_lock_l s Hl). lgfields.
  change (lh_n (in_lock lg_lock_l s)) with (lh_n s). change (lg_size (in_lock lg_lock_l s)) with (lg_size s).
  rewrite En.
  replace (_ >=? LOGSIZE) with false by (symmetry; rewrite Z.geb_leb; apply Z.leb_gt; unfold LOGSIZE, MAXOPBLOCKS; lia).
  replace (_ >=? _ - 1) with false by (symmetry; rewrite Z.geb_leb; apply Z.leb_gt; lia).
  cbn [orb]. lgfields. change (lg_outstanding (in_lock lg_lock_l s)) with (lg_outstanding s).
  replace (_ <? 1) with false by (symmetry; apply Z.ltb_ge; lia).
  cbn [bind]. rewrite get_buf_in. cbn [obind bind].
  destruct (br_describes _ _ _ _ _ Hb Hc) as (_ & Ebn & _). rewrite Ebn.
  assert (Hlog1 : logged (in_lock lg_lock_l s) bl) by (destruct Hlog; by split).
  rewrite (log_find_eq _ x bl Hlog1). cbn [obind bind].
  assert (Es : s32 x = x) by (unfold in_disk, FSSIZE in Hx; apply s32_small; lia). rewrite Es.
  unfold set_block. lgfields. change (lh_block (in_lock lg_lock_l s)) with (lh_block s).
  rewrite (lo_len _ _ Hlog), Nat2Z.id.
  assert (Hix : (find_ix x bl <= length bl)%nat).
  { destruct (decide (x ∈ bl)) as [Hin|Hout]; [apply find_ix_in in Hin; lia|by rewrite find_ix_out]. }
  replace ((0 <=? _) && _) with true
    by (symmetry; apply andb_true_iff; split; [apply Z.leb_le; lia|apply Z.ltb_lt; lia]).
  cbn [set modify obind bind].
  change (put lh_block_l ?l (in_lock lg_lock_l s)) with (in_lock lg_lock_l (put lh_block_l l s)).
  unfold log_add, log_pin. case_decide as Hin.
  - destruct (find_ix_in x bl Hin) as [Hix1 Hix2].
    replace (Z.of_nat (find_ix x bl) =? Z.of_nat (length bl)) with false by (symmetry; apply Z.eqb_neq; lia).
    rewrite list_insert_id by by eapply logged_lookup. cbn [ret obind].
    replace (put lh_block_l (lh_block s) s) with s by by destruct s.
    rewrite (release_in lg_lock_l) by done. exists s. split; [done|]. split; [done|]. by split.
  - rewrite find_ix_out by done. rewrite Z.eqb_refl. cbn [bind].
    set (s1 := put lh_block_l _ s).
    destruct (zoom_b_in p (bpin (ce_idx e)) s1 c tt (<[x := with_ref (ce_ref e + 1) e]> c) Hb Hl)
      as (b1 & E1 & Hb1 & Ep1 & Ed1).
    { intros b Hbb _ _. by apply bpin_eq. }
    rewrite E1. cbn [obind update modify].
    change (put lh_n_l ?v (in_lock lg_lock_l ?t)) with (in_lock lg_lock_l (put lh_n_l v t)).
    change (view lh_n_l (in_lock lg_lock_l (put l_b_l b1 s1))) with (lh_n s). rewrite En, s32_small by lia.
    rewrite (release_in lg_lock_l); [|change (hart_stable (phart (b_p b1))); rewrite Ep1; exact Hh|done].
    eexists. split; [reflexivity|]. split; [|split; [done|by split]].
    apply (logged_add s); try done; [lia|]. cbn. by rewrite En.
Qed.

(** ** begin_op *)

(** There is room for one more system call. *)
Definition room s : bool :=
  negb (nz s.(lg_committing)) && (s.(lh_n) + (s.(lg_outstanding) + 1) * MAXOPBLOCKS <=? LOGSIZE).

Lemma begin_op_room s :
  lock_free s.(lg_lock) -> hart_stable (phart s.(l_b).(b_p)) -> room s = true -> 0 <= s.(lg_outstanding) < 30 ->
  begin_op s = Ok tt (put lg_outstanding_l (s.(lg_outstanding) + 1) s).
Proof.
  intros Hl Hh Hr Ho. apply andb_true_iff in Hr as [Hc%negb_true_iff Hn%Z.leb_le].
  unfold begin_op. cbn [bind]. rewrite (acquire_in lg_lock_l s Hl). cbn [obind]. rewrite loop_S.
  unfold begin_op_body. lgfields. change (lg_committing (in_lock lg_lock_l s)) with (lg_committing s). rewrite Hc.
  lgfields. change (lh_n (in_lock lg_lock_l s)) with (lh_n s).
  change (lg_outstanding (in_lock lg_lock_l s)) with (lg_outstanding s).
  replace (_ >? LOGSIZE) with false by (symmetry; rewrite Z.gtb_ltb; apply Z.ltb_ge; lia).
  cbn [update modify bind obind].
  change (view lg_outstanding_l (in_lock lg_lock_l s)) with (lg_outstanding s). rewrite s32_small by lia.
  change (put lg_outstanding_l ?v (in_lock lg_lock_l s)) with (in_lock lg_lock_l (put lg_outstanding_l v s)).
  rewrite (release_in lg_lock_l); [done|exact Hh|exact Hl].
Qed.

Lemma begin_op_full p s :
  lock_free s.(lg_lock) -> running p s.(l_b).(b_p) -> noff (phart s.(l_b).(b_p)) = 0 -> room s = false ->
  exists k, begin_op s = Swtch (asleep lg_lock_l p chLog (in_lock lg_lock_l s)) k.
Proof.
  intros Hl Hr H0' Hroom. pose proof Hr as [[Hh Hu] Hp].
  pose proof (running_in lg_lock_l p s Hr) as Hri.
  assert (Es : exists k, sleep chLog lg_lock_l (in_lock lg_lock_l s) = Swtch (asleep lg_lock_l p chLog (in_lock lg_lock_l s)) k).
  { eexists. apply sleep_eq; [apply _|apply _| |exact (proj2 Hri)| |exact (proj2 (proj1 Hri) p (fun F => F))].
    - rewrite pv_in by apply _. change (phart (put the_hart ?h ?t)) with h. split.
      + rewrite push_off_noff. change (pv s) with (b_p (l_b s)). lia.
      + apply push_off_off.
    - rewrite pv_in by apply _. apply held_by_holding. }
  destruct Es as [k Es]. unfold begin_op. cbn [bind]. rewrite (acquire_in lg_lock_l s Hl). cbn [obind]. rewrite loop_S.
  unfold begin_op_body. lgfields. change (lg_committing (in_lock lg_lock_l s)) with (lg_committing s).
  unfold room in Hroom. destruct (nz (lg_committing s)).
  - cbn [bind]. rewrite Es. cbn [obind]. by eexists.
  - cbn [negb andb] in Hroom. apply Z.leb_gt in Hroom. lgfields.
    change (lh_n (in_lock lg_lock_l s)) with (lh_n s).
    change (lg_outstanding (in_lock lg_lock_l s)) with (lg_outstanding s).
    replace (_ >? LOGSIZE) with true by (symmetry; rewrite Z.gtb_ltb; apply Z.ltb_lt; lia).
    cbn [bind]. rewrite Es. cbn [obind]. by eexists.
Qed.

(** ** end_op *)

Lemma wakeup_log p s :
  running p s.(l_b).(b_p) ->
  exists t, wakes s.(l_b).(b_p) t /\
    zoom the_pst (wakeup chLog) (in_lock lg_lock_l s) = Ok tt (in_lock lg_lock_l (put l_b_l (put b_p_l t s.(l_b)) s)).
Proof. intros Hr. exact (wakeup_in lg_lock_l p chLog s Hr). Qed.

Lemma trep_wakes p b c t : trep p b c -> wakes b.(b_p) t -> trep p (put b_p_l t b) c.
Proof.
  intros Hb Hw. split; [|exact (thread_wakes _ _ _ Hw (tr_thr _ _ _ Hb))].
  apply brep_p; [exact Hb|]. exact (running_wakes _ _ _ Hw (br_run _ _ _ Hb)).
Qed.

Lemma bstep_p b t : wakes b.(b_p) t -> bstep b (put b_p_l t b) [].
Proof. intros Hw. by apply bstep_same. Qed.

(** Not the last system call: its reservation is given back. *)
Lemma end_op_more p s c :
  trep p s.(l_b) c -> lock_free s.(lg_lock) -> s.(lg_committing) = 0 -> 1 < s.(lg_outstanding) < 2 ^ 31 ->
  exists t, wakes s.(l_b).(b_p) t /\
    end_op s = Ok tt (put lg_outstanding_l (s.(lg_outstanding) - 1) (put l_b_l (put b_p_l t s.(l_b)) s)).
Proof.
  intros Hb Hl Hc Ho. pose proof (br_run _ _ _ Hb) as Hr. set (s1 := put lg_outstanding_l (lg_outstanding s - 1) s).
  destruct (wakeup_log p s1 Hr) as (t & Hw & Ew). exists t. split; [done|].
  unfold end_op. cbn [bind]. rewrite (acquire_in lg_lock_l s Hl). cbn [bind obind update modify].
  change (view lg_outstanding_l (in_lock lg_lock_l s)) with (lg_outstanding s). rewrite s32_small by lia.
  change (put lg_outstanding_l ?v (in_lock lg_lock_l s)) with (in_lock lg_lock_l (put lg_outstanding_l v s)).
  fold s1. lgfields. change (lg_committing (in_lock lg_lock_l s1)) with (lg_committing s). rewrite Hc. cbn [nz Z.eqb negb].
  lgfields. change (lg_outstanding (in_lock lg_lock_l s1)) with (lg_outstanding s - 1).
  replace (_ =? 0) with false by (symmetry; apply Z.eqb_neq; lia). cbn [bind]. rewrite Ew. cbn [bind obind ret].
  rewrite (release_in lg_lock_l); [done| |exact Hl].
  change (hart_stable (phart t)). rewrite (wakes_hart _ _ Hw). exact (proj1 (proj1 Hr)).
Qed.

(** What the transaction writes on the last [end_op]. *)
Definition txn_writes s bl ds : list (Z * list Z) :=
  match bl with [] => [] | _ => commit_writes s.(lg_start) (blocks s.(l_b).(b_dsk)) bl ds end.

Lemma commit_all p s c bl ds :
  txn s c bl ds -> trep p s.(l_b) c ->
  exists b', commit s = Ok tt (put l_b_l b' (put lh_n_l 0 s)) /\ trep p b' (unpins c bl) /\
    bstep s.(l_b) b' (txn_writes s bl ds).
Proof.
  intros Ht Hb. destruct bl as [|x bl].
  - exists s.(l_b). split; [|split; [done|apply bstep_refl]]. unfold commit. lgfields.
    rewrite (tx_n _ _ _ _ Ht). cbn. f_equal. pose proof (tx_n _ _ _ _ Ht) as En. destruct s. cbn in *. by subst.
  - destruct (commit_eq p s c (x :: bl) ds s.(l_b) Ht Hb) as (b' & E & Hb' & S'); [done|].
    exists b'. replace (put l_b_l (l_b s) s) with s in E by by destruct s. done.
Qed.

Lemma end_op_last p s c bl ds :
  txn s c bl ds -> trep p s.(l_b) c -> lock_free s.(lg_lock) -> s.(lg_committing) = 0 -> s.(lg_outstanding) = 1 ->
  exists b', end_op s = Ok tt (put lg_outstanding_l 0 (put l_b_l b' (put lh_n_l 0 s))) /\
    trep p b' (unpins c bl) /\ bstep s.(l_b) b' (txn_writes s bl ds).
Proof.
  intros Ht Hb Hl Hc Ho. pose proof (br_run _ _ _ Hb) as Hr.
  set (s1 := put lg_committing_l 1 (put lg_outstanding_l 0 s)).
  assert (Ht1 : txn s1 c bl ds).
  { destruct Ht as [[]]. by split. }
  destruct (commit_all p s1 c bl ds Ht1 Hb) as (b1 & E1 & Hb1 & S1).
  set (s2 := put lg_committing_l 0 (put l_b_l b1 (put lh_n_l 0 s1))).
  destruct (wakeup_log p s2 (br_run _ _ _ Hb1)) as (t & Hw & Ew). change (b_p (l_b s2)) with (b_p b1) in Hw.
  exists (put b_p_l t b1). split; [|split].
  - unfold end_op. cbn [bind]. rewrite (acquire_in lg_lock_l s Hl). cbn [bind obind update modify].
    change (view lg_outstanding_l (in_lock lg_lock_l s)) with (lg_outstanding s). rewrite Ho.
    change (s32 (1 - 1)) with 0.
    lgfields. change (lg_committing (put lg_outstanding_l 0 (in_lock lg_lock_l s))) with (lg_committing s). rewrite Hc.
    cbn [nz Z.eqb negb]. lgfields.
    change (lg_outstanding (put lg_outstanding_l 0 (in_lock lg_lock_l s))) with 0. cbn [Z.eqb bind set modify obind ret].
    change (put lg_committing_l 1 (put lg_outstanding_l 0 (in_lock lg_lock_l s))) with (in_lock lg_lock_l s1).
    rewrite (release_in lg_lock_l); [|exact (proj1 (proj1 Hr))|exact Hl]. cbn [bind obind]. rewrite E1. cbn [bind obind].
    rewrite (acquire_in lg_lock_l); [|exact Hl]. cbn [bind obind set modify].
    change (put lg_committing_l 0 (in_lock lg_lock_l ?x)) with (in_lock lg_lock_l (put lg_committing_l 0 x)). fold s2.
    rewrite Ew. cbn [obind]. rewrite (release_in lg_lock_l); [| |exact Hl].
    + f_equal. destruct s. cbn in Hc. by subst.
    + change (hart_stable (phart t)). rewrite (wakes_hart _ _ Hw). exact (proj1 (proj1 (br_run _ _ _ Hb1))).
  - by apply trep_wakes.
  - rewrite <- (app_nil_r (txn_writes s bl ds)). exact (bstep_trans _ _ _ _ _ S1 (bstep_p _ _ Hw)).
Qed.

End LogOps.
