(* ===== verification/Txn.v ===== *)
(** * Transactions: what the file system sees of the log and the cache

    Inside a transaction the file system sees an array of blocks, [lview],
    which it reads and writes through buffers it holds.  [linv] relates that
    array to the cache, the log header in memory and the disk: [bl] are the
    logged blocks and [h] the buffers the process holds. *)

From S2P Require Import Prelude Riscv Memory Spinlock Kalloc Vm Tty Proc ProcSpec Sleeplock Bio BioSpec Block Log LogCrash LogSpec LogOps.

Section Txn.
Context {D : Type} `{DiskLaws D} `{Patience}.
Implicit Types (b : bst D) (s : lgst D) (c : gmap Z centry) (h : gmap Z (fin 30)).

(** The buffer that caches block [n]. *)
Definition caches (n : Z) (x : buf) : bool :=
  (x.(b_dev) =? ROOTDEV) && (x.(b_blockno) =? n) && nz x.(b_valid).

(** The bytes of block [n]: those in the cache, or on the disk. *)
Definition lview s (n : Z) : list Z :=
  match find_buf s.(l_b) (caches n) all_bufs with
  | Some i => (bbuf s.(l_b) i).(b_data)
  | None => blocks s.(l_b).(b_dsk) n
  end.

Lemma lview_bview p s c n : brep p s.(l_b) c -> lview s n = bview s.(l_b) c n.
Proof.
  intros Hb. unfold lview, bview. destruct (find_buf _ _ _) as [i|] eqn:Ef.
  - apply find_buf_some in Ef as [Ht _]. unfold caches, nz in Ht. zb.
    destruct (c !! n) as [e|] eqn:Hc.
    + rewrite (br_idx _ _ _ _ _ i Hb Hc) by done. by eapply entry_data.
    + destruct (decide ((bbuf s.(l_b) i).(b_refcnt) = 0)) as [Hz|Hnz].
      * destruct (br_free _ _ _ Hb i Hz) as [_ Hf]. destruct (Hf ltac:(done)) as [_ ->]. congruence.
      * destruct (br_ref _ _ _ Hb i Hnz) as (e & He & _). congruence.
  - destruct (c !! n) as [e|] eqn:Hc; [|done].
    pose proof (find_buf_none _ _ _ Ef (ce_idx e) (elem_of_enum _)) as Ht.
    destruct (br_describes _ _ _ _ _ Hb Hc) as (E1 & E2 & E3 & _). unfold caches, nz in Ht.
    rewrite E1, E2, !Z.eqb_refl in Ht. cbn in Ht. apply negb_false_iff, Z.eqb_eq in Ht. done.
Qed.

(** ** The invariant *)

(** A data block: on the disk and outside the log. *)
Definition data_block s (n : Z) : Prop := in_disk n /\ ~ in_log s n.

(** The references to block [n]: the log's and the process's. *)
Definition refs (bl : list Z) h (n : Z) : Z :=
  (if decide (n ∈ bl) then 1 else 0) + match h !! n with Some _ => 1 | None => 0 end.

(** Who holds block [n]. *)
Definition holder (pid : Z) h (n : Z) : option Z := match h !! n with Some _ => Some pid | None => None end.

Record lrep p s c (bl : list Z) h : Prop := {
  lr_b : trep p s.(l_b) c;
  lr_lock : lock_free s.(lg_lock);
  lr_wf : lg_wf s;
  lr_out : 1 <= s.(lg_outstanding);
  lr_logged : logged s bl;
  lr_fit : Z.of_nat (length bl) <= s.(lg_size) - 1;
  lr_nodup : NoDup bl;
  lr_data : forall n, n ∈ bl \/ is_Some (h !! n) -> data_block s n;
  lr_dom : forall n e, c !! n = Some e -> n ∈ bl \/ is_Some (h !! n);
  lr_entry : forall n, n ∈ bl \/ is_Some (h !! n) -> exists e, c !! n = Some e /\
    e.(ce_ref) = refs bl h n /\
    e.(ce_lock) = holder (mypid_of p s.(l_b)) h n;
  lr_idx : forall n i e, h !! n = Some i -> c !! n = Some e -> e.(ce_idx) = i
}.

Definition linv p s bl h : Prop := exists c, lrep p s c bl h.

(** What a step of the process leaves alone. *)
Record tstep s s' : Prop := {
  ls_frame : lg_frame s s';
  ls_disk : same_disk s.(l_b) s'.(l_b);
  ls_wakes : wakes s.(l_b).(b_p) s'.(l_b).(b_p)
}.

Lemma tstep_refl s : tstep s s.
Proof. split; [by split|done|apply wakes_refl]. Qed.

Lemma tstep_trans s1 s2 s3 : tstep s1 s2 -> tstep s2 s3 -> tstep s1 s3.
Proof.
  intros [F1 [D1 W1] P1] [F2 [D2 W2] P2]. split.
  - destruct F1, F2. split; congruence.
  - split; [intros m; by rewrite D2|by rewrite W2].
  - by eapply wakes_trans.
Qed.

Lemma tstep_b s b' : same_disk s.(l_b) b' -> wakes s.(l_b).(b_p) b'.(b_p) -> tstep s (put l_b_l b' s).
Proof. intros Hd Hw. split; [by split|done|done]. Qed.

Lemma refs_le bl h n : 0 <= refs bl h n <= 2.
Proof. unfold refs. case_decide; destruct (h !! n); lia. Qed.

(** The number of buffers in use. *)
Lemma lr_size p s c bl h : lrep p s c bl h -> (size c <= length bl + size h)%nat.
Proof.
  intros Hl. assert (Hsub : dom c ⊆ list_to_set bl ∪ dom h).
  { intros n [e He]%elem_of_dom. apply elem_of_union. destruct (lr_dom _ _ _ _ _ Hl n e He) as [Hn|Hn].
    - left. by apply elem_of_list_to_set.
    - right. by apply elem_of_dom. }
  apply subseteq_size in Hsub. rewrite size_dom in Hsub.
  pose proof (size_union_alt (C := gset Z) (list_to_set bl) (dom h)) as Hu.
  assert (Hd : (size (dom h ∖ list_to_set bl : gset Z) <= size (dom h))%nat).
  { apply subseteq_size. intros n. rewrite elem_of_difference. tauto. }
  rewrite (size_dom h) in Hd. rewrite (size_list_to_set bl (lr_nodup _ _ _ _ _ Hl)) in Hu. lia.
Qed.

Lemma data_block_frame s s' n : lg_frame s s' -> data_block s' n <-> data_block s n.
Proof. intros Hf. unfold data_block, in_log. by rewrite (fr_start _ _ Hf), (fr_size _ _ Hf). Qed.

Lemma lg_wf_frame s s' : lg_frame s s' -> length s'.(lh_block) = 30%nat -> lg_wf s -> lg_wf s'.
Proof. intros [] Hl []. split; congruence || lia. Qed.

(** A change of the cache alone. *)
Lemma lrep_b p s c bl h b' c' h' :
  lrep p s c bl h -> trep p b' c' -> wakes s.(l_b).(b_p) b'.(b_p) ->
  (forall n, is_Some (h' !! n) -> data_block s n) ->
  (forall n e, c' !! n = Some e -> n ∈ bl \/ is_Some (h' !! n)) ->
  (forall n, n ∈ bl \/ is_Some (h' !! n) -> exists e, c' !! n = Some e /\ e.(ce_ref) = refs bl h' n /\
     e.(ce_lock) = holder (mypid_of p s.(l_b)) h' n) ->
  (forall n i e, h' !! n = Some i -> c' !! n = Some e -> e.(ce_idx) = i) ->
  lrep p (put l_b_l b' s) c' bl h'.
Proof.
  intros Hl Hb' Hw Hdat Hdom Hent Hidx.
  assert (Ep : mypid_of p b' = mypid_of p s.(l_b)) by exact (wakes_pid _ _ p Hw).
  split; try done.
  - exact (lr_lock _ _ _ _ _ Hl).
  - destruct (lr_wf _ _ _ _ _ Hl). by split.
  - exact (lr_out _ _ _ _ _ Hl).
  - destruct (lr_logged _ _ _ _ _ Hl). by split.
  - exact (lr_fit _ _ _ _ _ Hl).
  - exact (lr_nodup _ _ _ _ _ Hl).
  - intros n [Hn|Hn]; [|by apply Hdat]. apply (lr_data _ _ _ _ _ Hl). by left.
  - intros n Hn. change (l_b (put l_b_l b' s)) with b'. rewrite Ep. by apply Hent.
Qed.

Lemma same_view p p' s s' c c' :
  brep p s.(l_b) c -> brep p' s'.(l_b) c' -> (forall m, bview s'.(l_b) c' m = bview s.(l_b) c m) ->
  forall m, lview s' m = lview s m.
Proof. intros Hb Hb' E m. by rewrite (lview_bview _ _ _ _ Hb), (lview_bview _ _ _ _ Hb'). Qed.

(** ** bread *)

Lemma lread p s bl h n :
  linv p s bl h -> data_block s n -> h !! n = None -> (length bl + size h < 30)%nat ->
  exists i s', zoom l_b_l (bread ROOTDEV n) s = Ok i s' /\ linv p s' bl (<[n := i]> h) /\
    (forall m, lview s' m = lview s m) /\ tstep s s'.
Proof.
  intros [c Hl] [Hin Hnl] Hh Hsz. pose proof (lr_b _ _ _ _ _ Hl) as Hb. pose proof (lr_size _ _ _ _ _ Hl) as Hcs.
  assert (Hbl : forall e, c !! n = Some e -> n ∈ bl).
  { intros e He. destruct (lr_dom _ _ _ _ _ Hl n e He) as [?|[x Hx]]; [done|congruence]. }
  assert (Hnh : ~ is_Some (h !! n)) by (rewrite Hh; by intros []).
  assert (Hg : gettable c n /\ got_ref c n = (if decide (n ∈ bl) then 1 else 0) + 1).
  { unfold gettable, got_ref. destruct (c !! n) as [e|] eqn:Hc.
    - pose proof (Hbl e eq_refl) as Hin'. destruct (lr_entry _ _ _ _ _ Hl n (or_introl Hin')) as (e' & He' & Hr & Hlk).
      rewrite He' in Hc. injection Hc as ->. unfold refs, holder in Hr, Hlk. rewrite Hh in Hr, Hlk.
      rewrite Hlk, Hr. rewrite !decide_True by done. split; [split; [done|lia]|done].
    - rewrite decide_False; [split; [lia|done]|]. intros Hin'.
      destruct (lr_entry _ _ _ _ _ Hl n (or_introl Hin')) as (e' & He' & _). congruence. }
  destruct Hg as [Hg Hr]. destruct (bread_step p s.(l_b) c n Hb Hg Hin) as (i & b' & E & Hb' & _ & Hst).
  rewrite Hr in Hb'. set (e1 := CE i _ _ _) in Hb'.
  exists i, (put l_b_l b' s). split; [exact (zoom_ok _ _ _ _ _ E)|]. destruct Hst as (Hw & Hbk & Hwk).
  assert (Hsd : same_disk s.(l_b) b') by (split; [exact Hbk|by rewrite app_nil_r in Hw]).
  split; [|split; [|by apply tstep_b]].
  - exists (<[n := e1]> c). apply (lrep_b p s c bl h); try done.
    + intros m Hm. destruct (decide (m = n)) as [->|Hne]; [by split|]. rewrite lookup_insert_ne in Hm by congruence.
      apply (lr_data _ _ _ _ _ Hl). by right.
    + intros m e Hm. destruct (decide (m = n)) as [->|Hne]; [right; rewrite lookup_insert_eq; by eexists|].
      rewrite lookup_insert_ne in Hm by congruence. rewrite lookup_insert_ne by congruence. by eapply lr_dom.
    + intros m Hm. unfold refs, holder. destruct (decide (m = n)) as [->|Hne].
      * exists e1. by rewrite !lookup_insert_eq.
      * rewrite !lookup_insert_ne in * by congruence. by apply (lr_entry _ _ _ _ _ Hl).
    + intros m j e Hm He. destruct (decide (m = n)) as [->|Hne].
      * rewrite lookup_insert_eq in Hm. rewrite lookup_insert_eq in He. injection Hm as <-. by injection He as <-.
      * rewrite lookup_insert_ne in Hm by congruence. rewrite lookup_insert_ne in He by congruence. by eapply lr_idx.
  - apply (same_view p p s (put l_b_l b' s) c _ Hb Hb'). intros m. unfold bview.
    destruct (decide (m = n)) as [->|Hne]; [by rewrite lookup_insert_eq|]. rewrite lookup_insert_ne by congruence.
    destruct (c !! m); [done|]. apply Hbk.
Qed.

(** ** The bytes of a buffer the process holds *)

Lemma lr_held p s c bl h n i :
  lrep p s c bl h -> h !! n = Some i ->
  exists e, c !! n = Some e /\ e.(ce_idx) = i /\ e.(ce_ref) = refs bl h n /\ e.(ce_lock) = Some (mypid_of p s.(l_b)) /\
    lview s n = e.(ce_data) /\ data_block s n.
Proof.
  intros Hl Hh. assert (Hs : n ∈ bl \/ is_Some (h !! n)) by (right; by eexists).
  destruct (lr_entry _ _ _ _ _ Hl n Hs) as (e & He & Hr & Hlk). exists e. unfold holder in Hlk. rewrite Hh in Hlk.
  split; [done|]. split; [by eapply lr_idx|]. split; [done|]. split; [done|].
  split; [|by apply (lr_data _ _ _ _ _ Hl)].
  rewrite (lview_bview _ _ _ _ (lr_b _ _ _ _ _ Hl)). unfold bview. by rewrite He.
Qed.

Lemma lget_data p s bl h n i :
  linv p s bl h -> h !! n = Some i -> zoom l_b_l (get_data i) s = Ok (lview s n) s.
Proof.
  intros [c Hl] Hh. destruct (lr_held _ _ _ _ _ _ _ Hl Hh) as (e & He & <- & _ & _ & -> & _).
  rewrite <- (entry_data _ _ _ _ _ (lr_b _ _ _ _ _ Hl) He). by destruct s.
Qed.

Lemma lview_len p s bl h n : linv p s bl h -> length (lview s n) = 1024%nat.
Proof.
  intros [c Hl]. rewrite (lview_bview _ _ _ _ (lr_b _ _ _ _ _ Hl)). unfold bview.
  destruct (c !! n) as [e|] eqn:He; [by eapply entry_len, He; exact (lr_b _ _ _ _ _ Hl)|].
  apply blocks_len, (br_disk _ _ _ (lr_b _ _ _ _ _ Hl)).
Qed.

(** Changing the map at a block that stays as referenced and as held. *)
Lemma lrep_same_refs p s c bl h b' n e e' :
  lrep p s c bl h -> c !! n = Some e -> trep p b' (<[n := e']> c) -> wakes s.(l_b).(b_p) b'.(b_p) ->
  e'.(ce_ref) = e.(ce_ref) -> e'.(ce_lock) = e.(ce_lock) -> e'.(ce_idx) = e.(ce_idx) ->
  lrep p (put l_b_l b' s) (<[n := e']> c) bl h.
Proof.
  intros Hl Hc Hb' Hw Er El Ei. apply (lrep_b p s c bl h); try done.
  - intros m Hm. apply (lr_data _ _ _ _ _ Hl). by right.
  - intros m x Hm. destruct (decide (m = n)) as [->|Hne]; [by eapply lr_dom|].
    rewrite lookup_insert_ne in Hm by congruence. by eapply lr_dom.
  - intros m Hm. destruct (lr_entry _ _ _ _ _ Hl m Hm) as (x & Hx & Hr & Hlk).
    destruct (decide (m = n)) as [->|Hne]; [|exists x; by rewrite lookup_insert_ne].
    rewrite Hx in Hc. injection Hc as ->. exists e'. rewrite lookup_insert_eq. split; [done|]. by rewrite Er, El.
  - intros m j x Hm Hx. destruct (decide (m = n)) as [->|Hne].
    + rewrite lookup_insert_eq in Hx. injection Hx as <-. rewrite Ei. by eapply lr_idx.
    + rewrite lookup_insert_ne in Hx by congruence. by eapply lr_idx.
Qed.

Lemma lset p s bl h n i f :
  linv p s bl h -> h !! n = Some i -> length (f (lview s n)) = 1024%nat ->
  exists s', zoom l_b_l (update (buf_l i) (fun x => with_b_data (f x.(b_data)) x)) s = Ok tt s' /\ linv p s' bl h /\
    (forall m, lview s' m = if decide (m = n) then f (lview s n) else lview s m) /\ tstep s s'.
Proof.
  intros [c Hl] Hh Hlen. destruct (lr_held _ _ _ _ _ _ _ Hl Hh) as (e & He & <- & Hr & Hlk & Ev & Hd).
  pose proof (lr_b _ _ _ _ _ Hl) as Hb. rewrite Ev in Hlen.
  destruct (upd_data_step p s.(l_b) c n e f Hb He Hlen) as (b' & E & Hb' & Hst).
  exists (put l_b_l b' s). split; [exact (zoom_ok _ _ _ _ _ E)|]. destruct Hst as (Hw & Hbk & Hwk).
  assert (Hsd : same_disk s.(l_b) b') by (split; [exact Hbk|by rewrite app_nil_r in Hw]).
  split; [|split; [|by apply tstep_b]].
  - eexists. by eapply lrep_same_refs.
  - intros m. rewrite Ev, (lview_bview _ s _ m Hb), (lview_bview p (put l_b_l b' s) _ _ Hb'). unfold bview.
    case_decide as Hm; [by rewrite Hm, lookup_insert_eq|]. rewrite lookup_insert_ne by congruence.
    destruct (c !! m); [done|]. apply Hbk.
Qed.

(** ** log_write *)

Lemma elem_log_add n bl m : m ∈ log_add n bl <-> m = n \/ m ∈ bl.
Proof.
  unfold log_add. case_decide; [split; [by right|by intros [->|?]]|].
  rewrite elem_of_app, list_elem_of_singleton. tauto.
Qed.

Lemma NoDup_log_add n bl : NoDup bl -> NoDup (log_add n bl).
Proof.
  intros Hnd. unfold log_add. case_decide; [done|]. apply NoDup_app. split; [done|].
  split; [intros x Hx Hx2; apply list_elem_of_singleton in Hx2; congruence|apply NoDup_singleton].
Qed.

Lemma length_log_add n bl : (length (log_add n bl) <= length bl + 1)%nat.
Proof. unfold log_add. case_decide; rewrite ?length_app; cbn; lia. Qed.

Lemma refs_log_add n bl h m :
  refs (log_add n bl) h m = refs bl h m + (if decide (m = n /\ n ∉ bl) then 1 else 0).
Proof.
  unfold refs. pose proof (elem_log_add n bl m).
  destruct (decide (m ∈ log_add n bl)), (decide (m ∈ bl)), (decide (m = n /\ n ∉ bl)); try lia;
    exfalso; destruct (decide (m = n)); subst; tauto.
Qed.

(** The entries after [log_write] of block [n]. *)
Lemma log_pin_lookup n e bl c m :
  c !! n = Some e ->
  log_pin n e bl c !! m = (fun x => with_ref (x.(ce_ref) + if decide (m = n /\ n ∉ bl) then 1 else 0) x) <$> c !! m.
Proof.
  intros Hc. unfold log_pin. case_decide as Hin.
  - rewrite decide_False by tauto. destruct (c !! m) as [x|]; [|done]. cbn. rewrite Z.add_0_r. by destruct x.
  - destruct (decide (m = n)) as [->|Hne].
    + rewrite lookup_insert_eq, Hc. cbn. by rewrite decide_True.
    + rewrite lookup_insert_ne by congruence. rewrite decide_False by tauto.
      destruct (c !! m) as [x|]; [|done]. cbn. rewrite Z.add_0_r. by destruct x.
Qed.

Lemma lrep_log_write p s s' c bl h n i e :
  lrep p s c bl h -> h !! n = Some i -> c !! n = Some e ->
  Z.of_nat (length bl) < s.(lg_size) - 1 -> logged s' (log_add n bl) -> lg_frame s s' ->
  brep p s'.(l_b) (log_pin n e bl c) -> s'.(l_b).(b_p) = s.(l_b).(b_p) ->
  lrep p s' (log_pin n e bl c) (log_add n bl) h.
Proof.
  intros Hl Hh He Hfit Hlog Hf Hb' Ep.
  assert (Hin : forall m, m ∈ log_add n bl \/ is_Some (h !! m) <-> m ∈ bl \/ is_Some (h !! m)).
  { intros m. rewrite elem_log_add. split; [|tauto]. intros [[->|?]|?]; [|tauto..]. right. by eexists. }
  split; try done.
  - split; [exact Hb'|]. rewrite Ep. exact (tr_thr _ _ _ (lr_b _ _ _ _ _ Hl)).
  - rewrite (fr_lock _ _ Hf). exact (lr_lock _ _ _ _ _ Hl).
  - apply (lg_wf_frame s); [done|exact (lo_len _ _ Hlog)|exact (lr_wf _ _ _ _ _ Hl)].
  - rewrite (fr_out _ _ Hf). exact (lr_out _ _ _ _ _ Hl).
  - rewrite (fr_size _ _ Hf). pose proof (length_log_add n bl). lia.
  - exact (NoDup_log_add _ _ (lr_nodup _ _ _ _ _ Hl)).
  - intros m Hm. apply (data_block_frame s s' m Hf). apply (lr_data _ _ _ _ _ Hl). by apply Hin.
  - intros m x Hm. apply Hin. rewrite log_pin_lookup in Hm by done. destruct (c !! m) as [y|] eqn:Hy; [|done].
    by eapply lr_dom.
  - intros m Hm. apply Hin in Hm. destruct (lr_entry _ _ _ _ _ Hl m Hm) as (x & Hx & Hrx & Hlx).
    rewrite log_pin_lookup by done. rewrite Hx. eexists. split; [reflexivity|]. cbn.
    split; [by rewrite refs_log_add, Hrx|]. unfold mypid_of in *. by rewrite Ep.
  - intros m j x Hm Hx. rewrite log_pin_lookup in Hx by done. destruct (c !! m) as [y|] eqn:Hy; [|done].
    injection Hx as <-. cbn. by eapply lr_idx.
Qed.

Lemma lwrite p s bl h n i :
  linv p s bl h -> h !! n = Some i -> Z.of_nat (length bl) < s.(lg_size) - 1 ->
  exists s', log_write i s = Ok tt s' /\ linv p s' (log_add n bl) h /\
    (forall m, lview s' m = lview s m) /\ tstep s s'.
Proof.
  intros [c Hl] Hh Hfit. destruct (lr_held _ _ _ _ _ _ _ Hl Hh) as (e & He & <- & Hr & Hlk & Ev & Hd).
  pose proof (lr_b _ _ _ _ _ Hl) as Hb. pose proof (refs_le bl h n) as Hrl.
  destruct (log_write_eq p s c bl n e Hb (lr_lock _ _ _ _ _ Hl) (lr_logged _ _ _ _ _ Hl) Hfit) as
    (s' & E & Hlog & Hf & Hb' & Ep & Ed); try done.
  { exact (proj2 (wf_size _ (lr_wf _ _ _ _ _ Hl))). }
  { exact (lr_out _ _ _ _ _ Hl). }
  { exact (proj1 Hd). }
  { lia. }
  exists s'. split; [done|]. split; [eexists; by eapply lrep_log_write|]. split.
  - apply (same_view p p s s' c _ Hb Hb'). intros m. unfold bview. rewrite log_pin_lookup, Ed by done.
    by destruct (c !! m).
  - split; [done|split; by rewrite Ed|rewrite Ep; apply wakes_refl].
Qed.

(** ** brelse *)

Lemma lrelse p s bl h n i :
  linv p s bl h -> h !! n = Some i -> n ∈ bl \/ lview s n = blocks s.(l_b).(b_dsk) n ->
  exists s', zoom l_b_l (brelse i) s = Ok tt s' /\ linv p s' bl (delete n h) /\
    (forall m, lview s' m = lview s m) /\ tstep s s'.
Proof.
  intros [c Hl] Hh Hcl. destruct (lr_held _ _ _ _ _ _ _ Hl Hh) as (e & He & <- & Hr & Hlk & Ev & Hd).
  pose proof (lr_b _ _ _ _ _ Hl) as Hb. unfold refs in Hr. rewrite Hh in Hr.
  destruct (brelse_step p s.(l_b) c n e Hb He Hlk) as (b' & E & Hb' & Hst).
  { intros H1'. destruct Hcl as [Hin|Hcl]; [rewrite decide_True in Hr by done; lia|congruence]. }
  exists (put l_b_l b' s). split; [exact (zoom_ok _ _ _ _ _ E)|]. destruct Hst as (Hw & Hbk & Hwk).
  assert (Hsd : same_disk s.(l_b) b') by (split; [exact Hbk|by rewrite app_nil_r in Hw]).
  assert (Hrel : forall m, m <> n -> released n e c !! m = c !! m).
  { intros m Hne. unfold released. destruct (decide (ce_ref e = 1)); [by rewrite lookup_delete_ne|by rewrite lookup_insert_ne]. }
  assert (Hrn : released n e c !! n = if decide (n ∈ bl) then Some (CE e.(ce_idx) e.(ce_data) 1 None) else None).
  { unfold released. destruct (decide (n ∈ bl)).
    - rewrite decide_False by lia. rewrite lookup_insert_eq, Hr. done.
    - rewrite decide_True by lia. by rewrite lookup_delete_eq. }
  split; [|split; [|by apply tstep_b]].
  - eexists. apply (lrep_b p s c bl h); try done.
    + intros m Hm. apply (lr_data _ _ _ _ _ Hl). right. destruct (decide (m = n)) as [->|Hne]; [by eexists|].
      by rewrite lookup_delete_ne in Hm.
    + intros m x Hm. destruct (decide (m = n)) as [->|Hne].
      * rewrite Hrn in Hm. case_decide; [by left|done].
      * rewrite Hrel in Hm by done. rewrite lookup_delete_ne by congruence. by eapply lr_dom.
    + intros m Hm. destruct (decide (m = n)) as [->|Hne].
      * unfold refs, holder. rewrite lookup_delete_eq in *. destruct Hm as [Hm|[? ?]]; [|done].
        rewrite Hrn, !decide_True by done. by eexists.
      * rewrite Hrel by done. unfold refs, holder. rewrite lookup_delete_ne in * by congruence.
        exact (lr_entry _ _ _ _ _ Hl m Hm).
    + intros m j x Hm Hx. destruct (decide (m = n)) as [->|Hne]; [by rewrite lookup_delete_eq in Hm|].
      rewrite lookup_delete_ne in Hm by congruence. rewrite Hrel in Hx by done. by eapply lr_idx.
  - apply (same_view p p s (put l_b_l b' s) c _ Hb Hb'). intros m. unfold bview.
    change (l_b (put l_b_l b' s)) with b'. destruct (decide (m = n)) as [->|Hne].
    + rewrite Hrn, He. case_decide; [done|]. rewrite Hbk. cbn. destruct Hcl as [?|Hcl]; congruence.
    + rewrite Hrel by done. destruct (c !! m); [done|]. apply Hbk.
Qed.

End Txn.
