(* ===== verification/LogThm.v ===== *)
(** * The log: properties

    Crash atomicity of a transaction, what [log_write] records, when
    [begin_op] waits and what [end_op] leaves on the disk. *)

From S2P Require Import Prelude Riscv Memory Spinlock Kalloc Vm Tty Proc ProcSpec Sleeplock Dll Bio BioSpec BioThm Block Log LogCrash LogSpec LogOps Txn.

Section LogThm.
Context {D : Type} `{DiskLaws D} `{Patience}.
Implicit Types (b : bst D) (s : lgst D) (c : gmap Z centry) (d : Z -> list Z).

Lemma put_b_self s : put l_b_l s.(l_b) s = s.
Proof. by destruct s. Qed.

(** ** Booting *)

Lemma recover_writes_ext st d d' :
  (forall m, d m = d' m) -> recover_writes st d = recover_writes st d'.
Proof.
  intros E. unfold recover_writes, install_writes. rewrite E. f_equal. f_equal. apply list_fmap_ext. auto.
Qed.

Lemma initlog_eq p s c start size :
  trep p s.(l_b) c -> (forall m, c !! m = None) -> length s.(lh_block) = 30%nat ->
  0 <= start -> 2 <= size <= LOGSIZE -> start + size <= FSSIZE ->
  head_ok start size (blocks s.(l_b).(b_dsk) start) ->
  exists s', initlog ROOTDEV start size s = Ok tt s' /\ lg_wf s' /\ s'.(lh_n) = 0 /\
    s'.(lg_start) = start /\ s'.(lg_size) = size /\ lock_free s'.(lg_lock) /\ trep p s'.(l_b) c /\
    bstep s.(l_b) s'.(l_b) (recover_writes start (blocks s.(l_b).(b_dsk))).
Proof.
  intros Hb Hc Hl Hst Hsz Hfs Hh. unfold initlog. change (4 + 4 * LOGSIZE >=? BSIZE) with false. cbn iota.
  cbn [bind set modify obind]. unfold LOGSIZE, MAXOPBLOCKS, FSSIZE in *.
  rewrite (s32_small start), (s32_small size) by lia.
  set (s1 := put lg_dev_l ROOTDEV (put lg_size_l size (put lg_start_l start (put lg_lock_l (initlock "log") s)))).
  assert (Hwf : lg_wf s1) by (split; cbn; unfold LOGSIZE, MAXOPBLOCKS, FSSIZE; done || lia).
  destruct (recover_from_log_eq p s1 c s.(l_b) Hb Hwf Hc Hh) as (b' & l & E & Hll & Hb' & S').
  change (recover_from_log s1 = Ok tt (put l_b_l b' (put lh_block_l l (put lh_n_l 0 s1)))) in E.
  rewrite E. eexists. split; [reflexivity|]. split; [|done]. destruct Hwf. by split.
Qed.

(** ** The end of a transaction *)

Lemma apply_zip_in d bl ds k x y :
  NoDup bl -> bl !! k = Some x -> ds !! k = Some y -> apply_writes d (zip bl ds) x = y.
Proof.
  revert d ds k. induction bl as [|a bl IH]; intros d [|z ds] k Hnd Hk Hy; try done.
  apply NoDup_cons in Hnd as [Ha Hnd]. cbn [zip zip_with]. rewrite apply_writes_cons. destruct k as [|k].
  - injection Hk as ->. injection Hy as ->. rewrite apply_writes_out; [unfold wr_disk; by rewrite decide_True|].
    by intros ?%zip_fst_subset.
  - by eapply IH.
Qed.

Lemma unpins_in c bl x e :
  NoDup bl -> x ∈ bl -> c !! x = Some e -> e.(ce_ref) = 1 -> unpins c bl !! x = None.
Proof.
  intros Hnd (l1 & l2 & ->)%list_elem_of_split Hc Hr. apply NoDup_app in Hnd as (_ & Hnd & _).
  assert (Hx : unpins c l1 !! x = Some e).
  { rewrite unpins_ne; [done|]. intros Hx. apply (Hnd x Hx). lelem. }
  unfold unpins. rewrite foldl_app. cbn [foldl]. apply unpins_none.
  change (foldl unpin c l1) with (unpins c l1). generalize dependent (unpins c l1). intros u Hx. unfold unpin.
  rewrite Hx, decide_True by done. apply lookup_delete_eq.
Qed.

Lemma linv_txn p s bl :
  linv p s bl ∅ -> exists c, txn s c bl (lview s <$> bl) /\ trep p s.(l_b) c /\ unpins c bl = ∅ /\
    forall m, apply_writes (blocks s.(l_b).(b_dsk)) (zip bl (lview s <$> bl)) m = lview s m.
Proof.
  intros [c Hl]. exists c. pose proof (lr_b _ _ _ _ _ Hl) as Hb. pose proof (lr_size _ _ _ _ _ Hl) as Hsz.
  pose proof (lr_fit _ _ _ _ _ Hl) as Hfit. pose proof (lr_wf _ _ _ _ _ Hl) as Hwf.
  pose proof (wf_size _ Hwf) as Hsize. unfold LOGSIZE, MAXOPBLOCKS in Hsize. rewrite map_size_empty in Hsz.
  assert (Hent : forall x, x ∈ bl -> exists e, pinned c x e /\ e.(ce_data) = lview s x /\ e.(ce_ref) = 1).
  { intros x Hx. destruct (lr_entry _ _ _ _ _ Hl x (or_introl Hx)) as (e & He & Hr & Hlk). exists e.
    unfold holder, refs in Hlk, Hr. rewrite lookup_empty in Hlk, Hr. rewrite decide_True in Hr by done.
    split; [split; [exact (proj1 (lr_data _ _ _ _ _ Hl x (or_introl Hx)))|split; [done|split; [done|lia]]]|].
    rewrite (lview_bview _ _ _ _ Hb). unfold bview. rewrite He. split; [done|lia]. }
  assert (Hdom : forall m, m ∉ bl -> c !! m = None).
  { intros m Hm. destruct (c !! m) as [e|] eqn:He; [|done].
    apply (lr_dom _ _ _ _ _ Hl) in He as [?|[x Hx]]; [done|by rewrite lookup_empty in Hx]. }
  split; [|split; [done|split]].
  - split; try done.
    + exact (lo_n _ _ (lr_logged _ _ _ _ _ Hl)).
    + exact (lo_blocks _ _ (lr_logged _ _ _ _ _ Hl)).
    + exact (lr_nodup _ _ _ _ _ Hl).
    + apply Forall2_fmap_r, Forall_Forall2_diag, Forall_forall. intros x Hx.
      split; [exact (proj2 (lr_data _ _ _ _ _ Hl x (or_introl Hx)))|]. destruct (Hent x Hx) as (e & ? & ? & _). by exists e.
    + intros m Hm. destruct (c !! m) as [e|] eqn:He; [|done].
      apply (lr_dom _ _ _ _ _ Hl) in He. by destruct (lr_data _ _ _ _ _ Hl m He).
    + lia.
  - apply map_eq. intros m. rewrite lookup_empty. destruct (decide (m ∈ bl)) as [Hin|Hout]; [|by apply unpins_none, Hdom].
    destruct (Hent m Hin) as (e & (_ & He & _) & _ & Hr). by eapply unpins_in; [exact (lr_nodup _ _ _ _ _ Hl)|..].
  - intros m. destruct (decide (m ∈ bl)) as [Hin|Hout].
    + apply list_elem_of_lookup in Hin as (k & Hk). apply (apply_zip_in _ _ _ k); [exact (lr_nodup _ _ _ _ _ Hl)|done|].
      by rewrite list_lookup_fmap, Hk.
    + rewrite apply_writes_out by (by intros ?%zip_fst_subset). rewrite (lview_bview _ _ _ _ Hb). unfold bview.
      by rewrite Hdom.
Qed.

Lemma txn_writes_done p s c bl ds :
  txn s c bl ds -> trep p s.(l_b) c ->
  (bl <> [] -> head_n (apply_writes (blocks s.(l_b).(b_dsk)) (txn_writes s bl ds) s.(lg_start)) = 0) /\
  forall m, ~ in_log s m -> apply_writes (blocks s.(l_b).(b_dsk)) (txn_writes s bl ds) m =
    apply_writes (blocks s.(l_b).(b_dsk)) (zip bl ds) m.
Proof.
  intros Ht Hb. destruct bl as [|x bl]; [done|]. pose proof (tx_wf _ _ _ _ Ht) as Hwf.
  destruct (commit_done s.(lg_start) s.(lg_size) (blocks s.(l_b).(b_dsk)) (x :: bl) ds (wf_size _ Hwf)) as [Hn Hd].
  - apply blocks_len, (br_disk _ _ _ Hb).
  - apply Forall_forall. intros y Hy. apply list_elem_of_lookup in Hy as (j & Hj).
    destruct (tx_entry _ _ _ _ _ _ Ht Hj) as (? & ? & _ & Hy' & (Hin & _) & _). by split.
  - by eapply tx_len.
  - exact (tx_fit _ _ _ _ Ht).
  - split; [intros _; exact Hn|exact Hd].
Qed.

(** ** Properties *)

(** C1: a transaction is atomic with respect to crashes.  [commit] writes the
    disk a finite number of times; cut that sequence anywhere, boot (cutting
    the writes of the recovery as often as you like, each time booting again)
    and let [initlog] finish.  It returns, the log is empty, and either every
    block outside the log area holds what was on the disk before the commit,
    if the header had not been written yet, or every one holds what the
    transaction saw. *)
Theorem log_crash_atomic p s bl :
  linv p s bl ∅ -> bl <> [] -> head_n (blocks s.(l_b).(b_dsk) s.(lg_start)) = 0 ->
  exists s' ws, commit s = Ok tt s' /\ writes s'.(l_b).(b_dsk) = writes s.(l_b).(b_dsk) ++ ws /\
    forall pre d' q boot, pre `prefix_of` ws ->
      recovering s.(lg_start) (apply_writes (blocks s.(l_b).(b_dsk)) pre) d' ->
      trep q boot.(l_b) ∅ -> length boot.(lh_block) = 30%nat ->
      (forall m, blocks boot.(l_b).(b_dsk) m = d' m) ->
      exists up, initlog ROOTDEV s.(lg_start) s.(lg_size) boot = Ok tt up /\ up.(lh_n) = 0 /\
        forall m, ~ in_log s m -> blocks up.(l_b).(b_dsk) m =
          if decide (length pre <= length bl)%nat then blocks s.(l_b).(b_dsk) m else lview s m.
Proof.
  intros Hi Hne Hempty. destruct (linv_txn p s bl Hi) as (c & Ht & Hb & Hun & Hv).
  set (d := blocks _) in *. set (st := lg_start s) in *. set (size := lg_size s) in *. set (ds := lview s <$> bl) in *.
  destruct (commit_eq p s c bl ds s.(l_b) Ht Hb Hne) as (b' & E & Hb' & Hw & Hbl & _).
  rewrite put_b_self in E. eexists _, _. split; [exact E|]. split; [exact Hw|].
  intros pre d' q boot Hpre Hrec Hq Hl30 Hd'. pose proof (tx_wf _ _ _ _ Ht) as Hwf.
  destruct (commit_crash st size d bl ds (wf_size _ Hwf)) with (pre := pre) as [Hh Hr]; try done.
  { apply blocks_len, (br_disk _ _ _ Hb). }
  { apply Forall_forall. intros x Hx. apply list_elem_of_lookup in Hx as (j & Hj).
    destruct (tx_entry _ _ _ _ _ _ Ht Hj) as (? & ? & _ & Hn & (Hin & _) & _). by split. }
  { by eapply tx_len. }
  { exact (tx_fit _ _ _ _ Ht). }
  pose proof (wf_size _ Hwf) as Hsz.
  destruct (recovering_same st size _ _ ltac:(lia) Hh Hrec) as [Hh' Hr'].
  destruct (initlog_eq q boot ∅ st size Hq) as (up & Eu & _ & Hn & _ & _ & _ & _ & _ & Hup & _); try done.
  { exact (wf_start _ Hwf). }
  { exact (wf_disk _ Hwf). }
  { by rewrite Hd'. }
  exists up. split; [done|]. split; [done|]. intros m Hm.
  assert (Hms : m <> st) by (intros ->; apply Hm; unfold in_log; fold st size; lia).
  rewrite Hup, (recover_writes_ext st _ d' Hd'), (apply_writes_at _ d' _ m (Hd' m)).
  change (apply_writes d' (recover_writes st d') m) with (recover_disk st d' m).
  rewrite Hr', Hr, Hv by done. done.
Qed.

(** [log_write] of a block the process holds records it once: a block
    already in the transaction is absorbed, a new one is appended to the
    header and pinned in the cache; no byte of any block changes and nothing
    is written to the disk. *)
Theorem log_write_spec p s bl h n i :
  linv p s bl h -> h !! n = Some i -> Z.of_nat (length bl) < s.(lg_size) - 1 ->
  exists s', log_write i s = Ok tt s' /\ linv p s' (if decide (n ∈ bl) then bl else bl ++ [n]) h /\
    s'.(lh_n) = s.(lh_n) + (if decide (n ∈ bl) then 0 else 1) /\
    (forall m, lview s' m = lview s m) /\ writes s'.(l_b).(b_dsk) = writes s.(l_b).(b_dsk).
Proof.
  intros Hi Hh Hfit. destruct (lwrite p s bl h n i Hi Hh Hfit) as (s' & E & Hi' & Hv & Hs).
  exists s'. split; [done|]. split; [done|]. split; [|split; [done|exact (proj2 (ls_disk _ _ Hs))]].
  destruct Hi as [c Hl], Hi' as [c' Hl'].
  rewrite (lo_n _ _ (lr_logged _ _ _ _ _ Hl)), (lo_n _ _ (lr_logged _ _ _ _ _ Hl')). unfold log_add.
  case_decide; [lia|]. rewrite length_app. cbn. lia.
Qed.

(** C13: the last [end_op] makes the transaction durable: it returns with
    every block outside the log area on the disk as the process saw it, the
    log empty in memory and on the disk, and no buffer referenced by the log;
    an earlier [end_op] only gives its reservation back. *)
Theorem end_op_durable p s bl :
  linv p s bl ∅ -> s.(lg_committing) = 0 -> s.(lg_outstanding) < 2 ^ 31 ->
  exists s', end_op s = Ok tt s' /\ s'.(lg_outstanding) = s.(lg_outstanding) - 1 /\ s'.(lg_committing) = 0 /\
    (s.(lg_outstanding) = 1 -> s'.(lh_n) = 0 /\
       (bl <> [] -> head_n (blocks s'.(l_b).(b_dsk) s.(lg_start)) = 0) /\ trep p s'.(l_b) ∅ /\
       forall m, ~ in_log s m -> blocks s'.(l_b).(b_dsk) m = lview s m) /\
    (s.(lg_outstanding) <> 1 -> s'.(lh_n) = s.(lh_n) /\ same_disk s.(l_b) s'.(l_b)).
Proof.
  intros Hi Hc Ho. destruct (linv_txn p s bl Hi) as (c & Ht & Hb & Hun & Hv). destruct Hi as [c' Hl].
  pose proof (lr_out _ _ _ _ _ Hl) as Hout. pose proof (lr_lock _ _ _ _ _ Hl) as Hlk.
  destruct (decide (s.(lg_outstanding) = 1)) as [H1'|H1'].
  - destruct (end_op_last p s c bl _ Ht Hb Hlk Hc H1') as (b' & E & Hb' & _ & Hbk & _).
    destruct (txn_writes_done p s c bl _ Ht Hb) as [Hn Hd].
    eexists. split; [exact E|]. cbn [lg_outstanding put lg_outstanding_l]. rewrite H1'. split; [done|]. split; [exact Hc|].
    split; [|done]. intros _. split; [done|]. rewrite Hun in Hb'. split; [|split; [exact Hb'|]].
    + intros Hne. change (head_n (blocks (b_dsk b') (lg_start s)) = 0). rewrite Hbk. auto.
    + intros m Hm. change (blocks (b_dsk b') m = lview s m). rewrite Hbk, Hd by done. apply Hv.
  - destruct (end_op_more p s c Hb Hlk Hc ltac:(lia)) as (t & _ & E).
    eexists. split; [exact E|]. split; [done|]. split; [exact Hc|]. split; [done|]. by intros _.
Qed.

(** [begin_op] lets a system call in exactly when no commit is running
    and the blocks logged so far, with ten for every system call including
    this one, are at most LOGSIZE; otherwise the process sleeps on the log
    and gives up the log's lock. *)
Theorem begin_op_waits p s :
  lock_free s.(lg_lock) -> running p s.(l_b).(b_p) -> noff (phart s.(l_b).(b_p)) = 0 ->
  0 <= s.(lg_outstanding) < 30 ->
  if decide (s.(lg_committing) = 0 /\ s.(lh_n) + (s.(lg_outstanding) + 1) * MAXOPBLOCKS <= LOGSIZE)
  then begin_op s = Ok tt (put lg_outstanding_l (s.(lg_outstanding) + 1) s)
  else exists s1 k, begin_op s = Swtch s1 k /\ (pproc s1.(l_b).(b_p) p).(p_state) = SLEEPING /\
    (pproc s1.(l_b).(b_p) p).(p_chan) = chLog /\ s1.(lg_lock).(locked) = 0 /\
    s1.(lg_outstanding) = s.(lg_outstanding).
Proof.
  intros Hl Hr Hn Ho. case_decide as Hd.
  - apply begin_op_room; [done|exact (proj1 (proj1 Hr))| |lia].
    unfold room. destruct Hd as [-> Hd]. cbn. by apply Z.leb_le.
  - destruct (begin_op_full p s Hl Hr Hn) as [k E].
    { unfold room, nz. destruct (Z.eqb_spec s.(lg_committing) 0) as [Hz|Hz]; [|done]. cbn. apply Z.leb_gt. lia. }
    eexists _, k. split; [exact E|].
    unfold asleep. change (l_b (put lg_lock_l ?x ?y)) with (l_b y).
    change (b_p (l_b (put the_pst ?t ?x))) with t. rewrite pproc_put. done.
Qed.

End LogThm.

(** ** Examples *)

#[local] Instance demo_patience : Patience := 2%nat.

(** The log of mkfs (30 blocks from block 2) over the example cache. *)
Definition demo_lg (outstanding : Z) : lgst ideal_disk :=
  Lgst demo_bst (initlock "log") 2 30 outstanding 0 ROOTDEV 0 (replicate 30 0).

Lemma demo_linv : linv 2%fin (demo_lg 1) [] ∅.
Proof.
  exists ∅. split; cbn; try done.
  - split; [exact demo_brep|exact demo_run_thread].
  - split; cbn; done || lia.
  - apply NoDup_nil_2.
  - intros n [Hn|[x Hx]]; [by apply elem_of_nil in Hn|done].
  - intros n [Hn|[x Hx]]; [by apply elem_of_nil in Hn|done].
Qed.

(** A system call that writes the first byte of block [n]. *)
Definition demo_update (n v : Z) : M (lgst ideal_disk) unit :=
  i <- zoom l_b_l (bread ROOTDEV n) ;;
  zoom l_b_l (update (buf_l i) (fun x => with_b_data (put_at 0 [v] x.(b_data)) x)) ;;
  log_write i ;;
  zoom l_b_l (brelse i).

Lemma demo_update_linv :
  exists s, demo_update 100 42 (demo_lg 1) = Ok tt s /\ linv 2%fin s [100] ∅ /\
    tstep (demo_lg 1) s /\ lview s 100 = 42 :: drop 1 zblock.
Proof.
  destruct (lread 2%fin (demo_lg 1) [] ∅ 100 demo_linv) as (i & s1 & E1 & L1 & V1 & T1); [|done|rewrite map_size_empty; cbn; lia|].
  { unfold data_block, in_disk, in_log, FSSIZE. cbn. lia. }
  assert (Hv : lview s1 100 = zblock) by (rewrite V1; by vm_compute).
  destruct (lset 2%fin s1 _ _ 100 i (put_at 0 [42]) L1 (lookup_insert_eq _ _ _)) as (s2 & E2 & L2 & V2 & T2).
  { rewrite Hv. by vm_compute. }
  pose proof (tstep_trans _ _ _ T1 T2) as T12.
  destruct (lwrite 2%fin s2 _ _ 100 i L2 (lookup_insert_eq _ _ _)) as (s3 & E3 & L3 & V3 & T3).
  { rewrite (fr_size _ _ (ls_frame _ _ T12)). cbn. lia. }
  destruct (lrelse 2%fin s3 _ _ 100 i L3 (lookup_insert_eq _ _ _)) as (s4 & E4 & L4 & V4 & T4).
  { left. apply elem_log_add. by left. }
  exists s4. unfold demo_update. cbn [bind]. rewrite E1. cbn [obind bind]. rewrite E2. cbn [obind bind].
  rewrite E3. cbn [obind]. rewrite E4. split; [done|]. rewrite delete_insert_id in L4 by done. split; [exact L4|].
  split; [exact (tstep_trans _ _ _ T12 (tstep_trans _ _ _ T3 T4))|].
  rewrite V4, V3, V2, decide_True, Hv by done. by vm_compute.
Qed.

Definition demo_txn : lgst ideal_disk :=
  match demo_update 100 42 (demo_lg 1) with Ok _ s => s | _ => demo_lg 1 end.

Lemma demo_txn_linv : linv 2%fin demo_txn [100] ∅ /\ tstep (demo_lg 1) demo_txn.
Proof. unfold demo_txn. destruct demo_update_linv as (s & -> & Hl & Ht & _). by split. Qed.

Lemma log_crash_atomic_witness :
  exists s' ws, commit demo_txn = Ok tt s' /\ writes s'.(l_b).(b_dsk) = writes demo_txn.(l_b).(b_dsk) ++ ws.
Proof.
  destruct (log_crash_atomic 2%fin demo_txn [100] (proj1 demo_txn_linv)) as (s' & ws & E & Hw & _).
  - discriminate.
  - vm_compute. reflexivity.
  - exists s', ws. split; [exact E|exact Hw].
Defined.

Lemma demo_held : exists s i, zoom l_b_l (bread ROOTDEV 100) (demo_lg 1) = Ok i s /\
  linv 2%fin s [] {[100 := i]} /\ lg_size s = 30.
Proof.
  destruct (lread 2%fin (demo_lg 1) [] ∅ 100 demo_linv) as (i & s1 & E1 & L1 & _ & T1); [|done|rewrite map_size_empty; cbn; lia|].
  { unfold data_block, in_disk, in_log, FSSIZE. cbn. lia. }
  exists s1, i. split; [done|]. split; [exact L1|]. by rewrite (fr_size _ _ (ls_frame _ _ T1)).
Qed.

Lemma log_write_spec_witness :
  exists s i s', zoom l_b_l (bread ROOTDEV 100) (demo_lg 1) = Ok i s /\ log_write i s = Ok tt s' /\
    linv 2%fin s' [100] {[100 := i]}.
Proof.
  destruct demo_held as (s & i & E & L & Hz). exists s, i.
  destruct (log_write_spec 2%fin s [] {[100 := i]} 100 i L) as (s' & E' & L' & _).
  - apply lookup_insert_eq.
  - rewrite Hz. reflexivity.
  - exists s'. split; [exact E|]. split; [exact E'|exact L'].
Defined.

Lemma end_op_durable_witness : exists s', end_op demo_txn = Ok tt s' /\ s'.(lh_n) = 0.
Proof.
  destruct (end_op_durable 2%fin demo_txn [100] (proj1 demo_txn_linv)) as (s' & E & _ & _ & Hl & _).
  - vm_compute. reflexivity.
  - vm_compute. reflexivity.
  - exists s'. split; [exact E|]. apply Hl. vm_compute. reflexivity.
Defined.

Lemma begin_op_waits_witness :
  begin_op (demo_lg 2) = Ok tt (put lg_outstanding_l 3 (demo_lg 2)) /\
  exists s1 k, begin_op (demo_lg 3) = Swtch s1 k /\ (pproc s1.(l_b).(b_p) 2%fin).(p_state) = SLEEPING.
Proof.
  split.
  - pose proof (begin_op_waits 2%fin (demo_lg 2)) as E. rewrite decide_True in E by (vm_compute; split; congruence).
    apply E; [split; reflexivity|exact demo_run_running|reflexivity|cbn; lia].
  - pose proof (begin_op_waits 2%fin (demo_lg 3)) as E.
    rewrite decide_False in E by (vm_compute; intros [_ Hle]; congruence).
    destruct E as (s1 & k & E & Hs & _); [split; reflexivity|exact demo_run_running|reflexivity|cbn; lia|].
    exists s1, k. split; [exact E|exact Hs].
Defined.

(** Three system calls at once, each within its reservation of ten blocks:
    begin, and log the [n] blocks from 100 on. *)
Definition three_calls (n : Z) : M (lgst ideal_disk) unit :=
  begin_op ;; begin_op ;; begin_op ;;
  iterM (seqZ 100 n) (fun k => demo_update k 1).

