(* ===== verification/Fs.v ===== *)
(** * The file system (kernel/fs.c, kernel/fs.h, kernel/file.h)

    Blocks, inodes, their contents, directories and path names, over the log.
    A pointer to an inode is an index of the inode table; a C string is the
    list of its bytes without the terminating NUL. *)

From S2P Require Import Prelude Riscv Memory Spinlock Kalloc Vm Tty Proc ProcSpec Sleeplock Uart Bio Block Log.

Definition ROOTINO : Z := 1.
Definition FSMAGIC : Z := 0x10203040.
Definition NDIRECT : Z := 12.
Definition NINDIRECT : Z := BSIZE / 4.
Definition MAXFILE : Z := NDIRECT + NINDIRECT.
Definition IPB : Z := BSIZE / 64.
Definition BPB : Z := BSIZE * 8.
Definition DIRSIZ : Z := 14.
Definition T_DIR : Z := 1.
Definition T_FILE : Z := 2.
Definition T_DEVICE : Z := 3.

Record superblock := Superblock {
  sb_magic : Z;
  sb_size : Z;
  sb_nblocks : Z;
  sb_ninodes : Z;
  sb_nlog : Z;
  sb_logstart : Z;
  sb_inodestart : Z;
  sb_bmapstart : Z
}.

Definition IBLOCK (i : Z) (sb : superblock) : Z := u32 (i / IPB + sb.(sb_inodestart)).
Definition BBLOCK (b : Z) (sb : superblock) : Z := u32 (b / BPB + sb.(sb_bmapstart)).

(** ** Inodes *)

Record inode := Inode {
  i_dev : Z;
  i_inum : Z;
  i_ref : Z;
  i_lock : sleeplock;
  i_valid : Z;
  i_type : Z;
  i_major : Z;
  i_minor : Z;
  i_nlink : Z;
  i_size : Z;
  i_addrs : list Z
}.

Definition with_i_ref (x : Z) (i : inode) : inode :=
  Inode i.(i_dev) i.(i_inum) x i.(i_lock) i.(i_valid) i.(i_type) i.(i_major) i.(i_minor) i.(i_nlink)
        i.(i_size) i.(i_addrs).
Definition with_i_lock (x : sleeplock) (i : inode) : inode :=
  Inode i.(i_dev) i.(i_inum) i.(i_ref) x i.(i_valid) i.(i_type) i.(i_major) i.(i_minor) i.(i_nlink)
        i.(i_size) i.(i_addrs).
Definition with_i_valid (x : Z) (i : inode) : inode :=
  Inode i.(i_dev) i.(i_inum) i.(i_ref) i.(i_lock) x i.(i_type) i.(i_major) i.(i_minor) i.(i_nlink)
        i.(i_size) i.(i_addrs).
Definition with_i_type (x : Z) (i : inode) : inode :=
  Inode i.(i_dev) i.(i_inum) i.(i_ref) i.(i_lock) i.(i_valid) x i.(i_major) i.(i_minor) i.(i_nlink)
        i.(i_size) i.(i_addrs).
Definition with_i_major (x : Z) (i : inode) : inode :=
  Inode i.(i_dev) i.(i_inum) i.(i_ref) i.(i_lock) i.(i_valid) i.(i_type) x i.(i_minor) i.(i_nlink)
        i.(i_size) i.(i_addrs).
Definition with_i_minor (x : Z) (i : inode) : inode :=
  Inode i.(i_dev) i.(i_inum) i.(i_ref) i.(i_lock) i.(i_valid) i.(i_type) i.(i_major) x i.(i_nlink)
        i.(i_size) i.(i_addrs).
Definition with_i_nlink (x : Z) (i : inode) : inode :=
  Inode i.(i_dev) i.(i_inum) i.(i_ref) i.(i_lock) i.(i_valid) i.(i_type) i.(i_major) i.(i_minor) x
        i.(i_size) i.(i_addrs).
Definition with_i_size (x : Z) (i : inode) : inode :=
  Inode i.(i_dev) i.(i_inum) i.(i_ref) i.(i_lock) i.(i_valid) i.(i_type) i.(i_major) i.(i_minor) i.(i_nlink)
        x i.(i_addrs).
Definition with_i_addrs (x : list Z) (i : inode) : inode :=
  Inode i.(i_dev) i.(i_inum) i.(i_ref) i.(i_lock) i.(i_valid) i.(i_type) i.(i_major) i.(i_minor) i.(i_nlink)
        i.(i_size) x.

Definition inode0 : inode := Inode 0 0 0 (initsleeplock "") 0 0 0 0 0 0 (replicate 13 0).

(** ** The on-disk inode

    [struct dinode]: type, major, minor and nlink (2 bytes each), size (4
    bytes) and 13 block addresses, 64 bytes in all. *)

Definition dinode_off (inum : Z) : nat := Z.to_nat (64 * (inum mod IPB)).

(** An array of [uint]s as bytes, and back. *)
Definition enc32 (l : list Z) : list Z := concat (le_bytes 4 <$> l).
Fixpoint dec32 (n : nat) (l : list Z) : list Z :=
  match n with
  | O => []
  | Datatypes.S n' => le_val (take 4 l) :: dec32 n' (drop 4 l)
  end.

(** The assignments of [iupdate] to the dinode at [off]. *)
Definition put_dinode (off : nat) (i : inode) (d : list Z) : list Z :=
  put_at (off + 12) (enc32 i.(i_addrs))
    (put_le 4 (off + 8) i.(i_size)
      (put_le 2 (off + 6) i.(i_nlink)
        (put_le 2 (off + 4) i.(i_minor)
          (put_le 2 (off + 2) i.(i_major)
            (put_le 2 off i.(i_type) d))))).

(** The assignments of [ilock] from it. *)
Definition get_dinode (off : nat) (d : list Z) (i : inode) : inode :=
  Inode i.(i_dev) i.(i_inum) i.(i_ref) i.(i_lock) i.(i_valid) (s16 (get_le 2 d off)) (s16 (get_le 2 d (off + 2)))
        (s16 (get_le 2 d (off + 4))) (s16 (get_le 2 d (off + 6))) (get_le 4 d (off + 8))
        (dec32 13 (take 52 (drop (off + 12) d))).

(** ** The state *)

Record fsst (D : Type) := Fst {
  f_l : lgst D;
  sb : superblock;
  it_lock : spinlock;
  inodes : vec inode 50
}.
Arguments Fst {D}.
Arguments f_l {D}.
Arguments sb {D}.
Arguments it_lock {D}.
Arguments inodes {D}.

Section Lenses.
Context {D : Type}.
Definition f_l_l : lens (fsst D) (lgst D) := Lens f_l (fun x s => Fst x s.(sb) s.(it_lock) s.(inodes)).
Definition sb_l : lens (fsst D) superblock := Lens sb (fun x s => Fst s.(f_l) x s.(it_lock) s.(inodes)).
Definition it_lock_l : lens (fsst D) spinlock :=
  Lens it_lock (fun x s => Fst s.(f_l) s.(sb) x s.(inodes)).
Definition inodes_l : lens (fsst D) (vec inode 50) :=
  Lens inodes (fun x s => Fst s.(f_l) s.(sb) s.(it_lock) x).
Definition ino_l (i : fin 50) : lens (fsst D) inode := lcomp inodes_l (vec_l i).
Definition ilock_l : lens inode sleeplock := Lens i_lock with_i_lock.
Definition inolock (i : fin 50) : lens (fsst D) sleeplock := lcomp (ino_l i) ilock_l.
#[export] Instance f_l_laws : LensLaws f_l_l.
Proof. by split; intros; destruct s. Qed.
#[export] Instance it_lock_laws : LensLaws it_lock_l.
Proof. by split; intros; destruct s. Qed.
#[export] Instance inodes_laws : LensLaws inodes_l.
Proof. by split; intros; destruct s. Qed.
#[export] Instance ilock_laws : LensLaws ilock_l.
Proof. by split; intros; destruct s. Qed.
#[export] Instance fsst_HasProcs : HasProcs (fsst D) := lcomp f_l_l the_pst.
#[export] Instance fsst_pst_laws : LensLaws (the_pst (S := fsst D)).
Proof. unfold the_pst, fsst_HasProcs. apply _. Qed.
#[export] Instance fsst_l_it_lock : LensDisjoint f_l_l it_lock_l.
Proof. by split. Qed.
#[export] Instance fsst_l_inodes : LensDisjoint f_l_l inodes_l.
Proof. by split. Qed.
#[export] Instance fsst_it_lock_inodes : LensDisjoint it_lock_l inodes_l.
Proof. by split. Qed.
#[export] Instance fsst_pst_it_lock : LensDisjoint (the_pst (S := fsst D)) it_lock_l.
Proof. unfold the_pst, fsst_HasProcs. apply _. Qed.
#[export] Instance fsst_pst_inodes : LensDisjoint (the_pst (S := fsst D)) inodes_l.
Proof. unfold the_pst, fsst_HasProcs. apply _. Qed.
End Lenses.

Section Fs.
Context {D : Type} `{DiskDriver D} `{Patience}.

Definition fprint (msg : string) : M (fsst D) unit := zoom the_pst (cprintf msg []).

(** Operations of the layers below. *)
Definition fbread (dev n : Z) : M (fsst D) (fin 30) := zoom f_l_l (zoom l_b_l (bread dev n)).
Definition fbrelse (b : fin 30) : M (fsst D) unit := zoom f_l_l (zoom l_b_l (brelse b)).
Definition flog_write (b : fin 30) : M (fsst D) unit := zoom f_l_l (log_write b).
Definition fdata (b : fin 30) : M (fsst D) (list Z) := zoom f_l_l (zoom l_b_l (get_data b)).
(** [bp->data] changed by the code *)
Definition fset (b : fin 30) (f : list Z -> list Z) : M (fsst D) unit :=
  zoom f_l_l (zoom l_b_l (update (buf_l b) (fun x => with_b_data (f x.(b_data)) x))).

(** ** Superblock *)

Definition get_sb (d : list Z) : superblock :=
  Superblock (get_le 4 d 0) (get_le 4 d 4) (get_le 4 d 8) (get_le 4 d 12) (get_le 4 d 16) (get_le 4 d 20)
             (get_le 4 d 24) (get_le 4 d 28).

Definition readsb (dev : Z) : M (fsst D) superblock :=
  bp <- fbread dev 1 ;;
  d <- fdata bp ;;
  fbrelse bp ;;
  ret (get_sb d).

Definition fsinit (dev : Z) : M (fsst D) unit :=
  x <- readsb dev ;;
  set sb_l x ;;
  if negb (x.(sb_magic) =? FSMAGIC) then panic "invalid file system"
  else zoom f_l_l (initlog dev x.(sb_logstart) x.(sb_nlog)).

(** ** Blocks *)

Definition bzero (dev bno : Z) : M (fsst D) unit :=
  bp <- fbread dev (u32 bno) ;;
  fset bp (fun _ => zblock) ;;
  flog_write bp ;;
  fbrelse bp.

(** [bp->data[bi/8] & (1 << (bi % 8))] *)
Definition bit_set (d : list Z) (bi : Z) : bool := Z.testbit (d !!! Z.to_nat (bi / 8)) (bi mod 8).
Definition set_bit (d : list Z) (bi : Z) : list Z :=
  <[Z.to_nat (bi / 8) := Z.lor (d !!! Z.to_nat (bi / 8)) (2 ^ (bi mod 8))]> d.
Definition clear_bit (d : list Z) (bi : Z) : list Z :=
  <[Z.to_nat (bi / 8) := Z.land (d !!! Z.to_nat (bi / 8)) (u8 (Z.lnot (2 ^ (bi mod 8))))]> d.

(** The inner loop of [balloc]: the first clear bit from [bi] on. *)
Fixpoint free_bit (n : nat) (d : list Z) (b size bi : Z) : option Z :=
  match n with
  | O => None
  | Datatypes.S n' =>
      if (bi <? BPB) && (b + bi <? size) then
        if bit_set d bi then free_bit n' d b size (bi + 1) else Some bi
      else None
  end.

Definition balloc_body (dev size b : Z) : M (fsst D) (Z + Z) :=
  if b <? size then
    s <- get sb_l ;;
    bp <- fbread dev (BBLOCK b s) ;;
    d <- fdata bp ;;
    match free_bit (Z.to_nat BPB) d b size 0 with
    | Some bi =>
        fset bp (fun d => set_bit d bi) ;;
        flog_write bp ;;
        fbrelse bp ;;
        bzero dev (b + bi) ;;
        ret (inr (u32 (b + bi)))
    | None =>
        fbrelse bp ;;
        ret (inl (b + BPB))
    end
  else
    fprint ("balloc: out of blocks" ++ newline) ;;
    ret (inr 0).

Definition balloc (dev : Z) : M (fsst D) Z :=
  s <- get sb_l ;;
  loop (Z.to_nat (s.(sb_size) / BPB + 2)) (balloc_body dev s.(sb_size)) 0.

Definition bfree (dev b : Z) : M (fsst D) unit :=
  s <- get sb_l ;;
  bp <- fbread dev (BBLOCK b s) ;;
  d <- fdata bp ;;
  let bi := b mod BPB in
  if negb (bit_set d bi) then panic "freeing free block"
  else
    fset bp (fun d => clear_bit d bi) ;;
    flog_write bp ;;
    fbrelse bp.

(** ** The inode table *)

Definition all_inodes : list (fin 50) := enum (fin 50).

Definition iinit : M (fsst D) unit :=
  set it_lock_l (initlock "itable") ;;
  iterM all_inodes (fun i => set (inolock i) (initsleeplock "inode")).

(** The loop of [iget]: the entry of the inode, or else the first empty
    entry. *)
Fixpoint iget_scan (l : list (fin 50)) (dev inum : Z) (empty : option (fin 50)) :
    M (fsst D) (fin 50 + option (fin 50)) :=
  match l with
  | [] => ret (inr empty)
  | i :: l' =>
      x <- get (ino_l i) ;;
      if (0 <? x.(i_ref)) && (x.(i_dev) =? dev) && (x.(i_inum) =? inum) then ret (inl i)
      else
        iget_scan l' dev inum
          (match empty with
           | None => if x.(i_ref) =? 0 then Some i else None
           | Some _ => empty
           end)
  end.

Definition iget (dev inum : Z) : M (fsst D) (fin 50) :=
  acquire it_lock_l ;;
  r <- iget_scan all_inodes dev inum None ;;
  match r with
  | inl i =>
      update (ino_l i) (fun x => with_i_ref (s32 (x.(i_ref) + 1)) x) ;;
      release it_lock_l ;;
      ret i
  | inr None => panic "iget: no inodes"
  | inr (Some i) =>
      update (ino_l i) (fun x =>
        Inode dev inum 1 x.(i_lock) 0 x.(i_type) x.(i_major) x.(i_minor) x.(i_nlink) x.(i_size) x.(i_addrs)) ;;
      release it_lock_l ;;
      ret i
  end.

Definition ialloc_body (dev type ninodes inum : Z) : M (fsst D) (Z + option (fin 50)) :=
  if inum <? ninodes then
    s <- get sb_l ;;
    bp <- fbread dev (IBLOCK inum s) ;;
    d <- fdata bp ;;
    if get_le 2 d (dinode_off inum) =? 0 then
      fset bp (fun d => put_le 2 (dinode_off inum) type (put_at (dinode_off inum) (replicate 64 0) d)) ;;
      flog_write bp ;;
      fbrelse bp ;;
      i <- iget dev inum ;;
      ret (inr (Some i))
    else
      fbrelse bp ;;
      ret (inl (inum + 1))
  else
    fprint ("ialloc: no inodes" ++ newline) ;;
    ret (inr None).

Definition ialloc (dev type : Z) : M (fsst D) (option (fin 50)) :=
  s <- get sb_l ;;
  loop (Z.to_nat s.(sb_ninodes) + 1) (ialloc_body dev type s.(sb_ninodes)) 1.

Definition iupdate (i : fin 50) : M (fsst D) unit :=
  x <- get (ino_l i) ;;
  s <- get sb_l ;;
  bp <- fbread x.(i_dev) (IBLOCK x.(i_inum) s) ;;
  x <- get (ino_l i) ;;
  fset bp (put_dinode (dinode_off x.(i_inum)) x) ;;
  flog_write bp ;;
  fbrelse bp.

Definition idup (i : fin 50) : M (fsst D) (fin 50) :=
  acquire it_lock_l ;;
  update (ino_l i) (fun x => with_i_ref (s32 (x.(i_ref) + 1)) x) ;;
  release it_lock_l ;;
  ret i.

Definition ilock (ip : option (fin 50)) : M (fsst D) unit :=
  match ip with
  | None => panic "ilock"
  | Some i =>
      x <- get (ino_l i) ;;
      if x.(i_ref) <? 1 then panic "ilock"
      else
        acquiresleep (chInodeLock i) (inolock i) ;;
        x <- get (ino_l i) ;;
        if x.(i_valid) =? 0 then
          s <- get sb_l ;;
          bp <- fbread x.(i_dev) (IBLOCK x.(i_inum) s) ;;
          d <- fdata bp ;;
          update (ino_l i) (get_dinode (dinode_off x.(i_inum)) d) ;;
          fbrelse bp ;;
          update (ino_l i) (with_i_valid 1) ;;
          x <- get (ino_l i) ;;
          if x.(i_type) =? 0 then panic "ilock: no type" else ret tt
        else ret tt
  end.

Definition iunlock (ip : option (fin 50)) : M (fsst D) unit :=
  match ip with
  | None => panic "iunlock"
  | Some i =>
      h <- holdingsleep (inolock i) ;;
      x <- get (ino_l i) ;;
      if negb h || (x.(i_ref) <? 1) then panic "iunlock"
      else releasesleep (chInodeLock i) (inolock i)
  end.

(** ** Truncation and release *)

Definition get_addr (i : fin 50) (k : Z) : M (fsst D) Z :=
  x <- get (ino_l i) ;; ret (x.(i_addrs) !!! Z.to_nat k).
Definition set_addr (i : fin 50) (k a : Z) : M (fsst D) unit :=
  update (ino_l i) (fun x => with_i_addrs (<[Z.to_nat k := a]> x.(i_addrs)) x).

Definition itrunc (i : fin 50) : M (fsst D) unit :=
  iterM (seqZ 0 NDIRECT) (fun k =>
    a <- get_addr i k ;;
    if nz a then
      x <- get (ino_l i) ;;
      bfree x.(i_dev) a ;;
      set_addr i k 0
    else ret tt) ;;
  a <- get_addr i NDIRECT ;;
  (if nz a then
     x <- get (ino_l i) ;;
     bp <- fbread x.(i_dev) a ;;
     iterM (seqZ 0 NINDIRECT) (fun j =>
       d <- fdata bp ;;
       let b := get_le 4 d (Z.to_nat (4 * j)) in
       if nz b then bfree x.(i_dev) b else ret tt) ;;
     fbrelse bp ;;
     bfree x.(i_dev) a ;;
     set_addr i NDIRECT 0
   else ret tt) ;;
  update (ino_l i) (with_i_size 0) ;;
  iupdate i.

Definition iput (i : fin 50) : M (fsst D) unit :=
  acquire it_lock_l ;;
  x <- get (ino_l i) ;;
  (if (x.(i_ref) =? 1) && nz x.(i_valid) && (x.(i_nlink) =? 0) then
     acquiresleep (chInodeLock i) (inolock i) ;;
     release it_lock_l ;;
     itrunc i ;;
     update (ino_l i) (with_i_type 0) ;;
     iupdate i ;;
     update (ino_l i) (with_i_valid 0) ;;
     releasesleep (chInodeLock i) (inolock i) ;;
     acquire it_lock_l
   else ret tt) ;;
  update (ino_l i) (fun x => with_i_ref (s32 (x.(i_ref) - 1)) x) ;;
  release it_lock_l.

Definition iunlockput (i : fin 50) : M (fsst D) unit := iunlock (Some i) ;; iput i.

(** ** Contents *)

Definition bmap (i : fin 50) (bn : Z) : M (fsst D) Z :=
  x <- get (ino_l i) ;;
  if bn <? NDIRECT then
    addr <- get_addr i bn ;;
    if addr =? 0 then
      addr <- balloc x.(i_dev) ;;
      if addr =? 0 then ret 0
      else
        set_addr i bn addr ;;
        ret addr
    else ret addr
  else
    let bn := bn - NDIRECT in
    if bn <? NINDIRECT then
      addr <- get_addr i NDIRECT ;;
      addr <- (if addr =? 0 then
                 addr <- balloc x.(i_dev) ;;
                 if addr =? 0 then ret 0
                 else
                   set_addr i NDIRECT addr ;;
                   ret addr
               else ret addr) ;;
      if addr =? 0 then ret 0
      else
        bp <- fbread x.(i_dev) addr ;;
        d <- fdata bp ;;
        let a := get_le 4 d (Z.to_nat (4 * bn)) in
        a <- (if a =? 0 then
                addr <- balloc x.(i_dev) ;;
                if nz addr then
                  fset bp (put_le 4 (Z.to_nat (4 * bn)) addr) ;;
                  flog_write bp ;;
                  ret addr
                else ret addr
              else ret a) ;;
        fbrelse bp ;;
        ret a
    else panic "bmap: out of range".

(** [struct stat]: dev, ino, type, nlink, size. *)
Record stat := Stat { st_dev : Z; st_ino : Z; st_type : Z; st_nlink : Z; st_size : Z }.

Definition stati (i : fin 50) : M (fsst D) stat :=
  x <- get (ino_l i) ;;
  ret (Stat (s32 x.(i_dev)) x.(i_inum) x.(i_type) x.(i_nlink) x.(i_size)).

(** One block of a read: [tot], [off] and [dst] of the loop, and the bytes
    copied so far, which is where a [KernBuf] destination keeps them. *)
Definition readi_body (i : fin 50) (n : Z) (st : Z * Z * uaddr * list Z) :
    M (fsst D) ((Z * Z * uaddr * list Z) + (Z * list Z)) :=
  let '(tot, off, dst, acc) := st in
  if tot <? n then
    addr <- bmap i (off / BSIZE) ;;
    if addr =? 0 then ret (inr (s32 tot, acc))
    else
      x <- get (ino_l i) ;;
      bp <- fbread x.(i_dev) addr ;;
      let m := Z.min (n - tot) (BSIZE - off mod BSIZE) in
      d <- fdata bp ;;
      let bs := take (Z.to_nat m) (drop (Z.to_nat (off mod BSIZE)) d) in
      r <- zoom the_pst (either_copyout dst bs m) ;;
      fbrelse bp ;;
      if r =? -1 then ret (inr (-1, acc))
      else ret (inl (tot + m, off + m, uaddr_add dst m, acc ++ bs))
  else ret (inr (s32 tot, acc)).

Definition readi (i : fin 50) (dst : uaddr) (off n : Z) : M (fsst D) (Z * list Z) :=
  x <- get (ino_l i) ;;
  if (x.(i_size) <? off) || (u32 (off + n) <? off) then ret (0, [])
  else
    let n := if x.(i_size) <? u32 (off + n) then x.(i_size) - off else n in
    loop (Z.to_nat (n / BSIZE) + 3) (readi_body i n) (0, off, dst, []).

Definition writei_body (i : fin 50) (n : Z) (st : Z * Z * uaddr) : M (fsst D) ((Z * Z * uaddr) + (Z * Z)) :=
  let '(tot, off, src) := st in
  if tot <? n then
    addr <- bmap i (off / BSIZE) ;;
    if addr =? 0 then ret (inr (tot, off))
    else
      x <- get (ino_l i) ;;
      bp <- fbread x.(i_dev) addr ;;
      let m := Z.min (n - tot) (BSIZE - off mod BSIZE) in
      r <- zoom the_pst (either_copyin src m) ;;
      fset bp (put_at (Z.to_nat (off mod BSIZE)) r.2) ;;
      if r.1 =? -1 then
        fbrelse bp ;;
        ret (inr (tot, off))
      else
        flog_write bp ;;
        fbrelse bp ;;
        ret (inl (tot + m, off + m, uaddr_add src m))
  else ret (inr (tot, off)).

Definition writei (i : fin 50) (src : uaddr) (off n : Z) : M (fsst D) Z :=
  x <- get (ino_l i) ;;
  if (x.(i_size) <? off) || (u32 (off + n) <? off) then ret (-1)
  else if MAXFILE * BSIZE <? u32 (off + n) then ret (-1)
  else
    r <- loop (Z.to_nat (n / BSIZE) + 3) (writei_body i n) (0, off, src) ;;
    x <- get (ino_l i) ;;
    (if x.(i_size) <? r.2 then update (ino_l i) (with_i_size r.2) else ret tt) ;;
    iupdate i ;;
    ret (s32 r.1).

(** ** Directories *)

Definition namecmp (s t : list Z) : Z := strncmp s t (Z.to_nat DIRSIZ).

(** [struct dirent]: a 2-byte inode number and 14 bytes of name. *)
Definition de_inum (de : list Z) : Z := get_le 2 de 0.
Definition de_name (de : list Z) : list Z := take 14 (drop 2 de).

(** [dirlookup] with the offset of the entry. *)
Definition dirlookup_body (dp : fin 50) (name : list Z) (off : Z) : M (fsst D) (Z + option (fin 50 * Z)) :=
  x <- get (ino_l dp) ;;
  if off <? x.(i_size) then
    r <- readi dp (KernBuf (replicate 16 0)) off 16 ;;
    if negb (r.1 =? 16) then panic "dirlookup read"
    else if (de_inum r.2 =? 0) || negb (namecmp name (de_name r.2) =? 0) then ret (inl (off + 16))
    else
      i <- iget x.(i_dev) (de_inum r.2) ;;
      ret (inr (Some (i, off)))
  else ret (inr None).

Definition dirlookup (dp : fin 50) (name : list Z) : M (fsst D) (option (fin 50 * Z)) :=
  x <- get (ino_l dp) ;;
  if negb (x.(i_type) =? T_DIR) then panic "dirlookup not DIR"
  else loop (Z.to_nat (x.(i_size) / 16) + 2) (dirlookup_body dp name) 0.

(** The offset of the first entry that is not in use. *)
Definition dirlink_body (dp : fin 50) (off : Z) : M (fsst D) (Z + Z) :=
  x <- get (ino_l dp) ;;
  if off <? x.(i_size) then
    r <- readi dp (KernBuf (replicate 16 0)) off 16 ;;
    if negb (r.1 =? 16) then panic "dirlink read"
    else if de_inum r.2 =? 0 then ret (inr off)
    else ret (inl (off + 16))
  else ret (inr off).

Definition dirlink (dp : fin 50) (name : list Z) (inum : Z) : M (fsst D) Z :=
  ip <- dirlookup dp name ;;
  match ip with
  | Some (i, _) =>
      iput i ;;
      ret (-1)
  | None =>
      x <- get (ino_l dp) ;;
      off <- loop (Z.to_nat (x.(i_size) / 16) + 2) (dirlink_body dp) 0 ;;
      r <- writei dp (KernBuf (le_bytes 2 inum ++ strncpy name 14)) off 16 ;;
      if negb (r =? 16) then ret (-1) else ret 0
  end.

(** ** Paths *)

Definition SLASH : Z := 47.

Fixpoint skip_slash (path : list Z) : list Z :=
  match path with
  | c :: path' => if c =? SLASH then skip_slash path' else path
  | [] => []
  end.

(** The characters up to the next slash, and the rest. *)
Fixpoint elem (path : list Z) : list Z * list Z :=
  match path with
  | [] => ([], [])
  | c :: path' => if c =? SLASH then ([], path) else let '(e, r) := elem path' in (c :: e, r)
  end.

(** [name] is the caller's 14-byte buffer. *)
Definition skipelem (path name : list Z) : option (list Z * list Z) :=
  match skip_slash path with
  | [] => None
  | path =>
      let '(s, path) := elem path in
      let len := Z.of_nat (length s) in
      let name := if DIRSIZ <=? len then take 14 s else put_at 0 (s ++ [0]) name in
      Some (skip_slash path, name)
  end.

Definition namex_body (parent : bool) (st : fin 50 * list Z * list Z) :
    M (fsst D) ((fin 50 * list Z * list Z) + option (fin 50 * list Z)) :=
  let '(ip, path, name) := st in
  match skipelem path name with
  | None =>
      if parent then
        iput ip ;;
        ret (inr None)
      else ret (inr (Some (ip, name)))
  | Some (path, name) =>
      ilock (Some ip) ;;
      x <- get (ino_l ip) ;;
      if negb (x.(i_type) =? T_DIR) then
        iunlockput ip ;;
        ret (inr None)
      else if parent && bool_decide (path = []) then
        iunlock (Some ip) ;;
        ret (inr (Some (ip, name)))
      else
        next <- dirlookup ip name ;;
        match next with
        | None =>
            iunlockput ip ;;
            ret (inr None)
        | Some (next, _) =>
            iunlockput ip ;;
            ret (inl (next, path, name))
        end
  end.

Definition namex (path : list Z) (parent : bool) (name : list Z) : M (fsst D) (option (fin 50 * list Z)) :=
  ip <- (if ch path =? SLASH then iget ROOTDEV ROOTINO
         else
           p <- zoom the_pst myprocp ;;
           cwd <- gets (fun s => (pproc (view the_pst s) p).(p_cwd)) ;;
           cwd <- deref cwd ;;
           idup cwd) ;;
  loop (length path + 2) (namex_body parent) (ip, path, name).

Definition namei (path : list Z) : M (fsst D) (option (fin 50)) :=
  r <- namex path false (replicate 14 0) ;; ret (option_map fst r).

Definition nameiparent (path name : list Z) : M (fsst D) (option (fin 50 * list Z)) := namex path true name.

End Fs.
