(* ===== verification/FsSpec.v ===== *)
(** * Blocks inside a transaction of the file system

    Over the log the file system sees an array of blocks.  [fsinv] is the
    invariant of a system call between its [begin_op] and [end_op]: [bl] are
    the blocks it has logged, [h] the buffers it holds, and every other block
    is as on the disk. *)

From S2P Require Import Prelude Riscv Memory Spinlock Kalloc Vm Tty Proc ProcSpec Sleeplock Uart Bio BioSpec Block Log LogCrash LogSpec LogOps Txn Fs.

Section FsSpec.
Context {D : Type} `{DiskLaws D} `{Patience}.
Implicit Types (s : fsst D) (h : gmap Z (fin 30)) (bl : list Z).

(** The bytes of block [n], as the file system and as the disk have them. *)
Definition fv s (n : Z) : list Z := lview s.(f_l) n.
Definition fdisk s (n : Z) : list Z := blocks s.(f_l).(l_b).(b_dsk) n.

Record fsinv (p : fin 64) s bl h : Prop := {
  fi_l : linv p s.(f_l) bl h;
  fi_clean : forall n, n ∉ bl -> h !! n = None -> fv s n = fdisk s n
}.

(** What operations on blocks leave alone. *)
Record fstep s s' : Prop := {
  fs_frame : s' = put f_l_l s'.(f_l) s;
  fs_t : tstep s.(f_l) s'.(f_l)
}.

Lemma fstep_refl s : fstep s s.
Proof. split; [by destruct s|apply tstep_refl]. Qed.
Lemma fstep_trans s1 s2 s3 : fstep s1 s2 -> fstep s2 s3 -> fstep s1 s3.
Proof.
  intros [E1 T1] [E2 T2]. split; [|by eapply tstep_trans]. rewrite E2, E1. done.
Qed.
Lemma fstep_put s l' : tstep s.(f_l) l' -> fstep s (put f_l_l l' s).
Proof. by split. Qed.
Lemma fstep_disk s s' n : fstep s s' -> fdisk s' n = fdisk s n.
Proof. intros [_ [_ [Hd _] _]]. apply Hd. Qed.
Lemma fstep_data s s' n : fstep s s' -> data_block s'.(f_l) n <-> data_block s.(f_l) n.
Proof. intros [_ [Hf _ _]]. by apply data_block_frame. Qed.
Lemma fstep_size s s' : fstep s s' -> lg_size s'.(f_l) = lg_size s.(f_l).
Proof. intros [_ [Hf _ _]]. apply Hf. Qed.
Lemma fstep_sb s s' : fstep s s' -> s'.(sb) = s.(sb).
Proof. intros [-> _]. done. Qed.
Lemma fstep_inodes s s' : fstep s s' -> s'.(inodes) = s.(inodes).
Proof. intros [-> _]. done. Qed.

(** Room for one more buffer and one more logged block. *)
Definition froom s bl h (k : nat) : Prop :=
  (length bl + size h + k <= 30)%nat /\ Z.of_nat (length bl + k) <= lg_size s.(f_l) - 1.

(** The process runs. *)
Lemma fsinv_run p s bl h : fsinv p s bl h -> running p (view the_pst s).
Proof. intros [[c Hl] _]. exact (br_run _ _ _ (lr_b _ _ _ _ _ Hl)). Qed.

(** ** One block *)

Lemma fread p s bl h n :
  fsinv p s bl h -> data_block s.(f_l) n -> h !! n = None -> (length bl + size h < 30)%nat ->
  exists i s', fbread ROOTDEV n s = Ok i s' /\ fsinv p s' bl (<[n := i]> h) /\
    (forall m, fv s' m = fv s m) /\ fstep s s'.
Proof.
  intros [Hl Hc] Hd Hh Hr. destruct (lread p s.(f_l) bl h n Hl Hd Hh Hr) as (i & l' & E & Hl' & Hv & Ht).
  pose proof (fstep_put s l' Ht) as Hf. exists i, (put f_l_l l' s). split; [|split; [split|]]; try done.
  - exact (zoom_ok f_l_l _ s i l' E).
  - intros m Hm Hn. apply lookup_insert_None in Hn as [Hn _]. unfold fv at 1. cbn [f_l put f_l_l]. rewrite Hv, (fstep_disk _ _ _ Hf).
    by apply Hc.
Qed.

Lemma fdata_eq p s bl h n i : fsinv p s bl h -> h !! n = Some i -> fdata i s = Ok (fv s n) s.
Proof.
  intros [Hl _] Hn. unfold fdata. rewrite (zoom_ok f_l_l _ s _ _ (lget_data p s.(f_l) bl h n i Hl Hn)).
  f_equal. by destruct s.
Qed.

Lemma fv_len p s bl h n : fsinv p s bl h -> length (fv s n) = 1024%nat.
Proof. intros [Hl _]. by eapply lview_len. Qed.

Lemma frelse p s bl h n i :
  fsinv p s bl h -> h !! n = Some i -> n ∈ bl \/ fv s n = fdisk s n ->
  exists s', fbrelse i s = Ok tt s' /\ fsinv p s' bl (delete n h) /\ (forall m, fv s' m = fv s m) /\ fstep s s'.
Proof.
  intros [Hl Hc] Hn Hcl. destruct (lrelse p s.(f_l) bl h n i Hl Hn Hcl) as (l' & E & Hl' & Hv & Ht).
  pose proof (fstep_put s l' Ht) as Hf. exists (put f_l_l l' s). split; [|split; [split|]]; try done.
  - exact (zoom_ok f_l_l _ s tt l' E).
  - intros m Hm Hd. unfold fv at 1. cbn [f_l put f_l_l]. rewrite Hv, (fstep_disk _ _ _ Hf).
    destruct (decide (m = n)) as [->|Hne]; [by destruct Hcl|]. rewrite lookup_delete_ne in Hd by done. by apply Hc.
Qed.

Lemma fset_eq p s bl h n i f :
  fsinv p s bl h -> h !! n = Some i -> length (f (fv s n)) = 1024%nat ->
  exists s', fset i f s = Ok tt s' /\ fsinv p s' bl h /\
    (forall m, fv s' m = if decide (m = n) then f (fv s n) else fv s m) /\ fstep s s'.
Proof.
  intros [Hl Hc] Hn Hf. destruct (lset p s.(f_l) bl h n i f Hl Hn Hf) as (l' & E & Hl' & Hv & Ht).
  pose proof (fstep_put s l' Ht) as Hs. exists (put f_l_l l' s). split; [|split; [split|]]; try done.
  - exact (zoom_ok f_l_l _ s tt l' E).
  - intros m Hm Hd. unfold fv at 1. cbn [f_l put f_l_l]. rewrite Hv, (fstep_disk _ _ _ Hs).
    rewrite decide_False by congruence. by apply Hc.
Qed.

Lemma flog_eq p s bl h n i :
  fsinv p s bl h -> h !! n = Some i -> Z.of_nat (length bl) < lg_size s.(f_l) - 1 ->
  exists s', flog_write i s = Ok tt s' /\ fsinv p s' (log_add n bl) h /\ (forall m, fv s' m = fv s m) /\ fstep s s'.
Proof.
  intros [Hl Hc] Hn Hr. destruct (lwrite p s.(f_l) bl h n i Hl Hn Hr) as (l' & E & Hl' & Hv & Ht).
  pose proof (fstep_put s l' Ht) as Hs. exists (put f_l_l l' s). split; [|split; [split|]]; try done.
  - exact (zoom_ok f_l_l _ s tt l' E).
  - intros m Hm Hd. unfold fv at 1. cbn [f_l put f_l_l]. rewrite Hv, (fstep_disk _ _ _ Hs).
    apply Hc; [|done]. intros Hb. apply Hm, elem_log_add. by right.
Qed.

(** ** Borrowing a block to read it *)

Record borrowed p s bl h n (i : fin 30) s1 : Prop := {
  bw_read : fbread ROOTDEV n s = Ok i s1;
  bw_inv : fsinv p s1 bl (<[n := i]> h);
  bw_data : fdata i s1 = Ok (fv s n) s1;
  bw_view : forall m, fv s1 m = fv s m;
  bw_step : fstep s s1;
  bw_relse : exists s2, fbrelse i s1 = Ok tt s2 /\ fsinv p s2 bl h /\ (forall m, fv s2 m = fv s m) /\ fstep s s2
}.

Lemma borrow p s bl h n :
  fsinv p s bl h -> data_block s.(f_l) n -> h !! n = None -> (length bl + size h < 30)%nat ->
  exists i s1, borrowed p s bl h n i s1.
Proof.
  intros Hi Hd Hn Hr. destruct (fread p s bl h n Hi Hd Hn Hr) as (i & s1 & E & Hi1 & Hv1 & Hs1).
  assert (Hl : (<[n := i]> h : gmap Z (fin 30)) !! n = Some i) by apply lookup_insert_eq.
  exists i, s1. split; try done.
  - rewrite (fdata_eq p s1 bl _ n i Hi1 Hl). by rewrite Hv1.
  - destruct (frelse p s1 bl _ n i Hi1 Hl) as (s2 & E2 & Hi2 & Hv2 & Hs2).
    + destruct (decide (n ∈ bl)); [by left|right]. rewrite Hv1, (fstep_disk _ _ _ Hs1). by apply Hi.
    + exists s2. rewrite delete_insert_id in Hi2 by done. split_and!; try done.
      * intros m. by rewrite Hv2.
      * by eapply fstep_trans.
Qed.

(** Changing a block that is held, logging it and giving it back. *)
Lemma commit_block p s bl h n i f :
  fsinv p s bl h -> h !! n = Some i -> length (f (fv s n)) = 1024%nat ->
  Z.of_nat (length bl) < lg_size s.(f_l) - 1 ->
  exists s1 s2, (forall A (k : M (fsst D) A), (fset i f ;; flog_write i ;; k) s = k s1) /\ fbrelse i s1 = Ok tt s2 /\
    fsinv p s1 (log_add n bl) h /\ fsinv p s2 (log_add n bl) (delete n h) /\
    (forall m, fv s1 m = if decide (m = n) then f (fv s n) else fv s m) /\
    (forall m, fv s2 m = if decide (m = n) then f (fv s n) else fv s m) /\ fstep s s1 /\ fstep s s2.
Proof.
  intros Hi Hn Hf Hr. destruct (fset_eq p s bl h n i f Hi Hn Hf) as (s1 & E1 & Hi1 & Hv1 & Hs1).
  destruct (flog_eq p s1 bl h n i Hi1 Hn) as (s2 & E2 & Hi2 & Hv2 & Hs2); [by rewrite (fstep_size _ _ Hs1)|].
  destruct (frelse p s2 _ h n i Hi2 Hn) as (s3 & E3 & Hi3 & Hv3 & Hs3); [left; apply elem_log_add; by left|].
  exists s2, s3. split_and!; try done.
  - intros A k. cbn [bind]. rewrite E1. cbn [obind bind]. by rewrite E2.
  - intros m. by rewrite Hv2.
  - intros m. by rewrite Hv3, Hv2.
  - by eapply fstep_trans.
  - do 2 (eapply fstep_trans; [done|]). done.
Qed.
End FsSpec.
