(* ===== verification/FsBlock.v ===== *)
(** * The block allocator

    [balloc] and [bfree] over the free bitmap: which block is handed out,
    what happens to its bit and its bytes, the full disk and the double
    free. *)

From S2P Require Import Prelude Riscv Memory Spinlock Kalloc Vm Tty Proc ProcSpec Sleeplock Uart UartThm Bio BioSpec Block Log LogCrash LogSpec LogOps Txn Fs FsSpec BioThm LogThm.

(** ** The bitmap *)

Lemma byte_index bi bj :
  0 <= bi -> 0 <= bj -> Z.to_nat (bi / 8) = Z.to_nat (bj / 8) -> bi mod 8 = bj mod 8 -> bi = bj.
Proof. intros. Z.to_euclidean_division_equations; lia. Qed.

Lemma length_set_bit d bi : length (set_bit d bi) = length d.
Proof. apply length_insert. Qed.
Lemma length_clear_bit d bi : length (clear_bit d bi) = length d.
Proof. apply length_insert. Qed.

Lemma bit_set_set d bi bj :
  0 <= bi < 8 * Z.of_nat (length d) -> 0 <= bj ->
  bit_set (set_bit d bi) bj = bool_decide (bj = bi) || bit_set d bj.
Proof.
  intros Hi Hj. unfold bit_set, set_bit.
  assert (Hl : (Z.to_nat (bi / 8) < length d)%nat) by (Z.to_euclidean_division_equations; lia).
  pose proof (Z.mod_pos_bound bi 8 ltac:(lia)) as Hm. pose proof (Z.mod_pos_bound bj 8 ltac:(lia)) as Hm'.
  destruct (decide (Z.to_nat (bi / 8) = Z.to_nat (bj / 8))) as [E|Hne].
  - rewrite <- E, list_lookup_total_insert_eq, Z.lor_spec, Z.pow2_bits_eqb by lia.
    destruct (Z.eqb_spec (bi mod 8) (bj mod 8)) as [Em|Hne].
    + rewrite bool_decide_true by (symmetry; apply byte_index; lia || done). by rewrite orb_true_r.
    + rewrite bool_decide_false by (intros ->; lia). by rewrite orb_false_r.
  - rewrite list_lookup_total_insert_ne by done. by rewrite bool_decide_false by (intros ->; lia).
Qed.

Lemma bit_set_clear d bi bj :
  0 <= bi < 8 * Z.of_nat (length d) -> 0 <= bj ->
  bit_set (clear_bit d bi) bj = negb (bool_decide (bj = bi)) && bit_set d bj.
Proof.
  intros Hi Hj. unfold bit_set, clear_bit.
  assert (Hl : (Z.to_nat (bi / 8) < length d)%nat) by (Z.to_euclidean_division_equations; lia).
  pose proof (Z.mod_pos_bound bi 8 ltac:(lia)) as Hm. pose proof (Z.mod_pos_bound bj 8 ltac:(lia)) as Hm'.
  destruct (decide (Z.to_nat (bi / 8) = Z.to_nat (bj / 8))) as [E|Hne].
  - rewrite <- E, list_lookup_total_insert_eq, Z.land_spec by lia. unfold u8.
    rewrite Z.mod_pow2_bits_low, Z.lnot_spec, Z.pow2_bits_eqb by lia. rewrite andb_comm.
    destruct (Z.eqb_spec (bi mod 8) (bj mod 8)) as [Em|Hne].
    + by rewrite bool_decide_true by (symmetry; apply byte_index; lia || done).
    + by rewrite bool_decide_false by (intros ->; lia).
  - rewrite list_lookup_total_insert_ne by done. by rewrite bool_decide_false by (intros ->; lia).
Qed.

(** The scan of one bitmap block. *)
Lemma free_bit_spec n d b size bi :
  0 <= bi -> BPB <= bi + Z.of_nat n ->
  match free_bit n d b size bi with
  | Some k => bi <= k < BPB /\ b + k < size /\ bit_set d k = false /\ (forall j, bi <= j < k -> bit_set d j = true)
  | None => forall j, bi <= j < BPB -> b + j < size -> bit_set d j = true
  end.
Proof.
  revert bi. induction n as [|n IH]; intros bi Hb Hn; cbn [free_bit]; [intros; lia|].
  destruct (Z.ltb_spec bi BPB); [|cbn; intros; lia]. destruct (Z.ltb_spec (b + bi) size); [|cbn; intros; lia]. cbn [andb].
  destruct (bit_set d bi) eqn:Eb; [|split_and!; try done; intros; lia].
  specialize (IH (bi + 1) ltac:(lia) ltac:(lia)). destruct (free_bit n d b size (bi + 1)) as [k|].
  - destruct IH as (Hk & Hs & Hf & Hu). split_and!; try done; [lia..|]. intros j Hj.
    destruct (decide (j = bi)) as [->|]; [done|]. apply Hu. lia.
  - intros j Hj Hs. destruct (decide (j = bi)) as [->|]; [done|]. apply IH; lia.
Qed.

Section Alloc.
Context {D : Type} `{DiskLaws D} `{Patience}.
Implicit Types (s : fsst D) (h : gmap Z (fin 30)) (bl : list Z).

(** The bit of block [n]. *)
Definition used s (n : Z) : bool := bit_set (fv s (BBLOCK n s.(sb))) (n mod BPB).

(** A block for the contents of files: outside the log, the inode blocks and
    the bitmap. *)
Record file_block s (n : Z) : Prop := {
  fb_range : 0 <= n < s.(sb).(sb_size);
  fb_data : data_block s.(f_l) n;
  fb_map : n <> BBLOCK 0 s.(sb);
  fb_ino : forall k, 0 <= k < s.(sb).(sb_ninodes) -> n <> IBLOCK k s.(sb)
}.

(** The layout [mkfs] gives the disk: bitmap blocks lie outside the log, and
    the log, the inode blocks and the bitmap itself are marked as used. *)
Record layout s : Prop := {
  lo_size : 0 < s.(sb).(sb_size) <= FSSIZE;
  lo_boot : used s 0 = true;
  lo_map : data_block s.(f_l) (BBLOCK 0 s.(sb));
  lo_ino : forall k, 0 <= k < s.(sb).(sb_ninodes) ->
    data_block s.(f_l) (IBLOCK k s.(sb)) /\ IBLOCK k s.(sb) <> BBLOCK 0 s.(sb);
  lo_free : forall n, 0 <= n < s.(sb).(sb_size) -> used s n = false -> file_block s n
}.

(** The process holds no bitmap block and no free block. *)
Definition hands_off s h : Prop :=
  h !! BBLOCK 0 s.(sb) = None /\ forall n, 0 <= n < s.(sb).(sb_size) -> used s n = false -> h !! n = None.

Lemma BBLOCK_block sbk b bi : (BPB | b) -> 0 <= bi < BPB -> BBLOCK (b + bi) sbk = BBLOCK b sbk.
Proof.
  intros [k ->] Hb. unfold BBLOCK. do 2 f_equal. rewrite Z.div_add_l by done. rewrite Z.div_mul by done.
  rewrite Z.div_small by done. lia.
Qed.

Lemma BPB_mod b bi : (BPB | b) -> 0 <= bi < BPB -> (b + bi) mod BPB = bi.
Proof. intros [k ->] Hb. rewrite Z.add_comm, Z.mod_add by done. by apply Z.mod_small. Qed.

(** Blocks whose bits are in the same bitmap block. *)
Lemma same_BBLOCK sbk n m : 0 <= n < FSSIZE -> 0 <= m < FSSIZE -> BBLOCK n sbk = BBLOCK m sbk.
Proof. intros Hn Hm. unfold BBLOCK. by rewrite !Z.div_small by (unfold BPB, BSIZE, FSSIZE in *; lia). Qed.

(** [bzero]: block [n] becomes zeroes. *)
Lemma bzero_eq p s bl h n :
  fsinv p s bl h -> data_block s.(f_l) n -> h !! n = None -> (length bl + size h < 30)%nat ->
  Z.of_nat (length bl) < lg_size s.(f_l) - 1 ->
  exists s', bzero ROOTDEV n s = Ok tt s' /\ fsinv p s' (log_add n bl) h /\
    (forall m, fv s' m = if decide (m = n) then zblock else fv s m) /\ fstep s s'.
Proof.
  intros Hi Hd Hn Hr Hl. destruct (borrow p s bl h n Hi Hd Hn Hr) as (i & s1 & [E1 Hi1 _ Hv1 Hs1 _]).
  destruct (commit_block p s1 bl _ n i (fun _ => zblock) Hi1 (lookup_insert_eq _ _ _)) as
    (s2 & s3 & E2 & E3 & _ & Hi3 & _ & Hv3 & _ & Hs3); [apply length_replicate|by rewrite (fstep_size _ _ Hs1)|].
  exists s3. unfold bzero. assert (Hu : u32 n = n). { destruct Hd as [Hd _]. unfold in_disk, FSSIZE in Hd. apply Z.mod_small. lia. }
  rewrite Hu. cbn [bind]. rewrite E1. cbn [obind]. rewrite E2.
  split_and!; try done.
  - by rewrite delete_insert_id in Hi3.
  - intros m. rewrite Hv3. case_decide; [done|]. apply Hv1.
  - by eapply fstep_trans.
Qed.

Lemma alloc_block s n : layout s -> 0 <= n < s.(sb).(sb_size) -> BBLOCK n s.(sb) = BBLOCK 0 s.(sb) /\ n mod BPB = n.
Proof.
  intros Hlo Hn. pose proof (lo_size _ Hlo). split; [apply same_BBLOCK; lia|]. apply Z.mod_small. unfold BPB, BSIZE, FSSIZE in *. lia.
Qed.

(** The bits after the bit of block [n] was set in the bitmap. *)
Lemma used_set p s bl h n s' m :
  fsinv p s bl h -> layout s -> 0 <= n < s.(sb).(sb_size) -> 0 <= m < s.(sb).(sb_size) -> s'.(sb) = s.(sb) ->
  fv s' (BBLOCK 0 s.(sb)) = set_bit (fv s (BBLOCK 0 s.(sb))) n ->
  used s' m = bool_decide (m = n) || used s m.
Proof.
  intros Hi Hlo Hn Hm Hsb Hv. unfold used. rewrite Hsb. destruct (alloc_block s m Hlo Hm) as [-> ->]. rewrite Hv.
  pose proof (lo_size _ Hlo). apply bit_set_set; [|lia]. rewrite (fv_len p s bl h) by done. unfold FSSIZE in *. lia.
Qed.

Lemma used_clear p s bl h n s' m :
  fsinv p s bl h -> layout s -> 0 <= n < s.(sb).(sb_size) -> 0 <= m < s.(sb).(sb_size) -> s'.(sb) = s.(sb) ->
  fv s' (BBLOCK 0 s.(sb)) = clear_bit (fv s (BBLOCK 0 s.(sb))) n ->
  used s' m = negb (bool_decide (m = n)) && used s m.
Proof.
  intros Hi Hlo Hn Hm Hsb Hv. unfold used. rewrite Hsb. destruct (alloc_block s m Hlo Hm) as [-> ->]. rewrite Hv.
  pose proof (lo_size _ Hlo). apply bit_set_clear; [|lia]. rewrite (fv_len p s bl h) by done. unfold FSSIZE in *. lia.
Qed.
(** [n] was handed out: the first free block, now used and full of zeroes. *)
Record allocated p s bl h n s' : Prop := {
  al_range : 0 < n < s.(sb).(sb_size);
  al_free : used s n = false;
  al_first : forall m, 0 <= m < n -> used s m = true;
  al_zero : fv s' n = zblock;
  al_used : forall m, 0 <= m < s.(sb).(sb_size) -> used s' m = bool_decide (m = n) || used s m;
  al_other : forall m, m <> n -> m <> BBLOCK n s.(sb) -> fv s' m = fv s m;
  al_inv : fsinv p s' (log_add n (log_add (BBLOCK n s.(sb)) bl)) h;
  al_step : fstep s s'
}.

Lemma length_log_add_le x bl : (length (log_add x bl) <= length bl + 1)%nat.
Proof. unfold log_add. case_decide; [|rewrite length_app; cbn]; lia. Qed.

(** The branch of [balloc] that finds a free bit. *)
Lemma balloc_found p s bl h n :
  fsinv p s bl h -> layout s -> hands_off s h -> froom s bl h 2 ->
  0 <= n < s.(sb).(sb_size) -> used s n = false -> (forall m, 0 <= m < n -> used s m = true) ->
  exists i s1 s2 s3 s4, fbread ROOTDEV (BBLOCK 0 s.(sb)) s = Ok i s1 /\
    fdata i s1 = Ok (fv s (BBLOCK 0 s.(sb))) s1 /\
    (forall A (k : M (fsst D) A), (fset i (fun d => set_bit d n) ;; flog_write i ;; k) s1 = k s2) /\
    fbrelse i s2 = Ok tt s3 /\ bzero ROOTDEV n s3 = Ok tt s4 /\ allocated p s bl h n s4.
Proof.
  intros Hi Hlo Hh [Hr1 Hr2] Hn Hu Hf. destruct (alloc_block s n Hlo Hn) as [Eb Em].
  assert (Hp : 0 < n). { destruct (decide (n = 0)) as [->|]; [|lia]. by rewrite (lo_boot _ Hlo) in Hu. }
  destruct Hh as [Hh1 Hh2]. specialize (Hh2 n Hn Hu). pose proof (lo_map _ Hlo) as Hmap.
  destruct (lo_free _ Hlo n Hn Hu) as [_ Hdn Hne _].
  destruct (borrow p s bl h _ Hi Hmap Hh1) as (i & s1 & [E1 Hi1 Ed Hv1 Hs1 _]); [lia|].
  destruct (commit_block p s1 bl _ _ i (fun d => set_bit d n) Hi1 (lookup_insert_eq _ _ _)) as
    (s2 & s3 & E2 & E3 & _ & Hi3 & _ & Hv3 & _ & Hs3);
    [rewrite length_set_bit; by eapply fv_len|rewrite (fstep_size _ _ Hs1); lia|].
  rewrite delete_insert_id in Hi3 by done. pose proof (fstep_trans _ _ _ Hs1 Hs3) as Hs13.
  pose proof (length_log_add_le (BBLOCK 0 s.(sb)) bl) as Hll.
  destruct (bzero_eq p s3 _ h n Hi3) as (s4 & E4 & Hi4 & Hv4 & Hs4);
    [by apply (fstep_data _ _ _ Hs13)|done|lia|rewrite (fstep_size _ _ Hs13); lia|].
  pose proof (fstep_trans _ _ _ Hs13 Hs4) as Hs. exists i, s1, s2, s3, s4. split_and!; try done.
  split; try done; [lia|..].
  - rewrite Hv4. by rewrite decide_True.
  - intros m Hm. eapply used_set; [done..|by apply fstep_sb|].
    by rewrite Hv4, decide_False, Hv3, decide_True, Hv1 by done.
  - intros m Hmn Hmb. rewrite Eb in Hmb. by rewrite Hv4, decide_False, Hv3, decide_False, Hv1 by done.
  - by rewrite Eb.
Qed.
(** ** A full disk *)

Definition fs_tty : lens (fsst D) tty := lcomp the_pst the_tty_l.

Lemma linv_p p (l : lgst D) bl h t :
  linv p l bl h -> thread p t -> (pproc t p).(p_pid) = (pproc l.(l_b).(b_p) p).(p_pid) ->
  linv p (put l_b_l (put b_p_l t l.(l_b)) l) bl h.
Proof.
  intros [c [Hb ? Hw ? Hg ? ? Hd ? He ?]] Hr Hp. exists c. split; try done.
  - split; [apply brep_p; [exact Hb|apply Hr]|done].
  - by destruct Hw; split.
  - by destruct Hg; split.
  - intros n Hn. destruct (He n Hn) as (e & Hc & Hre & Hle). exists e. split_and!; try done. rewrite Hle.
    by unfold holder, mypid_of; cbn [l_b put l_b_l b_p b_p_l]; rewrite Hp.
Qed.

Lemma fsinv_tty p s bl h t :
  fsinv p s bl h -> fsinv p (put fs_tty t s) bl h.
Proof.
  intros [Hl Hc]. split; [|exact Hc]. apply (linv_p p s.(f_l) bl h (put the_tty_l t s.(f_l).(l_b).(b_p)) Hl).
  - destruct Hl as [c Hl]. destruct (tr_thr _ _ _ (lr_b _ _ _ _ _ Hl)). by split.
  - done.
Qed.

Lemma fprint_eq p s bl h msg :
  fsinv p s bl h -> tty_ready (view fs_tty s) -> lock_free (view fs_tty s).(pr_lock) ->
  Forall is_byte (str msg) -> render (str msg) [] = Some (str msg) ->
  fprint msg s = Ok tt (put fs_tty (tty_puts (str msg) (view fs_tty s)) s).
Proof.
  intros [[c Hl] _] Ht Hlk Hb Hr. unfold fprint.
  pose proof (br_run _ _ _ (lr_b _ _ _ _ _ Hl)) as [[Hst _] _].
  erewrite (zoom_ok the_pst); [|apply (printf_prints _ _ (str msg)); done]. done.
Qed.
Lemma used_bit s n : layout s -> 0 <= n < s.(sb).(sb_size) -> used s n = bit_set (fv s (BBLOCK 0 s.(sb))) n.
Proof. intros Hlo Hn. unfold used. by destruct (alloc_block s n Hlo Hn) as [-> ->]. Qed.

(** What the scan of the bitmap finds. *)
Lemma scan_spec s :
  layout s ->
  match free_bit (Z.to_nat BPB) (fv s (BBLOCK 0 s.(sb))) 0 s.(sb).(sb_size) 0 with
  | Some n => 0 <= n < s.(sb).(sb_size) /\ used s n = false /\ forall m, 0 <= m < n -> used s m = true
  | None => forall m, 0 <= m < s.(sb).(sb_size) -> used s m = true
  end.
Proof.
  intros Hlo. pose proof (free_bit_spec (Z.to_nat BPB) (fv s (BBLOCK 0 s.(sb))) 0 s.(sb).(sb_size) 0 ltac:(lia) ltac:(rewrite Z2Nat.id; [lia|done])) as Hf.
  pose proof (lo_size _ Hlo) as Hz. destruct (free_bit _ _ _ _ _) as [n|].
  - destruct Hf as (Hn & Hs & Hb & Hu). split_and!; [lia..| |]; [rewrite used_bit; [done..|lia]|].
    intros m Hm. rewrite used_bit by (done || lia). by apply Hu.
  - intros m Hm. rewrite used_bit by done. apply Hf; unfold BPB, BSIZE, FSSIZE in *; lia.
Qed.

Definition out_of_blocks : list Z := str ("balloc: out of blocks" ++ newline).

(** The disk was full: a message, 0, and every block as it was. *)
Record disk_full p s bl h s' : Prop := {
  df_used : forall m, 0 <= m < s.(sb).(sb_size) -> used s m = true;
  df_view : forall m, fv s' m = fv s m;
  df_inv : fsinv p s' bl h;
  df_step : exists s1, fstep s s1 /\ s' = put fs_tty (tty_puts out_of_blocks (view fs_tty s)) s1
}.

Lemma balloc_full p s bl h :
  fsinv p s bl h -> layout s -> hands_off s h -> froom s bl h 2 ->
  tty_ready (view fs_tty s) -> lock_free (view fs_tty s).(pr_lock) ->
  free_bit (Z.to_nat BPB) (fv s (BBLOCK 0 s.(sb))) 0 s.(sb).(sb_size) 0 = None ->
  exists s', balloc ROOTDEV s = Ok 0 s' /\ disk_full p s bl h s'.
Proof.
  intros Hi Hlo Hh [Hr1 Hr2] Ht Hpl Hf. pose proof (scan_spec s Hlo) as Hs. rewrite Hf in Hs.
  pose proof (lo_size _ Hlo) as Hz.
  destruct (borrow p s bl h _ Hi (lo_map _ Hlo) (proj1 Hh)) as (i & s1 & [E1 _ Ed _ _ (s2 & E2 & Hi2 & Hv2 & Hs2)]); [lia|].
  assert (Et : view fs_tty s2 = view fs_tty s).
  { destruct Hs2 as [_ [_ _ [Hw _]]]. change (the_tty (b_p (l_b (f_l s2))) = the_tty (b_p (l_b (f_l s)))). by rewrite Hw. }
  exists (put fs_tty (tty_puts out_of_blocks (view fs_tty s2)) s2). split.
  - unfold balloc. cbn [bind get gets obind]. change (view sb_l s) with s.(sb).
    assert (exists k, Z.to_nat (sb_size (sb s) / BPB + 2) = S (S k)) as [k ->].
    { exists (Z.to_nat (sb_size (sb s) / BPB)). pose proof (Z.div_pos s.(sb).(sb_size) BPB ltac:(lia) ltac:(done)). lia. }
    rewrite loop_S. unfold balloc_body at 1. rewrite (proj2 (Z.ltb_lt _ _)) by lia. cbn [bind get gets obind].
    change (view sb_l s) with s.(sb). rewrite E1. cbn [obind bind]. rewrite Ed. cbn [obind]. rewrite Hf.
    cbn [bind]. rewrite E2. cbn [obind ret]. rewrite loop_S. unfold balloc_body at 1.
    rewrite (proj2 (Z.ltb_ge _ _)) by (unfold BPB, BSIZE, FSSIZE in *; lia). cbn [bind].
    rewrite (fprint_eq p s2 bl h) by (done || (rewrite Et; done) || (by repeat constructor)). done.
  - split; [done|exact Hv2|by apply fsinv_tty|]. exists s2. by rewrite Et.
Qed.
(** ** The allocator *)

Lemma file_block_step s s' n : fstep s s' -> file_block s n -> file_block s' n.
Proof.
  intros Hs [Hr Hd Hm Hk]. pose proof (fstep_sb _ _ Hs) as Es.
  split; rewrite ?Es; try done. by apply (fstep_data _ _ _ Hs).
Qed.

Lemma layout_alloc p s bl h n s' : layout s -> allocated p s bl h n s' -> layout s'.
Proof.
  intros Hlo Ha. pose proof (al_step _ _ _ _ _ _ Ha) as Hs. pose proof (al_used _ _ _ _ _ _ Ha) as Hu.
  pose proof (fstep_sb _ _ Hs) as Es. pose proof (lo_size _ Hlo). split; rewrite ?Es; try done.
  - rewrite Hu, (lo_boot _ Hlo) by lia. apply orb_true_r.
  - apply (fstep_data _ _ _ Hs). by apply Hlo.
  - intros k Hk. rewrite (fstep_data _ _ _ Hs). by apply Hlo.
  - intros m Hm. rewrite Hu by done. intros [_ Hf]%orb_false_iff. eapply file_block_step; [done|]. by apply Hlo.
Qed.

Lemma balloc_alloc p s bl h :
  fsinv p s bl h -> layout s -> hands_off s h -> froom s bl h 2 ->
  tty_ready (view fs_tty s) -> lock_free (view fs_tty s).(pr_lock) ->
  (exists n s', balloc ROOTDEV s = Ok n s' /\ allocated p s bl h n s') \/
  (exists s', balloc ROOTDEV s = Ok 0 s' /\ disk_full p s bl h s').
Proof.
  intros Hi Hlo Hh Hr Ht Hpl. pose proof (scan_spec s Hlo) as Hs. pose proof (lo_size _ Hlo) as Hz.
  destruct (free_bit _ _ _ _ _) as [n|] eqn:Ef; [left|right; by apply balloc_full].
  destruct Hs as (Hn & Hu & Hf).
  destruct (balloc_found p s bl h n Hi Hlo Hh Hr Hn Hu Hf) as (i & s1 & s2 & s3 & s4 & E1 & Ed & E2 & E3 & E4 & Ha).
  exists n, s4. split; [|done]. unfold balloc. cbn [bind get gets obind]. change (view sb_l s) with s.(sb).
  assert (exists k, Z.to_nat (sb_size (sb s) / BPB + 2) = S k) as [k ->].
  { exists (Z.to_nat (sb_size (sb s) / BPB + 1)). pose proof (Z.div_pos s.(sb).(sb_size) BPB ltac:(lia) ltac:(done)). lia. }
  rewrite loop_S. unfold balloc_body at 1. rewrite (proj2 (Z.ltb_lt _ _)) by lia. cbn [bind get gets obind].
  change (view sb_l s) with s.(sb). rewrite E1. cbn [obind bind]. rewrite Ed. cbn [obind]. rewrite Ef, E2.
  cbn [bind]. rewrite E3. cbn [obind bind]. rewrite ?Z.add_0_l, E4. cbn [obind ret]. unfold u32. f_equal.
  apply Z.mod_small. unfold FSSIZE in *. lia.
Qed.

(** [n] was given back. *)
Record freed p s bl h n s' : Prop := {
  fd_used : forall m, 0 <= m < s.(sb).(sb_size) -> used s' m = negb (bool_decide (m = n)) && used s m;
  fd_other : forall m, m <> BBLOCK n s.(sb) -> fv s' m = fv s m;
  fd_inv : fsinv p s' (log_add (BBLOCK n s.(sb)) bl) h;
  fd_step : fstep s s'
}.

Lemma bfree_frees p s bl h n :
  fsinv p s bl h -> layout s -> 0 <= n < s.(sb).(sb_size) -> h !! BBLOCK n s.(sb) = None -> froom s bl h 1 ->
  if used s n then exists s', bfree ROOTDEV n s = Ok tt s' /\ freed p s bl h n s'
  else bfree ROOTDEV n s = Panic "freeing free block".
Proof.
  intros Hi Hlo Hn Hh [Hr1 Hr2]. destruct (alloc_block s n Hlo Hn) as [Eb Em].
  pose proof (lo_map _ Hlo) as Hmap. rewrite <- Eb in Hmap.
  destruct (borrow p s bl h _ Hi Hmap Hh) as (i & s1 & [E1 Hi1 Ed Hv1 Hs1 _]); [lia|].
  unfold bfree. cbn [bind get gets obind]. change (view sb_l s) with s.(sb). rewrite E1. cbn [obind bind].
  rewrite Ed. cbn [obind]. fold (used s n). destruct (used s n) eqn:Eu; [|done]. cbn [negb].
  destruct (commit_block p s1 bl _ _ i (fun d => clear_bit d (n mod BPB)) Hi1 (lookup_insert_eq _ _ _)) as
    (s2 & s3 & E2 & E3 & _ & Hi3 & _ & Hv3 & _ & Hs3);
    [rewrite length_clear_bit; by eapply fv_len|rewrite (fstep_size _ _ Hs1); lia|].
  rewrite delete_insert_id in Hi3 by done. pose proof (fstep_trans _ _ _ Hs1 Hs3) as Hs.
  exists s3. rewrite E2. split; [done|]. split; try done.
  - intros m Hm. eapply used_clear; [done..|by apply fstep_sb|].
    rewrite Hv3, <- Eb, decide_True, Hv1 by done. by rewrite Em.
  - intros m Hm. by rewrite Hv3, decide_False, Hv1 by done.
Qed.

(** C19: [balloc] hands out the first block whose bit is clear in the free
    bitmap.  That block was free, is not block 0 and becomes all zeroes; its
    bit and no other bit changes, and no other block but the bitmap block.
    Both writes go through the log: the disk is untouched and both blocks are
    in the transaction.  If every block is used it returns 0, after a message
    on the console, and changes no block.  The layout of the disk is kept. *)
Theorem balloc_spec p s bl h :
  fsinv p s bl h -> layout s -> hands_off s h -> froom s bl h 2 ->
  tty_ready (view fs_tty s) -> lock_free (view fs_tty s).(pr_lock) ->
  (exists n s', balloc ROOTDEV s = Ok n s' /\ allocated p s bl h n s' /\ layout s') \/
  (exists s', balloc ROOTDEV s = Ok 0 s' /\ disk_full p s bl h s').
Proof.
  intros Hi Hlo Hh Hr Ht Hpl. destruct (balloc_alloc p s bl h Hi Hlo Hh Hr Ht Hpl) as [(n & s' & E & Ha)|Hf]; [left|by right].
  exists n, s'. split_and!; try done. by eapply layout_alloc.
Qed.

(** C20: [bfree] clears the bit of a used block and changes nothing else, so
    a block that [balloc] handed out is free again, and the bitmap is what it
    was before; freeing a free block panics. *)
Theorem bfree_spec p s bl h n :
  fsinv p s bl h -> layout s -> 0 <= n < s.(sb).(sb_size) -> h !! BBLOCK n s.(sb) = None -> froom s bl h 1 ->
  if used s n then exists s', bfree ROOTDEV n s = Ok tt s' /\ freed p s bl h n s' /\
    forall s0 bl0, allocated p s0 bl0 h n s -> forall m, 0 <= m < s.(sb).(sb_size) -> used s' m = used s0 m
  else bfree ROOTDEV n s = Panic "freeing free block".
Proof.
  intros Hi Hlo Hn Hh Hr. pose proof (bfree_frees p s bl h n Hi Hlo Hn Hh Hr) as Hf.
  destruct (used s n); [|done]. destruct Hf as (s' & E & Hf). exists s'. split_and!; try done.
  intros s0 bl0 Ha m Hm. rewrite (fd_used _ _ _ _ _ _ Hf m Hm).
  pose proof (fstep_sb _ _ (al_step _ _ _ _ _ _ Ha)) as Es. rewrite Es in Hm.
  rewrite (al_used _ _ _ _ _ _ Ha m Hm). case_bool_decide as Hmn; [|done]. subst m.
  by rewrite (al_free _ _ _ _ _ _ Ha).
Qed.
End Alloc.

(** ** Examples *)

#[local] Instance demo_patience : Patience := 2%nat.

(** The file system of [mkfs] on the disk [d], in a transaction. *)
Definition mkfs_sb : superblock := Superblock FSMAGIC 2000 1954 200 30 2 32 45.

Definition fs_demo (d : ideal_disk) : fsst ideal_disk :=
  Fst (Lgst (binit_st demo_run d) (initlock "log") 2 30 1 0 ROOTDEV 0 (replicate 30 0)) mkfs_sb
    (initlock "itable") (vreplicate 50 inode0).

Lemma fs_demo_inv d : disk_ok d -> fsinv 2%fin (fs_demo d) [] ∅.
Proof.
  intros Hd. pose proof (binit_brep 2%fin demo_run d demo_run_running Hd) as Hb. split.
  - exists ∅. split; cbn; try done.
    + split; [exact Hb|exact demo_run_thread].
    + split; cbn; done || lia.
    + apply NoDup_nil_2.
    + intros n [Hn|[x Hx]]; [by apply elem_of_nil in Hn|done].
    + intros n [Hn|[x Hx]]; [by apply elem_of_nil in Hn|done].
  - intros n _ _. unfold fv. by rewrite (lview_bview 2%fin (f_l (fs_demo d)) ∅ n Hb).
Qed.

(** A disk with the metadata and block 46 in use; block 46 starts with [hello]. *)
Definition demo_map : list Z := replicate 5 255 ++ [127] ++ replicate 1018 0.
Definition demo_hello : list Z := [104; 101; 108; 108; 111] ++ replicate 1019 0.
Definition demo_fs : fsst ideal_disk := fs_demo (IdealDisk {[ 45 := demo_map; 46 := demo_hello ]} []).

Lemma demo_fs_inv : fsinv 2%fin demo_fs [] ∅.
Proof.
  apply fs_demo_inv. apply map_Forall_insert_2; [vm_compute; reflexivity|].
  apply map_Forall_singleton. vm_compute. reflexivity.
Qed.

Lemma demo_used n : 0 <= n < 2000 -> used demo_fs n = (n <? 47).
Proof.
  intros Hn. assert (Hf : Forall (fun n => bit_set demo_map n = (n <? 47)) (seqZ 0 2000)).
  { refine (bool_decide_unpack _ _). vm_compute. exact I. }
  rewrite Forall_forall in Hf. rewrite <- Hf by (apply elem_of_seqZ; lia). unfold used.
  change (sb demo_fs) with mkfs_sb. rewrite (same_BBLOCK _ n 0) by (unfold FSSIZE; lia).
  rewrite Z.mod_small by (unfold BPB, BSIZE; lia). reflexivity.
Qed.

#[local] Opaque used demo_fs.

Lemma demo_fs_layout : layout demo_fs.
Proof.
  assert (Hd : forall n, 32 <= n < 2000 -> data_block (f_l demo_fs) n).
  { intros n Hn. unfold data_block, in_disk, in_log, FSSIZE. change (lg_start (f_l demo_fs)) with 2.
    change (lg_size (f_l demo_fs)) with 30. lia. }
  assert (Hk : forall k, 0 <= k < 200 -> 32 <= IBLOCK k mkfs_sb < 45).
  { intros k Hk. assert (Hf : Forall (fun k => 32 <= IBLOCK k mkfs_sb < 45) (seqZ 0 200)).
    { refine (bool_decide_unpack _ _). vm_compute. exact I. }
    rewrite Forall_forall in Hf. apply Hf, elem_of_seqZ. lia. }
  assert (Hb : BBLOCK 0 mkfs_sb = 45) by reflexivity.
  split; change (sb demo_fs) with mkfs_sb; change (sb_size mkfs_sb) with 2000; change (sb_ninodes mkfs_sb) with 200.
  - done.
  - rewrite demo_used by lia. reflexivity.
  - rewrite Hb. apply Hd. lia.
  - intros k Hk'. specialize (Hk k Hk'). split; [apply Hd|]; lia.
  - intros n Hn Hu. rewrite demo_used in Hu by done. apply Z.ltb_ge in Hu.
    split; change (sb demo_fs) with mkfs_sb; [done|apply Hd; lia|rewrite Hb; lia|].
    intros k Hk'. specialize (Hk k Hk'). lia.
Qed.

Lemma demo_size n : 0 <= n < 2000 -> 0 <= n < sb_size (sb demo_fs).
Proof. intros Hn. exact Hn. Qed.

Lemma demo_room k : (k <= 29)%nat -> froom demo_fs [] ∅ k.
Proof. intros Hk. unfold froom. rewrite map_size_empty. change (lg_size (f_l demo_fs)) with 30. cbn. lia. Qed.

Lemma demo_tty : tty_ready (view fs_tty demo_fs) /\ lock_free (pr_lock (view fs_tty demo_fs)).
Proof. split; split; vm_compute; reflexivity. Qed.

Lemma balloc_spec_witness : exists s', balloc ROOTDEV demo_fs = Ok 47 s' /\ used s' 47 = true /\ fv s' 47 = zblock.
Proof.
  destruct (balloc_spec 2%fin demo_fs [] ∅ demo_fs_inv demo_fs_layout) as [(n & s' & E & Ha & _)|(s' & E & Hf)];
    [by split|by apply demo_room; lia|apply demo_tty|apply demo_tty| |].
  - pose proof (al_range _ _ _ _ _ _ Ha) as Hr. change (sb demo_fs) with mkfs_sb in Hr. cbn [mkfs_sb sb_size] in Hr.
    assert (Hn : n = 47).
    { pose proof (al_free _ _ _ _ _ _ Ha) as Hf. rewrite demo_used in Hf by lia. apply Z.ltb_ge in Hf.
      destruct (decide (n = 47)) as [|Hne]; [done|].
      pose proof (al_first _ _ _ _ _ _ Ha 47 ltac:(lia)) as Hu. by rewrite demo_used in Hu. }
    subst n. exists s'. split_and!; [done| |apply Ha]. rewrite (al_used _ _ _ _ _ _ Ha 47 (demo_size 47 ltac:(lia))). rewrite (demo_used 47 ltac:(lia)). reflexivity.
  - pose proof (df_used _ _ _ _ _ Hf 47 (demo_size 47 ltac:(lia))) as Hu. by rewrite demo_used in Hu.
Defined.

Lemma bfree_spec_witness :
  (exists s', bfree ROOTDEV 46 demo_fs = Ok tt s' /\ used s' 46 = false) /\
  bfree ROOTDEV 47 demo_fs = Panic "freeing free block".
Proof.
  pose proof (fun n => bfree_spec 2%fin demo_fs [] ∅ n demo_fs_inv demo_fs_layout) as Hf. split.
  - pose proof (Hf 46 (demo_size 46 ltac:(lia)) eq_refl ltac:(apply demo_room; lia)) as HX. rewrite (demo_used 46 ltac:(lia)) in HX.
    destruct HX as (s' & E & Hd & _). exists s'. split; [done|]. rewrite (fd_used _ _ _ _ _ _ Hd 46 (demo_size 46 ltac:(lia))). rewrite (demo_used 46 ltac:(lia)). reflexivity.
  - pose proof (Hf 47 (demo_size 47 ltac:(lia)) eq_refl ltac:(apply demo_room; lia)) as HX. rewrite (demo_used 47 ltac:(lia)) in HX. exact HX.
Defined.
