(* ===== verification/FsFile.v ===== *)
(** * Files: the blocks of an inode and the bytes they hold

    An inode names its blocks through 12 direct addresses and the entries of
    an indirect block.  [content] is the array of bytes these blocks stand
    for, with absent blocks read as zeroes; [bmap] adds blocks without
    changing it. *)

From S2P Require Import Prelude Riscv Memory Spinlock Kalloc Vm Tty Proc ProcSpec Sleeplock Uart UartThm Bio BioSpec Block Log LogCrash LogSpec LogOps Txn Fs FsSpec FsBlock.

Section FsFile.
Context {D : Type} `{DiskLaws D} `{Patience}.
Implicit Types (s : fsst D) (h : gmap Z (fin 30)) (bl : list Z) (i : fin 50).

Definition fino s i : inode := s.(inodes) !!! i.

(** The slot of the indirect block, after those of the data blocks. *)
Definition IND : Z := MAXFILE.

(** The block in slot [k] of inode [i]; 0 if there is none. *)
Definition slot s i (k : Z) : Z :=
  let ad := (fino s i).(i_addrs) in
  if k <? NDIRECT then ad !!! Z.to_nat k
  else if k <? MAXFILE then
    if ad !!! 12%nat =? 0 then 0 else get_le 4 (fv s (ad !!! 12%nat)) (Z.to_nat (4 * (k - NDIRECT)))
  else ad !!! 12%nat.

(** The byte of the file at offset [off]. *)
Definition content s i (off : Z) : Z :=
  let a := slot s i (off / BSIZE) in if a =? 0 then 0 else fv s a !!! Z.to_nat (off mod BSIZE).

(** The blocks of an inode are blocks for files, marked as used, and no two
    slots share one. *)
Record iok s i : Prop := {
  io_dev : (fino s i).(i_dev) = ROOTDEV;
  io_inum : 0 <= (fino s i).(i_inum) < s.(sb).(sb_ninodes);
  io_len : length (fino s i).(i_addrs) = 13%nat;
  io_slot : forall k, 0 <= k <= IND -> slot s i k <> 0 -> file_block s (slot s i k) /\ used s (slot s i k) = true;
  io_inj : forall j k, 0 <= j <= IND -> 0 <= k <= IND -> slot s i j = slot s i k -> slot s i j <> 0 -> j = k
}.

(** ** Frames *)

(** Wakeups of sleeping processes and messages on the console. *)
Definition quiet (t t' : pst) : Prop :=
  exists t1 out, wakes t t1 /\ t' = put_tty (tty_puts out t.(the_tty)) t1.

Lemma quiet_wakes t t' : wakes t t' -> quiet t t'.
Proof. intros Hw. exists t', []. split; [done|]. destruct Hw as [-> _]. by destruct t. Qed.

Lemma wakes_untty x t t' : wakes (put_tty x t) t' -> wakes t (put_tty t.(the_tty) t') /\ t' = put_tty x (put_tty t.(the_tty) t').
Proof.
  intros [E Hp]. rewrite E. split; [split|].
  - by destruct t.
  - intros q. specialize (Hp q). rewrite E in Hp. exact Hp.
  - by destruct t.
Qed.

Lemma quiet_trans t1 t2 t3 : quiet t1 t2 -> quiet t2 t3 -> quiet t1 t3.
Proof.
  intros (u1 & o1 & Hw1 & ->) (u2 & o2 & Hw2 & ->). apply wakes_untty in Hw2 as [Hw2 E2].
  exists (put_tty (the_tty u1) u2), (o1 ++ o2). split; [by eapply wakes_trans|].
  rewrite put_tty_twice. change (the_tty (put_tty ?x u1)) with x. by rewrite tty_puts_app.
Qed.

Lemma quiet_refl t : quiet t t.
Proof. apply quiet_wakes, wakes_refl. Qed.

(** What operations on file [i] leave alone: the disk, the log's parameters
    and the other inodes. *)
Record fframe i s s' : Prop := {
  ff_sb : s'.(sb) = s.(sb);
  ff_it : s'.(it_lock) = s.(it_lock);
  ff_ino : forall j, j <> i -> fino s' j = fino s j;
  ff_lg : lg_frame s.(f_l) s'.(f_l);
  ff_disk : same_disk s.(f_l).(l_b) s'.(f_l).(l_b);
  ff_pst : quiet s.(f_l).(l_b).(b_p) s'.(f_l).(l_b).(b_p)
}.

Lemma fframe_step i s s' : fstep s s' -> fframe i s s'.
Proof.
  intros [E [Hl Hd Hw]]. split; [by rewrite E|by rewrite E| |done|done|by apply quiet_wakes].
  intros j _. unfold fino. by rewrite E.
Qed.

Lemma fframe_refl i s : fframe i s s.
Proof. apply fframe_step, fstep_refl. Qed.

Lemma fframe_trans i s1 s2 s3 : fframe i s1 s2 -> fframe i s2 s3 -> fframe i s1 s3.
Proof.
  intros [? ? Hi1 F1 [D1 W1] Q1] [? ? Hi2 F2 [D2 W2] Q2]. split; try congruence.
  - intros j Hj. by rewrite Hi2, Hi1.
  - destruct F1, F2. split; congruence.
  - split; [intros m; by rewrite D2|by rewrite W2].
  - by eapply quiet_trans.
Qed.

Lemma fframe_ino i s x : fframe i s (put (ino_l i) x s).
Proof.
  split; [done|done| |by split|by split|apply quiet_refl].
  intros j Hj. unfold fino. cbn. by rewrite vlookup_insert_ne.
Qed.

Lemma fframe_tty i s out : fframe i s (put fs_tty (tty_puts out (view fs_tty s)) s).
Proof.
  split; [done|done|done|by split|by split|]. exists s.(f_l).(l_b).(b_p), out. split; [apply wakes_refl|done].
Qed.

Lemma fframe_data i s s' n : fframe i s s' -> data_block s'.(f_l) n <-> data_block s.(f_l) n.
Proof. intros Hf. by apply data_block_frame, Hf. Qed.
Lemma fframe_size i s s' : fframe i s s' -> lg_size s'.(f_l) = lg_size s.(f_l).
Proof. intros Hf. apply Hf. Qed.
Lemma fframe_block i s s' n : fframe i s s' -> file_block s n -> file_block s' n.
Proof.
  intros Hs [Hr Hd Hm Hk]. split; rewrite ?(ff_sb _ _ _ Hs); try done. by apply (fframe_data _ _ _ _ Hs).
Qed.
Lemma fframe_tty_ready i s s' :
  fframe i s s' -> tty_ready (view fs_tty s) -> lock_free (view fs_tty s).(pr_lock) ->
  tty_ready (view fs_tty s') /\ lock_free (view fs_tty s').(pr_lock).
Proof.
  intros Hf Ht Hl. destruct (ff_pst _ _ _ Hf) as (t1 & out & _ & E). unfold fs_tty in *. cbn [lcomp view] in *.
  change (view the_pst s') with (b_p (l_b (f_l s'))). rewrite E. change (view the_tty_l (put_tty ?x _)) with x.
  split; [by apply tty_puts_ready|]. by rewrite tty_puts_frame.
Qed.

(** ** Growing a file *)

(** File [i] keeps its blocks and may have got blocks that were free; only its
    blocks and the bitmap changed. *)
Record edits p i s s' bl' : Prop := {
  ed_keep : forall k, 0 <= k <= IND -> slot s i k <> 0 -> slot s' i k = slot s i k;
  ed_new : forall k, 0 <= k <= IND -> slot s' i k = slot s i k \/ used s (slot s' i k) = false;
  ed_ino : exists ad, fino s' i = with_i_addrs ad (fino s i);
  ed_view : forall m, m <> BBLOCK 0 s.(sb) -> (forall k, 0 <= k <= IND -> slot s' i k <> 0 -> m <> slot s' i k) ->
    fv s' m = fv s m;
  ed_used : forall m, 0 <= m < s.(sb).(sb_size) -> used s m = true -> used s' m = true;
  ed_ok : iok s' i;
  ed_layout : layout s';
  ed_inv : fsinv p s' bl' ∅;
  ed_frame : fframe i s s'
}.

(** The bytes of the file are the same, too; [bn] is the slot that was asked
    for. *)
Record grows p i bn s bl s' bl' : Prop := {
  gr_e : edits p i s s' bl';
  gr_content : forall off, 0 <= off < MAXFILE * BSIZE -> content s' i off = content s i off;
  gr_log : forall m, m ∈ bl' -> m ∈ bl \/ m = BBLOCK 0 s.(sb) \/ m <> 0 /\ (m = slot s' i IND \/ m = slot s' i bn)
}.

Lemma with_addrs_same (x : inode) : x = with_i_addrs x.(i_addrs) x.
Proof. by destruct x. Qed.

Lemma edits_refl p i s bl : iok s i -> layout s -> fsinv p s bl ∅ -> edits p i s s bl.
Proof.
  intros Hi Hl Hv. split; try done; [by left|exists (fino s i).(i_addrs); apply with_addrs_same|apply fframe_refl].
Qed.

Lemma edits_trans p i s1 s2 b2 s3 b3 : edits p i s1 s2 b2 -> edits p i s2 s3 b3 -> edits p i s1 s3 b3.
Proof.
  intros G1 G2. pose proof (ff_sb _ _ _ (ed_frame _ _ _ _ _ G1)) as Es.
  assert (Hk : forall k, 0 <= k <= IND -> slot s2 i k <> 0 -> slot s3 i k = slot s2 i k) by apply G2.
  split; try apply G2.
  - intros k Hr Hz. rewrite Hk; [by apply G1|done|]. by rewrite (ed_keep _ _ _ _ _ G1).
  - intros k Hr. destruct (ed_new _ _ _ _ _ G2 k Hr) as [E|Hu]; [rewrite E; by apply G1|right].
    destruct (decide (slot s3 i k = 0)) as [Hz|Hz].
    + rewrite Hz, (lo_boot _ (ed_layout _ _ _ _ _ G1)) in Hu. done.
    + destruct (used s1 (slot s3 i k)) eqn:Eu; [|done]. exfalso.
      rewrite (ed_used _ _ _ _ _ G1) in Hu; [done| |done].
      destruct (io_slot _ _ (ed_ok _ _ _ _ _ G2) k Hr Hz) as [[Hb _ _ _] _].
      by rewrite (ff_sb _ _ _ (ed_frame _ _ _ _ _ G2)), Es in Hb.
  - destruct (ed_ino _ _ _ _ _ G1) as [a1 E1], (ed_ino _ _ _ _ _ G2) as [a2 E2]. exists a2. by rewrite E2, E1.
  - intros m Hb Hm. rewrite (ed_view _ _ _ _ _ G2); [|by rewrite Es|done]. apply G1; [done|].
    intros k Hr Hz ->. apply (Hm k Hr); by rewrite Hk.
  - intros m Hr Hu. apply G2; [by rewrite Es|by apply G1].
  - eapply fframe_trans; [apply G1|apply G2].
Qed.

Lemma grows_refl p i bn s bl : iok s i -> layout s -> fsinv p s bl ∅ -> grows p i bn s bl s bl.
Proof. intros Hi Hl Hv. split; [by apply edits_refl|done|by left]. Qed.

Lemma grows_trans p i bn s1 b1 s2 b2 s3 b3 :
  0 <= bn <= IND -> grows p i bn s1 b1 s2 b2 -> grows p i bn s2 b2 s3 b3 -> grows p i bn s1 b1 s3 b3.
Proof.
  intros Hbn [G1 C1 L1] [G2 C2 L2]. split; [by eapply edits_trans| |].
  - intros off Ho. by rewrite C2, C1.
  - intros m Hm. destruct (L2 m Hm) as [Hm1|[->|Hm1]]; [|right; left; by rewrite (ff_sb _ _ _ (ed_frame _ _ _ _ _ G1))|tauto].
    destruct (L1 m Hm1) as [Hm2|[Hm2|(Hz & Hm2)]]; [tauto..|].
    right. right. split; [done|]. destruct Hm2 as [->| ->]; [left|right]; symmetry; by apply G2.
Qed.

(** A free block put into one empty slot. *)
Section Grow1.
Context (i : fin 50) (s s' : fsst D) (n k0 : Z).
Hypothesis Hok : iok s i.
Hypothesis Hk0 : 0 <= k0 <= IND.
Hypothesis Hfb : file_block s n.
Hypothesis Hn0 : n <> 0.
Hypothesis Hfree : used s n = false.
Hypothesis Hslot : forall k, 0 <= k <= IND -> slot s' i k = if decide (k = k0) then n else slot s i k.
Hypothesis Hempty : slot s i k0 = 0.
Hypothesis Hzero : fv s' n = zblock.
Hypothesis Hview : forall m, m <> BBLOCK 0 s.(sb) -> m <> n -> (slot s' i IND <> 0 -> m <> slot s' i IND) ->
  fv s' m = fv s m.
Hypothesis Hused : forall m, 0 <= m < s.(sb).(sb_size) -> used s' m = bool_decide (m = n) || used s m.
Hypothesis Hframe : fframe i s s'.
Hypothesis Hino : exists ad, fino s' i = with_i_addrs ad (fino s i) /\ length ad = 13%nat.

Lemma slot_old k : 0 <= k <= IND -> slot s i k <> 0 -> slot s i k <> n.
Proof. intros Hk Hz E. destruct (io_slot _ _ Hok k Hk Hz) as [_ Hu]. by rewrite E, Hfree in Hu. Qed.

Lemma grow_iok : iok s' i.
Proof.
  destruct Hino as (ad & Ei & Hl). split.
  - rewrite Ei. apply Hok.
  - rewrite Ei, (ff_sb _ _ _ Hframe). apply Hok.
  - by rewrite Ei.
  - intros k Hk Hz. rewrite Hslot in Hz |- * by done. case_decide.
    + split; [by eapply fframe_block|]. rewrite Hused by apply Hfb. by rewrite bool_decide_true.
    + destruct (io_slot _ _ Hok k Hk Hz) as [Hb Hu]. split; [by eapply fframe_block|].
      rewrite Hused, Hu by apply Hb. apply orb_true_r.
  - intros j k Hj Hk. rewrite !Hslot by done. repeat case_decide; try congruence.
    + intros E Hz. exfalso. by apply (slot_old k); rewrite <- ?E.
    + intros E Hz. exfalso. by apply (slot_old j).
    + by apply Hok.
Qed.

Lemma grow_content off : 0 <= off < MAXFILE * BSIZE -> content s' i off = content s i off.
Proof.
  intros Ho. unfold content. assert (Hk : 0 <= off / BSIZE < IND).
  { split; [apply Z.div_pos; [lia|done]|apply Z.div_lt_upper_bound; [done|]]. unfold IND, MAXFILE, NDIRECT, NINDIRECT, BSIZE in *. lia. }
  set (k := off / BSIZE) in *. rewrite Hslot by lia. case_decide as Ek.
  - rewrite Ek, Hempty, Z.eqb_refl. rewrite (proj2 (Z.eqb_neq _ _) Hn0), Hzero. unfold zblock.
    apply lookup_total_replicate_2. pose proof (Z.mod_pos_bound off BSIZE ltac:(done)). unfold BSIZE in *. lia.
  - destruct (Z.eqb_spec (slot s i k) 0) as [|Hz]; [done|]. f_equal.
    destruct (io_slot _ _ Hok k ltac:(lia) Hz) as [Hb _]. apply Hview; [apply Hb|apply slot_old; [lia|done]|].
    intros _. rewrite Hslot by done. case_decide as Ei; [apply slot_old; [lia|done]|].
    intros E. assert (k = IND); [|lia]. apply Hok; [lia|done|done|done].
Qed.

Lemma grow_layout : layout s -> layout s'.
Proof.
  intros Hlo. pose proof (lo_size _ Hlo). split; rewrite ?(ff_sb _ _ _ Hframe); try done.
  - rewrite Hused, (lo_boot _ Hlo) by lia. apply orb_true_r.
  - apply (fframe_data _ _ _ _ Hframe). by apply Hlo.
  - intros k Hk. rewrite (fframe_data _ _ _ _ Hframe). by apply Hlo.
  - intros m Hm. rewrite Hused by done. intros [_ Hf]%orb_false_iff. eapply fframe_block; [done|]. by apply Hlo.
Qed.

Lemma grows_1 p bn bl bl' :
  layout s -> fsinv p s' bl' ∅ -> k0 = bn \/ k0 = IND ->
  (forall m, m ∈ bl' -> m ∈ bl \/ m = BBLOCK 0 s.(sb) \/ m <> 0 /\ (m = slot s' i IND \/ m = n)) ->
  grows p i bn s bl s' bl'.
Proof.
  intros Hlo Hi Hbn Hlog. split; [split; try done|apply grow_content|].
  - intros k Hk Hz. rewrite Hslot by done. case_decide as E; [|done]. by rewrite E in Hz.
  - intros k Hk. rewrite Hslot by done. case_decide; [by right|by left].
  - destruct Hino as (ad & E & _). by exists ad.
  - intros m Hb Hm. apply Hview; [done| |].
    + intros ->. apply (Hm k0 Hk0); rewrite Hslot, decide_True by done; done.
    + by apply Hm.
  - intros m Hm Hu. by rewrite Hused, Hu, orb_true_r.
  - apply grow_iok.
  - by apply grow_layout.
  - intros m Hm. destruct (Hlog m Hm) as [|[|(Hz & [|Hn])]]; [tauto..|]. right. right. split; [done|].
    assert (E : slot s' i k0 = n) by by rewrite Hslot, decide_True. destruct Hbn as [<-| ->]; [right|left]; congruence.
Qed.
End Grow1.

Lemma get_le_zblock w off : get_le w zblock off = 0.
Proof.
  unfold get_le, zblock. rewrite drop_replicate, take_replicate.
  induction (w `min` _)%nat as [|k IH]; [done|]. cbn [replicate le_val]. by rewrite IH.
Qed.

(** [ip->addrs[j] = n] for a block [balloc] just handed out. *)
Definition set_slot i (j : nat) (n : Z) s : fsst D :=
  put (ino_l i) (with_i_addrs (<[j := n]> (fino s i).(i_addrs)) (fino s i)) s.

Lemma fv_set_slot i j n s m : fv (set_slot i j n s) m = fv s m.
Proof. done. Qed.

Lemma fino_set_slot i j n s : fino (set_slot i j n s) i = with_i_addrs (<[j := n]> (fino s i).(i_addrs)) (fino s i).
Proof. unfold fino, set_slot. cbn. by rewrite vlookup_insert. Qed.

Lemma fsinv_ino p i s bl h x : fsinv p s bl h -> fsinv p (put (ino_l i) x s) bl h.
Proof. by intros [? ?]. Qed.

(** The slot of [addrs[j]]. *)
Definition addr_slot (j : nat) (k : Z) : Prop := (j < 12)%nat /\ k = Z.of_nat j \/ j = 12%nat /\ k = IND.

Lemma slot_addr s i j k : addr_slot j k -> slot s i k = (fino s i).(i_addrs) !!! j.
Proof.
  intros [[Hj ->]|[-> ->]]; [|done]. unfold slot. rewrite (proj2 (Z.ltb_lt _ _)) by (unfold NDIRECT; lia).
  by rewrite Nat2Z.id.
Qed.

Lemma slot_set_slot p i j k0 s bl n s1 :
  iok s i -> addr_slot j k0 -> slot s i k0 = 0 -> allocated p s bl ∅ n s1 -> layout s ->
  forall k, 0 <= k <= IND -> slot (set_slot i j n s1) i k = if decide (k = k0) then n else slot s i k.
Proof.
  intros Hok Hj He Ha Hlo k Hk. pose proof (io_len _ _ Hok) as Hl.
  assert (Ei : fino s1 i = fino s i) by (unfold fino; by rewrite (fstep_inodes _ _ (al_step _ _ _ _ _ _ Ha))).
  assert (Hadr : forall m, <[j := n]> (i_addrs (fino s i)) !!! m = if decide (m = j) then n else i_addrs (fino s i) !!! m).
  { intros m. case_decide as E; [subst|by rewrite list_lookup_total_insert_ne]. apply list_lookup_total_insert_eq.
    destruct Hj; lia. }
  rewrite (slot_addr _ _ _ _ Hj) in He. unfold slot at 1. rewrite fino_set_slot, Ei. cbn [i_addrs with_i_addrs].
  rewrite !Hadr. unfold addr_slot, IND, MAXFILE, NDIRECT, NINDIRECT, BSIZE in *. change (1024 / 4) with 256 in *.
  destruct (Z.ltb_spec k 12) as [Hk12|Hk12].
  - unfold slot. rewrite (proj2 (Z.ltb_lt k _)) by (unfold NDIRECT; lia). repeat case_decide; done || lia.
  - destruct (Z.ltb_spec k (12 + 256)) as [Hk2|Hk2].
    + rewrite (decide_False (P := k = k0)) by lia. unfold slot. rewrite (proj2 (Z.ltb_ge k _)) by (unfold NDIRECT; lia).
      rewrite (proj2 (Z.ltb_lt k _)) by (unfold MAXFILE, NDIRECT, NINDIRECT, BSIZE; change (1024 / 4) with 256; lia).
      case_decide as E12.
      * subst j. rewrite He, Z.eqb_refl. pose proof (al_range _ _ _ _ _ _ Ha).
        rewrite (proj2 (Z.eqb_neq n 0)) by lia. rewrite fv_set_slot, (al_zero _ _ _ _ _ _ Ha). apply get_le_zblock.
      * destruct (Z.eqb_spec (i_addrs (fino s i) !!! 12%nat) 0) as [|Hz]; [done|].
        change (i_addrs (fino s i) !!! 12%nat) with (slot s i IND) in *.
        destruct (io_slot _ _ Hok IND ltac:(done) Hz) as [Hb Hu]. f_equal. rewrite fv_set_slot.
        apply (al_other _ _ _ _ _ _ Ha).
        -- intros E. by rewrite E, (al_free _ _ _ _ _ _ Ha) in Hu.
        -- destruct (alloc_block s n Hlo) as [-> _]; [pose proof (al_range _ _ _ _ _ _ Ha); lia|]. apply Hb.
    + replace k with (12 + 256) by lia. unfold slot. cbn -[fino lookup_total decide]. repeat case_decide; done || lia.
Qed.

(** ** States with the same blocks *)

Record same_file i s s' : Prop := {
  sf_view : forall m, fv s' m = fv s m;
  sf_ino : fino s' i = fino s i;
  sf_frame : fframe i s s'
}.

Section SameFile.
Context (i : fin 50) (s s' : fsst D) (Hs : same_file i s s').

Lemma used_same n : used s' n = used s n.
Proof. unfold used. by rewrite (ff_sb _ _ _ (sf_frame _ _ _ Hs)), (sf_view _ _ _ Hs). Qed.

Lemma slot_same k : slot s' i k = slot s i k.
Proof. unfold slot. rewrite (sf_ino _ _ _ Hs). by rewrite (sf_view _ _ _ Hs). Qed.

Lemma content_same off : content s' i off = content s i off.
Proof. unfold content. rewrite slot_same. by rewrite (sf_view _ _ _ Hs). Qed.

Lemma layout_same : layout s -> layout s'.
Proof.
  destruct Hs as [_ _ Hf]. intros Hlo. split; rewrite ?(ff_sb _ _ _ Hf); try apply Hlo.
  - rewrite used_same. apply Hlo.
  - apply (fframe_data _ _ _ _ Hf), Hlo.
  - intros k Hk. rewrite (fframe_data _ _ _ _ Hf). by apply Hlo.
  - intros n Hn. rewrite used_same. intros Hu. eapply fframe_block; [done|]. by apply Hlo.
Qed.

Lemma iok_same : iok s i -> iok s' i.
Proof.
  destruct Hs as [_ Ei Hf]. intros Hok. split; rewrite ?Ei, ?(ff_sb _ _ _ Hf); try apply Hok.
  - intros k Hk. rewrite slot_same, used_same. intros Hz. destruct (io_slot _ _ Hok k Hk Hz) as [Hb Hu].
    split; [by eapply fframe_block|done].
  - intros j k Hj Hk. rewrite !slot_same. by apply Hok.
Qed.

Lemma grows_same p bn bl : iok s i -> layout s -> fsinv p s' bl ∅ -> grows p i bn s bl s' bl.
Proof.
  intros Hok Hlo Hi. split; [split; try done|intros off _; apply content_same|by left].
  - intros k _ _. apply slot_same.
  - intros k _. left. apply slot_same.
  - exists (fino s i).(i_addrs). rewrite (sf_ino _ _ _ Hs). apply with_addrs_same.
  - intros m _ _. apply Hs.
  - intros m _. by rewrite used_same.
  - by apply iok_same.
  - by apply layout_same.
  - apply Hs.
Qed.
End SameFile.

Lemma same_file_step i s s' : fstep s s' -> (forall m, fv s' m = fv s m) -> same_file i s s'.
Proof. intros Hs Hv. split; [done|unfold fino; by rewrite (fstep_inodes _ _ Hs)|by apply fframe_step]. Qed.

Lemma same_file_full p i s bl h s' : disk_full p s bl h s' -> same_file i s s'.
Proof.
  intros [_ Hv _ (s1 & Hs & E)]. split; [done| |].
  - unfold fino. rewrite E. change (inodes (put fs_tty ?x s1)) with (inodes s1). by rewrite (fstep_inodes _ _ Hs).
  - rewrite E. eapply fframe_trans; [by apply fframe_step|].
    assert (Et : view fs_tty s = view fs_tty s1).
    { destruct Hs as [_ [_ _ [Hw _]]]. change (the_tty (b_p (l_b (f_l s))) = the_tty (b_p (l_b (f_l s1)))). by rewrite Hw. }
    rewrite Et. apply fframe_tty.
Qed.

Definition full s : Prop := forall m, 0 <= m < s.(sb).(sb_size) -> used s m = true.

Lemma full_same p i s bl h s' : disk_full p s bl h s' -> full s'.
Proof.
  intros Hf m Hm. pose proof (same_file_full p i s bl h s' Hf) as Hs. rewrite (used_same i _ _ Hs).
  apply (df_used _ _ _ _ _ Hf). by rewrite (ff_sb _ _ _ (sf_frame _ _ _ Hs)) in Hm.
Qed.

Lemma hands_off_empty s : hands_off s ∅.
Proof. split; [|intros ???]; apply lookup_empty. Qed.

Lemma grows_set_slot p i bn j k0 s bl n s1 :
  iok s i -> layout s -> addr_slot j k0 -> k0 = bn \/ k0 = IND -> slot s i k0 = 0 -> allocated p s bl ∅ n s1 ->
  grows p i bn s bl (set_slot i j n s1) (log_add n (log_add (BBLOCK n s.(sb)) bl)) /\ slot (set_slot i j n s1) i k0 = n.
Proof.
  intros Hok Hlo Hj Hbn He Ha. pose proof (slot_set_slot p i j k0 s bl n s1 Hok Hj He Ha Hlo) as Hs.
  assert (Hk0 : 0 <= k0 <= IND). { destruct Hj as [[? ->]|[_ ->]]; [|done]. unfold IND, MAXFILE, NDIRECT, NINDIRECT, BSIZE. change (1024/4) with 256. lia. }
  pose proof (al_range _ _ _ _ _ _ Ha) as Hr. destruct (alloc_block s n Hlo ltac:(lia)) as [Eb _].
  pose proof (al_other _ _ _ _ _ _ Ha) as Ho. rewrite Eb in Ho |- *.
  assert (Ei : fino s1 i = fino s i) by (unfold fino; by rewrite (fstep_inodes _ _ (al_step _ _ _ _ _ _ Ha))).
  split; [|by rewrite Hs, decide_True]. apply (grows_1 i s (set_slot i j n s1) n k0); try done.
  - apply lo_free; [done|lia|apply Ha].
  - lia.
  - apply Ha.
  - apply (al_zero _ _ _ _ _ _ Ha).
  - intros m Hb Hn _. rewrite fv_set_slot. by apply Ho.
  - apply (al_used _ _ _ _ _ _ Ha).
  - eapply fframe_trans; [apply fframe_step, Ha|apply fframe_ino].
  - exists (<[j:=n]> (i_addrs (fino s1 i))). rewrite fino_set_slot, Ei. split; [done|]. rewrite length_insert. apply Hok.
  - apply fsinv_ino. rewrite <- Eb. apply Ha.
  - intros m [->|[->|Hm]%elem_log_add]%elem_log_add; [|tauto..]. right. right. split; [lia|by right].
Qed.

(** ** The indirect block *)

(** The entries after entry [k] was set to [n]. *)
Lemma get_le_entry d k j n :
  length d = 1024%nat -> 0 <= k < 256 -> 0 <= j < 256 -> 0 <= n < 2 ^ 32 ->
  get_le 4 (put_le 4 (Z.to_nat (4 * k)) n d) (Z.to_nat (4 * j)) =
  if decide (j = k) then n else get_le 4 d (Z.to_nat (4 * j)).
Proof.
  intros Hl Hk Hj Hn. case_decide as E.
  - rewrite E, get_put_le by lia. apply Z.mod_small. exact Hn.
  - apply get_put_le_ne; lia.
Qed.

Lemma slot_entry s i k :
  0 <= k < 256 -> slot s i IND <> 0 -> slot s i (NDIRECT + k) = get_le 4 (fv s (slot s i IND)) (Z.to_nat (4 * k)).
Proof.
  intros Hk Hz. unfold slot at 1. unfold IND in *. change (slot s i MAXFILE) with (i_addrs (fino s i) !!! 12%nat) in *.
  rewrite (proj2 (Z.ltb_ge _ _)) by lia. rewrite (proj2 (Z.ltb_lt _ _)) by (unfold MAXFILE, NINDIRECT, BSIZE; change (1024/4) with 256; lia).
  rewrite (proj2 (Z.eqb_neq _ _) Hz). by replace (NDIRECT + k - NDIRECT) with k by lia.
Qed.

Lemma slot_put_entry s s4 i k n :
  0 <= k < 256 -> 0 <= n < 2 ^ 32 -> slot s i IND <> 0 -> length (fv s (slot s i IND)) = 1024%nat ->
  fino s4 i = fino s i -> fv s4 (slot s i IND) = put_le 4 (Z.to_nat (4 * k)) n (fv s (slot s i IND)) ->
  forall j, 0 <= j <= IND -> slot s4 i j = if decide (j = NDIRECT + k) then n else slot s i j.
Proof.
  intros Hk Hn Hz Hl Ei Hv j Hj. assert (HI : slot s4 i IND = slot s i IND) by (unfold slot; by rewrite Ei).
  unfold IND, MAXFILE, NINDIRECT, BSIZE in Hj. change (1024 / 4) with 256 in Hj.
  destruct (decide (j < NDIRECT)) as [Hd|Hd].
  - rewrite decide_False by lia. unfold slot. rewrite (proj2 (Z.ltb_lt _ _) Hd). by rewrite Ei.
  - destruct (decide (j = NDIRECT + 256)) as [->|Hne].
    + rewrite decide_False by lia. exact HI.
    + replace j with (NDIRECT + (j - NDIRECT)) by lia. rewrite !slot_entry by (lia || congruence).
      rewrite HI, Hv, get_le_entry by lia. repeat case_decide; done || lia.
Qed.

Definition bmap_entry (dev addr k : Z) : M (fsst D) Z :=
  bp <- fbread dev addr ;;
  d <- fdata bp ;;
  a <- (if get_le 4 d (Z.to_nat (4 * k)) =? 0 then
          addr <- balloc dev ;;
          if nz addr then
            fset bp (put_le 4 (Z.to_nat (4 * k)) addr) ;;
            flog_write bp ;;
            ret addr
          else ret addr
        else ret (get_le 4 d (Z.to_nat (4 * k)))) ;;
  fbrelse bp ;;
  ret a.

(** What [bmap] promises: the block of slot [bn], or 0 on a full disk. *)
Definition mapped p i bn s bl (a : Z) s' bl' : Prop :=
  grows p i bn s bl s' bl' /\ (a <> 0 /\ slot s' i bn = a \/ a = 0 /\ slot s i bn = 0 /\ full s').

(** Room for the blocks one [bmap] may log. *)
Definition fits s bl (k : nat) : Prop :=
  (length bl + k + 1 <= 30)%nat /\ Z.of_nat (length bl + k) <= lg_size s.(f_l) - 1.

(** A new entry in the indirect block, once [balloc] has found a block. *)
Lemma entry_grows p i k s bl b s1 n s2 :
  fsinv p s bl ∅ -> iok s i -> layout s -> fits s bl 3 ->
  0 <= k < 256 -> slot s i IND <> 0 -> slot s i (NDIRECT + k) = 0 ->
  fstep s s1 -> (forall m, fv s1 m = fv s m) ->
  allocated p s1 bl {[slot s i IND := b]} n s2 ->
  exists s3 s4 bl', (forall A (m : M (fsst D) A), (fset b (put_le 4 (Z.to_nat (4 * k)) n) ;; flog_write b ;; m) s2 = m s3) /\
    fbrelse b s3 = Ok tt s4 /\ grows p i (NDIRECT + k) s bl s4 bl' /\ slot s4 i (NDIRECT + k) = n.
Proof.
  intros Hi Hok Hlo [Hr1 Hr2] Hk Hz He Hs1 Hv1 Ha.
  destruct (io_slot _ _ Hok IND ltac:(done) Hz) as [Hb Hu]. set (ind := slot s i IND) in *.
  pose proof (same_file_step i s s1 Hs1 Hv1) as Hsf. pose proof (layout_same i s s1 Hsf Hlo) as Hlo1.
  pose proof (fstep_sb _ _ Hs1) as Es1. pose proof (al_range _ _ _ _ _ _ Ha) as Hn.
  pose proof (al_free _ _ _ _ _ _ Ha) as Hfree. rewrite (used_same i _ _ Hsf) in Hfree.
  destruct (alloc_block s1 n Hlo1 ltac:(lia)) as [Eb _]. rewrite Es1 in Eb, Hn.
  pose proof (al_other _ _ _ _ _ _ Ha) as Ho. pose proof (al_inv _ _ _ _ _ _ Ha) as Hi2. rewrite Es1, Eb in Ho, Hi2.
  pose proof (fstep_trans _ _ _ Hs1 (al_step _ _ _ _ _ _ Ha)) as Hs2.
  assert (Hin : ind <> n) by (intros E; congruence).
  assert (Hvi : fv s2 ind = fv s ind) by (rewrite Ho by (done || apply Hb); apply Hv1).
  pose proof (length_log_add_le n (log_add (BBLOCK 0 s.(sb)) bl)). pose proof (length_log_add_le (BBLOCK 0 s.(sb)) bl).
  pose proof (lo_size _ Hlo) as Hsz. unfold FSSIZE in Hsz.
  destruct (commit_block p s2 _ _ ind b (put_le 4 (Z.to_nat (4 * k)) n) Hi2 (lookup_singleton_eq _ _)) as
    (s3 & s4 & E3 & E4 & _ & Hi4 & _ & Hv4 & _ & Hs4);
    [rewrite length_put_le; rewrite (fv_len _ _ _ _ _ Hi2); lia|rewrite (fstep_size _ _ Hs2); lia|].
  rewrite delete_singleton_eq in Hi4. pose proof (fstep_trans _ _ _ Hs2 Hs4) as Hs. rewrite Hvi in Hv4.
  assert (Hsl : forall j, 0 <= j <= IND -> slot s4 i j = if decide (j = NDIRECT + k) then n else slot s i j).
  { apply slot_put_entry; try done; [lia|by eapply fv_len|unfold fino; by rewrite (fstep_inodes _ _ Hs)|].
    by rewrite Hv4, decide_True. }
  assert (Hbn : 0 <= NDIRECT + k < IND) by (unfold IND, MAXFILE, NDIRECT, NINDIRECT, BSIZE; change (1024/4) with 256; lia).
  assert (HI : slot s4 i IND = ind) by (rewrite Hsl, decide_False by (done || lia); done).
  exists s3, s4, (log_add ind (log_add n (log_add (BBLOCK 0 s.(sb)) bl))). split; [exact E3|]. split; [exact E4|]. split; [|by rewrite Hsl, decide_True by lia].
  apply (grows_1 i s s4 n (NDIRECT + k)); try done.
  - lia.
  - apply lo_free; [done|lia|done].
  - lia.
  - by rewrite Hv4, decide_False, (al_zero _ _ _ _ _ _ Ha).
  - intros m Hm1 Hm2. rewrite HI. intros Hm3. rewrite Hv4, decide_False, Ho by auto. apply Hv1.
  - intros m Hm. unfold used at 1. rewrite (fstep_sb _ _ Hs). destruct (alloc_block s m Hlo Hm) as [Em _]. rewrite Em, Hv4, decide_False.
    + rewrite <- Em, <- (fstep_sb _ _ Hs2). fold (used s2 m). rewrite <- (used_same i _ _ Hsf).
      apply (al_used _ _ _ _ _ _ Ha). by rewrite Es1.
    + intros E. by apply (fb_map _ _ Hb).
  - by apply fframe_step.
  - exists (fino s i).(i_addrs). split; [|apply Hok]. unfold fino. rewrite (fstep_inodes _ _ Hs). apply with_addrs_same.
  - by left.
  - intros m [->|[->|[->|Hm]%elem_log_add]%elem_log_add]%elem_log_add; [| |tauto|tauto].
    + right. right. rewrite HI. split; [done|by left].
    + right. right. split; [lia|by right].
Qed.

(** The entry was empty: [balloc] while the indirect block is held. *)
Lemma bmap_entry_new p i k s bl b s1 :
  fsinv p s bl ∅ -> iok s i -> layout s -> fits s bl 3 ->
  tty_ready (view fs_tty s) -> lock_free (view fs_tty s).(pr_lock) ->
  0 <= k < 256 -> slot s i IND <> 0 -> slot s i (NDIRECT + k) = 0 ->
  borrowed p s bl ∅ (slot s i IND) b s1 ->
  exists a s' bl',
    (a <- (addr <- balloc ROOTDEV ;;
           if nz addr then fset b (put_le 4 (Z.to_nat (4 * k)) addr) ;; flog_write b ;; ret addr else ret addr) ;;
     fbrelse b ;; ret a) s1 = Ok a s' /\ mapped p i (NDIRECT + k) s bl a s' bl'.
Proof.
  intros Hi Hok Hlo [Hr1 Hr2] Ht Hpl Hk Hz He [E1 Hi1 _ Hv1 Hs1 _].
  destruct (io_slot _ _ Hok IND ltac:(done) Hz) as [Hb Hu]. set (ind := slot s i IND) in *.
  pose proof (same_file_step i s s1 Hs1 Hv1) as Hsf. pose proof (layout_same i s s1 Hsf Hlo) as Hlo1.
  pose proof (fstep_sb _ _ Hs1) as Es1.
  destruct (balloc_alloc p s1 bl {[ind := b]} Hi1 Hlo1) as [(n & s2 & E2 & Ha)|(s2 & E2 & Hf)].
  - split.
    + rewrite Es1. apply lookup_singleton_None. intros E. by apply (fb_map _ _ Hb).
    + intros n Hn. rewrite (used_same i _ _ Hsf). intros Hun. apply lookup_singleton_None. intros E. unfold ind in *. congruence.
  - unfold froom. rewrite map_size_singleton, (fstep_size _ _ Hs1). split; lia.
  - by apply (fframe_tty_ready i s s1 (sf_frame _ _ _ Hsf)).
  - by apply (fframe_tty_ready i s s1 (sf_frame _ _ _ Hsf)).
  - destruct (entry_grows p i k s bl b s1 n s2 Hi Hok Hlo (conj Hr1 Hr2) Hk Hz He Hs1 Hv1 Ha) as (s3 & s4 & bl' & E3 & E4 & Hg & Hsn).
    exists n, s4, bl'. pose proof (al_range _ _ _ _ _ _ Ha). split; [|split; [done|left; split; [lia|done]]].
    cbn [bind]. rewrite E2. cbn [obind]. unfold nz. rewrite (proj2 (Z.eqb_neq n 0)) by lia. cbn [negb].
    rewrite E3. cbn [obind ret bind]. by rewrite E4.
  - pose proof (same_file_full p i _ _ _ _ Hf) as Hsf2. pose proof (df_inv _ _ _ _ _ Hf) as Hi2.
    destruct (frelse p s2 bl _ ind b Hi2 (lookup_singleton_eq _ _)) as (s3 & E3 & Hi3 & Hv3 & Hs3).
    { destruct (decide (ind ∈ bl)); [by left|right]. rewrite (sf_view _ _ _ Hsf2), Hv1, (fi_clean _ _ _ _ Hi) by done.
      unfold fdisk. rewrite (proj1 (ff_disk _ _ _ (sf_frame _ _ _ Hsf2))). symmetry. apply (fstep_disk _ _ _ Hs1). }
    rewrite delete_singleton_eq in Hi3. exists 0, s3, bl. split; [cbn [bind]; rewrite E2; cbn [obind nz Z.eqb negb ret bind]; by rewrite E3|].
    assert (Hs : same_file i s s3).
    { split; [intros m; by rewrite Hv3, (sf_view _ _ _ Hsf2), Hv1| |].
      - rewrite (sf_ino _ _ _ (same_file_step i _ _ Hs3 Hv3)), (sf_ino _ _ _ Hsf2). apply Hsf.
      - eapply fframe_trans; [apply Hsf|]. eapply fframe_trans; [apply Hsf2|by apply fframe_step]. }
    split; [by eapply grows_same|]. right. split_and!; try done. intros m Hm.
    rewrite (used_same i _ _ (same_file_step i _ _ Hs3 Hv3)). apply (full_same p i _ _ _ _ Hf).
    by rewrite (fstep_sb _ _ Hs3) in Hm.
Qed.

Lemma bmap_entry_eq p i k s bl :
  fsinv p s bl ∅ -> iok s i -> layout s -> fits s bl 3 ->
  tty_ready (view fs_tty s) -> lock_free (view fs_tty s).(pr_lock) ->
  0 <= k < 256 -> slot s i IND <> 0 ->
  exists a s' bl', bmap_entry ROOTDEV (slot s i IND) k s = Ok a s' /\ mapped p i (NDIRECT + k) s bl a s' bl'.
Proof.
  intros Hi Hok Hlo Hr Ht Hpl Hk Hz. destruct (io_slot _ _ Hok IND ltac:(done) Hz) as [Hb _].
  destruct (borrow p s bl ∅ _ Hi (fb_data _ _ Hb) (lookup_empty _)) as (b & s1 & Hw).
  { rewrite map_size_empty. destruct Hr. lia. }
  pose proof (bw_read _ _ _ _ _ _ _ Hw) as E1. pose proof (bw_data _ _ _ _ _ _ _ Hw) as Ed.
  unfold bmap_entry. cbn [bind]. rewrite E1. cbn [obind bind]. rewrite Ed. cbn [obind]. rewrite <- slot_entry by done.
  destruct (Z.eqb_spec (slot s i (NDIRECT + k)) 0) as [He|He].
  - by apply (bmap_entry_new p i k s bl b s1).
  - destruct (bw_relse _ _ _ _ _ _ _ Hw) as (s2 & E2 & Hi2 & Hv2 & Hs2). cbn [obind ret bind]. rewrite E2. cbn [obind ret].
    exists (slot s i (NDIRECT + k)), s2, bl. pose proof (same_file_step i s s2 Hs2 Hv2) as Hsf.
    split; [done|]. split; [by apply grows_same|]. left. split; [done|]. by apply slot_same.
Qed.

(** The room [bmap] needs. *)
Definition bmap_room s i bl : Prop := fits s bl (if slot s i IND =? 0 then 5 else 3).

(** A block for slot [k0] of [addrs], if there is none. *)
Lemma bmap_addr p i bn j k0 s bl :
  fsinv p s bl ∅ -> iok s i -> layout s -> fits s bl 3 ->
  tty_ready (view fs_tty s) -> lock_free (view fs_tty s).(pr_lock) ->
  addr_slot j k0 -> k0 = bn \/ k0 = IND ->
  exists a s' bl',
    (if slot s i k0 =? 0 then
       addr <- balloc ROOTDEV ;;
       if addr =? 0 then ret 0 else set_addr i (Z.of_nat j) addr ;; ret addr
     else ret (slot s i k0)) s = Ok a s' /\ grows p i bn s bl s' bl' /\ (length bl' <= length bl + 2)%nat /\
    (slot s i k0 <> 0 -> s' = s /\ bl' = bl) /\
    (a <> 0 /\ slot s' i k0 = a \/ a = 0 /\ slot s i k0 = 0 /\ full s' /\ bl' = bl /\ same_file i s s').
Proof.
  intros Hi Hok Hlo [Hr1 Hr2] Ht Hpl Hj Hk0. destruct (Z.eqb_spec (slot s i k0) 0) as [He|He].
  - destruct (balloc_alloc p s bl ∅ Hi Hlo (hands_off_empty s)) as [(n & s1 & E & Ha)|(s1 & E & Hf)]; try done.
    + unfold froom. rewrite map_size_empty. lia.
    + destruct (grows_set_slot p i bn j k0 s bl n s1) as [Hg Hn]; try done.
      exists n, (set_slot i j n s1), (log_add n (log_add (BBLOCK n (sb s)) bl)). pose proof (al_range _ _ _ _ _ _ Ha).
      split; [|split_and!; [done| |done|left; split; [lia|done]]].
      * cbn [bind]. rewrite E. cbn [obind]. rewrite (proj2 (Z.eqb_neq n 0)) by lia. unfold set_addr. cbn [bind update modify obind ret].
        rewrite Nat2Z.id. done.
      * pose proof (length_log_add_le n (log_add (BBLOCK n s.(sb)) bl)). pose proof (length_log_add_le (BBLOCK n s.(sb)) bl). lia.
    + pose proof (same_file_full p i _ _ _ _ Hf) as Hs. exists 0, s1, bl. cbn [bind]. rewrite E. cbn [obind Z.eqb ret].
      split_and!; try done; [apply grows_same; [done..|apply Hf]|lia|]. right. split_and!; try done. by eapply full_same.
  - exists (slot s i k0), s, bl. split_and!; try done; [by apply grows_refl|lia|by left].
Qed.

Lemma get_addr_eq i k s : get_addr i k s = Ok ((fino s i).(i_addrs) !!! Z.to_nat k) s.
Proof. done. Qed.

Lemma bmap_direct p i bn s bl :
  fsinv p s bl ∅ -> iok s i -> layout s -> fits s bl 3 ->
  tty_ready (view fs_tty s) -> lock_free (view fs_tty s).(pr_lock) -> 0 <= bn < NDIRECT ->
  exists a s' bl', bmap i bn s = Ok a s' /\ mapped p i bn s bl a s' bl'.
Proof.
  intros Hi Hok Hlo Hr Ht Hpl Hbn. assert (Hj : addr_slot (Z.to_nat bn) bn) by (left; unfold NDIRECT in *; lia).
  destruct (bmap_addr p i bn (Z.to_nat bn) bn s bl Hi Hok Hlo Hr Ht Hpl Hj (or_introl eq_refl)) as (a & s' & bl' & E & Hg & _ & _ & Ha).
  exists a, s', bl'. split; [|split; [done|destruct Ha as [|(? & ? & ? & _)]; [by left|by right]]].
  unfold bmap. cbn [bind get gets obind]. change (view (ino_l i) s) with (fino s i). rewrite (io_dev _ _ Hok).
  rewrite (proj2 (Z.ltb_lt _ _)) by lia. cbn [bind]. rewrite get_addr_eq. cbn [obind].
  rewrite <- (slot_addr s i _ _ Hj). rewrite Z2Nat.id in E by lia. exact E.
Qed.

Lemma bmap_indirect_code i k s :
  iok s i -> 0 <= k < 256 ->
  bmap i (NDIRECT + k) s =
  (addr <- (if slot s i IND =? 0 then
              addr <- balloc ROOTDEV ;; if addr =? 0 then ret 0 else set_addr i (Z.of_nat 12) addr ;; ret addr
            else ret (slot s i IND)) ;;
   if addr =? 0 then ret 0 else bmap_entry ROOTDEV addr k) s.
Proof.
  intros Hok Hk. unfold bmap. cbn [bind get gets obind]. change (view (ino_l i) s) with (fino s i). rewrite (io_dev _ _ Hok).
  rewrite (proj2 (Z.ltb_ge _ _)) by lia. replace (NDIRECT + k - NDIRECT) with k by lia.
  rewrite (proj2 (Z.ltb_lt k NINDIRECT)) by (unfold NINDIRECT, BSIZE; change (1024/4) with 256; lia).
  cbn [bind]. rewrite get_addr_eq. cbn [obind]. done.
Qed.

Lemma bmap_indirect p i k s bl :
  fsinv p s bl ∅ -> iok s i -> layout s -> bmap_room s i bl ->
  tty_ready (view fs_tty s) -> lock_free (view fs_tty s).(pr_lock) -> 0 <= k < 256 ->
  exists a s' bl', bmap i (NDIRECT + k) s = Ok a s' /\ mapped p i (NDIRECT + k) s bl a s' bl'.
Proof.
  intros Hi Hok Hlo Hr Ht Hpl Hk. assert (Hj : addr_slot 12 IND) by by right.
  assert (Hr3 : fits s bl 3). { unfold bmap_room, fits in *. destruct (slot s i IND =? 0); lia. }
  destruct (bmap_addr p i (NDIRECT + k) 12 IND s bl Hi Hok Hlo Hr3 Ht Hpl Hj (or_intror eq_refl)) as (ind & s1 & bl1 & E & Hg & Hll & Hsame & Ha).
  rewrite bmap_indirect_code by done. cbn [bind]. rewrite E. cbn [obind].
  assert (Hbn : 0 <= NDIRECT + k <= IND) by (unfold IND, MAXFILE, NDIRECT, NINDIRECT, BSIZE; change (1024/4) with 256; lia).
  destruct Ha as [[Hz Hs]|(-> & Hz & Hfull & -> & Hs)].
  - rewrite (proj2 (Z.eqb_neq _ _) Hz). subst ind. pose proof (ed_frame _ _ _ _ _ (gr_e _ _ _ _ _ _ _ Hg)) as Hf.
    destruct (fframe_tty_ready i s s1 Hf Ht Hpl) as [Ht1 Hp1].
    destruct (bmap_entry_eq p i k s1 bl1) as (a & s2 & bl2 & E2 & Hg2 & Ha); try done; try apply (gr_e _ _ _ _ _ _ _ Hg).
    + unfold bmap_room, fits in *. rewrite (fframe_size _ _ _ Hf). destruct (Z.eqb_spec (slot s i IND) 0) as [|Hne]; [lia|].
      destruct (Hsame Hne) as [_ ->]. lia.
    + exists a, s2, bl2. split; [exact E2|]. split; [by eapply grows_trans|]. destruct Ha as [|(-> & Hz2 & Hf2)]; [by left|].
      right. split_and!; try done. destruct (decide (slot s i (NDIRECT + k) = 0)) as [|Hne]; [done|].
      by rewrite (ed_keep _ _ _ _ _ (gr_e _ _ _ _ _ _ _ Hg)) in Hz2.
  - cbn [Z.eqb ret]. exists 0, s1, bl. split; [done|]. split; [done|]. right. split_and!; try done.
    unfold slot in Hz |- *. change (IND <? NDIRECT) with false in Hz. change (IND <? MAXFILE) with false in Hz. cbv iota in Hz.
    rewrite (proj2 (Z.ltb_ge _ _)) by lia. rewrite Hz. by destruct (_ <? _).
Qed.

Lemma bmap_maps p i bn s bl :
  fsinv p s bl ∅ -> iok s i -> layout s -> bmap_room s i bl ->
  tty_ready (view fs_tty s) -> lock_free (view fs_tty s).(pr_lock) -> 0 <= bn < MAXFILE ->
  exists a s' bl', bmap i bn s = Ok a s' /\ mapped p i bn s bl a s' bl'.
Proof.
  intros Hi Hok Hlo Hr Ht Hpl Hbn. unfold MAXFILE, NINDIRECT, BSIZE in Hbn. change (1024/4) with 256 in Hbn.
  destruct (decide (bn < NDIRECT)).
  - apply bmap_direct; try done; [|lia]. unfold bmap_room, fits in *. destruct (slot s i IND =? 0); lia.
  - replace bn with (NDIRECT + (bn - NDIRECT)) by lia. apply bmap_indirect; try done. lia.
Qed.

(** A block that is there is found without any change. *)
Lemma bmap_hit p i bn s bl :
  fsinv p s bl ∅ -> iok s i -> (length bl < 30)%nat -> 0 <= bn < MAXFILE -> slot s i bn <> 0 ->
  exists s', bmap i bn s = Ok (slot s i bn) s' /\ fsinv p s' bl ∅ /\ fstep s s' /\ forall m, fv s' m = fv s m.
Proof.
  intros Hi Hok Hl Hbn Hz. unfold MAXFILE, NINDIRECT, BSIZE in Hbn. change (1024/4) with 256 in Hbn.
  destruct (decide (bn < NDIRECT)) as [Hd|Hd].
  - assert (Hj : addr_slot (Z.to_nat bn) bn) by (left; unfold NDIRECT in *; lia).
    exists s. split_and!; [|done|apply fstep_refl|done].
    unfold bmap. cbn [bind get gets obind]. rewrite (proj2 (Z.ltb_lt _ _)) by lia. cbn [bind]. rewrite get_addr_eq. cbn [obind].
    rewrite <- (slot_addr s i _ _ Hj). by rewrite (proj2 (Z.eqb_neq _ _) Hz).
  - replace bn with (NDIRECT + (bn - NDIRECT)) in * by lia. set (k := bn - NDIRECT) in *.
    assert (Hz2 : slot s i IND <> 0).
    { intros E. apply Hz. unfold slot in E |- *. change (IND <? NDIRECT) with false in E. change (IND <? MAXFILE) with false in E.
      cbv iota in E. rewrite (proj2 (Z.ltb_ge _ _)) by lia. rewrite E. by destruct (_ <? _). }
    destruct (io_slot _ _ Hok IND ltac:(done) Hz2) as [Hb _].
    destruct (borrow p s bl ∅ _ Hi (fb_data _ _ Hb) (lookup_empty _)) as (b & s1 & [E1 _ Ed _ _ (s2 & E2 & Hi2 & Hv2 & Hs2)]).
    { rewrite map_size_empty. lia. }
    exists s2. split_and!; try done. rewrite bmap_indirect_code by (done || lia).
    rewrite (proj2 (Z.eqb_neq _ _) Hz2). cbn [bind ret obind]. rewrite (proj2 (Z.eqb_neq _ _) Hz2).
    unfold bmap_entry. cbn [bind]. rewrite E1. cbn [obind bind]. rewrite Ed. cbn [obind]. rewrite <- slot_entry by (done || lia).
    rewrite (proj2 (Z.eqb_neq _ _) Hz). cbn [bind ret obind]. by rewrite E2.
Qed.

Lemma bmap_out_of_range i bn s : MAXFILE <= bn -> bmap i bn s = Panic "bmap: out of range".
Proof.
  intros Hbn. unfold MAXFILE, NINDIRECT, BSIZE in Hbn. change (1024/4) with 256 in Hbn. unfold bmap. cbn [bind get gets obind].
  rewrite (proj2 (Z.ltb_ge _ _)) by lia. by rewrite (proj2 (Z.ltb_ge _ _)) by (unfold NINDIRECT, BSIZE; change (1024/4) with 256; lia).
Qed.
End FsFile.
