(* ===== verification/FsWrite.v ===== *)
(** * Writing files

    [writei] over the abstraction of [FsFile]: which bytes of the file change,
    how many blocks the transaction logs, and the short write on a full
    disk. *)

From S2P Require Import Prelude Riscv Memory Spinlock Kalloc Vm Tty Proc ProcSpec Sleeplock Uart UartThm Bio BioSpec Block Log LogCrash LogSpec LogOps Txn Fs FsSpec FsBlock FsFile.

Section FsWrite.
Context {D : Type} `{DiskLaws D} `{Patience}.
Implicit Types (s : fsst D) (h : gmap Z (fin 30)) (bl : list Z) (i : fin 50).

(** ** The blocks a write logs *)

Definition ind_set s i : gset Z := if slot s i IND =? 0 then ∅ else {[slot s i IND]}.

(** The blocks logged so far, with the bitmap and the indirect block counted
    as if they were. *)
Definition pot_set s i bl : gset Z := list_to_set bl ∪ {[BBLOCK 0 s.(sb)]} ∪ ind_set s i.
Definition owed s i : nat := if slot s i IND =? 0 then 1 else 0.
Definition pot s i bl : nat := size (pot_set s i bl) + owed s i.

Lemma fsinv_nodup p s bl h : fsinv p s bl h -> NoDup bl.
Proof. intros [[c Hl] _]. apply Hl. Qed.

Lemma pot_len p s i bl h : fsinv p s bl h -> (length bl + owed s i <= pot s i bl)%nat.
Proof.
  intros Hi. unfold pot. rewrite <- (size_list_to_set (C := gset Z) bl) by by eapply fsinv_nodup.
  assert (list_to_set bl ⊆ pot_set s i bl) as Hs by set_solver. apply subseteq_size in Hs. lia.
Qed.

Lemma pot_start s i bl : (pot s i bl <= length bl + 2)%nat.
Proof.
  unfold pot, pot_set, ind_set, owed.
  assert (Hle : forall X Y : gset Z, (size (X ∪ Y) <= size X + size Y)%nat).
  { intros X Y. rewrite size_union_alt. assert (Y ∖ X ⊆ Y) as Hs by set_solver. apply subseteq_size in Hs. lia. }
  pose proof (Hle (list_to_set bl) {[BBLOCK 0 s.(sb)]}) as H1'. rewrite size_singleton in H1'.
  assert (Hl : (size (list_to_set bl : gset Z) <= length bl)%nat).
  { clear. induction bl as [|x bl IH]; [done|]. cbn [list_to_set length].
    destruct (decide (x ∈ (list_to_set bl : gset Z))).
    - replace ({[x]} ∪ list_to_set bl : gset Z) with (list_to_set bl : gset Z) by set_solver. lia.
    - rewrite size_union, size_singleton by set_solver. lia. }
  destruct (slot s i IND =? 0).
  - rewrite (right_id_L ∅ (∪)). lia.
  - pose proof (Hle (list_to_set bl ∪ {[BBLOCK 0 s.(sb)]}) {[slot s i IND]}) as H2'. rewrite size_singleton in H2'. lia.
Qed.

Lemma pot_step s s' i bl bl' (a : Z) :
  s'.(sb) = s.(sb) -> (slot s i IND <> 0 -> slot s' i IND = slot s i IND) ->
  (forall m, m ∈ bl' -> m ∈ bl \/ m = BBLOCK 0 s.(sb) \/ m <> 0 /\ (m = slot s' i IND \/ m = a)) ->
  (pot s' i bl' <= pot s i bl + 1)%nat.
Proof.
  intros Es Hk Hl. unfold pot, pot_set, ind_set, owed. rewrite Es.
  assert (Hle : forall (X Y : gset Z) x, Y ⊆ X ∪ {[x]} -> (size Y <= size X + 1)%nat).
  { intros X Y x Hs%subseteq_size. rewrite size_union_alt in Hs.
    assert ({[x]} ∖ X ⊆ {[x]}) as Ht by set_solver. apply subseteq_size in Ht. rewrite size_singleton in Ht. lia. }
  destruct (Z.eqb_spec (slot s i IND) 0) as [Hz|Hz], (Z.eqb_spec (slot s' i IND) 0) as [Hz'|Hz'].
  - rewrite !(right_id_L ∅ (∪)).
    assert (H1' : (size (list_to_set bl' ∪ {[BBLOCK 0 (sb s)]} : gset Z) <=
      size (list_to_set bl ∪ {[BBLOCK 0 (sb s)]} : gset Z) + 1)%nat); [|lia]. apply (Hle _ _ a).
    intros m [Hm%elem_of_list_to_set|Hm]%elem_of_union; [destruct (Hl m Hm) as [|[|(? & [|])]]|]; set_solver.
  - rewrite (right_id_L ∅ (∪)).
    assert (H1' : (size (list_to_set bl' ∪ {[BBLOCK 0 (sb s)]} ∪ {[slot s' i IND]} : gset Z) <=
      size (list_to_set bl ∪ {[BBLOCK 0 (sb s)]} ∪ {[slot s' i IND]} : gset Z) + 1)%nat).
    { apply (Hle _ _ a). intros m [[Hm%elem_of_list_to_set|Hm]%elem_of_union|Hm]%elem_of_union;
        [destruct (Hl m Hm) as [|[|(? & [|])]]|..]; set_solver. }
    pose proof (Hle (list_to_set bl ∪ {[BBLOCK 0 (sb s)]}) (list_to_set bl ∪ {[BBLOCK 0 (sb s)]} ∪ {[slot s' i IND]}) (slot s' i IND) ltac:(set_solver)).
    lia.
  - by rewrite Hk in Hz'.
  - rewrite !Nat.add_0_r. rewrite (Hk Hz) in *. apply (Hle _ _ a).
    intros m [[Hm%elem_of_list_to_set|Hm]%elem_of_union|Hm]%elem_of_union;
      [destruct (Hl m Hm) as [|[|(? & [|])]]|..]; set_solver.
Qed.

(** ** One block *)

(** Bytes [c] at offset [off] of a file. *)
Definition overwrite (f : Z -> Z) (off : Z) (c : list Z) (o : Z) : Z :=
  if decide (off <= o < off + Z.of_nat (length c)) then c !!! Z.to_nat (o - off) else f o.

Lemma overwrite_nil f off o : overwrite f off [] o = f o.
Proof. unfold overwrite. cbn. case_decide; [lia|done]. Qed.

Lemma overwrite_ext f g off c o : f o = g o -> overwrite f off c o = overwrite g off c o.
Proof. intros E. unfold overwrite. by case_decide. Qed.

Lemma overwrite_app f off c c' o :
  overwrite (overwrite f off c) (off + Z.of_nat (length c)) c' o = overwrite f off (c ++ c') o.
Proof.
  unfold overwrite. rewrite length_app. repeat case_decide; try lia; try done.
  - rewrite lookup_total_app_r by lia. f_equal. lia.
  - by rewrite lookup_total_app_l by lia.
Qed.

(** One block of the file changed, and nothing else. *)
Section OneBlock.
Context (i : fin 50) (s s' : fsst D) (bn : Z).
Hypothesis Hok : iok s i.
Hypothesis Hlo : layout s.
Hypothesis Hbn : 0 <= bn < MAXFILE.
Hypothesis Hne : slot s i bn <> 0.
Hypothesis Hview : forall m, m <> slot s i bn -> fv s' m = fv s m.
Hypothesis Hino : fino s' i = fino s i.
Hypothesis Hframe : fframe i s s'.

Lemma slot_1 k : 0 <= k <= IND -> slot s' i k = slot s i k.
Proof.
  intros Hk. unfold slot. rewrite Hino. destruct (k <? NDIRECT); [done|]. destruct (k <? MAXFILE); [|done].
  destruct (Z.eqb_spec (i_addrs (fino s i) !!! 12%nat) 0) as [|Hz]; [done|]. f_equal. apply Hview.
  change (i_addrs (fino s i) !!! 12%nat) with (slot s i IND) in *. intros E.
  assert (IND = bn); [|unfold IND in *; lia]. apply (io_inj _ _ Hok); unfold IND; lia || done.
Qed.

Lemma used_1 n : 0 <= n < s.(sb).(sb_size) -> used s' n = used s n.
Proof.
  intros Hn. unfold used. rewrite (ff_sb _ _ _ Hframe). rewrite Hview; [done|].
  destruct (alloc_block s n Hlo Hn) as [-> _]. intros E.
  destruct (io_slot _ _ Hok bn ltac:(unfold IND; lia) Hne) as [Hb _]. by apply (fb_map _ _ Hb).
Qed.

Lemma edits_1 p bl : fsinv p s' bl ∅ -> edits p i s s' bl.
Proof.
  intros Hi. pose proof (ff_sb _ _ _ Hframe) as Es. split; try done.
  - intros k Hk _. by apply slot_1.
  - intros k Hk. left. by apply slot_1.
  - exists (fino s i).(i_addrs). rewrite Hino. apply with_addrs_same.
  - intros m _ Hm. apply Hview. intros ->. assert (Hr : 0 <= bn <= IND) by (unfold IND; lia). apply (Hm bn Hr); by rewrite slot_1.
  - intros m Hm. by rewrite used_1.
  - split; rewrite ?Hino, ?Es; try apply Hok.
    + intros k Hk. rewrite slot_1 by done. intros Hz. destruct (io_slot _ _ Hok k Hk Hz) as [Hb Hu].
      split; [by eapply fframe_block|]. rewrite used_1; [done|apply Hb].
    + intros j k Hj Hk. rewrite !slot_1 by done. by apply Hok.
  - pose proof (lo_size _ Hlo). split; rewrite ?Es; try apply Hlo.
    + rewrite used_1 by lia. apply Hlo.
    + apply (fframe_data _ _ _ _ Hframe), Hlo.
    + intros k Hk. rewrite (fframe_data _ _ _ _ Hframe). by apply Hlo.
    + intros n Hn. rewrite used_1 by done. intros Hu. eapply fframe_block; [done|]. by apply Hlo.
Qed.

Lemma content_1 (o : nat) c off :
  fv s' (slot s i bn) = put_at o c (fv s (slot s i bn)) -> length (fv s (slot s i bn)) = 1024%nat ->
  (o + length c <= 1024)%nat -> 0 <= off < MAXFILE * BSIZE ->
  content s' i off = overwrite (content s i) (bn * BSIZE + Z.of_nat o) c off.
Proof.
  intros Hv Hl Ho Hoff. unfold overwrite, content.
  assert (Hk : 0 <= off / BSIZE < MAXFILE) by (unfold BSIZE in *; Z.to_euclidean_division_equations; lia).
  rewrite slot_1 by (unfold IND; lia). pose proof (Z.mod_pos_bound off BSIZE ltac:(done)) as Hm.
  pose proof (Z.div_mod off BSIZE ltac:(done)) as Hdm.
  destruct (decide (off / BSIZE = bn)) as [E|E].
  - rewrite E. rewrite (proj2 (Z.eqb_neq _ _) Hne), Hv. rewrite !list_lookup_total_alt, lookup_put_at by lia.
    unfold BSIZE in *. repeat case_decide; try lia; try done. do 2 f_equal. lia.
  - rewrite decide_False by (unfold BSIZE in *; lia). destruct (Z.eqb_spec (slot s i (off / BSIZE)) 0) as [|Hz]; [done|].
    f_equal. apply Hview. intros E'. apply E. apply (io_inj _ _ Hok); unfold IND; lia || done.
Qed.
End OneBlock.

(** [bp = bread(addr)], bytes [c] copied into it, [log_write], [brelse]. *)
Lemma write_block p i bn s bl (o : nat) c :
  fsinv p s bl ∅ -> iok s i -> layout s -> 0 <= bn < MAXFILE -> slot s i bn <> 0 ->
  (o + length c <= 1024)%nat -> (length bl < 30)%nat -> Z.of_nat (length bl) < lg_size s.(f_l) - 1 ->
  exists b s1 s2 s3, fbread ROOTDEV (slot s i bn) s = Ok b s1 /\ fstep s s1 /\
    (forall A (k : M (fsst D) A), (fset b (put_at o c) ;; flog_write b ;; k) s1 = k s2) /\ fbrelse b s2 = Ok tt s3 /\
    edits p i s s3 (log_add (slot s i bn) bl) /\ fstep s s3 /\ (forall k, 0 <= k <= IND -> slot s3 i k = slot s i k) /\
    (forall off, 0 <= off < MAXFILE * BSIZE -> content s3 i off = overwrite (content s i) (bn * BSIZE + Z.of_nat o) c off).
Proof.
  intros Hi Hok Hlo Hbn Hz Ho Hl Hlg. destruct (io_slot _ _ Hok bn ltac:(unfold IND; lia) Hz) as [Hb _].
  pose proof (fv_len _ _ _ _ (slot s i bn) Hi) as Hlen.
  destruct (borrow p s bl ∅ _ Hi (fb_data _ _ Hb) (lookup_empty _)) as (b & s1 & [E1 Hi1 _ Hv1 Hs1 _]).
  { rewrite map_size_empty. lia. }
  destruct (commit_block p s1 bl _ _ b (put_at o c) Hi1 (lookup_insert_eq _ _ _)) as (s2 & s3 & E2 & E3 & _ & Hi3 & _ & Hv3 & _ & Hs3).
  { rewrite Hv1. by rewrite length_put_at by lia. }
  { by rewrite (fstep_size _ _ Hs1). }
  rewrite delete_insert_id in Hi3 by apply lookup_empty. pose proof (fstep_trans _ _ _ Hs1 Hs3) as Hs.
  assert (Hvw : forall m, m <> slot s i bn -> fv s3 m = fv s m) by (intros m Hm; by rewrite Hv3, decide_False, Hv1 by done).
  assert (Hin : fino s3 i = fino s i) by (unfold fino; by rewrite (fstep_inodes _ _ Hs)).
  pose proof (fframe_step i _ _ Hs) as Hf. exists b, s1, s2, s3. split_and!; try done.
  - by apply (edits_1 i s s3 bn).
  - by apply (slot_1 i s s3 bn).
  - intros off Hoff. apply (content_1 i s s3 bn); try done. by rewrite Hv3, decide_True, Hv1.
Qed.

(** ** The source of a write *)

(** The bytes at [src] are [data], whatever wakeups and messages happen. *)
Record sources (t : pst) (src : uaddr) (data : list Z) : Prop := {
  so_0 : uaddr_add src 0 = src;
  so_copy : forall t' j m, quiet t t' -> 0 <= j -> 0 <= m -> j + m <= Z.of_nat (length data) ->
    either_copyin (uaddr_add src j) m t' = Ok (0, take (Z.to_nat m) (drop (Z.to_nat j) data)) t'
}.

Lemma uaddr_add_add src j m : 0 <= j -> 0 <= m -> uaddr_add (uaddr_add src j) m = uaddr_add src (j + m).
Proof.
  intros Hj Hm. destruct src as [a|a|bs]; cbn; f_equal.
  - unfold u64. rewrite Zplus_mod_idemp_l. f_equal. lia.
  - unfold u64. rewrite Zplus_mod_idemp_l. f_equal. lia.
  - rewrite drop_drop. f_equal. lia.
Qed.

Lemma quiet_hart t t' : quiet t t' -> phart t' = phart t.
Proof. intros (t1 & out & Hw & ->). exact (wakes_hart _ _ Hw). Qed.

(** A buffer of the kernel's. *)
Lemma sources_kern p t bs : running p t -> sources t (KernBuf bs) bs.
Proof.
  intros [[Hh _] _]. split; [by cbn; rewrite drop_0|]. intros t' j m Hq Hj Hm _. unfold either_copyin. cbn [bind].
  assert (Hh' : hart_stable (phart t')) by by rewrite (quiet_hart _ _ Hq).
  rewrite (myproc_eq t') by done. done.
Qed.

(** ** The loop of [writei] *)

(** The number of blocks that [rem] bytes from offset [off] touch. *)
Definition nblocks (off rem : Z) : Z := if rem <=? 0 then 0 else (off + rem - 1) / BSIZE - off / BSIZE + 1.

Lemma nblocks_step off rem :
  0 <= off -> 0 < rem -> let m := Z.min rem (BSIZE - off mod BSIZE) in
  0 < m <= rem /\ nblocks (off + m) (rem - m) = nblocks off rem - 1.
Proof.
  intros Ho Hr m. unfold m, nblocks, BSIZE. rewrite (proj2 (Z.leb_gt rem 0)) by lia.
  destruct (Z.leb_spec (rem - Z.min rem (1024 - off mod 1024)) 0); Z.to_euclidean_division_equations; lia.
Qed.

Lemma nblocks_pos off rem : 0 <= off -> 0 <= nblocks off rem.
Proof. intros Ho. unfold nblocks, BSIZE. destruct (Z.leb_spec rem 0); Z.to_euclidean_division_equations; lia. Qed.

Lemma nblocks_le off rem : 0 <= off -> 0 <= rem -> nblocks off rem <= rem / BSIZE + 2.
Proof. intros Ho Hr. unfold nblocks, BSIZE. destruct (Z.leb_spec rem 0); Z.to_euclidean_division_equations; lia. Qed.

(** Bytes [w] were written at [off], logging at most [k] blocks more than the
    bitmap and the indirect block. *)
Record wrote p i off w s bl s' bl' (k : nat) : Prop := {
  wr_e : edits p i s s' bl';
  wr_content : forall o, 0 <= o < MAXFILE * BSIZE -> content s' i o = overwrite (content s i) off w o;
  wr_slots : forall o, 0 <= o < MAXFILE * BSIZE -> off <= o < off + Z.of_nat (length w) -> slot s' i (o / BSIZE) <> 0;
  wr_pot : (pot s' i bl' <= pot s i bl + k)%nat
}.

Lemma wrote_trans p i off w w' s1 b1 s2 b2 s3 b3 k k' :
  wrote p i off w s1 b1 s2 b2 k -> wrote p i (off + Z.of_nat (length w)) w' s2 b2 s3 b3 k' ->
  wrote p i off (w ++ w') s1 b1 s3 b3 (k + k').
Proof.
  intros [E1 C1 S1 P1] [E2 C2 S2 P2]. split; [by eapply edits_trans| | |lia].
  - intros o Ho. rewrite C2, <- overwrite_app by done. by apply overwrite_ext, C1.
  - intros o Ho Hw. rewrite length_app in Hw. destruct (decide (off + Z.of_nat (length w) <= o)).
    + apply S2; [done|lia].
    + assert (Hz : slot s2 i (o / BSIZE) <> 0) by (apply S1; [done|lia]). rewrite (ed_keep _ _ _ _ _ E2); [done| |done].
      unfold IND, BSIZE in *. Z.to_euclidean_division_equations; lia.
Qed.

Lemma wrote_weaken p i off w s1 b1 s2 b2 k k' :
  (k <= k')%nat -> wrote p i off w s1 b1 s2 b2 k -> wrote p i off w s1 b1 s2 b2 k'.
Proof. intros Hk [E C S P]. split; [done|done|done|lia]. Qed.

Lemma wrote_refl p i off s bl k : fsinv p s bl ∅ -> iok s i -> layout s -> wrote p i off [] s bl s bl k.
Proof. intros Hi Hok Hlo. split; [by apply edits_refl|intros o _; by rewrite overwrite_nil|cbn; lia|lia]. Qed.

Lemma pot_bmap_room p s i bl :
  fsinv p s bl ∅ -> (pot s i bl + 5 <= 30)%nat -> Z.of_nat (pot s i bl) + 4 <= lg_size s.(f_l) - 1 -> bmap_room s i bl.
Proof.
  intros Hi H1' H2'. pose proof (pot_len p s i bl ∅ Hi) as Hl. unfold bmap_room, fits, owed in *.
  destruct (slot s i IND =? 0); lia.
Qed.

(** What a step of the write needs of the state. *)
Record wready p i s bl : Prop := {
  wy_inv : fsinv p s bl ∅;
  wy_ok : iok s i;
  wy_layout : layout s;
  wy_tty : tty_ready (view fs_tty s);
  wy_pr : lock_free (view fs_tty s).(pr_lock)
}.

Lemma wready_edits p i s bl s' bl' : wready p i s bl -> edits p i s s' bl' -> wready p i s' bl'.
Proof.
  intros [Hi Hok Hlo Ht Hp] He. destruct (fframe_tty_ready i s s' (ed_frame _ _ _ _ _ He) Ht Hp). split; try done; apply He.
Qed.

Lemma writei_step p i s bl n tot off src c :
  wready p i s bl -> (pot s i bl + 5 <= 30)%nat -> Z.of_nat (pot s i bl) + 4 <= lg_size s.(f_l) - 1 ->
  tot < n -> 0 <= off < MAXFILE * BSIZE ->
  let m := Z.min (n - tot) (BSIZE - off mod BSIZE) in
  Z.of_nat (length c) = m -> (forall t', quiet (view the_pst s) t' -> either_copyin src m t' = Ok (0, c) t') ->
  exists s' bl',
    writei_body i n (tot, off, src) s = Ok (inr (tot, off)) s' /\ wrote p i off [] s bl s' bl' 1 /\ full s' \/
    writei_body i n (tot, off, src) s = Ok (inl (tot + m, off + m, uaddr_add src m)) s' /\ wrote p i off c s bl s' bl' 1.
Proof.
  intros [Hi Hok Hlo Ht Hpl] Hp1 Hp2 Htot Hoff m Hc Hcopy. set (bn := off / BSIZE).
  assert (Hbn : 0 <= bn < MAXFILE) by (unfold bn, BSIZE in *; Z.to_euclidean_division_equations; lia).
  destruct (bmap_maps p i bn s bl Hi Hok Hlo (pot_bmap_room p s i bl Hi Hp1 Hp2) Ht Hpl Hbn) as (a & s1 & bl1 & E & Hg & Ha).
  pose proof (gr_e _ _ _ _ _ _ _ Hg) as He. pose proof (ff_sb _ _ _ (ed_frame _ _ _ _ _ He)) as Es.
  assert (Hkeep : slot s i IND <> 0 -> slot s1 i IND = slot s i IND) by (intros Hz; by apply He).
  unfold writei_body. rewrite (proj2 (Z.ltb_lt _ _) Htot). cbn [bind]. fold bn. rewrite E. cbn [obind].
  destruct Ha as [[Hz Hs]|(-> & Hz & Hf)].
  - pose proof (pot_step s s1 i bl bl1 a Es Hkeep ltac:(rewrite <- Hs; apply Hg)) as Hpot1.
    pose proof (pot_len p s1 i bl1 ∅ (ed_inv _ _ _ _ _ He)) as Hl1. pose proof (fframe_size _ _ _ (ed_frame _ _ _ _ _ He)) as Esz.
    pose proof (Z.mod_pos_bound off BSIZE ltac:(done)) as Hmod.
    destruct (write_block p i bn s1 bl1 (Z.to_nat (off mod BSIZE)) c) as (b & s2 & s3 & s4 & E2 & Hs2 & E3 & E4 & He4 & Hs4 & Hsl & Hct);
      try apply He; try done; [congruence|unfold m, BSIZE in *; lia|lia|lia|].
    exists s4, (log_add a bl1). right. rewrite (proj2 (Z.eqb_neq _ _) Hz). cbn [bind get gets obind].
    change (view (ino_l i) s1) with (fino s1 i). rewrite (io_dev _ _ (ed_ok _ _ _ _ _ He)), <- Hs, E2. cbn [obind bind].
    rewrite (zoom_ok the_pst _ s2 (0, c) (view the_pst s2)).
    + rewrite put_view. cbn [obind fst snd Z.eqb Pos.eqb]. split.
      * fold m. rewrite E3. cbn [bind]. rewrite E4. done.
      * split; [exact (edits_trans _ _ _ _ _ _ _ He He4)| | |].
        -- intros o Ho. rewrite Hct by done. pose proof (Z.div_mod off BSIZE ltac:(done)) as Hdm. fold bn in Hdm.
           replace (bn * BSIZE + Z.of_nat (Z.to_nat (off mod BSIZE))) with off by lia.
           apply overwrite_ext. exact (gr_content _ _ _ _ _ _ _ Hg o Ho).
        -- intros o Ho Hw. rewrite Hsl by (unfold IND, BSIZE in *; Z.to_euclidean_division_equations; lia).
           replace (o / BSIZE) with bn; [congruence|]. unfold bn, m, BSIZE in *. Z.to_euclidean_division_equations; lia.
        -- apply (pot_step s s4 i bl _ (slot s1 i bn)).
           ++ by rewrite (ff_sb _ _ _ (ed_frame _ _ _ _ _ He4)).
           ++ intros Hz'. rewrite Hsl by done. by apply Hkeep.
           ++ rewrite Hsl by done. intros mm [->|Hm]%elem_log_add; [rewrite Hs; tauto|]. by apply Hg.
    + apply Hcopy. eapply quiet_trans; [apply (ff_pst _ _ _ (ed_frame _ _ _ _ _ He))|].
      apply quiet_wakes. exact (ls_wakes _ _ (fs_t _ _ Hs2)).
  - exists s1, bl1. left. split; [done|]. split; [|done]. split; [done| |cbn; lia|].
    + intros o Ho. rewrite overwrite_nil. exact (gr_content _ _ _ _ _ _ _ Hg o Ho).
    + apply (pot_step s s1 i bl bl1 (slot s1 i bn) Es Hkeep). apply Hg.
Qed.

Definition slice (data : list Z) (a b : Z) : list Z := take (Z.to_nat (b - a)) (drop (Z.to_nat a) data).

Lemma slice_nil data a : slice data a a = [].
Proof. unfold slice. by rewrite Z.sub_diag. Qed.

Lemma length_slice data a b : 0 <= a <= b -> b <= Z.of_nat (length data) -> Z.of_nat (length (slice data a b)) = b - a.
Proof. intros H1' H2'. unfold slice. rewrite length_take, length_drop. lia. Qed.

Lemma slice_app data a b c : 0 <= a <= b -> b <= c -> slice data a b ++ slice data b c = slice data a c.
Proof.
  intros H1' H2'. unfold slice. replace (Z.to_nat b) with (Z.to_nat a + Z.to_nat (b - a))%nat by lia.
  rewrite <- drop_drop. set (l := drop (Z.to_nat a) data).
  replace (Z.to_nat (c - a)) with (Z.to_nat (b - a) + Z.to_nat (c - b))%nat by lia. by rewrite take_take_drop.
Qed.

Section Loop.
Context (p : fin 64) (i : fin 50) (t0 : pst) (src : uaddr) (data : list Z) (off0 : Z).
Let n : Z := Z.of_nat (length data).
Hypothesis Hsrc : sources t0 src data.
Hypothesis Hoff : 0 <= off0.
Hypothesis Hmax : off0 + n <= MAXFILE * BSIZE.

Definition wroom s bl (k : nat) : Prop :=
  k = 0%nat \/ (pot s i bl + k + 4 <= 30)%nat /\ Z.of_nat (pot s i bl + k + 3) <= lg_size s.(f_l) - 1.

Lemma writei_done fuel s st : n <= st.1.1 -> (0 < fuel)%nat -> loop fuel (writei_body i n) st s = Ok (st.1.1, st.1.2) s.
Proof.
  intros Hn Hf. destruct fuel as [|fuel]; [lia|]. rewrite loop_S. destruct st as [[tot off] src']. cbn [fst snd] in *.
  unfold writei_body at 1. by rewrite (proj2 (Z.ltb_ge _ _)) by lia.
Qed.

Lemma writei_loop k : forall s bl tot fuel,
  wready p i s bl -> quiet t0 (view the_pst s) -> 0 <= tot <= n -> nblocks (off0 + tot) (n - tot) <= Z.of_nat k ->
  (k < fuel)%nat -> wroom s bl k ->
  exists tot' s' bl', loop fuel (writei_body i n) (tot, off0 + tot, uaddr_add src tot) s = Ok (tot', off0 + tot') s' /\
    tot <= tot' <= n /\ wrote p i (off0 + tot) (slice data tot tot') s bl s' bl' k /\ (tot' = n \/ full s').
Proof.
  induction k as [|k IH]; intros s bl tot fuel Hw Hq Ht Hk Hf Hr.
  - assert (tot = n). { unfold nblocks, BSIZE in Hk. destruct (Z.leb_spec (n - tot) 0); [lia|]. Z.to_euclidean_division_equations; lia. }
    exists tot, s, bl. split; [apply (writei_done fuel s (tot, off0 + tot, uaddr_add src tot)); cbn; lia|].
    split; [lia|]. rewrite slice_nil. split; [apply wrote_refl; apply Hw|by left].
  - destruct (decide (tot = n)) as [Heq|Hne].
    { exists tot, s, bl. split; [apply (writei_done fuel s (tot, off0 + tot, uaddr_add src tot)); cbn; lia|].
      split; [lia|]. rewrite slice_nil. split; [apply wrote_refl; apply Hw|by left]. }
    destruct (nblocks_step (off0 + tot) (n - tot)) as [Hm Hnb]; [lia..|].
    set (m := Z.min (n - tot) (BSIZE - (off0 + tot) mod BSIZE)) in *. destruct Hr as [|[Hr1 Hr2]]; [lia|].
    destruct fuel as [|fuel]; [lia|]. rewrite loop_S.
    assert (Hc : Z.of_nat (length (slice data tot (tot + m))) = m) by (rewrite length_slice; lia).
    destruct (writei_step p i s bl n tot (off0 + tot) (uaddr_add src tot) (slice data tot (tot + m)) Hw) as
      (s1 & bl1 & [(E & Hwr & Hfull)|(E & Hwr)]); try done; try lia.
    + intros t' Hq'. rewrite (so_copy _ _ _ Hsrc) by (lia || by eapply quiet_trans). unfold slice. do 3 f_equal. unfold m. lia.
    + rewrite E. cbn [obind]. exists tot, s1, bl1. split; [done|]. split; [lia|]. rewrite slice_nil.
      split; [|by right]. eapply wrote_weaken; [|done]. lia.
    + rewrite E. cbn [obind]. fold m. pose proof (ed_frame _ _ _ _ _ (wr_e _ _ _ _ _ _ _ _ _ Hwr)) as Hfr.
      rewrite uaddr_add_add by lia. replace (off0 + tot + m) with (off0 + (tot + m)) in * by lia.
      destruct (IH s1 bl1 (tot + m) fuel) as (tot' & s' & bl' & E' & Htot & Hwr' & Hend).
      * eapply wready_edits; [done|apply Hwr].
      * eapply quiet_trans; [done|apply Hfr].
      * lia.
      * replace (n - (tot + m)) with (n - tot - m) by lia. lia.
      * lia.
      * right. pose proof (wr_pot _ _ _ _ _ _ _ _ _ Hwr). rewrite (fframe_size _ _ _ Hfr). lia.
      * exists tot', s', bl'. split; [exact E'|]. split; [lia|]. split; [|done].
        rewrite <- (slice_app data tot (tot + m) tot') by lia. change (S k) with (1 + k)%nat.
        eapply wrote_trans; [done|]. rewrite Hc. by replace (off0 + tot + m) with (off0 + (tot + m)) by lia.
Qed.
End Loop.

(** ** The inode itself *)

(** The dinode or the size of an inode changed, and nothing else. *)
Section Meta.
Context (i : fin 50) (s s' : fsst D) (sz : Z).
Hypothesis Hok : iok s i.
Hypothesis Hlo : layout s.
Hypothesis Hview : forall m, m <> IBLOCK (fino s i).(i_inum) s.(sb) -> fv s' m = fv s m.
Hypothesis Hino : fino s' i = with_i_size sz (fino s i).
Hypothesis Hframe : fframe i s s'.

Lemma slot_meta k : 0 <= k <= IND -> slot s' i k = slot s i k.
Proof.
  intros Hk. unfold slot. rewrite Hino. cbn [i_addrs with_i_size]. destruct (k <? NDIRECT); [done|].
  destruct (k <? MAXFILE); [|done].
  destruct (Z.eqb_spec (i_addrs (fino s i) !!! 12%nat) 0) as [|Hz]; [done|]. f_equal. apply Hview.
  change (i_addrs (fino s i) !!! 12%nat) with (slot s i IND) in *.
  destruct (io_slot _ _ Hok IND ltac:(done) Hz) as [Hb _]. apply Hb, Hok.
Qed.

Lemma used_meta n : 0 <= n < s.(sb).(sb_size) -> used s' n = used s n.
Proof.
  intros Hn. unfold used. rewrite (ff_sb _ _ _ Hframe), Hview; [done|].
  destruct (alloc_block s n Hlo Hn) as [-> _]. intros E. destruct (lo_ino _ Hlo (fino s i).(i_inum) (io_inum _ _ Hok)) as [_ Hne].
  by rewrite <- E in Hne.
Qed.

Lemma content_meta o : 0 <= o < MAXFILE * BSIZE -> content s' i o = content s i o.
Proof.
  intros Ho. unfold content. assert (Hk : 0 <= o / BSIZE <= IND) by (unfold IND, BSIZE in *; Z.to_euclidean_division_equations; lia).
  rewrite slot_meta by done. destruct (Z.eqb_spec (slot s i (o / BSIZE)) 0) as [|Hz]; [done|]. f_equal. apply Hview.
  destruct (io_slot _ _ Hok _ Hk Hz) as [Hb _]. apply Hb, Hok.
Qed.

Lemma iok_meta : iok s' i.
Proof.
  split; rewrite ?Hino, ?(ff_sb _ _ _ Hframe); try apply Hok.
  - intros k Hk. rewrite slot_meta by done. intros Hz. destruct (io_slot _ _ Hok k Hk Hz) as [Hb Hu].
    split; [by eapply fframe_block|]. rewrite used_meta; [done|apply Hb].
  - intros j k Hj Hk. rewrite !slot_meta by done. by apply Hok.
Qed.

Lemma layout_meta : layout s'.
Proof.
  pose proof (lo_size _ Hlo). split; rewrite ?(ff_sb _ _ _ Hframe); try apply Hlo.
  - rewrite used_meta by lia. apply Hlo.
  - apply (fframe_data _ _ _ _ Hframe), Hlo.
  - intros k Hk. rewrite (fframe_data _ _ _ _ Hframe). by apply Hlo.
  - intros n Hn. rewrite used_meta by done. intros Hu. eapply fframe_block; [done|]. by apply Hlo.
Qed.
End Meta.

Lemma dinode_off_le inum : 0 <= inum -> (dinode_off inum + 64 <= 1024)%nat.
Proof.
  intros Hi. unfold dinode_off, IPB, BSIZE. change (1024 / 64) with 16. pose proof (Z.mod_pos_bound inum 16 ltac:(lia)). lia.
Qed.

Lemma length_enc32 l : length (enc32 l) = (4 * length l)%nat.
Proof.
  induction l as [|x l IH]; [done|]. change (enc32 (x :: l)) with (le_bytes 4 x ++ enc32 l).
  rewrite length_app, length_le_bytes, IH. cbn [length]. lia.
Qed.

Lemma length_put_dinode off x d :
  length x.(i_addrs) = 13%nat -> (off + 64 <= length d)%nat -> length (put_dinode off x d) = length d.
Proof.
  intros Hl Ho. unfold put_dinode. rewrite length_put_at; rewrite ?length_put_le; rewrite ?length_put_le; rewrite ?length_put_le;
    rewrite ?length_put_le; rewrite ?length_put_le; rewrite ?length_enc32, ?Hl; lia.
Qed.

Lemma iupdate_eq p i s bl :
  fsinv p s bl ∅ -> iok s i -> layout s -> (length bl < 30)%nat -> Z.of_nat (length bl) < lg_size s.(f_l) - 1 ->
  let ib := IBLOCK (fino s i).(i_inum) s.(sb) in
  exists s', iupdate i s = Ok tt s' /\ fsinv p s' (log_add ib bl) ∅ /\ fstep s s' /\
    (forall m, fv s' m = if decide (m = ib) then put_dinode (dinode_off (fino s i).(i_inum)) (fino s i) (fv s ib) else fv s m).
Proof.
  intros Hi Hok Hlo Hl Hlg ib. pose proof (io_inum _ _ Hok) as Hin. destruct (lo_ino _ Hlo _ Hin) as [Hd _]. fold ib in Hd.
  destruct (borrow p s bl ∅ ib Hi Hd (lookup_empty _)) as (b & s1 & [E1 Hi1 _ Hv1 Hs1 _]); [rewrite map_size_empty; lia|].
  set (f := put_dinode (dinode_off (fino s i).(i_inum)) (fino s i)).
  destruct (commit_block p s1 bl _ ib b f Hi1 (lookup_insert_eq _ _ _)) as (s2 & s3 & E2 & E3 & _ & Hi3 & _ & Hv3 & _ & Hs3).
  { rewrite Hv1. unfold f. rewrite length_put_dinode; [by eapply fv_len|apply Hok|].
    rewrite (fv_len _ _ _ _ _ Hi). apply dinode_off_le. lia. }
  { by rewrite (fstep_size _ _ Hs1). }
  rewrite delete_insert_id in Hi3 by apply lookup_empty. exists s3. unfold iupdate. cbn [bind get gets obind].
  change (view (ino_l i) s) with (fino s i). change (view sb_l s) with s.(sb). rewrite (io_dev _ _ Hok). fold ib. rewrite E1.
  cbn [obind bind get gets]. change (view (ino_l i) s1) with (fino s1 i).
  assert (Ei : fino s1 i = fino s i) by (unfold fino; by rewrite (fstep_inodes _ _ Hs1)). rewrite Ei. fold f.
  change ((fset b f ;; flog_write b ;; fbrelse b) s1 = Ok tt s3 /\ fsinv p s3 (log_add ib bl) ∅ /\ fstep s s3 /\
    forall m, fv s3 m = if decide (m = ib) then f (fv s ib) else fv s m).
  rewrite E2. split_and!; try done; [by eapply fstep_trans|]. intros m. rewrite Hv3, !Hv1. done.
Qed.

(** ** [writei] *)

(** [tot] of the bytes [data] were written at [off]. *)
Record written p i (off : Z) (data : list Z) (k : Z) s bl (tot : Z) s' bl' : Prop := {
  wn_tot : 0 <= tot <= Z.of_nat (length data);
  wn_short : tot = Z.of_nat (length data) \/ full s';
  wn_content : forall o, 0 <= o < MAXFILE * BSIZE -> content s' i o = overwrite (content s i) off (take (Z.to_nat tot) data) o;
  wn_slots : forall o, off <= o < off + tot -> slot s' i (o / BSIZE) <> 0;
  wn_size : (fino s' i).(i_size) = Z.max (fino s i).(i_size) (off + tot);
  wn_same : exists ad, fino s' i = with_i_size (Z.max (fino s i).(i_size) (off + tot)) (with_i_addrs ad (fino s i));
  wn_dinode : let ib := IBLOCK (fino s i).(i_inum) s.(sb) in
    fv s' ib = put_dinode (dinode_off (fino s i).(i_inum)) (fino s' i) (fv s ib);
  wn_other : forall m, m <> BBLOCK 0 s.(sb) -> m <> IBLOCK (fino s i).(i_inum) s.(sb) ->
    (forall j, 0 <= j <= IND -> slot s' i j <> 0 -> m <> slot s' i j) -> fv s' m = fv s m;
  wn_new : forall j, 0 <= j <= IND -> slot s' i j = slot s i j \/ used s (slot s' i j) = false;
  wn_log : Z.of_nat (length bl') <= Z.of_nat (length bl) + k + 3;
  wn_ready : wready p i s' bl';
  wn_frame : fframe i s s'
}.

(** The end of [writei]: the new size and [iupdate]. *)
Lemma writei_end p i s bl (off : Z) :
  wready p i s bl -> (length bl < 30)%nat -> Z.of_nat (length bl) < lg_size s.(f_l) - 1 ->
  let ib := IBLOCK (fino s i).(i_inum) s.(sb) in
  exists s', (forall A (k : M (fsst D) A),
      (x <- get (ino_l i) ;; (if x.(i_size) <? off then update (ino_l i) (with_i_size off) else ret tt) ;; iupdate i ;; k) s = k s') /\
    wready p i s' (log_add ib bl) /\ fframe i s s' /\ fino s' i = with_i_size (Z.max (fino s i).(i_size) off) (fino s i) /\
    (forall o, 0 <= o < MAXFILE * BSIZE -> content s' i o = content s i o) /\
    (forall j, 0 <= j <= IND -> slot s' i j = slot s i j) /\
    (forall n, 0 <= n < s.(sb).(sb_size) -> used s' n = used s n) /\
    fv s' ib = put_dinode (dinode_off (fino s i).(i_inum)) (fino s' i) (fv s ib) /\
    (forall m, m <> ib -> fv s' m = fv s m).
Proof.
  intros Hw Hl Hlg ib. destruct Hw as [Hi Hok Hlo Ht Hpl]. set (sz := Z.max (i_size (fino s i)) off).
  set (s1 := put (ino_l i) (with_i_size sz (fino s i)) s).
  assert (Hi1 : fino s1 i = with_i_size sz (fino s i)) by (unfold s1, fino; cbn; by rewrite vlookup_insert).
  assert (Hf1 : fframe i s s1) by apply fframe_ino.
  assert (Hok1 : iok s1 i) by (by apply (iok_meta i s s1 sz)).
  assert (Hlo1 : layout s1) by (by apply (layout_meta i s s1)).
  assert (Hv1 : fsinv p s1 bl ∅) by by apply fsinv_ino.
  destruct (iupdate_eq p i s1 bl Hv1 Hok1 Hlo1 Hl Hlg) as (s2 & E2 & Hv2 & Hs2 & Hvw).
  assert (Eib : IBLOCK (i_inum (fino s1 i)) (sb s1) = ib) by (rewrite Hi1; done). rewrite Eib in Hv2, Hvw.
  assert (Hi2 : fino s2 i = with_i_size sz (fino s i)) by (unfold fino at 1; rewrite (fstep_inodes _ _ Hs2); exact Hi1).
  assert (Hf2 : fframe i s s2) by (eapply fframe_trans; [exact Hf1|by apply fframe_step]).
  assert (Hvn : forall m, m <> ib -> fv s2 m = fv s m) by (intros m Hm; by rewrite Hvw, decide_False).
  assert (E1 : (x <- get (ino_l i) ;; (if x.(i_size) <? off then update (ino_l i) (with_i_size off) else ret tt)) s = Ok tt s1).
  { cbn [bind get gets obind]. change (view (ino_l i) s) with (fino s i). destruct (Z.ltb_spec (i_size (fino s i)) off).
    - unfold s1, sz. rewrite Z.max_r by lia. done.
    - unfold s1, sz. rewrite Z.max_l by lia. cbn [ret]. f_equal.
      replace (with_i_size (i_size (fino s i)) (fino s i)) with (view (ino_l i) s) by (by unfold fino; cbn; destruct (inodes s !!! i)).
      symmetry. apply put_view. }
  exists s2. destruct (fframe_tty_ready i s s2 Hf2 Ht Hpl). split.
  { intros A k. cbn [bind get gets obind] in E1 |- *. rewrite E1. cbn [obind bind]. by rewrite E2. }
  split_and!; try done.
  - split; try done; [by apply (iok_meta i s s2 sz)|by apply (layout_meta i s s2)].
  - by apply (content_meta i s s2 sz).
  - by apply (slot_meta i s s2 sz).
  - by apply (used_meta i s s2).
  - rewrite Hvw, decide_True, Hi1, Hi2 by done. done.
Qed.

Lemma writei_writes p i src data off s bl :
  let n := Z.of_nat (length data) in let k := nblocks off n in
  wready p i s bl -> sources (view the_pst s) src data ->
  0 <= off <= (fino s i).(i_size) -> off + n <= MAXFILE * BSIZE ->
  Z.of_nat (length bl) + k + 6 <= 30 -> Z.of_nat (length bl) + k + 5 <= lg_size s.(f_l) - 1 ->
  exists tot s' bl', writei i src off n s = Ok tot s' /\ written p i off data k s bl tot s' bl'.
Proof.
  intros n k Hw Hsrc Hoff Hmax Hr1 Hr2. assert (Hmx : MAXFILE * BSIZE = 274432) by reflexivity.
  pose proof (nblocks_pos off n ltac:(lia)) as Hk0. pose proof (nblocks_le off n ltac:(lia) ltac:(lia)) as Hk1. fold k in Hk0, Hk1.
  pose proof (pot_start s i bl) as Hps.
  destruct (writei_loop p i (view the_pst s) src data off Hsrc ltac:(lia) Hmax (Z.to_nat k) s bl 0 (Z.to_nat (n / BSIZE) + 3)) as
    (tot & s1 & bl1 & E1 & Htot & [He Hct Hslt Hpot] & Hend); try done.
  - apply quiet_refl.
  - lia.
  - rewrite Z.add_0_r, Z.sub_0_r. fold n k. lia.
  - pose proof (Z.div_pos n BSIZE ltac:(lia) ltac:(done)). lia.
  - right. lia.
  - pose proof (wready_edits p i s bl s1 bl1 Hw He) as Hw1. pose proof (pot_len p s1 i bl1 ∅ (ed_inv _ _ _ _ _ He)) as Hl1.
    pose proof (ed_frame _ _ _ _ _ He) as Hf1. pose proof (fframe_size _ _ _ Hf1) as Esz. pose proof (ff_sb _ _ _ Hf1) as Es.
    destruct (ed_ino _ _ _ _ _ He) as [ad Ead].
    destruct (writei_end p i s1 bl1 (off + tot) Hw1) as (s2 & E2 & Hw2 & Hf2 & Hi2 & Hct2 & Hsl2 & Hu2 & Hd2 & Hv2); [lia|lia|].
    assert (Eib : IBLOCK (i_inum (fino s1 i)) (sb s1) = IBLOCK (i_inum (fino s i)) (sb s)) by (rewrite Ead, Es; done).
    rewrite Eib in Hw2, Hd2, Hv2. exists tot, s2, (log_add (IBLOCK (i_inum (fino s i)) (sb s)) bl1). split.
    + unfold writei. cbn [bind get gets obind]. change (view (ino_l i) s) with (fino s i).
      assert (Eu : u32 (off + n) = off + n) by (apply Z.mod_small; lia). rewrite Eu.
      rewrite (proj2 (Z.ltb_ge _ _)) by lia. rewrite (proj2 (Z.ltb_ge _ _)) by lia. cbn [orb].
      rewrite (proj2 (Z.ltb_ge _ _)) by lia. rewrite Z.add_0_r, (so_0 _ _ _ Hsrc) in E1. cbn [bind]. fold n in E1. rewrite E1.
      cbn [obind snd fst]. rewrite E2. unfold ret. f_equal. apply s32_small. lia.
    + rewrite Ead in Hi2. cbn [i_size with_i_addrs] in Hi2. split; try done.
      * destruct Hend as [->|Hfull]; [by left|right]. intros m Hm. rewrite (ff_sb _ _ _ Hf2) in Hm. rewrite Hu2 by done. by apply Hfull.
      * intros o Ho. rewrite Hct2, Hct by done. unfold slice. by rewrite Z.add_0_r, Z.sub_0_r.
      * intros o Ho. rewrite Hsl2 by (unfold IND, BSIZE in *; Z.to_euclidean_division_equations; lia).
        apply Hslt; [lia|]. rewrite length_slice by lia. lia.
      * by rewrite Hi2.
      * by exists ad.
      * cbv zeta. rewrite Hd2, Ead. cbn [i_inum with_i_addrs]. f_equal.
        destruct (lo_ino _ (wy_layout _ _ _ _ Hw) _ (io_inum _ _ (wy_ok _ _ _ _ Hw))) as [_ Hne].
        apply He; [done|]. intros j Hj Hz Em. destruct (io_slot _ _ (ed_ok _ _ _ _ _ He) j Hj Hz) as [Hb _].
        pose proof (io_inum _ _ (ed_ok _ _ _ _ _ He)) as Hin. apply (fb_ino _ _ Hb _ Hin). congruence.
      * intros m Hmb Hmi Hm. rewrite Hv2 by done. apply He; [done|]. intros j Hj. rewrite <- Hsl2 by done. by apply Hm.
      * intros j Hj. rewrite Hsl2 by done. by apply He.
      * pose proof (length_log_add_le (IBLOCK (i_inum (fino s i)) (sb s)) bl1). lia.
      * by eapply fframe_trans.
Qed.
End FsWrite.
