(* ===== verification/FsRead.v ===== *)
(** * Reading files

    [readi] returns the bytes of the file; the theorems about the contents of
    files. *)

From S2P Require Import Prelude Riscv Memory Spinlock Kalloc Vm Tty Proc ProcSpec Sleeplock Uart UartThm Bio BioSpec Block Log LogCrash LogSpec LogOps Txn Fs FsSpec FsBlock FsFile FsWrite BioThm LogThm.

Section FsRead.
Context {D : Type} `{DiskLaws D} `{Patience}.
Implicit Types (s : fsst D) (bl : list Z) (i : fin 50).

(** [n] bytes of a file from offset [off]. *)
Definition bytes (f : Z -> Z) (off n : Z) : list Z := f <$> seqZ off n.

Lemma bytes_app f off n m : 0 <= n -> 0 <= m -> bytes f off (n + m) = bytes f off n ++ bytes f (off + n) m.
Proof. intros Hn Hm. unfold bytes. rewrite seqZ_app by done. by rewrite fmap_app. Qed.

Lemma bytes_ext f g off n : (forall o, off <= o < off + n -> f o = g o) -> bytes f off n = bytes g off n.
Proof. intros E. unfold bytes. apply list_fmap_ext. intros k o Ho%list_elem_of_lookup_2%elem_of_seqZ. by apply E. Qed.

Lemma bytes_overwrite f off data : bytes (overwrite f off data) off (Z.of_nat (length data)) = data.
Proof.
  unfold bytes. apply list_eq_same_length with (length data); [done|rewrite length_fmap, length_seqZ; lia|].
  intros k x y Hk. rewrite list_lookup_fmap, lookup_seqZ_lt by lia. cbn. intros Hx Hy. injection Hx as <-.
  unfold overwrite. rewrite decide_True by lia. replace (off + Z.of_nat k - off) with (Z.of_nat k) by lia.
  rewrite Nat2Z.id. by apply list_lookup_total_correct.
Qed.

(** The part of one block that [readi] copies. *)
Lemma block_bytes s i off m :
  slot s i (off / BSIZE) <> 0 -> length (fv s (slot s i (off / BSIZE))) = 1024%nat -> 0 <= off -> 0 <= m ->
  off mod BSIZE + m <= BSIZE ->
  take (Z.to_nat m) (drop (Z.to_nat (off mod BSIZE)) (fv s (slot s i (off / BSIZE)))) = bytes (content s i) off m.
Proof.
  intros Hz Hl Ho Hm Hb. pose proof (Z.mod_pos_bound off BSIZE ltac:(done)) as Hmod.
  apply list_eq_same_length with (Z.to_nat m).
  - unfold bytes. by rewrite length_fmap, length_seqZ.
  - rewrite length_take, length_drop, Hl. unfold BSIZE in *. lia.
  - intros k x y Hk. rewrite lookup_take_lt, lookup_drop by lia. unfold bytes. rewrite list_lookup_fmap, lookup_seqZ_lt by lia.
    cbn. intros Hx Hy. injection Hy as <-. unfold content.
    assert (E1 : (off + Z.of_nat k) / BSIZE = off / BSIZE) by (unfold BSIZE in *; Z.to_euclidean_division_equations; lia).
    assert (E2 : (off + Z.of_nat k) mod BSIZE = off mod BSIZE + Z.of_nat k) by (unfold BSIZE in *; Z.to_euclidean_division_equations; lia).
    rewrite E1, E2, (proj2 (Z.eqb_neq _ _) Hz). symmetry. apply list_lookup_total_correct. rewrite <- Hx. f_equal. lia.
Qed.

(** No holes between [off] and [off + n]. *)
Definition solid s i (off n : Z) : Prop := forall o, off <= o < off + n -> slot s i (o / BSIZE) <> 0.

Lemma readi_step p i s bl n tot off bs acc :
  fsinv p s bl ∅ -> iok s i -> (length bl < 30)%nat -> tot < n -> 0 <= off < MAXFILE * BSIZE ->
  slot s i (off / BSIZE) <> 0 ->
  let m := Z.min (n - tot) (BSIZE - off mod BSIZE) in
  exists s', readi_body i n (tot, off, KernBuf bs, acc) s =
      Ok (inl (tot + m, off + m, uaddr_add (KernBuf bs) m, acc ++ bytes (content s i) off m)) s' /\
    fsinv p s' bl ∅ /\ same_file i s s'.
Proof.
  intros Hi Hok Hl Ht Ho Hz m. set (bn := off / BSIZE) in *. pose proof (Z.mod_pos_bound off BSIZE ltac:(done)) as Hmod.
  assert (Hbn : 0 <= bn < MAXFILE) by (unfold bn, BSIZE in *; Z.to_euclidean_division_equations; lia).
  destruct (bmap_hit p i bn s bl Hi Hok Hl Hbn Hz) as (s1 & E1 & Hi1 & Hs1 & Hv1).
  pose proof (same_file_step i s s1 Hs1 Hv1) as Hsf1. pose proof (iok_same i s s1 Hsf1 Hok) as Hok1.
  destruct (io_slot _ _ Hok bn ltac:(unfold IND; lia) Hz) as [Hb _].
  destruct (borrow p s1 bl ∅ (slot s i bn) Hi1) as (b & s2 & [E2 Hi2 Ed _ Hs2 (s3 & E3 & Hi3 & Hv3 & Hs3)]);
    [apply (fstep_data _ _ _ Hs1), Hb|apply lookup_empty|rewrite map_size_empty; lia|].
  exists s3. split.
  - unfold readi_body. rewrite (proj2 (Z.ltb_lt _ _) Ht). cbn [bind]. fold bn. rewrite E1. cbn [obind].
    rewrite (proj2 (Z.eqb_neq _ _) Hz). cbn [bind get gets obind]. change (view (ino_l i) s1) with (fino s1 i).
    rewrite (io_dev _ _ Hok1), E2. cbn [obind bind]. rewrite Ed. cbn [obind bind]. fold m.
    destruct (fsinv_run _ _ _ _ Hi2) as [[Hh _] _].
    rewrite (zoom_ok the_pst _ s2 0 (view the_pst s2)) by (unfold either_copyout; cbn [bind]; by rewrite myproc_eq).
    rewrite put_view. cbn [obind bind]. rewrite E3. cbn [obind Z.eqb Pos.eqb ret]. rewrite Hv1.
    assert (Hbb : take (Z.to_nat m) (drop (Z.to_nat (off mod BSIZE)) (fv s (slot s i bn))) = bytes (content s i) off m)
      by (apply block_bytes; [done|by eapply fv_len|unfold m; lia..]).
    by rewrite Hbb.
  - split; [done|]. apply same_file_step; [by eapply fstep_trans|]. intros mm. by rewrite Hv3, Hv1.
Qed.

Lemma same_file_trans i s1 s2 s3 : same_file i s1 s2 -> same_file i s2 s3 -> same_file i s1 s3.
Proof.
  intros [V1 I1 F1] [V2 I2 F2]. split; [intros m; by rewrite V2|by rewrite I2|by eapply fframe_trans].
Qed.

Lemma readi_done i n fuel tot off dst acc s :
  n <= tot -> tot < 2 ^ 31 -> 0 <= tot -> (0 < fuel)%nat ->
  loop fuel (readi_body i n) (tot, off, dst, acc) s = Ok (tot, acc) s.
Proof.
  intros Hn Ht H0' Hf. destruct fuel as [|fuel]; [lia|]. rewrite loop_S. unfold readi_body at 1.
  rewrite (proj2 (Z.ltb_ge _ _)) by lia. cbn [ret obind]. f_equal. by rewrite s32_small by lia.
Qed.

Lemma readi_loop p i n off0 : 0 <= off0 -> off0 + n <= MAXFILE * BSIZE -> forall k s bl tot bs acc fuel,
  fsinv p s bl ∅ -> iok s i -> (length bl < 30)%nat -> solid s i off0 n ->
  0 <= tot <= n -> nblocks (off0 + tot) (n - tot) <= Z.of_nat k -> (k < fuel)%nat ->
  exists s', loop fuel (readi_body i n) (tot, off0 + tot, KernBuf bs, acc) s =
      Ok (n, acc ++ bytes (content s i) (off0 + tot) (n - tot)) s' /\ fsinv p s' bl ∅ /\ same_file i s s'.
Proof.
  intros Ho Hmax. assert (Hmx : MAXFILE * BSIZE = 274432) by reflexivity.
  induction k as [|k IH]; intros s bl tot bs acc fuel Hi Hok Hl Hs Ht Hk Hf.
  - assert (tot = n) as ->. { unfold nblocks, BSIZE in Hk. destruct (Z.leb_spec (n - tot) 0); [lia|]. Z.to_euclidean_division_equations; lia. }
    exists s. rewrite readi_done by lia. rewrite Z.sub_diag. cbn. rewrite app_nil_r. split_and!; try done. by apply same_file_step; [apply fstep_refl|].
  - destruct (decide (tot = n)) as [->|Hne].
    { exists s. rewrite readi_done by lia. rewrite Z.sub_diag. cbn. rewrite app_nil_r. split_and!; try done. by apply same_file_step; [apply fstep_refl|]. }
    destruct (nblocks_step (off0 + tot) (n - tot)) as [Hm Hnb]; [lia..|].
    set (m := Z.min (n - tot) (BSIZE - (off0 + tot) mod BSIZE)) in *. destruct fuel as [|fuel]; [lia|]. rewrite loop_S.
    destruct (readi_step p i s bl n tot (off0 + tot) bs acc Hi Hok Hl) as (s1 & E1 & Hi1 & Hsf); [lia|lia|apply Hs; lia|].
    rewrite E1. cbn [obind uaddr_add]. fold m. replace (off0 + tot + m) with (off0 + (tot + m)) in * by lia.
    destruct (IH s1 bl (tot + m) (drop (Z.to_nat m) bs) (acc ++ bytes (content s i) (off0 + tot) m) fuel) as (s2 & E2 & Hi2 & Hsf2); try done; try lia.
    + by eapply iok_same.
    + intros o Hoo. rewrite (slot_same i _ _ Hsf). by apply Hs.
    + replace (n - (tot + m)) with (n - tot - m) by lia. lia.
    + exists s2. rewrite E2. split_and!; [|done|by eapply same_file_trans]. do 2 f_equal.
      rewrite <- app_assoc. f_equal. replace (n - tot) with (m + (n - (tot + m))) by lia. rewrite bytes_app by lia.
      f_equal. replace (off0 + tot + m) with (off0 + (tot + m)) by lia. apply bytes_ext. intros o _. apply (content_same i _ _ Hsf).
Qed.

(** [readi] into a buffer of the kernel's. *)
Lemma readi_reads p i bs off n s bl :
  fsinv p s bl ∅ -> iok s i -> (length bl < 30)%nat -> 0 <= off < 2 ^ 32 -> 0 <= n < 2 ^ 32 ->
  0 <= (fino s i).(i_size) <= MAXFILE * BSIZE ->
  let m := if decide (off <= (fino s i).(i_size) /\ off + n < 2 ^ 32) then Z.min n ((fino s i).(i_size) - off) else 0 in
  solid s i off m ->
  exists s', readi i (KernBuf bs) off n s = Ok (m, bytes (content s i) off m) s' /\ fsinv p s' bl ∅ /\ same_file i s s'.
Proof.
  intros Hi Hok Hl Ho Hn Hsz m Hs. unfold readi. cbn [bind get gets obind]. change (view (ino_l i) s) with (fino s i).
  destruct (decide _) as [[Hd1 Hd2]|Hd].
  - assert (Eu : u32 (off + n) = off + n) by (apply Z.mod_small; lia). rewrite Eu.
    rewrite (proj2 (Z.ltb_ge _ _)) by lia. rewrite (proj2 (Z.ltb_ge _ _)) by lia. cbn [orb].
    replace (if i_size (fino s i) <? off + n then i_size (fino s i) - off else n) with m
      by (unfold m; destruct (Z.ltb_spec (i_size (fino s i)) (off + n)); lia).
    pose proof (nblocks_le off m ltac:(lia) ltac:(unfold m; lia)). pose proof (nblocks_pos off m ltac:(lia)).
    pose proof (Z.div_pos m BSIZE ltac:(unfold m; lia) ltac:(done)).
    destruct (readi_loop p i m off ltac:(lia) ltac:(unfold m; lia) (Z.to_nat (nblocks off m)) s bl 0 bs [] (Z.to_nat (m / BSIZE) + 3)) as (s' & E & Hi' & Hsf);
      try done; [unfold m; lia|rewrite Z.add_0_r, Z.sub_0_r; lia|lia|].
    exists s'. rewrite Z.add_0_r, Z.sub_0_r in E. by rewrite E.
  - assert (Hb : (i_size (fino s i) <? off) || (u32 (off + n) <? off) = true).
    { apply orb_true_iff. rewrite !Z.ltb_lt. unfold u32. change (2 ^ 32) with 4294967296 in *.
      destruct (decide (i_size (fino s i) < off)); [by left|right]. Z.to_euclidean_division_equations; lia. }
    rewrite Hb. exists s. split_and!; try done. by apply same_file_step; [apply fstep_refl|].
Qed.
End FsRead.

(** ** The dinode *)

Lemma dec32_enc32 l : Forall (fun a => 0 <= a < 2 ^ 32) l -> dec32 (length l) (enc32 l) = l.
Proof.
  induction 1 as [|a l Ha Hl IH]; [done|]. change (enc32 (a :: l)) with (le_bytes 4 a ++ enc32 l).
  change (dec32 (length (a :: l)) (le_bytes 4 a ++ enc32 l)) with
    (le_val (take 4 (le_bytes 4 a ++ enc32 l)) :: dec32 (length l) (drop 4 (le_bytes 4 a ++ enc32 l))).
  rewrite take_app_length' by by rewrite length_le_bytes. rewrite drop_app_length' by by rewrite length_le_bytes.
  rewrite le_val_le_bytes, IH. f_equal. apply Z.mod_small. exact Ha.
Qed.

Lemma s16_mod n : - 2 ^ 15 <= n < 2 ^ 15 -> s16 (n mod 256 ^ Z.of_nat 2) = n.
Proof.
  intros Hn. unfold s16, signed. change (256 ^ Z.of_nat 2) with 65536. change (2 ^ 16) with 65536. change (2 ^ (16 - 1)) with 32768.
  change (2 ^ 15) with 32768 in *. destruct (Z.ltb_spec ((n mod 65536) mod 65536) 32768); Z.to_euclidean_division_equations; lia.
Qed.

(** The fields of an inode are [short]s and [uint]s. *)
Record inode_fields (x : inode) : Prop := {
  if_type : - 2 ^ 15 <= x.(i_type) < 2 ^ 15;
  if_major : - 2 ^ 15 <= x.(i_major) < 2 ^ 15;
  if_minor : - 2 ^ 15 <= x.(i_minor) < 2 ^ 15;
  if_nlink : - 2 ^ 15 <= x.(i_nlink) < 2 ^ 15;
  if_size : 0 <= x.(i_size) < 2 ^ 32;
  if_addrs : length x.(i_addrs) = 13%nat /\ Forall (fun a => 0 <= a < 2 ^ 32) x.(i_addrs)
}.

Section Dinode.
Context (off : nat) (x : inode) (d : list Z).
Hypothesis Hx : inode_fields x.
Hypothesis Ho : (off + 64 <= length d)%nat.

Let d1 := put_le 2 off x.(i_type) d.
Let d2 := put_le 2 (off + 2) x.(i_major) d1.
Let d3 := put_le 2 (off + 4) x.(i_minor) d2.
Let d4 := put_le 2 (off + 6) x.(i_nlink) d3.
Let d5 := put_le 4 (off + 8) x.(i_size) d4.

Lemma length_d5 : length d1 = length d /\ length d2 = length d /\ length d3 = length d /\ length d4 = length d /\ length d5 = length d.
Proof.
  assert (L1 : length d1 = length d) by (apply length_put_le; lia).
  assert (L2 : length d2 = length d) by (unfold d2; rewrite length_put_le; lia).
  assert (L3 : length d3 = length d) by (unfold d3; rewrite length_put_le; lia).
  assert (L4 : length d4 = length d) by (unfold d4; rewrite length_put_le; lia).
  assert (L5 : length d5 = length d) by (unfold d5; rewrite length_put_le; lia). done.
Qed.

(** Fields before the addresses. *)
Lemma get_put_addrs w o :
  (o + w <= off + 12 \/ off + 64 <= o)%nat -> get_le w (put_dinode off x d) o = get_le w d5 o.
Proof.
  intros Hw. destruct length_d5 as (_ & _ & _ & _ & L5). destruct (if_addrs _ Hx) as [Hl _].
  unfold get_le. f_equal. apply take_drop_put_at_ne; rewrite length_enc32, Hl; lia.
Qed.

Lemma put_dinode_other o n :
  (o + n <= off \/ off + 64 <= o)%nat -> take n (drop o (put_dinode off x d)) = take n (drop o d).
Proof.
  intros Hw. destruct length_d5 as (L1 & L2 & L3 & L4 & L5). destruct (if_addrs _ Hx) as [Hl _]. unfold put_dinode.
  fold d1. fold d2. fold d3. fold d4. fold d5. rewrite take_drop_put_at_ne by (rewrite length_enc32, Hl; lia).
  unfold d5. rewrite take_drop_put_le_ne by lia. unfold d4. rewrite take_drop_put_le_ne by lia.
  unfold d3. rewrite take_drop_put_le_ne by lia. unfold d2. rewrite take_drop_put_le_ne by lia.
  unfold d1. by rewrite take_drop_put_le_ne by lia.
Qed.

Lemma get_d5 :
  get_le 2 d5 off = x.(i_type) mod 256 ^ Z.of_nat 2 /\ get_le 2 d5 (off + 2) = x.(i_major) mod 256 ^ Z.of_nat 2 /\
  get_le 2 d5 (off + 4) = x.(i_minor) mod 256 ^ Z.of_nat 2 /\ get_le 2 d5 (off + 6) = x.(i_nlink) mod 256 ^ Z.of_nat 2 /\
  get_le 4 d5 (off + 8) = x.(i_size) mod 256 ^ Z.of_nat 4.
Proof.
  destruct length_d5 as (L1 & L2 & L3 & L4 & L5). split_and!.
  - unfold d5. rewrite get_put_le_ne by lia. unfold d4. rewrite get_put_le_ne by lia. unfold d3. rewrite get_put_le_ne by lia.
    unfold d2. rewrite get_put_le_ne by lia. apply get_put_le. lia.
  - unfold d5. rewrite get_put_le_ne by lia. unfold d4. rewrite get_put_le_ne by lia. unfold d3. rewrite get_put_le_ne by lia.
    apply get_put_le. lia.
  - unfold d5. rewrite get_put_le_ne by lia. unfold d4. rewrite get_put_le_ne by lia. apply get_put_le. lia.
  - unfold d5. rewrite get_put_le_ne by lia. apply get_put_le. lia.
  - apply get_put_le. lia.
Qed.

Lemma get_put_dinode y :
  get_dinode off (put_dinode off x d) y =
  Inode y.(i_dev) y.(i_inum) y.(i_ref) y.(i_lock) y.(i_valid) x.(i_type) x.(i_major) x.(i_minor) x.(i_nlink) x.(i_size) x.(i_addrs).
Proof.
  destruct length_d5 as (_ & _ & _ & _ & L5). destruct (if_addrs _ Hx) as [Hl Ha]. destruct get_d5 as (G1 & G2 & G3 & G4 & G5).
  unfold get_dinode. rewrite !get_put_addrs by lia. rewrite G1, G2, G3, G4, G5.
  rewrite !s16_mod by apply Hx. f_equal.
  - apply Z.mod_small. exact (if_size _ Hx).
  - unfold put_dinode. fold d1. fold d2. fold d3. fold d4. fold d5.
    assert (L52 : 52%nat = length (enc32 (i_addrs x))) by by rewrite length_enc32, Hl. rewrite L52 at 1.
    rewrite take_drop_put_at by lia. rewrite <- Hl. by apply dec32_enc32.
Qed.
End Dinode.
