(* ===== verification/FsThm.v ===== *)
(** * Theorems about the contents of files

    bmap, readi, writei and iupdate of kernel/fs.c, over the invariant of FsSpec
    and the steps of FsFile, FsWrite and FsRead; with an example on a small disk. *)

From S2P Require Import Prelude Riscv Memory Spinlock Kalloc Vm Tty Proc ProcSpec Sleeplock Uart UartThm Bio BioSpec Block Log LogCrash LogSpec LogOps Txn Fs FsSpec FsBlock FsFile FsWrite FsRead BioThm LogThm.

Section FsThm.
Context {D : Type} `{DiskLaws D} `{Patience}.
Implicit Types (s : fsst D) (bl : list Z) (i : fin 50).

(** C10: [bmap] returns the disk block of block [bn] of a file, through the
    direct addresses or the indirect block.  If there was none it allocates
    one, and the indirect block if needed: blocks of the file stay in place,
    new ones were free, no block is in two slots, the bytes of the file are
    the same, and at most the bitmap, the indirect block and the new block are
    logged.  On a full disk it returns 0; past the largest file it panics. *)
Theorem bmap_spec p i bn s bl :
  wready p i s bl -> bmap_room s i bl -> 0 <= bn ->
  if decide (bn < MAXFILE)
  then exists a s' bl', bmap i bn s = Ok a s' /\ grows p i bn s bl s' bl' /\
    (a <> 0 /\ slot s' i bn = a \/ a = 0 /\ slot s i bn = 0 /\ full s')
  else bmap i bn s = Panic "bmap: out of range".
Proof.
  intros [Hi Hok Hlo Ht Hp] Hr Hb. case_decide; [|apply bmap_out_of_range; lia]. by apply bmap_maps.
Qed.

(** C2: [writei] refines the assignment of bytes in a file: the bytes from
    [off] on become those of the source and all others stay, holes and new
    blocks reading as zeroes; the size grows to the end of the write; the
    inode is written to its dinode; no block of another file, of the log or of
    the disk changes.  It writes all the bytes unless the disk fills up, and
    then a prefix, which it returns.  A write of [n] bytes logs at most three
    blocks (inode, bitmap, indirect) more than the data blocks it touches.
    Writing past the end of the file, beyond the largest file or around
    [2^32] returns -1 and changes nothing. *)
Theorem writei_spec p i src data off s bl :
  let n := Z.of_nat (length data) in
  wready p i s bl -> sources (view the_pst s) src data -> 0 <= off < 2 ^ 32 -> n < 2 ^ 32 ->
  Z.of_nat (length bl) + nblocks off n + 6 <= 30 -> Z.of_nat (length bl) + nblocks off n + 5 <= lg_size s.(f_l) - 1 ->
  if decide (off <= (fino s i).(i_size) /\ off + n <= MAXFILE * BSIZE)
  then exists tot s' bl', writei i src off n s = Ok tot s' /\ written p i off data (nblocks off n) s bl tot s' bl'
  else writei i src off n s = Ok (-1) s.
Proof.
  intros n Hw Hsrc Ho Hn Hr1 Hr2. case_decide as Hd.
  - apply writei_writes; try done; fold n; lia.
  - unfold writei. cbn [bind get gets obind]. change (view (ino_l i) s) with (fino s i).
    assert (Hmx : MAXFILE * BSIZE = 274432) by reflexivity.
    destruct (Z.ltb_spec (i_size (fino s i)) off); [done|]. cbn [orb]. destruct (Z.ltb_spec (u32 (off + n)) off) as [|Hu]; [done|].
    rewrite (proj2 (Z.ltb_lt _ _)); [done|]. unfold u32 in *. change (2 ^ 32) with 4294967296 in *.
    Z.to_euclidean_division_equations; lia.
Qed.


(** C6: What [writei] wrote, [readi] reads back. *)
Theorem writei_readi p i src data off bs s s1 bl :
  let n := Z.of_nat (length data) in
  wready p i s bl -> sources (view the_pst s) src data ->
  0 <= off <= (fino s i).(i_size) -> off + n <= MAXFILE * BSIZE -> (fino s i).(i_size) <= MAXFILE * BSIZE ->
  Z.of_nat (length bl) + nblocks off n + 6 <= 30 -> Z.of_nat (length bl) + nblocks off n + 5 <= lg_size s.(f_l) - 1 ->
  writei i src off n s = Ok n s1 ->
  exists s2, readi i (KernBuf bs) off n s1 = Ok (n, data) s2.
Proof.
  intros n Hw Hsrc Ho Hmax Hsz Hr1 Hr2 E. assert (Hmx : MAXFILE * BSIZE = 274432) by reflexivity.
  destruct (writei_writes p i src data off s bl) as (tot & s' & bl' & E' & Hwn); try done. fold n in E'. rewrite E in E'. injection E' as <- <-.
  pose proof (wn_size _ _ _ _ _ _ _ _ _ _ Hwn) as Hs1. pose proof (wn_log _ _ _ _ _ _ _ _ _ _ Hwn) as Hlog. fold n in Hlog.
  destruct (readi_reads p i bs off n s1 bl') as (s2 & E2 & _); try apply (wn_ready _ _ _ _ _ _ _ _ _ _ Hwn); try lia.
  - intros o Hoo. apply (wn_slots _ _ _ _ _ _ _ _ _ _ Hwn). case_decide; lia.
  - exists s2. rewrite E2. rewrite decide_True by lia. rewrite Z.min_l by lia. do 2 f_equal.
    transitivity (bytes (overwrite (content s i) off data) off n); [|apply bytes_overwrite].
    apply bytes_ext. intros o Hoo. rewrite (wn_content _ _ _ _ _ _ _ _ _ _ Hwn) by lia. unfold n. by rewrite Nat2Z.id, firstn_all.
Qed.

(** C37: [iupdate] stores an inode so that [ilock] reads the same inode back:
    type, device numbers, links, size and addresses, signs included; the other
    inodes in its block and every other block stay as they are. *)
Theorem iupdate_roundtrip p i s bl :
  fsinv p s bl ∅ -> iok s i -> layout s -> inode_fields (fino s i) ->
  (length bl < 30)%nat -> Z.of_nat (length bl) < lg_size s.(f_l) - 1 ->
  let x := fino s i in let ib := IBLOCK x.(i_inum) s.(sb) in
  exists s', iupdate i s = Ok tt s' /\
    (forall y, get_dinode (dinode_off x.(i_inum)) (fv s' ib) y =
       Inode y.(i_dev) y.(i_inum) y.(i_ref) y.(i_lock) y.(i_valid) x.(i_type) x.(i_major) x.(i_minor) x.(i_nlink) x.(i_size) x.(i_addrs)) /\
    (forall k y, 0 <= k -> k mod IPB <> x.(i_inum) mod IPB -> get_dinode (dinode_off k) (fv s' ib) y = get_dinode (dinode_off k) (fv s ib) y) /\
    (forall m, m <> ib -> fv s' m = fv s m).
Proof.
  intros Hi Hok Hlo Hx Hl Hlg x ib. destruct (iupdate_eq p i s bl Hi Hok Hlo Hl Hlg) as (s' & E & _ & _ & Hv). fold x ib in Hv.
  pose proof (io_inum _ _ Hok) as Hin. fold x in Hin. pose proof (fv_len _ _ _ _ ib Hi) as Hlen.
  pose proof (dinode_off_le x.(i_inum) ltac:(lia)) as Hoff.
  assert (Hib : fv s' ib = put_dinode (dinode_off x.(i_inum)) x (fv s ib)) by by rewrite Hv, decide_True.
  exists s'. split; [done|]. rewrite Hib. split_and!.
  - intros y. apply get_put_dinode; [done|lia].
  - intros k y Hk Hne. assert (Hd : (dinode_off k + 64 <= dinode_off (i_inum x) \/ dinode_off (i_inum x) + 64 <= dinode_off k)%nat).
    { unfold dinode_off, IPB, BSIZE in *. change (1024 / 64) with 16 in *.
      pose proof (Z.mod_pos_bound k 16 ltac:(lia)). pose proof (Z.mod_pos_bound x.(i_inum) 16 ltac:(lia)). lia. }
    unfold get_dinode, get_le. rewrite !(put_dinode_other (dinode_off (i_inum x)) x (fv s ib)) by (done || lia). done.
  - intros m Hm. by rewrite Hv, decide_False.
Qed.
End FsThm.

(** ** Examples *)

#[local] Instance demo_patience : Patience := 2%nat.

(** The inode of a file of five bytes, in block 46. *)
Definition demo_inode : inode :=
  Inode ROOTDEV 2 1 (initsleeplock "inode") 1 T_FILE 0 0 1 5 (46 :: replicate 12 0).
Definition demo_file : fsst ideal_disk := put (ino_l 0%fin) demo_inode demo_fs.

Lemma demo_fino : fino demo_file 0%fin = demo_inode.
Proof. reflexivity. Qed.

Lemma demo_slot k : 0 <= k <= IND -> slot demo_file 0%fin k = if k =? 0 then 46 else 0.
Proof.
  intros Hk. unfold slot. rewrite demo_fino. change (i_addrs demo_inode) with (46 :: replicate 12 0).
  change ((46 :: replicate 12 0) !!! 12%nat) with 0. cbn [Z.eqb]. destruct (Z.eqb_spec k 0) as [->|Hz]; [reflexivity|].
  destruct (Z.ltb_spec k NDIRECT) as [Hd|]; [|by destruct (_ <? _)]. unfold NDIRECT in Hd.
  replace (Z.to_nat k) with (S (Z.to_nat (k - 1))) by lia. cbn [lookup_total list_lookup_total].
  apply lookup_total_replicate_2. lia.
Qed.

Lemma demo_file_used n : 0 <= n < 2000 -> used demo_file n = (n <? 47).
Proof. intros Hn. rewrite <- demo_used by done. reflexivity. Qed.

Lemma demo_file_layout : layout demo_file.
Proof. destruct demo_fs_layout as [Hs Hb Hm Hi Hf]. split; [exact Hs|exact Hb|exact Hm|exact Hi|]. intros n Hn Hu. by destruct (Hf n Hn Hu). Qed.

Lemma demo_file_inv : fsinv 2%fin demo_file [] ∅.
Proof. apply fsinv_ino, demo_fs_inv. Qed.

Lemma demo_block_46 : file_block demo_file 46.
Proof.
  split.
  - change (sb_size (sb demo_file)) with 2000. lia.
  - unfold data_block, in_disk, in_log, FSSIZE. change (lg_start (f_l demo_file)) with 2. change (lg_size (f_l demo_file)) with 30. lia.
  - vm_compute. congruence.
  - change (sb_ninodes (sb demo_file)) with 200. change (sb demo_file) with mkfs_sb. intros k Hk.
    unfold IBLOCK, IPB, BSIZE, u32. change (1024 / 64) with 16. change (sb_inodestart mkfs_sb) with 32. change (2 ^ 32) with 4294967296.
    Z.to_euclidean_division_equations; lia.
Qed.

Lemma demo_file_ok : iok demo_file 0%fin.
Proof.
  split; rewrite ?demo_fino.
  - reflexivity.
  - change (i_inum demo_inode) with 2. change (sb_ninodes (sb demo_file)) with 200. lia.
  - reflexivity.
  - intros k Hk. rewrite demo_slot by done. destruct (k =? 0); [intros _|congruence].
    split; [exact demo_block_46|]. rewrite demo_file_used by lia. reflexivity.
  - intros j k Hj Hk. rewrite !demo_slot by done. destruct (Z.eqb_spec j 0), (Z.eqb_spec k 0); intros; congruence.
Qed.

Lemma demo_file_ready : wready 2%fin 0%fin demo_file [].
Proof.
  split; [exact demo_file_inv|exact demo_file_ok|exact demo_file_layout|exact (proj1 demo_tty)|exact (proj2 demo_tty)].
Qed.

Lemma demo_src bs : sources (view the_pst demo_file) (KernBuf bs) bs.
Proof. apply (sources_kern 2%fin). exact (fsinv_run _ _ _ _ demo_file_inv). Qed.

#[local] Opaque demo_file.

Lemma demo_log_size : lg_size (f_l demo_file) = 30.
Proof. reflexivity. Qed.

Lemma demo_bmap_room : bmap_room demo_file 0%fin [].
Proof.
  unfold bmap_room, fits. rewrite demo_slot by done. rewrite demo_log_size. vm_compute. split; lia || congruence.
Qed.

(** Block 1 of the file is allocated; a file has no block 300. *)
Lemma bmap_spec_witness :
  (exists a s', bmap 0%fin 1 demo_file = Ok a s' /\ (a <> 0 /\ slot s' 0%fin 1 = a \/ a = 0 /\ full s')) /\
  bmap 0%fin 300 demo_file = Panic "bmap: out of range".
Proof.
  split.
  - pose proof (bmap_spec 2%fin 0%fin 1 demo_file [] demo_file_ready demo_bmap_room ltac:(lia)) as HX.
    rewrite decide_True in HX by reflexivity. destruct HX as (a & s' & bl' & E & _ & Ha).
    exists a, s'. split; [exact E|]. destruct Ha as [Ha|(Ha & _ & Hf)]; [left; exact Ha|right; split; [exact Ha|exact Hf]].
  - pose proof (bmap_spec 2%fin 0%fin 300 demo_file [] demo_file_ready demo_bmap_room ltac:(lia)) as HX.
    rewrite decide_False in HX by (vm_compute; congruence). exact HX.
Defined.

Lemma demo_size5 : i_size (fino demo_file 0%fin) = 5.
Proof. reflexivity. Qed.

(** Two bytes appended; a write past the end fails. *)
Lemma writei_spec_witness :
  (exists tot s', writei 0%fin (KernBuf [33; 10]) 5 2 demo_file = Ok tot s' /\
     i_size (fino s' 0%fin) = 5 + tot /\ (tot = 2 \/ full s')) /\
  writei 0%fin (KernBuf [33; 10]) 6 2 demo_file = Ok (-1) demo_file.
Proof.
  pose proof (fun off => writei_spec 2%fin 0%fin (KernBuf [33; 10]) [33; 10] off demo_file [] demo_file_ready (demo_src _)) as HX.
  rewrite demo_log_size, demo_size5 in HX. split.
  - specialize (HX 5 ltac:(lia) ltac:(cbn; lia) ltac:(vm_compute; congruence) ltac:(vm_compute; congruence)).
    rewrite decide_True in HX by (split; vm_compute; congruence). destruct HX as (tot & s' & bl' & E & Hw). exists tot, s'.
    split; [exact E|]. pose proof (wn_size _ _ _ _ _ _ _ _ _ _ Hw) as Hs. rewrite demo_size5 in Hs.
    pose proof (wn_tot _ _ _ _ _ _ _ _ _ _ Hw). split; [lia|exact (wn_short _ _ _ _ _ _ _ _ _ _ Hw)].
  - specialize (HX 6 ltac:(lia) ltac:(cbn; lia) ltac:(vm_compute; congruence) ltac:(vm_compute; congruence)).
    rewrite decide_False in HX by lia. exact HX.
Defined.

Lemma demo_solid : solid demo_file 0%fin 0 5.
Proof.
  intros o Ho. replace (o / BSIZE) with 0 by (unfold BSIZE; Z.to_euclidean_division_equations; lia).
  rewrite demo_slot by done. cbn. lia.
Qed.

Lemma demo_content : bytes (content demo_file 0%fin) 1 4 = [101; 108; 108; 111].
Proof. vm_compute. reflexivity. Qed.


Definition out_val {S : Type} (o : out S Z) : Z := match o with Ok t _ => t | _ => 0 end.

Lemma ok_value {S : Type} (o : out S Z) : out_val o = 2 -> exists s, o = Ok 2 s.
Proof. unfold out_val. destruct o as [t s| | | |]; intros E; try discriminate. exists s. by rewrite E. Qed.

Lemma demo_write : out_val (writei 0%fin (KernBuf [72; 69]) 0 2 demo_file) = 2.
Proof. vm_compute. reflexivity. Qed.

Lemma writei_readi_witness : exists s1 s2, writei 0%fin (KernBuf [72; 69]) 0 2 demo_file = Ok 2 s1 /\
  readi 0%fin (KernBuf []) 0 2 s1 = Ok (2, [72; 69]) s2.
Proof.
  destruct (ok_value _ demo_write) as [s1 Ew].
  pose proof (writei_readi 2%fin 0%fin (KernBuf [72; 69]) [72; 69] 0 [] demo_file s1 [] demo_file_ready (demo_src _)) as HX.
  rewrite demo_log_size, demo_size5 in HX.
  specialize (HX ltac:(lia) ltac:(vm_compute; congruence) ltac:(vm_compute; congruence) ltac:(vm_compute; congruence) ltac:(vm_compute; congruence) Ew).
  destruct HX as [s2 E2]. exists s1, s2. split; [exact Ew|exact E2].
Defined.

Lemma demo_fields : inode_fields (fino demo_file 0%fin).
Proof.
  rewrite demo_fino. split; cbn [demo_inode i_type i_major i_minor i_nlink i_size i_addrs]; unfold T_FILE; [lia..|].
  split; [reflexivity|]. apply Forall_cons. split; [lia|]. apply Forall_replicate. lia.
Qed.

Lemma iupdate_roundtrip_witness : exists s', iupdate 0%fin demo_file = Ok tt s' /\
  i_addrs (get_dinode (dinode_off 2) (fv s' 32) inode0) = 46 :: replicate 12 0.
Proof.
  destruct (iupdate_roundtrip 2%fin 0%fin demo_file [] demo_file_inv demo_file_ok demo_file_layout demo_fields) as (s' & E & Hg & _);
    [cbn; lia|rewrite demo_log_size; cbn; lia|].
  exists s'. split; [exact E|]. specialize (Hg inode0). rewrite demo_fino in Hg. change (IBLOCK (i_inum demo_inode) (sb demo_file)) with 32 in Hg.
  change (i_inum demo_inode) with 2 in Hg. rewrite Hg. reflexivity.
Defined.
