(* ===== verification/File.v ===== *)
(** * Files (kernel/file.c, kernel/file.h, pipealloc of kernel/pipe.c)

    The state of the whole kernel: the file table, the pipes (by the address
    of their page), the device switch and the interrupt controller on top of
    the file system. *)

From S2P Require Import Prelude Riscv Memory Spinlock Kalloc Vm Tty Proc ProcSpec Sleeplock Uart Console Pipe Bio Block Log Fs.

Inductive filetype := FD_NONE | FD_PIPE | FD_INODE | FD_DEVICE.

#[export] Instance filetype_eq_dec : EqDecision filetype.
Proof. solve_decision. Defined.

Record file := File {
  fl_type : filetype;
  fl_ref : Z;
  fl_readable : bool;
  fl_writable : bool;
  fl_pipe : Z;
  fl_ip : option (fin 50);
  fl_off : Z;
  fl_major : Z
}.

Definition with_fl_ref (x : Z) (f : file) : file :=
  File f.(fl_type) x f.(fl_readable) f.(fl_writable) f.(fl_pipe) f.(fl_ip) f.(fl_off) f.(fl_major).
Definition with_fl_type (x : filetype) (f : file) : file :=
  File x f.(fl_ref) f.(fl_readable) f.(fl_writable) f.(fl_pipe) f.(fl_ip) f.(fl_off) f.(fl_major).
Definition with_fl_mode (r w : bool) (f : file) : file :=
  File f.(fl_type) f.(fl_ref) r w f.(fl_pipe) f.(fl_ip) f.(fl_off) f.(fl_major).
Definition with_fl_pipe (x : Z) (f : file) : file :=
  File f.(fl_type) f.(fl_ref) f.(fl_readable) f.(fl_writable) x f.(fl_ip) f.(fl_off) f.(fl_major).
Definition with_fl_ip (x : option (fin 50)) (f : file) : file :=
  File f.(fl_type) f.(fl_ref) f.(fl_readable) f.(fl_writable) f.(fl_pipe) x f.(fl_off) f.(fl_major).
Definition with_fl_off (x : Z) (f : file) : file :=
  File f.(fl_type) f.(fl_ref) f.(fl_readable) f.(fl_writable) f.(fl_pipe) f.(fl_ip) x f.(fl_major).
Definition with_fl_major (x : Z) (f : file) : file :=
  File f.(fl_type) f.(fl_ref) f.(fl_readable) f.(fl_writable) f.(fl_pipe) f.(fl_ip) f.(fl_off) x.

Definition file0 : file := File FD_NONE 0 false false 0 None 0 0.

(** The read and write functions of an entry of [devsw]; the console's are
    the only ones there are. *)
Inductive devfns := ConsoleDev.
Definition CONSOLE : Z := 1.

Record ker (D : Type) := Ker {
  k_f : fsst D;
  ft_lock : spinlock;
  files : vec file 100;
  pipes : tmap pipe;
  devsw : vec (option devfns) 10;
  (** the registers written, and the interrupts to be claimed *)
  plic : gmap Z Z;
  plic_irqs : list Z;
  started : Z;
  (** forkret's [first] *)
  first : Z
}.
Arguments Ker {D}.
Arguments k_f {D}.
Arguments ft_lock {D}.
Arguments files {D}.
Arguments pipes {D}.
Arguments devsw {D}.
Arguments plic {D}.
Arguments plic_irqs {D}.
Arguments started {D}.
Arguments first {D}.

Section Lenses.
Context {D : Type}.
Definition k_f_l : lens (ker D) (fsst D) := Lens k_f (fun x s =>
  Ker x s.(ft_lock) s.(files) s.(pipes) s.(devsw) s.(plic) s.(plic_irqs) s.(started) s.(first)).
Definition ft_lock_l : lens (ker D) spinlock := Lens ft_lock (fun x s =>
  Ker s.(k_f) x s.(files) s.(pipes) s.(devsw) s.(plic) s.(plic_irqs) s.(started) s.(first)).
Definition files_l : lens (ker D) (vec file 100) := Lens files (fun x s =>
  Ker s.(k_f) s.(ft_lock) x s.(pipes) s.(devsw) s.(plic) s.(plic_irqs) s.(started) s.(first)).
Definition pipes_l : lens (ker D) (tmap pipe) := Lens pipes (fun x s =>
  Ker s.(k_f) s.(ft_lock) s.(files) x s.(devsw) s.(plic) s.(plic_irqs) s.(started) s.(first)).
Definition devsw_l : lens (ker D) (vec (option devfns) 10) := Lens devsw (fun x s =>
  Ker s.(k_f) s.(ft_lock) s.(files) s.(pipes) x s.(plic) s.(plic_irqs) s.(started) s.(first)).
Definition plic_l : lens (ker D) (gmap Z Z) := Lens plic (fun x s =>
  Ker s.(k_f) s.(ft_lock) s.(files) s.(pipes) s.(devsw) x s.(plic_irqs) s.(started) s.(first)).
Definition plic_irqs_l : lens (ker D) (list Z) := Lens plic_irqs (fun x s =>
  Ker s.(k_f) s.(ft_lock) s.(files) s.(pipes) s.(devsw) s.(plic) x s.(started) s.(first)).
Definition started_l : lens (ker D) Z := Lens started (fun x s =>
  Ker s.(k_f) s.(ft_lock) s.(files) s.(pipes) s.(devsw) s.(plic) s.(plic_irqs) x s.(first)).
Definition first_l : lens (ker D) Z := Lens first (fun x s =>
  Ker s.(k_f) s.(ft_lock) s.(files) s.(pipes) s.(devsw) s.(plic) s.(plic_irqs) s.(started) x).
Definition file_l (f : fin 100) : lens (ker D) file := lcomp files_l (vec_l f).
Definition pipe_l (pi : Z) : lens (ker D) pipe := lcomp pipes_l (tmap_l pi).

#[export] Instance k_f_laws : LensLaws k_f_l.
Proof. by split; intros; destruct s. Qed.
#[export] Instance ft_lock_laws : LensLaws ft_lock_l.
Proof. by split; intros; destruct s. Qed.
#[export] Instance files_laws : LensLaws files_l.
Proof. by split; intros; destruct s. Qed.
#[export] Instance pipes_laws : LensLaws pipes_l.
Proof. by split; intros; destruct s. Qed.
#[export] Instance ker_HasProcs : HasProcs (ker D) := lcomp k_f_l the_pst.
#[export] Instance ker_pst_laws : LensLaws (the_pst (S := ker D)).
Proof. unfold the_pst, ker_HasProcs. apply _. Qed.
#[export] Instance k_f_ft_lock : LensDisjoint k_f_l ft_lock_l.
Proof. by split. Qed.
#[export] Instance k_f_files : LensDisjoint k_f_l files_l.
Proof. by split. Qed.
#[export] Instance k_f_pipes : LensDisjoint k_f_l pipes_l.
Proof. by split. Qed.
#[export] Instance ft_lock_files : LensDisjoint ft_lock_l files_l.
Proof. by split. Qed.
#[export] Instance ker_pst_ft_lock : LensDisjoint (the_pst (S := ker D)) ft_lock_l.
Proof. unfold the_pst, ker_HasProcs. apply _. Qed.
#[export] Instance ker_pst_files : LensDisjoint (the_pst (S := ker D)) files_l.
Proof. unfold the_pst, ker_HasProcs. apply _. Qed.
#[export] Instance ker_pst_pipe pi : LensDisjoint (the_pst (S := ker D)) (pipe_l pi).
Proof. unfold the_pst, ker_HasProcs, pipe_l. apply _. Qed.
#[export] Instance pipe_laws pi : LensLaws (pipe_l pi).
Proof. unfold pipe_l. apply _. Qed.
End Lenses.

(** What is on the kernel stack under a variable that the code does not
    initialise. *)
Class StackByte := stack_byte : Z.

(** [struct stat] as bytes: 4 bytes of padding come before the 8-byte size. *)
Definition stat_bytes `{StackByte} (st : stat) : list Z :=
  le_bytes 4 st.(st_dev) ++ le_bytes 4 st.(st_ino) ++ le_bytes 2 st.(st_type) ++ le_bytes 2 st.(st_nlink) ++
  replicate 4 stack_byte ++ le_bytes 8 st.(st_size).

Section File.
Context {D : Type} `{DiskDriver D} `{Patience} `{Image} `{StackByte}.

(** Operations of the layers below. *)
Definition kfs {A : Type} (m : M (fsst D) A) : M (ker D) A := zoom k_f_l m.
Definition klog {A : Type} (m : M (lgst D) A) : M (ker D) A := zoom k_f_l (zoom f_l_l m).
Definition kproc {A : Type} (m : M pst A) : M (ker D) A := zoom the_pst m.
Definition kmem {A : Type} (m : M kst A) : M (ker D) A := zoom the_pst (zoom p_k_l m).
Definition kino (i : fin 50) : lens (ker D) inode := lcomp k_f_l (ino_l i).

Definition all_files : list (fin 100) := enum (fin 100).

Definition fileinit : M (ker D) unit := set ft_lock_l (initlock "ftable").

Definition filealloc : M (ker D) (option (fin 100)) :=
  acquire ft_lock_l ;;
  r <- for_each all_files (fun f =>
    x <- get (file_l f) ;;
    if x.(fl_ref) =? 0 then
      update (file_l f) (with_fl_ref 1) ;;
      release ft_lock_l ;;
      ret (Some f)
    else ret None) ;;
  match r with
  | Some f => ret (Some f)
  | None =>
      release ft_lock_l ;;
      ret None
  end.

Definition filedup (f : fin 100) : M (ker D) (fin 100) :=
  acquire ft_lock_l ;;
  x <- get (file_l f) ;;
  if x.(fl_ref) <? 1 then panic "filedup"
  else
    update (file_l f) (fun x => with_fl_ref (s32 (x.(fl_ref) + 1)) x) ;;
    release ft_lock_l ;;
    ret f.

Definition fileclose (f : fin 100) : M (ker D) unit :=
  acquire ft_lock_l ;;
  x <- get (file_l f) ;;
  if x.(fl_ref) <? 1 then panic "fileclose"
  else
    update (file_l f) (fun x => with_fl_ref (x.(fl_ref) - 1) x) ;;
    ff <- get (file_l f) ;;
    if 0 <? ff.(fl_ref) then release ft_lock_l
    else
      update (file_l f) (fun x => with_fl_type FD_NONE (with_fl_ref 0 x)) ;;
      release ft_lock_l ;;
      match ff.(fl_type) with
      | FD_PIPE => pipeclose ff.(fl_pipe) (pipe_l ff.(fl_pipe)) ff.(fl_writable)
      | FD_INODE | FD_DEVICE =>
          klog begin_op ;;
          ip <- deref ff.(fl_ip) ;;
          kfs (iput ip) ;;
          klog end_op
      | FD_NONE => ret tt
      end.

Definition filestat (f : fin 100) (addr : Z) : M (ker D) Z :=
  p <- kproc myproc ;;
  x <- get (file_l f) ;;
  if decide (x.(fl_type) = FD_INODE \/ x.(fl_type) = FD_DEVICE) then
    kfs (ilock x.(fl_ip)) ;;
    ip <- deref x.(fl_ip) ;;
    st <- kfs (stati ip) ;;
    kfs (iunlock (Some ip)) ;;
    p <- deref p ;;
    y <- kproc (get (proc_l p)) ;;
    r <- kmem (copyout y.(p_pagetable) addr (stat_bytes st) 24) ;;
    if r <? 0 then ret (-1) else ret 0
  else ret (-1).

(** [devsw[major]], if the number is one of a device and the entry is set. *)
Definition device (major : Z) (s : ker D) : option devfns :=
  if (major <? 0) || (NDEV <=? major) then None
  else default None (vec_to_list s.(devsw) !! Z.to_nat major).

Definition fileread (f : fin 100) (addr n : Z) : M (ker D) Z :=
  x <- get (file_l f) ;;
  if negb x.(fl_readable) then ret (-1)
  else
    match x.(fl_type) with
    | FD_PIPE => piperead x.(fl_pipe) (pipe_l x.(fl_pipe)) addr n
    | FD_DEVICE =>
        d <- gets (device x.(fl_major)) ;;
        match d with
        | None => ret (-1)
        | Some ConsoleDev => kproc (consoleread (UserAddr addr) n)
        end
    | FD_INODE =>
        kfs (ilock x.(fl_ip)) ;;
        ip <- deref x.(fl_ip) ;;
        off <- gets (fun s => (view (file_l f) s).(fl_off)) ;;
        r <- kfs (readi ip (UserAddr addr) off (u32 n)) ;;
        (if 0 <? r.1 then update (file_l f) (fun x => with_fl_off (u32 (x.(fl_off) + r.1)) x) else ret tt) ;;
        kfs (iunlock (Some ip)) ;;
        ret r.1
    | FD_NONE => panic "fileread"
    end.

Definition max_write : Z := (MAXOPBLOCKS - 1 - 1 - 2) / 2 * BSIZE.

(** One transaction of a write: [i] bytes have been written. *)
Definition filewrite_body (f : fin 100) (ip : option (fin 50)) (addr n i : Z) : M (ker D) (Z + Z) :=
  if negb (i <? n) then ret (inr i)
  else
    let n1 := if max_write <? n - i then max_write else n - i in
    klog begin_op ;;
    kfs (ilock ip) ;;
    j <- deref ip ;;
    off <- gets (fun s => (view (file_l f) s).(fl_off)) ;;
    r <- kfs (writei j (UserAddr (u64 (addr + i))) off n1) ;;
    (if 0 <? r then update (file_l f) (fun x => with_fl_off (u32 (x.(fl_off) + r)) x) else ret tt) ;;
    kfs (iunlock ip) ;;
    klog end_op ;;
    if negb (r =? n1) then ret (inr i) else ret (inl (i + r)).

Definition filewrite (f : fin 100) (addr n : Z) : M (ker D) Z :=
  x <- get (file_l f) ;;
  if negb x.(fl_writable) then ret (-1)
  else
    match x.(fl_type) with
    | FD_PIPE => pipewrite x.(fl_pipe) (pipe_l x.(fl_pipe)) addr n
    | FD_DEVICE =>
        d <- gets (device x.(fl_major)) ;;
        match d with
        | None => ret (-1)
        | Some ConsoleDev => kproc (consolewrite (UserAddr addr) n)
        end
    | FD_INODE =>
        i <- loop (Z.to_nat (n / max_write) + 2) (filewrite_body f x.(fl_ip) addr n) 0 ;;
        ret (if i =? n then n else -1)
    | FD_NONE => panic "filewrite"
    end.

(** ** pipealloc *)

(** The fresh pipe in the page that kalloc filled with 5. *)
Definition new_pipe : pipe := Pipe (initlock "pipe") (replicate 512 5) 0 0 1 1.

Definition pipealloc : M (ker D) (option (fin 100 * fin 100)) :=
  f0 <- filealloc ;;
  match f0 with
  | None => ret None
  | Some f0 =>
      f1 <- filealloc ;;
      match f1 with
      | None =>
          fileclose f0 ;;
          ret None
      | Some f1 =>
          pi <- kmem kalloc ;;
          if pi =? 0 then
            fileclose f0 ;;
            fileclose f1 ;;
            ret None
          else
            set (pipe_l pi) new_pipe ;;
            update (file_l f0) (fun x => with_fl_pipe pi (with_fl_mode true false (with_fl_type FD_PIPE x))) ;;
            update (file_l f1) (fun x => with_fl_pipe pi (with_fl_mode false true (with_fl_type FD_PIPE x))) ;;
            ret (Some (f0, f1))
      end
  end.

(** ** consoleinit *)

Definition consoleinit : M (ker D) unit :=
  kproc consoleinit_tty ;;
  update devsw_l (fun d => vinsert 1%fin (Some ConsoleDev) d).

End File.
