(* ===== verification/Sysarg.v ===== *)
(** * System call arguments (kernel/syscall.c, struct trapframe of
    kernel/proc.h)

    The trapframe is a page of kernel memory; a string argument comes back as
    the bytes copied. *)

From S2P Require Import Prelude Riscv Memory Spinlock Kalloc Vm Tty Proc ProcSpec Sleeplock Uart Console Pipe Bio Block Log Fs File.

(** Offsets in [struct trapframe]. *)
Definition TF_kernel_satp : Z := 0.
Definition TF_kernel_sp : Z := 8.
Definition TF_kernel_trap : Z := 16.
Definition TF_epc : Z := 24.
Definition TF_kernel_hartid : Z := 32.
Definition TF_sp : Z := 48.
Definition TF_a0 : Z := 112.
Definition TF_a1 : Z := 120.
Definition TF_a7 : Z := 168.
Definition TF_size : Z := 288.

(** [safestrcpy(p->name, s, sizeof(p->name))] *)
Definition set_name (s : list Z) (x : proc) : proc := with_name (put_at 0 (safestrcpy s 16) x.(p_name)) x.

Section Sysarg.
Context {D : Type} `{DiskDriver D} `{Patience} `{Image} `{StackByte}.

(** [myproc()], used through the pointer, and a process's fields. *)
Definition kme : M (ker D) (fin 64) := kproc myprocp.
Definition kget (p : fin 64) : M (ker D) proc := kproc (get (proc_l p)).
Definition kset (p : fin 64) (f : proc -> proc) : M (ker D) unit := kproc (update (proc_l p) f).

(** A field of [p->trapframe]. *)
Definition tf_get (p : fin 64) (off : Z) : M (ker D) Z :=
  x <- kget p ;;
  kmem (gets (fun s => load64 s.(k_mem) (x.(p_trapframe) + off))).
Definition tf_set (p : fin 64) (off v : Z) : M (ker D) unit :=
  x <- kget p ;;
  kmem (update mem_l (fun m => store64 m (x.(p_trapframe) + off) (u64 v))).

(** The result and the word. *)
Definition fetchaddr (addr : Z) : M (ker D) (Z * Z) :=
  p <- kme ;;
  x <- kget p ;;
  if (x.(p_sz) <=? addr) || (x.(p_sz) <? u64 (addr + 8)) then ret (-1, 0)
  else
    r <- kmem (copyin x.(p_pagetable) addr 8) ;;
    if negb (r.1 =? 0) then ret (-1, le_val r.2) else ret (0, le_val r.2).

(** The result and the bytes left in the buffer. *)
Definition fetchstr (addr max : Z) : M (ker D) (Z * list Z) :=
  p <- kme ;;
  x <- kget p ;;
  r <- kmem (copyinstr x.(p_pagetable) addr max) ;;
  if r.1 <? 0 then ret (-1, r.2) else ret (strlen r.2, r.2).

Definition argraw (n : Z) : M (ker D) Z :=
  p <- kme ;;
  if (0 <=? n) && (n <=? 5) then tf_get p (TF_a0 + 8 * n) else panic "argraw".

Definition argint (n : Z) : M (ker D) Z := x <- argraw n ;; ret (s32 x).
Definition argaddr (n : Z) : M (ker D) Z := argraw n.

(** A path: the string in the buffer, when there is one. *)
Definition argstr (n max : Z) : M (ker D) (option (list Z)) :=
  addr <- argaddr n ;;
  r <- fetchstr addr max ;;
  ret (if r.1 <? 0 then None else Some (cstr r.2)).

End Sysarg.
