(* ===== verification/Exec.v ===== *)
(** * exec (kernel/exec.c, kernel/elf.h)

    Loading a program: the headers and segments of its file, the stack with the
    arguments, and the switch to the new address space. *)

From S2P Require Import Prelude Riscv Memory Spinlock Kalloc Vm Tty Proc ProcSpec Sleeplock Uart Console Pipe Bio Block Log Fs File Sysarg.

Definition ELF_MAGIC : Z := 0x464C457F.
Definition ELF_PROG_LOAD : Z := 1.

(** The fields of [struct elfhdr] and [struct proghdr] that exec uses. *)
Record elfhdr := Elfhdr { eh_magic : Z; eh_entry : Z; eh_phoff : Z; eh_phnum : Z }.
Definition get_elfhdr (d : list Z) : elfhdr :=
  Elfhdr (get_le 4 d 0) (get_le 8 d 24) (get_le 8 d 32) (get_le 2 d 56).

Record proghdr := Proghdr { ph_type : Z; ph_flags : Z; ph_off : Z; ph_vaddr : Z; ph_filesz : Z; ph_memsz : Z }.
Definition get_proghdr (d : list Z) : proghdr :=
  Proghdr (get_le 4 d 0) (get_le 4 d 4) (get_le 8 d 8) (get_le 8 d 16) (get_le 8 d 32) (get_le 8 d 40).

Definition flags2perm (flags : Z) : Z :=
  let perm := if nz (Z.land flags 1) then PTE_X else 0 in
  if nz (Z.land flags 2) then Z.lor perm PTE_W else perm.

(** The part of the path after its last slash. *)
Fixpoint last_elem (last s : list Z) : list Z :=
  match s with
  | [] => last
  | c :: s' => last_elem (if c =? SLASH then s' else last) s'
  end.

Section Exec.
Context {D : Type} `{DiskDriver D} `{Patience} `{Image} `{StackByte}.

Definition loadseg_body (pagetable va : Z) (ip : fin 50) (offset sz i : Z) : M (ker D) (Z + Z) :=
  if i <? sz then
    pa <- kmem (walkaddr pagetable (u64 (va + i))) ;;
    if pa =? 0 then panic "loadseg: address should exist"
    else
      let n := if sz - i <? PGSIZE then sz - i else PGSIZE in
      r <- kfs (readi ip (KernAddr pa) (u32 (offset + i)) n) ;;
      if negb (u32 r.1 =? n) then ret (inr (-1)) else ret (inl (u32 (i + PGSIZE)))
  else ret (inr 0).

Definition loadseg (pagetable va : Z) (ip : fin 50) (offset sz : Z) : M (ker D) Z :=
  loop (Z.to_nat (sz / PGSIZE) + 2) (loadseg_body pagetable va ip offset sz) 0.

(** One program header.  The state of the loop is the index, the offset and
    the size of the new image; leaving it with [false] is [goto bad]. *)
Definition load_body (pagetable : Z) (ip : fin 50) (phnum : Z) (st : Z * Z * Z) :
    M (ker D) ((Z * Z * Z) + (bool * Z)) :=
  let '(i, off, sz) := st in
  if negb (i <? phnum) then ret (inr (true, sz))
  else
    r <- kfs (readi ip (KernBuf (replicate 56 stack_byte)) (u32 off) 56) ;;
    let ph := get_proghdr r.2 in
    if negb (r.1 =? 56) then ret (inr (false, sz))
    else if negb (ph.(ph_type) =? ELF_PROG_LOAD) then ret (inl (i + 1, s32 (off + 56), sz))
    else if ph.(ph_memsz) <? ph.(ph_filesz) then ret (inr (false, sz))
    else if u64 (ph.(ph_vaddr) + ph.(ph_memsz)) <? ph.(ph_vaddr) then ret (inr (false, sz))
    else if negb (ph.(ph_vaddr) mod PGSIZE =? 0) then ret (inr (false, sz))
    else
      sz1 <- kmem (uvmalloc pagetable sz (u64 (ph.(ph_vaddr) + ph.(ph_memsz))) (flags2perm ph.(ph_flags))) ;;
      if sz1 =? 0 then ret (inr (false, sz))
      else
        r <- loadseg pagetable ph.(ph_vaddr) ip (u32 ph.(ph_off)) (u32 ph.(ph_filesz)) ;;
        if r <? 0 then ret (inr (false, sz1))
        else ret (inl (i + 1, s32 (off + 56), sz1)).

(** The string at a kernel address; argument strings are in pages. *)
Definition kstr (a : Z) : M (ker D) (list Z) :=
  kmem (gets (fun s => cstr (ld_bytes s.(k_mem) a (Z.to_nat PGSIZE)))).

(** The loop that pushes the argument strings: the stack pointer and the
    addresses pushed so far; [None] is [goto bad]. *)
Fixpoint push_args (pagetable stackbase : Z) (argv : list Z) (sp : Z) (ustack : list Z) :
    M (ker D) (option (Z * list Z)) :=
  match argv with
  | [] => ret (Some (sp, ustack))
  | a :: argv' =>
      if MAXARG <=? Z.of_nat (length ustack) then ret None
      else
        s <- kstr a ;;
        let sp := u64 (sp - (strlen s + 1)) in
        let sp := sp - sp mod 16 in
        if sp <? stackbase then ret None
        else
          r <- kmem (copyout pagetable sp (s ++ [0]) (strlen s + 1)) ;;
          if r <? 0 then ret None
          else push_args pagetable stackbase argv' sp (ustack ++ [sp])
  end.

Definition exec_bad (pagetable sz : Z) (ip : option (fin 50)) : M (ker D) Z :=
  (if nz pagetable then kmem (proc_freepagetable pagetable sz) else ret tt) ;;
  match ip with
  | Some i => kfs (iunlockput i) ;; klog end_op
  | None => ret tt
  end ;;
  ret (-1).

(** From the end of the loading to the new image of the process. *)
Definition exec_commit (path argv : list Z) (elf : elfhdr) (pagetable sz : Z) : M (ker D) Z :=
  p <- kme ;;
  x <- kget p ;;
  let oldsz := x.(p_sz) in
  let sz := PGROUNDUP sz in
  sz1 <- kmem (uvmalloc pagetable sz (u64 (sz + 2 * PGSIZE)) PTE_W) ;;
  if sz1 =? 0 then exec_bad pagetable sz None
  else
    let sz := sz1 in
    kmem (uvmclear pagetable (u64 (sz - 2 * PGSIZE))) ;;
    let stackbase := u64 (sz - PGSIZE) in
    r <- push_args pagetable stackbase argv sz [] ;;
    match r with
    | None => exec_bad pagetable sz None
    | Some (sp, ustack) =>
        let argc := Z.of_nat (length ustack) in
        if MAXARG <=? argc then undefined
        else
          let sp := u64 (sp - (argc + 1) * 8) in
          let sp := sp - sp mod 16 in
          if sp <? stackbase then exec_bad pagetable sz None
          else
            r <- kmem (copyout pagetable sp (concat (le_bytes 8 <$> (ustack ++ [0]))) ((argc + 1) * 8)) ;;
            if r <? 0 then exec_bad pagetable sz None
            else
              tf_set p TF_a1 sp ;;
              kset p (set_name (last_elem path path)) ;;
              oldpagetable <- (x <- kget p ;; ret x.(p_pagetable)) ;;
              kset p (fun x => with_sz sz (with_pagetable pagetable x)) ;;
              tf_set p TF_epc elf.(eh_entry) ;;
              tf_set p TF_sp sp ;;
              kmem (proc_freepagetable oldpagetable oldsz) ;;
              ret argc
    end.

Definition exec (path argv : list Z) : M (ker D) Z :=
  p <- kme ;;
  klog begin_op ;;
  ip <- kfs (namei path) ;;
  match ip with
  | None => klog end_op ;; ret (-1)
  | Some ip =>
      kfs (ilock (Some ip)) ;;
      r <- kfs (readi ip (KernBuf (replicate 64 stack_byte)) 0 64) ;;
      let elf := get_elfhdr r.2 in
      if negb (r.1 =? 64) then exec_bad 0 0 (Some ip)
      else if negb (elf.(eh_magic) =? ELF_MAGIC) then exec_bad 0 0 (Some ip)
      else
        x <- kget p ;;
        pagetable <- kmem (proc_pagetable x.(p_trapframe)) ;;
        if pagetable =? 0 then exec_bad 0 0 (Some ip)
        else
          r <- loop (S (Z.to_nat elf.(eh_phnum)))
                 (load_body pagetable ip elf.(eh_phnum)) (0, s32 elf.(eh_phoff), 0) ;;
          let '(ok, sz) := r in
          if ok : bool then
            kfs (iunlockput ip) ;;
            klog end_op ;;
            exec_commit path argv elf pagetable sz
          else exec_bad pagetable sz (Some ip)
  end.

End Exec.
