(* ===== verification/Sysfile.v ===== *)
(** * File system calls (kernel/sysfile.c, kernel/fcntl.h)

    Each call fetches its arguments from the trapframe and runs the operations
    of File, Fs, Pipe and Exec inside a transaction of the log. *)

From S2P Require Import Prelude Riscv Memory Spinlock Kalloc Vm Tty Proc ProcSpec Sleeplock Uart Console Pipe Bio Block Log Fs File Sysarg Exec.

Definition O_RDONLY : Z := 0x000.
Definition O_WRONLY : Z := 0x001.
Definition O_RDWR : Z := 0x002.
Definition O_CREATE : Z := 0x200.
Definition O_TRUNC : Z := 0x400.

Definition all_fds : list (fin 16) := enum (fin 16).

Section Sysfile.
Context {D : Type} `{DiskDriver D} `{Patience} `{Image} `{StackByte}.

Definition is_null {A : Type} (x : option A) : bool := match x with None => true | Some _ => false end.

(** ** Descriptors *)

(** The descriptor and its file. *)
Definition argfd (n : Z) : M (ker D) (option (fin 16 * fin 100)) :=
  fd <- argint n ;;
  if (fd <? 0) || (NOFILE <=? fd) then ret None
  else
    p <- kme ;;
    x <- kget p ;;
    match decide (Z.to_nat fd < 16)%nat with
    | left H => ret (option_map (pair (nat_to_fin H)) (x.(p_ofile) !!! nat_to_fin H))
    | right _ => ret None
    end.

Definition set_ofile (p : fin 64) (fd : fin 16) (f : option (fin 100)) : M (ker D) unit :=
  kset p (fun x => with_ofile (vinsert fd f x.(p_ofile)) x).

Definition fdalloc (f : fin 100) : M (ker D) (option (fin 16)) :=
  p <- kme ;;
  for_each all_fds (fun fd =>
    x <- kget p ;;
    if is_null (x.(p_ofile) !!! fd) then
      set_ofile p fd (Some f) ;;
      ret (Some fd)
    else ret None).

Definition fdval (fd : fin 16) : Z := Z.of_nat (fin_to_nat fd).

Definition sys_dup : M (ker D) Z :=
  r <- argfd 0 ;;
  match r with
  | None => ret (-1)
  | Some (_, f) =>
      fd <- fdalloc f ;;
      match fd with
      | None => ret (-1)
      | Some fd =>
          filedup f ;;
          ret (fdval fd)
      end
  end.

Definition sys_read : M (ker D) Z :=
  p <- argaddr 1 ;;
  n <- argint 2 ;;
  r <- argfd 0 ;;
  match r with
  | None => ret (-1)
  | Some (_, f) => fileread f p n
  end.

Definition sys_write : M (ker D) Z :=
  p <- argaddr 1 ;;
  n <- argint 2 ;;
  r <- argfd 0 ;;
  match r with
  | None => ret (-1)
  | Some (_, f) => filewrite f p n
  end.

Definition sys_close : M (ker D) Z :=
  r <- argfd 0 ;;
  match r with
  | None => ret (-1)
  | Some (fd, f) =>
      p <- kme ;;
      set_ofile p fd None ;;
      fileclose f ;;
      ret 0
  end.

Definition sys_fstat : M (ker D) Z :=
  st <- argaddr 1 ;;
  r <- argfd 0 ;;
  match r with
  | None => ret (-1)
  | Some (_, f) => filestat f st
  end.

(** ** Links *)

(** A buffer that the code has not initialised. *)
Definition stack_name : list Z := replicate 14 stack_byte.

(** [ip->nlink += d] *)
Definition add_nlink (i : fin 50) (d : Z) : M (ker D) unit :=
  update (kino i) (fun x => with_i_nlink (s16 (x.(i_nlink) + d)) x).

Definition link_bad (ip : fin 50) : M (ker D) Z :=
  kfs (ilock (Some ip)) ;;
  add_nlink ip (-1) ;;
  kfs (iupdate ip) ;;
  kfs (iunlockput ip) ;;
  klog end_op ;;
  ret (-1).

Definition link_to (old new : list Z) : M (ker D) Z :=
  klog begin_op ;;
  ip <- kfs (namei old) ;;
  match ip with
  | None => klog end_op ;; ret (-1)
  | Some ip =>
      kfs (ilock (Some ip)) ;;
      x <- get (kino ip) ;;
      if x.(i_type) =? T_DIR then
        kfs (iunlockput ip) ;;
        klog end_op ;;
        ret (-1)
      else
        add_nlink ip 1 ;;
        kfs (iupdate ip) ;;
        kfs (iunlock (Some ip)) ;;
        dp <- kfs (nameiparent new stack_name) ;;
        match dp with
        | None => link_bad ip
        | Some (dp, name) =>
            kfs (ilock (Some dp)) ;;
            d <- get (kino dp) ;;
            x <- get (kino ip) ;;
            r <- (if negb (d.(i_dev) =? x.(i_dev)) then ret (-1) else kfs (dirlink dp name x.(i_inum))) ;;
            if r <? 0 then
              kfs (iunlockput dp) ;;
              link_bad ip
            else
              kfs (iunlockput dp) ;;
              kfs (iput ip) ;;
              klog end_op ;;
              ret 0
        end
  end.

Definition sys_link : M (ker D) Z :=
  old <- argstr 0 MAXPATH ;;
  match old with
  | None => ret (-1)
  | Some old =>
      new <- argstr 1 MAXPATH ;;
      match new with
      | None => ret (-1)
      | Some new => link_to old new
      end
  end.

Definition isdirempty_body (dp : fin 50) (off : Z) : M (ker D) (Z + bool) :=
  x <- get (kino dp) ;;
  if off <? x.(i_size) then
    r <- kfs (readi dp (KernBuf (replicate 16 stack_byte)) off 16) ;;
    if negb (r.1 =? 16) then panic "isdirempty: readi"
    else if negb (de_inum r.2 =? 0) then ret (inr false)
    else ret (inl (off + 16))
  else ret (inr true).

Definition isdirempty (dp : fin 50) : M (ker D) bool :=
  x <- get (kino dp) ;;
  loop (Z.to_nat (x.(i_size) / 16) + 2) (isdirempty_body dp) 32.

Definition unlink_bad (dp : fin 50) : M (ker D) Z :=
  kfs (iunlockput dp) ;;
  klog end_op ;;
  ret (-1).

Definition unlink (path : list Z) : M (ker D) Z :=
  klog begin_op ;;
  r <- kfs (nameiparent path stack_name) ;;
  match r with
  | None => klog end_op ;; ret (-1)
  | Some (dp, name) =>
      kfs (ilock (Some dp)) ;;
      if (namecmp name (str ".") =? 0) || (namecmp name (str "..") =? 0) then unlink_bad dp
      else
        r <- kfs (dirlookup dp name) ;;
        match r with
        | None => unlink_bad dp
        | Some (ip, off) =>
            kfs (ilock (Some ip)) ;;
            x <- get (kino ip) ;;
            if x.(i_nlink) <? 1 then panic "unlink: nlink < 1"
            else
              full <- (if x.(i_type) =? T_DIR then e <- isdirempty ip ;; ret (negb e) else ret false) ;;
              if full : bool then
                kfs (iunlockput ip) ;;
                unlink_bad dp
              else
                r <- kfs (writei dp (KernBuf (replicate 16 0)) off 16) ;;
                if negb (r =? 16) then panic "unlink: writei"
                else
                  x <- get (kino ip) ;;
                  (if x.(i_type) =? T_DIR then
                     add_nlink dp (-1) ;;
                     kfs (iupdate dp)
                   else ret tt) ;;
                  kfs (iunlockput dp) ;;
                  add_nlink ip (-1) ;;
                  kfs (iupdate ip) ;;
                  kfs (iunlockput ip) ;;
                  klog end_op ;;
                  ret 0
        end
  end.

Definition sys_unlink : M (ker D) Z :=
  path <- argstr 0 MAXPATH ;;
  match path with
  | None => ret (-1)
  | Some path => unlink path
  end.

(** ** Creation *)

Definition create_fail (ip dp : fin 50) : M (ker D) (option (fin 50)) :=
  update (kino ip) (with_i_nlink 0) ;;
  kfs (iupdate ip) ;;
  kfs (iunlockput ip) ;;
  kfs (iunlockput dp) ;;
  ret None.

(** A new inode in [dp]. *)
Definition create_new (dp : fin 50) (name : list Z) (type major minor : Z) : M (ker D) (option (fin 50)) :=
  d <- get (kino dp) ;;
  r <- kfs (ialloc d.(i_dev) type) ;;
  match r with
  | None =>
      kfs (iunlockput dp) ;;
      ret None
  | Some ip =>
      kfs (ilock (Some ip)) ;;
      update (kino ip) (fun x => with_i_nlink 1 (with_i_minor minor (with_i_major major x))) ;;
      kfs (iupdate ip) ;;
      x <- get (kino ip) ;;
      d <- get (kino dp) ;;
      r <- (if type =? T_DIR then
              r <- kfs (dirlink ip (str ".") x.(i_inum)) ;;
              if r <? 0 then ret r else kfs (dirlink ip (str "..") d.(i_inum))
            else ret 0) ;;
      if r <? 0 then create_fail ip dp
      else
        r <- kfs (dirlink dp name x.(i_inum)) ;;
        if r <? 0 then create_fail ip dp
        else
          (if type =? T_DIR then
             add_nlink dp 1 ;;
             kfs (iupdate dp)
           else ret tt) ;;
          kfs (iunlockput dp) ;;
          ret (Some ip)
  end.

Definition create (path : list Z) (type major minor : Z) : M (ker D) (option (fin 50)) :=
  r <- kfs (nameiparent path stack_name) ;;
  match r with
  | None => ret None
  | Some (dp, name) =>
      kfs (ilock (Some dp)) ;;
      r <- kfs (dirlookup dp name) ;;
      match r with
      | Some (ip, _) =>
          kfs (iunlockput dp) ;;
          kfs (ilock (Some ip)) ;;
          x <- get (kino ip) ;;
          if (type =? T_FILE) && ((x.(i_type) =? T_FILE) || (x.(i_type) =? T_DEVICE)) then ret (Some ip)
          else
            kfs (iunlockput ip) ;;
            ret None
      | None => create_new dp name type major minor
      end
  end.

(** The inode to open, locked. *)
Definition open_inode (path : list Z) (omode : Z) : M (ker D) (option (fin 50)) :=
  if nz (Z.land omode O_CREATE) then create path T_FILE 0 0
  else
    r <- kfs (namei path) ;;
    match r with
    | None => ret None
    | Some ip =>
        kfs (ilock (Some ip)) ;;
        x <- get (kino ip) ;;
        if (x.(i_type) =? T_DIR) && negb (omode =? O_RDONLY) then
          kfs (iunlockput ip) ;;
          ret None
        else ret (Some ip)
    end.

Definition open_bad (ip : fin 50) : M (ker D) Z :=
  kfs (iunlockput ip) ;;
  klog end_op ;;
  ret (-1).

(** The file of the inode that is opened. *)
Definition open_file (f : fin 100) (ip : fin 50) (omode : Z) : M (ker D) unit :=
  x <- get (kino ip) ;;
  (if x.(i_type) =? T_DEVICE
   then update (file_l f) (fun y => with_fl_major x.(i_major) (with_fl_type FD_DEVICE y))
   else update (file_l f) (fun y => with_fl_off 0 (with_fl_type FD_INODE y))) ;;
  update (file_l f) (fun y =>
    with_fl_mode (negb (nz (Z.land omode O_WRONLY))) (nz (Z.land omode O_WRONLY) || nz (Z.land omode O_RDWR))
      (with_fl_ip (Some ip) y)) ;;
  if nz (Z.land omode O_TRUNC) && (x.(i_type) =? T_FILE) then kfs (itrunc ip) else ret tt.

Definition open (path : list Z) (omode : Z) : M (ker D) Z :=
  klog begin_op ;;
  r <- open_inode path omode ;;
  match r with
  | None => klog end_op ;; ret (-1)
  | Some ip =>
      x <- get (kino ip) ;;
      if (x.(i_type) =? T_DEVICE) && ((x.(i_major) <? 0) || (NDEV <=? x.(i_major))) then open_bad ip
      else
        f <- filealloc ;;
        match f with
        | None => open_bad ip
        | Some f =>
            fd <- fdalloc f ;;
            match fd with
            | None =>
                fileclose f ;;
                open_bad ip
            | Some fd =>
                open_file f ip omode ;;
                kfs (iunlock (Some ip)) ;;
                klog end_op ;;
                ret (fdval fd)
            end
        end
  end.

Definition sys_open : M (ker D) Z :=
  omode <- argint 1 ;;
  path <- argstr 0 MAXPATH ;;
  match path with
  | None => ret (-1)
  | Some path => open path omode
  end.

Definition made (r : option (fin 50)) : M (ker D) Z :=
  match r with
  | None => klog end_op ;; ret (-1)
  | Some ip =>
      kfs (iunlockput ip) ;;
      klog end_op ;;
      ret 0
  end.

Definition sys_mkdir : M (ker D) Z :=
  klog begin_op ;;
  path <- argstr 0 MAXPATH ;;
  r <- match path with None => ret None | Some path => create path T_DIR 0 0 end ;;
  made r.

Definition sys_mknod : M (ker D) Z :=
  klog begin_op ;;
  major <- argint 1 ;;
  minor <- argint 2 ;;
  path <- argstr 0 MAXPATH ;;
  r <- match path with None => ret None | Some path => create path T_DEVICE (s16 major) (s16 minor) end ;;
  made r.

Definition chdir_to (p : fin 64) (ip : fin 50) : M (ker D) Z :=
  kfs (ilock (Some ip)) ;;
  x <- get (kino ip) ;;
  if negb (x.(i_type) =? T_DIR) then
    kfs (iunlockput ip) ;;
    klog end_op ;;
    ret (-1)
  else
    kfs (iunlock (Some ip)) ;;
    y <- kget p ;;
    cwd <- deref y.(p_cwd) ;;
    kfs (iput cwd) ;;
    klog end_op ;;
    kset p (with_cwd (Some ip)) ;;
    ret 0.

Definition sys_chdir : M (ker D) Z :=
  p <- kme ;;
  klog begin_op ;;
  path <- argstr 0 MAXPATH ;;
  r <- match path with None => ret None | Some path => kfs (namei path) end ;;
  match r with
  | None => klog end_op ;; ret (-1)
  | Some ip => chdir_to p ip
  end.

(** ** exec *)

(** The argument pages allocated so far; [false] is [goto bad]. *)
Definition fetch_args_body (uargv : Z) (argv : list Z) : M (ker D) (list Z + (bool * list Z)) :=
  if MAXARG <=? Z.of_nat (length argv) then ret (inr (false, argv))
  else
    r <- fetchaddr (u64 (uargv + 8 * Z.of_nat (length argv))) ;;
    if r.1 <? 0 then ret (inr (false, argv))
    else if r.2 =? 0 then ret (inr (true, argv))
    else
      pg <- kmem kalloc ;;
      if pg =? 0 then ret (inr (false, argv))
      else
        s <- fetchstr r.2 PGSIZE ;;
        kmem (update mem_l (fun m => st_bytes m pg s.2)) ;;
        if s.1 <? 0 then ret (inr (false, argv ++ [pg])) else ret (inl (argv ++ [pg])).

Definition sys_exec : M (ker D) Z :=
  uargv <- argaddr 1 ;;
  path <- argstr 0 MAXPATH ;;
  match path with
  | None => ret (-1)
  | Some path =>
      r <- loop 33 (fetch_args_body uargv) [] ;;
      let '(ok, argv) := r in
      if ok : bool then
        r <- exec path argv ;;
        iterM argv (fun pg => kmem (kfree pg)) ;;
        ret r
      else
        iterM argv (fun pg => kmem (kfree pg)) ;;
        ret (-1)
  end.

(** ** pipe *)

Definition close_pair (rf wf : fin 100) : M (ker D) Z :=
  fileclose rf ;;
  fileclose wf ;;
  ret (-1).

Definition sys_pipe : M (ker D) Z :=
  p <- kme ;;
  fdarray <- argaddr 0 ;;
  r <- pipealloc ;;
  match r with
  | None => ret (-1)
  | Some (rf, wf) =>
      fd0 <- fdalloc rf ;;
      match fd0 with
      | None => close_pair rf wf
      | Some fd0 =>
          fd1 <- fdalloc wf ;;
          match fd1 with
          | None =>
              set_ofile p fd0 None ;;
              close_pair rf wf
          | Some fd1 =>
              x <- kget p ;;
              r <- kmem (copyout x.(p_pagetable) fdarray (le_bytes 4 (fdval fd0)) 4) ;;
              r <- (if r <? 0 then ret r
                    else kmem (copyout x.(p_pagetable) (u64 (fdarray + 4)) (le_bytes 4 (fdval fd1)) 4)) ;;
              if r <? 0 then
                set_ofile p fd0 None ;;
                set_ofile p fd1 None ;;
                close_pair rf wf
              else ret 0
          end
      end
  end.

End Sysfile.
