(* ===== verification/Sysproc.v ===== *)
(** * Processes and files, and the system call dispatcher (userinit, fork and
    exit of kernel/proc.c, kernel/sysproc.c, kernel/syscall.c, kernel/syscall.h) *)

From S2P Require Import Prelude Riscv Memory Spinlock Kalloc Vm Tty Proc ProcSpec Sleeplock Uart Console Pipe Bio Block Log Fs File Sysarg Exec Sysfile.

(** The program that calls exec of /init. *)
Definition initcode : list Z :=
  [0x17; 0x05; 0x00; 0x00; 0x13; 0x05; 0x45; 0x02;
   0x97; 0x05; 0x00; 0x00; 0x93; 0x85; 0x35; 0x02;
   0x93; 0x08; 0x70; 0x00; 0x73; 0x00; 0x00; 0x00;
   0x93; 0x08; 0x20; 0x00; 0x73; 0x00; 0x00; 0x00;
   0xef; 0xf0; 0x9f; 0xff; 0x2f; 0x69; 0x6e; 0x69;
   0x74; 0x00; 0x00; 0x24; 0x00; 0x00; 0x00; 0x00;
   0x00; 0x00; 0x00; 0x00].

(** System call numbers. *)
Inductive sysno :=
| SYS_fork | SYS_exit | SYS_wait | SYS_pipe | SYS_read | SYS_kill | SYS_exec | SYS_fstat | SYS_chdir
| SYS_dup | SYS_getpid | SYS_sbrk | SYS_sleep | SYS_uptime | SYS_open | SYS_write | SYS_mknod
| SYS_unlink | SYS_link | SYS_mkdir | SYS_close | SYS_trace | SYS_info.

(** Call numbers 1 to 23, in the order of kernel/syscall.h. *)
Definition all_sysno : list sysno :=
  [SYS_fork; SYS_exit; SYS_wait; SYS_pipe; SYS_read; SYS_kill; SYS_exec; SYS_fstat; SYS_chdir;
   SYS_dup; SYS_getpid; SYS_sbrk; SYS_sleep; SYS_uptime; SYS_open; SYS_write; SYS_mknod;
   SYS_unlink; SYS_link; SYS_mkdir; SYS_close; SYS_trace; SYS_info].

(** [num > 0 && num < NELEM(syscalls) && syscalls[num]] *)
Definition sysno_of (num : Z) : option sysno :=
  if 0 <? num then all_sysno !! Z.to_nat (num - 1) else None.

Definition syscall_name (c : sysno) : string :=
  match c with
  | SYS_fork => "sys_fork"
  | SYS_exit => "sys_exit"
  | SYS_wait => "sys_wait"
  | SYS_pipe => "sys_pipe"
  | SYS_read => "sys_read"
  | SYS_kill => "sys_kill"
  | SYS_exec => "sys_exec"
  | SYS_fstat => "sys_fstat"
  | SYS_chdir => "sys_chdir"
  | SYS_dup => "sys_dup"
  | SYS_getpid => "sys_getpid"
  | SYS_sbrk => "sys_sbrk"
  | SYS_sleep => "sys_sleep"
  | SYS_uptime => "sys_uptime"
  | SYS_open => "sys_open"
  | SYS_write => "sys_write"
  | SYS_mknod => "sys_mknod"
  | SYS_unlink => "sys_unlink"
  | SYS_link => "sys_link"
  | SYS_mkdir => "sys_mkdir"
  | SYS_close => "sys_close"
  | SYS_trace => "sys_trace"
  | SYS_info => "sys_info"
  end.

Section Sysproc.
Context {D : Type} `{DiskDriver D} `{Patience} `{Image} `{StackByte}.

(** ** proc.c above the file system *)

Definition userinit : M (ker D) unit :=
  np <- kproc allocproc ;;
  kproc (set initproc_l np) ;;
  p <- deref np ;;
  x <- kget p ;;
  kmem (uvmfirst x.(p_pagetable) initcode 52) ;;
  kset p (with_sz PGSIZE) ;;
  tf_set p TF_epc 0 ;;
  tf_set p TF_sp PGSIZE ;;
  kset p (set_name (str "initcode")) ;;
  cwd <- kfs (namei (str "/")) ;;
  kset p (with_cwd cwd) ;;
  kset p (with_state RUNNABLE) ;;
  kproc (release (proc_lock p)).

(** The child's descriptors: one more reference to each open file. *)
Definition fork_files (p np : fin 64) : M (ker D) unit :=
  iterM all_fds (fun fd =>
    x <- kget p ;;
    match x.(p_ofile) !!! fd with
    | None => ret tt
    | Some f =>
        f <- filedup f ;;
        set_ofile np fd (Some f)
    end).

Definition fork : M (ker D) Z :=
  p <- kme ;;
  r <- kproc allocproc ;;
  match r with
  | None => ret (-1)
  | Some np =>
      x <- kget p ;;
      y <- kget np ;;
      r <- kmem (uvmcopy x.(p_pagetable) y.(p_pagetable) x.(p_sz)) ;;
      if r <? 0 then
        kproc (freeproc np) ;;
        kproc (release (proc_lock np)) ;;
        ret (-1)
      else
        kset np (with_sz x.(p_sz)) ;;
        kmem (update mem_l (fun m =>
          st_bytes m y.(p_trapframe) (ld_bytes m x.(p_trapframe) (Z.to_nat TF_size)))) ;;
        tf_set np TF_a0 0 ;;
        fork_files p np ;;
        x <- kget p ;;
        cwd <- deref x.(p_cwd) ;;
        cwd <- kfs (idup cwd) ;;
        kset np (with_cwd (Some cwd)) ;;
        kset np (set_name x.(p_name)) ;;
        y <- kget np ;;
        kproc (release (proc_lock np)) ;;
        kproc (acquire wait_lock_l) ;;
        kset np (with_parent (Some p)) ;;
        kproc (release wait_lock_l) ;;
        kproc (acquire (proc_lock np)) ;;
        kset np (with_state RUNNABLE) ;;
        kproc (release (proc_lock np)) ;;
        ret y.(p_pid)
  end.

(** [for(int fd = 0; fd < NOFILE; fd++) ...] *)
Definition exit_files (p : fin 64) : M (ker D) unit :=
  iterM all_fds (fun fd =>
    x <- kget p ;;
    match x.(p_ofile) !!! fd with
    | None => ret tt
    | Some f =>
        fileclose f ;;
        set_ofile p fd None
    end).

Definition exit {A : Type} (status : Z) : M (ker D) A :=
  p <- kme ;;
  ip <- kproc (get initproc_l) ;;
  if decide (ip = Some p) then panic "init exiting"
  else
    exit_files p ;;
    klog begin_op ;;
    x <- kget p ;;
    cwd <- deref x.(p_cwd) ;;
    kfs (iput cwd) ;;
    klog end_op ;;
    kset p (with_cwd None) ;;
    kproc (acquire wait_lock_l) ;;
    kproc (reparent p) ;;
    x <- kget p ;;
    kproc (wakeup (match x.(p_parent) with Some q => chProc q | None => ch0 end)) ;;
    kproc (acquire (proc_lock p)) ;;
    kset p (fun x => with_state ZOMBIE (with_xstate status x)) ;;
    kproc (release wait_lock_l) ;;
    kproc sched ;;
    panic "zombie exit".

(** ** sysproc.c *)

Definition sys_exit : M (ker D) Z :=
  n <- argint 0 ;;
  exit n.

Definition sys_getpid : M (ker D) Z :=
  p <- kme ;;
  x <- kget p ;;
  ret x.(p_pid).

Definition sys_fork : M (ker D) Z := fork.

Definition sys_wait : M (ker D) Z :=
  p <- argaddr 0 ;;
  kproc (wait (Datatypes.S patience) p).

Definition sys_sbrk : M (ker D) Z :=
  n <- argint 0 ;;
  p <- kme ;;
  x <- kget p ;;
  r <- kproc (growproc n) ;;
  if r <? 0 then ret (-1) else ret x.(p_sz).

(** [true]: killed. *)
Definition sys_sleep_body (ticks0 n : Z) (_ : unit) : M pst (unit + bool) :=
  t <- get ticks_l ;;
  if u32 (t - ticks0) <? n then
    p <- myprocp ;;
    k <- killed p ;;
    if nz k then
      release tickslock_l ;;
      ret (inr true)
    else
      sleep chTicks tickslock_l ;;
      ret (inl tt)
  else ret (inr false).

Definition sys_sleep : M (ker D) Z :=
  n <- argint 0 ;;
  let n := if n <? 0 then 0 else n in
  kproc (
    acquire tickslock_l ;;
    ticks0 <- get ticks_l ;;
    k <- loop (Datatypes.S patience) (sys_sleep_body ticks0 n) tt ;;
    if k : bool then ret (-1)
    else
      release tickslock_l ;;
      ret 0).

Definition sys_kill : M (ker D) Z :=
  pid <- argint 0 ;;
  kproc (kill pid).

Definition sys_uptime : M (ker D) Z :=
  kproc (
    acquire tickslock_l ;;
    xticks <- get ticks_l ;;
    release tickslock_l ;;
    ret xticks).

Definition sys_trace : M (ker D) Z :=
  mask <- argint 0 ;;
  p <- kme ;;
  kset p (with_tracemask (u64 mask)) ;;
  ret 0.

(** [struct sysinfo] has 4 bytes of padding at its end. *)
Definition sys_info : M (ker D) Z :=
  a <- argaddr 0 ;;
  fmemory <- kmem kfmemory ;;
  active_proc <- kproc cprocnum ;;
  p <- kme ;;
  x <- kget p ;;
  r <- kmem (copyout x.(p_pagetable) a
               (le_bytes 8 fmemory ++ le_bytes 4 active_proc ++ replicate 4 stack_byte) 16) ;;
  if r <? 0 then ret (-1) else ret 0.

(** ** The dispatcher *)

Definition sys_call (c : sysno) : M (ker D) Z :=
  match c with
  | SYS_fork => sys_fork
  | SYS_exit => sys_exit
  | SYS_wait => sys_wait
  | SYS_pipe => sys_pipe
  | SYS_read => sys_read
  | SYS_kill => sys_kill
  | SYS_exec => sys_exec
  | SYS_fstat => sys_fstat
  | SYS_chdir => sys_chdir
  | SYS_dup => sys_dup
  | SYS_getpid => sys_getpid
  | SYS_sbrk => sys_sbrk
  | SYS_sleep => sys_sleep
  | SYS_uptime => sys_uptime
  | SYS_open => sys_open
  | SYS_write => sys_write
  | SYS_mknod => sys_mknod
  | SYS_unlink => sys_unlink
  | SYS_link => sys_link
  | SYS_mkdir => sys_mkdir
  | SYS_close => sys_close
  | SYS_trace => sys_trace
  | SYS_info => sys_info
  end.

Definition syscall : M (ker D) unit :=
  p <- kme ;;
  a7 <- tf_get p TF_a7 ;;
  let num := s32 a7 in
  match sysno_of num with
  | Some c =>
      r <- sys_call c ;;
      tf_set p TF_a0 r ;;
      x <- kget p ;;
      if Z.testbit x.(p_tracemask) num then
        a0 <- tf_get p TF_a0 ;;
        kproc (cprintf ("%d: syscall %s -> %d" ++ newline)
                 [AInt x.(p_pid); AStr (Some (str (syscall_name c))); AInt a0])
      else ret tt
  | None =>
      x <- kget p ;;
      kproc (cprintf ("%d %s: unknown sys call %d" ++ newline)
               [AInt x.(p_pid); AStr (Some x.(p_name)); AInt num]) ;;
      tf_set p TF_a0 (-1)
  end.

End Sysproc.
