(* ===== verification/Trap.v ===== *)
(** * Traps, interrupts and the start of the kernel (kernel/trap.c,
    kernel/plic.c, kernel/main.c, forkret of kernel/proc.c) *)

From S2P Require Import Prelude Riscv Memory Spinlock Kalloc Vm Tty Proc ProcSpec Sleeplock Uart Console Pipe Bio Block Log Fs File Sysarg Exec Sysfile Sysproc.

Section Trap.
Context {D : Type} `{DiskDriver D} `{DiskControl D} `{Patience} `{Image} `{StackByte}.

Definition khart : lens (ker D) hart := the_hart.
Definition kbio {A : Type} (m : M (bst D) A) : M (ker D) A := klog (zoom l_b_l m).

(** ** plic.c *)

(** A 32-bit store to the interrupt controller, and the register that says
    which device interrupted (0: none). *)
Definition plic_store (a v : Z) : M (ker D) unit := update plic_l (fun m => <[a := u32 v]> m).

Definition plicinit : M (ker D) unit :=
  plic_store (PLIC + UART0_IRQ * 4) 1 ;;
  plic_store (PLIC + VIRTIO0_IRQ * 4) 1.

Definition plicinithart : M (ker D) unit :=
  h <- get khart ;;
  plic_store (PLIC_SENABLE (cpuid h)) (Z.lor (Z.shiftl 1 UART0_IRQ) (Z.shiftl 1 VIRTIO0_IRQ)) ;;
  plic_store (PLIC_SPRIORITY (cpuid h)) 0.

Definition plic_claim : M (ker D) Z :=
  l <- get plic_irqs_l ;;
  set plic_irqs_l (tl l) ;;
  ret (s32 (hd 0 l)).

Definition plic_complete (irq : Z) : M (ker D) unit :=
  h <- get khart ;;
  plic_store (PLIC_SCLAIM (cpuid h)) irq.

(** ** trap.c *)

Definition trapinit : M (ker D) unit := kproc (set tickslock_l (initlock "time")).
Definition trapinithart : M (ker D) unit := update khart (with_stvec kernelvec).

Definition clockintr : M pst unit :=
  acquire tickslock_l ;;
  update ticks_l (fun t => u32 (t + 1)) ;;
  wakeup chTicks ;;
  release tickslock_l.

Definition devintr : M (ker D) Z :=
  h <- get khart ;;
  let c := h.(scause) in
  if nz (Z.land c 0x8000000000000000) && (Z.land c 0xff =? 9) then
    irq <- plic_claim ;;
    (if irq =? UART0_IRQ then kproc uartintr
     else if irq =? VIRTIO0_IRQ then kbio disk_intr
     else if nz irq then kproc (cprintf ("unexpected interrupt irq=%d" ++ newline) [AInt irq])
     else ret tt) ;;
    (if nz irq then plic_complete irq else ret tt) ;;
    ret 1
  else if c =? 0x8000000000000001 then
    (if cpuid h =? 0 then kproc clockintr else ret tt) ;;
    update khart (fun h => with_sip (Z.land h.(sip) (Z.lnot 2)) h) ;;
    ret 2
  else ret 0.

(** The jump to [userret]: its address and the page table it switches to. *)
Definition usertrapret : M (ker D) (Z * Z) :=
  p <- kme ;;
  update khart intr_off ;;
  update khart (with_stvec (u64 (TRAMPOLINE + (uservec - trampoline)))) ;;
  h <- get khart ;;
  x <- kget p ;;
  tf_set p TF_kernel_satp h.(satp) ;;
  tf_set p TF_kernel_sp (u64 (x.(p_kstack) + PGSIZE)) ;;
  tf_set p TF_kernel_trap usertrap_addr ;;
  tf_set p TF_kernel_hartid h.(tp) ;;
  update khart (fun h => with_sstatus (Z.lor (Z.land h.(sstatus) (Z.lnot SSTATUS_SPP)) SSTATUS_SPIE) h) ;;
  epc <- tf_get p TF_epc ;;
  update khart (with_sepc epc) ;;
  ret (u64 (TRAMPOLINE + (userret - trampoline)), MAKE_SATP x.(p_pagetable)).

Definition usertrap : M (ker D) (Z * Z) :=
  h <- get khart ;;
  if nz (Z.land h.(sstatus) SSTATUS_SPP) then panic "usertrap: not from user mode"
  else
    update khart (with_stvec kernelvec) ;;
    p <- kme ;;
    h <- get khart ;;
    tf_set p TF_epc h.(sepc) ;;
    which_dev <-
      (if h.(scause) =? 8 then
         k <- kproc (killed p) ;;
         (if nz k then exit (-1) else ret tt) ;;
         epc <- tf_get p TF_epc ;;
         tf_set p TF_epc (epc + 4) ;;
         update khart intr_on ;;
         syscall ;;
         ret 0
       else
         which_dev <- devintr ;;
         if nz which_dev then ret which_dev
         else
           h <- get khart ;;
           x <- kget p ;;
           kproc (cprintf ("usertrap(): unexpected scause %p pid=%d" ++ newline)
                    [APtr h.(scause); AInt x.(p_pid)]) ;;
           h <- get khart ;;
           kproc (cprintf ("            sepc=%p stval=%p" ++ newline) [APtr h.(sepc); APtr h.(stval)]) ;;
           kproc (setkilled p) ;;
           ret 0) ;;
    k <- kproc (killed p) ;;
    (if nz k then exit (-1) else ret tt) ;;
    (if which_dev =? 2 then kproc yield else ret tt) ;;
    usertrapret.

Definition kerneltrap : M (ker D) unit :=
  h0 <- get khart ;;
  if Z.land h0.(sstatus) SSTATUS_SPP =? 0 then panic "kerneltrap: not from supervisor mode"
  else if intr_get h0 then panic "kerneltrap: interrupts enabled"
  else
    which_dev <- devintr ;;
    if which_dev =? 0 then
      kproc (cprintf ("scause %p" ++ newline) [APtr h0.(scause)]) ;;
      h <- get khart ;;
      kproc (cprintf ("sepc=%p stval=%p" ++ newline) [APtr h.(sepc); APtr h.(stval)]) ;;
      panic "kerneltrap"
    else
      (if which_dev =? 2 then
         p <- kproc myproc ;;
         match p with
         | None => ret tt
         | Some p =>
             x <- kget p ;;
             if decide (x.(p_state) = RUNNING) then kproc yield else ret tt
         end
       else ret tt) ;;
      update khart (with_sepc h0.(sepc)) ;;
      update khart (with_sstatus h0.(sstatus)).

(** The first code of a new process. *)
Definition forkret : M (ker D) (Z * Z) :=
  p <- kme ;;
  kproc (release (proc_lock p)) ;;
  f <- get first_l ;;
  (if nz f then
     kfs (fsinit ROOTDEV) ;;
     set first_l 0
   else ret tt) ;;
  usertrapret.

(** ** main.c *)

Definition kvminithart_l : M (ker D) unit :=
  pt <- kproc (get kernel_pagetable_l) ;;
  kmem (kvminithart pt).

(** [rounds] bounds the loop of the scheduler, which does not return. *)
Definition main (rounds : nat) : M (ker D) unit :=
  h <- get khart ;;
  (if cpuid h =? 0 then
     consoleinit ;;
     kproc printfinit ;;
     kproc (cprintf newline []) ;;
     kproc (cprintf ("xv6 kernel is booting" ++ newline) []) ;;
     kproc (cprintf newline []) ;;
     kmem kinit ;;
     kproc kvminit ;;
     kvminithart_l ;;
     kproc procinit ;;
     trapinit ;;
     trapinithart ;;
     plicinit ;;
     plicinithart ;;
     kbio binit ;;
     kfs iinit ;;
     fileinit ;;
     kbio disk_init ;;
     userinit ;;
     set started_l 1
   else
     s <- get started_l ;;
     (if s =? 0 then spin else ret tt) ;;
     kproc (cprintf ("hart %d starting" ++ newline) [AInt (cpuid h)]) ;;
     kvminithart_l ;;
     trapinithart ;;
     plicinithart) ;;
  kproc (scheduler rounds).

End Trap.
