(* ===== verification/Asm.v ===== *)
(** * The hart below C: registers, address translation, assembly and boot

    Models the assembly of the kernel (kernel/entry.S, kernelvec.S, swtch.S,
    trampoline.S), the register accessors of kernel/riscv.h and the
    machine-mode C code of kernel/start.c.

    A [core] is a hart as its instructions see it: the general registers, the
    control and status registers with the views and fixed bits of the RISC-V
    privileged architecture, memory, the privilege level and the program
    counter.  Loads and stores go through the Sv39 translation of [satp].
    Memory-mapped device registers are words of memory.  An instruction that
    traps where the code expects none (a page fault, an illegal access to a
    register, a misaligned word) is a [Panic].  Instruction fetch, the TLB and
    the accessed and dirty bits of page-table entries are not modelled. *)

From S2P Require Import Prelude Riscv Memory Spinlock Kalloc.

(** ** Registers

    The register [zero] is only an operand of [sfence.vma]. *)

Module Reg.
Inductive reg :=
| ra | sp | gp | tp | t0 | t1 | t2 | s0 | s1
| a0 | a1 | a2 | a3 | a4 | a5 | a6 | a7
| s2 | s3 | s4 | s5 | s6 | s7 | s8 | s9 | s10 | s11
| t3 | t4 | t5 | t6.
#[export] Instance reg_eq_dec : EqDecision reg.
Proof. solve_decision. Defined.
End Reg.

Module Csr.
Inductive csr :=
| mhartid | mstatus | mepc | medeleg | mideleg | mie | mip | mtvec | mscratch
| pmpcfg0 | pmpaddr0 | mcounteren
| sstatus | sie | sip | sepc | scause | stval | stvec | satp | sscratch
| time.
#[export] Instance csr_eq_dec : EqDecision csr.
Proof. solve_decision. Defined.
End Csr.

Import Reg Csr.

Record core := Core {
  rf : reg -> Z;
  cs : csr -> Z;
  cm : mem;
  priv : Z;                 (* 0 user, 1 supervisor, 3 machine *)
  pc : Z
}.

Definition upd {A : Type} `{EqDecision A} (f : A -> Z) (a : A) (v : Z) : A -> Z :=
  fun b => if decide (b = a) then v else f b.

Definition with_reg (r : reg) (v : Z) (s : core) : core := Core (upd s.(rf) r (u64 v)) s.(cs) s.(cm) s.(priv) s.(pc).
Definition with_csr (c : csr) (v : Z) (s : core) : core := Core s.(rf) (upd s.(cs) c v) s.(cm) s.(priv) s.(pc).
Definition with_cm (m : mem) (s : core) : core := Core s.(rf) s.(cs) m s.(priv) s.(pc).
Definition with_rf (f : reg -> Z) (s : core) : core := Core f s.(cs) s.(cm) s.(priv) s.(pc).
Definition go (p a : Z) (s : core) : core := Core s.(rf) s.(cs) s.(cm) p a.

(** ** Status bits (kernel/riscv.h) *)

Definition MSTATUS_MPP_MASK : Z := Z.shiftl 3 11.
Definition MSTATUS_MPP_M : Z := Z.shiftl 3 11.
Definition MSTATUS_MPP_S : Z := Z.shiftl 1 11.
Definition MSTATUS_MPP_U : Z := Z.shiftl 0 11.
Definition MSTATUS_MIE : Z := Z.shiftl 1 3.
Definition SIE_SEIE : Z := Z.shiftl 1 9.
Definition SIE_STIE : Z := Z.shiftl 1 5.
Definition SIE_SSIE : Z := Z.shiftl 1 1.
Definition MIE_MEIE : Z := Z.shiftl 1 11.
Definition MIE_MTIE : Z := Z.shiftl 1 7.
Definition MIE_MSIE : Z := Z.shiftl 1 3.

(** ** Control and status registers

    [sstatus] is a part of [mstatus]; [sie] and [sip] are the delegated bits
    of [mie] and [mip], of which software may only write SSIP; only the
    supervisor interrupts can be delegated; the machine's own environment
    call cannot; a return address is even; [satp] takes no other mode than
    bare and Sv39. *)

Definition SSTATUS_MASK : Z := 0x80000003000DE762.
Definition DELEGABLE : Z := 0x222.
Definition blend (mask v old : Z) : Z := Z.lor (Z.land v mask) (Z.land old (Z.lnot mask)).
Definition satp_mode (v : Z) : Z := Z.shiftr v 60.
Definition satp_ok (v : Z) : bool := (satp_mode v =? 0) || (satp_mode v =? 8).

Definition read_csr (s : core) (c : csr) : Z :=
  match c with
  | sstatus => Z.land (s.(cs) mstatus) SSTATUS_MASK
  | sie => Z.land (s.(cs) mie) (s.(cs) mideleg)
  | sip => Z.land (s.(cs) mip) (s.(cs) mideleg)
  | _ => s.(cs) c
  end.

Definition write_csr (c : csr) (v : Z) (s : core) : core :=
  match c with
  | sstatus => with_csr mstatus (blend SSTATUS_MASK v (s.(cs) mstatus)) s
  | sie => with_csr mie (blend (s.(cs) mideleg) v (s.(cs) mie)) s
  | sip => with_csr mip (blend (Z.land (s.(cs) mideleg) 2) v (s.(cs) mip)) s
  | mideleg => with_csr mideleg (Z.land v DELEGABLE) s
  | medeleg => with_csr medeleg (Z.land v (Z.lnot (Z.shiftl 1 11))) s
  | mepc | sepc => with_csr c (Z.land v (Z.lnot 1)) s
  | satp => if satp_ok v then with_csr satp v s else s
  | _ => with_csr c v s
  end.

(** The lowest privilege that may use a register, and whether it is writable. *)
Definition csr_level (c : csr) : Z :=
  match c with
  | sstatus | sie | sip | sepc | scause | stval | stvec | satp | sscratch => 1
  | time => 0
  | _ => 3
  end.
Definition csr_writable (c : csr) : bool :=
  match c with mhartid | time => false | _ => true end.

Definition csr_get (c : csr) : M core Z :=
  p <- gets priv ;;
  if p <? csr_level c then panic "illegal instruction" else gets (fun s => read_csr s c).
Definition csr_set (c : csr) (v : Z) : M core unit :=
  p <- gets priv ;;
  if (p <? csr_level c) || negb (csr_writable c) then panic "illegal instruction"
  else modify (write_csr c (u64 v)).

(** ** Address translation *)

Definition pte_pointer (e : Z) : bool :=
  nz (Z.land e PTE_V) && (Z.land e (Z.lor PTE_R (Z.lor PTE_W PTE_X)) =? 0).
(** A leaf that the privilege ([u] for user) may load from (store to, for [w]);
    supervisor code may not use the user's pages. *)
Definition pte_leaf (u w : bool) (e : Z) : bool :=
  nz (Z.land e PTE_V) && nz (Z.land e (if w then PTE_W else PTE_R)) && Bool.eqb u (nz (Z.land e PTE_U)).

Definition sv39 (m : mem) (root : Z) (u w : bool) (va : Z) : option Z :=
  let entry level a := load64 m (a + 8 * PX level va) in
  if negb ((va <? 2 ^ 38) || (2 ^ 64 - 2 ^ 38 <=? va)) then None else
  let e2 := entry 2 root in
  if negb (pte_pointer e2) then None else
  let e1 := entry 1 (PTE2PA e2) in
  if negb (pte_pointer e1) then None else
  let e0 := entry 0 (PTE2PA e1) in
  if pte_leaf u w e0 then Some (PTE2PA e0 + va mod PGSIZE) else None.

Definition satp_root (v : Z) : Z := Z.shiftl (Z.land v (Z.ones 44)) 12.

Definition translate (s : core) (w : bool) (va : Z) : option Z :=
  if (s.(priv) =? 3) || (satp_mode (s.(cs) satp) =? 0) then Some va
  else sv39 s.(cm) (satp_root (s.(cs) satp)) (s.(priv) =? 0) w va.

Definition access (w : bool) (va : Z) : M core Z := fun s =>
  if negb (va mod 8 =? 0) then Panic "misaligned"
  else match translate s w va with Some pa => Ok pa s | None => Panic "page fault" end.
Definition load_d (va : Z) : M core Z := pa <- access false va ;; gets (fun s => load64 s.(cm) pa).
Definition store_d (va v : Z) : M core unit := pa <- access true va ;; modify (fun s => with_cm (store64 s.(cm) pa v) s).

(** ** Traps and their return

    A bit of the status register. *)
Definition put_bit (i : Z) (b : bool) (x : Z) : Z := if b then Z.setbit x i else Z.clearbit x i.

Definition mret_status (x : Z) : Z :=
  blend MSTATUS_MPP_MASK 0 (put_bit 7 true (put_bit 3 (Z.testbit x 7) x)).
Definition sret_status (x : Z) : Z :=
  put_bit 8 false (put_bit 5 true (put_bit 1 (Z.testbit x 5) x)).

Definition mpp (x : Z) : Z := Z.land (Z.shiftr x 11) 3.

(** The machine's timer interrupt, when it is taken, enters [mtvec]. *)
Definition timer_enabled (s : core) : bool :=
  ((s.(priv) <? 3) || Z.testbit (s.(cs) mstatus) 3) && Z.testbit (s.(cs) mie) 7
  && negb (Z.testbit (s.(cs) mideleg) 7).
Definition timer_interrupt (s : core) : core :=
  let st := s.(cs) mstatus in
  go 3 (Z.land (s.(cs) mtvec) (Z.lnot 3))
    (with_csr mepc s.(pc)
      (with_csr mstatus
         (blend MSTATUS_MPP_MASK (Z.shiftl s.(priv) 11) (put_bit 3 false (put_bit 7 (Z.testbit st 3) st))) s)).

(** A trap to supervisor mode. *)
Definition supervisor_trap (cause val : Z) (s : core) : core :=
  let st := s.(cs) mstatus in
  go 1 (Z.land (s.(cs) stvec) (Z.lnot 3))
    (with_csr sepc s.(pc) (with_csr scause cause (with_csr stval val
      (with_csr mstatus
         (put_bit 8 (s.(priv) =? 1) (put_bit 1 false (put_bit 5 (Z.testbit st 1) st))) s)))).

(** ** Instructions *)

Inductive instr :=
| sd (r : reg) (off : Z) (b : reg)
| ld (r : reg) (off : Z) (b : reg)
| li (r : reg) (i : Z)
| addi (d r : reg) (i : Z)
| add (d r r' : reg)
| mul (d r r' : reg)
| csrr (r : reg) (c : csr)
| csrw (c : csr) (r : reg)
| csrrw (d : reg) (c : csr) (r : reg)
| sfence
| jr (r : reg)
| sret
| mret.

Definition rget (r : reg) : M core Z := gets (fun s => s.(rf) r).
Definition rset (r : reg) (v : Z) : M core unit := modify (with_reg r v).

Definition exec1 (i : instr) : M core unit :=
  match i with
  | sd r off b => a <- rget b ;; v <- rget r ;; store_d (u64 (a + off)) v
  | ld r off b => a <- rget b ;; v <- load_d (u64 (a + off)) ;; rset r v
  | li r i => rset r i
  | addi d r i => a <- rget r ;; rset d (a + i)
  | add d r r' => a <- rget r ;; b <- rget r' ;; rset d (a + b)
  | mul d r r' => a <- rget r ;; b <- rget r' ;; rset d (a * b)
  | csrr r c => v <- csr_get c ;; rset r v
  | csrw c r => v <- rget r ;; csr_set c v
  | csrrw d c r => v <- csr_get c ;; x <- rget r ;; csr_set c x ;; rset d v
  | sfence => p <- gets priv ;; if p <? 1 then panic "illegal instruction" else ret tt
  | jr r => a <- rget r ;; modify (fun s => go s.(priv) (Z.land a (Z.lnot 1)) s)
  | sret =>
      p <- gets priv ;;
      if p <? 1 then panic "illegal instruction"
      else modify (fun s =>
        let st := s.(cs) mstatus in
        go (if Z.testbit st 8 then 1 else 0) (s.(cs) sepc) (with_csr mstatus (sret_status st) s))
  | mret =>
      p <- gets priv ;;
      if p <? 3 then panic "illegal instruction"
      else modify (fun s =>
        let st := s.(cs) mstatus in
        go (mpp st) (s.(cs) mepc) (with_csr mstatus (mret_status st) s))
  end.

(** Straight-line code. *)
Definition run (l : list instr) : M core unit := iterM l exec1.

(** ** Register accessors (kernel/riscv.h) *)

Definition r_mhartid : M core Z := csr_get mhartid.
Definition r_mstatus : M core Z := csr_get mstatus.
Definition r_sstatus : M core Z := csr_get sstatus.
Definition r_sip : M core Z := csr_get sip.
Definition r_sie : M core Z := csr_get sie.
Definition r_mie : M core Z := csr_get mie.
Definition r_sepc : M core Z := csr_get sepc.
Definition r_medeleg : M core Z := csr_get medeleg.
Definition r_mideleg : M core Z := csr_get mideleg.
Definition r_stvec : M core Z := csr_get stvec.
Definition r_satp : M core Z := csr_get satp.
Definition r_scause : M core Z := csr_get scause.
Definition r_stval : M core Z := csr_get stval.
Definition r_mcounteren : M core Z := csr_get mcounteren.
Definition r_time : M core Z := csr_get time.
Definition w_mstatus (x : Z) : M core unit := csr_set mstatus x.
Definition w_mepc (x : Z) : M core unit := csr_set mepc x.
Definition w_sstatus (x : Z) : M core unit := csr_set sstatus x.
Definition w_sip (x : Z) : M core unit := csr_set sip x.
Definition w_sie (x : Z) : M core unit := csr_set sie x.
Definition w_mie (x : Z) : M core unit := csr_set mie x.
Definition w_sepc (x : Z) : M core unit := csr_set sepc x.
Definition w_medeleg (x : Z) : M core unit := csr_set medeleg x.
Definition w_mideleg (x : Z) : M core unit := csr_set mideleg x.
Definition w_stvec (x : Z) : M core unit := csr_set stvec x.
Definition w_mtvec (x : Z) : M core unit := csr_set mtvec x.
Definition w_pmpcfg0 (x : Z) : M core unit := csr_set pmpcfg0 x.
Definition w_pmpaddr0 (x : Z) : M core unit := csr_set pmpaddr0 x.
Definition w_satp (x : Z) : M core unit := csr_set satp x.
Definition w_mscratch (x : Z) : M core unit := csr_set mscratch x.
Definition w_mcounteren (x : Z) : M core unit := csr_set mcounteren x.
Definition r_sp : M core Z := rget sp.
Definition r_tp : M core Z := rget tp.
Definition w_tp (x : Z) : M core unit := rset tp x.
Definition r_ra : M core Z := rget ra.
Definition sfence_vma : M core unit := exec1 sfence.
Definition intr_on_c : M core unit := x <- r_sstatus ;; w_sstatus (Z.lor x SSTATUS_SIE).
Definition intr_off_c : M core unit := x <- r_sstatus ;; w_sstatus (Z.land x (Z.lnot SSTATUS_SIE)).
Definition intr_get_c : M core bool := x <- r_sstatus ;; ret (nz (Z.land x SSTATUS_SIE)).

(** ** Boot: entry.S and start.c

    The addresses the linker gives to the symbols of the boot code. *)
Class BootImage := {
  main_addr : Z;
  timervec_addr : Z;
  stack0 : Z;
  timer_scratch : Z
}.

Section Boot.
Context `{BootImage}.

Definition interval : Z := 1000000.

(** [&timer_scratch[id][0]] *)
Definition scratch (id : Z) : Z := timer_scratch + id * 40.

Definition timerinit : M core unit :=
  h <- r_mhartid ;;
  let id := s32 h in
  now <- load_d CLINT_MTIME ;;
  store_d (CLINT_MTIMECMP id) (u64 (now + interval)) ;;
  store_d (scratch id + 8 * 3) (CLINT_MTIMECMP id) ;;
  store_d (scratch id + 8 * 4) interval ;;
  w_mscratch (scratch id) ;;
  w_mtvec timervec_addr ;;
  x <- r_mstatus ;;
  w_mstatus (Z.lor x MSTATUS_MIE) ;;
  x <- r_mie ;;
  w_mie (Z.lor x MIE_MTIE).

Definition start : M core unit :=
  x <- r_mstatus ;;
  w_mstatus (Z.lor (Z.land x (Z.lnot MSTATUS_MPP_MASK)) MSTATUS_MPP_S) ;;
  w_mepc main_addr ;;
  w_satp 0 ;;
  w_medeleg 0xffff ;;
  w_mideleg 0xffff ;;
  x <- r_sie ;;
  w_sie (Z.lor (Z.lor (Z.lor x SIE_SEIE) SIE_STIE) SIE_SSIE) ;;
  w_pmpaddr0 0x3fffffffffffff ;;
  w_pmpcfg0 0xf ;;
  timerinit ;;
  h <- r_mhartid ;;
  w_tp (s32 h) ;;
  exec1 mret.

(** [_entry] of entry.S, up to [call start]. *)
Definition entry_setup : list instr := [
  li sp stack0; li a0 (1024*4); csrr a1 mhartid; addi a1 a1 1; mul a0 a0 a1; add sp sp a0
].

Definition entry : M core unit := run entry_setup ;; start.

End Boot.

(** ** Traps, context switches and the trampoline *)

(** [kernelvec] of kernelvec.S, up to [call kerneltrap]. *)
Definition kernelvec_save : list instr := [
  addi sp sp (-256); sd ra 0 sp; sd sp 8 sp; sd gp 16 sp; sd tp 24 sp; sd t0 32 sp; sd t1 40 sp;
  sd t2 48 sp; sd s0 56 sp; sd s1 64 sp; sd a0 72 sp; sd a1 80 sp; sd a2 88 sp; sd a3 96 sp;
  sd a4 104 sp; sd a5 112 sp; sd a6 120 sp; sd a7 128 sp; sd s2 136 sp; sd s3 144 sp;
  sd s4 152 sp; sd s5 160 sp; sd s6 168 sp; sd s7 176 sp; sd s8 184 sp; sd s9 192 sp;
  sd s10 200 sp; sd s11 208 sp; sd t3 216 sp; sd t4 224 sp; sd t5 232 sp; sd t6 240 sp
].

(** [kernelvec], after the call. *)
Definition kernelvec_restore : list instr := [
  ld ra 0 sp; ld sp 8 sp; ld gp 16 sp; ld t0 32 sp; ld t1 40 sp; ld t2 48 sp; ld s0 56 sp;
  ld s1 64 sp; ld a0 72 sp; ld a1 80 sp; ld a2 88 sp; ld a3 96 sp; ld a4 104 sp; ld a5 112 sp;
  ld a6 120 sp; ld a7 128 sp; ld s2 136 sp; ld s3 144 sp; ld s4 152 sp; ld s5 160 sp;
  ld s6 168 sp; ld s7 176 sp; ld s8 184 sp; ld s9 192 sp; ld s10 200 sp; ld s11 208 sp;
  ld t3 216 sp; ld t4 224 sp; ld t5 232 sp; ld t6 240 sp; addi sp sp 256; sret
].

(** [timervec] of kernelvec.S. *)
Definition timervec : list instr := [
  csrrw a0 mscratch a0; sd a1 0 a0; sd a2 8 a0; sd a3 16 a0; ld a1 24 a0; ld a2 32 a0;
  ld a3 0 a1; add a3 a3 a2; sd a3 0 a1; li a1 2; csrw sip a1; ld a3 16 a0; ld a2 8 a0;
  ld a1 0 a0; csrrw a0 mscratch a0; mret
].

(** [swtch] of swtch.S; [ret] is [jr ra]. *)
Definition swtch_code : list instr := [
  sd ra 0 a0; sd sp 8 a0; sd s0 16 a0; sd s1 24 a0; sd s2 32 a0; sd s3 40 a0; sd s4 48 a0;
  sd s5 56 a0; sd s6 64 a0; sd s7 72 a0; sd s8 80 a0; sd s9 88 a0; sd s10 96 a0; sd s11 104 a0;
  ld ra 0 a1; ld sp 8 a1; ld s0 16 a1; ld s1 24 a1; ld s2 32 a1; ld s3 40 a1; ld s4 48 a1;
  ld s5 56 a1; ld s6 64 a1; ld s7 72 a1; ld s8 80 a1; ld s9 88 a1; ld s10 96 a1; ld s11 104 a1;
  jr ra
].

(** [uservec] of trampoline.S. *)
Definition uservec_code : list instr := [
  csrw sscratch a0; li a0 TRAPFRAME; sd ra 40 a0; sd sp 48 a0; sd gp 56 a0; sd tp 64 a0;
  sd t0 72 a0; sd t1 80 a0; sd t2 88 a0; sd s0 96 a0; sd s1 104 a0; sd a1 120 a0; sd a2 128 a0;
  sd a3 136 a0; sd a4 144 a0; sd a5 152 a0; sd a6 160 a0; sd a7 168 a0; sd s2 176 a0;
  sd s3 184 a0; sd s4 192 a0; sd s5 200 a0; sd s6 208 a0; sd s7 216 a0; sd s8 224 a0;
  sd s9 232 a0; sd s10 240 a0; sd s11 248 a0; sd t3 256 a0; sd t4 264 a0; sd t5 272 a0;
  sd t6 280 a0; csrr t0 sscratch; sd t0 112 a0; ld sp 8 a0; ld tp 32 a0; ld t0 16 a0;
  ld t1 0 a0; sfence; csrw satp t1; sfence; jr t0
].

(** [userret] of trampoline.S. *)
Definition userret_code : list instr := [
  sfence; csrw satp a0; sfence; li a0 TRAPFRAME; ld ra 40 a0; ld sp 48 a0; ld gp 56 a0;
  ld tp 64 a0; ld t0 72 a0; ld t1 80 a0; ld t2 88 a0; ld s0 96 a0; ld s1 104 a0; ld a1 120 a0;
  ld a2 128 a0; ld a3 136 a0; ld a4 144 a0; ld a5 152 a0; ld a6 160 a0; ld a7 168 a0;
  ld s2 176 a0; ld s3 184 a0; ld s4 192 a0; ld s5 200 a0; ld s6 208 a0; ld s7 216 a0;
  ld s8 224 a0; ld s9 232 a0; ld s10 240 a0; ld s11 248 a0; ld t3 256 a0; ld t4 264 a0;
  ld t5 272 a0; ld t6 280 a0; ld a0 112 a0; sret
].

(** [kernelvec] around the C handler it calls. *)
Definition kernelvec_code (kerneltrap : M core unit) : M core unit :=
  run kernelvec_save ;; kerneltrap ;; run kernelvec_restore.
