(* ===== verification/AsmThm.v ===== *)
(** * Saving and restoring registers: traps, context switches and boot

    Theorems of the assembly of the kernel and of start.c.  A [window] is a
    range of addresses that the hart reaches in memory whatever the code
    writes in a set of bytes; a list of [sd] (of [ld]) instructions through a
    window stores (loads) the registers it names. *)

From S2P Require Import Prelude Riscv Memory Spinlock Kalloc Vm Pagetable Uvm Uspace Tty Proc Copy Aspace ProcMem Sysarg Asm.
Import Reg Csr.

(** ** Windows *)

Record window (P : Z -> Prop) (s : core) (va n pa : Z) : Prop := {
  wi_aligned : va mod 8 = 0;
  wi_range : 0 <= va /\ va + n <= 2 ^ 64;
  wi_trans : forall m w o, same_except P s.(cm) m -> 0 <= o < n ->
    translate (with_cm m s) w (va + o) = Some (pa + o)
}.

Definition regs_ok (s : core) : Prop := forall r, 0 <= s.(rf) r < 2 ^ 64.

(** An offset of a word in a window of [n] bytes. *)
Definition slot_ok (n off : Z) : Prop := 0 <= off /\ off + 8 <= n /\ off mod 8 = 0.
#[global] Instance slot_ok_dec n off : Decision (slot_ok n off).
Proof. unfold slot_ok. apply _. Defined.

Lemma window_ext P s s' va n pa :
  window P s va n pa -> s'.(priv) = s.(priv) -> s'.(cs) satp = s.(cs) satp -> same_except P s.(cm) s'.(cm) ->
  window P s' va n pa.
Proof.
  intros [Ha Hr Ht] Hp Hs Hm. split; [done..|]. intros m w o Hm' Ho. rewrite <- (Ht m w o); [|intros b Hb; rewrite Hm', Hm by done; done|done].
  unfold translate, with_cm. cbn. by rewrite Hp, Hs.
Qed.

(** Without translation every range is a window. *)
Lemma window_bare P s va n :
  s.(priv) = 3 \/ satp_mode (s.(cs) satp) = 0 -> va mod 8 = 0 -> 0 <= va -> va + n <= 2 ^ 64 -> window P s va n va.
Proof.
  intros Hs Ha H0 Hn. split; [done|lia|]. intros m w o _ _. unfold translate. cbn.
  destruct Hs as [-> | ->]; [done|]. by rewrite orb_true_r.
Qed.

Section Access.
Context (P : Z -> Prop) (s : core) (va n pa : Z) (Hw : window P s va n pa).

Lemma access_eq w off : slot_ok n off -> access w (u64 (va + off)) s = Ok (pa + off) s.
Proof.
  intros (H0 & Hn & Hm). destruct Hw as [Ha Hr Ht]. rewrite u64_small by lia. unfold access.
  replace ((va + off) mod 8) with 0 by dlia. cbn [Z.eqb negb].
  specialize (Ht s.(cm) w off (same_except_refl _ _) ltac:(lia)). destruct s. cbn in *. unfold with_cm in Ht. cbn in Ht. by rewrite Ht.
Qed.

Lemma exec_sd r off b : s.(rf) b = va -> slot_ok n off ->
  exec1 (sd r off b) s = Ok tt (with_cm (store64 s.(cm) (pa + off) (s.(rf) r)) s).
Proof.
  intros Hb Ho. cbn [exec1 rget store_d bind obind gets]. rewrite Hb. unfold store_d. cbn [bind obind]. by rewrite access_eq.
Qed.

Lemma exec_ld r off b : s.(rf) b = va -> slot_ok n off ->
  exec1 (ld r off b) s = Ok tt (with_rf (upd s.(rf) r (load64 s.(cm) (pa + off))) s).
Proof.
  intros Hb Ho. cbn [exec1 rget bind obind gets]. rewrite Hb. unfold load_d. cbn [bind obind]. rewrite access_eq by done.
  cbn [obind bind gets]. unfold rset, modify, with_reg, with_rf. by rewrite u64_small by apply load64_range.
Qed.
End Access.

(** ** Lists of stores and loads *)

Definition saves (b : reg) (L : list (reg * Z)) : list instr := (fun x => sd x.1 x.2 b) <$> L.
Definition loads (b : reg) (L : list (reg * Z)) : list instr := (fun x => ld x.1 x.2 b) <$> L.

Definition store_regs (m : mem) (pa : Z) (f : reg -> Z) (L : list (reg * Z)) : mem :=
  foldl (fun m x => store64 m (pa + x.2) (f x.1)) m L.
Definition load_regs (f : reg -> Z) (g : Z -> Z) (L : list (reg * Z)) : reg -> Z :=
  foldl (fun f x => upd f x.1 (g x.2)) f L.

(** Words at different multiples of eight. *)
Definition slots (n : Z) (L : list (reg * Z)) : Prop := Forall (slot_ok n) L.*2 /\ NoDup L.*2.

Lemma run_cons i l s : run (i :: l) s = obind (exec1 i s) (fun _ => run l).
Proof. done. Qed.

Lemma run_nil s : run [] s = Ok tt s.
Proof. done. Qed.

Lemma run_app l1 l2 s : run (l1 ++ l2) s = obind (run l1 s) (fun _ => run l2).
Proof.
  revert s. induction l1 as [|i l1 IH]; intros s; [done|]. unfold run in *. cbn [app iterM bind].
  destruct (exec1 i s) as [u s'|msg| | |s' k] eqn:E; cbn [obind]; try done. exfalso. revert E. clear.
  destruct i; cbn; unfold store_d, load_d, access, csr_get, csr_set, rset; cbn; repeat (case_match; cbn in *); try discriminate; simplify_eq; done.
Qed.

Lemma run_saves P s va n pa b L :
  window P s va n pa -> s.(rf) b = va -> Forall (slot_ok n) L.*2 -> (forall c, pa <= c < pa + n -> P c) ->
  run (saves b L) s = Ok tt (with_cm (store_regs s.(cm) pa s.(rf) L) s).
Proof.
  intros Hw Hb HL HP. revert s Hw Hb. induction L as [|[r o] L IH]; intros s Hw Hb; [by destruct s|].
  inversion HL as [|? ? Ho HL']; subst. change (saves b ((r, o) :: L)) with (sd r o b :: saves b L). rewrite run_cons.
  rewrite (exec_sd _ _ _ _ _ Hw) by done. cbn [obind]. rewrite IH; [done|done| |done].
  eapply window_ext; [done..|]. cbn. intros c Hc. cbn in Ho. destruct Ho as (? & ? & _). rewrite rd_store64; [done|].
  intros Hr. apply Hc, HP. lia.
Qed.

Lemma run_loads P s va n pa b L :
  window P s va n pa -> s.(rf) b = va -> Forall (slot_ok n) L.*2 -> b ∉ L.*1 ->
  run (loads b L) s = Ok tt (with_rf (load_regs s.(rf) (fun o => load64 s.(cm) (pa + o)) L) s).
Proof.
  intros Hw Hb HL Hn. revert s Hw Hb. induction L as [|[r o] L IH]; intros s Hw Hb; [by destruct s|].
  inversion HL as [|? ? Ho HL']; subst. change (loads b ((r, o) :: L)) with (ld r o b :: loads b L). rewrite run_cons.
  cbn in Hn. apply not_elem_of_cons in Hn as [Hne Hn].
  rewrite (exec_ld _ _ _ _ _ Hw) by done. cbn [obind]. rewrite IH; [done|done|done| |].
  - by eapply window_ext.
  - cbn. unfold upd. by rewrite decide_False.
Qed.

Lemma store_regs_cons m pa f r o L :
  store_regs m pa f ((r, o) :: L) = store_regs (store64 m (pa + o) (f r)) pa f L.
Proof. done. Qed.
Lemma load_regs_cons f g r o L : load_regs f g ((r, o) :: L) = load_regs (upd f r (g o)) g L.
Proof. done. Qed.
Arguments store_regs : simpl never.
Arguments load_regs : simpl never.

Lemma store_regs_out m pa f L n c : Forall (slot_ok n) L.*2 -> ~ (pa <= c < pa + n) -> rd (store_regs m pa f L) c = rd m c.
Proof.
  intros HL Hc. revert m. induction L as [|[r o] L IH]; intros m; [done|]. inversion HL as [|? ? (? & ? & _) HL']; subst. cbn in *.
  rewrite store_regs_cons, IH by done. apply rd_store64. lia.
Qed.

(** A word of the area that the list does not name keeps its value. *)
Lemma store_regs_other m pa f L n o :
  Forall (slot_ok n) L.*2 -> slot_ok n o -> o ∉ L.*2 -> load64 (store_regs m pa f L) (pa + o) = load64 m (pa + o).
Proof.
  intros HL Ho Hn. revert m. induction L as [|[r o'] L IH]; intros m; [done|]. inversion HL as [|? ? Ho' HL']; subst. cbn in *.
  apply not_elem_of_cons in Hn as [Hne Hn]. rewrite store_regs_cons, IH by done. apply load64_store64_ne.
  unfold slot_ok in *. cbn in *. dlia.
Qed.

Lemma store_regs_in m pa f L n r o :
  slots n L -> (r, o) ∈ L -> load64 (store_regs m pa f L) (pa + o) = u64 (f r).
Proof.
  intros [HL Hd] Hin. revert m. induction L as [|[r' o'] L IH]; intros m; [by inversion Hin|].
  inversion HL as [|? ? Ho HL']; subst. inversion Hd as [|? ? Hnew Hd']; subst. cbn in *.
  apply elem_of_cons in Hin as [[= <- <-]|Hin]; [|by rewrite store_regs_cons; apply IH].
  rewrite store_regs_cons, (store_regs_other _ _ _ _ n) by done. apply load64_store64.
Qed.

Lemma load_regs_out f g L r : r ∉ L.*1 -> load_regs f g L r = f r.
Proof.
  revert f. induction L as [|[r' o'] L IH]; intros h Hn; [done|]. cbn in *. apply not_elem_of_cons in Hn as [Hne Hn].
  rewrite load_regs_cons, IH by done. unfold upd. by rewrite decide_False.
Qed.

Lemma load_regs_in f g L r o : NoDup L.*1 -> (r, o) ∈ L -> load_regs f g L r = g o.
Proof.
  intros Hd Hin. revert f. induction L as [|[r' o'] L IH]; intros f; [by inversion Hin|]. inversion Hd as [|? ? Hnew Hd']; subst. cbn in *.
  apply elem_of_cons in Hin as [[= <- <-]|Hin]; [|by rewrite load_regs_cons; apply IH].
  rewrite load_regs_cons, load_regs_out by done. unfold upd. by rewrite decide_True.
Qed.

(** ** The translation of a page-table tree *)

Section Translation.
Context `{ImageOk}.

Lemma land_flags e x : Z.land 0x3FF x = x -> Z.land e x = Z.land (PTE_FLAGS e) x.
Proof. intros Hx. unfold PTE_FLAGS. by rewrite <- Z.land_assoc, Hx. Qed.

Lemma page_small a : page_ok a -> page_aligned a /\ 0 <= a < 2 ^ 56.
Proof. intros [Ha Hr]. pose proof kend_range. split; [done|clia]. Qed.

Lemma pointer_next q : page_ok q ->
  pte_pointer (Z.lor (PA2PTE q) PTE_V) = true /\ PTE2PA (Z.lor (PA2PTE q) PTE_V) = q.
Proof.
  intros Hq. split; [|by apply pte_next]. apply page_small in Hq as [Ha Hr]. unfold pte_pointer.
  rewrite (land_flags _ PTE_V), (land_flags _ (Z.lor _ _)), PTE_FLAGS_PA2PTE by (done || clia). done.
Qed.

Lemma pointer_invalid e : Z.land e PTE_V = 0 -> pte_pointer e = false.
Proof. intros E. unfold pte_pointer. by rewrite E. Qed.

(** The hardware follows the tree to the entry that [walk] finds. *)
Lemma sv39_tree m T root u w va :
  pt_rep m T root -> Forall page_ok (pages_of T) -> 0 <= va < MAXVA ->
  sv39 m root u w va =
  if pte_leaf u w (pte_of m T va) then Some (PTE2PA (pte_of m T va) + va mod PGSIZE) else None.
Proof.
  intros Hr Hok Hva. assert (Hp : forall p a, T !! p = Some a -> page_ok a).
  { intros p a Ha. apply (Forall_elem _ _ _ Hok), elem_pages_of. eauto. }
  unfold sv39. replace (va <? 2 ^ 38) with true by (symmetry; apply Z.ltb_lt; clia). cbn [orb negb].
  pose proof (pr_entry _ _ _ Hr [] root (PX 2 va) (pr_root _ _ _ Hr) ltac:(cbn; lia) ltac:(by apply PX_range)) as E2.
  unfold pte_of, leaf_path. destruct (T !! [PX 2 va]) as [a1|] eqn:E1.
  - rewrite E2. destruct (pointer_next a1 (Hp _ _ E1)) as [-> ->]. cbn [negb].
    pose proof (pr_entry _ _ _ Hr [PX 2 va] a1 (PX 1 va) E1 ltac:(cbn; lia) ltac:(by apply PX_range)) as E3.
    destruct (T !! [PX 1 va; PX 2 va]) as [a0|] eqn:E0.
    + rewrite E3. by destruct (pointer_next a0 (Hp _ _ E0)) as [-> ->].
    + by rewrite pointer_invalid.
  - rewrite pointer_invalid by done. destruct (T !! [PX 1 va; PX 2 va]) as [a0|] eqn:E0; [|done].
    apply (pr_child _ _ _ Hr) in E0 as [_ [? E0]]. congruence.
Qed.

Lemma MAKE_SATP_range root : page_ok root -> 0 <= Z.shiftr root 12 < 2 ^ 44.
Proof. intros [Ha Hr]%page_small. rewrite Z.shiftr_div_pow2 by lia. dlia. Qed.

Lemma lor_high k x n : 0 <= n -> 0 <= x < 2 ^ n -> Z.lor (Z.shiftl k n) x = k * 2 ^ n + x.
Proof.
  intros Hn Hx. rewrite <- Z.add_lor_land, Z.shiftl_mul_pow2 by done.
  replace (Z.land (k * 2 ^ n) x) with 0; [lia|]. symmetry. apply Z.bits_inj'. intros i Hi. rewrite Z.land_spec, Z.bits_0.
  destruct (Z.lt_ge_cases i n); [by rewrite Z.mul_pow2_bits_low|].
  replace (Z.testbit x i) with false; [apply andb_false_r|]. symmetry. apply Z.testbit_false; [done|].
  rewrite Z.div_small; [done|]. split; [lia|]. apply Z.lt_le_trans with (2 ^ n); [lia|]. apply Z.pow_le_mono_r; lia.
Qed.

Lemma satp_make root : page_ok root ->
  satp_root (MAKE_SATP root) = root /\ satp_mode (MAKE_SATP root) = 8 /\ 0 <= MAKE_SATP root < 2 ^ 64.
Proof.
  intros Hok. pose proof (MAKE_SATP_range root Hok) as Hr. apply page_small in Hok as [Ha Hs]. unfold page_aligned in Ha.
  assert (E : MAKE_SATP root = 8 * 2 ^ 60 + Z.shiftr root 12) by (unfold MAKE_SATP, SATP_SV39; apply lor_high; lia).
  unfold satp_root, satp_mode. rewrite E, Z.land_ones, Z.shiftl_mul_pow2, !Z.shiftr_div_pow2 by lia. rewrite Z.shiftr_div_pow2 in Hr by lia.
  change (2 ^ 12) with 4096 in *. change (2 ^ 44) with 17592186044416 in *. change (2 ^ 60) with 1152921504606846976. change (2 ^ 64) with 18446744073709551616. cdlia.
Qed.

(** The trapframe page of a process, as its page table shows it. *)
Lemma trapframe_window k root F T U sz tf s :
  pspace k root F T U sz tf -> page_ok tf -> tf ∉ pages_of T ->
  s.(cm) = k.(k_mem) -> s.(priv) = 1 -> s.(cs) satp = MAKE_SATP root ->
  window (in_page tf) s TRAPFRAME PGSIZE tf.
Proof.
  intros Hps Hok Hnew Hm Hp Hs. pose proof (psp_vinv _ _ _ _ _ _ _ Hps) as Hv. destruct (vinv_tree _ _ _ _ _ Hv) as [_ Hpages].
  assert (Hroot : page_ok root).
  { apply (Forall_elem _ _ _ Hpages), elem_pages_of. eexists. apply (pr_root _ _ _ (vi_pt _ _ _ _ _ Hv)). }
  destruct (satp_make root Hroot) as (Er & Em & _). split; [done|clia|]. intros m w o Hse Ho. rewrite Hm in Hse.
  destruct (pt_frame _ _ _ _ _ (vi_pt _ _ _ _ _ Hv) Hse) as [Hr Hpte].
  { intros p a b Ha Hin Hin'. apply Hnew, elem_pages_of. exists p.
    rewrite <- (pages_disjoint a tf b); [done|eapply (Forall_elem _ _ _ Hpages), elem_pages_of; eauto|apply Hok|done..]. }
  unfold translate. cbn. rewrite Hp, Hs, Em, Er. cbn [Z.eqb orb]. rewrite (sv39_tree _ T) by (done || clia).
  rewrite Hpte, (pte_of_page _ _ _ TRAPFRAME), (psp_trapframe _ _ _ _ _ _ _ Hps) by (clia || (unfold same_page; cdlia)).
  apply page_small in Hok as [Ha Hrg]. unfold trapframe_pte.
  destruct (map_pte tf (Z.lor PTE_R PTE_W) Ha Hrg ltac:(vm_compute; done)) as (_ & _ & -> & Hf).
  unfold pte_leaf. rewrite (land_flags _ PTE_V), (land_flags _ PTE_U), (land_flags _ (if w then _ else _)), Hf by (by destruct w).
  replace ((TRAPFRAME + o) mod PGSIZE) with o by cdlia. by destruct w.
Qed.

End Translation.

(** ** swtch.S

    [struct context] in memory, and the registers it saves. *)

Definition context_at (m : mem) (pa : Z) : context :=
  Context (load64 m (pa + 0)) (load64 m (pa + 8)) ((fun i => load64 m (pa + (16 + 8 * i))) <$> seqZ 0 12).
Definition context_of (f : reg -> Z) : context :=
  Context (f ra) (f sp) (f <$> [s0; s1; s2; s3; s4; s5; s6; s7; s8; s9; s10; s11]).

Definition ctx_regs : list (reg * Z) := [
  (ra, 0); (sp, 8); (s0, 16); (s1, 24); (s2, 32); (s3, 40); (s4, 48); (s5, 56); (s6, 64); (s7, 72);
  (s8, 80); (s9, 88); (s10, 96); (s11, 104)].
Definition ctx_size : Z := 112.

Lemma ctx_slots : slots ctx_size ctx_regs.
Proof. split; [apply (bool_decide_unpack _); vm_compute; done|]. apply (bool_decide_unpack _). vm_compute. done. Qed.
Lemma ctx_nodup : NoDup ctx_regs.*1.
Proof. apply (bool_decide_unpack _). vm_compute. done. Qed.

Lemma context_eq f m pa :
  (forall r o, (r, o) ∈ ctx_regs -> f r = load64 m (pa + o)) -> context_of f = context_at m pa.
Proof.
  intros E. unfold context_of, context_at. cbn [fmap list_fmap].
  rewrite (E ra 0), (E sp 8), (E s0 16), (E s1 24), (E s2 32), (E s3 40), (E s4 48), (E s5 56), (E s6 64), (E s7 72),
    (E s8 80), (E s9 88), (E s10 96), (E s11 104) by (apply (bool_decide_unpack _); vm_compute; done). done.
Qed.

Lemma swtch_eq P s po pn :
  window P s (s.(rf) a0) ctx_size po -> window P s (s.(rf) a1) ctx_size pn ->
  (forall c, po <= c < po + ctx_size -> P c) ->
  let m := store_regs s.(cm) po s.(rf) ctx_regs in
  let f := load_regs s.(rf) (fun o => load64 m (pn + o)) ctx_regs in
  run swtch_code s = Ok tt (go s.(priv) (Z.land (f ra) (Z.lnot 1)) (with_rf f (with_cm m s))).
Proof.
  intros Ho Hn HP m f. destruct ctx_slots as [Hs Hd].
  change swtch_code with (saves a0 ctx_regs ++ loads a1 ctx_regs ++ [jr ra]).
  rewrite !run_app, (run_saves P s _ _ _ _ _ Ho) by done. cbn [obind]. fold m.
  rewrite run_app, (run_loads P (with_cm m s) (s.(rf) a1) ctx_size pn); [done| |done|done|].
  - eapply window_ext; [done..|]. intros c Hc. apply store_regs_out with ctx_size; [done|]. intros Hr. by apply Hc, HP.
  - apply (bool_decide_unpack _). vm_compute. done.
Qed.

(** Both halves of a switch, for contexts that do not overlap. *)
Lemma swtch_switch P s po pn :
  window P s (s.(rf) a0) ctx_size po -> window P s (s.(rf) a1) ctx_size pn ->
  (forall c, po <= c < po + ctx_size -> P c) -> po + ctx_size <= pn \/ pn + ctx_size <= po ->
  exists s1, run swtch_code s = Ok tt s1 /\ (regs_ok s -> context_at s1.(cm) po = context_of s.(rf)) /\
    same_except (fun b => po <= b < po + ctx_size) s.(cm) s1.(cm) /\
    context_of s1.(rf) = context_at s.(cm) pn /\ s1.(pc) = Z.land (load64 s.(cm) (pn + 0)) (Z.lnot 1) /\
    s1.(priv) = s.(priv) /\ s1.(cs) = s.(cs).
Proof.
  intros Ho Hn HP Hd. destruct ctx_slots as [Hs Hnd]. eexists. split; [by apply (swtch_eq P s po pn)|]. cbn [cm rf pc priv cs go with_rf with_cm].
  set (m := store_regs _ _ _ _). set (f := load_regs _ _ _).
  assert (Hm : same_except (fun b => po <= b < po + ctx_size) s.(cm) m) by (intros c Hc; by apply store_regs_out with ctx_size).
  assert (Hf : forall r o, (r, o) ∈ ctx_regs -> f r = load64 s.(cm) (pn + o)).
  { intros r o Hin. unfold f. rewrite (load_regs_in _ _ _ r o) by (done || apply ctx_nodup). apply (load64_page _ _ _ _ Hm).
    assert (Ho' : slot_ok ctx_size o) by (apply (Forall_elem _ _ _ Hs), list_elem_of_fmap; by exists (r, o)).
    unfold slot_ok in Ho'. intros c Hc. lia. }
  split_and!; try done.
  - intros Hok. symmetry. apply context_eq. intros r o Hin. unfold m. rewrite (store_regs_in _ _ _ _ ctx_size r o) by (done || apply ctx_slots).
    symmetry. apply u64_small, Hok.
  - by apply context_eq.
  - by rewrite (Hf ra 0) by (apply (bool_decide_unpack _); vm_compute; done).
Qed.

(** ** trampoline.S

    Where [struct trapframe] keeps each user register. *)

Definition tf_off (r : reg) : Z :=
  match r with
  | ra => 40 | sp => 48 | gp => 56 | tp => 64 | t0 => 72 | t1 => 80 | t2 => 88 | s0 => 96 | s1 => 104
  | a0 => 112 | a1 => 120 | a2 => 128 | a3 => 136 | a4 => 144 | a5 => 152 | a6 => 160 | a7 => 168
  | s2 => 176 | s3 => 184 | s4 => 192 | s5 => 200 | s6 => 208 | s7 => 216 | s8 => 224 | s9 => 232
  | s10 => 240 | s11 => 248 | t3 => 256 | t4 => 264 | t5 => 272 | t6 => 280
  end.

(** All registers but [a0], which the trampoline needs for itself. *)
Definition tf_regs : list (reg * Z) := (fun r => (r, tf_off r)) <$> [
  ra; sp; gp; tp; t0; t1; t2; s0; s1; a1; a2; a3; a4; a5; a6; a7; s2; s3; s4; s5; s6; s7; s8; s9; s10; s11;
  t3; t4; t5; t6].
(** What the kernel finds in the trapframe when it is entered. *)
Definition tf_kernel : list (reg * Z) := [(sp, TF_kernel_sp); (tp, TF_kernel_hartid); (t0, TF_kernel_trap); (t1, TF_kernel_satp)].

(** Decide a closed fact about these lists. *)
Ltac decided := apply (bool_decide_unpack _); vm_compute; done.

Lemma tf_slots : slots PGSIZE tf_regs.
Proof. split; decided. Qed.
Lemma tf_kernel_slots : Forall (slot_ok PGSIZE) tf_kernel.*2.
Proof. decided. Qed.
Lemma tf_nodup : NoDup tf_regs.*1.
Proof. decided. Qed.
Lemma tf_elem r : r <> a0 -> (r, tf_off r) ∈ tf_regs.
Proof. intros Hr. destruct r; try done; decided. Qed.

(** The state of the hart as [uservec] leaves it. *)
Definition entered (tf : Z) (s : core) : core :=
  let m := store64 (store_regs s.(cm) tf s.(rf) tf_regs) (tf + 112) (s.(rf) a0) in
  let g o := load64 s.(cm) (tf + o) in
  go 1 (Z.land (g TF_kernel_trap) (Z.lnot 1))
    (Core (load_regs (upd (upd s.(rf) a0 TRAPFRAME) t0 (s.(rf) a0)) g tf_kernel)
       (upd (upd s.(cs) sscratch (s.(rf) a0)) satp (g TF_kernel_satp)) m s.(priv) s.(pc)).

Lemma csr_set_S c v s : csr_level c = 1 -> csr_writable c = true -> s.(priv) = 1 ->
  csr_set c v s = Ok tt (write_csr c (u64 v) s).
Proof. intros Hl Hw Hp. unfold csr_set. cbn [bind obind gets]. by rewrite Hp, Hl, Hw. Qed.

Lemma csr_get_S c s : csr_level c = 1 -> s.(priv) = 1 -> csr_get c s = Ok (read_csr s c) s.
Proof. intros Hl Hp. unfold csr_get. cbn [bind obind gets]. by rewrite Hp, Hl. Qed.

Lemma store_regs_ext m pa f f' L : (forall r, r ∈ L.*1 -> f r = f' r) -> store_regs m pa f L = store_regs m pa f' L.
Proof.
  revert m. induction L as [|[r o] L IH]; intros m E; [done|]. rewrite !store_regs_cons, (E r) by constructor.
  apply IH. intros r' Hr. apply E. by constructor.
Qed.
Lemma load_regs_ext f g g' L : (forall o, o ∈ L.*2 -> g o = g' o) -> load_regs f g L = load_regs f g' L.
Proof.
  revert f. induction L as [|[r o] L IH]; intros f E; [done|]. rewrite !load_regs_cons, (E o) by constructor.
  apply IH. intros o' Ho. apply E. by constructor.
Qed.

Lemma exec_sfence s : s.(priv) = 1 -> exec1 sfence s = Ok tt s.
Proof. intros Hp. cbn. by rewrite Hp. Qed.

Lemma enter_tail s : s.(priv) = 1 ->
  run [sfence; csrw satp t1; sfence; jr t0] s =
  Ok tt (go 1 (Z.land (s.(rf) t0) (Z.lnot 1)) (write_csr satp (u64 (s.(rf) t1)) s)).
Proof.
  intros Hp. rewrite run_cons, exec_sfence by done. cbn [obind]. rewrite run_cons. cbn [exec1 bind obind gets rget].
  rewrite csr_set_S by done. cbn [obind]. rewrite run_cons, exec_sfence by (unfold write_csr; by destruct (satp_ok _)).
  cbn [obind]. unfold write_csr. destruct (satp_ok _); cbn; by rewrite Hp.
Qed.

Section Trampoline.
Context (s : core) (tf : Z) (Hp : s.(priv) = 1) (Hok : regs_ok s) (Hw : window (in_page tf) s TRAPFRAME PGSIZE tf).

Lemma tf_after_save o : o ∈ tf_kernel.*2 ->
  load64 (store64 (store_regs s.(cm) tf s.(rf) tf_regs) (tf + 112) (s.(rf) a0)) (tf + o) = load64 s.(cm) (tf + o).
Proof.
  intros Ho. assert (Hs : slot_ok PGSIZE o /\ (o ∉ tf_regs.*2) /\ o < 40).
  { change (tf_kernel.*2) with [8; 32; 16; 0] in Ho. rewrite !elem_of_cons, elem_of_nil in Ho.
    destruct_or?; subst; split_and!; try done; decided. }
  destruct Hs as (Hs & Hn & Hlt). rewrite load64_store64_ne by lia. apply store_regs_other with PGSIZE; [apply tf_slots|done..].
Qed.

Lemma uservec_eq : satp_ok (load64 s.(cm) (tf + TF_kernel_satp)) = true -> run uservec_code s = Ok tt (entered tf s).
Proof.
  intros Hsatp. destruct tf_slots as [Hs Hd]. pose proof (Hok a0) as Ha0.
  change uservec_code with ([csrw sscratch a0; li a0 TRAPFRAME] ++ saves a0 tf_regs ++ [csrr t0 sscratch; sd t0 112 a0] ++
    loads a0 tf_kernel ++ [sfence; csrw satp t1; sfence; jr t0]).
  rewrite run_app, run_cons. cbn [exec1 rget bind obind gets]. rewrite csr_set_S, u64_small by done. cbn [obind].
  set (c1 := with_reg a0 TRAPFRAME (write_csr sscratch (s.(rf) a0) s)).
  change (run [li a0 TRAPFRAME] (write_csr sscratch (s.(rf) a0) s)) with (@Ok core unit tt c1).
  cbn [obind]. assert (Hw1 : window (in_page tf) c1 TRAPFRAME PGSIZE tf) by (by eapply window_ext).
  rewrite run_app, (run_saves _ _ _ _ _ _ _ Hw1) by done. cbn [obind].
  rewrite (store_regs_ext _ _ _ s.(rf)). 2:{ intros r Hr. cbn. unfold upd. rewrite decide_False; [done|]. intros ->. revert Hr. decided. }
  set (m2 := store_regs c1.(cm) tf s.(rf) tf_regs). rewrite run_app, run_cons. cbn [exec1 bind obind].
  rewrite csr_get_S by done. cbn [obind rset modify].
  change (read_csr (with_cm m2 c1) sscratch) with (s.(rf) a0).
  set (c3 := with_reg t0 (s.(rf) a0) (with_cm m2 c1)).
  assert (Hm2 : same_except (in_page tf) s.(cm) m2).
  { intros c Hc. apply store_regs_out with PGSIZE; done. }
  assert (Hw3 : window (in_page tf) c3 TRAPFRAME PGSIZE tf) by (by eapply window_ext).
  rewrite run_cons, (exec_sd _ _ _ _ _ Hw3) by (done || decided). change (c3.(rf) t0) with (u64 (s.(rf) a0)). rewrite (u64_small (s.(rf) a0)) by done.
  set (m4 := store64 c3.(cm) (tf + 112) (s.(rf) a0)). cbn [obind]. rewrite run_nil. cbn [obind].
  assert (Hw4 : window (in_page tf) (with_cm m4 c3) TRAPFRAME PGSIZE tf).
  { eapply window_ext; [done..|]. intros c Hc. apply rd_store64. unfold in_page in Hc. clia. }
  rewrite run_app, (run_loads _ _ _ _ _ _ _ Hw4) by (apply tf_kernel_slots || done || decided). cbn [obind].
  rewrite (load_regs_ext _ _ (fun o => load64 s.(cm) (tf + o))) by (intros o Ho; by apply tf_after_save).
  rewrite enter_tail by done. cbn [with_rf rf]. rewrite !(load_regs_in _ _ tf_kernel t1 TF_kernel_satp), !(load_regs_in _ _ tf_kernel t0 TF_kernel_trap) by decided.
  cbn [write_csr]. rewrite u64_small by apply load64_range. rewrite Hsatp. unfold entered, with_csr, go. cbn -[tf_regs].
  by rewrite (u64_small (s.(rf) a0)) by done.
Qed.
End Trampoline.

(** [userret] with the satp value [v] in [a0]. *)
Definition returned (tf v : Z) (s : core) : core :=
  let st := s.(cs) mstatus in
  let g o := load64 s.(cm) (tf + o) in
  go (if Z.testbit st 8 then 1 else 0) (s.(cs) sepc)
    (Core (upd (load_regs (upd s.(rf) a0 TRAPFRAME) g tf_regs) a0 (g 112))
       (upd (upd s.(cs) satp v) mstatus (sret_status st)) s.(cm) s.(priv) s.(pc)).

Lemma exec_sret s : s.(priv) = 1 ->
  exec1 sret s = Ok tt (go (if Z.testbit (s.(cs) mstatus) 8 then 1 else 0) (s.(cs) sepc)
                          (with_csr mstatus (sret_status (s.(cs) mstatus)) s)).
Proof. intros Hp. cbn. by rewrite Hp. Qed.

Lemma userret_eq s tf v :
  s.(priv) = 1 -> s.(rf) a0 = v -> 0 <= v < 2 ^ 64 -> satp_ok v = true ->
  window (in_page tf) (with_csr satp v s) TRAPFRAME PGSIZE tf ->
  run userret_code s = Ok tt (returned tf v s).
Proof.
  intros Hp Hv Hr Hok Hw. destruct tf_slots as [Hs Hd].
  change userret_code with ([sfence; csrw satp a0; sfence; li a0 TRAPFRAME] ++ loads a0 tf_regs ++ [ld a0 112 a0; sret]).
  assert (E : run [sfence; csrw satp a0; sfence; li a0 TRAPFRAME] s = Ok tt (with_reg a0 TRAPFRAME (with_csr satp v s))).
  { rewrite run_cons, exec_sfence by done. cbn [obind]. rewrite run_cons. cbn [exec1 bind obind gets rget].
    rewrite csr_set_S, Hv, u64_small by done. unfold write_csr. rewrite Hok. cbn [obind]. by rewrite run_cons, exec_sfence. }
  rewrite run_app, E. cbn [obind]. set (c1 := with_reg a0 TRAPFRAME (with_csr satp v s)).
  assert (Hw1 : window (in_page tf) c1 TRAPFRAME PGSIZE tf) by (by eapply window_ext).
  rewrite run_app, (run_loads _ _ _ _ _ _ _ Hw1) by (done || decided). cbn [obind].
  set (c2 := with_rf _ c1). assert (Hw2 : window (in_page tf) c2 TRAPFRAME PGSIZE tf) by (by eapply window_ext).
  rewrite run_cons, (exec_ld _ _ _ _ _ Hw2); [|cbn [c2 with_rf rf]; rewrite load_regs_out by decided; done|decided].
  cbn [obind]. rewrite run_cons, exec_sret by done. done.
Qed.

(** The registers in the trapframe, and back. *)
Lemma entered_regs tf s r : regs_ok s -> load64 (entered tf s).(cm) (tf + tf_off r) = s.(rf) r.
Proof.
  intros Hok. cbn -[tf_off tf_regs]. destruct (decide (r = a0)) as [->|Hr]; [rewrite load64_store64; apply u64_small, Hok|].
  rewrite load64_store64_ne by (destruct r; cbn [tf_off]; done || lia).
  rewrite (store_regs_in _ _ _ _ PGSIZE r) by (apply tf_slots || by apply tf_elem). apply u64_small, Hok.
Qed.

Lemma entered_except tf s : same_except (fun b => tf + 40 <= b < tf + TF_size) s.(cm) (entered tf s).(cm).
Proof.
  intros c Hc. unfold TF_size in Hc. cbn -[tf_regs]. rewrite rd_store64 by lia.
  assert (Hr : Forall (fun o => 40 <= o /\ o + 8 <= 288) tf_regs.*2) by decided. revert Hr. generalize s.(cm), tf_regs.
  intros m L. revert m. induction L as [|[r o] L IH]; intros m Hr; [done|]. inversion Hr; subst. cbn in *.
  rewrite store_regs_cons, IH by done. apply rd_store64. lia.
Qed.

Lemma returned_regs tf v s r : (returned tf v s).(rf) r = load64 s.(cm) (tf + tf_off r).
Proof.
  cbn -[tf_regs]. unfold upd at 1. case_decide as E; [by subst|]. by rewrite (load_regs_in _ _ _ r (tf_off r)) by (apply tf_nodup || by apply tf_elem).
Qed.

(** ** kernelvec.S: traps in the kernel *)

Definition kv_off (r : reg) : Z :=
  match r with
  | ra => 0 | sp => 8 | gp => 16 | tp => 24 | t0 => 32 | t1 => 40 | t2 => 48 | s0 => 56 | s1 => 64
  | a0 => 72 | a1 => 80 | a2 => 88 | a3 => 96 | a4 => 104 | a5 => 112 | a6 => 120 | a7 => 128
  | s2 => 136 | s3 => 144 | s4 => 152 | s5 => 160 | s6 => 168 | s7 => 176 | s8 => 184 | s9 => 192
  | s10 => 200 | s11 => 208 | t3 => 216 | t4 => 224 | t5 => 232 | t6 => 240
  end.
Definition kv_size : Z := 256.
Definition kv_low : list (reg * Z) := (fun r => (r, kv_off r)) <$> [ra].
Definition kv_high : list (reg * Z) := (fun r => (r, kv_off r)) <$> [
  t0; t1; t2; s0; s1; a0; a1; a2; a3; a4; a5; a6; a7; s2; s3; s4; s5; s6; s7; s8; s9; s10; s11; t3; t4; t5; t6].
Definition kv_regs : list (reg * Z) := kv_low ++ [(sp, 8); (gp, 16); (tp, 24)] ++ kv_high.

Lemma kv_slots : slots kv_size kv_regs.
Proof. split; decided. Qed.
Lemma kv_elem r : (r, kv_off r) ∈ kv_regs.
Proof. destruct r; decided. Qed.
Lemma kv_high_elem r : r ∉ [ra; sp; gp; tp] -> (r, kv_off r) ∈ (gp, 16) :: kv_high.
Proof. intros Hr. destruct r; try decided; exfalso; apply Hr; decided. Qed.

(** The frame that [kernelvec] pushes for the interrupted state [s]. *)
Definition framed (pa : Z) (s : core) : core :=
  let f := upd s.(rf) sp (u64 (s.(rf) sp - kv_size)) in
  Core f s.(cs) (store_regs s.(cm) pa f kv_regs) s.(priv) s.(pc).

Lemma kernelvec_save_eq P s pa :
  window P s (u64 (s.(rf) sp - kv_size)) kv_size pa -> (forall c, pa <= c < pa + kv_size -> P c) ->
  run kernelvec_save s = Ok tt (framed pa s).
Proof.
  intros Hw HP. change kernelvec_save with (addi sp sp (-256) :: saves sp kv_regs). rewrite run_cons.
  cbn [exec1 rget bind obind gets rset modify]. change (s.(rf) sp + -256) with (s.(rf) sp - kv_size).
  set (c1 := with_reg _ _ s). assert (Hw1 : window P c1 (u64 (s.(rf) sp - kv_size)) kv_size pa) by (by eapply window_ext).
  rewrite (run_saves _ _ _ _ _ _ _ Hw1); [done|done|apply kv_slots|done].
Qed.

Lemma kernelvec_restore_eq P s pa va :
  s.(priv) = 1 -> s.(rf) sp = va -> window P s va kv_size pa -> load64 s.(cm) (pa + 8) = va ->
  exists f, run kernelvec_restore s =
    Ok tt (go (if Z.testbit (s.(cs) mstatus) 8 then 1 else 0) (s.(cs) sepc)
             (with_csr mstatus (sret_status (s.(cs) mstatus)) (with_rf f s))) /\
    (forall r, r <> sp -> r <> tp -> f r = load64 s.(cm) (pa + kv_off r)) /\
    f sp = u64 (va + kv_size) /\ f tp = s.(rf) tp.
Proof.
  intros Hp Hsp Hw Hsv. change kernelvec_restore with (loads sp kv_low ++ [ld sp 8 sp] ++ loads sp ((gp, 16) :: kv_high) ++ [addi sp sp 256; sret]).
  set (g := fun o => load64 s.(cm) (pa + o)). rewrite run_app, (run_loads _ _ _ _ _ _ _ Hw) by (done || decided). cbn [obind].
  fold g. set (c1 := with_rf _ s). assert (Hw1 : window P c1 va kv_size pa) by (by eapply window_ext).
  rewrite run_app, run_cons, (exec_ld _ _ _ _ _ Hw1) by (done || decided). cbn [obind]. rewrite run_nil. cbn [obind].
  change (load64 c1.(cm) (pa + 8)) with (g 8). set (c2 := with_rf _ c1).
  assert (Hw2 : window P c2 va kv_size pa) by (by eapply window_ext).
  rewrite run_app, (run_loads _ _ _ _ _ _ _ Hw2) by (done || decided). cbn [obind].
  change (fun o => load64 c2.(cm) (pa + o)) with g. set (f := load_regs c2.(rf) g _). rewrite run_cons.
  cbn [exec1 rget bind obind gets rset modify]. rewrite run_cons, exec_sret by done. cbn [obind].
  assert (Ef : f sp = va) by (unfold f; rewrite load_regs_out by decided; done).
  exists (upd f sp (u64 (va + kv_size))). split; [cbn; by rewrite Ef|]. split_and!; [|done|].
  - intros r Hs Ht. unfold upd at 1. rewrite decide_False by done. destruct (decide (r = ra)) as [->|Hra]; [by unfold f; rewrite load_regs_out by decided|].
    destruct (decide (r = gp)) as [->|Hgp]; [unfold f; rewrite (load_regs_in _ _ _ gp 16) by decided; done|].
    change (load64 s.(cm) (pa + kv_off r)) with (g (kv_off r)). apply load_regs_in; [decided|]. apply kv_high_elem. rewrite !elem_of_cons, elem_of_nil. tauto.
  - unfold upd at 1. rewrite decide_False by done. unfold f. by rewrite load_regs_out by decided.
Qed.

Lemma bytes_word m m' a n o : ld_bytes m a n = ld_bytes m' a n -> 0 <= o -> o + 8 <= Z.of_nat n -> load64 m (a + o) = load64 m' (a + o).
Proof.
  intros E H0 Hn. apply load64_ext. intros b Hb.
  assert (Hl : (Z.to_nat (b - a) < n)%nat) by lia. pose proof (lookup_ld_bytes m a n _ Hl) as E1. pose proof (lookup_ld_bytes m' a n _ Hl) as E2.
  rewrite E in E1. rewrite E1 in E2. replace (a + Z.of_nat (Z.to_nat (b - a))) with b in E2 by lia. by injection E2.
Qed.

Lemma framed_regs pa s r : regs_ok s -> load64 (framed pa s).(cm) (pa + kv_off r) = (framed pa s).(rf) r.
Proof.
  intros Hok. cbn -[kv_off kv_regs]. rewrite (store_regs_in _ _ _ _ kv_size r) by (apply kv_slots || apply kv_elem).
  apply u64_small. unfold upd. case_decide; [apply u64_range|apply Hok].
Qed.

Lemma kv_off_range r : 0 <= kv_off r /\ kv_off r + 8 <= 256.
Proof. destruct r; cbn; lia. Qed.

(** ** kernelvec.S: the timer interrupt, in machine mode *)

(** The area that [mscratch] points to, for a timer register at [cmp]. *)
Record scratch_ok (s : core) (b cmp : Z) : Prop := {
  so_scratch : s.(cs) mscratch = b;
  so_aligned : b mod 8 = 0 /\ cmp mod 8 = 0;
  so_range : 0 <= b /\ b + 40 <= 2 ^ 64 /\ 0 <= cmp /\ cmp + 8 <= 2 ^ 64;
  so_apart : b + 40 <= cmp \/ cmp + 8 <= b;
  so_cmp : load64 s.(cm) (b + 24) = cmp
}.

Definition tv_regs : list (reg * Z) := [(a1, 0); (a2, 8); (a3, 16)].

(** Memory after the interrupt: the save area, and the next deadline. *)
Definition rescheduled (s : core) (b cmp : Z) : mem :=
  let m := store_regs s.(cm) b s.(rf) tv_regs in
  store64 m cmp (u64 (load64 s.(cm) cmp + load64 s.(cm) (b + 32))).

Lemma tv_slots : slots 40 tv_regs.
Proof. split; decided. Qed.

Lemma csr_set_M c v s : csr_writable c = true -> s.(priv) = 3 -> csr_set c v s = Ok tt (write_csr c (u64 v) s).
Proof. intros Hw Hp. unfold csr_set. cbn [bind obind gets]. rewrite Hp, Hw. by destruct c. Qed.

Lemma csr_get_M c s : s.(priv) = 3 -> csr_get c s = Ok (read_csr s c) s.
Proof. intros Hp. unfold csr_get. cbn [bind obind gets]. rewrite Hp. by destruct c. Qed.

Lemma exec_csrrw_M d c r s : csr_writable c = true -> s.(priv) = 3 ->
  exec1 (csrrw d c r) s = Ok tt (with_reg d (read_csr s c) (write_csr c (u64 (s.(rf) r)) s)).
Proof. intros Hw Hp. cbn [exec1 bind]. rewrite csr_get_M by done. cbn [obind bind rget gets]. by rewrite csr_set_M. Qed.

Lemma window_M c va n : c.(priv) = 3 -> va mod 8 = 0 -> 0 <= va -> va + n <= 2 ^ 64 -> window (fun _ => True) c va n va.
Proof. intros. apply window_bare; auto. Qed.

(** Side conditions of a memory access in machine mode. *)
Ltac mmode := try apply window_M; first [done | lia | decided | apply tv_slots].

(** The new deadline, with the interval in [a2]. *)
Lemma advance_eq s cmp :
  s.(priv) = 3 -> s.(rf) a1 = cmp -> cmp mod 8 = 0 -> 0 <= cmp -> cmp + 8 <= 2 ^ 64 ->
  let v := u64 (load64 s.(cm) cmp + s.(rf) a2) in
  run [ld a3 0 a1; add a3 a3 a2; sd a3 0 a1] s =
  Ok tt (with_cm (store64 s.(cm) cmp v) (with_rf (upd (upd s.(rf) a3 (load64 s.(cm) cmp)) a3 v) s)).
Proof.
  intros Hp Ha1 Hal H0 Hn v. rewrite run_cons, (exec_ld (fun _ => True) s cmp 8 cmp) by mmode. cbn [obind]. rewrite Z.add_0_r.
  rewrite run_cons. cbn [exec1 bind obind rget gets rset modify]. set (c1 := with_reg _ _ _).
  rewrite run_cons, (exec_sd (fun _ => True) c1 cmp 8 cmp) by mmode. rewrite Z.add_0_r. done.
Qed.

Definition tv_first : list instr := [
  csrrw a0 mscratch a0; sd a1 0 a0; sd a2 8 a0; sd a3 16 a0; ld a1 24 a0; ld a2 32 a0; ld a3 0 a1; add a3 a3 a2; sd a3 0 a1].
Definition tv_last : list instr := [
  li a1 2; csrw sip a1; ld a3 16 a0; ld a2 8 a0; ld a1 0 a0; csrrw a0 mscratch a0; mret].

Lemma tv_kept s b o : slot_ok 40 o -> 24 <= o ->
  load64 (store_regs s.(cm) b s.(rf) tv_regs) (b + o) = load64 s.(cm) (b + o).
Proof.
  intros Ho Hge. apply store_regs_other with 40; [apply tv_slots|done|]. cbn. rewrite !elem_of_cons, elem_of_nil. lia.
Qed.

(** Up to the new deadline. *)
Lemma timervec_first s b cmp :
  s.(priv) = 3 -> regs_ok s -> scratch_ok s b cmp ->
  exists f, run tv_first s = Ok tt (with_cm (rescheduled s b cmp) (with_csr mscratch (s.(rf) a0) (with_rf f s))) /\
    f a0 = b /\ forall r, r ∉ [a0; a1; a2; a3] -> f r = s.(rf) r.
Proof.
  intros Hp Hok [Hb [Hal Hal'] Hr Ha Hc].
  change tv_first with ([csrrw a0 mscratch a0] ++ saves a0 tv_regs ++ loads a0 [(a1, 24); (a2, 32)] ++ [ld a3 0 a1; add a3 a3 a2; sd a3 0 a1]).
  rewrite run_app, run_cons, exec_csrrw_M by done. cbn [obind]. rewrite run_nil. cbn [obind read_csr write_csr]. rewrite Hb, u64_small by apply Hok.
  set (c1 := with_reg _ _ _). assert (Eb : c1.(rf) a0 = b) by (cbn; by rewrite u64_small by lia).
  rewrite run_app, (run_saves (fun _ => True) c1 b 40 b) by mmode. cbn [obind].
  rewrite (store_regs_ext _ _ _ s.(rf)) by (intros r Hin; cbn; unfold upd; rewrite decide_False; [done|]; intros ->; revert Hin; decided).
  set (m1 := store_regs c1.(cm) b s.(rf) tv_regs).
  rewrite run_app, (run_loads (fun _ => True) (with_cm m1 c1) b 40 b) by mmode. cbn [obind].
  set (f2 := load_regs _ _ _). assert (E1 : f2 a1 = cmp).
  { unfold f2. rewrite (load_regs_in _ _ _ a1 24) by decided. cbn. unfold m1. cbn. rewrite tv_kept by (lia || decided). done. }
  assert (E2 : f2 a2 = load64 s.(cm) (b + 32)).
  { unfold f2. rewrite (load_regs_in _ _ _ a2 32) by decided. cbn. unfold m1. cbn. by rewrite tv_kept by (lia || decided). }
  rewrite (advance_eq _ cmp) by (done || lia). cbn [with_rf with_cm rf cm]. rewrite E2.
  replace (load64 m1 cmp) with (load64 s.(cm) cmp)
    by (apply load64_ext; intros c Hin; unfold m1; symmetry; apply store_regs_out with 40; [apply tv_slots|lia]).
  eexists. split; [done|]. split; [done|]. intros r Hn. rewrite !elem_of_cons, elem_of_nil in Hn. unfold upd. rewrite !decide_False by tauto.
  unfold f2. rewrite load_regs_out by (cbn; rewrite !elem_of_cons, elem_of_nil; tauto). cbn. unfold upd. by rewrite decide_False by tauto.
Qed.

Lemma exec_mret s : s.(priv) = 3 ->
  exec1 mret s = Ok tt (go (mpp (s.(cs) mstatus)) (s.(cs) mepc) (with_csr mstatus (mret_status (s.(cs) mstatus)) s)).
Proof. intros Hp. cbn. by rewrite Hp. Qed.

(** The pending supervisor software interrupt, and the way back. *)
Lemma timervec_last s b v :
  s.(priv) = 3 -> s.(rf) a0 = b -> s.(cs) mscratch = v -> 0 <= v < 2 ^ 64 -> b mod 8 = 0 -> 0 <= b -> b + 40 <= 2 ^ 64 ->
  exists f, run tv_last s =
    Ok tt (go (mpp (s.(cs) mstatus)) (s.(cs) mepc)
      (Core f (upd (upd (upd s.(cs) mip (blend (Z.land (s.(cs) mideleg) 2) 2 (s.(cs) mip))) mscratch b) mstatus (mret_status (s.(cs) mstatus)))
         s.(cm) 3 s.(pc))) /\
    f a0 = v /\ (forall r o, (r, o) ∈ tv_regs -> f r = load64 s.(cm) (b + o)) /\ forall r, r ∉ [a0; a1; a2; a3] -> f r = s.(rf) r.
Proof.
  intros Hp Ha Hv Hr Hal H0 Hn.
  change tv_last with ([li a1 2; csrw sip a1] ++ loads a0 [(a3, 16); (a2, 8); (a1, 0)] ++ [csrrw a0 mscratch a0; mret]).
  rewrite run_app, run_cons. cbn [exec1 rset modify obind]. set (c1 := with_reg a1 2 s).
  rewrite run_cons. cbn [exec1 bind rget gets obind]. rewrite csr_set_M by done. cbn [obind]. rewrite run_nil. cbn [obind].
  set (c2 := write_csr sip _ c1). rewrite run_app, (run_loads (fun _ => True) c2 b 40 b) by mmode. cbn [obind].
  set (f := load_regs _ _ _). assert (Ef : f a0 = b) by (unfold f; rewrite load_regs_out by decided; done).
  rewrite run_cons, exec_csrrw_M by done. cbn [obind]. rewrite run_cons, exec_mret by done. cbn [obind]. rewrite run_nil.
  exists (upd f a0 v). split; [|split_and!].
  - cbn. rewrite Ef, (u64_small b) by lia. unfold with_reg. change (upd s.(cs) mip ?x mscratch) with (s.(cs) mscratch).
    rewrite Hv, (u64_small v) by lia. unfold go, with_csr. done.
  - done.
  - intros r o Hin. unfold tv_regs in Hin. rewrite !elem_of_cons, elem_of_nil in Hin. destruct Hin as [[= -> ->]|[[= -> ->]|[[= -> ->]|[]]]]; (unfold upd at 1; rewrite decide_False by done);
      [unfold f; by rewrite (load_regs_in _ _ _ a1 0) by decided|unfold f; by rewrite (load_regs_in _ _ _ a2 8) by decided|unfold f; by rewrite (load_regs_in _ _ _ a3 16) by decided].
  - intros r Hnin. rewrite !elem_of_cons, elem_of_nil in Hnin. unfold upd at 1. rewrite decide_False by tauto.
    unfold f. rewrite load_regs_out by (cbn; rewrite !elem_of_cons, elem_of_nil; tauto). cbn. unfold upd. by rewrite decide_False by tauto.
Qed.

(** *** Status bits *)

Lemma testbit_blend mask v old i : 0 <= i ->
  Z.testbit (blend mask v old) i = if Z.testbit mask i then Z.testbit v i else Z.testbit old i.
Proof.
  intros Hi. unfold blend. rewrite Z.lor_spec, !Z.land_spec, Z.lnot_spec by done.
  destruct (Z.testbit mask i), (Z.testbit v i), (Z.testbit old i); done.
Qed.

Lemma testbit_put_bit i b x j : 0 <= i -> 0 <= j ->
  Z.testbit (put_bit i b x) j = if i =? j then b else Z.testbit x j.
Proof.
  intros Hi Hj. unfold put_bit. destruct b; rewrite ?Z.setbit_eqb, ?Z.clearbit_eqb by done;
    destruct (i =? j), (Z.testbit x j); done.
Qed.

Lemma testbit_mpp i : 0 <= i -> Z.testbit MSTATUS_MPP_MASK i = (i =? 11) || (i =? 12).
Proof.
  intros Hi. destruct (Z.ltb_spec i 13).
  - assert (i ∈ seqZ 0 13) as Hin by (apply elem_of_seqZ; lia). clear Hi H. revert i Hin.
    apply Forall_forall. decided.
  - replace (Z.testbit _ i) with false.
    + destruct (Z.eqb_spec i 11), (Z.eqb_spec i 12); lia || done.
    + symmetry. apply Z.bits_above_log2; [done|]. change (Z.log2 MSTATUS_MPP_MASK) with 12. lia.
Qed.

Ltac bits := repeat first [rewrite testbit_blend by lia | rewrite testbit_put_bit by lia | rewrite testbit_mpp by lia].

(** The status that an interrupt to machine mode leaves, and its return. *)
Definition trap_status (p st : Z) : Z := blend MSTATUS_MPP_MASK (Z.shiftl p 11) (put_bit 3 false (put_bit 7 (Z.testbit st 3) st)).

Lemma mpp_trap p st : p = 0 \/ p = 1 \/ p = 3 -> mpp (trap_status p st) = p.
Proof.
  intros Hp. apply Z.bits_inj'. intros i Hi. unfold mpp, trap_status. rewrite Z.land_spec, Z.shiftr_spec by done. bits.
  destruct (decide (i = 0)) as [->|]; [by destruct Hp as [->|[->| ->]]|]. destruct (decide (i = 1)) as [->|]; [by destruct Hp as [->|[->| ->]]|].
  replace (Z.testbit 3 i) with false by (symmetry; apply Z.bits_above_log2; [done|change (Z.log2 3) with 1; lia]).
  rewrite andb_false_r. symmetry. destruct Hp as [->|[->| ->]]; [apply Z.bits_0|apply Z.bits_above_log2; [done|cbn; lia]..].
Qed.

Lemma mret_trap_bit p st i : 0 <= i ->
  Z.testbit (mret_status (trap_status p st)) i =
  if (i =? 11) || (i =? 12) then false else if i =? 7 then true else Z.testbit st i.
Proof.
  intros Hi. unfold mret_status, trap_status. bits. rewrite Z.bits_0. destruct (Z.eqb_spec i 11) as [->|]; [done|]. destruct (Z.eqb_spec i 12) as [->|]; [done|].
  cbn [orb]. rewrite (Z.eqb_sym 7 i). destruct (Z.eqb_spec i 7) as [->|]; [done|]. rewrite (Z.eqb_sym 3 i).
  destruct (Z.eqb_spec i 3) as [->|]; [done|]. done.
Qed.

Lemma sstatus_trap p st : Z.land (mret_status (trap_status p st)) SSTATUS_MASK = Z.land st SSTATUS_MASK.
Proof.
  apply Z.bits_inj'. intros i Hi. rewrite !Z.land_spec, mret_trap_bit by done.
  destruct (Z.eqb_spec i 11) as [->|]; [by rewrite !andb_false_r|]. destruct (Z.eqb_spec i 12) as [->|]; [by rewrite !andb_false_r|].
  destruct (Z.eqb_spec i 7) as [->|]; [by rewrite !andb_false_r|]. done.
Qed.

(** ** The timer, from boot on *)

(** What the linker guarantees. *)
Class BootOk `{BootImage} : Prop := {
  main_even : 0 <= main_addr < 2 ^ 64 /\ main_addr mod 2 = 0;
  timervec_ok : 0 <= timervec_addr < 2 ^ 64 /\ timervec_addr mod 4 = 0;
  stack0_ok : KERNBASE <= stack0 /\ stack0 + 4096 * NCPU <= PHYSTOP;
  timer_scratch_ok : KERNBASE <= timer_scratch /\ timer_scratch + 40 * NCPU <= PHYSTOP /\ timer_scratch mod 8 = 0
}.

Section Timer.
Context `{BootOk}.

(** The timer of a hart is set up: a tick every [i] cycles, at [cmp]. *)
Record timer_ready (s : core) (b cmp i : Z) : Prop := {
  tr_scratch : scratch_ok s b cmp;
  tr_interval : load64 s.(cm) (b + 32) = i;
  tr_vector : s.(cs) mtvec = timervec_addr;
  tr_enabled : Z.testbit (s.(cs) mie) 7 = true;
  tr_delegated : s.(cs) mideleg = DELEGABLE
}.

Lemma land_lnot_small x n : 0 <= n -> x mod 2 ^ n = 0 -> Z.land x (Z.lnot (Z.ones n)) = x.
Proof. intros Hn Hx. rewrite land_lnot_ones by done. lia. Qed.

Definition timer_frame (b cmp a : Z) : Prop := b <= a < b + 24 \/ cmp <= a < cmp + 8.

Lemma rescheduled_except s b cmp : same_except (timer_frame b cmp) s.(cm) (rescheduled s b cmp).
Proof.
  intros a Ha. unfold timer_frame in Ha. unfold rescheduled. rewrite rd_store64 by lia.
  apply store_regs_out with 24; [decided|lia].
Qed.

Lemma rescheduled_saved s b cmp r o :
  b + 40 <= cmp \/ cmp + 8 <= b -> (r, o) ∈ tv_regs -> load64 (rescheduled s b cmp) (b + o) = u64 (s.(rf) r).
Proof.
  intros Ha Hin. unfold rescheduled. rewrite load64_store64_ne; [by apply store_regs_in with 40; [apply tv_slots|]|].
  unfold tv_regs in Hin. rewrite !elem_of_cons, elem_of_nil in Hin. destruct Hin as [[= -> ->]|[[= -> ->]|[[= -> ->]|[]]]]; lia.
Qed.

Lemma timer_ready_frame s s' b cmp i :
  timer_ready s b cmp i -> same_except (timer_frame b cmp) s.(cm) s'.(cm) ->
  (forall c, c ∈ [mscratch; mtvec; mie; mideleg] -> s'.(cs) c = s.(cs) c) -> timer_ready s' b cmp i.
Proof.
  intros [[Hs Hal Hr Ha Hc] Hi Hv He Hd] Hm E.
  assert (Hl : forall o, 24 <= o <= 32 -> load64 s'.(cm) (b + o) = load64 s.(cm) (b + o)).
  { intros o Ho. apply (load64_page (timer_frame b cmp)); [done|]. intros a Hin. unfold timer_frame. lia. }
  split; [split|..]; rewrite ?Hl by lia; try done; by rewrite E by decided.
Qed.

(** [timervec] after a timer interrupt of the state [s]. *)
Lemma timer_tick_eq s b cmp i :
  regs_ok s -> s.(priv) = 0 \/ s.(priv) = 1 \/ s.(priv) = 3 -> timer_ready s b cmp i ->
  exists s', run timervec (timer_interrupt s) = Ok tt s' /\ (forall r, s'.(rf) r = s.(rf) r) /\
    s'.(pc) = s.(pc) /\ s'.(priv) = s.(priv) /\ s'.(cm) = rescheduled s b cmp /\
    s'.(cs) mstatus = mret_status (trap_status s.(priv) (s.(cs) mstatus)) /\
    s'.(cs) mip = blend 2 2 (s.(cs) mip) /\
    forall c, c ∉ [mstatus; mip; mepc] -> s'.(cs) c = s.(cs) c.
Proof.
  intros Hok Hp Ht. destruct Ht as [Hs Hi Hv He Hd]. set (t := timer_interrupt s).
  assert (Hst : scratch_ok t b cmp) by (by destruct Hs; split). destruct Hs as [Hb [Hal _] Hr Ha _].
  destruct (timervec_first t b cmp) as (f & E1 & Hf0 & Hf); [done|exact Hok|done|].
  change timervec with (tv_first ++ tv_last). rewrite run_app, E1. cbn [obind]. set (c1 := with_cm _ _).
  destruct (timervec_last c1 b (s.(rf) a0)) as (f' & E2 & Hg0 & Hg1 & Hg); [done|done|done|apply Hok|done|lia|lia|].
  rewrite E2. eexists. split; [done|]. cbn. split_and!; try done.
  - intros r. destruct (decide (r = a0)) as [->|Hr0]; [done|].
    destruct (decide (r ∈ [a1; a2; a3])) as [Hin|Hin].
    + rewrite !elem_of_cons, elem_of_nil in Hin. destruct Hin as [->|[->|[->|[]]]];
        [rewrite (Hg1 a1 0) by decided; change (cm c1) with (rescheduled t b cmp); rewrite (rescheduled_saved _ _ _ a1) by (done || decided)
        |rewrite (Hg1 a2 8) by decided; change (cm c1) with (rescheduled t b cmp); rewrite (rescheduled_saved _ _ _ a2) by (done || decided)
        |rewrite (Hg1 a3 16) by decided; change (cm c1) with (rescheduled t b cmp); rewrite (rescheduled_saved _ _ _ a3) by (done || decided)]; apply u64_small, Hok.
    + rewrite !elem_of_cons, elem_of_nil in Hin. rewrite Hg by (rewrite !elem_of_cons, elem_of_nil; tauto). apply Hf. rewrite !elem_of_cons, elem_of_nil. tauto.
  - by apply mpp_trap.
  - change (blend (Z.land (s.(cs) mideleg) 2) 2 (s.(cs) mip) = blend 2 2 (s.(cs) mip)). by rewrite Hd.
  - intros c Hc. rewrite !elem_of_cons, elem_of_nil in Hc. unfold upd. repeat case_decide; subst; tauto.
Qed.

(** *** entry.S and start.c *)

(** An access of machine-mode code to a register. *)
Ltac mcsr := cbn [bind obind]; first [rewrite csr_get_M by done | rewrite csr_set_M by done]; cbn [bind obind].

Lemma load_M s a : s.(priv) = 3 -> a mod 8 = 0 -> load_d a s = Ok (load64 s.(cm) a) s.
Proof. intros Hp Ha. unfold load_d, access, translate. cbn [bind]. by rewrite Ha, Hp. Qed.
Lemma store_M s a v : s.(priv) = 3 -> a mod 8 = 0 -> store_d a v s = Ok tt (with_cm (store64 s.(cm) a v) s).
Proof. intros Hp Ha. unfold store_d, access, translate. cbn [bind]. by rewrite Ha, Hp. Qed.

Lemma scratch_range id : 0 <= id < NCPU -> KERNBASE <= scratch id /\ scratch id + 40 <= PHYSTOP /\ scratch id mod 8 = 0.
Proof. intros Hid. pose proof timer_scratch_ok. unfold scratch. clia || cdlia. Qed.

Lemma mtimecmp_range id : 0 <= id < NCPU -> CLINT <= CLINT_MTIMECMP id /\ CLINT_MTIMECMP id + 8 <= CLINT_MTIME /\ CLINT_MTIMECMP id mod 8 = 0.
Proof. intros Hid. unfold CLINT_MTIMECMP, CLINT_MTIME, CLINT. clia || cdlia. Qed.

Lemma hart_id id : 0 <= id < NCPU -> s32 id = id.
Proof. intros Hid. unfold s32, signed. rewrite Z.mod_small by clia. destruct (Z.ltb_spec id (2 ^ (32 - 1))); clia. Qed.

(** Memory after [timerinit]. *)
Definition timer_mem (m : mem) (id : Z) : mem :=
  store64 (store64 (store64 m (CLINT_MTIMECMP id) (u64 (load64 m CLINT_MTIME + interval)))
    (scratch id + 8 * 3) (CLINT_MTIMECMP id)) (scratch id + 8 * 4) interval.

Lemma timerinit_eq s id :
  s.(priv) = 3 -> s.(cs) mhartid = id -> 0 <= id < NCPU ->
  exists g, timerinit s = Ok tt (Core s.(rf) g (timer_mem s.(cm) id) 3 s.(pc)) /\
    g mscratch = scratch id /\ g mtvec = timervec_addr /\ g mstatus = u64 (Z.lor (s.(cs) mstatus) MSTATUS_MIE) /\
    g mie = u64 (Z.lor (s.(cs) mie) MIE_MTIE) /\ forall c, c ∉ [mscratch; mtvec; mstatus; mie] -> g c = s.(cs) c.
Proof.
  intros Hp Hh Hid. destruct (scratch_range id Hid) as (Hs1 & Hs2 & Hs3), (mtimecmp_range id Hid) as (Hc1 & Hc2 & Hc3).
  unfold timerinit, r_mhartid, r_mstatus, w_mstatus, w_mscratch, w_mtvec, r_mie, w_mie. mcsr.
  change (read_csr s mhartid) with (s.(cs) mhartid). rewrite Hh, hart_id by done.
  rewrite load_M by done. cbn [obind bind]. rewrite store_M by done. cbn [obind bind].
  rewrite store_M by (done || dlia). cbn [obind bind]. rewrite store_M by (done || dlia). cbn [obind bind].
  do 6 mcsr. eexists. split; [unfold write_csr, with_csr, with_cm; cbn -[u64]; rewrite Hp; done|].
  pose proof timervec_ok as [? _]. cbn -[u64]. rewrite !(u64_small (scratch id)), !(u64_small timervec_addr) by (assumption || clia).
  split_and!; try done. intros c Hc. rewrite !elem_of_cons, elem_of_nil in Hc. unfold upd. by rewrite !decide_False by tauto.
Qed.

Lemma mpp_boot x : mpp (u64 (Z.lor (u64 (Z.lor (Z.land x (Z.lnot MSTATUS_MPP_MASK)) MSTATUS_MPP_S)) MSTATUS_MIE)) = 1.
Proof.
  apply Z.bits_inj'. intros i Hi. unfold mpp. rewrite Z.land_spec, Z.shiftr_spec by done.
  destruct (Z.ltb_spec i 2) as [Hlt|Hge].
  - unfold u64. rewrite Z.mod_pow2_bits_low, Z.lor_spec, Z.mod_pow2_bits_low, Z.lor_spec, Z.land_spec, Z.lnot_spec, testbit_mpp by lia.
    assert (i = 0 \/ i = 1) as [-> | ->] by lia; cbn; by rewrite ?andb_false_r.
  - rewrite !(Z.bits_above_log2 _ i) by (done || (cbn; lia)). apply andb_false_r.
Qed.

(** [start] as a whole. *)
Lemma start_eq s id :
  s.(priv) = 3 -> s.(cs) mhartid = id -> 0 <= id < NCPU ->
  exists g, start s = Ok tt (Core (upd s.(rf) tp id) g (timer_mem s.(cm) id) 1 main_addr) /\
    g mscratch = scratch id /\ g mtvec = timervec_addr /\ g mideleg = DELEGABLE /\ g medeleg = 0xf7ff /\ g satp = 0 /\
    g pmpaddr0 = 0x3fffffffffffff /\ g pmpcfg0 = 0xf /\ 
    g mie = u64 (Z.lor (blend DELEGABLE (u64 (Z.lor (Z.lor (Z.lor (Z.land (s.(cs) mie) DELEGABLE) SIE_SEIE) SIE_STIE) SIE_SSIE)) (s.(cs) mie)) MIE_MTIE).
Proof.
  intros Hp Hh Hid. unfold start, r_mhartid, r_mstatus, w_mstatus, w_mepc, w_satp, w_medeleg, w_mideleg, r_sie, w_sie, w_pmpaddr0, w_pmpcfg0, w_tp.
  do 10 mcsr. set (c := write_csr pmpcfg0 _ _).
  destruct (timerinit_eq c id) as (g & E & G1 & G2 & G3 & G4 & G5); [done..|]. rewrite E. cbn [obind bind]. mcsr.
  cbn [rset modify obind bind]. rewrite exec_mret by done. unfold go, with_csr, with_reg. cbn [read_csr cs rf cm priv pc].
  assert (Em : mpp (g mstatus) = 1) by (rewrite G3; apply mpp_boot).
  pose proof main_even as [Hm1 Hm2].
  assert (Ee : g mepc = main_addr).
  { rewrite G5 by decided. change (c.(cs) mepc) with (Z.land (u64 main_addr) (Z.lnot 1)). rewrite u64_small by done. by apply (land_lnot_small main_addr 1). }
  assert (Et : u64 (s32 (g mhartid)) = id) by (rewrite (G5 mhartid) by decided; change (c.(cs) mhartid) with (s.(cs) mhartid); rewrite Hh, hart_id, u64_small by (done || clia); done).
  rewrite Em, Ee, Et. eexists. split; [done|].
  assert (Eu : forall x y, y <> mstatus -> upd g mstatus x y = g y) by (intros x y Hy; unfold upd; by rewrite decide_False).
  rewrite !Eu by done.
  split_and!; rewrite ?G1, ?G2, ?G4, ?G5 by decided; try done.
Qed.

(** What runs between the interrupts, in user or supervisor mode: it cannot
    write the machine's registers, and leaves alone the words of the timer. *)
Record between (id : Z) (u v : core) : Prop := {
  bt_regs : regs_ok v;
  bt_priv : v.(priv) = 0 \/ v.(priv) = 1;
  bt_csr : forall c, c ∈ [mscratch; mtvec; mideleg] -> v.(cs) c = u.(cs) c;
  bt_mie : Z.testbit (v.(cs) mie) 7 = Z.testbit (u.(cs) mie) 7;
  bt_mem : forall a, a ∈ [scratch id + 24; scratch id + 32; CLINT_MTIMECMP id] -> load64 v.(cm) a = load64 u.(cm) a
}.

(** [n] timer interrupts of hart [id] later. *)
Inductive ticking (id : Z) : nat -> core -> core -> Prop :=
| tk_start s : ticking id 0 s s
| tk_run n s u v : ticking id n s u -> between id u v -> ticking id n s v
| tk_tick n s u v : ticking id n s u -> run timervec (timer_interrupt u) = Ok tt v -> ticking id (S n) s v.

Definition tick_inv (id t : Z) (n : nat) (u : core) : Prop :=
  regs_ok u /\ (u.(priv) = 0 \/ u.(priv) = 1) /\ timer_ready u (scratch id) (CLINT_MTIMECMP id) interval /\
  load64 u.(cm) (CLINT_MTIMECMP id) = u64 (t + (Z.of_nat n + 1) * interval).

Lemma between_inv id t n u v : tick_inv id t n u -> between id u v -> tick_inv id t n v.
Proof.
  intros (_ & _ & [[Hs Hal Hr Ha Hc] Hi Hv He Hd] & Hl) [Hok Hp Ec Em Eb].
  split_and!; [done|done| |by rewrite Eb by (rewrite !elem_of_cons; tauto)].
  split; [split|..]; rewrite ?Em, ?Ec, ?Eb by (rewrite !elem_of_cons; tauto); done.
Qed.

Lemma tick_result id t n u :
  tick_inv id t n u ->
  exists v, run timervec (timer_interrupt u) = Ok tt v /\ tick_inv id t (S n) v /\
    (forall r, v.(rf) r = u.(rf) r) /\ v.(pc) = u.(pc) /\ v.(priv) = u.(priv) /\
    read_csr v sstatus = read_csr u sstatus /\ Z.testbit (read_csr v sip) 1 = true /\
    same_except (timer_frame (scratch id) (CLINT_MTIMECMP id)) u.(cm) v.(cm).
Proof.
  intros (Hok & Hp & Ht & Hl). destruct (timer_tick_eq u _ _ _ Hok ltac:(tauto) Ht) as (v & E & Er & Epc & Epr & Em & Est & Eip & Ec).
  exists v. pose proof (rescheduled_except u (scratch id) (CLINT_MTIMECMP id)) as Hse. rewrite <- Em in Hse.
  assert (Ht' : timer_ready v (scratch id) (CLINT_MTIMECMP id) interval).
  { eapply timer_ready_frame; [done..|]. intros c Hc. apply Ec. revert Hc. rewrite !elem_of_cons, elem_of_nil. intros Hc Hc'.
    destruct Hc as [->|[->|[->|[->|[]]]]]; destruct Hc' as [?|[?|[?|[]]]]; discriminate. }
  split_and!; try done.
  - split_and!; [intros r; rewrite Er; apply Hok|by rewrite Epr|done|]. rewrite Em. unfold rescheduled.
    rewrite load64_store64, (tr_interval _ _ _ _ Ht), Hl. unfold u64. rewrite !Zplus_mod_idemp_l, Z.mod_mod by lia. f_equal. lia.
  - cbn. rewrite Est. apply sstatus_trap.
  - unfold read_csr. rewrite Eip, (tr_delegated _ _ _ _ Ht'), Z.land_spec, testbit_blend by lia. done.
Qed.

Lemma ticking_inv id t n s u : tick_inv id t 0 s -> ticking id n s u -> tick_inv id t n u.
Proof.
  intros H1 Hk. induction Hk as [|n s u v Hk IH Hb|n s u v Hk IH Hb]; [done|by eapply between_inv; eauto|].
  destruct (tick_result id t n u (IH H1)) as (v' & E & Hv & _). rewrite E in Hb. by injection Hb as <-.
Qed.

Lemma tick_enabled id t n u : tick_inv id t n u -> timer_enabled u = true /\ (timer_interrupt u).(pc) = timervec_addr.
Proof.
  intros (_ & Hp & [_ _ Hv He Hd] & _). pose proof timervec_ok as [_ Hm]. split.
  - unfold timer_enabled. rewrite He, Hd. by destruct Hp as [-> | ->].
  - cbn. rewrite Hv. by apply (land_lnot_small timervec_addr 2).
Qed.

(** The stack that [_entry] gives to a hart. *)
Lemma entry_setup_eq s id :
  s.(priv) = 3 -> s.(cs) mhartid = id -> 0 <= id < NCPU -> regs_ok s ->
  exists f, run entry_setup s = Ok tt (with_rf f s) /\ f sp = stack0 + 4096 * (id + 1) /\ regs_ok (with_rf f s) /\
    forall r, r ∉ [sp; a0; a1] -> f r = s.(rf) r.
Proof.
  intros Hp Hh Hid Hok. pose proof stack0_ok as [Hs1 Hs2]. unfold run, entry_setup. cbn [iterM exec1 bind obind rset modify rget gets].
  rewrite csr_get_M by done. cbn [bind obind read_csr]. eexists. split; [done|]. split_and!.
  - change (u64 (u64 stack0 + u64 (u64 4096 * u64 (u64 (s.(cs) mhartid) + 1))) = stack0 + 4096 * (id + 1)).
    rewrite Hh, (u64_small id), (u64_small (id + 1)), (u64_small 4096), (u64_small stack0), (u64_small (4096 * _)) by clia.
    apply u64_small. clia.
  - intros r. unfold with_reg, with_rf, upd. cbn [rf]. repeat case_decide; apply u64_range || apply Hok.
  - intros r Hr. rewrite !elem_of_cons, elem_of_nil in Hr. unfold with_reg, upd. cbn [rf]. by rewrite !decide_False by tauto.
Qed.

(** *** Interrupts that start enables *)

Lemma sie_bit x i : i ∈ [1; 5; 9] ->
  let v := Z.lor (Z.lor (Z.lor (Z.land x DELEGABLE) SIE_SEIE) SIE_STIE) SIE_SSIE in
  Z.testbit (Z.land (u64 (Z.lor (blend DELEGABLE (u64 v) x) MIE_MTIE)) DELEGABLE) i = true.
Proof.
  intros Hi v. rewrite !elem_of_cons, elem_of_nil in Hi. unfold u64.
  assert (Hr : 0 <= i < 64 /\ Z.testbit DELEGABLE i = true /\ Z.testbit (Z.lor (Z.lor SIE_SEIE SIE_STIE) SIE_SSIE) i = true)
    by (destruct Hi as [->|[->|[->|[]]]]; done).
  destruct Hr as (Hr & Hd & Hs). rewrite Z.land_spec, Z.mod_pow2_bits_low, Z.lor_spec, testbit_blend, Hd, Z.mod_pow2_bits_low by lia.
  unfold v. rewrite <- !Z.lor_assoc, Z.lor_spec, Z.lor_assoc, Hs. by rewrite orb_true_r.
Qed.

Lemma mtie_bit x : Z.testbit (u64 (Z.lor x MIE_MTIE)) 7 = true.
Proof. unfold u64. rewrite Z.mod_pow2_bits_low, Z.lor_spec by lia. apply orb_true_r. Qed.

Lemma timer_mem_ready m id : 0 <= id < NCPU ->
  load64 (timer_mem m id) (scratch id + 24) = CLINT_MTIMECMP id /\ load64 (timer_mem m id) (scratch id + 32) = interval /\
  load64 (timer_mem m id) (CLINT_MTIMECMP id) = u64 (load64 m CLINT_MTIME + interval).
Proof.
  intros Hid. destruct (scratch_range id Hid) as (Hs1 & Hs2 & Hs3), (mtimecmp_range id Hid) as (Hc1 & Hc2 & Hc3).
  change CLINT_MTIME with 33603576 in Hc2. change CLINT with 33554432 in Hc1. unfold timer_mem. split_and!.
  - rewrite load64_store64_ne, load64_store64 by lia. apply u64_small. clia.
  - rewrite load64_store64. done.
  - rewrite !load64_store64_ne, load64_store64 by clia. unfold u64. apply Z.mod_mod. lia.
Qed.

Lemma boot_eq s id :
  s.(priv) = 3 -> s.(cs) mhartid = id -> 0 <= id < NCPU -> regs_ok s ->
  exists s1, entry s = Ok tt s1 /\ s1.(priv) = 1 /\ s1.(pc) = main_addr /\ s1.(cs) satp = 0 /\
    s1.(rf) tp = id /\ s1.(rf) sp = stack0 + 4096 * (id + 1) /\
    (forall i, i ∈ [1; 5; 9] -> Z.testbit (read_csr s1 sie) i = true) /\ tick_inv id (load64 s.(cm) CLINT_MTIME) 0 s1.
Proof.
  intros Hp Hh Hid Hok. destruct (entry_setup_eq s id Hp Hh Hid Hok) as (f & E & Esp & Hf & _).
  destruct (start_eq (with_rf f s) id Hp Hh Hid) as (g & Es & G1 & G2 & G3 & _ & G5 & _ & _ & G8).
  unfold entry. cbn [bind]. rewrite E. cbn [obind]. rewrite Es. eexists. split; [done|]. cbn [priv pc cs rf cm].
  destruct (scratch_range id Hid) as (Hs1 & Hs2 & Hs3), (mtimecmp_range id Hid) as (Hc1 & Hc2 & Hc3).
  destruct (timer_mem_ready s.(cm) id Hid) as (M1 & M2 & M3).
  split_and!; try done.
  - intros i Hi. unfold read_csr. cbn [cs]. rewrite G3, G8. by apply sie_bit.
  - split_and!; [|by right|split; [split|..]|]; cbn [rf cs cm with_rf]; try done.
    + intros r. cbn [rf]. unfold upd. case_decide; [clia|apply Hf].
    + change CLINT_MTIME with 33603576 in Hc2. change CLINT with 33554432 in Hc1. clia.
    + change CLINT_MTIME with 33603576 in Hc2. change CLINT with 33554432 in Hc1. clia.
    + rewrite G8. apply mtie_bit.
Qed.

End Timer.

(** ** Both ways through the trampoline *)

Section Crossing.
Context `{ImageOk}.

(** What the kernel finds when [u] has trapped to it. *)
Record entered_kernel (tf : Z) (u s : core) : Prop := {
  ek_regs : forall r, load64 s.(cm) (tf + tf_off r) = u.(rf) r;
  ek_mem : same_except (fun b => tf + 40 <= b < tf + TF_size) u.(cm) s.(cm);
  ek_sp : s.(rf) sp = load64 u.(cm) (tf + TF_kernel_sp);
  ek_tp : s.(rf) tp = load64 u.(cm) (tf + TF_kernel_hartid);
  ek_satp : s.(cs) satp = load64 u.(cm) (tf + TF_kernel_satp);
  ek_pc : s.(pc) = Z.land (load64 u.(cm) (tf + TF_kernel_trap)) (Z.lnot 1);
  ek_priv : s.(priv) = 1;
  ek_sepc : s.(cs) sepc = u.(pc);
  ek_spp : Z.testbit (s.(cs) mstatus) 8 = false
}.

(** What the user program finds when the kernel [s] has returned to it. *)
Record resumed_user (root tf : Z) (s u : core) : Prop := {
  ru_regs : forall r, u.(rf) r = load64 s.(cm) (tf + tf_off r);
  ru_mem : u.(cm) = s.(cm);
  ru_satp : u.(cs) satp = MAKE_SATP root;
  ru_stvec : u.(cs) stvec = s.(cs) stvec;
  ru_pc : u.(pc) = s.(cs) sepc;
  ru_priv : u.(priv) = if Z.testbit (s.(cs) mstatus) 8 then 1 else 0
}.

Lemma uservec_enters k root F T U sz tf cause val (u : core) :
  pspace k root F T U sz tf -> page_ok tf -> tf ∉ pages_of T -> regs_ok u ->
  u.(cm) = k.(k_mem) -> u.(priv) = 0 -> u.(cs) satp = MAKE_SATP root ->
  satp_ok (load64 u.(cm) (tf + TF_kernel_satp)) = true ->
  exists s, run uservec_code (supervisor_trap cause val u) = Ok tt s /\ entered_kernel tf u s.
Proof.
  intros Hps Hok Hnew Hregs Hm Hp Hs Hkok. set (s := supervisor_trap cause val u).
  assert (Hw : window (in_page tf) s TRAPFRAME PGSIZE tf) by (by eapply trapframe_window).
  exists (entered tf s). split; [by apply uservec_eq|]. split; try done.
  - intros r. by apply (entered_regs tf s).
  - apply (entered_except tf s).
  - change (Z.testbit (put_bit 8 (u.(priv) =? 1) (put_bit 1 false (put_bit 5 (Z.testbit (u.(cs) mstatus) 1) (u.(cs) mstatus)))) 8 = false).
    bits. by rewrite Hp.
Qed.

Lemma userret_resumes k root F T U sz tf (s : core) :
  pspace k root F T U sz tf -> page_ok tf -> tf ∉ pages_of T ->
  s.(cm) = k.(k_mem) -> s.(priv) = 1 -> s.(rf) a0 = MAKE_SATP root ->
  exists u, run userret_code s = Ok tt u /\ resumed_user root tf s u.
Proof.
  intros Hps Hok Hnew Hm Hp Ha. assert (Hroot : page_ok root).
  { destruct (vinv_tree _ _ _ _ _ (psp_vinv _ _ _ _ _ _ _ Hps)) as [_ Hpages]. apply (Forall_elem _ _ _ Hpages), elem_pages_of.
    eexists. apply (pr_root _ _ _ (vi_pt _ _ _ _ _ (psp_vinv _ _ _ _ _ _ _ Hps))). }
  destruct (satp_make root Hroot) as (_ & Emode & Hrange). exists (returned tf (MAKE_SATP root) s).
  split; [apply userret_eq; try done; [unfold satp_ok; by rewrite Emode|by eapply trapframe_window]|].
  split; try done. intros r. apply returned_regs.
Qed.

End Crossing.

(** ** Values of registers *)

(** Every register holds a 64-bit value. *)
Record core_ok (s : core) : Prop := {
  co_regs : regs_ok s;
  co_csr : forall c, 0 <= s.(cs) c < 2 ^ 64;
  co_pc : 0 <= s.(pc) < 2 ^ 64
}.

Lemma blend_range m v x : 0 <= v < 2 ^ 64 -> 0 <= x < 2 ^ 64 -> 0 <= blend m v x < 2 ^ 64.
Proof. intros Hv Hx. apply lor_range; [done|by apply land_range..]. Qed.

Lemma put_bit_range i b x : 0 <= i < 64 -> 0 <= x < 2 ^ 64 -> 0 <= put_bit i b x < 2 ^ 64.
Proof.
  intros Hi Hx. unfold put_bit, Z.setbit, Z.clearbit. destruct b; [|rewrite Z.ldiff_land; by apply (land_range 64)].
  apply (lor_range 64); [done|done|]. rewrite Z.shiftl_1_l. split; [apply Z.pow_nonneg; lia|apply Z.pow_lt_mono_r; lia].
Qed.

Lemma with_csr_ok c v s : core_ok s -> 0 <= v < 2 ^ 64 -> core_ok (with_csr c v s).
Proof. intros [Hr Hc Hp] Hv. split; [done| |done]. intros c'. cbn. unfold upd. by case_decide. Qed.

Lemma with_reg_ok r v s : core_ok s -> core_ok (with_reg r v s).
Proof. intros [Hr Hc Hp]. split; [|done..]. intros r'. cbn. unfold upd. case_decide; [apply u64_range|apply Hr]. Qed.

Lemma write_csr_ok c v s : core_ok s -> 0 <= v < 2 ^ 64 -> core_ok (write_csr c v s).
Proof.
  intros Hs Hv. pose proof (co_csr _ Hs). destruct c; cbn [write_csr]; try (by apply with_csr_ok);
    try (apply with_csr_ok; [done|]; by apply (land_range 64)); try (apply with_csr_ok; [done|]; by apply blend_range).
  by destruct (satp_ok v); [apply with_csr_ok|].
Qed.

Lemma sret_range x : 0 <= x < 2 ^ 64 -> 0 <= sret_status x < 2 ^ 64.
Proof. intros Hx. unfold sret_status. repeat apply put_bit_range; done || lia. Qed.
Lemma mret_range x : 0 <= x < 2 ^ 64 -> 0 <= mret_status x < 2 ^ 64.
Proof. intros Hx. unfold mret_status. apply blend_range; [done|]. repeat apply put_bit_range; done || lia. Qed.

Lemma access_same w va s pa s' : access w va s = Ok pa s' -> s' = s.
Proof. unfold access. destruct (negb _); [done|]. destruct (translate s w va); [|done]. by intros [= _ ->]. Qed.

Lemma exec1_ok i s s' : core_ok s -> exec1 i s = Ok tt s' -> core_ok s'.
Proof.
  intros Hs E. pose proof Hs as [Hr Hc Hpc]. destruct i; cbn in E; unfold rset, csr_get, csr_set, store_d, load_d in E; cbn in E.
  - destruct (access _ _ s) as [pa s1|?| | |] eqn:Ea; cbn in E; try done. apply access_same in Ea as ->. injection E as <-. by split.
  - destruct (access _ _ s) as [pa s1|?| | |] eqn:Ea; cbn in E; try done. apply access_same in Ea as ->. injection E as <-. by apply with_reg_ok.
  - injection E as <-. by apply with_reg_ok.
  - injection E as <-. by apply with_reg_ok.
  - injection E as <-. by apply with_reg_ok.
  - injection E as <-. by apply with_reg_ok.
  - destruct (_ <? _); cbn in E; [done|]. injection E as <-. by apply with_reg_ok.
  - destruct (_ || _); cbn in E; [done|]. injection E as <-. apply write_csr_ok; [done|apply u64_range].
  - destruct (_ <? _); cbn in E; [done|]. destruct (_ || _); cbn in E; [done|]. injection E as <-.
    apply with_reg_ok, write_csr_ok; [done|apply u64_range].
  - destruct (_ <? _); cbn in E; [done|]. by injection E as <-.
  - injection E as <-. split; [done|done|]. apply (land_range 64); [done|apply Hr].
  - destruct (_ <? _); cbn in E; [done|]. injection E as <-.
    destruct (with_csr_ok mstatus (sret_status (s.(cs) mstatus)) s Hs) as [? ? ?]; [by apply sret_range|]. split; [done|done|apply Hc].
  - destruct (_ <? _); cbn in E; [done|]. injection E as <-.
    destruct (with_csr_ok mstatus (mret_status (s.(cs) mstatus)) s Hs) as [? ? ?]; [by apply mret_range|]. split; [done|done|apply Hc].
Qed.

(** ** Properties *)

Section Properties.
Context `{ImageOk} `{BootOk}.

(** C22: the hardware and vm.c agree on what a page table means.  In an address
    space that vm.c built, the Sv39 walk of a hart reaches, for every address
    below MAXVA, exactly the leaf entry whose address [walk] returns: the
    access is allowed when that entry exists and its bits allow it, goes to the
    page of the entry, and faults otherwise. *)
Theorem sv39_walk (s : kst) root F T U u w va :
  vinv s root F T U -> 0 <= va < MAXVA ->
  exists e, walk root va false s = Ok e s /\
    sv39 s.(k_mem) root u w va =
    (let pte := load64 s.(k_mem) e in
     if negb (e =? 0) && pte_leaf u w pte then Some (PTE2PA pte + va mod PGSIZE) else None).
Proof.
  intros Hv Hva. eexists. split; [by apply (vinv_walk _ _ _ _ _ _ Hv)|]. destruct (vinv_tree _ _ _ _ _ Hv) as [_ Hok].
  rewrite (sv39_tree _ T) by (done || apply (vi_pt _ _ _ _ _ Hv)). unfold pte_of. destruct (T !! leaf_path va) as [q|] eqn:E; [|done].
  destruct (vinv_leaf _ _ _ _ _ _ _ Hv E) as [Hq _]. pose proof (page_pos q Hq). pose proof (PX_range 0 va ltac:(lia)).
  destruct (Z.eqb_spec (q + 8 * PX 0 va) 0); [lia|done].
Qed.


(** C8: a trap leaves a user program its registers.  When a process with
    trapframe [tf] traps from user mode, [uservec], running on the process's
    page table, stores every register in its field of [struct trapframe],
    writes no other memory, and enters the kernel with the stack pointer, hart
    number, page table and trap handler that the trapframe names.  Whatever
    the kernel does then, [userret] on the page table of a process with
    trapframe [tf'] loads every register from its field of that trapframe and
    continues at [sepc] in the mode of SPP: with the fields, [sepc] and SPP as
    the trap left them, the program goes on as if nothing had happened. *)
Theorem trampoline_spec (k : kst) root F T U sz tf cause val (u : core) :
  pspace k root F T U sz tf -> page_ok tf -> tf ∉ pages_of T -> regs_ok u ->
  u.(cm) = k.(k_mem) -> u.(priv) = 0 -> u.(cs) satp = MAKE_SATP root ->
  satp_ok (load64 u.(cm) (tf + TF_kernel_satp)) = true ->
  exists s1, run uservec_code (supervisor_trap cause val u) = Ok tt s1 /\ entered_kernel tf u s1 /\
  forall k' root' F' T' U' sz' tf' s2,
    pspace k' root' F' T' U' sz' tf' -> page_ok tf' -> tf' ∉ pages_of T' ->
    s2.(cm) = k'.(k_mem) -> s2.(priv) = 1 -> s2.(rf) a0 = MAKE_SATP root' ->
    exists s3, run userret_code s2 = Ok tt s3 /\ resumed_user root' tf' s2 s3 /\
      (s2.(cs) sepc = s1.(cs) sepc -> Z.testbit (s2.(cs) mstatus) 8 = Z.testbit (s1.(cs) mstatus) 8 ->
       (forall r, load64 s2.(cm) (tf' + tf_off r) = load64 s1.(cm) (tf + tf_off r)) ->
       (forall r, s3.(rf) r = u.(rf) r) /\ s3.(pc) = u.(pc) /\ s3.(priv) = u.(priv)).
Proof.
  intros Hps Hok Hnew Hregs Hm Hp Hs Hkok. destruct (uservec_enters _ _ _ _ _ _ _ cause val u Hps Hok Hnew Hregs Hm Hp Hs Hkok) as (s1 & E1 & H1').
  exists s1. split; [done|]. split; [done|]. intros k' root' F' T' U' sz' tf' s2 Hps' Hok' Hnew' Hm' Hp' Ha'.
  destruct (userret_resumes _ _ _ _ _ _ _ s2 Hps' Hok' Hnew' Hm' Hp' Ha') as (s3 & E3 & H3'). exists s3. split; [done|]. split; [done|].
  intros Epc Espp Er. destruct H1', H3'. split_and!; [intros r; congruence|congruence|].
  rewrite ru_priv0, Espp, ek_spp0. by rewrite Hp.
Qed.

(** C28: [swtch] suspends a thread of the kernel and resumes it.  It saves the
    caller's return address, stack pointer and callee-saved registers in the
    context that its first argument points to, writing no other memory, and
    continues with those of the context of its second argument.  A later
    [swtch] to the saved context, with the context's bytes unchanged, gives
    the thread its registers back and returns to the instruction after its
    own call. *)
Theorem swtch_resumes (P : Z -> Prop) (s : core) (po pn : Z) :
  regs_ok s -> window P s (s.(rf) a0) ctx_size po -> window P s (s.(rf) a1) ctx_size pn ->
  (forall c, po <= c < po + ctx_size -> P c) -> po + ctx_size <= pn \/ pn + ctx_size <= po ->
  exists s1, run swtch_code s = Ok tt s1 /\
    context_at s1.(cm) po = context_of s.(rf) /\
    same_except (fun b => po <= b < po + ctx_size) s.(cm) s1.(cm) /\
    context_of s1.(rf) = context_at s.(cm) pn /\ s1.(pc) = Z.land (load64 s.(cm) (pn + 0)) (Z.lnot 1) /\
    s1.(priv) = s.(priv) /\ s1.(cs) = s.(cs) /\
  forall P' s2 pq, window P' s2 (s2.(rf) a0) ctx_size pq -> window P' s2 (s2.(rf) a1) ctx_size po ->
    (forall c, pq <= c < pq + ctx_size -> P' c) -> pq + ctx_size <= po \/ po + ctx_size <= pq ->
    context_at s2.(cm) po = context_at s1.(cm) po ->
    exists s3, run swtch_code s2 = Ok tt s3 /\ context_of s3.(rf) = context_of s.(rf) /\ s3.(pc) = Z.land (s.(rf) ra) (Z.lnot 1).
Proof.
  intros Hok Ho Hn HP Hd. destruct (swtch_switch P s po pn Ho Hn HP Hd) as (s1 & E & Ec & Hm & Er & Epc & Epr & Ecs).
  specialize (Ec Hok). exists s1. split_and!; try done. intros P' s2 pq Hq Hr HP' Hd' Eq.
  destruct (swtch_switch P' s2 pq po Hq Hr HP' Hd') as (s3 & E3 & _ & _ & Er3 & Epc3 & _).
  exists s3. rewrite E3, Er3, Epc3, Eq, Ec. split_and!; [done..|]. rewrite Ec in Eq. by injection Eq as -> _.
Qed.

(** C29: an interrupt in the kernel is transparent to the interrupted code.
    [kernelvec] pushes a frame with all registers on the current stack, calls
    [kerneltrap] and returns.  If [kerneltrap] returns in supervisor mode with
    the stack pointer, the bytes of the frame and the saved [sepc] and
    [sstatus] as they were, the code continues at the interrupted instruction
    in supervisor mode, with interrupts enabled as before and every register
    as before, except [tp], which holds the number of the hart that it now
    runs on; memory is as [kerneltrap] left it. *)
Theorem kernelvec_transparent (P : Z -> Prop) (kerneltrap : M core unit) cause val (u c2 : core) pa :
  regs_ok u -> u.(priv) = 1 -> kv_size <= u.(rf) sp ->
  let s := supervisor_trap cause val u in
  window P s (u.(rf) sp - kv_size) kv_size pa -> (forall c, pa <= c < pa + kv_size -> P c) ->
  kerneltrap (framed pa s) = Ok tt c2 ->
  c2.(priv) = 1 -> c2.(rf) sp = u.(rf) sp - kv_size -> window P c2 (u.(rf) sp - kv_size) kv_size pa ->
  ld_bytes c2.(cm) pa 256 = ld_bytes (framed pa s).(cm) pa 256 ->
  c2.(cs) sepc = s.(cs) sepc -> c2.(cs) mstatus = s.(cs) mstatus ->
  exists s', kernelvec_code kerneltrap s = Ok tt s' /\
    (forall r, r <> tp -> s'.(rf) r = u.(rf) r) /\ s'.(rf) tp = c2.(rf) tp /\
    s'.(pc) = u.(pc) /\ s'.(priv) = 1 /\ s'.(cm) = c2.(cm) /\
    Z.testbit (read_csr s' sstatus) 1 = Z.testbit (read_csr u sstatus) 1.
Proof.
  intros Hok Hp Hsp s Hw HP Ek Hp2 Hsp2 Hw2 Hb Hepc Hst. pose proof (Hok sp) as Hr.
  assert (Esp : u64 (s.(rf) sp - kv_size) = u.(rf) sp - kv_size) by (apply u64_small; change (s.(rf) sp) with (u.(rf) sp); unfold kv_size in *; lia).
  assert (Hl : forall r, load64 c2.(cm) (pa + kv_off r) = (framed pa s).(rf) r).
  { intros r. pose proof (kv_off_range r). rewrite (bytes_word _ _ _ _ _ Hb) by lia. by apply framed_regs. }
  assert (E8 : load64 c2.(cm) (pa + 8) = u.(rf) sp - kv_size) by (etransitivity; [apply (Hl sp)|exact Esp]).
  destruct (kernelvec_restore_eq P c2 pa (u.(rf) sp - kv_size) Hp2 Hsp2 Hw2 E8) as (f & E & Hf & Hfsp & Hftp).
  unfold kernelvec_code. cbn [bind]. rewrite (kernelvec_save_eq P s pa) by (by rewrite ?Esp). cbn [obind bind]. rewrite Ek. cbn [obind bind]. rewrite E.
  eexists. split; [done|]. cbn [rf pc priv cm go with_csr with_rf]. rewrite Hst, Hepc. split_and!; try done.
  - intros r Ht. destruct (decide (r = sp)) as [->|Hs]; [rewrite Hfsp, Z.sub_add; by apply u64_small|].
    rewrite Hf, Hl by done. cbn. unfold upd. by rewrite decide_False.
  - replace (Z.testbit (s.(cs) mstatus) 8) with true; [done|].
    change (s.(cs) mstatus) with (put_bit 8 (u.(priv) =? 1) (put_bit 1 false (put_bit 5 (Z.testbit (u.(cs) mstatus) 1) (u.(cs) mstatus)))).
    bits. by rewrite Hp.
  - unfold read_csr. cbn [cs go with_csr]. unfold upd at 1. rewrite decide_True by done. rewrite !Z.land_spec. f_equal. unfold sret_status.
    change (s.(cs) mstatus) with (put_bit 8 (u.(priv) =? 1) (put_bit 1 false (put_bit 5 (Z.testbit (u.(cs) mstatus) 1) (u.(cs) mstatus)))).
    by bits.
Qed.

(** C18: every hart boots into [main] and its clock never stops.  From machine
    mode on hart [id], entry.S and start.c end in supervisor mode at [main]
    with paging off, the hart's number in [tp], its own 4096-byte stack and the
    supervisor's three kinds of interrupt enabled; the first timer interrupt
    is due [interval] cycles after the boot.  From then on, after any number
    [n] of timer interrupts with any user and supervisor code between them,
    the next one is due [n + 1] intervals after the boot, is enabled and
    enters [timervec]; and [timervec] returns to the interrupted code with its
    registers, program counter, privilege and [sstatus] unchanged, memory
    changed only in the hart's save area and timer register, and a supervisor
    software interrupt pending for [devintr]. *)
Theorem boot_timer (s : core) (id : Z) :
  s.(priv) = 3 -> s.(cs) mhartid = id -> 0 <= id < NCPU -> regs_ok s ->
  exists s1, entry s = Ok tt s1 /\ s1.(priv) = 1 /\ s1.(pc) = main_addr /\ s1.(cs) satp = 0 /\
    s1.(rf) tp = id /\ s1.(rf) sp = stack0 + 4096 * (id + 1) /\
    (forall i, i ∈ [1; 5; 9] -> Z.testbit (read_csr s1 sie) i = true) /\
  forall n u, ticking id n s1 u ->
    load64 u.(cm) (CLINT_MTIMECMP id) = u64 (load64 s.(cm) CLINT_MTIME + (Z.of_nat n + 1) * interval) /\
    timer_enabled u = true /\ (timer_interrupt u).(pc) = timervec_addr /\
    exists v, run timervec (timer_interrupt u) = Ok tt v /\
      (forall r, v.(rf) r = u.(rf) r) /\ v.(pc) = u.(pc) /\ v.(priv) = u.(priv) /\
      read_csr v sstatus = read_csr u sstatus /\ Z.testbit (read_csr v sip) 1 = true /\
      same_except (timer_frame (scratch id) (CLINT_MTIMECMP id)) u.(cm) v.(cm).
Proof.
  intros Hp Hh Hid Hok. destruct (boot_eq s id Hp Hh Hid Hok) as (s1 & E & Hb1 & Hb2 & Hb3 & Hb4 & Hb5 & Hb6 & Hinv).
  exists s1. split_and!; try done. intros n u Hk. pose proof (ticking_inv _ _ _ _ _ Hinv Hk) as Hu.
  destruct (tick_enabled _ _ _ _ Hu) as [He Hv]. destruct (tick_result _ _ _ _ Hu) as (v & Ev & _ & Hrest).
  split_and!; [apply Hu|done|done|]. by exists v.
Qed.

End Properties.

(** ** Examples *)

#[local] Existing Instance demo_image12.
#[local] Existing Instance demo_image12_ok.

(** With twelve pages of memory, there is room for a trapframe and its page
    table. *)
Definition pagetable_fits (k : kst) : bool :=
  match (kinit ;; tf <- kalloc ;; proc_pagetable tf) k with Ok r _ => negb (r =? 0) | _ => false end.

Lemma pagetable_fits_run k s0 tf s1 r s2 :
  kinit k = Ok tt s0 -> kalloc s0 = Ok tf s1 -> proc_pagetable tf s1 = Ok r s2 -> pagetable_fits k = negb (r =? 0).
Proof. intros E0 E1 E2. unfold pagetable_fits. cbn [bind]. rewrite E0. cbn [obind bind]. rewrite E1. cbn [obind bind]. by rewrite E2. Qed.

Lemma demo_pagetable_fits : pagetable_fits demo_kst = true.
Proof. vm_compute. reflexivity. Qed.

Lemma demo_pspace : exists k root F T tf, pspace k root F T ∅ 0 tf /\ page_ok tf /\ (tf ∉ owned F T ∅) /\
  load64 k.(k_mem) (tf + 0) = 0x0505050505050505.
Proof.
  destruct (kinit_inv demo_kst demo_hart_stable eq_refl) as (s0 & l & Ek & Hk & _ & Hl). destruct l as [|tf F].
  { exfalso. apply (not_elem_of_nil (PHYSTOP - PGSIZE)), Hl. split; [reflexivity|vm_compute; split; [discriminate|reflexivity]]. }
  destruct (kalloc_inv s0 tf F Hk) as (s1 & Ea & Hk1 & Htf & Hn & _ & _ & H5).
  destruct (proc_pagetable_cases s1 F tf Hk1 Htf) as (r & s2 & E & _ & Hf & Hres).
  pose proof (pagetable_fits_run _ _ _ _ _ _ Ek Ea E) as Hfit. rewrite demo_pagetable_fits in Hfit.
  destruct Hres as [(_ & F' & T & Hps & Hp)|(-> & _)]; [|discriminate Hfit]. clear Hfit. exists s2, r, F', T, tf. split; [done|]. split; [done|].
  split; [intros Hin; apply Hn; rewrite <- Hp; unfold owned, pages_of in *; rewrite map_to_list_empty, app_nil_r in Hin; exact Hin|]. unfold load64. cbn [ld_bytes].
  assert (H6 : forall b, in_page tf b -> rd s2.(k_mem) b = 5).
  { intros b Hb. rewrite Hf; [by apply H5|]. intros (a & Ha & Hab). apply Hn. rewrite <- (pages_disjoint a tf b); [done| |apply Htf|done..].
    apply (Forall_elem page_ok F a); [apply Hk1|done]. }
  by rewrite !H6 by (unfold in_page; clia).
Qed.

Lemma sv39_walk_witness : exists k root e, walk root TRAPFRAME false k = Ok e k /\
  is_Some (sv39 k.(k_mem) root false true TRAPFRAME) = is_Some (if negb (e =? 0) && pte_leaf false true (load64 k.(k_mem) e) then Some (PTE2PA (load64 k.(k_mem) e) + 0) else None).
Proof.
  destruct demo_pspace as (k & root & F & T & tf & Hps & _).
  destruct (sv39_walk k root F T ∅ false true TRAPFRAME) as (e & Ew & E); [apply Hps|clia|].
  exists k, root, e. split; [exact Ew|]. rewrite E. reflexivity.
Defined.

Definition demo_core (m : mem) (root : Z) : core :=
  Core (fun r => tf_off r) (upd (fun _ => 0) satp (MAKE_SATP root)) m 0 0x1000.

Lemma trampoline_spec_witness : exists k root tf s1,
  let u := demo_core k.(k_mem) root in
  run uservec_code (supervisor_trap 8 0 u) = Ok tt s1 /\ (forall r, load64 s1.(cm) (tf + tf_off r) = tf_off r) /\ s1.(cs) sepc = 0x1000.
Proof.
  destruct demo_pspace as (k & root & F & T & tf & Hps & Hok & Hn & E0).
  destruct (trampoline_spec k root F T ∅ 0 tf 8 0 (demo_core k.(k_mem) root)) as (s1 & E & [Er _ _ _ _ _ _ Ep _] & _);
    try done.
  - intros Hin. apply Hn. unfold owned. lelem.
  - intros r. destruct r; cbn; lia.
  - change (satp_ok (load64 k.(k_mem) (tf + 0)) = true). rewrite E0. reflexivity.
  - exists k, root, tf, s1. auto.
Defined.


(** Two threads that take turns, with translation off. *)
Definition demo_thread (m : mem) (old new : Z) : core :=
  Core (upd (upd (upd (fun _ => 0x3000) ra 0x80001000) a0 old) a1 new) (fun _ => 0) m 1 0x80002000.

Lemma swtch_resumes_witness : exists s1 s3,
  run swtch_code (demo_thread ∅ 0x1000 0x2000) = Ok tt s1 /\ run swtch_code (demo_thread s1.(cm) 0x2000 0x1000) = Ok tt s3 /\
  context_of s3.(rf) = context_of (demo_thread ∅ 0x1000 0x2000).(rf).
Proof.
  destruct (swtch_resumes (fun _ => True) (demo_thread ∅ 0x1000 0x2000) 0x1000 0x2000) as (s1 & E1 & _ & _ & _ & _ & _ & _ & Hback).
  - intros r. destruct r; vm_compute; split; discriminate || reflexivity.
  - apply window_bare; first [right; reflexivity | reflexivity | vm_compute; discriminate].
  - apply window_bare; first [right; reflexivity | reflexivity | vm_compute; discriminate].
  - done.
  - left. reflexivity || (unfold ctx_size; lia).
  - destruct (Hback (fun _ => True) (demo_thread s1.(cm) 0x2000 0x1000) 0x2000) as (s3 & E3 & Ec & _).
    + apply window_bare; first [right; reflexivity | reflexivity | vm_compute; discriminate].
    + apply window_bare; first [right; reflexivity | reflexivity | vm_compute; discriminate].
    + done.
    + right. unfold ctx_size. lia.
    + reflexivity.
    + exists s1, s3. auto.
Defined.

(** A handler that does nothing. *)
Lemma kernelvec_transparent_witness : exists s',
  kernelvec_code (ret tt) (supervisor_trap 0x8000000000000001 0 (demo_thread ∅ 0 0)) = Ok tt s' /\ s'.(rf) ra = 0x80001000.
Proof.
  set (u := demo_thread ∅ 0 0). set (s := supervisor_trap 0x8000000000000001 0 u).
  assert (W : forall c, c.(cs) satp = 0 -> window (fun _ => True) c (0x3000 - kv_size) kv_size (0x3000 - kv_size)).
  { intros c Hc. apply window_bare; [right; rewrite Hc; reflexivity|reflexivity|unfold kv_size; lia..]. }
  destruct (kernelvec_transparent (fun _ => True) (ret tt) 0x8000000000000001 0 u (framed (0x3000 - kv_size) s) (0x3000 - kv_size))
    as (s' & E & Er & _); try reflexivity.
  - intros r. destruct r; vm_compute; split; discriminate || reflexivity.
  - vm_compute. discriminate.
  - apply (W s). reflexivity.
  - apply (W (framed _ s)). reflexivity.
  - exists s'. split; [exact E|]. apply (Er ra). discriminate.
Defined.

(** A linked kernel. *)
#[local] Instance demo_boot : BootImage := {|
  main_addr := KERNBASE + 0xe00;
  timervec_addr := KERNBASE + 0x5000;
  stack0 := KERNBASE + 0x8000;
  timer_scratch := KERNBASE + 0x10000
|}.
#[local] Instance demo_boot_ok : BootOk.
Proof. split; vm_compute; repeat split; done. Qed.

(** Hart 3 at power-on. *)
Definition demo_reset : core := Core (fun _ => 0) (upd (fun _ => 0) mhartid 3) ∅ 3 KERNBASE.

Lemma boot_timer_witness : exists s1 v, entry demo_reset = Ok tt s1 /\ s1.(pc) = KERNBASE + 0xe00 /\
  run timervec (timer_interrupt s1) = Ok tt v /\ v.(pc) = s1.(pc).
Proof.
  destruct (boot_timer demo_reset 3) as (s1 & E & _ & Epc & _ & _ & _ & _ & Hk).
  - reflexivity.
  - reflexivity.
  - split; reflexivity || discriminate.
  - intros r. split; reflexivity || discriminate.
  - destruct (Hk 0%nat s1 (tk_start 3 s1)) as (_ & _ & _ & v & Ev & _ & Ep & _). exists s1, v. auto.
Defined.
