(* ===== verification/TrapThm.v ===== *)
(** * Returning to user space, and the next trap

    usertrapret of kernel/trap.c together with the trampoline: the kernel
    leaves the trapframe such that the user program resumes where it was, and
    the trap that ends its turn enters the kernel again. *)

From S2P Require Import Prelude Riscv Memory Spinlock Kalloc Vm Pagetable Uvm Uspace Aspace Tty Proc ProcSpec ProcMem AllocProc Sleeplock Uart Console Pipe Bio Block Log Fs File Sysarg Exec Sysfile Sysproc Trap Asm AsmThm.

(** ** Writes to the trapframe *)

Section Trapframe.
Context `{ImageOk}.

(** An address space does not change with the bytes of its trapframe. *)
Lemma pspace_write k root F T U sz tf m :
  pspace k root F T U sz tf -> page_ok tf -> tf ∉ owned F T U -> same_except (in_page tf) k.(k_mem) m ->
  pspace (mem_st k m) root F T U sz tf.
Proof.
  intros [Hv Hc Hsz Ht Htf Hr] Hok Hn Hm. destruct Hv as [Hh Hl Hf Hp Hd Hpg Hu].
  assert (Hout : forall a b, a ∈ owned F T U -> in_page a b -> ~ in_page tf b).
  { intros a b Ha Hab Htb. apply Hn. rewrite <- (pages_disjoint a tf b); [done| |apply Hok|done..]. apply (Forall_elem _ _ _ Hpg Ha). }
  destruct (pt_frame (in_page tf) k.(k_mem) m T root Hp Hm) as [Hp' Hview].
  { intros p a b Ha Hab. apply (Hout a b); [|done]. assert (a ∈ pages_of T) by (apply elem_pages_of; eauto). unfold owned. lelem. }
  split; [split|done..| | |]; cbn [mem_st k_hart k_mem kmem_lock freelist]; try done.
  - eapply (fl_rep_except (in_page tf)); [| |done|done].
    + unfold owned in Hpg. by apply Forall_app in Hpg as [? _].
    + intros a b Ha. apply Hout. unfold owned. lelem.
  - intros va pa Hva. rewrite Hview. by apply Hu.
  - by rewrite Hview.
  - by rewrite Hview.
  - intros va Hva. rewrite Hview. by apply Hr.
Qed.

End Trapframe.

(** ** usertrapret *)

Section Return.
Context {D : Type} `{DiskDriver D} `{DiskControl D} `{Patience} `{ImageOk} `{StackByte}.

(** What [usertrapret] leaves in the trapframe and in the registers. *)
Definition ret_mem (m : mem) (tf kstack : Z) (h : hart) : mem :=
  store64 (store64 (store64 (store64 m (tf + TF_kernel_satp) (u64 h.(satp)))
    (tf + TF_kernel_sp) (u64 (u64 (kstack + PGSIZE)))) (tf + TF_kernel_trap) (u64 usertrap_addr))
    (tf + TF_kernel_hartid) (u64 h.(tp)).
Definition ret_hart (m : mem) (tf : Z) (h : hart) : hart :=
  let h1 := with_stvec (u64 (TRAMPOLINE + (uservec - trampoline))) (intr_off h) in
  with_sepc (load64 m (tf + TF_epc))
    (with_sstatus (Z.lor (Z.land h1.(sstatus) (Z.lnot SSTATUS_SPP)) SSTATUS_SPIE) h1).

(** The code of usertrapret, step by step, over the process layer [t]. *)
Definition set_mem (m : mem) (t : pst) : pst := put_k (mem_st t.(p_k) m) t.
Definition set_hart (h : hart) (t : pst) : pst := put_k (AllocProc.khart h t.(p_k)) t.
Abbreviation in_ker t s := (put (the_pst (S := ker D)) t s).

Lemma kme_eq p t s : hart_stable (phart t) -> (phart t).(cpu_proc) = Some p -> kme (in_ker t s) = Ok p (in_ker t s).
Proof.
  intros Hh Hp. unfold kme, kproc. rewrite (zoom_ok the_pst _ _ p t); [by rewrite put_put|]. rewrite view_put. by apply myprocp_eq.
Qed.
Lemma khart_get_eq t s : get Trap.khart (in_ker t s) = Ok (phart t) (in_ker t s).
Proof. done. Qed.
Lemma khart_update_eq f t s : update Trap.khart f (in_ker t s) = Ok tt (in_ker (set_hart (f (phart t)) t) s).
Proof. done. Qed.
Lemma kget_eq p t s : kget p (in_ker t s) = Ok (pproc t p) (in_ker t s).
Proof. unfold kget, kproc. rewrite (zoom_ok the_pst _ _ (pproc t p) t); [by rewrite put_put|]. by rewrite view_put. Qed.
Lemma tf_set_eq p off v t s :
  tf_set p off v (in_ker t s) = Ok tt (in_ker (set_mem (store64 t.(p_k).(k_mem) ((pproc t p).(p_trapframe) + off) (u64 v)) t) s).
Proof.
  unfold tf_set. cbn [bind]. rewrite kget_eq. cbn [obind]. unfold kmem.
  rewrite (zoom_ok the_pst _ _ tt (set_mem (store64 t.(p_k).(k_mem) ((pproc t p).(p_trapframe) + off) (u64 v)) t)); [by rewrite put_put|].
  rewrite view_put. done.
Qed.
Lemma tf_get_eq p off t s : tf_get p off (in_ker t s) = Ok (load64 t.(p_k).(k_mem) ((pproc t p).(p_trapframe) + off)) (in_ker t s).
Proof.
  unfold tf_get. cbn [bind]. rewrite kget_eq. cbn [obind]. unfold kmem.
  rewrite (zoom_ok the_pst _ _ (load64 t.(p_k).(k_mem) ((pproc t p).(p_trapframe) + off)) t); [by rewrite put_put|].
  rewrite view_put. by destruct t.
Qed.

Lemma usertrapret_eq (p : fin 64) (s : ker D) :
  let t := view the_pst s in
  let x := pproc t p in
  let m := ret_mem t.(p_k).(k_mem) x.(p_trapframe) x.(p_kstack) (phart t) in
  hart_stable (phart t) -> (phart t).(cpu_proc) = Some p ->
  usertrapret s =
  Ok (u64 (TRAMPOLINE + (userret - trampoline)), MAKE_SATP x.(p_pagetable))
     (in_ker (set_hart (ret_hart m x.(p_trapframe) (phart t)) (set_mem m t)) s).
Proof.
  intros t x m Hh Hp. rewrite <- (put_view (l := the_pst) s) at 1. fold t. unfold usertrapret. cbn [bind]. rewrite (kme_eq p) by done. cbn [obind bind].
  rewrite khart_update_eq. cbn [obind bind]. rewrite khart_update_eq. cbn [obind bind]. rewrite khart_get_eq. cbn [obind bind].
  rewrite kget_eq. cbn [obind bind]. do 4 (rewrite tf_set_eq; cbn [obind bind]). rewrite khart_update_eq. cbn [obind bind].
  rewrite tf_get_eq. cbn [obind bind]. rewrite khart_update_eq. cbn [obind bind]. done.
Qed.

Lemma usertrapret_mem (p : fin 64) (s s' : ker D) r :
  let t := view the_pst s in
  let x := pproc t p in
  hart_stable (phart t) -> (phart t).(cpu_proc) = Some p -> usertrapret s = Ok r s' ->
  (view the_pst s').(p_k).(k_mem) = ret_mem t.(p_k).(k_mem) x.(p_trapframe) x.(p_kstack) (phart t).
Proof. intros t x Hh Hp E. rewrite (usertrapret_eq p s Hh Hp) in E. by injection E as _ <-. Qed.

(** The words of the trapframe after [usertrapret]. *)
Definition ret_words (kstack : Z) (h : hart) : list (Z * Z) :=
  [(TF_kernel_sp, u64 (kstack + PGSIZE)); (TF_kernel_hartid, h.(tp)); (TF_kernel_trap, usertrap_addr); (TF_kernel_satp, h.(satp))].

Lemma ret_mem_kernel m tf kstack h o v :
  (o, v) ∈ ret_words kstack h -> load64 (ret_mem m tf kstack h) (tf + o) = u64 v.
Proof.
  unfold ret_words, TF_kernel_satp, TF_kernel_sp, TF_kernel_trap, TF_kernel_hartid. rewrite !elem_of_cons, elem_of_nil. unfold ret_mem.
  unfold TF_kernel_satp, TF_kernel_sp, TF_kernel_trap, TF_kernel_hartid.
  intros [[= -> ->]|[[= -> ->]|[[= -> ->]|[[= -> ->]|[]]]]];
    (repeat rewrite load64_store64_ne by lia); rewrite load64_store64; apply Z.mod_mod; lia.
Qed.

Lemma ret_mem_other m tf kstack h o : o = TF_epc \/ 40 <= o -> load64 (ret_mem m tf kstack h) (tf + o) = load64 m (tf + o).
Proof.
  unfold ret_mem, TF_kernel_satp, TF_kernel_sp, TF_kernel_trap, TF_kernel_hartid, TF_epc. intros Ho.
  repeat rewrite load64_store64_ne by lia. done.
Qed.

Lemma ret_mem_page m tf kstack h : same_except (in_page tf) m (ret_mem m tf kstack h).
Proof.
  intros b Hb. unfold in_page in Hb. unfold ret_mem, TF_kernel_satp, TF_kernel_sp, TF_kernel_trap, TF_kernel_hartid.
  repeat rewrite rd_store64 by clia. done.
Qed.

Lemma tf_off_range r : 40 <= tf_off r /\ tf_off r + 8 <= TF_size.
Proof. destruct r; cbn; unfold TF_size; lia. Qed.

Lemma ret_hart_spp m tf h : Z.testbit (ret_hart m tf h).(sstatus) 8 = false.
Proof. cbn [ret_hart with_sepc with_sstatus sstatus]. rewrite Z.lor_spec, Z.land_spec, Z.lnot_spec by lia. cbn. by rewrite andb_false_r. Qed.
End Return.

(** The hart [c] that runs the kernel whose registers are [h]. *)
Record on_hart (h : hart) (c : core) : Prop := {
  oh_sepc : c.(cs) Csr.sepc = h.(sepc);
  oh_stvec : c.(cs) Csr.stvec = h.(stvec);
  oh_spp : Z.testbit (c.(cs) Csr.mstatus) 8 = Z.testbit h.(sstatus) 8
}.

(** A turn of the user program, from [u] to [v]: it may change its registers and
    its memory, but not its page table, its trap vector or the kernel's words
    in the trapframe [tf]. *)
Record user_turn `{Image} (root tf : Z) (u v : core) : Prop := {
  ut_regs : regs_ok v;
  ut_priv : v.(priv) = 0;
  ut_satp : v.(cs) Csr.satp = u.(cs) Csr.satp;
  ut_stvec : v.(cs) Csr.stvec = u.(cs) Csr.stvec;
  ut_space : exists k F T U sz, pspace k root F T U sz tf /\ (tf ∉ pages_of T) /\ v.(cm) = k.(k_mem);
  ut_words : forall o, o ∈ tf_kernel.*2 -> load64 v.(cm) (tf + o) = load64 u.(cm) (tf + o)
}.

Section TrapProperties.
Context {D : Type} `{DiskDriver D} `{DiskControl D} `{Patience} `{ImageOk} `{StackByte}.

(** C9: a process goes to user space and comes back.  [usertrapret] returns the
    address of [userret] and the process's page table; [userret], on the hart
    in the state that [usertrapret] left, enters user mode on that page
    table with the registers and program counter of the trapframe.  However the user program then runs,
    its next trap goes to [uservec], which saves its registers and enters
    [usertrap] on the kernel stack of this process, with the page table and the
    hart number that the kernel had. *)
Theorem usertrapret_round (p : fin 64) (s : ker D) F T U sz :
  let t := view the_pst s in
  let x := pproc t p in
  let tf := x.(p_trapframe) in
  let m := t.(p_k).(k_mem) in
  hart_stable (phart t) -> (phart t).(cpu_proc) = Some p ->
  0 <= (phart t).(tp) < 2 ^ 64 -> 0 <= (phart t).(satp) < 2 ^ 64 -> satp_ok (phart t).(satp) = true ->
  pspace t.(p_k) x.(p_pagetable) F T U sz tf -> page_ok tf -> tf ∉ owned F T U ->
  exists s', usertrapret s = Ok (u64 (TRAMPOLINE + (userret - trampoline)), MAKE_SATP x.(p_pagetable)) s' /\
  forall c, on_hart (phart (view the_pst s')) c -> c.(cm) = (view the_pst s').(p_k).(k_mem) ->
    c.(priv) = 1 -> c.(rf) Reg.a0 = MAKE_SATP x.(p_pagetable) ->
    exists u, run userret_code c = Ok tt u /\ u.(priv) = 0 /\ u.(pc) = load64 m (tf + TF_epc) /\
      (forall r, u.(rf) r = load64 m (tf + tf_off r)) /\ u.(cm) = c.(cm) /\ u.(cs) Csr.satp = MAKE_SATP x.(p_pagetable) /\
    forall v cause val, user_turn x.(p_pagetable) tf u v ->
      (supervisor_trap cause val v).(pc) = Z.land (u64 (TRAMPOLINE + (uservec - trampoline))) (Z.lnot 3) /\
      exists e, run uservec_code (supervisor_trap cause val v) = Ok tt e /\
        e.(rf) Reg.sp = u64 (x.(p_kstack) + PGSIZE) /\ e.(rf) Reg.tp = (phart t).(tp) /\ e.(cs) Csr.satp = (phart t).(satp) /\
        e.(pc) = Z.land (u64 usertrap_addr) (Z.lnot 1) /\ e.(cs) Csr.sepc = v.(pc) /\
        forall r, load64 e.(cm) (tf + tf_off r) = v.(rf) r.
Proof.
  intros t x tf m Hh Hp Htp Hsatp Hmode Hps Hok Hnew. set (m' := ret_mem m tf x.(p_kstack) (phart t)).
  assert (HnT : tf ∉ pages_of T) by (intros Hin; apply Hnew; unfold owned; lelem).
  pose proof (usertrapret_eq p s Hh Hp) as E. eexists. split; [exact E|]. rewrite view_put. intros c [Hepc Hvec Hspp] Hcm Hc Ha0.
  destruct (userret_resumes _ _ _ _ _ _ _ c (pspace_write _ _ _ _ _ _ _ m' Hps Hok Hnew (ret_mem_page _ _ _ _)) Hok HnT Hcm Hc Ha0) as (u & Eu & [Ur Um Us Uv Up Upr]).
  assert (Hu : Z.testbit (c.(cs) Csr.mstatus) 8 = false) by (rewrite Hspp; apply ret_hart_spp).
  exists u. split; [exact Eu|]. rewrite Hu in Upr. rewrite Hepc in Up. rewrite Hvec in Uv. split; [done|].
  split; [rewrite Up; apply ret_mem_other; by left|]. split.
  { intros r. rewrite Ur, Hcm. apply ret_mem_other. right. apply tf_off_range. }
  split; [done|]. split; [done|]. intros v cause val [Vr Vp Vs Vv (k2 & F2 & T2 & U2 & sz2 & Vps & Vn & Vm) Vw].
  split; [change (Z.land (v.(cs) Csr.stvec) (Z.lnot 3) = Z.land (u64 (TRAMPOLINE + (uservec - trampoline))) (Z.lnot 3)); by rewrite Vv, Uv|].
  assert (Hword : forall o w, (o, w) ∈ ret_words x.(p_kstack) (phart t) -> load64 v.(cm) (tf + o) = u64 w).
  { intros o w Ho. rewrite Vw, Um, Hcm by (apply (list_elem_of_fmap_2 fst _ _ Ho)). by apply ret_mem_kernel. }
  assert (Hks : load64 v.(cm) (tf + TF_kernel_satp) = (phart t).(satp)).
  { rewrite (Hword TF_kernel_satp (phart t).(satp)) by (unfold ret_words; lelem). by apply u64_small. }
  destruct (uservec_enters _ _ _ _ _ _ _ cause val v Vps Hok Vn Vr Vm Vp ltac:(congruence) ltac:(by rewrite Hks)) as (e & Ee & [Er _ Esp Etp Esatp Epc _ Esepc _]).
  exists e. split; [exact Ee|]. rewrite Esp, Etp, Esatp, Epc, Hks, (Hword TF_kernel_sp (u64 (x.(p_kstack) + PGSIZE))),
    (Hword TF_kernel_hartid (phart t).(tp)), (Hword TF_kernel_trap usertrap_addr) by (unfold ret_words; lelem).
  split_and!; try done; [apply Z.mod_mod; lia|by apply u64_small].
Qed.

End TrapProperties.

(** ** Example *)

#[local] Existing Instance demo_image12.
#[local] Existing Instance demo_image12_ok.
#[local] Existing Instance Reg.reg_eq_dec.
#[local] Existing Instance Csr.csr_eq_dec.

(** Process 2 runs in the kernel, on a hart that interrupts may reach, and the
    rest of the kernel is as it is before the first file is opened. *)
Definition demo_ker (k : kst) (root tf : Z) : ker unit :=
  let x := with_trapframe tf (with_pagetable root (with_state RUNNING proc0)) in
  let h := with_cpu_proc (Some 2%fin) demo_hart in
  let t := Pst (AllocProc.khart h k) (vreplicate 64 x) 8 (initlock "nextpid") (initlock "wait_lock") (Some 0%fin) 0 (initlock "time") 0 tty0 in
  let b := Bst t (initlock "bcache") (vreplicate 30 buf0) Head Head tt in
  Ker (Fst (Lgst b (initlock "log") 2 30 0 0 ROOTDEV 0 []) (Superblock FSMAGIC 2000 1954 200 30 2 32 45) (initlock "itable") (vreplicate 50 inode0))
    (initlock "ftable") (vreplicate 100 file0) tmap0 (vreplicate 10 None) ∅ [] 1 0.

(** The core of that hart, when [usertrapret] has called [userret]. *)
Definition demo_ret_core (m : mem) (h : hart) (root : Z) : core :=
  Core (upd (fun _ => 0) Reg.a0 (MAKE_SATP root))
    (upd (upd (upd (fun _ => 0) Csr.sepc h.(sepc)) Csr.stvec h.(stvec)) Csr.mstatus h.(sstatus)) m 1 0.

(** The program of the process traps at once, with a system call. *)
Lemma usertrapret_round_witness : exists (s s' : ker unit) c u e,
  (exists r, usertrapret s = Ok r s') /\ run userret_code c = Ok tt u /\ u.(priv) = 0 /\
  run uservec_code (supervisor_trap 8 0 u) = Ok tt e /\ e.(rf) Reg.sp = PGSIZE.
Proof.
  destruct demo_pspace as (k & root & F & T & tf & Hps & Hok & Hn & _). set (s := demo_ker k root tf).
  pose proof (pspace_hart (with_cpu_proc (Some 2%fin) demo_hart) _ _ _ _ _ _ _ Hps demo_hart_stable) as Hps'.
  destruct (usertrapret_round 2%fin s F T ∅ 0) as (s' & E & Hc); try done.
  pose proof (usertrapret_mem 2%fin s s' _ demo_hart_stable eq_refl E) as Em.
  set (v := view the_pst s') in *. set (c := demo_ret_core v.(p_k).(k_mem) (phart v) root).
  destruct (Hc c) as (u & Eu & Hu & _ & Hr & Hm & Hs & Hv); [by split|done..|].
  destruct (Hv u 8 0) as (_ & e & Ee & Esp & _).
  { split; try done; [intros r; rewrite Hr; apply load64_range|]. eexists _, F, T, ∅, 0. split; [|split].
    - apply (pspace_write _ _ _ _ _ _ _ v.(p_k).(k_mem) Hps' Hok Hn). rewrite Em. apply ret_mem_page.
    - intros Hin. apply Hn. unfold owned. lelem.
    - exact Hm. }
  exists s, s', c, u, e. split; [by eexists|]. done.
Defined.
