(* ===== verification/Umalloc.v ===== *)
(** * malloc and free (user/umalloc.c)

    The allocator of Kernighan and Ritchie: a circular list of free blocks in
    the order of their addresses, threaded through the memory of the process.
    A [Header] is 16 bytes: the pointer at offset 0, the size in headers at
    offset 8.  [sbrk] is the system call; whether the kernel has memory to
    give is a parameter. *)

From S2P Require Import Prelude Riscv Memory.

Record ust := Ust {
  u_mem : mem;
  u_freep : Z;
  u_brk : Z
}.

Definition u_mem_l : lens ust mem := Lens u_mem (fun x s => Ust x s.(u_freep) s.(u_brk)).
Definition u_freep_l : lens ust Z := Lens u_freep (fun x s => Ust s.(u_mem) x s.(u_brk)).
Definition u_brk_l : lens ust Z := Lens u_brk (fun x s => Ust s.(u_mem) s.(u_freep) x).

(** The address of [base], and whether [sbrk(n)] succeeds with the break at
    [b]. *)
Class Heap := {
  base : Z;
  grant : Z -> Z -> bool
}.

Section Umalloc.
Context `{Heap}.

(** ** sbrk *)

(** The old break, or [(char * )-1]; a break below 0 is refused by [growproc],
    which leaves it where it was. *)
Definition sbrk (n : Z) : M ust Z :=
  b <- get u_brk_l ;;
  if grant b n then
    (if b + n <? 0 then ret tt else set u_brk_l (b + n)) ;;
    ret b
  else ret (u64 (-1)).

(** ** Headers *)

Definition get_ptr (a : Z) : M ust Z := m <- get u_mem_l ;; ret (load64 m a).
Definition get_size (a : Z) : M ust Z := m <- get u_mem_l ;; ret (load32 m (a + 8)).
Definition set_ptr (a v : Z) : M ust unit := update u_mem_l (fun m => store64 m a v).
Definition set_size (a v : Z) : M ust unit := update u_mem_l (fun m => store32 m (a + 8) v).

(** [p + n] for a [Header *p] *)
Definition hplus (p n : Z) : Z := u64 (p + 16 * n).

(** A trip round the list has at most one header per 16 bytes, and [base]. *)
Definition trip (s : ust) : nat := Z.to_nat (s.(u_brk) / 16) + 2.

(** ** free *)

(** [for(p = freep; !(bp > p && bp < p->s.ptr); p = p->s.ptr) if(...) break;] *)
Definition free_find_body (bp p : Z) : M ust (Z + Z) :=
  next <- get_ptr p ;;
  if (p <? bp) && (bp <? next) then ret (inr p)
  else if (next <=? p) && ((p <? bp) || (bp <? next)) then ret (inr p)
  else ret (inl next).

(** [if(bp + bp->s.size == p->s.ptr) ... else bp->s.ptr = p->s.ptr;] *)
Definition join_next (bp p : Z) : M ust unit :=
  size <- get_size bp ;;
  next <- get_ptr p ;;
  if hplus bp size =? next then
    q <- get_ptr p ;;
    n <- get_size q ;;
    set_size bp (u32 (size + n)) ;;
    q <- get_ptr p ;;
    r <- get_ptr q ;;
    set_ptr bp r
  else
    q <- get_ptr p ;;
    set_ptr bp q.

(** [if(p + p->s.size == bp) ... else p->s.ptr = bp;] *)
Definition join_prev (bp p : Z) : M ust unit :=
  size <- get_size p ;;
  if hplus p size =? bp then
    n <- get_size bp ;;
    set_size p (u32 (size + n)) ;;
    q <- get_ptr bp ;;
    set_ptr p q
  else set_ptr p bp.

Definition free (ap : Z) : M ust unit :=
  let bp := hplus ap (-1) in
  p0 <- get u_freep_l ;;
  fuel <- gets trip ;;
  p <- loop fuel (free_find_body bp) p0 ;;
  join_next bp p ;;
  join_prev bp p ;;
  set u_freep_l p.

(** ** malloc *)

(** [nu * sizeof(Header)] is converted to the [int] that [sbrk] takes. *)
Definition morecore (nu : Z) : M ust Z :=
  let nu := if nu <? 4096 then 4096 else nu in
  p <- sbrk (s32 (nu * 16)) ;;
  if p =? u64 (-1) then ret 0
  else
    set_size p nu ;;
    free (hplus p 1) ;;
    get u_freep_l.

Definition malloc_body (nunits : Z) (st : Z * Z) : M ust (Z * Z + Z) :=
  let '(prevp, p) := st in
  size <- get_size p ;;
  if nunits <=? size then
    q <- (if size =? nunits then
            next <- get_ptr p ;;
            set_ptr prevp next ;;
            ret p
          else
            set_size p (u32 (size - nunits)) ;;
            let q := hplus p (u32 (size - nunits)) in
            set_size q nunits ;;
            ret q) ;;
    set u_freep_l prevp ;;
    ret (inr (hplus q 1))
  else
    f <- get u_freep_l ;;
    if p =? f then
      p <- morecore nunits ;;
      if p =? 0 then ret (inr 0)
      else
        next <- get_ptr p ;;
        ret (inl (p, next))
    else
      next <- get_ptr p ;;
      ret (inl (p, next)).

(** Two trips round the list: [morecore] is called at the end of the first. *)
Definition malloc (nbytes : Z) : M ust Z :=
  let nunits := u32 ((nbytes + 16 - 1) / 16 + 1) in
  f <- get u_freep_l ;;
  (if f =? 0 then
     set_ptr base base ;;
     set u_freep_l base ;;
     set_size base 0
   else ret tt) ;;
  prevp <- get u_freep_l ;;
  p <- get_ptr prevp ;;
  fuel <- gets trip ;;
  loop (2 * fuel + 2) (malloc_body nunits) (prevp, p).
End Umalloc.
Arguments free ap : simpl never.
Arguments malloc {_} nbytes : simpl never.
Arguments morecore {_} nu : simpl never.
