(* ===== verification/UmallocThm.v ===== *)
(** * malloc and free: the heap stays in order

    [heap s fl al] relates the bytes of the process to the list [fl] of free
    blocks and the map [al] of allocated ones: the headers form a ring in the
    order of their addresses, no two free blocks touch, and no two blocks
    overlap.  [free] and [malloc] are operations on [fl] and [al]. *)

From Stdlib Require Import Sorting.Sorted.
From S2P Require Import Prelude Riscv Memory Umalloc.

(** ** Headers in memory *)

Definition hptr (m : mem) (a : Z) : Z := load64 m a.
Definition hsize (m : mem) (a : Z) : Z := load32 m (a + 8).
Definition put_ptr (a v : Z) (m : mem) : mem := store64 m a v.
Definition put_size (a v : Z) (m : mem) : mem := store32 m (a + 8) v.

(** Two headers are apart. *)
Definition apart (a b : Z) : Prop := a + 16 <= b \/ b + 16 <= a.

Lemma rd_put_ptr a v m b : ~ (a <= b < a + 16) -> rd (put_ptr a v m) b = rd m b.
Proof. intros Hb. apply rd_store64. lia. Qed.
Lemma rd_put_size a v m b : ~ (a <= b < a + 16) -> rd (put_size a v m) b = rd m b.
Proof. intros Hb. unfold put_size, store32. apply rd_st_bytes_out. rewrite length_le_bytes. lia. Qed.

Lemma load32_ext m m' a : (forall b, a <= b < a + 4 -> rd m b = rd m' b) -> load32 m a = load32 m' a.
Proof. intros Hb. unfold load32. f_equal. by apply ld_bytes_ext. Qed.

Lemma hptr_ext m m' a : (forall b, a <= b < a + 16 -> rd m b = rd m' b) -> hptr m a = hptr m' a.
Proof. intros Hb. apply load64_ext. intros b ?. apply Hb. lia. Qed.
Lemma hsize_ext m m' a : (forall b, a <= b < a + 16 -> rd m b = rd m' b) -> hsize m a = hsize m' a.
Proof. intros Hb. apply load32_ext. intros b ?. apply Hb. lia. Qed.

Lemma hptr_put_ptr a v m : hptr (put_ptr a v m) a = u64 v.
Proof. apply load64_store64. Qed.
Lemma hsize_put_size a v m : hsize (put_size a v m) a = u32 v.
Proof. apply load32_store32. Qed.
Lemma hptr_put_size a v m : hptr (put_size a v m) a = hptr m a.
Proof.
  apply load64_ext. intros b Hb. unfold put_size, store32. apply rd_st_bytes_out. rewrite length_le_bytes. lia.
Qed.
Lemma hsize_put_ptr a v m : hsize (put_ptr a v m) a = hsize m a.
Proof. apply load32_ext. intros b Hb. apply rd_store64. lia. Qed.
Lemma hptr_put_ptr_ne a v m b : apart a b -> hptr (put_ptr a v m) b = hptr m b.
Proof. intros Ha. apply hptr_ext. intros c Hc. apply rd_put_ptr. unfold apart in Ha. lia. Qed.
Lemma hptr_put_size_ne a v m b : apart a b -> hptr (put_size a v m) b = hptr m b.
Proof. intros Ha. apply hptr_ext. intros c Hc. apply rd_put_size. unfold apart in Ha. lia. Qed.
Lemma hsize_put_ptr_ne a v m b : apart a b -> hsize (put_ptr a v m) b = hsize m b.
Proof. intros Ha. apply hsize_ext. intros c Hc. apply rd_put_ptr. unfold apart in Ha. lia. Qed.
Lemma hsize_put_size_ne a v m b : apart a b -> hsize (put_size a v m) b = hsize m b.
Proof. intros Ha. apply hsize_ext. intros c Hc. apply rd_put_size. unfold apart in Ha. lia. Qed.

Create Rewrite HintDb heap.
#[export] Hint Rewrite hptr_put_ptr hsize_put_size hptr_put_size hsize_put_ptr : heap.
#[export] Hint Rewrite hptr_put_ptr_ne hptr_put_size_ne hsize_put_ptr_ne hsize_put_size_ne
  using (unfold apart in *; lia) : heap.

(** ** Chains of headers *)

(** The pointers of [ns] lead from one to the next, the last to [z]. *)
Fixpoint chain (m : mem) (ns : list Z) (z : Z) : Prop :=
  match ns with
  | [] => True
  | a :: l => hptr m a = hd z l /\ chain m l z
  end.

Lemma chain_app m l1 l2 z : chain m (l1 ++ l2) z <-> chain m l1 (hd z l2) /\ chain m l2 z.
Proof.
  induction l1 as [|a l1 IH]; cbn [app chain]; [tauto|]. rewrite IH.
  replace (hd z (l1 ++ l2)) with (hd (hd z l2) l1) by by destruct l1. tauto.
Qed.

Lemma chain_frame m m' ns z : (forall a, a ∈ ns -> hptr m' a = hptr m a) -> chain m ns z -> chain m' ns z.
Proof.
  induction ns as [|a l IH]; [done|]. cbn. intros Hf [Ha Hl]. split.
  - rewrite Hf by left. done.
  - apply IH; [|done]. intros b Hb. apply Hf. by right.
Qed.

(** A ring can be entered anywhere. *)
Lemma chain_rotate m l1 c l2 z :
  hd c (l1 ++ [c]) = z -> chain m (l1 ++ c :: l2) z -> chain m (c :: l2 ++ l1) c.
Proof.
  intros Hz Hc. apply chain_app in Hc as [H1 H2]. cbn in H1. change (c :: l2 ++ l1) with ((c :: l2) ++ l1).
  apply chain_app. destruct l1 as [|b l1]; cbn in *; subst; done.
Qed.

(** ** The heap *)

Abbreviation blk := (Z * Z)%type.
Definition bend (x : blk) : Z := x.1 + 16 * x.2.
(** [x] lies before [y] and does not touch it. *)
Definition before (x y : blk) : Prop := bend x < y.1.
Definition disjoint_blk (x y : blk) : Prop := bend x <= y.1 \/ bend y <= x.1.

Section Heap.
Context `{Heap}.

(** The ring: [base], then the free blocks. *)
Definition nodes (fl : list blk) : list blk := (base, 0) :: fl.

Record heap (s : ust) (fl : list blk) (al : gmap Z Z) : Prop := {
  h_base : 0 < base;
  h_brk : base + 16 <= s.(u_brk) <= 2 ^ 36;
  h_freep : s.(u_freep) ∈ (nodes fl).*1;
  h_ring : chain s.(u_mem) (nodes fl).*1 base;
  h_size : forall a n, (a, n) ∈ nodes fl -> hsize s.(u_mem) a = n;
  h_sorted : StronglySorted before (nodes fl);
  h_free : forall a n, (a, n) ∈ fl -> 1 <= n /\ base + 16 <= a /\ a + 16 * n <= s.(u_brk);
  h_alloc : forall a n, al !! a = Some n -> 1 <= n /\ base + 16 <= a /\ a + 16 * n <= s.(u_brk) /\ hsize s.(u_mem) a = n;
  h_apart : forall a n b k, al !! a = Some n -> (b, k) ∈ fl -> disjoint_blk (a, n) (b, k);
  h_disjoint : forall a n b k, al !! a = Some n -> al !! b = Some k -> a <> b -> disjoint_blk (a, n) (b, k)
}.

Lemma sorted_split (l1 l2 : list blk) :
  StronglySorted before (l1 ++ l2) -> forall x y, x ∈ l1 -> y ∈ l2 -> before x y.
Proof.
  induction l1 as [|z l1 IH]; intros Hs x y Hx Hy; [by apply not_elem_of_nil in Hx|].
  apply StronglySorted_inv in Hs as [Hs Hz]. apply elem_of_cons in Hx as [->|Hx]; [|eauto].
  rewrite Forall_forall in Hz. apply Hz. apply elem_of_app. by right.
Qed.

Lemma sorted_app_l (l1 l2 : list blk) : StronglySorted before (l1 ++ l2) -> StronglySorted before l1.
Proof.
  induction l1 as [|x l1 IH]; [constructor|]. intros [Hs Hx]%StronglySorted_inv. constructor; [auto|].
  by apply Forall_app in Hx as [Hx _].
Qed.
Lemma sorted_app_r (l1 l2 : list blk) : StronglySorted before (l1 ++ l2) -> StronglySorted before l2.
Proof. induction l1 as [|x l1 IH]; [done|]. intros [Hs _]%StronglySorted_inv. auto. Qed.

Lemma sorted_app (l1 l2 : list blk) :
  StronglySorted before l1 -> StronglySorted before l2 -> (forall x y, x ∈ l1 -> y ∈ l2 -> before x y) ->
  StronglySorted before (l1 ++ l2).
Proof.
  induction l1 as [|x l1 IH]; [done|]. intros [Hs Hx]%StronglySorted_inv H2 Hxy. cbn. constructor.
  - apply IH; [done..|]. intros y z Hy Hz. apply Hxy; [by right|done].
  - apply Forall_app. split; [done|]. apply Forall_forall. intros y Hy. apply Hxy; [left|done].
Qed.

(** Each free block takes 16 bytes at least, so a trip round the ring is
    short. *)
Lemma sorted_length (l : list blk) lo hi :
  StronglySorted before l -> (forall a n, (a, n) ∈ l -> 1 <= n /\ lo <= a /\ a + 16 * n <= hi) ->
  lo <= hi -> 16 * Z.of_nat (length l) <= hi - lo.
Proof.
  revert lo. induction l as [|[a n] l IH]; intros lo Hs Hl Hlo; [cbn; lia|].
  apply StronglySorted_inv in Hs as [Hs Hx]. rewrite Forall_forall in Hx. destruct (Hl a n) as (H1 & H2 & H3); [left|].
  enough (16 * Z.of_nat (length l) <= hi - (a + 16 * n)) by (cbn [length]; lia).
  apply IH; [done| |lia]. intros b k Hb. destruct (Hl b k) as (? & ? & ?); [by right|]. specialize (Hx _ Hb).
  unfold before, bend in Hx. cbn in Hx. lia.
Qed.

Lemma trip_enough s fl al : heap s fl al -> (length (nodes fl) < trip s)%nat.
Proof.
  intros Hh. pose proof (h_brk _ _ _ Hh) as Hb. pose proof (h_base _ _ _ Hh) as Hb0. pose proof (h_sorted _ _ _ Hh) as Hs.
  apply StronglySorted_inv in Hs as [Hs _].
  pose proof (sorted_length fl (base + 16) (u_brk s) Hs (h_free _ _ _ Hh) ltac:(lia)) as Hl.
  unfold trip. cbn [nodes length]. assert (Z.of_nat (length fl) <= u_brk s / 16) by (apply Z.div_le_lower_bound; lia). lia.
Qed.

(** ** Looking for the place of a block *)

Lemma chain_next m (l : list blk) z :
  StronglySorted before l -> (forall a n, (a, n) ∈ l -> 0 <= n) -> chain m l.*1 z ->
  forall c, c ∈ l.*1 -> hptr m c = z \/ (hptr m c ∈ l.*1 /\ c < hptr m c).
Proof.
  induction l as [|[a n] l IH]; intros Hs Hn Hc c Hin; [by apply not_elem_of_nil in Hin|].
  apply StronglySorted_inv in Hs as [Hs Hx]. cbn [fmap list_fmap chain] in *. destruct Hc as [Ha Hc].
  apply elem_of_cons in Hin as [->|Hin].
  - rewrite Ha. destruct l as [|[b k] l]; [by left|]. right. cbn. split; [right; left|].
    apply Forall_cons in Hx as [Hx _]. unfold before, bend in Hx. cbn in Hx. pose proof (Hn a n ltac:(left)). lia.
  - destruct (IH Hs (fun a' n' Hi => Hn a' n' (list_elem_of_further _ _ _ Hi)) Hc c Hin) as [E|[E1 E2]]; [by left|right].
    split; [by right|done].
Qed.

Definition stops (bp c d : Z) : bool := (c <? bp) && (bp <? d) || (d <=? c) && ((c <? bp) || (bp <? d)).

Lemma free_find_eq bp c s :
  free_find_body bp c s = Ok (if stops bp c (hptr s.(u_mem) c) then inr c else inl (hptr s.(u_mem) c)) s.
Proof.
  unfold free_find_body, get_ptr, stops, hptr. cbn [bind get gets obind ret view u_mem_l].
  destruct ((c <? bp) && (bp <? load64 (u_mem s) c)); [done|]. cbn [orb]. by destruct (_ && _).
Qed.

(** The scan goes along the ring to the first header at which it stops. *)
Lemma find_scan bp s : forall (o1 : list Z) p o2 z fuel, (length o1 < fuel)%nat ->
  chain s.(u_mem) (o1 ++ p :: o2) z -> (forall c, c ∈ o1 -> stops bp c (hptr s.(u_mem) c) = false) ->
  stops bp p (hptr s.(u_mem) p) = true ->
  loop fuel (free_find_body bp) (hd p (o1 ++ [p])) s = Ok p s.
Proof.
  induction o1 as [|c o1 IH]; intros p o2 z fuel Hf Hc Hno Hp; (destruct fuel as [|fuel]; [cbn in Hf; lia|]).
  - cbn [app hd]. rewrite loop_S, free_find_eq, Hp. done.
  - cbn [app hd chain] in *. destruct Hc as [Ec Hc]. rewrite loop_S, free_find_eq, Hno by left. cbn [obind].
    replace (hptr (u_mem s) c) with (hd p (o1 ++ [p])) by (rewrite Ec; by destruct o1).
    apply (IH p o2 z); [cbn in Hf; lia|done| |done]. intros c' Hc'. apply Hno. by right.
Qed.


Section Place.
Context (s : ust) (fl : list blk) (al : gmap Z Z) (Hh : heap s fl al).

Lemma nodes_low x : x ∈ nodes fl -> base <= x.1.
Proof.
  intros [->|Hx]%elem_of_cons; [cbn; lia|]. destruct x as [a n]. destruct (h_free _ _ _ Hh a n Hx). cbn. lia.
Qed.

Lemma nodes_size a n : (a, n) ∈ nodes fl -> 0 <= n.
Proof. intros [[= -> ->]|Hx]%elem_of_cons; [lia|]. destruct (h_free _ _ _ Hh a n Hx). lia. Qed.

Lemma nodes_far x y : x ∈ nodes fl -> y ∈ nodes fl -> x.1 < y.1 -> x.1 + 16 <= y.1 /\ bend x < y.1.
Proof.
  intros Hx Hy Hlt. assert (Hb : before x y).
  { pose proof (h_sorted _ _ _ Hh) as Hs. apply list_elem_of_split in Hx as (l1 & l2 & E). rewrite E in Hs, Hy.
    apply elem_of_app in Hy as [Hy|[->|Hy]%elem_of_cons]; [|lia|].
    - pose proof (sorted_split _ _ Hs y x Hy ltac:(left)) as Hb. unfold before, bend in Hb.
      assert (0 <= y.2); [|lia]. destruct y as [b k]. eapply nodes_size. rewrite E. apply elem_of_app. by left.
    - apply sorted_app_r in Hs. apply StronglySorted_inv in Hs as [_ Hs]. rewrite Forall_forall in Hs. by apply Hs. }
  split; [|done]. unfold before, bend in Hb. apply elem_of_cons in Hx as [->|Hx].
  - apply elem_of_cons in Hy as [->|Hy]; [lia|]. destruct y as [b k]. destruct (h_free _ _ _ Hh b k Hy). cbn in *. lia.
  - destruct x as [a n]. destruct (h_free _ _ _ Hh a n Hx). cbn in *. lia.
Qed.

Lemma nodes_nodup : NoDup (nodes fl).*1.
Proof.
  pose proof (h_sorted _ _ _ Hh) as Hs. pose proof nodes_size as Hn. induction (nodes fl) as [|[a n] l IH]; [constructor|].
  apply StronglySorted_inv in Hs as [Hs Hx]. cbn. constructor; [|apply IH; [done|]; intros b k Hb; apply (Hn b k); by right].
  intros (y & Ey & Hy)%list_elem_of_fmap. rewrite Forall_forall in Hx. specialize (Hx y Hy). unfold before, bend in Hx. cbn in *.
  pose proof (Hn a n ltac:(left)). lia.
Qed.

Context (bp : Z) (pre post : list blk) (p pn : Z) (E : nodes fl = pre ++ (p, pn) :: post).

Lemma place_sorted : StronglySorted before (pre ++ (p, pn) :: post).
Proof. rewrite <- E. apply (h_sorted _ _ _ Hh). Qed.

Lemma place_chains : chain s.(u_mem) pre.*1 p /\ hptr s.(u_mem) p = hd base post.*1 /\ chain s.(u_mem) post.*1 base.
Proof.
  pose proof (h_ring _ _ _ Hh) as Hc. rewrite E, fmap_app in Hc. apply chain_app in Hc as [H1 [H2 H3]]. done.
Qed.

Lemma in_nodes_pre x : x ∈ pre -> x ∈ nodes fl.
Proof. intros Hx. rewrite E. apply elem_of_app. by left. Qed.
Lemma in_nodes_post x : x ∈ post -> x ∈ nodes fl.
Proof. intros Hx. rewrite E. apply elem_of_app. right. by right. Qed.
Lemma in_nodes_p : (p, pn) ∈ nodes fl.
Proof. rewrite E. apply elem_of_app. right. left. Qed.

Hypothesis Hlo : forall x, x ∈ pre ++ [(p, pn)] -> x.1 < bp.
Hypothesis Hhi : forall x, x ∈ post -> bp < x.1.

Lemma place_stops : stops bp p (hptr s.(u_mem) p) = true.
Proof.
  destruct place_chains as (_ & -> & _). assert (Hp : p < bp) by (apply (Hlo (p, pn)), elem_of_app; right; left).
  pose proof (nodes_low _ in_nodes_p) as Hl. cbn in Hl.
  assert (Hd : hd base post.*1 = base \/ bp < hd base post.*1).
  { clear -Hhi. destruct post as [|[b k] post']; [by left|right]. apply (Hhi (b, k)). left. }
  unfold stops. rewrite (proj2 (Z.ltb_lt _ _) Hp). cbn [andb orb]. destruct Hd as [->|Hd].
  - rewrite (proj2 (Z.leb_le _ _) Hl). apply orb_true_r.
  - by rewrite (proj2 (Z.ltb_lt _ _) Hd).
Qed.

Lemma place_goes c : c ∈ pre.*1 ++ post.*1 -> stops bp c (hptr s.(u_mem) c) = false.
Proof.
  destruct place_chains as (C1 & _ & C2). pose proof place_sorted as Hs.
  pose proof (sorted_app_l _ _ Hs) as S1. pose proof (sorted_app_r _ _ Hs) as S2. apply StronglySorted_inv in S2 as [S2 _].
  assert (Hnn : forall a n, (a, n) ∈ nodes fl -> 0 <= n) by exact nodes_size.
  unfold stops. intros [Hc|Hc]%elem_of_app.
  - assert (Hd : hptr (u_mem s) c < bp /\ c < hptr (u_mem s) c).
    { destruct (chain_next _ _ _ S1 (fun a n Hi => Hnn a n (in_nodes_pre _ Hi)) C1 c Hc) as [->|[Hd Hlt]].
      - split; [apply (Hlo (p, pn)), elem_of_app; right; left|]. apply list_elem_of_fmap in Hc as (x & -> & Hx).
        pose proof (sorted_split _ _ Hs x (p, pn) Hx ltac:(left)) as Hb. unfold before, bend in Hb. cbn in Hb.
        destruct x as [a n]. pose proof (Hnn a n (in_nodes_pre _ Hx)). cbn in *. lia.
      - split; [|done]. apply list_elem_of_fmap in Hd as (x & -> & Hx). apply Hlo, elem_of_app. by left. }
    rewrite (proj2 (Z.ltb_ge bp (hptr (u_mem s) c))), (proj2 (Z.leb_gt _ _)) by lia. by rewrite andb_false_r.
  - assert (Hcb : bp < c) by (apply list_elem_of_fmap in Hc as (x & -> & Hx); by apply Hhi).
    assert (Hd : hptr (u_mem s) c = base \/ c < hptr (u_mem s) c).
    { destruct (chain_next _ _ _ S2 (fun a n Hi => Hnn a n (in_nodes_post _ Hi)) C2 c Hc) as [->|[_ Hlt]]; auto. }
    assert (Hbb : base < bp).
    { pose proof (nodes_low _ in_nodes_p). assert (p < bp) by (apply (Hlo (p, pn)), elem_of_app; right; left). cbn in *. lia. }
    rewrite (proj2 (Z.ltb_ge c bp)) by lia. cbn [andb orb]. destruct Hd as [->|Hd].
    + rewrite (proj2 (Z.ltb_ge bp base)) by lia. apply andb_false_r.
    + by rewrite (proj2 (Z.leb_gt _ _)) by lia.
Qed.

(** [free] finds the header after which the block goes. *)
Lemma free_find fuel : (length (nodes fl) < fuel)%nat -> loop fuel (free_find_body bp) s.(u_freep) s = Ok p s.
Proof.
  intros Hf. pose proof (h_freep _ _ _ Hh) as Hfp. apply list_elem_of_split in Hfp as (l1 & l2 & El).
  pose proof (h_ring _ _ _ Hh) as Hr. rewrite El in Hr.
  assert (Hrot : chain s.(u_mem) (u_freep s :: l2 ++ l1) (u_freep s)).
  { refine (chain_rotate _ _ _ _ _ _ Hr). unfold nodes in El. cbn in El. by destruct l1; injection El. }
  assert (Hp : p ∈ u_freep s :: l2 ++ l1).
  { assert (Hp : p ∈ (nodes fl).*1) by exact (list_elem_of_fmap_2 fst _ _ in_nodes_p). rewrite El in Hp. lelem. }
  assert (Hnd : NoDup (u_freep s :: l2 ++ l1)).
  { eapply NoDup_Permutation_proper; [|exact nodes_nodup]. rewrite El. by rewrite (app_comm_cons l2), Permutation_app_comm. }
  apply list_elem_of_split in Hp as (o1 & o2 & Eo). rewrite Eo in Hrot, Hnd.
  replace (u_freep s) with (hd p (o1 ++ [p])) by (destruct o1; by injection Eo).
  apply (find_scan bp s o1 p o2 (u_freep s)); [|done| |exact place_stops].
  - assert (length (nodes fl).*1 = length (o1 ++ p :: o2)) as Hlen by (rewrite El, <- Eo, !length_app; cbn; rewrite length_app; lia).
    rewrite length_fmap, length_app in Hlen. cbn [length] in Hlen. lia.
  - intros c Hc. apply place_goes. assert (Hin : c ∈ (nodes fl).*1).
    { rewrite El. assert (c ∈ u_freep s :: l2 ++ l1) by (rewrite Eo; lelem). lelem. }
    rewrite E, fmap_app in Hin. cbn in Hin. assert (c <> p); [|lelem].
    intros ->. apply NoDup_app in Hnd as (_ & Hnd & _). apply (Hnd p Hc). left.
Qed.
End Place.

(** ** Joining blocks *)

Definition with_mem (m : mem) (s : ust) : ust := Ust m s.(u_freep) s.(u_brk).

(** Only the header at [a] changes. *)
Definition only (a : Z) (m m' : mem) : Prop := forall b, ~ (a <= b < a + 16) -> rd m' b = rd m b.

Lemma only_ptr a m m' b : only a m m' -> apart a b -> hptr m' b = hptr m b.
Proof. intros Ho Ha. apply hptr_ext. intros c Hc. apply Ho. unfold apart in Ha. lia. Qed.
Lemma only_size a m m' b : only a m m' -> apart a b -> hsize m' b = hsize m b.
Proof. intros Ho Ha. apply hsize_ext. intros c Hc. apply Ho. unfold apart in Ha. lia. Qed.

Lemma only_put_ptr a v m : only a m (put_ptr a v m).
Proof. intros b Hb. by apply rd_put_ptr. Qed.
Lemma only_put_size a v m : only a m (put_size a v m).
Proof. intros b Hb. by apply rd_put_size. Qed.
Lemma only_trans a m1 m2 m3 : only a m1 m2 -> only a m2 m3 -> only a m1 m3.
Proof. intros H12 H23 b Hb. by rewrite H23, H12. Qed.

Lemma u64_addr x : 0 <= x < 2 ^ 37 -> u64 x = x.
Proof. intros Hx. apply u64_small. lia. Qed.

(** [free]'s first join: the block takes over the one that follows it. *)
Lemma join_next_eq s bp n p (post : list blk) :
  hptr s.(u_mem) p = hd base post.*1 -> hsize s.(u_mem) bp = n -> apart bp p ->
  0 < base < bp -> bp + 16 * n <= 2 ^ 36 -> 1 <= n -> StronglySorted before post ->
  (forall a k, (a, k) ∈ post -> bp + 16 * n <= a /\ 1 <= k /\ a + 16 * k <= 2 ^ 36 /\ hsize s.(u_mem) a = k) ->
  chain s.(u_mem) post.*1 base ->
  exists N post' m, join_next bp p s = Ok tt (with_mem m s) /\ only bp s.(u_mem) m /\
    hptr m bp = hd base post'.*1 /\ hsize m bp = N /\
    (N = n /\ post' = post /\ (forall a k, (a, k) ∈ post -> bp + 16 * n < a) \/
     exists k, N = n + k /\ post = (bp + 16 * n, k) :: post').
Proof.
  intros Hp Hn Ha Hb Hr Hn1 Hs Hpost Hc. unfold join_next, get_size, get_ptr, set_ptr, set_size.
  cbn [bind get gets obind ret view u_mem_l]. fold (hsize (u_mem s) bp) (hptr (u_mem s) p). rewrite Hn, Hp.
  unfold hplus. rewrite u64_addr by lia. destruct (Z.eqb_spec (bp + 16 * n) (hd base post.*1)) as [E|E].
  - destruct post as [|[a k] post']; [cbn in E; lia|]. cbn [fmap list_fmap hd fst] in *. rewrite <- E in Hp, Hpost, Hc, Hs |- *. clear E a.
    destruct (Hpost (bp + 16 * n) k) as (_ & Hk & Hk2 & Hk3); [left|]. destruct Hc as [Ec _].
    cbn [bind get gets obind ret update modify put view u_mem_l u_mem u_freep u_brk]. fold (hptr (u_mem s) p). rewrite Hp.
    fold (hsize (u_mem s) (bp + 16 * n)). rewrite Hk3.
    change (store32 (u_mem s) (bp + 8) ?v) with (put_size bp v (u_mem s)).
    set (m1 := put_size bp _ _). fold (hptr m1 p).
    assert (O1 : only bp (u_mem s) m1) by apply only_put_size.
    rewrite (only_ptr _ _ _ _ O1 Ha), Hp. fold (hptr m1 (bp + 16 * n)).
    rewrite (only_ptr _ _ _ (bp + 16 * n) O1) by (unfold apart; lia). rewrite Ec.
    change (store64 m1 bp ?v) with (put_ptr bp v m1).
    exists (n + k), post', (put_ptr bp (hd base post'.*1) m1). split; [done|]. split; [exact (only_trans _ _ _ _ O1 (only_put_ptr _ _ _))|].
    rewrite hptr_put_ptr, hsize_put_ptr. unfold m1. rewrite hsize_put_size. split; [|split; [|right; by exists k]].
    + apply u64_addr. destruct post' as [|[c j] post'']; [cbn; lia|]. destruct (Hpost c j) as (? & ? & ? & ?); [right; left|]. cbn. lia.
    + unfold u32. rewrite Z.mod_mod by lia. apply Z.mod_small. lia.
  - cbn [bind get gets obind ret update modify put view u_mem_l u_mem u_freep u_brk]. fold (hptr (u_mem s) p). rewrite Hp.
    change (store64 (u_mem s) bp ?v) with (put_ptr bp v (u_mem s)).
    exists n, post, (put_ptr bp (hd base post.*1) (u_mem s)). split; [done|]. split; [apply only_put_ptr|].
    rewrite hptr_put_ptr, hsize_put_ptr. split; [|split; [done|left; split; [done|split; [done|]]]].
    + apply u64_addr. destruct post as [|[c j] post'']; [cbn; lia|]. destruct (Hpost c j) as (? & ? & ? & ?); [left|]. cbn. lia.
    + destruct post as [|[c j] post'']; [by intros ? ? ?%not_elem_of_nil|]. cbn in E. intros a k [[= -> ->]|Hin]%elem_of_cons.
      * destruct (Hpost c j); [left|]. lia.
      * apply StronglySorted_inv in Hs as [_ Hs]. rewrite Forall_forall in Hs. specialize (Hs _ Hin). unfold before, bend in Hs. cbn in Hs.
        destruct (Hpost c j) as (? & ? & _); [left|]. lia.
Qed.

(** Its second: the block before takes it over. *)
Lemma join_prev_eq s bp N p pn (post' : list blk) :
  hsize s.(u_mem) p = pn -> hsize s.(u_mem) bp = N -> hptr s.(u_mem) bp = hd base post'.*1 -> apart bp p ->
  0 <= hd base post'.*1 < 2 ^ 36 -> 0 < p -> 0 <= pn -> p + 16 * pn <= bp -> 0 < bp -> 1 <= N -> bp + 16 * N <= 2 ^ 36 ->
  exists m, join_prev bp p s = Ok tt (with_mem m s) /\ only p s.(u_mem) m /\
    (p + 16 * pn = bp /\ hptr m p = hd base post'.*1 /\ hsize m p = pn + N \/
     p + 16 * pn < bp /\ hptr m p = bp /\ hsize m p = pn).
Proof.
  intros Hp HN Hq Ha Hqr Hp0 Hpn Hle Hb HN1 Hr. unfold join_prev, get_size, get_ptr, set_ptr, set_size.
  cbn [bind get gets obind ret view u_mem_l]. fold (hsize (u_mem s) p). rewrite Hp. unfold hplus. rewrite u64_addr by lia.
  destruct (Z.eqb_spec (p + 16 * pn) bp) as [E|E].
  - cbn [bind get gets obind ret update modify put view u_mem_l u_mem u_freep u_brk].
    fold (hsize (u_mem s) bp). rewrite HN. change (store32 (u_mem s) (p + 8) ?v) with (put_size p v (u_mem s)).
    set (m1 := put_size p _ _). assert (O1 : only p (u_mem s) m1) by apply only_put_size. fold (hptr m1 bp).
    rewrite (only_ptr _ _ _ bp O1) by (unfold apart in *; lia). rewrite Hq. change (store64 m1 p ?v) with (put_ptr p v m1).
    eexists. split; [done|]. split; [exact (only_trans _ _ _ _ O1 (only_put_ptr _ _ _))|]. left. split; [done|].
    rewrite hptr_put_ptr, hsize_put_ptr. unfold m1. rewrite hsize_put_size. split; [apply u64_addr; lia|].
    unfold u32. rewrite Z.mod_mod by lia. apply Z.mod_small. lia.
  - cbn [bind get gets obind ret update modify put view u_mem_l u_mem u_freep u_brk].
    change (store64 (u_mem s) p ?v) with (put_ptr p v (u_mem s)). eexists. split; [done|]. split; [apply only_put_ptr|]. right.
    rewrite hptr_put_ptr, hsize_put_ptr. split; [lia|]. split; [apply u64_addr; lia|done].
Qed.

(** ** free *)

(** The place of a block among sorted blocks that it does not overlap. *)
Lemma split_at (l : list blk) bp e :
  StronglySorted before l -> (forall x, x ∈ l -> bend x <= bp \/ e <= x.1) -> bp < e -> (forall a n, (a, n) ∈ l -> 0 <= n) ->
  exists l1 l2, l = l1 ++ l2 /\ (forall x, x ∈ l1 -> bend x <= bp) /\ (forall x, x ∈ l2 -> e <= x.1).
Proof.
  induction l as [|x l IH]; intros Hs Hd He Hn.
  { exists [], []. split; [done|]. by split; intros ? ?%not_elem_of_nil. }
  apply StronglySorted_inv in Hs as [Hs Hx]. rewrite Forall_forall in Hx. destruct (Hd x) as [Hb|Hb]; [left|..].
  - destruct IH as (l1 & l2 & -> & H1 & H2); [done| |done| |].
    + intros y Hy. apply Hd. by right.
    + intros a n Hy. apply (Hn a n). by right.
    + exists (x :: l1), l2. split; [done|]. split; [|done]. intros y [->|Hy]%elem_of_cons; auto.
  - exists [], (x :: l). split; [done|]. split; [by intros ? ?%not_elem_of_nil|]. intros y [->|Hy]%elem_of_cons; [done|].
    specialize (Hx y Hy). unfold before, bend in Hx. destruct x as [a n]. pose proof (Hn a n ltac:(left)). cbn in *. lia.
Qed.

Lemma place_of s fl al bp n : heap s fl al -> al !! bp = Some n ->
  exists pre p pn post, nodes fl = pre ++ (p, pn) :: post /\
    (forall x, x ∈ pre ++ [(p, pn)] -> bend x <= bp /\ x.1 + 16 <= bp) /\
    (forall x, x ∈ post -> bp + 16 * n <= x.1).
Proof.
  intros Hh Ha. destruct (h_alloc _ _ _ Hh bp n Ha) as (Hn1 & Hlo & Hhi & _).
  destruct (split_at (nodes fl) bp (bp + 16 * n)) as (l1 & l2 & E & H1 & H2).
  - apply (h_sorted _ _ _ Hh).
  - intros x [->|Hx]%elem_of_cons; [left; unfold bend; cbn; lia|]. destruct x as [a k].
    destruct (h_apart _ _ _ Hh bp n a k Ha Hx) as [Hd|Hd]; unfold bend in *; cbn in *; lia.
  - lia.
  - apply (nodes_size s fl al Hh).
  - assert (Hne : l1 <> []).
    { intros ->. cbn in E. specialize (H2 (base, 0)). rewrite <- E in H2. cbn in H2. specialize (H2 ltac:(left)). lia. }
    destruct (exists_last Hne) as (pre & [p pn] & ->). exists pre, p, pn, l2. rewrite <- app_assoc in E. split; [done|]. split; [|done].
    intros x Hx. specialize (H1 x Hx). split; [done|]. assert (Hin : x ∈ nodes fl) by (rewrite E; lelem).
    apply elem_of_cons in Hin as [->|Hin]; [cbn; lia|]. destruct x as [a k]. destruct (h_free _ _ _ Hh a k Hin).
    unfold bend in H1. cbn in *. lia.
Qed.

Section Free.
Context (s : ust) (fl : list blk) (al : gmap Z Z) (Hh : heap s fl al).
Context (bp n : Z) (Ha : al !! bp = Some n).
Context (pre post : list blk) (p pn : Z) (E : nodes fl = pre ++ (p, pn) :: post).
Context (Hlo : forall x, x ∈ pre ++ [(p, pn)] -> bend x <= bp /\ x.1 + 16 <= bp).
Context (Hhi : forall x, x ∈ post -> bp + 16 * n <= x.1).

(** What is known of the block once it may have taken over the next one. *)
Record joined (N : Z) (post' : list blk) : Prop := {
  j_sub : forall x, x ∈ post' -> x ∈ post;
  j_length : (length post' <= length post)%nat;
  j_sorted : StronglySorted before post';
  j_chain : chain s.(u_mem) post'.*1 base;
  j_next : forall x, x ∈ post' -> bp + 16 * N < x.1;
  j_range : n <= N /\ bp + 16 * N <= s.(u_brk);
  j_apart : forall a k, al !! a = Some k -> a <> bp -> disjoint_blk (a, k) (bp, N)
}.

Lemma post_free x : x ∈ post -> x ∈ fl.
Proof.
  intros Hx. assert (Hin : x ∈ nodes fl) by (rewrite E; lelem). apply elem_of_cons in Hin as [->|Hin]; [|done].
  specialize (Hhi _ Hx). destruct (h_alloc _ _ _ Hh bp n Ha) as (? & ? & _). cbn in Hhi. lia.
Qed.

Lemma post_sorted : StronglySorted before post.
Proof. pose proof (h_sorted _ _ _ Hh) as Hs. rewrite E in Hs. apply sorted_app_r, StronglySorted_inv in Hs. tauto. Qed.

Lemma joined_alone : (forall a k, (a, k) ∈ post -> bp + 16 * n < a) -> joined n post.
Proof.
  intros Hlt. destruct (h_alloc _ _ _ Hh bp n Ha) as (? & ? & ? & _). split; try done.
  - apply post_sorted.
  - by destruct (place_chains s fl al Hh pre post p pn E) as (_ & _ & ?).
  - intros [a k] Hx. by apply (Hlt a k).
  - intros a k Hak Hne. by apply (h_disjoint _ _ _ Hh).
Qed.

Lemma joined_two k post' : post = (bp + 16 * n, k) :: post' -> joined (n + k) post'.
Proof.
  intros Ep. assert (Hin : (bp + 16 * n, k) ∈ post) by (rewrite Ep; left). pose proof (post_free _ Hin) as Hf.
  destruct (h_free _ _ _ Hh _ _ Hf) as (Hk & _ & Hk2). pose proof post_sorted as Hs.
  destruct (place_chains s fl al Hh pre post p pn E) as (_ & _ & Hc). rewrite Ep in Hs, Hc.
  apply StronglySorted_inv in Hs as [Hs Hx]. rewrite Forall_forall in Hx. split.
  - intros x Hi. rewrite Ep. by right.
  - rewrite Ep. cbn. lia.
  - done.
  - apply Hc.
  - intros x Hi. specialize (Hx x Hi). unfold before, bend in Hx. cbn in Hx. lia.
  - lia.
  - intros a j Hak Hne. pose proof (h_disjoint _ _ _ Hh a j bp n Hak Ha Hne) as D1. pose proof (h_apart _ _ _ Hh a j _ _ Hak Hf) as D2.
    destruct (h_alloc _ _ _ Hh a j Hak) as (? & _). unfold disjoint_blk, bend in *. cbn in *. lia.
Qed.


(** What the two headers that change leave alone. *)
Lemma bp_apart x : x ∈ nodes fl -> apart bp x.1.
Proof.
  rewrite E. intros Hx. destruct (h_alloc _ _ _ Hh bp n Ha) as (? & _). unfold apart.
  assert (Hc : x ∈ pre ++ [(p, pn)] \/ x ∈ post) by lelem. destruct Hc as [Hc|Hc]; [destruct (Hlo x Hc)|specialize (Hhi x Hc)]; lia.
Qed.

Lemma p_apart x : x ∈ pre ++ post -> apart p x.1.
Proof.
  intros Hx. pose proof (nodes_nodup s fl al Hh) as Hnd. rewrite E, fmap_app in Hnd. cbn in Hnd.
  assert (Hin : x ∈ nodes fl) by (rewrite E; lelem). assert (Hp : (p, pn) ∈ nodes fl) by (rewrite E; lelem).
  assert (Hne : x.1 <> p).
  { intros Ex. apply NoDup_app in Hnd as (_ & H1 & [H2 _]%NoDup_cons). apply elem_of_app in Hx as [Hx|Hx].
    - apply (H1 x.1); [by apply list_elem_of_fmap_2|]. rewrite Ex. left.
    - apply H2. rewrite <- Ex. by apply list_elem_of_fmap_2. }
  unfold apart. destruct (Z.lt_trichotomy x.1 p) as [Hl|[Hl|Hl]]; [|done|].
  - right. by apply (nodes_far s fl al Hh x (p, pn)).
  - left. by apply (nodes_far s fl al Hh (p, pn) x).
Qed.

Lemma alloc_apart a k c : al !! a = Some k -> a <> bp -> c = bp \/ c = p -> c + 16 <= a \/ a + 16 * k <= c.
Proof.
  intros Hak Hne. destruct (h_alloc _ _ _ Hh a k Hak) as (? & ? & _). destruct (h_alloc _ _ _ Hh bp n Ha) as (? & _). intros [->| ->].
  - destruct (h_disjoint _ _ _ Hh a k bp n Hak Ha Hne) as [Hd|Hd]; unfold bend in Hd; cbn in Hd; lia.
  - assert (Hp : (p, pn) ∈ nodes fl) by (rewrite E; lelem). apply elem_of_cons in Hp as [[= -> ->]|Hp]; [lia|].
    destruct (h_free _ _ _ Hh p pn Hp) as (? & _). destruct (h_apart _ _ _ Hh a k p pn Hak Hp) as [Hd|Hd]; unfold bend in Hd; cbn in Hd; lia.
Qed.

Context (N : Z) (post' : list blk) (J : joined N post') (m1 m2 : mem) (O1 : only bp s.(u_mem) m1) (O2 : only p m1 m2).
Context (P1 : hptr m1 bp = hd base post'.*1) (S1 : hsize m1 bp = N).

Lemma far_same c : c ∈ (pre ++ post').*1 -> hptr m2 c = hptr s.(u_mem) c /\ hsize m2 c = hsize s.(u_mem) c.
Proof.
  intros (x & -> & Hx)%list_elem_of_fmap.
  assert (Hx' : x ∈ pre ++ post) by (apply elem_of_app in Hx as [Hx|Hx]; [lelem|apply (j_sub _ _ J) in Hx; lelem]).
  assert (Hin : x ∈ nodes fl) by (rewrite E; lelem). pose proof (bp_apart x Hin). pose proof (p_apart x Hx').
  by rewrite (only_ptr _ _ _ _ O2), (only_size _ _ _ _ O2), (only_ptr _ _ _ _ O1), (only_size _ _ _ _ O1).
Qed.

Lemma bp_same : hptr m2 bp = hd base post'.*1 /\ hsize m2 bp = N.
Proof.
  assert (Hp : apart p bp). { pose proof (bp_apart (p, pn) ltac:(rewrite E; lelem)) as Hb. unfold apart in *. cbn in Hb. lia. }
  by rewrite (only_ptr _ _ _ _ O2), (only_size _ _ _ _ O2).
Qed.

Lemma data_same a k b : al !! a = Some k -> a <> bp -> a <= b < a + 16 * k -> rd m2 b = rd s.(u_mem) b.
Proof.
  intros Hak Hne Hb. pose proof (alloc_apart a k bp Hak Hne ltac:(by left)). pose proof (alloc_apart a k p Hak Hne ltac:(by right)).
  rewrite O2 by lia. apply O1. lia.
Qed.

(** The heap after [free], for the new ring [pre ++ mid ++ post']. *)
Lemma free_heap (mid : list blk) fl' :
  nodes fl' = pre ++ mid ++ post' -> p ∈ mid.*1 ->
  chain m2 mid.*1 (hd base post'.*1) -> hd p mid.*1 = p ->
  (forall a k, (a, k) ∈ mid -> hsize m2 a = k /\ ((a, k) = (base, 0) \/ 1 <= k /\ base + 16 <= a /\ a + 16 * k <= s.(u_brk) /\
     forall b j, al !! b = Some j -> b <> bp -> disjoint_blk (b, j) (a, k))) ->
  StronglySorted before mid -> (forall x y, x ∈ pre -> y ∈ mid -> before x y) -> (forall x y, x ∈ mid -> y ∈ post' -> before x y) ->
  heap (Ust m2 p s.(u_brk)) fl' (delete bp al).
Proof.
  intros En Hp Hc Hhd Hmid Hs Hb1 Hb2. destruct (place_chains s fl al Hh pre post p pn E) as (C1 & _ & _).
  pose proof (place_sorted s fl al Hh pre post p pn E) as Hsort.
  assert (Hm : forall a k, (a, k) ∈ fl' -> (a, k) ∈ mid \/ (a, k) ∈ pre ++ post').
  { intros a k Hi. assert (Hi' : (a, k) ∈ nodes fl') by (by right). rewrite En in Hi'. lelem. }
  assert (Hold : forall x, x ∈ pre ++ post' -> x ∈ nodes fl).
  { intros x Hx. rewrite E. apply elem_of_app in Hx as [Hx|Hx]; [lelem|apply (j_sub _ _ J) in Hx; lelem]. }
  assert (Hss : StronglySorted before (nodes fl')).
  { rewrite En. apply sorted_app; [by apply sorted_app_l in Hsort|apply sorted_app; [done|apply (j_sorted _ _ J)|done]|].
    intros x y Hx Hy. apply elem_of_app in Hy as [Hy|Hy]; [auto|]. apply (sorted_split _ _ Hsort); [done|].
    right. by apply (j_sub _ _ J). }
  assert (Hbase : forall k, (base, k) ∈ fl' -> False).
  { intros k Hi. apply StronglySorted_inv in Hss as [_ Hx]. rewrite Forall_forall in Hx. specialize (Hx _ Hi).
    unfold before, bend in Hx. cbn in Hx. lia. }
  split; cbn [u_mem u_freep u_brk].
  - apply (h_base _ _ _ Hh).
  - apply (h_brk _ _ _ Hh).
  - rewrite En, !fmap_app. lelem.
  - rewrite En, !fmap_app. apply chain_app. split; [|apply chain_app; split; [done|]].
    + replace (hd base (mid.*1 ++ post'.*1)) with p by (destruct mid.*1; [by apply not_elem_of_nil in Hp|by cbn in *]).
      apply (chain_frame (u_mem s)); [|done]. intros c Hi. apply far_same. rewrite fmap_app. lelem.
    + apply (chain_frame (u_mem s)); [|apply (j_chain _ _ J)]. intros c Hi. apply far_same. rewrite fmap_app. lelem.
  - intros a k. rewrite En. intros Hi. assert (Hi' : (a, k) ∈ mid \/ (a, k) ∈ pre ++ post') by lelem.
    destruct Hi' as [Hi'|Hi']; [by apply Hmid|].
    assert (Ha' : a ∈ (pre ++ post').*1) by exact (list_elem_of_fmap_2 fst _ _ Hi'). destruct (far_same a Ha') as [_ ->].
    apply (h_size _ _ _ Hh). by apply Hold.
  - done.
  - intros a k Hi. destruct (Hm a k Hi) as [Hi'|Hi'].
    + destruct (Hmid a k Hi') as [_ [[= -> ->]|Hk]]; [by destruct (Hbase 0)|]. tauto.
    + apply Hold in Hi'. apply elem_of_cons in Hi' as [[= -> ->]|Hi']; [by destruct (Hbase 0)|]. by apply (h_free _ _ _ Hh).
  - intros a k Hi. apply lookup_delete_Some in Hi as [Hne Hak]. destruct (h_alloc _ _ _ Hh a k Hak) as (? & ? & ? & Hsz).
    repeat split; try done. rewrite <- Hsz. apply hsize_ext. intros b Hb. apply (data_same a k); [done|done|lia].
  - intros a k b j Hi Hf. apply lookup_delete_Some in Hi as [Hne Hak]. destruct (Hm b j Hf) as [Hf'|Hf'].
    + destruct (Hmid b j Hf') as [_ [[= -> ->]|Hk]]; [by destruct (Hbase 0)|]. apply Hk; [done|congruence].
    + apply Hold in Hf'. apply elem_of_cons in Hf' as [[= -> ->]|Hf']; [by destruct (Hbase 0)|]. by apply (h_apart _ _ _ Hh).
  - intros a k b j Hi Hj Hne. apply lookup_delete_Some in Hi as [? ?], Hj as [? ?]. by apply (h_disjoint _ _ _ Hh).
Qed.
End Free.

(** The bytes of the allocated blocks are as they were. *)
Definition keeps (al : gmap Z Z) (m m' : mem) : Prop :=
  forall a k b, al !! a = Some k -> a + 16 <= b < a + 16 * k -> rd m' b = rd m b.

Lemma nodes_fl pre p pn post fl mid post' :
  nodes fl = pre ++ (p, pn) :: post -> hd (p, pn) mid = (p, pn) \/ p <> base -> mid <> [] ->
  exists fl', nodes fl' = pre ++ mid ++ post'.
Proof.
  intros E Hhd Hne. unfold nodes in *. destruct pre as [|x pre].
  - injection E as <- <- ->. destruct mid as [|y mid]; [done|]. destruct Hhd as [Hhd|]; [|done]. cbn in Hhd. subst y.
    by exists (mid ++ post').
  - injection E as <- ->. by exists (pre ++ mid ++ post').
Qed.

Lemma free_ring s fl al bp n pre p pn post N post' m1 m2 :
  heap s fl al -> al !! bp = Some n -> nodes fl = pre ++ (p, pn) :: post ->
  (forall x, x ∈ pre ++ [(p, pn)] -> bend x <= bp /\ x.1 + 16 <= bp) -> (forall x, x ∈ post -> bp + 16 * n <= x.1) ->
  joined s al bp n post N post' -> only bp s.(u_mem) m1 -> only p m1 m2 ->
  hptr m1 bp = hd base post'.*1 -> hsize m1 bp = N ->
  (p + 16 * pn = bp /\ hptr m2 p = hd base post'.*1 /\ hsize m2 p = pn + N \/
   p + 16 * pn < bp /\ hptr m2 p = bp /\ hsize m2 p = pn) ->
  exists fl', heap (Ust m2 p s.(u_brk)) fl' (delete bp al) /\ (exists a k, (a, k) ∈ fl' /\ n <= k) /\ (length fl' <= S (length fl))%nat.
Proof.
  intros Hh Ha E Hlo Hhi J O1 O2 P1 S1 Hcase.
  destruct (h_alloc _ _ _ Hh bp n Ha) as (Hn1 & Hbp & _). pose proof (j_range _ _ _ _ _ _ _ J) as [HN1 HN2].
  pose proof (place_sorted s fl al Hh pre post p pn E) as Hsort.
  assert (Hp : (p, pn) ∈ nodes fl) by (rewrite E; lelem).
  assert (Hnext : forall y, y ∈ post' -> bp + 16 * N < y.1) by apply (j_next _ _ _ _ _ _ _ J).
  assert (Hpre : forall x, x ∈ pre -> before x (p, pn)) by (intros x Hx; apply (sorted_split _ _ Hsort); [done|left]).
  assert (Hpfree : (p, pn) = (base, 0) \/ 1 <= pn /\ base + 16 <= p /\ p + 16 * pn <= u_brk s /\
    forall b j, al !! b = Some j -> b <> bp -> disjoint_blk (b, j) (p, pn)).
  { apply elem_of_cons in Hp as [Hp|Hp]; [by left|right]. destruct (h_free _ _ _ Hh p pn Hp) as (? & ? & ?). repeat split; try done.
    intros b j Hb _. by apply (h_apart _ _ _ Hh). }
  assert (Hlen : forall mid fl', (length mid <= 2)%nat -> nodes fl' = pre ++ mid ++ post' -> (length fl' <= S (length fl))%nat).
  { intros mid fl' Hm En. apply (f_equal length) in E, En. rewrite length_app in E. rewrite !length_app in En. cbn in E, En.
    pose proof (j_length _ _ _ _ _ _ _ J). lia. }
  destruct Hcase as [(Ep & P2 & S2)|(Hlt & P2 & S2)].
  - destruct Hpfree as [[= -> ->]|(Hpn & Hpb & _ & Hpd)]; [lia|].
    destruct (nodes_fl pre p pn post fl [(p, pn + N)] post' E) as [fl' En]; [right; lia|done|]. exists fl'. split.
    + refine (free_heap s fl al Hh bp n Ha pre post p pn E Hlo Hhi N post' J m1 m2 O1 O2 [(p, pn + N)] fl' En _ _ _ _ _ _ _).
      * left.
      * by split.
      * done.
      * intros a k [[= -> ->]|[]%not_elem_of_nil]%elem_of_cons. split; [done|]. right. repeat split; [lia|lia|lia|].
        intros b j Hb Hne. pose proof (j_apart _ _ _ _ _ _ _ J b j Hb Hne). specialize (Hpd b j Hb Hne).
        destruct (h_alloc _ _ _ Hh b j Hb) as (? & _). unfold disjoint_blk, bend in *. cbn in *. lia.
      * by repeat constructor.
      * intros x y Hx [->|[]%not_elem_of_nil]%elem_of_cons. exact (Hpre x Hx).
      * intros x y [->|[]%not_elem_of_nil]%elem_of_cons Hy. specialize (Hnext y Hy). unfold before, bend. cbn. lia.
    + split; [|exact (Hlen [_] fl' ltac:(cbn; lia) En)]. exists p, (pn + N). split; [|lia].
      assert (Hi : (p, pn + N) ∈ nodes fl') by (rewrite En; lelem). apply elem_of_cons in Hi as [[= ? ?]|Hi]; [lia|done].
  - destruct (nodes_fl pre p pn post fl [(p, pn); (bp, N)] post' E) as [fl' En]; [by left|done|]. exists fl'.
    pose proof (bp_same s fl al Hh bp n Ha pre post p pn E Hlo Hhi N post' m1 m2 O2 P1 S1) as [Pb Sb]. split.
    + refine (free_heap s fl al Hh bp n Ha pre post p pn E Hlo Hhi N post' J m1 m2 O1 O2 [(p, pn); (bp, N)] fl' En _ _ _ _ _ _ _).
      * left.
      * repeat split; [exact P2|exact Pb].
      * done.
      * intros a k [[= -> ->]|[[= -> ->]|[]%not_elem_of_nil]%elem_of_cons]%elem_of_cons; [by split|]. split; [done|]. right.
        repeat split; [lia|lia|lia|]. intros b j Hb Hne. by apply (j_apart _ _ _ _ _ _ _ J).
      * repeat constructor. unfold before, bend. cbn. lia.
      * intros x y Hx [->|[->|[]%not_elem_of_nil]%elem_of_cons]%elem_of_cons; [exact (Hpre x Hx)|].
        specialize (Hpre x Hx). assert (0 <= pn) by (by eapply (nodes_size s fl al Hh)). unfold before, bend in *. cbn in *. lia.
      * intros x y [->|[->|[]%not_elem_of_nil]%elem_of_cons]%elem_of_cons Hy; specialize (Hnext y Hy); unfold before, bend; cbn; lia.
    + split; [|exact (Hlen [_; _] fl' ltac:(cbn; lia) En)]. exists bp, N. split; [|lia].
      assert (Hi : (bp, N) ∈ nodes fl') by (rewrite En; lelem). apply elem_of_cons in Hi as [[= ? ?]|Hi]; [lia|done].
Qed.

(** [free] gives an allocated block back. *)
Lemma free_eq s fl al bp n :
  heap s fl al -> al !! bp = Some n ->
  exists fl' m p, free (bp + 16) s = Ok tt (Ust m p s.(u_brk)) /\ heap (Ust m p s.(u_brk)) fl' (delete bp al) /\
    keeps (delete bp al) s.(u_mem) m /\ (exists a k, (a, k) ∈ fl' /\ n <= k) /\ (length fl' <= S (length fl))%nat.
Proof.
  intros Hh Ha. destruct (place_of s fl al bp n Hh Ha) as (pre & p & pn & post & E & Hlo & Hhi).
  destruct (h_alloc _ _ _ Hh bp n Ha) as (Hn1 & Hbp & Hbe & Hsz). pose proof (h_base _ _ _ Hh) as Hb0. pose proof (h_brk _ _ _ Hh) as Hbrk.
  assert (Hp : (p, pn) ∈ nodes fl) by (rewrite E; lelem). pose proof (bp_apart s fl al Hh bp n Ha pre post p pn E Hlo Hhi (p, pn) Hp) as Hap.
  destruct (place_chains s fl al Hh pre post p pn E) as (_ & Cp & C2).
  destruct (join_next_eq s bp n p post) as (N & post' & m1 & E1 & O1 & P1 & S1 & Hj); try done; [lia|lia| | |].
  { exact (post_sorted s fl al Hh pre post p pn E). }
  { intros a k Hi. pose proof (post_free s fl al Hh bp n Ha pre post p pn E Hhi _ Hi) as Hf. destruct (h_free _ _ _ Hh a k Hf) as (? & ? & ?).
    specialize (Hhi _ Hi). cbn in Hhi. repeat split; try lia. apply (h_size _ _ _ Hh). by right. }
  assert (J : joined s al bp n post N post').
  { destruct Hj as [(-> & -> & Hlt)|(k & -> & Ek)]; [by eapply joined_alone|by eapply joined_two]. }
  pose proof (j_range _ _ _ _ _ _ _ J) as [HN1 HN2].
  assert (Hpx : bend (p, pn) <= bp /\ p + 16 <= bp) by (apply (Hlo (p, pn)); lelem). unfold bend in Hpx. cbn in Hpx.
  pose proof (nodes_size s fl al Hh p pn Hp) as Hpn. pose proof (nodes_low s fl al Hh _ Hp) as Hpl. cbn in Hpl.
  destruct (join_prev_eq (with_mem m1 s) bp N p pn post') as (m2 & E2 & O2 & Hcase); try done; cbn [u_mem with_mem]; try lia.
  { rewrite (only_size _ _ _ p O1 Hap). by apply (h_size _ _ _ Hh). }
  { assert (Hd : hd base post'.*1 = base \/ exists y, y ∈ post' /\ hd base post'.*1 = y.1).
    { destruct post' as [|y l]; [by left|right]. exists y. split; [left|done]. }
    destruct Hd as [->|([a k] & Hy & ->)]; [lia|]. apply (j_sub _ _ _ _ _ _ _ J) in Hy.
    pose proof (post_free s fl al Hh bp n Ha pre post p pn E Hhi _ Hy) as Hf. destruct (h_free _ _ _ Hh a k Hf). cbn. lia. }
  destruct (free_ring s fl al bp n pre p pn post N post' m1 m2 Hh Ha E Hlo Hhi J O1 O2 P1 S1 Hcase) as (fl' & Hh' & Hbig).
  exists fl', m2, p. split; [|split; [done|split; [|done]]].
  - unfold free. cbn [bind get gets obind view u_freep_l]. unfold hplus. rewrite u64_addr by lia.
    replace (bp + 16 + 16 * -1) with bp by lia.
    rewrite (free_find s fl al Hh bp pre post p pn E) by
      (first [intros x Hx; destruct (Hlo x Hx); lia | intros x Hx; specialize (Hhi x Hx); lia | exact (trip_enough s fl al Hh)]).
    cbn [obind bind]. rewrite E1. cbn [obind bind]. rewrite E2. done.
  - intros a k b Hi Hb. apply lookup_delete_Some in Hi as [Hne Hak].
    eapply (data_same s fl al Hh bp n Ha pre post p pn E Hlo m1 m2 O1 O2 a k); [done|congruence|lia].
Qed.

(** ** malloc: going round the ring *)

Lemma malloc_small nunits prevp p s :
  hsize s.(u_mem) p < nunits -> p <> s.(u_freep) ->
  malloc_body nunits (prevp, p) s = Ok (inl (p, hptr s.(u_mem) p)) s.
Proof.
  intros Hs Hp. unfold malloc_body, get_size, get_ptr. cbn [bind get gets obind ret view u_mem_l u_freep_l]. fold (hsize (u_mem s) p).
  rewrite (proj2 (Z.leb_gt _ _) Hs). cbn [bind get gets obind ret view u_freep_l]. by rewrite (proj2 (Z.eqb_neq _ _) Hp).
Qed.

Lemma malloc_scan nunits s : forall (o1 : list Z) prevp p o2 z fuel,
  chain s.(u_mem) (prevp :: o1 ++ p :: o2) z -> (forall c, c ∈ o1 -> hsize s.(u_mem) c < nunits /\ c <> s.(u_freep)) ->
  loop (length o1 + fuel) (malloc_body nunits) (prevp, hd p (o1 ++ [p])) s =
  loop fuel (malloc_body nunits) (List.last o1 prevp, p) s.
Proof.
  induction o1 as [|c o1 IH]; intros prevp p o2 z fuel Hc Hs; [done|].
  cbn [app hd length Nat.add]. destruct (Hs c) as [Hsc Hfc]; [left|]. rewrite loop_S, malloc_small by done. cbn [obind].
  destruct Hc as [_ Hc]. assert (Ec : hptr (u_mem s) c = hd p (o1 ++ [p])).
  { cbn [app] in Hc. destruct Hc as [-> _]. by destruct o1. }
  rewrite Ec, (IH c p o2 z) by (first [exact Hc | intros c' Hc'; apply Hs; by right]).
  f_equal. f_equal. destruct o1 as [|c' o1]; [done|]. cbn. clear. revert c'. by induction o1; intros; cbn.
Qed.

(** The first header of a list that is big enough. *)
Lemma first_fit m nunits (o : list Z) :
  (forall c, c ∈ o -> hsize m c < nunits) \/
  exists o1 p o2, o = o1 ++ p :: o2 /\ (forall c, c ∈ o1 -> hsize m c < nunits) /\ nunits <= hsize m p.
Proof.
  induction o as [|c o IH]; [left; by intros ? ?%not_elem_of_nil|]. destruct (Z.lt_ge_cases (hsize m c) nunits) as [Hc|Hc].
  - destruct IH as [Hall|(o1 & p & o2 & -> & H1 & H2)]; [left|right].
    + intros c' [->|Hc']%elem_of_cons; auto.
    + exists (c :: o1), p, o2. split; [done|]. split; [|done]. intros c' [->|Hc']%elem_of_cons; auto.
  - right. exists [], c, o. split; [done|]. split; [by intros ? ?%not_elem_of_nil|done].
Qed.

(** The ring from [freep] on: all headers, [freep] last. *)
Lemma ring_order s fl al : heap s fl al ->
  exists r, chain s.(u_mem) (s.(u_freep) :: r ++ [s.(u_freep)]) (hptr s.(u_mem) s.(u_freep)) /\
    hptr s.(u_mem) s.(u_freep) = hd s.(u_freep) (r ++ [s.(u_freep)]) /\
    (forall c, (c ∈ r ++ [s.(u_freep)]) <-> (c ∈ (nodes fl).*1)) /\ (s.(u_freep) ∉ r) /\ length r = length fl.
Proof.
  intros Hh. pose proof (h_freep _ _ _ Hh) as Hf. apply list_elem_of_split in Hf as (l1 & l2 & El).
  pose proof (h_ring _ _ _ Hh) as Hr. pose proof (nodes_nodup s fl al Hh) as Hnd. rewrite El in Hr, Hnd.
  assert (Hrot : chain s.(u_mem) (u_freep s :: l2 ++ l1) (u_freep s)).
  { refine (chain_rotate _ _ _ _ _ _ Hr). unfold nodes in El. cbn in El. by destruct l1; injection El. }
  exists (l2 ++ l1). split; [|split; [|split; [|split]]].
  - rewrite app_comm_cons. apply chain_app. by split.
  - destruct Hrot as [-> _]. by destruct (l2 ++ l1).
  - intros c. rewrite El. lelem.
  - apply NoDup_app in Hnd as (_ & H1 & [H2 _]%NoDup_cons). intros [Hi|Hi]%elem_of_app; [done|]. apply (H1 _ Hi). left.
  - assert (Hl : length (nodes fl).*1 = length (l1 ++ u_freep s :: l2)) by by rewrite El.
    rewrite length_fmap, length_app in Hl. cbn in Hl. rewrite length_app. lia.
Qed.

(** The header whose pointer is [p] is the one before it. *)
Lemma pred_unique s fl al pre c ck p k post d :
  heap s fl al -> nodes fl = (pre ++ [(c, ck)]) ++ (p, k) :: post -> d ∈ (nodes fl).*1 -> hptr s.(u_mem) d = p -> d = c.
Proof.
  intros Hh E Hd Hp. pose proof (h_sorted _ _ _ Hh) as Hs. pose proof (h_ring _ _ _ Hh) as Hc. pose proof (nodes_size s fl al Hh) as Hn.
  pose proof (nodes_nodup s fl al Hh) as Hnd. rewrite E in Hs, Hc, Hd, Hn, Hnd. rewrite !fmap_app in Hd, Hc, Hnd. cbn in Hd, Hc, Hnd.
  apply chain_app in Hc as [Hc1 Hc2]. apply chain_app in Hc1 as [Hc1 _]. cbn in Hc1.
  assert (Hb : (pre ++ [(c, ck)]) !! 0%nat = Some (base, 0)).
  { clear -E. unfold nodes in E. destruct pre; cbn in *; injection E; intros; by subst. }
  rewrite <- app_assoc in Hs, Hnd. cbn in Hs, Hnd. apply NoDup_app in Hnd as (_ & Hd1 & Hnd2).
  assert (Hcase : d ∈ pre.*1 \/ d = c \/ d ∈ p :: post.*1) by lelem. destruct Hcase as [Hin|[->|Hin]]; [exfalso|done|exfalso].
  - destruct (chain_next _ _ _ (sorted_app_l _ _ Hs) (fun a n Hi => Hn a n ltac:(lelem)) Hc1 d Hin) as [Ed|[Ed _]]; rewrite Hp in Ed.
    + subst c. apply NoDup_cons in Hnd2 as [Hnd2 _]. apply Hnd2. left.
    + apply (Hd1 p Ed). right. left.
  - apply sorted_app_r in Hs. apply StronglySorted_inv in Hs as [Hs Hx].
    destruct (chain_next _ ((p, k) :: post) _ Hs (fun a n Hi => Hn a n ltac:(lelem)) Hc2 d Hin) as [Ed|[_ Ed]]; rewrite Hp in Ed.
    + rewrite Ed in Hd1, Hnd2. assert (Hbin : base ∈ (pre ++ [(c, ck)]).*1) by (apply list_elem_of_lookup_2 in Hb; exact (list_elem_of_fmap_2 fst _ _ Hb)).
      rewrite fmap_app in Hbin. apply elem_of_app in Hbin as [Hbin|Hbin].
      * apply (Hd1 base Hbin). right. left.
      * apply elem_of_cons in Hbin as [Eb|[]%not_elem_of_nil]. cbn in Eb. rewrite <- Eb in Hnd2. apply NoDup_cons in Hnd2 as [Hnd2 _]. apply Hnd2. left.
    + apply elem_of_cons in Hin as [->|Hin]; [lia|]. apply list_elem_of_fmap in Hin as (y & -> & Hy).
      apply StronglySorted_inv in Hs as [_ Hs]. rewrite Forall_forall in Hs. specialize (Hs y Hy). unfold before, bend in Hs. cbn in Hs.
      pose proof (Hn p k ltac:(lelem)). lia.
Qed.

(** ** malloc: taking a block *)

Section Take.
Context (s : ust) (fl : list blk) (al : gmap Z Z) (Hh : heap s fl al).
Context (pre post : list blk) (c ck p k : Z) (E : nodes fl = (pre ++ [(c, ck)]) ++ (p, k) :: post).

Lemma take_free : (p, k) ∈ fl /\ post ⊆ fl.
Proof.
  assert (Ef : fl = tl (pre ++ [(c, ck)]) ++ (p, k) :: post) by (unfold nodes in E; destruct pre; cbn in *; by injection E).
  rewrite Ef. split; [lelem|]. intros x Hx. lelem.
Qed.

Lemma take_pred : (c, ck) ∈ nodes fl.
Proof. rewrite E. lelem. Qed.

(** [p] lies inside the heap, and no allocated block overlaps it or the
    header [c]. *)
Lemma take_alloc a n : al !! a = Some n ->
  (a + 16 * n <= p \/ p + 16 * k <= a) /\ (c + 16 <= a \/ a + 16 * n <= c).
Proof.
  intros Ha. destruct take_free as [Hp _]. destruct (h_alloc _ _ _ Hh a n Ha) as (? & ? & _).
  split; [pose proof (h_apart _ _ _ Hh a n p k Ha Hp) as Hd; unfold disjoint_blk, bend in Hd; cbn in Hd; lia|].
  pose proof take_pred as Hc. apply elem_of_cons in Hc as [[= -> ->]|Hc]; [lia|]. destruct (h_free _ _ _ Hh c ck Hc).
  pose proof (h_apart _ _ _ Hh a n c ck Ha Hc) as Hd. unfold disjoint_blk, bend in Hd. cbn in Hd. lia.
Qed.

Lemma take_far : c + 16 <= p /\ forall x, x ∈ pre ++ post -> (x.1 + 16 <= p \/ p + 16 * k < x.1) /\ apart c x.1.
Proof.
  pose proof (h_sorted _ _ _ Hh) as Hs. pose proof (nodes_size s fl al Hh) as Hn. pose proof (nodes_far s fl al Hh) as Hf.
  rewrite E in Hs, Hn, Hf. assert (Hb : forall x y, before x y -> 0 <= x.2 -> x.1 < y.1) by (unfold before, bend; intros; lia).
  assert (Hcp : c + 16 <= p).
  { apply (Hf (c, ck) (p, k)); [lelem|lelem|]. apply Hb; [|apply (Hn c ck); lelem]. apply (sorted_split _ _ Hs); [lelem|left]. }
  split; [done|]. intros x [Hx|Hx]%elem_of_app.
  - assert (Hc : x.1 + 16 <= c).
    { apply (Hf x (c, ck)); [lelem|lelem|]. apply Hb; [|destruct x as [a n]; apply (Hn a n); lelem].
      rewrite <- app_assoc in Hs. apply (sorted_split _ _ Hs); [done|left]. }
    split; [left; lia|right; lia].
  - apply sorted_app_r in Hs. apply StronglySorted_inv in Hs as [_ Hs]. rewrite Forall_forall in Hs. specialize (Hs x Hx).
    unfold before, bend in Hs. cbn in Hs. pose proof (Hn p k ltac:(lelem)). split; [right; lia|left; lia].
Qed.

Context (q nunits : Z) (Hu : 1 <= nunits) (Hq : q = p + 16 * (k - nunits)) (Hk : nunits <= k).
Context (m : mem) (mid : list blk) (Hmid : forall x, x ∈ mid -> x = (p, k - nunits) /\ nunits < k).
Context (Hold : forall x, x ∈ pre ++ post -> hptr m x.1 = hptr s.(u_mem) x.1 /\ hsize m x.1 = hsize s.(u_mem) x.1).
Context (Hcm : hptr m c = hd base (mid ++ post).*1 /\ hsize m c = ck) (Hpm : chain m mid.*1 (hd base post.*1)).
Context (Hps : forall a n, (a, n) ∈ mid -> hsize m a = n) (Hms : StronglySorted before mid).
Context (Hqm : hsize m q = nunits) (Hdata : forall a n b, al !! a = Some n -> a <= b < a + 16 * n -> rd m b = rd s.(u_mem) b).

Lemma take_chain : chain m ((pre ++ [(c, ck)]) ++ mid ++ post).*1 base.
Proof.
  pose proof (h_ring _ _ _ Hh) as Hr. rewrite E, !fmap_app in Hr. apply chain_app in Hr as [Hr1 Hr2]. apply chain_app in Hr1 as [Hr1 _].
  destruct Hr2 as [_ Hr2]. rewrite fmap_app. apply chain_app. split.
  - rewrite fmap_app. apply chain_app. split; [|by destruct Hcm].
    apply (chain_frame (u_mem s)); [|done]. intros a (x & -> & Hx)%list_elem_of_fmap. apply Hold. lelem.
  - rewrite fmap_app. apply chain_app. split; [done|]. apply (chain_frame (u_mem s)); [|done].
    intros a (x & -> & Hx)%list_elem_of_fmap. apply Hold. lelem.
Qed.

Lemma take_sorted : StronglySorted before ((pre ++ [(c, ck)]) ++ mid ++ post).
Proof.
  pose proof (h_sorted _ _ _ Hh) as Hs. rewrite E in Hs. pose proof (sorted_app_r _ _ Hs) as Hs2.
  apply StronglySorted_inv in Hs2 as [Hs2 Hx]. rewrite Forall_forall in Hx.
  apply sorted_app; [by apply sorted_app_l in Hs|apply sorted_app; [done|done|]|].
  - intros x y Hi Hy. destruct (Hmid x Hi) as [-> Hl]. specialize (Hx y Hy). unfold before, bend in *. cbn in *. lia.
  - intros x y Hx1 Hy. apply elem_of_app in Hy as [Hy|Hy].
    + destruct (Hmid y Hy) as [-> _]. exact (sorted_split _ _ Hs x (p, k) Hx1 ltac:(left)).
    + apply (sorted_split _ _ Hs); [done|by right].
Qed.

Lemma take_fresh : al !! q = None.
Proof.
  destruct (al !! q) as [n|] eqn:Ea; [|done]. destruct (h_alloc _ _ _ Hh q n Ea) as (? & _). destruct (take_alloc q n Ea) as [Hd _]. lia.
Qed.

(** The free blocks afterwards. *)
Lemma take_sub fl' : nodes fl' = (pre ++ [(c, ck)]) ++ mid ++ post ->
  forall x, x ∈ fl' -> x ∈ fl /\ x <> (p, k) \/ x ∈ mid.
Proof.
  intros En. pose proof take_sorted as Hss. rewrite <- En in Hss.
  intros x Hx. assert (Hb : before (base, 0) x).
    { apply StronglySorted_inv in Hss as [_ Hss]. rewrite Forall_forall in Hss. auto. }
    assert (Hi : x ∈ nodes fl') by by right. rewrite En in Hi.
    assert (Hi' : x ∈ mid \/ x ∈ (pre ++ [(c, ck)]) ++ post) by lelem. destruct Hi' as [Hi'|Hi']; [by right|left].
    assert (Hn : x ∈ nodes fl) by (rewrite E; lelem). apply elem_of_cons in Hn as [->|Hn].
    { unfold before, bend in Hb. cbn in Hb. lia. }
    split; [done|]. intros ->. pose proof (nodes_nodup s fl al Hh) as Hnd. rewrite E, fmap_app in Hnd. cbn in Hnd.
    apply NoDup_app in Hnd as (_ & N1 & [N2 _]%NoDup_cons). apply elem_of_app in Hi' as [Hi'|Hi']; apply (list_elem_of_fmap_2 fst) in Hi'; [|done].
    apply (N1 p Hi'). left.
Qed.

Lemma take_disjoint fl' : nodes fl' = (pre ++ [(c, ck)]) ++ mid ++ post ->
  forall x, x ∈ fl' -> disjoint_blk (q, nunits) x.
Proof.
  intros En. destruct take_free as [Hp Hpost]. destruct (h_free _ _ _ Hh p k Hp) as (Hk1 & Hpb & Hpe). pose proof (take_sub fl' En) as Hsub.
  intros x Hx. destruct (Hsub x Hx) as [[Hf Hne]|Hm]; [|destruct (Hmid x Hm) as [-> _]; unfold disjoint_blk, bend; cbn; lia].
    pose proof (nodes_far s fl al Hh x (p, k)) as F1. pose proof (nodes_far s fl al Hh (p, k) x) as F2. cbn in F1, F2.
    destruct (Z.lt_trichotomy x.1 p) as [Hl|[Hl|Hl]].
    - destruct F1 as [_ F1]; [by right|by right|done|]. unfold disjoint_blk, bend in *. cbn in *. lia.
    - destruct Hne. pose proof (h_size _ _ _ Hh p k ltac:(by right)) as S1. destruct x as [a n]. cbn in Hl. subst a.
      pose proof (h_size _ _ _ Hh p n ltac:(by right)) as S2. congruence.
    - destruct F2 as [_ F2]; [by right|by right|done|]. unfold disjoint_blk, bend in *. cbn in *. lia.
Qed.

Lemma take_heap fl' : nodes fl' = (pre ++ [(c, ck)]) ++ mid ++ post -> heap (Ust m c s.(u_brk)) fl' (<[q := nunits]> al).
Proof.
  intros En. destruct take_free as [Hp Hpost]. destruct (h_free _ _ _ Hh p k Hp) as (Hk1 & Hpb & Hpe). pose proof take_sorted as Hss.
  pose proof take_chain as Hch. rewrite <- En in Hss, Hch.
  pose proof (take_sub fl' En) as Hsub. pose proof (take_disjoint fl' En) as Hdis.
  split; cbn [u_mem u_freep u_brk]; try done.
  - apply (h_base _ _ _ Hh).
  - apply (h_brk _ _ _ Hh).
  - rewrite En, !fmap_app. cbn. lelem.
  - intros a n. rewrite En. intros Hi. assert (Hi' : (a, n) ∈ pre ++ post \/ (a, n) = (c, ck) \/ (a, n) ∈ mid) by lelem.
    destruct Hi' as [Hi'|[[= -> ->]|Hi']]; [|apply Hcm|by apply Hps]. destruct (Hold _ Hi') as [_ Es]. cbn in Es. rewrite Es. apply (h_size _ _ _ Hh). rewrite E. lelem.
  - intros a n Hi. destruct (Hsub _ Hi) as [[Hf _]|Hm]; [by apply (h_free _ _ _ Hh)|]. destruct (Hmid _ Hm) as [[= -> ->] Hl]. lia.
  - intros a n [(<- & <-)|(Hne & Ha)]%lookup_insert_Some; [repeat split; try lia; done|].
    destruct (h_alloc _ _ _ Hh a n Ha) as (? & ? & ? & Hsz). repeat split; try done. rewrite <- Hsz. apply hsize_ext.
    intros b Hb. apply (Hdata a n); [done|lia].
  - intros a n b j [(<- & <-)|(Hne & Ha)]%lookup_insert_Some Hf; [by apply Hdis|].
    destruct (Hsub _ Hf) as [[Hf' _]|Hm]; [by apply (h_apart _ _ _ Hh)|]. destruct (Hmid _ Hm) as [[= -> ->] Hl].
    destruct (take_alloc a n Ha) as [Hd _]. unfold disjoint_blk, bend. cbn. lia.
  - intros a n b j [(<- & <-)|(Hne & Ha)]%lookup_insert_Some [(<- & <-)|(Hne' & Hb)]%lookup_insert_Some Hab; [done|..].
    + destruct (take_alloc b j Hb) as [Hd _]. unfold disjoint_blk, bend. cbn. lia.
    + destruct (take_alloc a n Ha) as [Hd _]. unfold disjoint_blk, bend. cbn. lia.
    + by apply (h_disjoint _ _ _ Hh).
Qed.
End Take.

Lemma nodes_pre pre c ck fl post post' :
  nodes fl = (pre ++ [(c, ck)]) ++ post -> exists fl', nodes fl' = (pre ++ [(c, ck)]) ++ post'.
Proof.
  intros E. unfold nodes in *. destruct pre as [|x pre]; cbn in *.
  - injection E as <- <- _. by exists post'.
  - injection E as <- _. by exists ((pre ++ [(c, ck)]) ++ post').
Qed.

Lemma take_exact s fl al pre c ck p k post :
  heap s fl al -> nodes fl = (pre ++ [(c, ck)]) ++ (p, k) :: post ->
  let m := put_ptr c (hptr s.(u_mem) p) s.(u_mem) in
  exists fl', heap (Ust m c s.(u_brk)) fl' (<[p := k]> al) /\ keeps al s.(u_mem) m.
Proof.
  intros Hh E m. destruct (take_free fl pre post c ck p k E) as [Hp Hpost]. destruct (h_free _ _ _ Hh p k Hp) as (Hk1 & Hpb & Hpe).
  pose proof (take_far s fl al Hh pre post c ck p k E) as [Hcp Hfar].
  assert (Hdata : forall a n b, al !! a = Some n -> a <= b < a + 16 * n -> rd m b = rd s.(u_mem) b).
  { intros a n b Ha Hb. apply rd_put_ptr. destruct (take_alloc s fl al Hh pre post c ck p k E a n Ha). lia. }
  destruct (nodes_pre pre c ck fl ((p, k) :: post) post E) as [fl' En].
  exists fl'. split; [|intros a n b Ha Hb; apply (Hdata a n); [done|lia]].
  refine (take_heap s fl al Hh pre post c ck p k E p k Hk1 ltac:(lia) ltac:(lia) m [] _ _ _ _ _ _ _ Hdata fl' En).
  - by intros x ?%not_elem_of_nil.
  - intros x Hx. destruct (Hfar x Hx) as [_ Hx']. unfold m. by rewrite hptr_put_ptr_ne, hsize_put_ptr_ne.
  - unfold m. rewrite hptr_put_ptr, hsize_put_ptr. split; [|apply (h_size _ _ _ Hh), (take_pred fl pre post c ck p k E)].
    pose proof (h_ring _ _ _ Hh) as Hr. rewrite E, fmap_app in Hr. apply chain_app in Hr as [_ [Hr _]]. cbn [fst] in Hr. rewrite Hr.
    apply u64_small. cbn [app]. pose proof (load64_range (u_mem s) p) as Hrg. fold (hptr (u_mem s) p) in Hrg. by rewrite Hr in Hrg.
  - done.
  - by intros a n ?%not_elem_of_nil.
  - constructor.
  - unfold m. rewrite hsize_put_ptr_ne by (left; lia). apply (h_size _ _ _ Hh). by right.
Qed.

Lemma take_split s fl al pre c ck p k post nunits :
  heap s fl al -> nodes fl = (pre ++ [(c, ck)]) ++ (p, k) :: post -> 1 <= nunits < k ->
  let q := p + 16 * (k - nunits) in let m := put_size q nunits (put_size p (k - nunits) s.(u_mem)) in
  exists fl', heap (Ust m c s.(u_brk)) fl' (<[q := nunits]> al) /\ keeps al s.(u_mem) m.
Proof.
  intros Hh E Hu q m. destruct (take_free fl pre post c ck p k E) as [Hp Hpost]. destruct (h_free _ _ _ Hh p k Hp) as (Hk1 & Hpb & Hpe).
  pose proof (take_far s fl al Hh pre post c ck p k E) as [Hcp Hfar]. pose proof (h_brk _ _ _ Hh) as Hbrk. pose proof (h_base _ _ _ Hh) as Hb0.
  assert (Hq : p + 16 <= q /\ q + 16 <= p + 16 * k) by (unfold q; lia).
  assert (Hdata : forall a n b, al !! a = Some n -> a <= b < a + 16 * n -> rd m b = rd s.(u_mem) b).
  { intros a n b Ha Hb. destruct (take_alloc s fl al Hh pre post c ck p k E a n Ha). unfold m. by rewrite !rd_put_size by lia. }
  assert (Hsame : forall a, a + 16 <= p \/ p + 16 * k <= a -> hptr m a = hptr (u_mem s) a /\ hsize m a = hsize (u_mem s) a).
  { intros a Ha. unfold m. by rewrite !hptr_put_size_ne, !hsize_put_size_ne by (unfold apart; lia). }
  destruct (nodes_pre pre c ck fl ((p, k) :: post) ([(p, k - nunits)] ++ post) E) as [fl' En].
  exists fl'. split; [|intros a n b Ha Hb; apply (Hdata a n); [done|lia]].
  refine (take_heap s fl al Hh pre post c ck p k E q nunits ltac:(lia) eq_refl ltac:(lia) m [(p, k - nunits)] _ _ _ _ _ _ _ Hdata fl' En).
  - intros x [->|[]%not_elem_of_nil]%elem_of_cons. split; [done|lia].
  - intros x Hx. destruct (Hfar x Hx) as [Hx' _]. apply Hsame. lia.
  - destruct (Hsame c) as [-> ->]; [lia|]. split; [|apply (h_size _ _ _ Hh), (take_pred fl pre post c ck p k E)].
    pose proof (h_ring _ _ _ Hh) as Hr. rewrite E, !fmap_app in Hr. apply chain_app in Hr as [Hr _]. apply chain_app in Hr as [_ [Hr _]]. exact Hr.
  - cbn. split; [|done]. pose proof (h_ring _ _ _ Hh) as Hr. rewrite E, fmap_app in Hr. apply chain_app in Hr as [_ [Hr _]]. cbn [fst] in Hr.
    unfold m. by rewrite hptr_put_size_ne, hptr_put_size by (unfold apart; lia).
  - intros a n [[= -> ->]|[]%not_elem_of_nil]%elem_of_cons. unfold m. rewrite hsize_put_size_ne, hsize_put_size by (unfold apart; lia).
    apply u32_small. lia.
  - by repeat constructor.
  - unfold m. rewrite hsize_put_size. apply u32_small. lia.
Qed.

Lemma take_eq s fl al pre c ck p k post nunits :
  heap s fl al -> nodes fl = (pre ++ [(c, ck)]) ++ (p, k) :: post -> 1 <= nunits <= k ->
  exists q m fl', malloc_body nunits (c, p) s = Ok (inr (q + 16)) (Ust m c s.(u_brk)) /\
    heap (Ust m c s.(u_brk)) fl' (<[q := nunits]> al) /\ al !! q = None /\ keeps al s.(u_mem) m /\ base < q.
Proof.
  intros Hh E Hu. destruct (take_free fl pre post c ck p k E) as [Hp Hpost]. destruct (h_free _ _ _ Hh p k Hp) as (Hk1 & Hpb & Hpe).
  pose proof (h_brk _ _ _ Hh) as Hbrk. pose proof (h_base _ _ _ Hh) as Hb0. pose proof (h_size _ _ _ Hh p k ltac:(by right)) as Hsz.
  unfold malloc_body, get_size, get_ptr, set_ptr, set_size. cbn [bind get gets obind ret view u_mem_l]. fold (hsize (u_mem s) p). rewrite Hsz.
  rewrite (proj2 (Z.leb_le _ _)) by lia. destruct (Z.eqb_spec k nunits) as [Ek|Ek].
  - cbn [bind get gets obind ret update set modify put view u_mem_l u_freep_l u_mem u_freep u_brk].
    destruct (take_exact s fl al pre c ck p k post Hh E) as (fl' & Hh' & Hkeep). subst nunits.
    exists p, (put_ptr c (hptr (u_mem s) p) (u_mem s)), fl'. unfold hplus. rewrite u64_addr by lia. split; [done|]. split; [done|].
    split; [|split; [done|lia]]. by apply (take_fresh s fl al Hh pre post c ck p k E p k); lia.
  - unfold hplus. rewrite !(u32_small (k - nunits)) by lia. rewrite (u64_addr (p + _)) by lia.
    cbn [bind get gets obind ret update set modify put view u_mem_l u_freep_l u_mem u_freep u_brk].
    destruct (take_split s fl al pre c ck p k post nunits Hh E) as (fl' & Hh' & Hkeep); [lia|].
    eexists (p + 16 * (k - nunits)), _, fl'. rewrite u64_addr by lia. split; [done|]. split; [done|].
    split; [|split; [done|lia]]. by apply (take_fresh s fl al Hh pre post c ck p k E _ nunits); lia.
Qed.

(** ** malloc: a block is found *)

Lemma last_in (l : list Z) d : List.last l d = d \/ List.last l d ∈ l.
Proof.
  destruct (decide (l = [])) as [->|Hl]; [by left|right]. destruct (exists_last Hl) as (l' & x & ->). rewrite List.last_last. lelem.
Qed.

Lemma chain_last m (l : list Z) a z : chain m (a :: l) z -> hptr m (List.last l a) = z.
Proof.
  destruct (decide (l = [])) as [->|Hl]; [by intros [E _]|]. destruct (exists_last Hl) as (l' & x & ->). rewrite List.last_last, app_comm_cons.
  intros [_ [Hx _]]%chain_app. done.
Qed.

Lemma malloc_found s fl al nunits fuel :
  heap s fl al -> 1 <= nunits -> (exists a k, (a, k) ∈ fl /\ nunits <= k) -> (length (nodes fl) < fuel)%nat ->
  exists q c m fl', loop fuel (malloc_body nunits) (s.(u_freep), hptr s.(u_mem) s.(u_freep)) s = Ok (q + 16) (Ust m c s.(u_brk)) /\
    heap (Ust m c s.(u_brk)) fl' (<[q := nunits]> al) /\ al !! q = None /\ keeps al s.(u_mem) m /\ base < q.
Proof.
  intros Hh Hu (a & k & Hak & Hk) Hf. destruct (ring_order s fl al Hh) as (r & Hc & Hhd & Hin & Hr & Hlen).
  destruct (first_fit (u_mem s) nunits (r ++ [u_freep s])) as [Hall|(o1 & p & o2 & Eo & Hsm & Hbig)].
  { assert (Ha : a ∈ (nodes fl).*1) by (apply (list_elem_of_fmap_2 fst _ (a, k)); by right). apply Hin, Hall in Ha.
    rewrite (h_size _ _ _ Hh a k) in Ha by (by right). lia. }
  assert (Er : exists o2', r = o1 ++ o2').
  { destruct (exists_last (l := p :: o2)) as (o2' & z & E2); [done|]. exists o2'. rewrite E2, app_assoc in Eo. by apply app_inj_tail in Eo as [-> _]. }
  destruct Er as [o2' Er]. rewrite Eo in Hc, Hhd. assert (Ho1 : forall c, c ∈ o1 -> hsize (u_mem s) c < nunits /\ c <> u_freep s).
  { intros c Hi. split; [auto|]. intros ->. apply Hr. rewrite Er. lelem. }
  assert (Hl : (length o1 <= length fl)%nat).
  { assert (Hl : length (r ++ [u_freep s]) = length (o1 ++ p :: o2)) by by rewrite Eo. rewrite !length_app in Hl. cbn in Hl. lia. }
  rewrite Hhd. replace (hd (u_freep s) (o1 ++ p :: o2)) with (hd p (o1 ++ [p])) by by destruct o1.
  replace fuel with (length o1 + (fuel - length o1))%nat by (cbn in Hf; lia).
  rewrite (malloc_scan nunits s o1 (u_freep s) p o2 _ _ Hc Ho1).
  destruct (fuel - length o1)%nat as [|fuel'] eqn:Ef; [cbn in Hf; lia|].
  assert (Hp : p ∈ (nodes fl).*1) by (apply Hin; rewrite Eo; lelem).
  assert (Hpf : exists k, (p, k) ∈ fl).
  { apply list_elem_of_fmap in Hp as ([p' k'] & -> & [[= -> ->]|Hp]%elem_of_cons); [|by exists k'].
    cbn in Hbig. rewrite (h_size _ _ _ Hh base 0) in Hbig by left. lia. }
  destruct Hpf as [kp Hpf]. rewrite (h_size _ _ _ Hh p kp) in Hbig by by right.
  apply list_elem_of_split in Hpf as (f1 & post & Efl).
  assert (Hne : nodes f1 <> []) by done. destruct (exists_last Hne) as (pre & [c ck] & En1).
  assert (En : nodes fl = (pre ++ [(c, ck)]) ++ (p, kp) :: post) by (rewrite <- En1, Efl; done).
  assert (Ec : List.last o1 (u_freep s) = c).
  { apply (pred_unique s fl al pre c ck p kp post _ Hh En).
    - apply Hin. rewrite Er. destruct (last_in o1 (u_freep s)) as [->|Hi]; lelem.
    - rewrite app_comm_cons in Hc. apply chain_app in Hc as [Hc _]. by apply chain_last in Hc. }
  rewrite Ec. destruct (take_eq s fl al pre c ck p kp post nunits Hh En) as (q & m & fl' & Et & Hrest); [lia|].
  exists q, c, m, fl'. split; [|done]. rewrite loop_S, Et. done.
Qed.

(** ** malloc: more memory *)

Lemma grow_heap s fl al nu :
  heap s fl al -> 1 <= nu -> s.(u_brk) + 16 * nu <= 2 ^ 36 ->
  heap (Ust (put_size s.(u_brk) nu s.(u_mem)) s.(u_freep) (s.(u_brk) + 16 * nu)) fl (<[s.(u_brk) := nu]> al).
Proof.
  intros Hh Hnu Hmax. pose proof (h_brk _ _ _ Hh) as Hbrk. pose proof (h_base _ _ _ Hh) as Hb0.
  assert (Hn : forall a n, (a, n) ∈ nodes fl -> a + 16 <= u_brk s).
  { intros a n [[= -> ->]|Hi]%elem_of_cons; [lia|]. destruct (h_free _ _ _ Hh a n Hi) as (? & ? & ?). lia. }
  split; cbn [u_mem u_freep u_brk].
  - done.
  - lia.
  - apply (h_freep _ _ _ Hh).
  - apply (chain_frame (u_mem s)); [|apply (h_ring _ _ _ Hh)]. intros a ([b n] & -> & Hx)%list_elem_of_fmap. cbn.
    specialize (Hn b n Hx). apply hptr_put_size_ne. unfold apart. lia.
  - intros a n Hi. specialize (Hn a n Hi). rewrite hsize_put_size_ne by (unfold apart; lia). by apply (h_size _ _ _ Hh).
  - apply (h_sorted _ _ _ Hh).
  - intros a n Hi. destruct (h_free _ _ _ Hh a n Hi) as (? & ? & ?). lia.
  - intros a n [(<- & <-)|(Hne & Ha)]%lookup_insert_Some.
    + repeat split; try lia. rewrite hsize_put_size. apply u32_small. lia.
    + destruct (h_alloc _ _ _ Hh a n Ha) as (? & ? & ? & Hsz). repeat split; try lia. rewrite hsize_put_size_ne by (unfold apart; lia). done.
  - intros a n b j [(<- & <-)|(Hne & Ha)]%lookup_insert_Some Hi; [|by apply (h_apart _ _ _ Hh)].
    destruct (h_free _ _ _ Hh b j Hi) as (? & ? & ?). unfold disjoint_blk, bend. cbn. lia.
  - intros a n b j [(<- & <-)|(Hne & Ha)]%lookup_insert_Some [(<- & <-)|(Hne' & Hb)]%lookup_insert_Some Hab; [done|..].
    + destruct (h_alloc _ _ _ Hh b j Hb) as (? & ? & ? & _). unfold disjoint_blk, bend. cbn. lia.
    + destruct (h_alloc _ _ _ Hh a n Ha) as (? & ? & ? & _). unfold disjoint_blk, bend. cbn. lia.
    + by apply (h_disjoint _ _ _ Hh).
Qed.

(** The kernel's limit on the size of a process, far below its bound. *)
Definition grant_ok : Prop := forall b n, grant b n = true -> b + n <= 2 ^ 36.

Lemma brk_fresh s fl al : heap s fl al -> al !! s.(u_brk) = None.
Proof.
  intros Hh. destruct (al !! u_brk s) as [n|] eqn:Ea; [|done]. destruct (h_alloc _ _ _ Hh _ n Ea) as (? & ? & ? & _). lia.
Qed.

Lemma morecore_eq s fl al nunits :
  grant_ok -> heap s fl al -> 1 <= nunits < 2 ^ 27 ->
  morecore nunits s = Ok 0 s \/
  exists fl' m p b, morecore nunits s = Ok p (Ust m p b) /\ heap (Ust m p b) fl' al /\ keeps al s.(u_mem) m /\
    (exists a k, (a, k) ∈ fl' /\ nunits <= k) /\ 0 < p /\ (length fl' <= S (length fl))%nat.
Proof.
  intros Hg Hh Hu. unfold morecore. set (nu := if nunits <? 4096 then 4096 else nunits).
  assert (Hnu : nunits <= nu /\ 1 <= nu < 2 ^ 27) by (unfold nu; destruct (Z.ltb_spec nunits 4096); lia). clearbody nu.
  pose proof (h_brk _ _ _ Hh) as Hbrk. pose proof (h_base _ _ _ Hh) as Hb0.
  unfold sbrk. rewrite s32_small by lia. cbn [bind get gets obind view u_brk_l]. destruct (grant (u_brk s) (nu * 16)) eqn:Egr; [|by left].
  right. specialize (Hg _ _ Egr). rewrite (proj2 (Z.ltb_ge _ _)) by lia. cbn [bind set modify obind ret put u_brk_l].
  rewrite (proj2 (Z.eqb_neq _ _)).
  2: { change (u64 (-1)) with (2 ^ 64 - 1). lia. }
  unfold set_size. cbn [bind update modify obind view put u_mem_l u_mem u_freep u_brk].
  change (store32 ?m (?a + 8) ?v) with (put_size a v m). unfold hplus. rewrite u64_addr by lia. rewrite Z.mul_1_r, (Z.mul_comm nu 16).
  destruct (free_eq _ fl (<[u_brk s := nu]> al) (u_brk s) nu (grow_heap s fl al nu Hh ltac:(lia) ltac:(lia))) as (fl' & m & p & Ef & Hh' & Hk & (a & k & Hak & Hle) & Hlen).
  { apply lookup_insert_eq. }
  rewrite Ef. cbn [obind get gets view u_freep_l u_freep u_mem u_brk] in *. rewrite (delete_insert_id _ _ _ (brk_fresh s fl al Hh)) in Hh', Hk.
  exists fl', m, p, (u_brk s + 16 * nu). split; [done|]. split; [done|]. split; [|split; [exists a, k; split; [done|lia]|split; [|done]]].
  - intros b n c Hb Hc. rewrite (Hk b n c Hb Hc). apply rd_put_size. destruct (h_alloc _ _ _ Hh b n Hb) as (? & ? & ? & _). lia.
  - pose proof (h_freep _ _ _ Hh') as Hp. cbn [u_freep] in Hp. apply list_elem_of_fmap in Hp as (x & -> & Hx). pose proof (nodes_low _ _ _ Hh' x Hx). lia.
Qed.

(** ** malloc *)

(** The heap before the first call, and after. *)
Definition uheap (s : ust) (al : gmap Z Z) : Prop :=
  (exists fl, heap s fl al) \/ (s.(u_freep) = 0 /\ al = ∅ /\ 0 < base /\ base + 16 <= s.(u_brk) <= 2 ^ 36).

(** The block that a call returns. *)
Definition new_block (al : gmap Z Z) (nunits r : Z) (s' : ust) : Prop :=
  exists q, r = q + 16 /\ base < q /\ al !! q = None /\ uheap s' (<[q := nunits]> al).

Lemma malloc_ring s fl al nunits n :
  grant_ok -> heap s fl al -> 1 <= nunits < 2 ^ 27 -> (length (nodes fl) <= n)%nat ->
  exists r s', loop (2 * n + 4) (malloc_body nunits) (s.(u_freep), hptr s.(u_mem) s.(u_freep)) s = Ok r s' /\
    keeps al s.(u_mem) s'.(u_mem) /\ (r = 0 /\ uheap s' al \/ new_block al nunits r s').
Proof.
  intros Hg Hh Hu Hn.
  destruct (decide (Exists (fun x => nunits <= x.2) fl)) as [Hex|Hnex].
  { apply Exists_exists in Hex as ([a k] & Hak & Hk).
    destruct (malloc_found s fl al nunits (2 * n + 4) Hh) as (q & c & m & fl' & E & Hh' & Hq & Hkp & Hbq); [lia|by exists a, k|lia|].
    exists (q + 16), (Ust m c (u_brk s)). split; [done|]. split; [done|]. right. exists q. repeat split; try done. left. by exists fl'. }
  destruct (ring_order s fl al Hh) as (r & Hc & Hhd & Hin & Hr & Hlen).
  assert (Hsm : forall c, c ∈ (nodes fl).*1 -> hsize (u_mem s) c < nunits).
  { intros c ([a k] & -> & Hx)%list_elem_of_fmap. cbn. rewrite (h_size _ _ _ Hh a k Hx). apply elem_of_cons in Hx as [[= -> ->]|Hx]; [lia|].
    destruct (Z.lt_ge_cases k nunits); [done|]. destruct Hnex. apply Exists_exists. by exists (a, k). }
  rewrite Hhd. replace (2 * n + 4)%nat with (length r + S (2 * n + 3 - length r))%nat by (cbn in Hn; lia).
  rewrite (malloc_scan nunits s r (u_freep s) (u_freep s) [] _ _ Hc).
  2: { intros c Hi. split; [apply Hsm, Hin; lelem|]. by intros ->. }
  rewrite loop_S. unfold malloc_body at 1, get_size. cbn [bind get gets obind ret view u_mem_l u_freep_l]. fold (hsize (u_mem s) (u_freep s)).
  rewrite (proj2 (Z.leb_gt _ _)) by (apply Hsm, (h_freep _ _ _ Hh)). cbn [bind get gets obind view u_freep_l]. rewrite Z.eqb_refl. cbn [bind].
  destruct (morecore_eq s fl al nunits Hg Hh Hu) as [E|(fl' & m & p & b & E & Hh' & Hk & Hbig & Hp0 & Hb)]; rewrite E; cbn [obind].
  - exists 0, s. split; [done|]. split; [done|]. left. split; [done|]. left. by exists fl.
  - rewrite (proj2 (Z.eqb_neq _ _)) by lia. unfold get_ptr. cbn [bind get gets obind ret view u_mem_l u_mem]. fold (hptr m p).
    destruct (malloc_found (Ust m p b) fl' al nunits (2 * n + 3 - length r) Hh') as (q & c & m' & fl'' & E' & Hh'' & Hq & Hkp & Hbq);
      [lia|done| |].
    { cbn [nodes length] in *. lia. }
    exists (q + 16), (Ust m' c b). split; [exact E'|]. split.
    + intros a k x Ha Hx. cbn in *. by rewrite (Hkp a k x Ha Hx), (Hk a k x Ha Hx).
    + right. exists q. repeat split; try done. left. by exists fl''.
Qed.

(** The headers a request of [nbytes] takes, its own included. *)
Definition units (nbytes : Z) : Z := (nbytes + 15) / 16 + 1.

Lemma init_heap s : 0 < base -> base + 16 <= s.(u_brk) <= 2 ^ 36 ->
  heap (Ust (put_size base 0 (put_ptr base base s.(u_mem))) base s.(u_brk)) [] ∅.
Proof.
  intros Hb Hbrk. split; cbn [u_mem u_freep u_brk nodes fmap list_fmap fst].
  - done.
  - done.
  - left.
  - cbn. split; [|done]. rewrite hptr_put_size, hptr_put_ptr. apply u64_addr. lia.
  - intros a n [[= -> ->]|[]%not_elem_of_nil]%elem_of_cons. by rewrite hsize_put_size.
  - repeat constructor.
  - by intros a n ?%not_elem_of_nil.
  - intros a n Ha. by rewrite lookup_empty in Ha.
  - intros a n b k Ha. by rewrite lookup_empty in Ha.
  - intros a n b k Ha. by rewrite lookup_empty in Ha.
Qed.

Lemma malloc_eq s al nbytes :
  grant_ok -> uheap s al -> 0 <= nbytes < 2 ^ 31 - 48 ->
  exists r s', malloc nbytes s = Ok r s' /\ keeps al s.(u_mem) s'.(u_mem) /\
    (r = 0 /\ uheap s' al \/ new_block al (units nbytes) r s').
Proof.
  intros Hg Hs Hn. unfold malloc. assert (Hu : 1 <= units nbytes < 2 ^ 27) by (unfold units; dlia).
  replace ((nbytes + 16 - 1) / 16 + 1) with (units nbytes) by (unfold units; do 2 f_equal; lia). rewrite u32_small by lia.
  assert (Hring : forall s fl, heap s fl al -> exists r s',
    (prevp <- get u_freep_l ;; p <- get_ptr prevp ;; fuel <- gets trip ;; loop (2 * fuel + 2) (malloc_body (units nbytes)) (prevp, p)) s = Ok r s' /\
    keeps al s.(u_mem) s'.(u_mem) /\ (r = 0 /\ uheap s' al \/ new_block al (units nbytes) r s')).
  { intros s1 fl Hh. destruct (malloc_ring s1 fl al (units nbytes) (trip s1 - 1) Hg Hh Hu) as (r & s' & E & Hrest).
    { pose proof (trip_enough s1 fl al Hh). lia. }
    exists r, s'. split; [|done]. rewrite <- E. unfold get_ptr. cbn [bind get gets obind ret view u_freep_l u_mem_l].
    pose proof (trip_enough s1 fl al Hh). by replace (2 * (trip s1 - 1) + 4)%nat with (2 * trip s1 + 2)%nat by lia. }
  destruct Hs as [[fl Hh]|(Hf & -> & Hb & Hbrk)].
  - assert (Hf : u_freep s <> 0).
    { pose proof (h_freep _ _ _ Hh) as Hp. pose proof (h_base _ _ _ Hh). apply list_elem_of_fmap in Hp as (x & -> & Hx).
      pose proof (nodes_low _ _ _ Hh x Hx). lia. }
    change (get u_freep_l s) with (Ok (u_freep s) s). cbn [bind obind]. destruct (Hring s fl Hh) as (r & s' & E & Hrest). exists r, s'. split; [|done].
    cbn [bind get gets obind view u_freep_l]. rewrite (proj2 (Z.eqb_neq _ _) Hf). exact E.
  - destruct (Hring _ [] (init_heap s Hb Hbrk)) as (r & s' & E & _ & Hrest). exists r, s'. split; [|split; [|done]].
    + cbn [bind get gets obind view u_freep_l]. rewrite Hf. exact E.
    + intros a k b Ha. by rewrite lookup_empty in Ha.
Qed.

(** ** Programs that use the heap *)

(** The program writes a byte of a block that it has. *)
Lemma store_heap s fl al a n x v :
  heap s fl al -> al !! a = Some n -> a + 16 <= x < a + 16 * n -> heap (with_mem (wr s.(u_mem) x v) s) fl al.
Proof.
  intros Hh Ha Hx. assert (Hrd : forall b, b <> x -> rd (wr (u_mem s) x v) b = rd (u_mem s) b).
  { intros b Hb. rewrite rd_wr, decide_False by congruence. done. }
  assert (Hsame : forall b, b + 16 <= a + 16 \/ a + 16 * n <= b -> hptr (wr (u_mem s) x v) b = hptr (u_mem s) b /\ hsize (wr (u_mem s) x v) b = hsize (u_mem s) b).
  { intros b Hb. split; [apply hptr_ext|apply hsize_ext]; intros c Hc; apply Hrd; lia. }
  assert (Hnode : forall b k, (b, k) ∈ nodes fl -> b + 16 <= a + 16 \/ a + 16 * n <= b).
  { destruct (h_alloc _ _ _ Hh a n Ha) as (? & ? & _). intros b k [[= -> ->]|Hb]%elem_of_cons; [lia|].
    destruct (h_free _ _ _ Hh b k Hb) as (? & _). pose proof (h_apart _ _ _ Hh a n b k Ha Hb) as Hd. unfold disjoint_blk, bend in Hd. cbn in Hd. lia. }
  destruct Hh as [? ? ? Hr Hs ? ? Hal ? Hd]. split; try done; cbn [u_mem u_freep u_brk with_mem].
  - apply (chain_frame (u_mem s)); [|done]. intros b ([c k] & -> & Hc)%list_elem_of_fmap. apply Hsame. by apply (Hnode c k).
  - intros b k Hb. destruct (Hsame b (Hnode b k Hb)) as [_ ->]. by apply Hs.
  - intros b k Hb. destruct (Hal b k Hb) as (? & ? & ? & Hsz). repeat split; try done. rewrite <- Hsz. apply Hsame.
    destruct (decide (a = b)) as [->|Hne]; [left; lia|]. specialize (Hd a n b k Ha Hb Hne).
    unfold disjoint_blk, bend in Hd. cbn in Hd. lia.
Qed.

(** One action of the program, with the blocks it has. *)
Inductive ustep : ust * gmap Z Z -> ust * gmap Z Z -> Prop :=
| us_malloc s al n r s' : 0 <= n < 2 ^ 31 - 48 -> malloc n s = Ok r s' -> r <> 0 -> ustep (s, al) (s', <[r - 16 := units n]> al)
| us_fail s al n s' : 0 <= n < 2 ^ 31 - 48 -> malloc n s = Ok 0 s' -> ustep (s, al) (s', al)
| us_free s al a n s' : al !! a = Some n -> free (a + 16) s = Ok tt s' -> ustep (s, al) (s', delete a al)
| us_store s al a n x v : al !! a = Some n -> a + 16 <= x < a + 16 * n -> ustep (s, al) (with_mem (wr s.(u_mem) x v) s, al).

Lemma ustep_heap x y : grant_ok -> ustep x y -> uheap x.1 x.2 -> uheap y.1 y.2.
Proof.
  intros Hg Hst. destruct Hst as [s al n r s' Hn E Hr|s al n s' Hn E|s al a n s' Ha E|s al a n z v Ha Hz]; cbn; intros Hs.
  - destruct (malloc_eq s al n Hg Hs Hn) as (r' & s1 & E' & _ & Hres). rewrite E in E'. injection E' as <- <-.
    destruct Hres as [[-> _]|(q & -> & _ & _ & Hq)]; [done|]. by replace (q + 16 - 16) with q by lia.
  - destruct (malloc_eq s al n Hg Hs Hn) as (r' & s1 & E' & _ & Hres). rewrite E in E'. injection E' as <- <-.
    destruct Hres as [[_ Hh]|(q & Hq & Hb & _ & Hh)]; [done|]. destruct Hh as [[fl Hh]|(_ & _ & Hb' & _)].
    + pose proof (h_base _ _ _ Hh). lia.
    + lia.
  - destruct Hs as [[fl Hh]|(_ & -> & _)]; [|by rewrite lookup_empty in Ha].
    destruct (free_eq s fl al a n Hh Ha) as (fl' & m & p & E' & Hh' & _). rewrite E in E'. injection E' as ->. left. by exists fl'.
  - destruct Hs as [[fl Hh]|(_ & -> & _)]; [|by rewrite lookup_empty in Ha]. left. exists fl. by apply (store_heap s fl al a n).
Qed.
End Heap.

(** ** Properties *)

(** C14: [malloc] and [free] keep the program's blocks apart.  After any sequence
    of calls of [malloc] (of less than [2^31 - 48] bytes), calls of [free] on
    blocks the program has, and writes of the program into its blocks: the
    blocks lie in the memory that [sbrk] gave and do not overlap; the next
    [malloc] returns, either null or a new block of at least the size asked for
    that overlaps none of the others; [free] of a block returns; and neither
    changes a byte of a block that the program still has. *)
Theorem umalloc_safe `{Heap} (s0 s : ust) (al : gmap Z Z) :
  grant_ok -> s0.(u_freep) = 0 -> 0 < base -> base + 16 <= s0.(u_brk) <= 2 ^ 36 -> rtc ustep (s0, ∅) (s, al) ->
  (forall a n, al !! a = Some n -> base + 16 <= a /\ a + 16 * n <= s.(u_brk)) /\
  (forall a n b k, al !! a = Some n -> al !! b = Some k -> a <> b -> disjoint_blk (a, n) (b, k)) /\
  (forall n, 0 <= n < 2 ^ 31 - 48 -> exists r s', malloc n s = Ok r s' /\ keeps al s.(u_mem) s'.(u_mem) /\
     (r = 0 \/ r - 16 + 16 * units n <= s'.(u_brk) /\ n <= 16 * (units n - 1) /\ al !! (r - 16) = None /\
        forall a k, al !! a = Some k -> disjoint_blk (r - 16, units n) (a, k))) /\
  (forall a n, al !! a = Some n -> exists s', free (a + 16) s = Ok tt s' /\ keeps (delete a al) s.(u_mem) s'.(u_mem)).
Proof.
  intros Hg Hf Hb Hbrk Hsteps. assert (Hs : uheap s al).
  { remember (s0, ∅) as x eqn:Ex. remember (s, al) as y eqn:Ey.
    assert (Hx : uheap x.1 x.2) by (subst x; right; cbn; done).
    enough (uheap y.1 y.2) by by subst y. clear Ex Ey. induction Hsteps as [|x y z Hxy _ IH]; [done|]. apply IH. by apply (ustep_heap x y). }
  split; [|split; [|split]].
  - intros a n Ha. destruct Hs as [[fl Hh]|(_ & -> & _)]; [|by rewrite lookup_empty in Ha]. destruct (h_alloc _ _ _ Hh a n Ha). tauto.
  - intros a n b k Ha. destruct Hs as [[fl Hh]|(_ & -> & _)]; [|by rewrite lookup_empty in Ha]. by apply (h_disjoint _ _ _ Hh).
  - intros n Hn. destruct (malloc_eq s al n Hg Hs Hn) as (r & s' & E & Hk & Hres). exists r, s'. split; [done|]. split; [done|].
    destruct Hres as [[-> _]|(q & -> & _ & Hq & Hh)]; [by left|right]. replace (q + 16 - 16) with q by lia.
    destruct Hh as [[fl Hh]|(_ & Hal & _)]; [|by destruct (insert_non_empty al q (units n))].
    destruct (h_alloc _ _ _ Hh q (units n) (lookup_insert_eq _ _ _)) as (_ & _ & ? & _). split; [done|].
    split; [unfold units; dlia|]. split; [done|]. intros a k Ha. apply (h_disjoint _ _ _ Hh); [apply lookup_insert_eq| |congruence].
    rewrite lookup_insert_ne by congruence. done.
  - intros a n Ha. destruct Hs as [[fl Hh]|(_ & -> & _)]; [|by rewrite lookup_empty in Ha].
    destruct (free_eq s fl al a n Hh Ha) as (fl' & m & p & E & _ & Hk & _). by exists (Ust m p (u_brk s)).
Qed.

(** A process with its break at 12288, and a kernel that gives it up to 1 MB. *)
#[local] Instance demo_heap : Heap := {| base := 4096; grant := fun b n => (0 <=? n) && (b + n <=? 2 ^ 20) |}.
Definition demo_ust : ust := Ust ∅ 0 12288.

Definition ust_of {A : Type} (o : out ust A) : ust := match o with Ok _ s => s | _ => demo_ust end.
(** Two blocks, the first given back. *)
Definition demo_ust1 : ust := ust_of (malloc 20 demo_ust).
Definition demo_ust2 : ust := ust_of (malloc 5 demo_ust1).
Definition demo_ust3 : ust := ust_of (free 77792 demo_ust2).

Lemma umalloc_safe_witness :
  exists r s', malloc 100 demo_ust3 = Ok r s' /\ (r = 0 \/ disjoint_blk (r - 16, units 100) (77744, 2)) /\
    keeps {[ 77744 := 2 ]} demo_ust3.(u_mem) s'.(u_mem).
Proof.
  assert (Hsteps : rtc ustep (demo_ust, ∅) (demo_ust3, {[ 77744 := 2 ]})).
  { apply rtc_l with (demo_ust1, <[77792 - 16 := units 20]> ∅).
    { apply us_malloc; [lia|vm_compute; reflexivity|lia]. }
    apply rtc_l with (demo_ust2, <[77760 - 16 := units 5]> (<[77792 - 16 := units 20]> ∅)).
    { apply us_malloc; [lia|vm_compute; reflexivity|lia]. }
    apply rtc_l with (demo_ust3, delete 77776 (<[77760 - 16 := units 5]> (<[77792 - 16 := units 20]> (∅ : gmap Z Z)))).
    { apply (us_free _ _ 77776 3); [vm_compute; reflexivity|vm_compute; reflexivity]. }
    replace (delete 77776 (<[77760 - 16 := units 5]> (<[77792 - 16 := units 20]> (∅ : gmap Z Z)))) with ({[ 77744 := 2 ]} : gmap Z Z);
      [apply rtc_refl|vm_compute; reflexivity]. }
  destruct (umalloc_safe demo_ust demo_ust3 {[ 77744 := 2 ]}) as (_ & _ & Hm & _).
  - intros b n Hg. unfold grant, demo_heap in Hg. zb. lia.
  - reflexivity.
  - reflexivity.
  - change (u_brk demo_ust) with 12288. change base with 4096. lia.
  - exact Hsteps.
  - destruct (Hm 100) as (r & s' & E & Hk & Hr); [lia|]. exists r, s'. split; [exact E|]. split; [|exact Hk].
    destruct Hr as [Hr|(_ & _ & _ & Hd)]; [left; exact Hr|right]. apply Hd. reflexivity.
Defined.

(** [sbrk] takes an [int]: a request of [2^31] bytes asks it for less than
    nothing, and [malloc] returns a block beyond the break. *)
Lemma malloc_beyond_break :
  let h := {| base := 4096; grant := fun b n => b + n <=? 2 ^ 20 |} in
  exists r s', @malloc h (2 ^ 31) demo_ust = Ok r s' /\ r <> 0 /\ s'.(u_brk) < r.
Proof. eexists _, _. split; [vm_compute; reflexivity|]. split; [discriminate|]. reflexivity. Qed.
