(* ===== verification/User.v ===== *)
(** * User programs and their library (user/ulib.c, user/printf.c, user/user.h)

    A user program is a tree of the system calls it makes: [Vis e k] makes the
    call [e] and goes on with [k] of its result.  What the calls do is up to
    the interpretation of the tree; [fork] is a call whose continuation is
    run twice.  The memory of a program is in the model as the values of its
    variables: a string is the list of its bytes, a [char] is unsigned. *)

From S2P Require Import Prelude Riscv Memory Spinlock Kalloc Vm Tty Proc ProcSpec Sleeplock Uart Bio Block Log Fs.

(** ** System calls (user/user.h) *)

Inductive sysE : Type -> Type :=
| Fork : sysE Z
| Exit (status : Z) : sysE Empty_set
| Wait : sysE (Z * Z)
| Pipe : sysE (Z * (Z * Z))
| Write (fd : Z) (l : list Z) : sysE Z
| Read (fd n : Z) : sysE (Z * list Z)
| Close (fd : Z) : sysE Z
| Kill (pid : Z) : sysE Z
| Exec (path : list Z) (argv : list (list Z)) : sysE Z
| Open (path : list Z) (mode : Z) : sysE Z
| Mknod (path : list Z) (major minor : Z) : sysE Z
| Unlink (path : list Z) : sysE Z
| Fstat (fd : Z) : sysE (Z * stat)
| Link (old new : list Z) : sysE Z
| Mkdir (path : list Z) : sysE Z
| Chdir (path : list Z) : sysE Z
| Dup (fd : Z) : sysE Z
| Getpid : sysE Z
| Sbrk (n : Z) : sysE Z
| Sleep (n : Z) : sysE Z
| Uptime : sysE Z
| Trace (mask : Z) : sysE Z
| Info : sysE (Z * Z).

(** ** Programs *)

(** [Stuck] is a step to which C gives no meaning, such as a read of a variable
    that was not set; [Limit] the bound given to a loop. *)
Inductive U (A : Type) : Type :=
| Ret (a : A)
| Vis (X : Type) (e : sysE X) (k : X -> U A)
| Stuck
| Limit.
Arguments Ret {A} a.
Arguments Vis {A X} e k.
Arguments Stuck {A}.
Arguments Limit {A}.

Fixpoint ubind {A B : Type} (m : U A) (f : A -> U B) : U B :=
  match m with
  | Ret a => f a
  | Vis e k => Vis e (fun x => ubind (k x) f)
  | Stuck => Stuck
  | Limit => Limit
  end.

Definition sys {X : Type} (e : sysE X) : U X := Vis e Ret.
Definition exit {A : Type} (status : Z) : U A := Vis (Exit status) (fun x => match x with end).

Declare Scope user_scope.
Delimit Scope user_scope with user.
Notation "x <- m ;; k" := (ubind m (fun x => k))
  (at level 100, m at next level, right associativity) : user_scope.
Notation "m ;; k" := (ubind m (fun _ => k))
  (at level 100, k at level 200, right associativity) : user_scope.
#[local] Open Scope user_scope.

(** [for] over a list. *)
Fixpoint uiter {I : Type} (l : list I) (body : I -> U unit) : U unit :=
  match l with
  | [] => Ret tt
  | i :: l' => body i ;; uiter l' body
  end.

(** [while]: [inl] goes on, [inr] leaves the loop. *)
Fixpoint uloop {X R : Type} (fuel : nat) (body : X -> U (X + R)) (x : X) : U R :=
  match fuel with
  | O => Limit
  | S n =>
      r <- body x ;;
      match r with
      | inl x' => uloop n body x'
      | inr r' => Ret r'
      end
  end.
Arguments uloop : simpl never.

(** How often the loops of a program that read until the end of their input
    go round. *)
Class Rounds := rounds : nat.

(** ** user/ulib.c: strings *)

(** The bytes [strcpy] stores from [s] on. *)
Fixpoint strcpy (t : list Z) : list Z :=
  match t with
  | [] => [0]
  | c :: t' => if c =? 0 then [0] else c :: strcpy t'
  end.

Fixpoint strcmp (p q : list Z) : Z :=
  match p with
  | [] => 0 - u8 (ch q)
  | c :: p' => if nz c && (c =? ch q) then strcmp p' (tl q) else u8 c - u8 (ch q)
  end.

(** The rest of the string from the first [c] on; [None] is the null pointer.
    The terminating NUL is not found. *)
Fixpoint strchr (s : list Z) (c : Z) : option (list Z) :=
  match s with
  | [] => None
  | x :: s' => if x =? 0 then None else if x =? c then Some s else strchr s' c
  end.

(** [n*10 + *s++ - '0'] is an [int]: the sum and the product of more has no
    defined value. *)
Fixpoint atoi_loop (n : Z) (s : list Z) : option Z :=
  match s with
  | [] => Some n
  | c :: s' =>
      if (48 <=? c) && (c <=? 57) then
        if 2 ^ 31 <=? n * 10 + c then None else atoi_loop (n * 10 + c - 48) s'
      else Some n
  end.
Definition atoi (s : list Z) : option Z := atoi_loop 0 s.

(** The result of [atoi] where it has one. *)
Definition uatoi (s : list Z) : U Z := match atoi s with Some n => Ret n | None => Stuck end.

(** ** user/ulib.c: memory *)

Fixpoint memset_bytes (m : mem) (cdst c : Z) (n : nat) : mem :=
  match n with
  | O => m
  | S n' => memset_bytes (wr m cdst c) (cdst + 1) c n'
  end.
(** [i] is an [int] and [n] an [uint]: the comparison is of [uint]s. *)
Definition memset (m : mem) (dst c n : Z) : mem := memset_bytes m dst c (Z.to_nat (u32 n)).

Fixpoint memmove_fwd (m : mem) (dst src : Z) (n : nat) : mem :=
  match n with
  | O => m
  | S n' => memmove_fwd (wr m dst (rd m src)) (dst + 1) (src + 1) n'
  end.
Fixpoint memmove_back (m : mem) (dst src : Z) (n : nat) : mem :=
  match n with
  | O => m
  | S n' => memmove_back (wr m (dst - 1) (rd m (src - 1))) (dst - 1) (src - 1) n'
  end.
(** [n] is an [int]. *)
Definition memmove (m : mem) (vdst vsrc n : Z) : mem :=
  if vsrc >? vdst then memmove_fwd m vdst vsrc (Z.to_nat n)
  else memmove_back m (vdst + n) (vsrc + n) (Z.to_nat n).

Fixpoint memcmp_bytes (m : mem) (p1 p2 : Z) (n : nat) : Z :=
  match n with
  | O => 0
  | S n' => if negb (rd m p1 =? rd m p2) then rd m p1 - rd m p2 else memcmp_bytes m (p1 + 1) (p2 + 1) n'
  end.
Definition memcmp (m : mem) (s1 s2 n : Z) : Z := memcmp_bytes m s1 s2 (Z.to_nat n).

Definition memcpy (m : mem) (dst src n : Z) : mem := memmove m dst src (s32 n).

(** ** user/ulib.c: input and status *)

(** The bytes before the terminating NUL that [gets] leaves in [buf], with
    [i] of them there already. *)
Fixpoint gets_loop (room : nat) (buf : list Z) : U (list Z) :=
  match room with
  | O => Ret buf
  | S room' =>
      r <- sys (Read 0 1) ;;
      if r.1 <? 1 then Ret buf
      else
        match r.2 with
        | [] => Stuck
        | c :: _ =>
            if (c =? 10) || (c =? 13) then Ret (buf ++ [c])
            else gets_loop room' (buf ++ [c])
        end
  end.
Definition gets (max : Z) : U (list Z) := gets_loop (Z.to_nat (max - 1)) [].

(** The [struct stat] of a call that fails is whatever it was. *)
Definition ustat (n : list Z) : U (Z * option stat) :=
  fd <- sys (Open n 0) ;;
  if fd <? 0 then Ret (-1, None)
  else
    r <- sys (Fstat fd) ;;
    sys (Close fd) ;;
    Ret (r.1, Some r.2).

(** ** user/printf.c *)

Definition digits : list Z := str "0123456789ABCDEF".
Definition digit (n : Z) : Z := nth (Z.to_nat n) digits 0.

Definition putc (fd c : Z) : U unit := sys (Write fd [u8 c]) ;; Ret tt.

Fixpoint printint_digits (fuel : nat) (x base : Z) : list Z :=
  match fuel with
  | O => []
  | S n => digit (x mod base) :: (if x / base =? 0 then [] else printint_digits n (x / base) base)
  end.

(** The characters of [buf], which is printed backwards. *)
Definition printint_buf (xx base : Z) (sgn : bool) : list Z :=
  let neg := sgn && (xx <? 0) in
  let x := u32 (if neg then - xx else xx) in
  printint_digits 32 x base ++ (if neg then [45] else []).

Definition printint (fd xx base : Z) (sgn : bool) : U unit :=
  uiter (rev (printint_buf xx base sgn)) (putc fd).

Definition printptr (fd x : Z) : U unit :=
  putc fd 48 ;;
  putc fd 120 ;;
  uiter (seq 0 16) (fun i => putc fd (digit (Z.shiftr (u64 (Z.shiftl x (4 * Z.of_nat i))) 60))).

(** The loop over the format from a character on; [pct] is [state == '%'].
    Taking an argument that is not there, or one of another type, has no
    defined behaviour. *)
Fixpoint vprintf_loop (fd : Z) (pct : bool) (fmt : list Z) (ap : list vararg) : U unit :=
  match fmt with
  | [] => Ret tt
  | c :: fmt' =>
      if c =? 0 then Ret tt
      else if negb pct then
        if c =? 37 then vprintf_loop fd true fmt' ap
        else putc fd c ;; vprintf_loop fd false fmt' ap
      else if c =? 100 then
        match ap with
        | AInt x :: ap => printint fd (s32 x) 10 true ;; vprintf_loop fd false fmt' ap
        | _ => Stuck
        end
      else if c =? 108 then
        match ap with
        | APtr x :: ap => printint fd (s32 x) 10 false ;; vprintf_loop fd false fmt' ap
        | _ => Stuck
        end
      else if c =? 120 then
        match ap with
        | AInt x :: ap => printint fd (s32 x) 16 false ;; vprintf_loop fd false fmt' ap
        | _ => Stuck
        end
      else if c =? 112 then
        match ap with
        | APtr x :: ap => printptr fd x ;; vprintf_loop fd false fmt' ap
        | _ => Stuck
        end
      else if c =? 115 then
        match ap with
        | AStr s :: ap =>
            uiter (cstr (default (str "(null)") s)) (putc fd) ;; vprintf_loop fd false fmt' ap
        | _ => Stuck
        end
      else if c =? 99 then
        match ap with
        | AInt x :: ap => putc fd x ;; vprintf_loop fd false fmt' ap
        | _ => Stuck
        end
      else if c =? 37 then putc fd c ;; vprintf_loop fd false fmt' ap
      else putc fd 37 ;; putc fd c ;; vprintf_loop fd false fmt' ap
  end.
Definition vprintf (fd : Z) (fmt : list Z) (ap : list vararg) : U unit := vprintf_loop fd false fmt ap.

Definition fprintf (fd : Z) (fmt : string) (ap : list vararg) : U unit := vprintf fd (str fmt) ap.
Definition printf (fmt : string) (ap : list vararg) : U unit := vprintf 1 (str fmt) ap.

(** A string argument. *)
Definition astr (s : list Z) : vararg := AStr (Some s).
(** A format that ends in a newline. *)
Definition nl (fmt : string) : string := fmt ++ newline.
