(* ===== verification/Utils.v ===== *)
(** * The user programs (user/cat.c, wc.c, echo.c, grep.c, ls.c, find.c, xargs.c, ...)

    Each [main] takes [argv], so that [argc] is the length of the list. *)

From S2P Require Import Prelude Riscv Memory Spinlock Kalloc Vm Tty Proc ProcSpec Sleeplock Uart Console Pipe Bio Block Log Fs File Sysarg Exec Sysfile User.
#[local] Open Scope user_scope.

Definition arg (argv : list (list Z)) (i : nat) : list Z := nth i argv [].
Definition argc (argv : list (list Z)) : Z := Z.of_nat (length argv).
(** [for(i = 1; i < argc; i++)] *)
Definition args (argv : list (list Z)) : list (list Z) := drop 1 argv.

Section Utils.
Context `{Rounds}.

(** [for(i = 1; i < argc; i++){ fd = open(argv[i], O_RDONLY); ...; close(fd); }] *)
Definition each_file (files : list (list Z)) (failed : list Z -> U unit) (f : Z -> list Z -> U unit) : U unit :=
  uiter files (fun name =>
    fd <- sys (Open name O_RDONLY) ;;
    if fd <? 0 then failed name ;; exit 1
    else f fd name ;; sys (Close fd) ;; Ret tt).

(** ** cat.c *)

Definition cat_body (fd : Z) (_ : unit) : U (unit + Z) :=
  r <- sys (Read fd 512) ;;
  if 0 <? r.1 then
    w <- sys (Write 1 r.2) ;;
    if negb (w =? r.1) then fprintf 2 (nl "cat: write error") [] ;; exit 1
    else Ret (inl tt)
  else Ret (inr r.1).

Definition cat (fd : Z) : U unit :=
  n <- uloop rounds (cat_body fd) tt ;;
  if n <? 0 then fprintf 2 (nl "cat: read error") [] ;; exit 1 else Ret tt.

Definition cat_main (argv : list (list Z)) : U unit :=
  if argc argv <=? 1 then cat 0 ;; exit 0
  else
    each_file (args argv) (fun name => fprintf 2 (nl "cat: cannot open %s") [astr name]) (fun fd _ => cat fd) ;;
    exit 0.

(** ** wc.c *)

(** [l], [w], [c] and [inword] *)
Record wcst := Wcst { wc_l : Z; wc_w : Z; wc_c : Z; inword : bool }.

Definition spaces : list Z := [32; 13; 9; 10; 11].

(** One character. *)
Definition wc_char (x : Z) (s : wcst) : wcst :=
  let c := s.(wc_c) + 1 in
  let l := if x =? 10 then s.(wc_l) + 1 else s.(wc_l) in
  if decide (strchr spaces x <> None) then Wcst l s.(wc_w) c false
  else if negb s.(inword) then Wcst l (s.(wc_w) + 1) c true
  else Wcst l s.(wc_w) c true.

(** The counters are [int]s; [c] is the largest. *)
Definition wc_body (fd : Z) (s : wcst) : U (wcst + (Z * wcst)) :=
  r <- sys (Read fd 512) ;;
  if 0 <? r.1 then
    let s' := foldl (fun s x => wc_char x s) s r.2 in
    if 2 ^ 31 <=? s'.(wc_c) then Stuck else Ret (inl s')
  else Ret (inr (r.1, s)).

Definition wc (fd : Z) (name : list Z) : U unit :=
  r <- uloop rounds (wc_body fd) (Wcst 0 0 0 false) ;;
  if r.1 <? 0 then printf (nl "wc: read error") [] ;; exit 1
  else printf (nl "%d %d %d %s") [AInt r.2.(wc_l); AInt r.2.(wc_w); AInt r.2.(wc_c); astr name].

Definition wc_main (argv : list (list Z)) : U unit :=
  if argc argv <=? 1 then wc 0 [] ;; exit 0
  else
    each_file (args argv) (fun name => printf (nl "wc: cannot open %s") [astr name]) wc ;;
    exit 0.

(** ** echo.c *)

Fixpoint echo_args (l : list (list Z)) : U unit :=
  match l with
  | [] => Ret tt
  | a :: l' =>
      sys (Write 1 a) ;;
      sys (Write 1 (if bool_decide (l' = []) then [10] else [32])) ;;
      echo_args l'
  end.
Definition echo_main (argv : list (list Z)) : U unit := echo_args (args argv) ;; exit 0.

(** ** grep.c *)

(** [matchstar(c, re, text)], with [here] for [matchhere(re, _)]. *)
Fixpoint matchstar (here : list Z -> bool) (c : Z) (text : list Z) : bool :=
  here text ||
  match text with
  | [] => false
  | t :: text' => ((t =? c) || (c =? 46)) && matchstar here c text'
  end.

Fixpoint matchhere (re text : list Z) : bool :=
  match re with
  | [] => true
  | c :: re1 =>
      let one :=
        if (c =? 36) && bool_decide (re1 = []) then bool_decide (text = [])
        else
          match text with
          | [] => false
          | t :: text' => ((c =? 46) || (c =? t)) && matchhere re1 text'
          end in
      match re1 with
      | [] => one
      | x :: re2 => if x =? 42 then matchstar (matchhere re2) c text else one
      end
  end.

(** [do ... while( *text++ != 0)] *)
Fixpoint match_from (re text : list Z) : bool :=
  matchhere re text ||
  match text with
  | [] => false
  | _ :: text' => match_from re text'
  end.

Definition match_ (re text : list Z) : bool :=
  match re with
  | [] => match_from re text
  | c :: re1 => if c =? 94 then matchhere re1 text else match_from re text
  end.

(** The lines of [p], the bytes of [buf] from the pointer [p] on; the result
    is what is left after the last newline.  Each turn takes at least one byte
    away. *)
Fixpoint grep_lines (fuel : nat) (pattern p : list Z) : U (list Z) :=
  match fuel with
  | O => Limit
  | S n =>
      match strchr p 10 with
      | None => Ret p
      | Some q =>
          let line := take (length p - length q) p in
          (if match_ pattern line then sys (Write 1 (line ++ [10])) ;; Ret tt else Ret tt) ;;
          grep_lines n pattern (tl q)
      end
  end.

(** [buf] holds the [m] bytes of [data]. *)
Definition grep_body (pattern : list Z) (fd : Z) (data : list Z) : U (list Z + unit) :=
  r <- sys (Read fd (1024 - Z.of_nat (length data) - 1)) ;;
  if 0 <? r.1 then
    let data := data ++ r.2 in
    rest <- grep_lines (S (length data)) pattern data ;;
    Ret (inl rest)
  else Ret (inr tt).

Definition grep (pattern : list Z) (fd : Z) : U unit := uloop rounds (grep_body pattern fd) [].

Definition grep_main (argv : list (list Z)) : U unit :=
  if argc argv <=? 1 then fprintf 2 (nl "usage: grep pattern [file ...]") [] ;; exit 1
  else
    let pattern := arg argv 1 in
    if argc argv <=? 2 then grep pattern 0 ;; exit 0
    else
      each_file (drop 2 argv) (fun name => printf (nl "grep: cannot open %s") [astr name]) (fun fd _ => grep pattern fd) ;;
      exit 0.

(** ** kill.c, ln.c, mkdir.c, rm.c, zombie.c, sleep.c, trace.c, sysinfotest.c *)

Definition kill_main (argv : list (list Z)) : U unit :=
  if argc argv <? 2 then fprintf 2 (nl "usage: kill pid...") [] ;; exit 1
  else
    uiter (args argv) (fun a => pid <- uatoi a ;; sys (Kill pid) ;; Ret tt) ;;
    exit 0.

Definition ln_main (argv : list (list Z)) : U unit :=
  if negb (argc argv =? 3) then fprintf 2 (nl "Usage: ln old new") [] ;; exit 1
  else
    r <- sys (Link (arg argv 1) (arg argv 2)) ;;
    (if r <? 0 then fprintf 2 (nl "link %s %s: failed") [astr (arg argv 1); astr (arg argv 2)] else Ret tt) ;;
    exit 0.

(** A call for each argument up to the first that fails. *)
Fixpoint each_until (call : list Z -> sysE Z) (failed : string) (l : list (list Z)) : U unit :=
  match l with
  | [] => Ret tt
  | a :: l' =>
      r <- sys (call a) ;;
      if r <? 0 then fprintf 2 (nl failed) [astr a] else each_until call failed l'
  end.

Definition mkdir_main (argv : list (list Z)) : U unit :=
  if argc argv <? 2 then fprintf 2 (nl "Usage: mkdir files...") [] ;; exit 1
  else each_until Mkdir "mkdir: %s failed to create" (args argv) ;; exit 0.

Definition rm_main (argv : list (list Z)) : U unit :=
  if argc argv <? 2 then fprintf 2 (nl "Usage: rm files...") [] ;; exit 1
  else each_until Unlink "rm: %s failed to delete" (args argv) ;; exit 0.

Definition zombie_main : U unit :=
  pid <- sys Fork ;;
  (if 0 <? pid then sys (Sleep 5) ;; Ret tt else Ret tt) ;;
  exit 0.

Definition sleep_main (argv : list (list Z)) : U unit :=
  if (argc argv <=? 1) || (2 <? argc argv) then fprintf 2 (nl "Usage: sleep <time>") [] ;; exit 1
  else
    time <- uatoi (arg argv 1) ;;
    if time <? 0 then fprintf 2 (nl "Usage: sleep <time> > 0") [] ;; exit 1
    else sys (Sleep time) ;; exit 0.

(** [trace] is declared to return a pointer, and no pointer is below 0. *)
Definition trace_main (argv : list (list Z)) : U unit :=
  if argc argv <? 3 then fprintf 2 (nl "Usage: trace mask command [args...]") [] ;; exit 1
  else
    mask <- uatoi (arg argv 1) ;;
    r <- sys (Trace mask) ;;
    if u64 r <? 0 then fprintf 2 (nl "trace: failed") [] ;; exit 1
    else
      sys (Exec (arg argv 2) (drop 2 argv)) ;;
      exit 0.

Definition sysinfotest_main (argv : list (list Z)) : U unit :=
  (if negb (argc argv =? 1) then fprintf 2 "usage: sysinfo" [] else Ret tt) ;;
  infos <- sys Info ;;
  fprintf 1 (nl "Free memory: %d bytes") [AInt infos.1] ;;
  fprintf 1 (nl "Active processes: %d") [AInt infos.2] ;;
  exit 0.

(** ** init.c *)

(** [for(;;) wait] until the shell [pid] has exited. *)
Definition init_wait (pid : Z) (_ : unit) : U (unit + unit) :=
  r <- sys Wait ;;
  if r.1 =? pid then Ret (inr tt)
  else if r.1 <? 0 then printf (nl "init: wait returned an error") [] ;; exit 1
  else Ret (inl tt).

Definition init_body (_ : unit) : U (unit + Empty_set) :=
  printf (nl "init: starting sh") [] ;;
  pid <- sys Fork ;;
  if pid <? 0 then printf (nl "init: fork failed") [] ;; exit 1
  else if pid =? 0 then
    sys (Exec (str "sh") [str "sh"]) ;;
    printf (nl "init: exec sh failed") [] ;;
    exit 1
  else
    uloop rounds (init_wait pid) tt ;;
    Ret (inl tt).

Definition init_main : U unit :=
  fd <- sys (Open (str "console") O_RDWR) ;;
  (if fd <? 0 then
     sys (Mknod (str "console") CONSOLE 0) ;;
     sys (Open (str "console") O_RDWR) ;;
     Ret tt
   else Ret tt) ;;
  sys (Dup 0) ;;
  sys (Dup 0) ;;
  v <- uloop rounds init_body tt ;;
  match v : Empty_set with end.

(** ** forktest.c, stressfs.c, pingpong.c *)

Definition print (s : string) : U unit := sys (Write 1 (str s)) ;; Ret tt.

(** How many of [n] more forks work. *)
Fixpoint fork_all (n : nat) : U nat :=
  match n with
  | O => Ret O
  | S n' =>
      pid <- sys Fork ;;
      if pid <? 0 then Ret n
      else if pid =? 0 then exit 0
      else fork_all n'
  end.

(** [fork_all] returns how many are left when [fork] fails. *)
Definition forktest : U unit :=
  print (nl "fork test") ;;
  left <- fork_all 1000 ;;
  (if bool_decide (left = O) then print (nl "fork claimed to work N times!") ;; exit 1 else Ret tt) ;;
  uiter (seq 0 (1000 - left)) (fun _ =>
    r <- sys Wait ;;
    if r.1 <? 0 then print (nl "wait stopped early") ;; exit 1 else Ret tt) ;;
  r <- sys Wait ;;
  if negb (r.1 =? -1) then print (nl "wait got too many") ;; exit 1
  else print (nl "fork test OK").

Definition forktest_main : U unit := forktest ;; exit 0.

(** [for(i = 0; i < 4; i++) if(fork() > 0) break;] *)
Fixpoint stress_fork (n : nat) (i : Z) : U Z :=
  match n with
  | O => Ret i
  | S n' =>
      pid <- sys Fork ;;
      if 0 <? pid then Ret i else stress_fork n' (i + 1)
  end.

Definition stressfs_main : U unit :=
  printf (nl "stressfs starting") [] ;;
  let data := replicate 512 97 in
  i <- stress_fork 4 0 ;;
  printf (nl "write %d") [AInt i] ;;
  let path := str "stressfs" ++ [u8 (48 + i)] in
  fd <- sys (Open path (Z.lor O_CREATE O_RDWR)) ;;
  uiter (seq 0 20) (fun _ => sys (Write fd data) ;; Ret tt) ;;
  sys (Close fd) ;;
  printf (nl "read") [] ;;
  fd <- sys (Open path O_RDONLY) ;;
  uiter (seq 0 20) (fun _ => sys (Read fd 512) ;; Ret tt) ;;
  sys (Close fd) ;;
  sys Wait ;;
  exit 0.

(** The string in an array of [n] bytes that starts with [l], the rest not
    set: reading on without a NUL has no defined behaviour. *)
Definition array_str (n : nat) (l : list Z) : option (list Z) :=
  if bool_decide (0 ∈ take n l) then Some (cstr l) else None.

(** [read(fd, buf, sizeof(buf)); fprintf(1, ..., getpid(), buf);] *)
Definition pingpong_receive (fd : Z) : U unit :=
  r <- sys (Read fd 10) ;;
  pid <- sys Getpid ;;
  match array_str 10 r.2 with
  | Some s => fprintf 1 (nl "%d: received %s") [AInt pid; astr s]
  | None => Stuck
  end.

(** The descriptors of a [pipe] that failed are not set, and the code does not
    look at its result. *)
Definition pipe_ends : U (Z * Z) :=
  r <- sys Pipe ;;
  if r.1 <? 0 then Stuck else Ret r.2.

Definition pingpong_main (argv : list (list Z)) : U unit :=
  if negb (argc argv =? 1) then fprintf 2 (nl "Usage: pingpong") [] ;; exit 1
  else
    p1 <- pipe_ends ;;
    p2 <- pipe_ends ;;
    pid <- sys Fork ;;
    if pid <? 0 then fprintf 2 (nl "fork failed") [] ;; exit 1
    else
      (if pid =? 0 then
         sys (Close p1.2) ;; sys (Close p2.1) ;;
         pingpong_receive p1.1 ;;
         sys (Write p2.2 (str "pong")) ;;
         sys (Close p1.1) ;; sys (Close p2.2) ;; Ret tt
       else
         sys (Close p1.1) ;; sys (Close p2.2) ;;
         sys (Write p1.2 (str "ping")) ;;
         pingpong_receive p2.1 ;;
         sys (Close p1.2) ;; sys (Close p2.1) ;; Ret tt) ;;
      exit 0.

(** ** ls.c, find.c *)

(** The part of the path after its last slash. *)
Fixpoint base_name (p path : list Z) : list Z :=
  match path with
  | [] => p
  | c :: path' => if c =? 47 then base_name path' path' else base_name p path'
  end.

Definition fmtname (path : list Z) : list Z :=
  let p := base_name path path in
  if DIRSIZ <=? strlen p then p
  else p ++ replicate (Z.to_nat (DIRSIZ - strlen p)) 32.

(** The entry of a directory in the bytes of a [struct dirent]. *)
Definition dirent_inum (de : list Z) : Z := le_val (take 2 de).
Definition dirent_name (de : list Z) : list Z := take 14 (drop 2 de).

(** [while(read(fd, &de, sizeof(de)) == sizeof(de))] *)
Definition dir_body (fd : Z) (entry : list Z -> U unit) (_ : unit) : U (unit + unit) :=
  r <- sys (Read fd 16) ;;
  if r.1 =? 16 then entry r.2 ;; Ret (inl tt) else Ret (inr tt).
Definition read_dir (fd : Z) (entry : list Z -> U unit) : U unit := uloop rounds (dir_body fd entry) tt.

Definition ls_line (path : list Z) (st : stat) : U unit :=
  printf (nl "%s %d %d %d") [astr (fmtname path); AInt st.(st_type); AInt st.(st_ino); AInt st.(st_size)].

(** [buf] is the path of the entry. *)
Definition ls_entry (path de : list Z) : U unit :=
  if dirent_inum de =? 0 then Ret tt
  else
    let buf := path ++ [47] ++ cstr (dirent_name de) in
    r <- ustat buf ;;
    match r with
    | (ret, Some st) => if ret <? 0 then printf (nl "ls: cannot stat %s") [astr buf] else ls_line buf st
    | (_, None) => printf (nl "ls: cannot stat %s") [astr buf]
    end.

Definition ls (path : list Z) : U unit :=
  fd <- sys (Open path O_RDONLY) ;;
  if fd <? 0 then fprintf 2 (nl "ls: cannot open %s") [astr path]
  else
    r <- sys (Fstat fd) ;;
    if r.1 <? 0 then
      fprintf 2 (nl "ls: cannot stat %s") [astr path] ;;
      sys (Close fd) ;;
      Ret tt
    else
      let st := r.2 in
      (if (st.(st_type) =? T_DEVICE) || (st.(st_type) =? T_FILE) then ls_line path st
       else if st.(st_type) =? T_DIR then
         if strlen path + 1 + DIRSIZ + 1 >? 512 then printf (nl "ls: path too long") []
         else read_dir fd (ls_entry path)
       else Ret tt) ;;
      sys (Close fd) ;;
      Ret tt.

Definition ls_main (argv : list (list Z)) : U unit :=
  if argc argv <? 2 then ls (str ".") ;; exit 0
  else uiter (args argv) ls ;; exit 0.

(** [depth] bounds the nesting of the directories. *)
Fixpoint find (depth : nat) (path name : list Z) : U Z :=
  match depth with
  | O => Limit
  | S depth' =>
      fd <- sys (Open path O_RDONLY) ;;
      if fd <? 0 then fprintf 2 (nl "find: cannot open %s") [astr path] ;; Ret (-1)
      else
        r <- sys (Fstat fd) ;;
        if r.1 <? 0 then
          fprintf 2 (nl "find: cannot stat %s") [astr path] ;;
          sys (Close fd) ;;
          Ret (-1)
        else if strlen path + 1 + DIRSIZ + 1 >? 512 then
          printf (nl "find: path too long") [] ;;
          sys (Close fd) ;;
          Ret (-1)
        else
          let type := r.2.(st_type) in
          (if (type =? T_FILE) || (type =? T_DEVICE) then
             if strcmp name (base_name path path) =? 0 then fprintf 1 (nl "%s") [astr path] else Ret tt
           else if type =? T_DIR then
             read_dir fd (fun de =>
               if (strcmp (dirent_name de) (str ".") =? 0) || (strcmp (dirent_name de) (str "..") =? 0) then Ret tt
               else if dirent_inum de =? 0 then Ret tt
               else
                 let buf := path ++ [47] ++ cstr (dirent_name de) in
                 r <- ustat buf ;;
                 if r.1 <? 0 then fprintf 2 (nl "find: connt stat %s") [astr buf]
                 else find depth' buf name ;; Ret tt)
           else Ret tt) ;;
          sys (Close fd) ;;
          Ret 1
  end.

Definition find_main (argv : list (list Z)) : U unit :=
  if negb (argc argv =? 3) then fprintf 2 (nl "Usage: find <path> <name>") [] ;; exit 0
  else find rounds (arg argv 1) (arg argv 2) ;; exit 0.

(** ** xargs.c *)

(** Run the command with one more argument. *)
Definition xargs_run (fixed : list (list Z)) (token : list Z) : U unit :=
  if MAXARG <=? argc fixed + 1 then Stuck
  else
    let xargv := fixed ++ [token] in
    pid <- sys Fork ;;
    if pid =? 0 then
      sys (Exec (arg xargv 0) xargv) ;;
      fprintf 2 (nl "xargv: exec %s failed") [astr (arg xargv 0)] ;;
      exit 1
    else sys Wait ;; Ret tt.

(** [for(; *p; p++)], with [token] the bytes from [start] to [p]: what is left
    in [token] at the end. *)
Fixpoint xargs_scan (fixed : list (list Z)) (token p : list Z) : U (list Z) :=
  match p with
  | [] => Ret token
  | c :: p' =>
      if c =? 0 then Ret token
      else if (c =? 32) || (c =? 10) then
        (if bool_decide (token = []) then Ret tt else xargs_run fixed token) ;;
        xargs_scan fixed [] p'
      else xargs_scan fixed (token ++ [c]) p'
  end.

(** [buf] holds the [m] bytes of [data]. *)
Definition xargs_body (fixed : list (list Z)) (data : list Z) : U (list Z + unit) :=
  r <- sys (Read 0 (512 - Z.of_nat (length data) - 1)) ;;
  if 0 <? r.1 then
    rest <- xargs_scan fixed [] (data ++ r.2) ;;
    Ret (inl rest)
  else Ret (inr tt).

Definition xargs_main (argv : list (list Z)) : U unit :=
  if argc argv <? 2 then fprintf 2 (nl "Usage: xargs command [args...]") [] ;; exit 1
  else if MAXARG <? argc (args argv) then Stuck
  else uloop rounds (xargs_body (args argv)) [] ;; exit 0.

(** ** primes.c *)

(** The [int] in the bytes of a read; fewer than four leave it not set. *)
Definition read_int (l : list Z) : U Z :=
  if bool_decide (length l = 4%nat) then Ret (s32 (le_val l)) else Stuck.

Definition sieve_body (p0 out prime : Z) (_ : unit) : U (unit + unit) :=
  r <- sys (Read p0 4) ;;
  if 0 <? r.1 then
    n <- read_int r.2 ;;
    (if prime =? 0 then Stuck
     else if negb (Z.rem n prime =? 0) then sys (Write out (le_bytes 4 n)) ;; Ret tt
     else Ret tt) ;;
    Ret (inl tt)
  else Ret (inr tt).

Fixpoint primes (depth : nat) (p0 : Z) : U unit :=
  match depth with
  | O => Limit
  | S depth' =>
      r <- sys (Read p0 4) ;;
      if r.1 <=? 0 then sys (Close p0) ;; exit 0
      else
        prime <- read_int r.2 ;;
        printf (nl "prime %d") [AInt prime] ;;
        p <- pipe_ends ;;
        pid <- sys Fork ;;
        if pid =? 0 then
          sys (Close p.2) ;;
          primes depth' p.1
        else
          sys (Close p.1) ;;
          uloop rounds (sieve_body p0 p.2 prime) tt ;;
          sys (Close p.2) ;;
          sys (Close p0) ;;
          sys Wait ;;
          exit 0
  end.

Definition primes_main : U unit :=
  p <- pipe_ends ;;
  pid <- sys Fork ;;
  (if pid =? 0 then
     sys (Close p.2) ;;
     primes rounds p.1
   else
     sys (Close p.1) ;;
     uiter (seq 2 34) (fun i => sys (Write p.2 (le_bytes 4 (Z.of_nat i))) ;; Ret tt) ;;
     sys (Close p.2) ;;
     sys Wait ;;
     Ret tt) ;;
  exit 0.
End Utils.
