(* ===== verification/Grind.v ===== *)
(** * grind: random system calls (user/grind.c)

    The program, and the pseudo-random numbers it uses: [do_rand] computes a
    step of the multiplicative generator of Park and Miller in 31 bits. *)

From Stdlib Require Import Znumtheory Zpow_facts.
From S2P Require Import Prelude Riscv Memory Spinlock Kalloc Vm Tty Proc ProcSpec Sleeplock Uart Console Pipe Bio Block Log Fs File Sysarg Exec Sysfile User Utils.
#[local] Open Scope user_scope.

(** ** Random numbers *)

(** The value returned, which is also the new [*ctx]; all of it fits in a
    [long], and the result in an [int]. *)
Definition do_rand (ctx : Z) : Z :=
  let x := ctx mod 0x7ffffffe + 1 in
  let hi := Z.quot x 127773 in
  let lo := Z.rem x 127773 in
  let x := 16807 * lo - 2836 * hi in
  let x := if x <? 0 then x + 0x7fffffff else x in
  x - 1.

(** [rand]: the number and the new [rand_next]. *)
Definition rand (rand_next : Z) : Z * Z := let x := do_rand rand_next in (s32 x, u64 x).

(** ** The program *)

Definition rdwr : Z := Z.lor O_CREATE O_RDWR.
Definition touch (path : string) : U unit := fd <- sys (Open (str path) rdwr) ;; sys (Close fd) ;; Ret tt.
Definition quiet {X : Type} (e : sysE X) : U unit := sys e ;; Ret tt.

(** [int pid = fork(); if(pid == 0){ child } else if(pid < 0){ ... exit(1); }] *)
Definition fork_child (child : U unit) : U Z :=
  pid <- sys Fork ;;
  if pid =? 0 then child ;; exit 0
  else if pid <? 0 then printf (nl "grind: fork failed") [] ;; exit 1
  else Ret pid.

Definition fail_if (b : bool) (msg : string) (ap : list vararg) : U unit :=
  if b then printf (nl msg) ap ;; exit 1 else Ret tt.
Definition efail_if (b : bool) (msg : string) (status : Z) : U unit :=
  if b then fprintf 2 (nl msg) [] ;; exit status else Ret tt.

(** Case 19: three generations write and read a pipe. *)
Definition grind_pipe : U unit :=
  r <- sys Pipe ;;
  fail_if (r.1 <? 0) "grind: pipe failed" [] ;;
  let fds := r.2 in
  fork_child (
    quiet Fork ;;
    quiet Fork ;;
    w <- sys (Write fds.2 (str "x")) ;;
    (if negb (w =? 1) then printf (nl "grind: pipe write failed") [] else Ret tt) ;;
    c <- sys (Read fds.1 1) ;;
    (if negb (c.1 =? 1) then printf (nl "grind: pipe read failed") [] else Ret tt)) ;;
  quiet (Close fds.1) ;;
  quiet (Close fds.2) ;;
  quiet Wait.

(** Case 21: a file can always be made. *)
Definition grind_create : U unit :=
  quiet (Unlink (str "c")) ;;
  fd1 <- sys (Open (str "c") rdwr) ;;
  fail_if (fd1 <? 0) "grind: create c failed" [] ;;
  w <- sys (Write fd1 (str "x")) ;;
  fail_if (negb (w =? 1)) "grind: write c failed" [] ;;
  st <- sys (Fstat fd1) ;;
  fail_if (negb (st.1 =? 0)) "grind: fstat failed" [] ;;
  fail_if (negb (st.2.(st_size) =? 1)) "grind: fstat reports wrong size %d" [AInt (s32 st.2.(st_size))] ;;
  fail_if (200 <? st.2.(st_ino)) "grind: fstat reports crazy i-number %d" [AInt st.2.(st_ino)] ;;
  quiet (Close fd1) ;;
  quiet (Unlink (str "c")).

(** [read(fd, buf+i, 1)] *)
Definition read_at (fd : Z) (i : nat) (buf : list Z) : U (list Z) :=
  r <- sys (Read fd 1) ;; Ret (put_at i r.2 buf).

(** [wait(&st)], with [st] not set before. *)
Definition wait_status : U Z := r <- sys Wait ;; if r.1 <? 0 then Stuck else Ret r.2.

Definition quote : string := String (Ascii.ascii_of_nat 34) EmptyString.

(** Case 22: [echo hi | cat] *)
Definition grind_echo (aa bb : Z * Z) : U unit :=
  quiet (Close bb.1) ;;
  quiet (Close bb.2) ;;
  quiet (Close aa.1) ;;
  quiet (Close 1) ;;
  d <- sys (Dup aa.2) ;;
  efail_if (negb (d =? 1)) "grind: dup failed" 1 ;;
  quiet (Close aa.2) ;;
  quiet (Exec (str "grindir/../echo") [str "echo"; str "hi"]) ;;
  fprintf 2 (nl "grind: echo: not found") [] ;;
  exit 2.
Definition grind_cat (aa bb : Z * Z) : U unit :=
  quiet (Close aa.2) ;;
  quiet (Close bb.1) ;;
  quiet (Close 0) ;;
  d <- sys (Dup aa.1) ;;
  efail_if (negb (d =? 0)) "grind: dup failed" 4 ;;
  quiet (Close aa.1) ;;
  quiet (Close 1) ;;
  d <- sys (Dup bb.2) ;;
  efail_if (negb (d =? 1)) "grind: dup failed" 5 ;;
  quiet (Close bb.2) ;;
  quiet (Exec (str "/cat") [str "cat"]) ;;
  fprintf 2 (nl "grind: cat: not found") [] ;;
  exit 6.

Definition grind_pipeline : U unit :=
  aa <- sys Pipe ;;
  efail_if (aa.1 <? 0) "grind: pipe failed" 1 ;;
  bb <- sys Pipe ;;
  efail_if (bb.1 <? 0) "grind: pipe failed" 1 ;;
  let aa := aa.2 in
  let bb := bb.2 in
  pid1 <- sys Fork ;;
  (if pid1 =? 0 then grind_echo aa bb else efail_if (pid1 <? 0) "grind: fork failed" 3) ;;
  pid2 <- sys Fork ;;
  (if pid2 =? 0 then grind_cat aa bb else efail_if (pid2 <? 0) "grind: fork failed" 7) ;;
  quiet (Close aa.1) ;;
  quiet (Close aa.2) ;;
  quiet (Close bb.2) ;;
  buf <- read_at bb.1 0 [0; 0; 0; 0] ;;
  buf <- read_at bb.1 1 buf ;;
  buf <- read_at bb.1 2 buf ;;
  quiet (Close bb.1) ;;
  st1 <- wait_status ;;
  st2 <- wait_status ;;
  fail_if (nz st1 || nz st2 || nz (strcmp buf (str (nl "hi"))))
    ("grind: exec pipeline failed %d %d " ++ quote ++ "%s" ++ quote) [AInt st1; AInt st2; astr buf].

(** The variables of [go]: [fd], [buf], [break0] and [iters], and [rand_next]. *)
Record gost := Gost { g_fd : Z; g_buf : list Z; break0 : Z; g_iters : Z; rand_next : Z }.
Definition with_fd (fd : Z) (g : gost) : gost := Gost fd g.(g_buf) g.(break0) g.(g_iters) g.(rand_next).
Definition with_buf (b : list Z) (g : gost) : gost := Gost g.(g_fd) b g.(break0) g.(g_iters) g.(rand_next).

Definition chdir_or_fail (path msg : string) : U unit :=
  r <- sys (Chdir (str path)) ;; fail_if (negb (r =? 0)) msg [].

(** One of the things to do. *)
Definition grind_what (what : Z) (g : gost) : U gost :=
  let skip m := m ;; Ret g in
  match what with
  | 1 => skip (touch "grindir/../a")
  | 2 => skip (touch "grindir/../grindir/../b")
  | 3 => skip (quiet (Unlink (str "grindir/../a")))
  | 4 => skip (chdir_or_fail "grindir" "grind: chdir grindir failed" ;;
               quiet (Unlink (str "../b")) ;; quiet (Chdir (str "/")))
  | 5 => quiet (Close g.(g_fd)) ;; fd <- sys (Open (str "/grindir/../a") rdwr) ;; Ret (with_fd fd g)
  | 6 => quiet (Close g.(g_fd)) ;; fd <- sys (Open (str "/./grindir/./../b") rdwr) ;; Ret (with_fd fd g)
  | 7 => skip (quiet (Write g.(g_fd) g.(g_buf)))
  | 8 => r <- sys (Read g.(g_fd) 999) ;; Ret (with_buf (put_at 0 r.2 g.(g_buf)) g)
  | 9 => skip (quiet (Mkdir (str "grindir/../a")) ;; touch "a/../a/./a" ;; quiet (Unlink (str "a/a")))
  | 10 => skip (quiet (Mkdir (str "/../b")) ;; touch "grindir/../b/b" ;; quiet (Unlink (str "b/b")))
  | 11 => skip (quiet (Unlink (str "b")) ;; quiet (Link (str "../grindir/./../a") (str "../b")))
  | 12 => skip (quiet (Unlink (str "../grindir/../a")) ;; quiet (Link (str ".././b") (str "/grindir/../a")))
  | 13 => skip (fork_child (Ret tt) ;; quiet Wait)
  | 14 => skip (fork_child (quiet Fork ;; quiet Fork) ;; quiet Wait)
  | 15 => skip (quiet (Sbrk 6011))
  | 16 =>
      skip (p <- sys (Sbrk 0) ;;
            if g.(break0) <? p then q <- sys (Sbrk 0) ;; quiet (Sbrk (s32 (- (q - g.(break0))))) else Ret tt)
  | 17 =>
      skip (pid <- fork_child (touch "a") ;;
            chdir_or_fail "../grindir/.." "grind: chdir failed" ;; quiet (Kill pid) ;; quiet Wait)
  | 18 => skip (fork_child (me <- sys Getpid ;; quiet (Kill me)) ;; quiet Wait)
  | 19 => skip grind_pipe
  | 20 =>
      skip (fork_child (quiet (Unlink (str "a")) ;; quiet (Mkdir (str "a")) ;; quiet (Chdir (str "a")) ;;
                        quiet (Unlink (str "../a")) ;; quiet (Open (str "x") rdwr) ;; quiet (Unlink (str "x"))) ;;
            quiet Wait)
  | 21 => skip grind_create
  | 22 => skip grind_pipeline
  | _ => Ret g
  end.

Definition go_body (which_child : Z) (g : gost) : U (gost + unit) :=
  let iters := u64 (g.(g_iters) + 1) in
  (if iters mod 500 =? 0 then quiet (Write 1 (if nz which_child then str "B" else str "A")) else Ret tt) ;;
  let '(r, next) := rand g.(rand_next) in
  g <- grind_what (Z.rem r 23) (Gost g.(g_fd) g.(g_buf) g.(break0) iters next) ;;
  Ret (inl g).

Section Grind.
Context `{Rounds}.

(** [buf] is static: all zeroes. *)
Definition go (which_child rand_next : Z) : U unit :=
  break0 <- sys (Sbrk 0) ;;
  quiet (Mkdir (str "grindir")) ;;
  chdir_or_fail "grindir" "grind: chdir grindir failed" ;;
  quiet (Chdir (str "/")) ;;
  uloop rounds (go_body which_child) (Gost (-1) (replicate 999 0) break0 0 rand_next).

Definition iter (rand_next : Z) : U unit :=
  quiet (Unlink (str "a")) ;;
  quiet (Unlink (str "b")) ;;
  pid1 <- sys Fork ;;
  fail_if (pid1 <? 0) "grind: fork failed" [] ;;
  (if pid1 =? 0 then go 0 (Z.lxor rand_next 31) ;; exit 0 else Ret tt) ;;
  pid2 <- sys Fork ;;
  fail_if (pid2 <? 0) "grind: fork failed" [] ;;
  (if pid2 =? 0 then go 1 (Z.lxor rand_next 7177) ;; exit 0 else Ret tt) ;;
  r <- sys Wait ;;
  let st1 := if r.1 <? 0 then -1 else r.2 in
  (if negb (st1 =? 0) then quiet (Kill pid1) ;; quiet (Kill pid2) else Ret tt) ;;
  quiet Wait ;;
  exit 0.

Definition grind_body (rand_next : Z) : U (Z + unit) :=
  pid <- sys Fork ;;
  (if pid =? 0 then iter rand_next ;; exit 0 else Ret tt) ;;
  (if 0 <? pid then quiet Wait else Ret tt) ;;
  quiet (Sleep 20) ;;
  Ret (inl (u64 (rand_next + 1))).
Definition grind_main : U unit := uloop rounds grind_body 1.

End Grind.

(** ** The generator *)

Definition MM : Z := 0x7fffffff.
Definition gen : Z := 16807.

(** No number below a bound divides [m]. *)
Fixpoint no_divisor (n : nat) (d m : Z) : bool :=
  match n with
  | O => true
  | S n' => negb (m mod d =? 0) && no_divisor n' (d + 1) m
  end.

Lemma no_divisor_spec n d m : no_divisor n d m = true -> 0 < d -> forall x, d <= x < d + Z.of_nat n -> ~ (x | m).
Proof.
  revert d. induction n as [|n IH]; intros d E Hd x Hx Hdiv; [lia|]. cbn [no_divisor] in E.
  apply andb_true_iff in E as [E1 E2]. apply negb_true_iff, Z.eqb_neq in E1. destruct (decide (x = d)) as [->|].
  - apply E1. by apply Z.mod_divide; [lia|].
  - apply (IH (d + 1) E2 ltac:(lia) x); [lia|done].
Qed.

(** Trial division. *)
Lemma trial_prime m n : 1 < m -> m < (Z.of_nat n + 2) * (Z.of_nat n + 2) -> no_divisor n 2 m = true -> Z.prime m.
Proof.
  intros Hm Hn E. split; [done|]. intros k Hk [q Hq].
  destruct (Z.lt_ge_cases k (Z.of_nat n + 2)).
  - apply (no_divisor_spec n 2 m E ltac:(lia) k); [lia|by exists q].
  - apply (no_divisor_spec n 2 m E ltac:(lia) q); [nia|]. exists k. lia.
Qed.

Lemma MM_prime : Z.prime MM.
Proof. apply (trial_prime _ (Z.to_nat 46340)); [done|vm_compute; done|vm_compute; reflexivity]. Qed.

(** The prime factors of [MM - 1]. *)
Definition factors : list Z := [2; 3; 7; 11; 31; 151; 331].

Lemma factors_prime : Forall Z.prime factors.
Proof.
  unfold factors. apply Forall_cons_2; [apply (trial_prime 2 0); done|]. apply Forall_cons_2; [apply (trial_prime 3 0); done|].
  apply Forall_cons_2; [apply (trial_prime 7 1); done|]. apply Forall_cons_2; [apply (trial_prime 11 2); done|].
  apply Forall_cons_2; [apply (trial_prime 31 4); done|]. apply Forall_cons_2; [apply (trial_prime 151 11); done|].
  apply Forall_cons_2; [apply (trial_prime 331 17); done|]. apply Forall_nil_2.
Qed.

Lemma prime_factor e : 1 < e -> exists p, Z.prime p /\ (p | e).
Proof.
  revert e. apply (well_founded_induction (Z.lt_wf 0) (fun e => 1 < e -> exists p, Z.prime p /\ (p | e))).
  intros e IH He. destruct (prime_dec e) as [Hp|Hp]; [exists e; split; [by apply prime_alt|done]|].
  destruct (not_prime_divide e He Hp) as (n & Hn & Hd). destruct (IH n) as (p & Hpp & Hpd); [lia..|].
  exists p. split; [done|]. by transitivity n.
Qed.

Lemma factor_of p : Z.prime p -> (p | MM - 1) -> p ∈ factors.
Proof.
  intros Hp Hd. change (MM - 1) with (2 * (3 * (3 * (7 * (11 * (31 * (151 * 331))))))) in Hd.
  assert (Hq : forall q, q ∈ factors -> (p | q) -> p ∈ factors).
  { intros q Hq Hpq. by rewrite (Z.divide_prime_prime p q Hp (Forall_elem _ _ _ factors_prime Hq) Hpq). }
  repeat (apply Z.divide_prime_mul in Hd as [Hd|Hd]; [eapply Hq; [|exact Hd]; apply (bool_decide_unpack _); vm_compute; done| |done]).
  eapply Hq; [|exact Hd]. apply (bool_decide_unpack _). vm_compute. done.
Qed.

(** The exponents that lead back to 1. *)
Definition unit_exp (k : Z) : Prop := gen ^ k mod MM = 1.

Lemma unit_exp_mod a b : 0 <= a -> 0 < b -> unit_exp a -> unit_exp b -> unit_exp (a mod b).
Proof.
  unfold unit_exp. intros Ha Hb Ea Eb. pose proof (Z.mod_pos_bound a b Hb). rewrite (Z.div_mod a b) in Ea by lia.
  rewrite Z.pow_add_r, Z.pow_mul_r in Ea by (try apply Z.mul_nonneg_nonneg; try apply Z.div_pos; lia).
  rewrite Z.mul_mod, <- Z.mod_pow_l, Eb, Z.pow_1_l in Ea by (done || apply Z.div_pos; lia).
  change (1 mod MM) with 1 in Ea. by rewrite Z.mul_1_l, Z.mod_mod in Ea.
Qed.

Lemma unit_exp_gcd a b : 0 <= a -> 0 < b -> unit_exp a -> unit_exp b -> unit_exp (Z.gcd a b).
Proof.
  intros Ha Hb. revert b Hb a Ha.
  apply (well_founded_induction (Z.lt_wf 0) (fun b => 0 < b -> forall a, 0 <= a -> unit_exp a -> unit_exp b -> unit_exp (Z.gcd a b))).
  intros b IH Hb a Ha Ea Eb. pose proof (Z.mod_pos_bound a b Hb). pose proof (unit_exp_mod a b Ha Hb Ea Eb) as Em.
  rewrite Z.gcd_comm, <- Z.gcd_mod by lia. destruct (decide (a mod b = 0)) as [E|].
  - by rewrite E, Z.gcd_0_l, Z.abs_eq by lia.
  - rewrite Z.gcd_comm. apply IH; [lia..|done|done].
Qed.

Lemma gen_pow m r : 0 <= m -> Zpow_mod gen m MM = r -> gen ^ m mod MM = r.
Proof. intros Hm <-. symmetry. by apply Zpow_mod_correct. Qed.

Lemma unit_exp_full : unit_exp (MM - 1).
Proof. apply gen_pow; [done|]. vm_compute. reflexivity. Qed.

Lemma not_unit_exp p : p ∈ factors -> ~ unit_exp ((MM - 1) / p).
Proof.
  assert (Hf : Forall (fun p => Zpow_mod gen ((MM - 1) / p) MM <> 1) factors) by (apply (bool_decide_unpack _); vm_compute; done).
  intros Hp E. apply (Forall_elem _ _ _ Hf Hp). unfold unit_exp in E. by rewrite Zpow_mod_correct.
Qed.

Lemma unit_exp_mul d f : 0 <= d -> 0 <= f -> unit_exp d -> unit_exp (d * f).
Proof. unfold unit_exp. intros Hd Hf E. by rewrite Z.pow_mul_r, <- Z.mod_pow_l, E, Z.pow_1_l by done. Qed.

(** The powers of the generator come back to 1 after [MM - 1] steps only. *)
Lemma gen_order k : 0 < k -> unit_exp k -> (MM - 1 | k).
Proof.
  intros Hk E. pose proof (unit_exp_gcd k (MM - 1) ltac:(lia) ltac:(done) E unit_exp_full) as Eg.
  destruct (Z.gcd_divide_r k (MM - 1)) as [e He]. pose proof (Z.gcd_divide_l k (MM - 1)) as Hdk.
  assert (Hd : 0 < Z.gcd k (MM - 1)) by (pose proof (Z.gcd_nonneg k (MM - 1)); assert (Z.gcd k (MM - 1) <> 0); [|lia]; intros E0; apply Z.gcd_eq_0 in E0; lia).
  set (d := Z.gcd k (MM - 1)) in *. change (MM - 1) with 2147483646 in He. destruct (decide (e = 1)) as [->|He1].
  { change (MM - 1) with 2147483646. rewrite He, Z.mul_1_l. done. }
  destruct (prime_factor e) as (p & Hp & f & Hf); [nia|]. pose proof (Z.prime_ge_2 p Hp).
  exfalso. apply (not_unit_exp p).
  - apply factor_of; [done|]. change (MM - 1) with 2147483646. rewrite He, Hf. exists (f * d). lia.
  - replace ((MM - 1) / p) with (d * f); [apply unit_exp_mul; [lia|nia|done]|].
    change (MM - 1) with 2147483646. rewrite He, Hf. apply Z.div_unique_exact; lia.
Qed.

(** ** The step *)

Lemma mod_unit x : (gen * x) mod MM = 0 -> 1 <= x < MM -> False.
Proof.
  intros E Hx. apply Z.mod_divide in E; [|done]. apply Z.divide_prime_mul in E as [E|E]; [| |apply MM_prime].
  - apply Z.divide_pos_le in E; [|done]. done.
  - apply Z.divide_pos_le in E; lia.
Qed.

(** Schrage's decomposition of the product. *)
Lemma do_rand_step ctx : 0 <= ctx ->
  let x := ctx mod (MM - 1) + 1 in
  do_rand ctx + 1 = (gen * x) mod MM /\ 0 <= do_rand ctx <= 0x7ffffffd.
Proof.
  intros Hc x. assert (Hx : 1 <= x < MM) by (pose proof (Z.mod_pos_bound ctx (MM - 1) ltac:(done)); unfold x, MM in *; lia).
  unfold do_rand. change (ctx mod 0x7ffffffe + 1) with x. cbv zeta. rewrite Z.quot_div_nonneg, Z.rem_mod_nonneg by lia.
  set (y := 16807 * (x mod 127773) - 2836 * (x / 127773)).
  assert (Hy : y = gen * x - MM * (x / 127773)) by (unfold y, gen, MM; dlia).
  assert (Hr : - MM < y < MM) by (unfold y, MM in *; dlia).
  assert (E : (if y <? 0 then y + 0x7fffffff else y) = (gen * x) mod MM).
  { destruct (Z.ltb_spec y 0); [apply (Z.mod_unique_pos _ _ (x / 127773 - 1))|apply (Z.mod_unique_pos _ _ (x / 127773))]; unfold MM in *; lia. }
  rewrite E. pose proof (Z.mod_pos_bound (gen * x) MM ltac:(done)) as Hb.
  assert ((gen * x) mod MM <> 0) by (intros E0; by apply (mod_unit x)). unfold MM in *. lia.
Qed.

(** The [n]th number after the seed [s]. *)
Definition rand_seq (n : nat) (s : Z) : Z := Nat.iter n do_rand s.

Lemma rand_seq_eq n s : 0 <= s < MM - 1 -> 0 <= rand_seq n s < MM - 1 /\ rand_seq n s + 1 = (gen ^ Z.of_nat n * (s + 1)) mod MM.
Proof.
  intros Hs. induction n as [|n [IHr IH]].
  - cbn [rand_seq Nat.iter]. split; [done|]. rewrite Z.mul_1_l, Z.mod_small; [done|]. unfold MM in *. lia.
  - change (rand_seq (S n) s) with (do_rand (rand_seq n s)). destruct (do_rand_step (rand_seq n s) ltac:(lia)) as [E Hr].
    split; [unfold MM; lia|]. rewrite E, (Z.mod_small (rand_seq n s)), IH by done.
    rewrite Z.mul_mod_idemp_r by done. f_equal. rewrite Nat2Z.inj_succ, Z.pow_succ_r by lia. lia.
Qed.

Lemma unit_exp_divide k : 0 <= k -> unit_exp k <-> (MM - 1 | k).
Proof.
  intros Hk. split.
  - intros E. destruct (decide (k = 0)) as [->|]; [apply Z.divide_0_r|]. by apply gen_order; [lia|].
  - intros [q Hq]. rewrite Hq, Z.mul_comm. apply unit_exp_mul; [done| |apply unit_exp_full]. unfold MM in *. lia.
Qed.

Lemma rand_seq_cycle k y : 0 <= y < MM - 1 -> rand_seq k y = y <-> (MM - 1 | Z.of_nat k).
Proof.
  intros Hy. rewrite <- unit_exp_divide by lia. destruct (rand_seq_eq k y Hy) as [_ E].
  assert (E1 : rand_seq k y = y <-> (gen ^ Z.of_nat k * (y + 1)) mod MM = y + 1) by lia. rewrite E1. unfold unit_exp. split; intros E2.
  - assert (Hd : (MM | (gen ^ Z.of_nat k - 1) * (y + 1))).
    { exists ((gen ^ Z.of_nat k * (y + 1)) / MM). pose proof (Z.div_mod (gen ^ Z.of_nat k * (y + 1)) MM ltac:(done)). lia. }
    apply Z.divide_prime_mul in Hd as [[q Hq]|Hd]; [| |apply MM_prime].
    + replace (gen ^ Z.of_nat k) with (1 + q * MM) by lia. by rewrite Z.mod_add.
    + apply Z.divide_pos_le in Hd; lia.
  - rewrite Z.mul_mod, E2, Z.mul_1_l, Z.mod_mod by done. apply Z.mod_small. lia.
Qed.

Lemma rand_seq_add i k s : rand_seq (i + k) s = rand_seq k (rand_seq i s).
Proof. unfold rand_seq. rewrite Nat.add_comm. induction k as [|k IH]; [done|].
  change (do_rand (Nat.iter (k + i) do_rand s) = do_rand (Nat.iter k do_rand (Nat.iter i do_rand s))). by rewrite IH.
Qed.

(** C39: the random numbers of grind.  [do_rand] is exactly a step of the
    Park-Miller generator: with x the state brought into [1, 2^31 - 2], it
    returns 7^5 x mod (2^31 - 1), less one; the result lies in [0, 2^31 - 3],
    so that [rand] returns it unchanged as an [int].  And the generator has full period: from any seed in that range, a
    number comes again exactly every 2^31 - 2 calls. *)
Theorem grind_rand_spec (s : Z) :
  0 <= s ->
  do_rand s + 1 = (7 ^ 5 * (s mod (MM - 1) + 1)) mod MM /\ rand s = (do_rand s, do_rand s) /\
  0 <= do_rand s <= 0x7ffffffd /\
  (s < MM - 1 -> forall i j, (i <= j)%nat -> rand_seq i s = rand_seq j s <-> (MM - 1 | Z.of_nat (j - i))).
Proof.
  intros Hs. destruct (do_rand_step s Hs) as [E Hr]. split_and!; [done| |lia|lia|].
  - unfold rand. rewrite u64_small by lia. f_equal. unfold s32, signed. rewrite Z.mod_small by lia. destruct (Z.ltb_spec (do_rand s) (2 ^ (32 - 1))); lia.
  - intros Hlt i j Hij. destruct (rand_seq_eq i s ltac:(lia)) as [Hi _].
    replace j with (i + (j - i))%nat at 1 by lia. rewrite rand_seq_add, <- (rand_seq_cycle (j - i) _ Hi). by split.
Qed.

Lemma grind_rand_spec_witness : 0 <= 1 /\ do_rand 1 = 33613 /\ do_rand 1 + 1 = (7 ^ 5 * (1 mod (MM - 1) + 1)) mod MM.
Proof. split; [discriminate|]. split; [reflexivity|]. apply (grind_rand_spec 1). discriminate. Defined.
