(* ===== verification/UserSem.v ===== *)
(** * What user programs do with their standard input and output

    [run] executes the tree of system calls of one process.  A read of
    descriptor 0 returns the next bytes of the input, as few of them as the
    kernel likes (a pipe or the console hands out what is there): how many is
    the parameter [chunk].  A forked child runs to its end before the parent
    goes on, and [exec] puts the command into a log and ends the process. *)

From S2P Require Import Prelude Riscv Memory Spinlock Kalloc Vm Tty Proc ProcSpec Sleeplock Uart Bio Block Log Fs User.
#[local] Open Scope user_scope.

(** The [k]-th read returns at most [S (chunk k)] bytes. *)
Class Chunks := chunk : nat -> nat.

Record io := Io {
  io_in : list Z;
  io_out : list Z;
  io_err : list Z;
  io_reads : nat;
  io_execs : list (list (list Z));
  io_zombies : list Z
}.

Definition io0 (input : list Z) : io := Io input [] [] 0 [] [].

Inductive uout (A : Type) : Type :=
| Done (a : A) (w : io)
| Exited (status : Z) (w : io)
| Died.
Arguments Done {A} a w.
Arguments Exited {A} status w.
Arguments Died {A}.

Section Run.
Context `{Chunks}.

Definition io_read (n : Z) (w : io) : (Z * list Z) * io :=
  let m := (Z.to_nat n `min` S (chunk w.(io_reads)))%nat in
  let l := take m w.(io_in) in
  ((Z.of_nat (length l), l), Io (drop m w.(io_in)) w.(io_out) w.(io_err) (S w.(io_reads)) w.(io_execs) w.(io_zombies)).

Definition io_write (fd : Z) (l : list Z) (w : io) : io :=
  if fd =? 1 then Io w.(io_in) (w.(io_out) ++ l) w.(io_err) w.(io_reads) w.(io_execs) w.(io_zombies)
  else Io w.(io_in) w.(io_out) (w.(io_err) ++ l) w.(io_reads) w.(io_execs) w.(io_zombies).

Definition io_exec (argv : list (list Z)) (w : io) : io :=
  Io w.(io_in) w.(io_out) w.(io_err) w.(io_reads) (w.(io_execs) ++ [argv]) w.(io_zombies).

(** The child's pid is one more than the number of processes so far; only
    that it is positive matters. *)
Definition io_born (w : io) : io :=
  Io w.(io_in) w.(io_out) w.(io_err) w.(io_reads) w.(io_execs) (w.(io_zombies) ++ [2]).

Definition io_wait (w : io) : (Z * Z) * io :=
  match w.(io_zombies) with
  | [] => ((-1, 0), w)
  | z :: l => ((z, 0), Io w.(io_in) w.(io_out) w.(io_err) w.(io_reads) w.(io_execs) l)
  end.

Fixpoint run {A : Type} (m : U A) (w : io) : uout A :=
  match m with
  | Ret a => Done a w
  | Vis e k =>
      match e in sysE X return (X -> io -> uout A) -> uout A with
      | Exit status => fun _ => Exited status w
      | Read fd n => fun go => if fd =? 0 then let '(r, w') := io_read n w in go r w' else Died
      | Write fd l => fun go => if (fd =? 1) || (fd =? 2) then go (Z.of_nat (length l)) (io_write fd l w) else Died
      | Exec _ argv => fun _ => Exited 0 (io_exec argv w)
      | Wait => fun go => let '(r, w') := io_wait w in go r w'
      | Fork => fun go =>
          match go 0 w with
          | Exited _ w' => go 2 (io_born w')
          | _ => Died
          end
      | _ => fun _ => Died
      end (fun x w' => run (k x) w')
  | Stuck => Died
  | Limit => Died
  end.

(** ** Sequencing *)

Definition ubind_out {A B : Type} (o : uout A) (f : A -> io -> uout B) : uout B :=
  match o with
  | Done a w => f a w
  | Exited st w => Exited st w
  | Died => Died
  end.

Arguments io_write : simpl never.
Arguments io_read : simpl never.

Lemma run_ret {A : Type} (a : A) w : run (Ret a) w = Done a w.
Proof. done. Qed.

Lemma run_read {A : Type} n (k : Z * list Z -> U A) w :
  run (Vis (Read 0 n) k) w = run (k (io_read n w).1) (io_read n w).2.
Proof. done. Qed.

Lemma run_write {A : Type} fd l (k : Z -> U A) w : fd = 1 \/ fd = 2 ->
  run (Vis (Write fd l) k) w = run (k (Z.of_nat (length l))) (io_write fd l w).
Proof. by intros [->| ->]. Qed.

(** The first part of a program runs as it does alone. *)
Lemma run_bind {A B : Type} (m : U A) (f : A -> U B) w :
  run m w <> Died -> run (ubind m f) w = ubind_out (run m w) (fun a w' => run (f a) w').
Proof.
  revert w. induction m as [a|X e k IH| |]; intros w Hn; cbn [ubind]; try done.
  destruct e; cbn in Hn |- *; try done; try (by apply IH).
  - destruct (run (k 0) w) as [|st w'|] eqn:E0; try done.
    rewrite IH, E0 by (rewrite E0; done). cbn. by apply IH.
  - destruct (io_wait w) as [r w']. by apply IH.
  - case_match; [by apply IH|done].
  - case_match; [by apply IH|done].
Qed.

Lemma run_then {A B : Type} (m : U A) (f : A -> U B) w a w' :
  run m w = Done a w' -> run (ubind m f) w = run (f a) w'.
Proof. intros E. by rewrite run_bind, E by (rewrite E; done). Qed.

Lemma run_exit {A B : Type} (m : U A) (f : A -> U B) w st w' :
  run m w = Exited st w' -> run (ubind m f) w = Exited st w'.
Proof. intros E. by rewrite run_bind, E by (rewrite E; done). Qed.

Lemma uloop_S {X R : Type} n (body : X -> U (X + R)) x :
  uloop (S n) body x = ubind (body x) (fun r => match r with inl x' => uloop n body x' | inr r' => Ret r' end).
Proof. done. Qed.

(** ** Writing *)

Definition is_out (fd : Z) : Prop := fd = 1 \/ fd = 2.

Lemma io_write_nil fd w : io_write fd [] w = w.
Proof. unfold io_write. destruct w. cbn. rewrite !app_nil_r. by destruct (fd =? 1). Qed.

Lemma io_write_app fd l1 l2 w : io_write fd l2 (io_write fd l1 w) = io_write fd (l1 ++ l2) w.
Proof. unfold io_write. destruct w, (fd =? 1); cbn; by rewrite app_assoc. Qed.

Lemma run_putc fd c w : is_out fd -> run (putc fd c) w = Done tt (io_write fd [u8 c] w).
Proof. by intros [->| ->]. Qed.

Lemma run_puts fd l w : is_out fd -> run (uiter l (putc fd)) w = Done tt (io_write fd (u8 <$> l) w).
Proof.
  intros Hfd. revert w. induction l as [|c l IH]; intros w; cbn [uiter].
  - cbn. by rewrite io_write_nil.
  - rewrite (run_then _ _ _ _ _ (run_putc fd c w Hfd)), IH, io_write_app. done.
Qed.

(** ** printf *)

Definition format_int (xx base : Z) (sgn : bool) : list Z := rev (printint_buf xx base sgn).
Definition format_ptr (x : Z) : list Z :=
  [48; 120] ++ ((fun i => digit (Z.shiftr (u64 (Z.shiftl x (4 * Z.of_nat i))) 60)) <$> seq 0 16).

(** The bytes that [vprintf] prints; [None] where it has no meaning. *)
Fixpoint format (pct : bool) (fmt : list Z) (ap : list vararg) : option (list Z) :=
  match fmt with
  | [] => Some []
  | c :: fmt' =>
      if c =? 0 then Some []
      else if negb pct then
        if c =? 37 then format true fmt' ap
        else ([c] ++.) <$> format false fmt' ap
      else if c =? 100 then
        match ap with AInt x :: ap => (format_int (s32 x) 10 true ++.) <$> format false fmt' ap | _ => None end
      else if c =? 108 then
        match ap with APtr x :: ap => (format_int (s32 x) 10 false ++.) <$> format false fmt' ap | _ => None end
      else if c =? 120 then
        match ap with AInt x :: ap => (format_int (s32 x) 16 false ++.) <$> format false fmt' ap | _ => None end
      else if c =? 112 then
        match ap with APtr x :: ap => (format_ptr x ++.) <$> format false fmt' ap | _ => None end
      else if c =? 115 then
        match ap with AStr s :: ap => (cstr (default (str "(null)") s) ++.) <$> format false fmt' ap | _ => None end
      else if c =? 99 then
        match ap with AInt x :: ap => ([x] ++.) <$> format false fmt' ap | _ => None end
      else if c =? 37 then ([c] ++.) <$> format false fmt' ap
      else ([37; c] ++.) <$> format false fmt' ap
  end.

Lemma run_put_rest fd (m : U unit) l l' (k : U unit) w :
  is_out fd -> run m w = Done tt (io_write fd l w) ->
  run k (io_write fd l w) = Done tt (io_write fd l' (io_write fd l w)) ->
  run (m ;; k) w = Done tt (io_write fd (l ++ l') w).
Proof. intros Hfd E E'. by rewrite (run_then _ _ _ _ _ E), E', io_write_app. Qed.

Lemma run_iter {I : Type} (g : I -> Z) fd (l : list I) w : is_out fd ->
  run (uiter l (fun i => putc fd (g i))) w = Done tt (io_write fd (u8 <$> (g <$> l)) w).
Proof.
  intros Hfd. revert w. induction l as [|c l IH]; intros w; cbn [uiter].
  - cbn. by rewrite io_write_nil.
  - rewrite (run_then _ _ _ _ _ (run_putc fd (g c) w Hfd)), IH, io_write_app. done.
Qed.

Lemma run_printptr fd x w : is_out fd -> run (printptr fd x) w = Done tt (io_write fd (u8 <$> format_ptr x) w).
Proof.
  intros Hfd. unfold printptr, format_ptr. rewrite (run_then _ _ _ _ _ (run_putc fd 48 w Hfd)).
  rewrite (run_then _ _ _ _ _ (run_putc fd 120 _ Hfd)), run_iter by done. by rewrite !io_write_app.
Qed.

Lemma run_vprintf fd pct fmt : is_out fd -> forall ap l w,
  format pct fmt ap = Some l -> run (vprintf_loop fd pct fmt ap) w = Done tt (io_write fd (u8 <$> l) w).
Proof.
  intros Hfd. revert pct. induction fmt as [|c fmt IH]; intros pct ap l w; cbn [format vprintf_loop].
  { intros [= <-]. cbn. by rewrite io_write_nil. }
  assert (Hk : forall pre (m : U unit) ap, (forall w, run m w = Done tt (io_write fd (u8 <$> pre) w)) ->
    (pre ++.) <$> format false fmt ap = Some l -> run (m ;; vprintf_loop fd false fmt ap) w = Done tt (io_write fd (u8 <$> l) w)).
  { intros pre m ap' Hm Hf. apply fmap_Some in Hf as (l' & Hf & ->). rewrite fmap_app.
    apply run_put_rest; [done|apply Hm|]. by apply (IH false ap'). }
  assert (Hp : forall c w, run (putc fd c) w = Done tt (io_write fd (u8 <$> [c]) w)) by (intros; by apply run_putc).
  assert (Hs : forall l w, run (uiter l (putc fd)) w = Done tt (io_write fd (u8 <$> l) w)) by (intros; by apply run_puts).
  destruct (c =? 0).
  { intros [= <-]. cbn. by rewrite io_write_nil. }
  destruct pct; cbn [negb].
  2: { destruct (c =? 37); [apply IH|]. by apply Hk. }
  repeat (match goal with |- context [if ?b then _ else _] => destruct b end;
          [first [destruct ap as [|[] ap]; try done; apply Hk; intros; solve [apply Hs|apply Hp|by apply run_printptr]
                 |by apply Hk]|]).
  intros Hf. apply fmap_Some in Hf as (l' & Hf & ->). rewrite fmap_app. cbn [fmap list_fmap].
  rewrite (run_then _ _ _ _ _ (Hp 37 w)), (run_then _ _ _ _ _ (Hp c _)), !io_write_app, (IH false ap l') by done.
  by rewrite io_write_app.
Qed.

(** A call of [printf] with a format that fits its arguments. *)
Lemma run_printf fd fmt ap l w :
  is_out fd -> format false (str fmt) ap = Some l ->
  run (fprintf fd fmt ap) w = Done tt (io_write fd (u8 <$> l) w).
Proof. intros Hfd Hf. by apply run_vprintf. Qed.
End Run.
Arguments io_write : simpl never.
Arguments io_read {_} : simpl never.
