(* ===== verification/GrepThm.v ===== *)
(** * grep: the matcher against the language of patterns, and the whole program

    [matches] says what a pattern means, without backtracking; the matcher of
    user/grep.c decides it.  [grep_spec] is about the program: whatever the
    sizes of the reads, it prints the lines that match. *)

From S2P Require Import Prelude Riscv Memory Spinlock Kalloc Vm Tty Proc ProcSpec Sleeplock Uart Bio Block Log Fs User Utils UserSem.

(** ** Patterns *)

Inductive item := One (c : Z) | Star (c : Z) | End.

Fixpoint parse_re (re : list Z) : list item :=
  match re with
  | [] => []
  | c :: re1 =>
      let one := if (c =? 36) && bool_decide (re1 = []) then [End] else One c :: parse_re re1 in
      match re1 with
      | [] => one
      | x :: re2 => if x =? 42 then Star c :: parse_re re2 else one
      end
  end.

(** The character [c] of a pattern stands for [t]. *)
Definition stands (c t : Z) : Prop := c = 46 \/ c = t.

(** [matches r a b]: the text [a], followed by [b], is in the language of [r]. *)
Inductive matches : list item -> list Z -> list Z -> Prop :=
| m_nil b : matches [] [] b
| m_end : matches [End] [] []
| m_one c r t a b : stands c t -> matches r a b -> matches (One c :: r) (t :: a) b
| m_star c r a1 a2 b : Forall (stands c) a1 -> matches r a2 b -> matches (Star c :: r) (a1 ++ a2) b.

Definition here (r : list item) (text : list Z) : Prop := exists a b, text = a ++ b /\ matches r a b.

Lemma matchstar_here (f : list Z -> bool) c r :
  (forall text, f text = true <-> here r text) ->
  forall text, matchstar f c text = true <-> here (Star c :: r) text.
Proof.
  intros Hf text. induction text as [|t text IH]; cbn [matchstar]; rewrite orb_true_iff, Hf.
  - split.
    + intros [(a & b & E & Hm)|[=]]. exists a, b. split; [done|]. exact (m_star c r [] a b (Forall_nil_2 _) Hm).
    + intros (a & b & E & Hm). left. inversion Hm; subst. destruct a1; [|done]. by exists a2, b.
  - rewrite andb_true_iff, orb_true_iff, !Z.eqb_eq, IH. split.
    + intros [(a & b & E & Hm)|(Hc & a & b & E & Hm)].
      * exists a, b. split; [done|]. exact (m_star c r [] a b (Forall_nil_2 _) Hm).
      * inversion Hm; subst. exists (t :: (a1 ++ a2)), b. split; [done|].
        change (t :: a1 ++ a2) with ((t :: a1) ++ a2). constructor; [|done]. constructor; [|done]. unfold stands. intuition.
    + intros (a & b & E & Hm). inversion Hm as [| | |? ? a1 a2 ? Hs Hm']; subst.
      destruct a1 as [|t1 a1]; [left; by exists a2, b|]. right. inversion Hs as [|? ? Ht Hs']; subst.
      injection E as -> ->. split; [unfold stands in Ht; intuition|]. exists (a1 ++ a2), b.
      split; [done|]. by constructor.
Qed.

Lemma one_here (f : list Z -> bool) c r text :
  (forall text, f text = true <-> here r text) ->
  match text with [] => false | t :: text' => ((c =? 46) || (c =? t)) && f text' end = true <-> here (One c :: r) text.
Proof.
  intros Hf. destruct text as [|t text].
  - split; [done|]. intros (a & b & E & Hm). inversion Hm; subst. done.
  - rewrite andb_true_iff, orb_true_iff, !Z.eqb_eq, Hf. split.
    + intros (Hc & a & b & -> & Hm). exists (t :: a), b. split; [done|]. by constructor.
    + intros (a & b & E & Hm). inversion Hm; subst. injection E as -> ->. split; [done|]. by exists a0, b.
Qed.

Lemma end_here text : bool_decide (text = []) = true <-> here [End] text.
Proof.
  rewrite bool_decide_eq_true. split.
  - intros ->. exists [], []. split; [done|constructor].
  - intros (a & b & -> & Hm). by inversion Hm.
Qed.

(** The two cases of the matcher that look at one or two characters. *)
Lemma matchhere_spec re : forall text, matchhere re text = true <-> here (parse_re re) text.
Proof.
  enough (forall n re, (length re <= n)%nat -> forall text, matchhere re text = true <-> here (parse_re re) text) as Hn.
  { exact (Hn (length re) re (le_n _)). }
  clear re. induction n as [|n IH]; intros re Hlen text.
  - destruct re; [|cbn in Hlen; lia]. split; [|done]. intros _. exists [], text. split; [done|constructor].
  - destruct re as [|c re1]; [split; [|done]; intros _; exists [], text; split; [done|constructor]|].
    assert (Hone : (if (c =? 36) && bool_decide (re1 = []) then bool_decide (text = [])
        else match text with [] => false | t :: text' => ((c =? 46) || (c =? t)) && matchhere re1 text' end) = true <->
      here (if (c =? 36) && bool_decide (re1 = []) then [End] else One c :: parse_re re1) text).
    { destruct ((c =? 36) && bool_decide (re1 = [])); [apply end_here|]. apply one_here. apply IH. cbn in Hlen. lia. }
    destruct re1 as [|x re2]; [exact Hone|]. cbn [matchhere parse_re]. destruct (x =? 42); [|exact Hone].
    apply matchstar_here. apply IH. cbn in Hlen. lia.
Qed.

Lemma match_from_spec re text :
  match_from re text = true <-> exists pre text', text = pre ++ text' /\ here (parse_re re) text'.
Proof.
  induction text as [|t text IH]; cbn [match_from]; rewrite orb_true_iff, matchhere_spec.
  - split.
    + intros [Hh|[=]]. by exists [], [].
    + intros (pre & text' & E & Hh). left. symmetry in E. apply app_eq_nil in E as [-> ->]. done.
  - rewrite IH. split.
    + intros [Hh|(pre & text' & -> & Hh)]; [by exists [], (t :: text)|by exists (t :: pre), text'].
    + intros ([|t' pre] & text' & E & Hh); [left; by rewrite E|]. injection E as <- ->. right. by exists pre, text'.
Qed.

(** What a pattern finds: an occurrence anywhere, or at the start after [^]. *)
Definition found (re text : list Z) : Prop :=
  if decide (ch re = 94) then here (parse_re (tl re)) text
  else exists pre text', text = pre ++ text' /\ here (parse_re re) text'.

Lemma match_found re text : match_ re text = true <-> found re text.
Proof.
  unfold found. destruct re as [|c re1]; cbn [match_ ch hd tl].
  - rewrite decide_False by done. apply match_from_spec.
  - destruct (Z.eqb_spec c 94); [rewrite decide_True by done; apply matchhere_spec|].
    rewrite decide_False by done. apply match_from_spec.
Qed.

(** ** Lines *)

(** The lines of a text that end in a newline, and what follows the last. *)
Fixpoint lines (l : list Z) : list (list Z) * list Z :=
  match l with
  | [] => ([], [])
  | c :: l' =>
      let '(ls, r) := lines l' in
      if c =? 10 then ([] :: ls, r)
      else match ls with
           | [] => ([], c :: r)
           | x :: ls' => ((c :: x) :: ls', r)
           end
  end.

Lemma lines_none l : 10 ∉ l -> lines l = ([], l).
Proof.
  induction l as [|c l IH]; [done|]. rewrite not_elem_of_cons. intros [Hc Hl]. cbn [lines]. rewrite IH by done.
  rewrite (proj2 (Z.eqb_neq _ _)) by congruence. done.
Qed.

Lemma lines_cons line l : 10 ∉ line -> lines (line ++ 10 :: l) = (line :: (lines l).1, (lines l).2).
Proof.
  induction line as [|c line IH]; cbn [app lines].
  - intros _. by destruct (lines l).
  - rewrite not_elem_of_cons. intros [Hc Hl]. rewrite IH by done. rewrite (proj2 (Z.eqb_neq _ _)) by congruence. done.
Qed.

Lemma lines_rest_in l x : x ∈ (lines l).2 -> x ∈ l.
Proof.
  induction l as [|c l IH]; cbn [lines]; [done|]. destruct (lines l) as [ls r]. cbn in IH.
  destruct (c =? 10); [right; auto|]. destruct ls; cbn; [|right; auto].
  intros [->|Hx]%elem_of_cons; [left|right; auto].
Qed.

Lemma lines_rest l : 10 ∉ (lines l).2.
Proof.
  induction l as [|c l IH]; cbn [lines]; [apply not_elem_of_nil|]. destruct (lines l) as [ls r]. cbn in IH.
  destruct (Z.eqb_spec c 10); [done|]. destruct ls; [|done]. cbn. apply not_elem_of_cons. split; [congruence|done].
Qed.

Lemma first_newline l : 10 ∈ l -> exists l1 l2, l = l1 ++ 10 :: l2 /\ 10 ∉ l1.
Proof.
  induction l as [|c l IH]; [by intros ?%not_elem_of_nil|]. destruct (decide (c = 10)) as [->|Hc].
  - intros _. exists [], l. split; [done|apply not_elem_of_nil].
  - intros [?|Hl]%elem_of_cons; [congruence|]. destruct (IH Hl) as (l1 & l2 & -> & Hn).
    exists (c :: l1), l2. split; [done|]. apply not_elem_of_cons. split; [congruence|done].
Qed.

(** Induction on the lines of a text. *)
Lemma lines_ind (P : list Z -> Prop) :
  (forall l, 10 ∉ l -> P l) -> (forall line l, 10 ∉ line -> P l -> P (line ++ 10 :: l)) -> forall l, P l.
Proof.
  intros Hnone Hcons l. remember (length l) as n eqn:Hn. revert l Hn. induction n as [n IH] using lt_wf_ind. intros l ->.
  destruct (decide (10 ∈ l)) as [Hin|Hin]; [|by apply Hnone].
  destruct (first_newline l Hin) as (l1 & l2 & -> & Hl1). apply Hcons; [done|]. eapply IH; [|done]. rewrite length_app. cbn. lia.
Qed.

(** Reading on: the rest is the start of the next line. *)
Lemma lines_app l more :
  lines (l ++ more) = ((lines l).1 ++ (lines ((lines l).2 ++ more)).1, (lines ((lines l).2 ++ more)).2).
Proof.
  induction l as [l Hl|line l Hl IH] using lines_ind.
  - rewrite (lines_none l Hl). cbn. by destruct (lines (l ++ more)).
  - rewrite <- app_assoc. cbn [app]. rewrite !lines_cons by done. cbn [fst snd]. rewrite IH. done.
Qed.

(** ** The program *)

(** What [grep] prints of some lines. *)
Definition grep_out (pattern : list Z) (ls : list (list Z)) : list Z :=
  concat ((fun l => l ++ [10]) <$> filter (fun l => match_ pattern l = true) ls).

Lemma grep_out_app pattern l1 l2 : grep_out pattern (l1 ++ l2) = grep_out pattern l1 ++ grep_out pattern l2.
Proof. unfold grep_out. by rewrite filter_app, fmap_app, concat_app. Qed.

Lemma strchr_none l c : 0 ∉ l -> c ∉ l -> strchr l c = None.
Proof.
  induction l as [|x l IH]; [done|]. rewrite !not_elem_of_cons. intros [H0 Hl0] [Hc Hlc]. cbn [strchr].
  rewrite (proj2 (Z.eqb_neq x 0)), (proj2 (Z.eqb_neq x c)) by congruence. auto.
Qed.

Lemma strchr_some l1 l2 c : 0 ∉ l1 -> c ∉ l1 -> c <> 0 -> strchr (l1 ++ c :: l2) c = Some (c :: l2).
Proof.
  intros H0 Hc Hnz. induction l1 as [|x l IH]; cbn [app strchr].
  - rewrite (proj2 (Z.eqb_neq c 0)), Z.eqb_refl by done. done.
  - rewrite !not_elem_of_cons in H0, Hc. destruct H0, Hc. rewrite (proj2 (Z.eqb_neq x 0)), (proj2 (Z.eqb_neq x c)) by congruence. auto.
Qed.

Section Grep.
Context `{Chunks} `{Rounds}.

Lemma grep_lines_eq pattern : forall data fuel w, (length data < fuel)%nat -> 0 ∉ data ->
  run (grep_lines fuel pattern data) w = Done (lines data).2 (io_write 1 (grep_out pattern (lines data).1) w).
Proof.
  induction data as [l Hl|line l Hl IH] using lines_ind; intros fuel w Hf Hz; (destruct fuel as [|fuel]; [lia|]); cbn [grep_lines].
  - rewrite strchr_none, lines_none by done. cbn. by rewrite io_write_nil.
  - apply not_elem_of_app in Hz as [Hz Hz1]. rewrite strchr_some by (done || lia). rewrite lines_cons by done. cbn [fst snd tl length].
    replace (length (line ++ 10%Z :: l) - S (length l))%nat with (length line) by (rewrite length_app; cbn; lia).
    rewrite take_app_length. change (line :: (lines l).1) with ([line] ++ (lines l).1). rewrite grep_out_app, <- io_write_app.
    assert (Hfl : (length l < fuel)%nat) by (rewrite length_app in Hf; cbn in Hf; lia).
    apply not_elem_of_cons in Hz1 as [_ Hz1]. specialize (IH fuel).
    unfold grep_out at 2. destruct (match_ pattern line) eqn:E.
    + rewrite filter_cons_True, filter_nil by done. cbn [fmap list_fmap concat]. rewrite app_nil_r.
      erewrite run_then; [|by cbn]. by rewrite IH.
    + rewrite filter_cons_False, filter_nil by congruence. cbn [fmap list_fmap concat]. rewrite io_write_nil.
      erewrite run_then; [|by cbn]. by rewrite IH.
Qed.

(** The lines fit into the buffer. *)
Definition fits (ls : list (list Z) * list Z) : Prop :=
  Forall (fun l => (length l <= 1022)%nat) ls.1 /\ (length ls.2 <= 1022)%nat.

Lemma fits_rest l more : fits (lines (l ++ more)) -> fits (lines ((lines l).2 ++ more)).
Proof. rewrite lines_app. unfold fits. cbn. rewrite Forall_app. tauto. Qed.

(** A line that is still being read is short enough. *)
Lemma fits_data data more : 10 ∉ data -> fits (lines (data ++ more)) -> (length data <= 1022)%nat.
Proof.
  intros Hd. induction more as [l Hl|line l Hl IH] using lines_ind.
  - rewrite lines_none by (rewrite not_elem_of_app; done). unfold fits. cbn. rewrite length_app. lia.
  - rewrite app_assoc, lines_cons by (rewrite not_elem_of_app; done). unfold fits. cbn.
    rewrite Forall_cons, length_app. lia.
Qed.

Lemma grep_loop pattern : forall n data w, (length w.(io_in) < n)%nat -> 10 ∉ data ->
  0 ∉ data ++ w.(io_in) -> fits (lines (data ++ w.(io_in))) ->
  exists k, run (uloop n (grep_body pattern 0) data) w =
    Done tt (Io [] (w.(io_out) ++ grep_out pattern (lines (data ++ w.(io_in))).1) w.(io_err) k w.(io_execs) w.(io_zombies)).
Proof.
  induction n as [|n IH]; intros data w Hn Hd Hz Hfit; [lia|]. pose proof (fits_data _ _ Hd Hfit) as Hlen.
  rewrite uloop_S. unfold grep_body at 1. cbn [ubind sys]. rewrite run_read.
  set (m := (Z.to_nat (1024 - Z.of_nat (length data) - 1) `min` S (chunk (io_reads w)))%nat).
  assert (Hm : (1 <= m)%nat) by (unfold m; lia).
  change (io_read _ w).1 with (Z.of_nat (length (take m (io_in w))), take m (io_in w)). cbn [fst snd].
  set (w1 := (io_read _ w).2). assert (Ein : io_in w1 = drop m (io_in w)) by done.
  destruct (io_in w) as [|c inp] eqn:Ei.
  { rewrite take_nil. cbn. exists (io_reads w1). f_equal. rewrite app_nil_r in *. rewrite lines_none by done.
    unfold w1, io_read. cbn. rewrite Ei, drop_nil. by rewrite app_nil_r. }
  rewrite <- Ei in *. assert (Hl : (1 <= length (take m (io_in w)))%nat) by (rewrite length_take, Ei; cbn; lia).
  rewrite (proj2 (Z.ltb_lt _ _)) by lia.
  assert (Esp : io_in w = take m (io_in w) ++ io_in w1) by (by rewrite Ein, take_drop).
  assert (Hz1 : 0 ∉ data ++ take m (io_in w)).
  { intros Hin. apply Hz. rewrite Esp, app_assoc, elem_of_app. by left. }
  set (l := data ++ take m (io_in w)) in *.
  pose proof (grep_lines_eq pattern l (S (length l)) w1 (Nat.lt_succ_diag_r _) Hz1) as E.
  assert (El : data ++ io_in w = l ++ io_in w1) by (unfold l; rewrite Esp at 1; by rewrite app_assoc).
  rewrite (run_then _ _ _ _ _ (run_then _ (fun rest => Ret (inl rest)) _ _ _ E)). set (w2 := io_write _ _ w1).
  rewrite El in *. assert (Ein2 : io_in w2 = io_in w1) by done.
  destruct (IH (lines l).2 w2) as [k Ek].
  - rewrite Ein2, Ein, length_drop. rewrite length_take in Hl. lia.
  - apply lines_rest.
  - rewrite Ein2. intros Hin. apply Hz. apply elem_of_app in Hin as [Hin|Hin]; apply elem_of_app; [left|by right].
    by apply lines_rest_in.
  - rewrite Ein2. by apply fits_rest.
  - exists k. rewrite Ek, Ein2, (lines_app l (io_in w1)). cbn [fst]. rewrite grep_out_app. f_equal. f_equal.
    unfold w2, w1, io_write, io_read. cbn. by rewrite app_assoc.
Qed.
End Grep.

#[export] Instance found_dec re text : Decision (found re text).
Proof. refine (cast_if (decide (match_ re text = true))); by rewrite <- match_found. Defined.

Lemma grep_out_found pattern ls : grep_out pattern ls = concat ((fun l => l ++ [10]) <$> filter (found pattern) ls).
Proof. unfold grep_out. do 2 f_equal. apply list_filter_iff. intros l. apply match_found. Qed.

(** ** Properties *)

(** C30: [grep] prints exactly the lines of its input in which the pattern is
    found, in order, and reads the input to its end.  What is found is given by
    the language of the pattern: a character stands for itself, a dot for any
    one, a star for any number of the character before it, a dollar at the end
    for the end of the line, and a caret at the start for its start.  It holds
    however few bytes each [read] returns, for text without NUL whose lines fit
    into the buffer; a last line without a newline is not printed. *)
Theorem grep_spec `{Chunks} `{Rounds} (pattern input : list Z) :
  (length input < rounds)%nat -> 0 ∉ input -> fits (lines input) ->
  exists w, run (grep pattern 0) (io0 input) = Done tt w /\ w.(io_in) = [] /\ w.(io_err) = [] /\
    w.(io_out) = concat ((fun l => l ++ [10]) <$> filter (found pattern) (lines input).1).
Proof.
  intros Hr Hz Hf. destruct (grep_loop pattern rounds [] (io0 input)) as [k E]; [done|apply not_elem_of_nil|done|done|].
  eexists. split; [exact E|]. cbn. by rewrite grep_out_found.
Qed.

#[local] Instance demo_chunks : Chunks := fun k => k.
#[local] Instance demo_rounds : Rounds := 40%nat.

(** Reads of one, two, three, ... bytes. *)
Lemma grep_spec_witness :
  exists w, run (grep (str "^a.*e$") 0) (io0 (str ("apple" ++ newline ++ "grape" ++ newline ++ "ale" ++ newline ++ "axe"))) = Done tt w /\
    w.(io_out) = str ("apple" ++ newline ++ "ale" ++ newline).
Proof.
  destruct (grep_spec (str "^a.*e$") (str ("apple" ++ newline ++ "grape" ++ newline ++ "ale" ++ newline ++ "axe")))
    as (w & E & _ & _ & Eo).
  - vm_compute. lia.
  - by apply (bool_decide_unpack _).
  - by apply (bool_decide_unpack _).
  - exists w. split; [exact E|]. rewrite Eo. vm_compute. reflexivity.
Defined.

(** A line that fills the buffer ends the search: the line after it matches and
    is never looked at. *)
Lemma grep_long_line :
  exists w, run (grep (H := 40%nat) (str "b") 0) (io0 (replicate 1023 97 ++ [10; 98; 10])) (H := fun _ => 2000%nat) = Done tt w /\
    w.(io_out) = [] /\ w.(io_in) = [10; 98; 10].
Proof. eexists. split; [vm_compute; reflexivity|]. done. Qed.
