(* ===== verification/Sh.v ===== *)
(** * The shell (user/sh.c)

    The parser works on the characters of the command line, with pointers into
    it as positions; commands are trees, with a word as the positions of its
    start and its end.  [nulterminate] writes into the line.  The recursion of
    the parser is bounded by [n]. *)

From S2P Require Import Prelude Riscv Memory Spinlock Kalloc Vm Tty Proc ProcSpec Sleeplock Uart Console Pipe Bio Block Log Fs File Sysarg Exec Sysfile User.

Definition MAXARGS : nat := 10.

(** [argv] and [eargv]; [file] and [efile] *)
Inductive cmd :=
| EXEC (argv : list (nat * nat))
| REDIR (c : cmd) (file efile : nat) (mode fd : Z)
| PIPE (left right : cmd)
| LIST (left right : cmd)
| BACK (c : cmd).

(** ** Constructors *)

Definition execcmd : cmd := EXEC [].
Definition redircmd (subcmd : cmd) (file efile : nat) (mode fd : Z) : cmd := REDIR subcmd file efile mode fd.
Definition pipecmd (left right : cmd) : cmd := PIPE left right.
Definition listcmd (left right : cmd) : cmd := LIST left right.
Definition backcmd (subcmd : cmd) : cmd := BACK subcmd.

(** A parser returns, or calls [panic]. *)
Inductive presult (A : Type) : Type := POk (a : A) | PPanic (msg : string) | PFuel.
Arguments POk {A} a.
Arguments PPanic {A} msg.
Arguments PFuel {A}.

Definition pbind {A B : Type} (m : presult A) (f : A -> presult B) : presult B :=
  match m with
  | POk a => f a
  | PPanic msg => PPanic msg
  | PFuel => PFuel
  end.
Declare Scope parse_scope.
Delimit Scope parse_scope with parse.
Notation "x <- m ;; k" := (pbind m (fun x => k))
  (at level 100, m at next level, right associativity) : parse_scope.
#[local] Open Scope parse_scope.

Definition whitespace : list Z := [32; 9; 13; 10; 11].
Definition symbols : list Z := str "<|>&;()".
Definition is_space (c : Z) : bool := bool_decide (strchr whitespace c <> None).
Definition is_symbol (c : Z) : bool := bool_decide (strchr symbols c <> None).

Section Parse.
(** The line; [es] is its end. *)
Context (buf : list Z).
Definition es : nat := length buf.
(** [*s], which is NUL at the end. *)
Definition chr (s : nat) : Z := nth s buf 0.

(** ** Tokens *)

(** [while(s < es && p( *s)) s++;], with [n] characters to go *)
Fixpoint skip_while (p : Z -> bool) (n s : nat) : nat :=
  match n with
  | O => s
  | S n' => if p (chr s) then skip_while p n' (S s) else s
  end.
Definition skip_space (s : nat) : nat := skip_while is_space (es - s) s.
Definition skip_word (s : nat) : nat := skip_while (fun c => negb (is_space c) && negb (is_symbol c)) (es - s) s.

(** The token, its start and end, and the position after it. *)
Definition gettoken (ps : nat) : Z * nat * nat * nat :=
  let q := skip_space ps in
  let c := chr q in
  let '(ret, eq) :=
    if c =? 0 then (c, q)
    else if (c =? 124) || (c =? 40) || (c =? 41) || (c =? 59) || (c =? 38) || (c =? 60) then (c, S q)
    else if c =? 62 then if chr (S q) =? 62 then (43, S (S q)) else (c, S q)
    else (97, skip_word q) in
  (ret, q, eq, skip_space eq).

(** The position moves to the next character that is not a space. *)
Definition peek (ps : nat) (toks : list Z) : bool * nat :=
  let s := skip_space ps in
  (nz (chr s) && bool_decide (strchr toks (chr s) <> None), s).

(** ** Commands *)

(** [while(peek(ps, es, "<>"))] *)
Fixpoint parseredirs (n : nat) (c : cmd) (ps : nat) : presult (cmd * nat) :=
  match n with
  | O => PFuel
  | S n' =>
      let '(more, ps) := peek ps (str "<>") in
      if more then
        let '(tok, _, _, ps) := gettoken ps in
        let '(tok2, q, eq, ps) := gettoken ps in
        if negb (tok2 =? 97) then PPanic "missing file for redirection"
        else
          let c :=
            if tok =? 60 then redircmd c q eq O_RDONLY 0
            else if tok =? 62 then redircmd c q eq (Z.lor (Z.lor O_WRONLY O_CREATE) O_TRUNC) 1
            else if tok =? 43 then redircmd c q eq (Z.lor O_WRONLY O_CREATE) 1
            else c in
          parseredirs n' c ps
      else POk (c, ps)
  end.

(** The redirections around the command that is being filled: [parseredirs]
    on a command that is known only at the end. *)
Fixpoint fill (argv : list (nat * nat)) (c : cmd) : cmd :=
  match c with
  | EXEC _ => EXEC argv
  | REDIR c file efile mode fd => REDIR (fill argv c) file efile mode fd
  | _ => c
  end.

(** [while(!peek(ps, es, "|)&;"))]; [ret] is the command with the
    redirections so far, [argv] its words. *)
Fixpoint parseargs (n : nat) (ret : cmd) (argv : list (nat * nat)) (ps : nat) : presult (cmd * nat) :=
  match n with
  | O => PFuel
  | S n' =>
      let '(stop, ps) := peek ps (str "|)&;") in
      if stop then POk (fill argv ret, ps)
      else
        let '(tok, q, eq, ps) := gettoken ps in
        if tok =? 0 then POk (fill argv ret, ps)
        else if negb (tok =? 97) then PPanic "syntax"
        else
          let argv := argv ++ [(q, eq)] in
          if (MAXARGS <=? length argv)%nat then PPanic "too many args"
          else
            r <- parseredirs n' ret ps ;;
            let '(ret, ps) := r in
            parseargs n' ret argv ps
  end.

(** [while(peek(ps, es, "&"))] *)
Fixpoint parsebacks (n : nat) (c : cmd) (ps : nat) : presult (cmd * nat) :=
  match n with
  | O => PFuel
  | S n' =>
      let '(more, ps) := peek ps (str "&") in
      if more then
        let '(_, _, _, ps) := gettoken ps in
        parsebacks n' (backcmd c) ps
      else POk (c, ps)
  end.

Fixpoint parseline (n : nat) (ps : nat) : presult (cmd * nat) :=
  match n with
  | O => PFuel
  | S n' =>
      r <- parsepipe n' ps ;;
      let '(c, ps) := r in
      r <- parsebacks n' c ps ;;
      let '(c, ps) := r in
      let '(semi, ps) := peek ps (str ";") in
      if semi then
        let '(_, _, _, ps) := gettoken ps in
        x <- parseline n' ps ;;
        let '(r, ps) := x in
        POk (listcmd c r, ps)
      else POk (c, ps)
  end
with parsepipe (n : nat) (ps : nat) : presult (cmd * nat) :=
  match n with
  | O => PFuel
  | S n' =>
      r <- parseexec n' ps ;;
      let '(c, ps) := r in
      let '(bar, ps) := peek ps (str "|") in
      if bar then
        let '(_, _, _, ps) := gettoken ps in
        x <- parsepipe n' ps ;;
        let '(r, ps) := x in
        POk (pipecmd c r, ps)
      else POk (c, ps)
  end
with parseexec (n : nat) (ps : nat) : presult (cmd * nat) :=
  match n with
  | O => PFuel
  | S n' =>
      let '(block, ps) := peek ps (str "(") in
      if block then parseblock n' ps
      else
        r <- parseredirs n' execcmd ps ;;
        let '(ret, ps) := r in
        parseargs n' ret [] ps
  end
with parseblock (n : nat) (ps : nat) : presult (cmd * nat) :=
  match n with
  | O => PFuel
  | S n' =>
      let '(open, ps) := peek ps (str "(") in
      if negb open then PPanic "parseblock"
      else
        let '(_, _, _, ps) := gettoken ps in
        r <- parseline n' ps ;;
        let '(c, ps) := r in
        let '(close, ps) := peek ps (str ")") in
        if negb close then PPanic "syntax - missing )"
        else
          let '(_, _, _, ps) := gettoken ps in
          parseredirs n' c ps
  end.

(** The command of the line, and where it ends. *)
Definition parse (n : nat) : presult (cmd * nat) :=
  r <- parseline n 0 ;;
  let '(c, ps) := r in
  let '(_, ps) := peek ps [] in
  POk (c, ps).
End Parse.

(** ** nulterminate *)

Fixpoint nulterminate (c : cmd) (buf : list Z) : list Z :=
  match c with
  | EXEC argv => foldl (fun b w => <[w.2 := 0]> b) buf argv
  | REDIR c _ efile _ _ => <[efile := 0]> (nulterminate c buf)
  | PIPE l r => nulterminate r (nulterminate l buf)
  | LIST l r => nulterminate r (nulterminate l buf)
  | BACK c => nulterminate c buf
  end.

(** The string at a position of the line. *)
Definition str_at (buf : list Z) (q : nat) : list Z := cstr (drop q buf).

(** ** Running commands *)

Section Run.
Context `{Rounds}.
#[local] Open Scope user_scope.

Definition panic {A : Type} (s : string) : U A := fprintf 2 (nl "%s") [astr (str s)] ;; exit 1.

Definition fork1 : U Z :=
  pid <- sys Fork ;;
  if pid =? -1 then panic "fork" else Ret pid.

(** [line] is the command line with its words terminated; [runcmd] does not
    return. *)
Fixpoint runcmd (line : list Z) (c : cmd) : U unit :=
  match c with
  | EXEC argv =>
      match argv with
      | [] => exit 1
      | w :: _ =>
          sys (Exec (str_at line w.1) ((fun w => str_at line w.1) <$> argv)) ;;
          fprintf 2 (nl "exec %s failed") [astr (str_at line w.1)] ;;
          exit 0
      end
  | REDIR c file _ mode fd =>
      sys (Close fd) ;;
      r <- sys (Open (str_at line file) mode) ;;
      if r <? 0 then fprintf 2 (nl "open %s failed") [astr (str_at line file)] ;; exit 1
      else runcmd line c
  | LIST l r =>
      pid <- fork1 ;;
      if pid =? 0 then runcmd line l
      else sys Wait ;; runcmd line r
  | PIPE lc rc =>
      r <- sys Pipe ;;
      if r.1 <? 0 then panic "pipe"
      else
        let p := r.2 in
        pid <- fork1 ;;
        if pid =? 0 then
          sys (Close 1) ;; sys (Dup p.2) ;; sys (Close p.1) ;; sys (Close p.2) ;;
          runcmd line lc
        else
          pid <- fork1 ;;
          if pid =? 0 then
            sys (Close 0) ;; sys (Dup p.1) ;; sys (Close p.1) ;; sys (Close p.2) ;;
            runcmd line rc
          else
            sys (Close p.1) ;; sys (Close p.2) ;; sys Wait ;; sys Wait ;; exit 0
  | BACK c =>
      pid <- fork1 ;;
      if pid =? 0 then runcmd line c else exit 0
  end.

(** The bound that [parse] needs for a line. *)
Definition parse_fuel (buf : list Z) : nat := 5 * length buf + 5.

(** The command and the line with its words terminated. *)
Definition parsecmd (s : list Z) : U (cmd * list Z) :=
  match parse s (parse_fuel s) with
  | POk (c, ps) =>
      if negb (ps =? es s)%nat then
        fprintf 2 (nl "leftovers: %s") [astr (drop ps s)] ;;
        panic "syntax"
      else Ret (c, nulterminate c s)
  | PPanic msg => panic msg
  | PFuel => Limit
  end.

(** [None] at the end of the input. *)
Definition getcmd (nbuf : Z) : U (option (list Z)) :=
  sys (Write 2 (str "$ ")) ;;
  buf <- gets nbuf ;;
  let line := cstr buf in
  Ret (if bool_decide (line = []) then None else Some line).

(** [while((fd = open("console", O_RDWR)) >= 0)] *)
Definition sh_open (_ : unit) : U (unit + unit) :=
  fd <- sys (Open (str "console") O_RDWR) ;;
  if fd <? 0 then Ret (inr tt)
  else if 3 <=? fd then sys (Close fd) ;; Ret (inr tt)
  else Ret (inl tt).

Definition sh_body (_ : unit) : U (unit + unit) :=
  r <- getcmd 100 ;;
  match r with
  | None => Ret (inr tt)
  | Some buf =>
      if bool_decide (take 3 buf = str "cd ") then
        let dir := drop 3 (take (length buf - 1) buf) in
        r <- sys (Chdir dir) ;;
        (if r <? 0 then fprintf 2 (nl "cannot cd %s") [astr dir] else Ret tt) ;;
        Ret (inl tt)
      else
        pid <- fork1 ;;
        if pid =? 0 then
          p <- parsecmd buf ;;
          runcmd p.2 p.1 ;;
          Ret (inl tt)
        else
          sys Wait ;;
          Ret (inl tt)
  end.

Definition sh_main : U unit :=
  uloop rounds sh_open tt ;;
  uloop rounds sh_body tt ;;
  exit 0.
End Run.
