(* ===== verification/ShThm.v ===== *)
(** * The shell's parser: tokens, grammar, and the words of a command

    [lexes] are the tokens of a line, [g_line] the grammar of commands over
    them.  The recursive-descent parser of user/sh.c accepts exactly the lines
    of the grammar and builds the tree of the derivation. *)

From S2P Require Import Prelude Riscv Memory Spinlock Kalloc Vm Tty Proc ProcSpec Sleeplock Uart Console Pipe Bio Block Log Fs File Sysarg Exec Sysfile User Sh.

(** ** Characters *)

Definition word_char (c : Z) : bool := negb (is_space c) && negb (is_symbol c).

Section Lex.
Context (buf : list Z) (Hbuf : 0 ∉ buf).
Abbreviation es := (es buf).
Abbreviation chr := (chr buf).

Lemma chr_end s : (es <= s)%nat -> chr s = 0.
Proof. intros Hs. unfold Sh.chr. by rewrite nth_overflow. Qed.

Lemma chr_in s : (s < es)%nat -> chr s <> 0.
Proof.
  intros Hs E. apply Hbuf. unfold Sh.chr in E. destruct (lookup_lt_is_Some_2 buf s Hs) as [c Hc].
  rewrite (nth_lookup_Some _ _ 0 _ Hc) in E. subst c. by eapply list_elem_of_lookup_2.
Qed.

Lemma skip_while_spec p n s :
  let s' := skip_while buf p n s in
  (s <= s' <= s + n)%nat /\ (forall i, (s <= i < s')%nat -> p (chr i) = true) /\ ((s' < s + n)%nat -> p (chr s') = false).
Proof.
  revert s. induction n as [|n IH]; intros s; cbn [skip_while]; cbv zeta.
  - split; [lia|]. split; intros; lia.
  - destruct (p (chr s)) eqn:E.
    + destruct (IH (S s)) as (H1 & H2 & H3). split; [lia|]. split; [|intros; apply H3; lia].
      intros i Hi. destruct (decide (i = s)) as [->|]; [done|]. apply H2. lia.
    + split; [lia|]. split; [intros; lia|done].
Qed.

Lemma skip_while_0 p n s : p (chr s) = false -> skip_while buf p n s = s.
Proof. intros Hp. destruct n; cbn; [done|]. by rewrite Hp. Qed.

Lemma is_space_0 : is_space 0 = false.
Proof. done. Qed.
Lemma is_symbol_0 : is_symbol 0 = false.
Proof. done. Qed.

(** Where the next token starts. *)
Lemma skip_space_spec s : (s <= skip_space buf s)%nat /\ is_space (chr (skip_space buf s)) = false.
Proof.
  destruct (skip_while_spec is_space (es - s) s) as (H1 & _ & H3). fold (skip_space buf s) in *. split; [lia|].
  destruct (decide (skip_space buf s < s + (es - s))%nat) as [Hlt|Hge]; [auto|].
  rewrite chr_end; [done|]. lia.
Qed.

Lemma skip_space_le s : (s <= es)%nat -> (skip_space buf s <= es)%nat.
Proof. intros Hs. destruct (skip_while_spec is_space (es - s) s) as (H1 & _ & _). fold (skip_space buf s) in *. lia. Qed.

Lemma skip_space_id s : is_space (chr s) = false -> skip_space buf s = s.
Proof. apply skip_while_0. Qed.

Lemma skip_space_twice s : skip_space buf (skip_space buf s) = skip_space buf s.
Proof. apply skip_space_id, skip_space_spec. Qed.

(** ** Tokens *)

Lemma gettoken_skip s : gettoken buf (skip_space buf s) = gettoken buf s.
Proof. unfold gettoken. by rewrite skip_space_twice. Qed.

Lemma peek_skip s toks : peek buf (skip_space buf s) toks = peek buf s toks.
Proof. unfold peek. by rewrite skip_space_twice. Qed.

Inductive tok := TW (q eq : nat) | TS (c : Z).

Definition tok_of (ret : Z) (q eq : nat) : tok := if ret =? 97 then TW q eq else TS ret.

(** The tokens of the line from a position on. *)
Inductive lexes : nat -> list tok -> Prop :=
| lx_end s q eq s' : (s <= es)%nat -> gettoken buf s = (0, q, eq, s') -> lexes s []
| lx_tok s ret q eq s' ts : gettoken buf s = (ret, q, eq, s') -> ret <> 0 -> lexes s' ts -> lexes s (tok_of ret q eq :: ts).

Lemma lexes_skip s ts : lexes (skip_space buf s) ts <-> lexes s ts.
Proof.
  pose proof (skip_space_spec s) as [Hs _]. pose proof (skip_space_le s) as Hs'.
  split; (intros Hl; inversion Hl; subst; [eapply lx_end|eapply lx_tok]; try done);
    [lia|by rewrite <- gettoken_skip|by rewrite <- gettoken_skip|lia|by rewrite gettoken_skip|by rewrite gettoken_skip].
Qed.

Lemma lexes_fun s ts ts' : lexes s ts -> lexes s ts' -> ts = ts'.
Proof.
  intros Hl. revert ts'. induction Hl as [s q eq s' Hs E|s ret q eq s' ts E Hr Hl IH]; intros ts' Hl'; inversion Hl'; subst; try congruence.
  rewrite E in H. injection H as <- <- <- <-. f_equal. auto.
Qed.

(** The first character tells the token. *)
Definition ret_of (c : Z) (c' : Z) : Z :=
  if c =? 0 then 0
  else if (c =? 124) || (c =? 40) || (c =? 41) || (c =? 59) || (c =? 38) || (c =? 60) then c
  else if c =? 62 then if c' =? 62 then 43 else 62
  else 97.

Lemma gettoken_ret s ret q eq s' : gettoken buf s = (ret, q, eq, s') ->
  q = skip_space buf s /\ ret = ret_of (chr q) (chr (S q)) /\ s' = skip_space buf eq.
Proof.
  unfold gettoken, ret_of. intros E. destruct (Z.eqb_spec (chr (skip_space buf s)) 0) as [E0|E0].
  { injection E as <- <- <- <-. rewrite E0. done. }
  destruct (_ || _ || _ || _ || _ || _) eqn:E1; [injection E as <- <- <- <-; rewrite (proj2 (Z.eqb_neq _ _) E0), E1; done|].
  destruct (Z.eqb_spec (chr (skip_space buf s)) 62) as [E2|E2].
  - destruct (chr (S (skip_space buf s)) =? 62) eqn:E3; injection E as <- <- <- <-; rewrite E2, E3; done.
  - injection E as <- <- <- <-. rewrite (proj2 (Z.eqb_neq _ _) E0), E1, (proj2 (Z.eqb_neq _ _) E2). done.
Qed.

Lemma strchr_in (l : list Z) x : 0 ∉ l -> strchr l x <> None <-> x ∈ l.
Proof.
  induction l as [|c l IH]; [cbn; split; [done|by intros ?%not_elem_of_nil]|]. rewrite not_elem_of_cons. intros [Hc Hl].
  cbn [strchr]. rewrite (proj2 (Z.eqb_neq c 0)) by congruence. rewrite elem_of_cons. destruct (Z.eqb_spec c x) as [->|Hne].
  - split; [by left|done].
  - rewrite IH by done. split; [by right|]. intros [->|?]; done.
Qed.

Lemma is_symbol_in c : is_symbol c = true <-> c ∈ symbols.
Proof. unfold is_symbol. rewrite bool_decide_eq_true. apply strchr_in. by apply (bool_decide_unpack _). Qed.

(** A first character that starts a word. *)
Lemma ret_word c c' : c <> 0 -> ret_of c c' = 97 -> is_symbol c = false.
Proof.
  intros H0 Hr. destruct (is_symbol c) eqn:E; [|done]. apply is_symbol_in in E. unfold symbols in E. cbn in E.
  rewrite !elem_of_cons in E. unfold ret_of in Hr. destruct E as [->|[->|[->|[->|[->|[->|[->|[]%not_elem_of_nil]]]]]]]; try done.
  cbn in Hr. by destruct (c' =? 62).
Qed.

(** A first character that is a symbol is a token of its own, but for [>>]. *)
Lemma ret_symbol c c' : c ∈ symbols -> ret_of c c' <> 0 /\ ret_of c c' <> 97 /\ (if ret_of c c' =? 43 then 62 else ret_of c c') = c.
Proof.
  unfold symbols. cbn. rewrite !elem_of_cons. unfold ret_of. intros [->|[->|[->|[->|[->|[->|[->|[]%not_elem_of_nil]]]]]]]; cbn; try done.
  by destruct (c' =? 62).
Qed.

Lemma ret_not_word c c' : ret_of c c' = 0 \/ ret_of c c' = 97 \/ c ∈ symbols.
Proof.
  unfold ret_of. destruct (Z.eqb_spec c 0) as [->|H0]; [by left|right]. destruct (_ || _ || _ || _ || _ || _) eqn:E1.
  - right. rewrite !orb_true_iff, !Z.eqb_eq in E1. unfold symbols. cbn. rewrite !elem_of_cons. tauto.
  - destruct (Z.eqb_spec c 62) as [->|]; [right|by left]. by apply (bool_decide_unpack _).
Qed.

(** The positions of a word. *)
Record word_ok (q eq : nat) : Prop := {
  wd_range : (q < eq <= es)%nat;
  wd_chars : forall i, (q <= i < eq)%nat -> word_char (chr i) = true;
  wd_end : eq = es \/ word_char (chr eq) = false
}.

Lemma skip_word_ok q : (q < es)%nat -> is_space (chr q) = false -> is_symbol (chr q) = false -> word_ok q (skip_word buf q).
Proof.
  intros Hq Hsp Hsy. destruct (skip_while_spec word_char (es - q) q) as (H1 & H2 & H3).
  change (skip_while buf word_char (es - q) q) with (skip_word buf q) in *.
  assert (Hne : skip_word buf q <> q).
  { intros E. assert (Hf : word_char (chr (skip_word buf q)) = false) by (apply H3; lia). rewrite E in Hf. unfold word_char in Hf. by rewrite Hsp, Hsy in Hf. }
  split; [lia|done|]. destruct (decide (skip_word buf q = es)) as [?|Hn]; [by left|right]. apply H3. lia.
Qed.

Lemma gettoken_ok s ret q eq s' : gettoken buf s = (ret, q, eq, s') -> ret <> 0 ->
  (s <= q)%nat /\ (q < eq <= es)%nat /\ (ret = 97 -> word_ok q eq).
Proof.
  intros E Hr. pose proof (gettoken_ret _ _ _ _ _ E) as (Eq & Er & _). pose proof (skip_space_spec s) as [Hs Hsp]. rewrite <- Eq in Hs, Hsp.
  assert (H0 : chr q <> 0) by (intros E0; apply Hr; rewrite Er; unfold ret_of; by rewrite E0).
  assert (Hq : (q < es)%nat) by (destruct (decide (q < es)%nat); [done|]; destruct H0; apply chr_end; lia).
  split; [done|]. unfold gettoken in E. rewrite <- Eq in E. rewrite (proj2 (Z.eqb_neq _ _) H0) in E.
  unfold ret_of in Er. rewrite (proj2 (Z.eqb_neq _ _) H0) in Er.
  destruct (_ || _ || _ || _ || _ || _) eqn:E1.
  { injection E as <- <- _. split; [lia|]. intros E97. rewrite E97 in E1. done. }
  destruct (Z.eqb_spec (chr q) 62) as [E2|E2].
  - destruct (Z.eqb_spec (chr (S q)) 62) as [E3|E3].
    + injection E as <- <- _. split; [|done]. assert (S q < es)%nat; [|lia]. destruct (decide (S q < es)%nat); [done|].
      rewrite chr_end in E3 by lia. done.
    + injection E as <- <- _. split; [lia|]. rewrite E2. done.
  - injection E as <- <- _. assert (Hsy : is_symbol (chr q) = false).
    { apply (ret_word (chr q) 0 H0). unfold ret_of. by rewrite (proj2 (Z.eqb_neq _ _) H0), E1, (proj2 (Z.eqb_neq _ _) E2). }
    pose proof (skip_word_ok q Hq Hsp Hsy) as Hw. split; [apply Hw|done].
Qed.

Lemma gettoken_next s ret q eq s' : gettoken buf s = (ret, q, eq, s') -> ret <> 0 -> (s < s' <= es)%nat.
Proof.
  intros E Hr. destruct (gettoken_ok s ret q eq s' E Hr) as (H1 & H2 & _). destruct (gettoken_ret _ _ _ _ _ E) as (_ & _ & ->).
  pose proof (skip_space_spec eq) as [H3 _]. pose proof (skip_space_le eq ltac:(lia)). lia.
Qed.

(** Every line has tokens, no more than characters. *)
Lemma lexes_total s : (s <= es)%nat -> exists ts, lexes s ts /\ (length ts <= es - s)%nat.
Proof.
  remember (es - s)%nat as n eqn:En. revert s En. induction n as [n IH] using lt_wf_ind. intros s -> Hs.
  destruct (gettoken buf s) as [[[ret q] eq] s'] eqn:E. destruct (decide (ret = 0)) as [->|Hr].
  - exists []. split; [by eapply lx_end|cbn; lia].
  - pose proof (gettoken_next s ret q eq s' E Hr) as Hn. destruct (IH (es - s')%nat ltac:(lia) s' eq_refl ltac:(lia)) as (ts & Hl & Hlen).
    exists (tok_of ret q eq :: ts). split; [by eapply lx_tok|cbn; lia].
Qed.

Definition tok_in (t : tok) (toks : list Z) : bool :=
  match t with
  | TW _ _ => false
  | TS c => bool_decide ((if c =? 43 then 62 else c) ∈ toks)
  end.

(** [peek] looks at the next token. *)
Lemma peek_lex s ts toks : lexes s ts -> toks ⊆ symbols ->
  peek buf s toks = (match ts with [] => false | t :: _ => tok_in t toks end, skip_space buf s).
Proof.
  intros Hl Hsub. unfold peek. f_equal. assert (H0 : 0 ∉ toks).
  { intros Hin. apply Hsub in Hin. revert Hin. by apply (bool_decide_unpack _). }
  set (c := chr (skip_space buf s)).
  assert (Ec : nz c && bool_decide (strchr toks c <> None) = bool_decide (c ∈ toks)).
  { unfold nz. destruct (Z.eqb_spec c 0) as [->|Hc]; cbn [negb andb]; [symmetry; by apply bool_decide_eq_false|].
    apply bool_decide_ext. by apply strchr_in. }
  rewrite Ec. inversion Hl as [s1 q eq s' Hs E|s1 ret q eq s' ts' E Hr Hl']; subst s1 ts; destruct (gettoken_ret _ _ _ _ _ E) as (Eq & Er & _); rewrite Eq in Er; fold c in Er.
  - apply bool_decide_eq_false. intros Hin. destruct (ret_symbol c (chr (S (skip_space buf s))) (Hsub _ Hin)) as [Hr _]. congruence.
  - unfold tok_of. destruct (Z.eqb_spec ret 97) as [E97|E97]; cbn [tok_in].
    + apply bool_decide_eq_false. intros Hin. destruct (ret_symbol c (chr (S (skip_space buf s))) (Hsub _ Hin)) as (_ & Hr' & _). congruence.
    + apply bool_decide_ext. rewrite Er. split; intros Hin.
      * destruct (ret_symbol c (chr (S (skip_space buf s))) (Hsub _ Hin)) as (_ & _ & ->). done.
      * destruct (ret_not_word c (chr (S (skip_space buf s)))) as [Hz|[Hz|Hsy]]; [congruence|congruence|].
        destruct (ret_symbol _ (chr (S (skip_space buf s))) Hsy) as (_ & _ & Ec'). by rewrite Ec' in Hin.
Qed.

Lemma gettoken_lex s t ts : lexes s (t :: ts) ->
  exists ret q eq s', gettoken buf s = (ret, q, eq, s') /\ ret <> 0 /\ t = tok_of ret q eq /\ lexes s' ts.
Proof. intros Hl. inversion Hl as [|s1 ret q eq s' ts' E Hr Hl']; subst. by exists ret, q, eq, s'. Qed.

Lemma gettoken_sym s c ts : lexes s (TS c :: ts) ->
  exists q eq s', gettoken buf s = (c, q, eq, s') /\ lexes s' ts.
Proof.
  intros Hl. destruct (gettoken_lex _ _ _ Hl) as (ret & q & eq & s' & E & Hr & Et & Hl'). unfold tok_of in Et.
  destruct (ret =? 97); [done|]. injection Et as ->. by exists q, eq, s'.
Qed.

Lemma gettoken_word s q eq ts : lexes s (TW q eq :: ts) ->
  exists s', gettoken buf s = (97, q, eq, s') /\ lexes s' ts.
Proof.
  intros Hl. destruct (gettoken_lex _ _ _ Hl) as (ret & q' & eq' & s' & E & Hr & Et & Hl'). unfold tok_of in Et.
  destruct (Z.eqb_spec ret 97) as [->|]; [|done]. injection Et as -> ->. by exists s'.
Qed.

Lemma gettoken_end s : lexes s [] -> exists q eq s', gettoken buf s = (0, q, eq, s') /\ lexes s' [].
Proof.
  intros Hl. inversion Hl as [s1 q eq s' Hs E|]; subst. exists q, eq, s'. split; [done|].
  assert (Es : s' = skip_space buf s); [|subst s'; by apply lexes_skip].
  destruct (gettoken_ret _ _ _ _ _ E) as (Eq & Er & Es). unfold ret_of in Er. unfold gettoken in E.
  rewrite <- Eq in E. destruct (Z.eqb_spec (chr q) 0) as [E0|E0].
  - injection E as _ <-. rewrite Es, Eq. apply skip_space_twice.
  - destruct (_ || _ || _ || _ || _ || _) eqn:E1; [lia|]. destruct (chr q =? 62); [|done]. by destruct (_ =? 62).
Qed.
End Lex.

(** ** The grammar *)

(** A redirection: its symbol and its file. *)
Abbreviation rdr := (Z * nat * nat)%type.
Definition redir (r : rdr) (c : cmd) : cmd :=
  let '(t, q, eq) := r in
  if t =? 60 then REDIR c q eq O_RDONLY 0
  else if t =? 62 then REDIR c q eq (Z.lor (Z.lor O_WRONLY O_CREATE) O_TRUNC) 1
  else REDIR c q eq (Z.lor O_WRONLY O_CREATE) 1.
Definition redirs (rs : list rdr) (c : cmd) : cmd := foldl (fun c r => redir r c) c rs.
Definition is_redir (t : Z) : Prop := t = 60 \/ t = 62 \/ t = 43.

(** Redirections alone, and words with redirections among them. *)
Inductive g_redirs : list tok -> list rdr -> Prop :=
| gr_nil : g_redirs [] []
| gr_cons t q eq ts rs : is_redir t -> g_redirs ts rs -> g_redirs (TS t :: TW q eq :: ts) ((t, q, eq) :: rs).

Inductive g_words : list tok -> list (nat * nat) -> list rdr -> Prop :=
| gw_nil : g_words [] [] []
| gw_word q eq ts ws rs : g_words ts ws rs -> g_words (TW q eq :: ts) ((q, eq) :: ws) rs
| gw_redir t q eq ts ws rs : is_redir t -> g_words ts ws rs -> g_words (TS t :: TW q eq :: ts) ws ((t, q, eq) :: rs).

(** line = pipe [&]* [[;] line]; pipe = exec [[|] pipe]; exec = words, or a line
    in parentheses with redirections. *)
Inductive g_line : list tok -> cmd -> Prop :=
| gl_one ts n c : g_pipe ts c -> g_line (ts ++ replicate n (TS 38)) (Nat.iter n BACK c)
| gl_semi ts n c ts' c' : g_pipe ts c -> g_line ts' c' ->
    g_line (ts ++ replicate n (TS 38) ++ TS 59 :: ts') (LIST (Nat.iter n BACK c) c')
with g_pipe : list tok -> cmd -> Prop :=
| gp_one ts c : g_exec ts c -> g_pipe ts c
| gp_bar ts c ts' c' : g_exec ts c -> g_pipe ts' c' -> g_pipe (ts ++ TS 124 :: ts') (PIPE c c')
with g_exec : list tok -> cmd -> Prop :=
| ge_words ts ws rs : g_words ts ws rs -> (length ws < MAXARGS)%nat -> g_exec ts (redirs rs (EXEC ws))
| ge_block ts c ts' rs : g_line ts c -> g_redirs ts' rs -> g_exec (TS 40 :: ts ++ TS 41 :: ts') (redirs rs c).

Lemma g_words_redirs ts1 rs1 ts ws rs : g_redirs ts1 rs1 -> g_words ts ws rs -> g_words (ts1 ++ ts) ws (rs1 ++ rs).
Proof. induction 1; cbn; [done|]. intros. constructor; auto. Qed.

Lemma redirs_app rs1 rs2 c : redirs (rs1 ++ rs2) c = redirs rs2 (redirs rs1 c).
Proof. apply foldl_app. Qed.

Lemma fill_redirs argv rs c : fill argv (redirs rs c) = redirs rs (fill argv c).
Proof.
  revert c. induction rs as [|[[t q] eq] rs IH]; intros c; [done|].
  change (fill argv (redirs rs (redir (t, q, eq) c)) = redirs rs (redir (t, q, eq) (fill argv c))). rewrite IH. f_equal. unfold redir.
  destruct (t =? 60); [done|]. by destruct (t =? 62).
Qed.

(** ** What the parser accepts is in the grammar *)

Section Sound.
Context (buf : list Z) (Hbuf : 0 ∉ buf).
Abbreviation lexes := (lexes buf).

Lemma sub_redir : str "<>" ⊆ symbols.
Proof. by apply (bool_decide_unpack _). Qed.
Lemma sub_stop : str "|)&;" ⊆ symbols.
Proof. by apply (bool_decide_unpack _). Qed.
Lemma sub_amp : str "&" ⊆ symbols.
Proof. by apply (bool_decide_unpack _). Qed.

Lemma tok_in_redir t : tok_in t (str "<>") = true -> exists c, t = TS c /\ is_redir c.
Proof.
  destruct t as [q eq|c]; cbn; [done|]. rewrite bool_decide_eq_true, !elem_of_cons. intros Hc. exists c. split; [done|]. unfold is_redir.
  destruct (Z.eqb_spec c 43) as [Ec|Ec]; [tauto|]. destruct Hc as [->|[->|[]%not_elem_of_nil]]; tauto.
Qed.

Lemma redirs_sound n : forall c s c' s' ts, parseredirs buf n c s = POk (c', s') -> lexes s ts ->
  exists ts1 rs ts2, ts = ts1 ++ ts2 /\ g_redirs ts1 rs /\ lexes s' ts2 /\ c' = redirs rs c.
Proof.
  induction n as [|n IH]; intros c s c' s' ts E Hl; [done|]. cbn [parseredirs] in E. rewrite (peek_lex _ _ _ _ Hl sub_redir) in E.
  destruct ts as [|t ts]; [|destruct (tok_in t (str "<>")) eqn:Et].
  - injection E as <- <-. exists [], [], []. split; [done|]. split; [constructor|]. split; [by apply lexes_skip|done].
  - apply tok_in_redir in Et as (x & -> & Hx). apply (lexes_skip buf) in Hl.
    destruct (gettoken_sym _ _ _ _ Hl) as (q1 & eq1 & s1 & E1 & Hl1). rewrite E1 in E.
    destruct (gettoken buf s1) as [[[tok2 q] eq] s2] eqn:E2. destruct (Z.eqb_spec tok2 97) as [->|]; [|done]. cbn [negb] in E.
    destruct ts as [|t2 ts]; [inversion Hl1; congruence|].
    destruct (gettoken_lex _ _ _ _ Hl1) as (ret & q' & eq' & s2' & E2' & Hr & -> & Hl2). rewrite E2 in E2'. injection E2' as <- <- <- <-.
    destruct (IH _ _ _ _ ts E Hl2) as (ts1 & rs & ts2 & -> & Hg & Hl3 & ->).
    exists (TS x :: TW q eq :: ts1), ((x, q, eq) :: rs), ts2. split; [done|]. split; [by constructor|]. split; [done|]. cbn. f_equal.
    unfold redir. destruct Hx as [->|[->| ->]]; done.
  - injection E as <- <-. exists [], [], (t :: ts). split; [done|]. split; [constructor|]. split; [by apply lexes_skip|done].
Qed.

Lemma backs_sound n : forall c s c' s' ts, parsebacks buf n c s = POk (c', s') -> lexes s ts ->
  exists k ts2, ts = replicate k (TS 38) ++ ts2 /\ lexes s' ts2 /\ c' = Nat.iter k BACK c.
Proof.
  induction n as [|n IH]; intros c s c' s' ts E Hl; [done|]. cbn [parsebacks] in E. rewrite (peek_lex _ _ _ _ Hl sub_amp) in E.
  destruct ts as [|t ts]; [|destruct (tok_in t (str "&")) eqn:Et].
  - injection E as <- <-. exists 0%nat, []. split; [done|]. split; [by apply lexes_skip|done].
  - assert (t = TS 38) as ->.
    { destruct t as [|x]; [done|]. cbn in Et. apply bool_decide_eq_true, elem_of_cons in Et. destruct Et as [Et|[]%not_elem_of_nil].
      destruct (Z.eqb_spec x 43) as [Ex|Ex]; [done|]. by rewrite Et. }
    apply (lexes_skip buf) in Hl. destruct (gettoken_sym _ _ _ _ Hl) as (q1 & eq1 & s1 & E1 & Hl1). rewrite E1 in E.
    destruct (IH _ _ _ _ ts E Hl1) as (k & ts2 & -> & Hl2 & ->). exists (S k), ts2. split; [done|]. split; [done|]. by rewrite Nat.iter_succ_r.
  - injection E as <- <-. exists 0%nat, (t :: ts). split; [done|]. split; [by apply lexes_skip|done].
Qed.

Lemma args_sound n : forall ret argv s c s' ts, (length argv < MAXARGS)%nat -> parseargs buf n ret argv s = POk (c, s') -> lexes s ts ->
  exists ts1 ws rs ts2, ts = ts1 ++ ts2 /\ g_words ts1 ws rs /\ lexes s' ts2 /\ c = redirs rs (fill (argv ++ ws) ret) /\
    (length (argv ++ ws) < MAXARGS)%nat.
Proof.
  induction n as [|n IH]; intros ret argv s c s' ts Hargv E Hl; [done|]. cbn [parseargs] in E. rewrite (peek_lex _ _ _ _ Hl sub_stop) in E.
  assert (Hdone : forall sz, lexes sz ts -> POk (fill argv ret, sz) = POk (c, s') -> exists ts1 ws rs ts2, ts = ts1 ++ ts2 /\ g_words ts1 ws rs /\
    lexes s' ts2 /\ c = redirs rs (fill (argv ++ ws) ret) /\ (length (argv ++ ws) < MAXARGS)%nat).
  { intros sz Hsz Ez. injection Ez as <- <-. exists [], [], [], ts. rewrite app_nil_r. split; [done|]. split; [constructor|]. done. }
  apply (lexes_skip buf) in Hl. destruct (match ts with [] => false | t :: _ => tok_in t (str "|)&;") end); [by apply (Hdone _ Hl)|].
  destruct (gettoken buf (skip_space buf s)) as [[[tok q] eq] s1] eqn:E1. destruct (Z.eqb_spec tok 0) as [->|H0].
  { inversion Hl as [sx qx ex sx' Hsx Ex|]; subst; [|congruence]. destruct (gettoken_end buf _ Hl) as (q' & eq' & s1' & E1' & Hl'). rewrite E1 in E1'.
    injection E1' as <- <- <-. by apply (Hdone _ Hl'). }
  destruct (Z.eqb_spec tok 97) as [->|]; [|done]. cbn [negb] in E. destruct (MAXARGS <=? length (argv ++ [(q, eq)]))%nat eqn:Em; [done|].
  apply Nat.leb_gt in Em. destruct (parseredirs buf n ret s1) as [[ret1 s2]| |] eqn:Er; try done. cbn [pbind] in E.
  destruct ts as [|t ts]; [inversion Hl; congruence|].
  destruct (gettoken_lex _ _ _ _ Hl) as (rt & q' & eq' & s1' & E1' & _ & -> & Hl1). rewrite E1 in E1'. injection E1' as <- <- <- <-.
  destruct (redirs_sound n _ _ _ _ ts Er Hl1) as (t1 & r1 & ts' & -> & Hg1 & Hl2 & ->).
  destruct (IH _ _ _ _ _ ts' Em E Hl2) as (t2 & ws & rs & ts2 & -> & Hg2 & Hl3 & -> & Hlen).
  exists (TW q eq :: t1 ++ t2), ((q, eq) :: ws), (r1 ++ rs), ts2. split; [cbn; by rewrite app_assoc|].
  split; [constructor; by apply g_words_redirs|]. split; [done|]. rewrite <- app_assoc in *. cbn [app] in *. split; [|done].
  by rewrite redirs_app, fill_redirs.
Qed.

Definition heads (ts : list tok) (toks : list Z) : bool :=
  match ts with
  | [] => false
  | t :: _ => tok_in t toks
  end.

Lemma peek_heads s ts toks : lexes s ts -> toks ⊆ symbols ->
  peek buf s toks = (heads ts toks, skip_space buf s) /\ lexes (skip_space buf s) ts.
Proof. intros Hl Hsub. split; [by apply peek_lex|by apply lexes_skip]. Qed.

Lemma sub_sym c : c ∈ symbols -> [c] ⊆ symbols.
Proof. intros Hc x. by rewrite list_elem_of_singleton; intros ->. Qed.

(** Looking for one symbol, and taking it. *)
Lemma peek_take s ts c : lexes s ts -> c ∈ symbols -> c <> 62 -> c <> 43 ->
  let s1 := skip_space buf s in
  exists b, peek buf s [c] = (b, s1) /\ lexes s1 ts /\
    if b then exists ts' q eq s2, ts = TS c :: ts' /\ gettoken buf s1 = (c, q, eq, s2) /\ lexes s2 ts' else heads ts [c] = false.
Proof.
  intros Hl Hc H62 H43. cbv zeta. destruct (peek_heads s ts [c] Hl (sub_sym c Hc)) as [Ep Hl1]. exists (heads ts [c]). split; [done|]. split; [done|].
  destruct (heads ts [c]) eqn:Eh; [|done]. destruct ts as [|[q eq|x] ts]; [done|done|]. cbn in Eh.
  apply bool_decide_eq_true, list_elem_of_singleton in Eh. destruct (Z.eqb_spec x 43); [congruence|]. subst x.
  destruct (gettoken_sym _ _ _ _ Hl1) as (q & eq & s2 & Eg & Hl2). by exists ts, q, eq, s2.
Qed.

(** The four parsing functions, by induction on the bound. *)
Definition sound_at (p : nat -> presult (cmd * nat)) (g : list tok -> cmd -> Prop) : Prop :=
  forall s c s' ts, p s = POk (c, s') -> lexes s ts -> exists ts1 ts2, ts = ts1 ++ ts2 /\ g ts1 c /\ lexes s' ts2.

Ltac sym_in := by apply (bool_decide_unpack _).

Lemma exec_sound n : sound_at (parseblock buf n) g_exec -> sound_at (parseexec buf (S n)) g_exec.
Proof.
  intros IH s c s' ts E Hl. cbn [parseexec] in E. change (str "(") with [40] in E.
  destruct (peek_take s ts 40 Hl ltac:(sym_in) ltac:(done) ltac:(done)) as (b & Ep & Hl1 & _). rewrite Ep in E.
  destruct b; [by apply (IH _ _ _ _ E)|]. destruct (parseredirs buf n execcmd _) as [[ret s2]| |] eqn:Er; try done. cbn [pbind] in E.
  destruct (redirs_sound n _ _ _ _ ts Er Hl1) as (t1 & r1 & ts' & -> & Hg1 & Hl2 & ->).
  destruct (args_sound n _ [] _ _ _ ts' ltac:(unfold MAXARGS; cbn; lia) E Hl2) as (t2 & ws & rs & ts2 & -> & Hg2 & Hl3 & -> & Hlen).
  exists (t1 ++ t2), ts2. split; [by rewrite app_assoc|]. split; [|done]. cbn [app] in *. rewrite fill_redirs, <- redirs_app. cbn [fill].
  constructor; [by apply g_words_redirs|done].
Qed.

Lemma block_sound n : sound_at (parseline buf n) g_line -> sound_at (parseblock buf (S n)) g_exec.
Proof.
  intros IH s c s' ts E Hl. cbn [parseblock] in E. change (str "(") with [40] in E. change (str ")") with [41] in E.
  destruct (peek_take s ts 40 Hl ltac:(sym_in) ltac:(done) ltac:(done)) as (b & Ep & Hl1 & Hb). rewrite Ep in E.
  destruct b; cbn [negb] in E; [|done]. destruct Hb as (ts' & q & eq & s2 & -> & Eg & Hl2). rewrite Eg in E.
  destruct (parseline buf n s2) as [[c1 s3]| |] eqn:El; try done. cbn [pbind] in E.
  destruct (IH _ _ _ _ El Hl2) as (t1 & t2 & -> & Hg & Hl3).
  destruct (peek_take s3 t2 41 Hl3 ltac:(sym_in) ltac:(done) ltac:(done)) as (b & Ep' & Hl4 & Hb). rewrite Ep' in E.
  destruct b; cbn [negb] in E; [|done]. destruct Hb as (ts' & q' & eq' & s5 & -> & Eg' & Hl5). rewrite Eg' in E.
  destruct (redirs_sound n _ _ _ _ ts' E Hl5) as (t3 & rs & ts2 & -> & Hg3 & Hl6 & ->).
  exists (TS 40 :: t1 ++ TS 41 :: t3), ts2. split; [cbn; by rewrite <- app_assoc|]. split; [by constructor|done].
Qed.

Lemma pipe_sound n : sound_at (parseexec buf n) g_exec -> sound_at (parsepipe buf n) g_pipe -> sound_at (parsepipe buf (S n)) g_pipe.
Proof.
  intros IHe IHp s c s' ts E Hl. cbn [parsepipe] in E. change (str "|") with [124] in E.
  destruct (parseexec buf n s) as [[c1 s1]| |] eqn:Ee; try done. cbn [pbind] in E. destruct (IHe _ _ _ _ Ee Hl) as (t1 & t2 & -> & Hg & Hl1).
  destruct (peek_take s1 t2 124 Hl1 ltac:(sym_in) ltac:(done) ltac:(done)) as (b & Ep & Hl2 & Hb). rewrite Ep in E. destruct b.
  - destruct Hb as (ts' & q & eq & s3 & -> & Eg & Hl3). rewrite Eg in E. destruct (parsepipe buf n s3) as [[c2 s4]| |] eqn:Er; try done.
    injection E as <- <-. destruct (IHp _ _ _ _ Er Hl3) as (t3 & t4 & -> & Hg3 & Hl4).
    exists (t1 ++ TS 124 :: t3), t4. split; [by rewrite <- app_assoc|]. split; [by constructor|done].
  - injection E as <- <-. exists t1, t2. split; [done|]. split; [by constructor|done].
Qed.

Lemma line_sound n : sound_at (parsepipe buf n) g_pipe -> sound_at (parseline buf n) g_line -> sound_at (parseline buf (S n)) g_line.
Proof.
  intros IHp IHl s c s' ts E Hl. cbn [parseline] in E. change (str ";") with [59] in E.
  destruct (parsepipe buf n s) as [[c1 s1]| |] eqn:Ee; try done. cbn [pbind] in E. destruct (IHp _ _ _ _ Ee Hl) as (t1 & t2 & -> & Hg & Hl1).
  destruct (parsebacks buf n c1 s1) as [[c2 s2]| |] eqn:Eb; try done. cbn [pbind] in E.
  destruct (backs_sound n _ _ _ _ _ Eb Hl1) as (k & t3 & -> & Hl2 & ->).
  destruct (peek_take s2 t3 59 Hl2 ltac:(sym_in) ltac:(done) ltac:(done)) as (b & Ep & Hl3 & Hb). rewrite Ep in E. destruct b.
  - destruct Hb as (ts' & q & eq & s4 & -> & Eg & Hl4). rewrite Eg in E. destruct (parseline buf n s4) as [[c3 s5]| |] eqn:Er; try done.
    injection E as <- <-. destruct (IHl _ _ _ _ Er Hl4) as (t4 & t5 & -> & Hg4 & Hl5).
    exists (t1 ++ replicate k (TS 38) ++ TS 59 :: t4), t5. split; [by rewrite <- !app_assoc|]. split; [by constructor|done].
  - injection E as <- <-. exists (t1 ++ replicate k (TS 38)), t3. split; [by rewrite <- app_assoc|]. split; [by constructor|done].
Qed.

Lemma parse_sound n : sound_at (parseline buf n) g_line /\ sound_at (parsepipe buf n) g_pipe /\
  sound_at (parseexec buf n) g_exec /\ sound_at (parseblock buf n) g_exec.
Proof.
  induction n as [|n (IHl & IHp & IHe & IHb)]; [by repeat split|].
  split; [by apply line_sound|]. split; [by apply pipe_sound|]. split; [by apply exec_sound|by apply block_sound].
Qed.

(** ** The parser ends *)

Lemma redirs_ends n : forall c s ts, lexes s ts -> (length ts < n)%nat -> parseredirs buf n c s <> PFuel.
Proof.
  induction n as [|n IH]; intros c s ts Hl Hn; [lia|]. cbn [parseredirs].
  destruct (peek_heads s ts _ Hl sub_redir) as [-> Hl1]. destruct (heads ts (str "<>")) eqn:Eh; [|done].
  destruct ts as [|t ts]; [done|]. destruct (gettoken_lex _ _ _ _ Hl1) as (r & q & eq & s1 & -> & _ & _ & Hl2).
  destruct (gettoken buf s1) as [[[r2 q2] eq2] s2] eqn:E2. destruct (Z.eqb_spec r2 97) as [->|]; [cbn [negb]|done].
  destruct ts as [|t2 ts]; [inversion Hl2; congruence|]. destruct (gettoken_lex _ _ _ _ Hl2) as (r3 & q3 & eq3 & s3 & E3 & _ & _ & Hl3).
  rewrite E2 in E3. injection E3 as <- <- <- <-. apply (IH _ _ ts Hl3). cbn in Hn. lia.
Qed.

Lemma backs_ends n : forall c s ts, lexes s ts -> (length ts < n)%nat -> parsebacks buf n c s <> PFuel.
Proof.
  induction n as [|n IH]; intros c s ts Hl Hn; [lia|]. cbn [parsebacks].
  destruct (peek_heads s ts _ Hl sub_amp) as [-> Hl1]. destruct (heads ts (str "&")) eqn:Eh; [|done].
  destruct ts as [|t ts]; [done|]. destruct (gettoken_lex _ _ _ _ Hl1) as (r & q & eq & s1 & -> & _ & _ & Hl2).
  apply (IH _ _ ts Hl2). cbn in Hn. lia.
Qed.

Lemma args_ends n : forall ret argv s ts, lexes s ts -> (length ts < n)%nat -> parseargs buf n ret argv s <> PFuel.
Proof.
  induction n as [|n IH]; intros ret argv s ts Hl Hn; [lia|]. cbn [parseargs].
  destruct (peek_heads s ts _ Hl sub_stop) as [-> Hl1]. destruct (heads ts (str "|)&;")) eqn:Eh; [done|].
  destruct ts as [|t ts]; [destruct (gettoken_end buf _ Hl1) as (q & eq & s1 & -> & _); done|].
  destruct (gettoken_lex _ _ _ _ Hl1) as (r & q & eq & s1 & -> & Hr & _ & Hl2). rewrite (proj2 (Z.eqb_neq r 0) Hr).
  destruct (negb (r =? 97)); [done|]. destruct (_ <=? _)%nat; [done|]. cbn in Hn.
  destruct (parseredirs buf n ret s1) as [[ret1 s2]| |] eqn:Er; [|done|by destruct (redirs_ends n ret s1 ts Hl2 ltac:(lia))]. cbn [pbind].
  destruct (redirs_sound n _ _ _ _ ts Er Hl2) as (t1 & r1 & ts' & -> & _ & Hl3 & _). apply (IH _ _ _ ts' Hl3). rewrite length_app in Hn. lia.
Qed.

Definition ends_at (p : nat -> presult (cmd * nat)) (k n : nat) : Prop :=
  forall s ts, lexes s ts -> (4 * length ts + k <= n)%nat -> p s <> PFuel.

Lemma exec_ends n : ends_at (parseblock buf n) 1 n -> ends_at (parseexec buf (S n)) 2 (S n).
Proof.
  intros IH s ts Hl Hn. cbn [parseexec]. change (str "(") with [40].
  destruct (peek_take s ts 40 Hl ltac:(sym_in) ltac:(done) ltac:(done)) as (b & -> & Hl1 & _).
  destruct b; [apply (IH _ ts Hl1); lia|]. destruct (parseredirs buf n execcmd _) as [[ret s2]| |] eqn:Er; [|done|by eapply redirs_ends in Er; [|done|lia]].
  cbn [pbind]. destruct (redirs_sound n _ _ _ _ ts Er Hl1) as (t1 & r1 & ts' & -> & _ & Hl2 & _). apply (args_ends n _ _ _ ts' Hl2).
  rewrite length_app in Hn. lia.
Qed.

Lemma block_ends n : ends_at (parseline buf n) 4 n -> ends_at (parseblock buf (S n)) 1 (S n).
Proof.
  intros IH s ts Hl Hn. cbn [parseblock]. change (str "(") with [40]. change (str ")") with [41].
  destruct (peek_take s ts 40 Hl ltac:(sym_in) ltac:(done) ltac:(done)) as (b & -> & Hl1 & Hb).
  destruct b; cbn [negb]; [|done]. destruct Hb as (ts' & q & eq & s2 & -> & -> & Hl2). cbn in Hn.
  destruct (parseline buf n s2) as [[c1 s3]| |] eqn:El; [|done|by eapply IH in El; [|done|lia]]. cbn [pbind].
  destruct (proj1 (parse_sound n) _ _ _ _ El Hl2) as (t1 & t2 & -> & _ & Hl3).
  destruct (peek_take s3 t2 41 Hl3 ltac:(sym_in) ltac:(done) ltac:(done)) as (b & -> & Hl4 & Hb).
  destruct b; cbn [negb]; [|done]. destruct Hb as (ts' & q' & eq' & s5 & -> & -> & Hl5). rewrite length_app in Hn. cbn in Hn.
  apply (redirs_ends n _ _ ts' Hl5). lia.
Qed.

Lemma parsepipe_ends n : ends_at (parseexec buf n) 2 n -> ends_at (parsepipe buf n) 3 n -> ends_at (parsepipe buf (S n)) 3 (S n).
Proof.
  intros IHe IHp s ts Hl Hn. cbn [parsepipe]. change (str "|") with [124].
  destruct (parseexec buf n s) as [[c1 s1]| |] eqn:Ee; [|done|by eapply IHe in Ee; [|done|lia]]. cbn [pbind].
  destruct (proj1 (proj2 (proj2 (parse_sound n))) _ _ _ _ Ee Hl) as (t1 & t2 & -> & _ & Hl1).
  destruct (peek_take s1 t2 124 Hl1 ltac:(sym_in) ltac:(done) ltac:(done)) as (b & -> & Hl2 & Hb). destruct b; [|done].
  destruct Hb as (ts' & q & eq & s3 & -> & -> & Hl3). rewrite length_app in Hn. cbn in Hn.
  destruct (parsepipe buf n s3) as [[c2 s4]| |] eqn:Er; [done|done|by eapply IHp in Er; [|done|lia]].
Qed.

Lemma line_ends n : ends_at (parsepipe buf n) 3 n -> ends_at (parseline buf n) 4 n -> ends_at (parseline buf (S n)) 4 (S n).
Proof.
  intros IHp IHl s ts Hl Hn. cbn [parseline]. change (str ";") with [59].
  destruct (parsepipe buf n s) as [[c1 s1]| |] eqn:Ee; [|done|by eapply IHp in Ee; [|done|lia]]. cbn [pbind].
  destruct (proj1 (proj2 (parse_sound n)) _ _ _ _ Ee Hl) as (t1 & t2 & -> & _ & Hl1). rewrite length_app in Hn.
  destruct (parsebacks buf n c1 s1) as [[c2 s2]| |] eqn:Eb; [|done|by eapply backs_ends in Eb; [|done|lia]]. cbn [pbind].
  destruct (backs_sound n _ _ _ _ _ Eb Hl1) as (k & t3 & -> & Hl2 & _). rewrite length_app in Hn.
  destruct (peek_take s2 t3 59 Hl2 ltac:(sym_in) ltac:(done) ltac:(done)) as (b & -> & Hl3 & Hb). destruct b; [|done].
  destruct Hb as (ts' & q & eq & s4 & -> & -> & Hl4). cbn in Hn.
  destruct (parseline buf n s4) as [[c3 s5]| |] eqn:Er; [done|done|by eapply IHl in Er; [|done|lia]].
Qed.

Lemma parse_ends n : ends_at (parseline buf n) 4 n /\ ends_at (parsepipe buf n) 3 n /\
  ends_at (parseexec buf n) 2 n /\ ends_at (parseblock buf n) 1 n.
Proof.
  induction n as [|n (IHl & IHp & IHe & IHb)]; [repeat split; intros ????; lia|].
  split; [by apply line_ends|]. split; [by apply parsepipe_ends|]. split; [by apply exec_ends|by apply block_ends].
Qed.

(** ** What is in the grammar is accepted *)

(** What may follow a command, a pipeline and a line. *)
Definition stops (ts : list tok) (toks : list Z) : Prop := ts = [] \/ heads ts toks = true.

Lemma stops_sub ts l l' : l ⊆ l' -> stops ts l -> stops ts l'.
Proof.
  intros Hs [->|Ht]; [by left|right]. destruct ts as [|[q eq|c] ts]; [done|done|]. cbn in *.
  rewrite bool_decide_eq_true in *. auto.
Qed.

Lemma stops_not ts l l' : Forall (fun x => x ∉ l') l -> stops ts l -> heads ts l' = false.
Proof.
  intros Hs [->|Ht]; [done|]. destruct ts as [|[q eq|c] ts]; [done|done|]. cbn in *.
  apply bool_decide_eq_true in Ht. apply bool_decide_eq_false. rewrite Forall_forall in Hs. auto.
Qed.

Lemma args_complete ts1 ws rs : g_words ts1 ws rs -> forall n m ret argv s ts2, lexes s (ts1 ++ ts2) -> stops ts2 (str "|)&;") ->
  (length (argv ++ ws) < MAXARGS)%nat -> (length (ts1 ++ ts2) < n)%nat -> (length (ts1 ++ ts2) < m)%nat ->
  exists s', pbind (parseredirs buf m ret s) (fun r => let '(ret, ps) := r in parseargs buf n ret argv ps) = POk (redirs rs (fill (argv ++ ws) ret), s') /\ lexes s' ts2.
Proof.
  induction 1 as [|q eq ts ws rs Hg IH|t q eq ts ws rs Ht Hg IH]; intros n m ret argv s ts2 Hl Hs Ha Hn Hm;
    (destruct n as [|n]; [lia|]); (destruct m as [|m]; [lia|]); cbn [app] in *; cbn [parseredirs];
    destruct (peek_heads s _ _ Hl sub_redir) as [-> Hl1].
  - rewrite (stops_not ts2 (str "|)&;")) by (done || sym_in). cbn [pbind parseargs]. rewrite app_nil_r.
    destruct (peek_heads _ _ _ Hl1 sub_stop) as [-> Hl2]. destruct Hs as [->|Hs].
    + destruct (gettoken_end buf _ Hl2) as (q & eq & s3 & -> & Hl3). by exists s3.
    + rewrite Hs. by eexists.
  - cbn [heads tok_in pbind parseargs]. destruct (peek_heads _ _ _ Hl1 sub_stop) as [-> Hl2]. cbn [heads tok_in].
    destruct (gettoken_word _ _ _ _ _ Hl2) as (s3 & -> & Hl3). cbn [Z.eqb Pos.eqb negb]. rewrite length_app in Ha. cbn in Ha.
    rewrite (proj2 (Nat.leb_gt _ _)) by (rewrite length_app; cbn; lia). cbn in Hn, Hm.
    destruct (IH n n ret (argv ++ [(q, eq)]) s3 ts2 Hl3 Hs) as (s' & E & Hl'); [rewrite !length_app; cbn; lia|lia|lia|].
    exists s'. rewrite <- app_assoc in E. done.
  - assert (Eh : heads (TS t :: TW q eq :: ts ++ ts2) (str "<>") = true) by (destruct Ht as [->|[->| ->]]; done). rewrite Eh.
    destruct (gettoken_sym _ _ _ _ Hl1) as (q1 & eq1 & s1 & -> & Hl2). destruct (gettoken_word _ _ _ _ _ Hl2) as (s3 & -> & Hl3).
    cbn [Z.eqb Pos.eqb negb]. cbn in Hn, Hm. destruct (IH (S n) m (redir (t, q, eq) ret) argv s3 ts2 Hl3 Hs Ha) as (s' & E & Hl'); [lia|lia|].
    exists s'. split; [|done]. rewrite (fill_redirs _ [(t, q, eq)] ret : fill _ (redir (t, q, eq) ret) = _) in E.
    refine (eq_trans _ E). destruct Ht as [->|[->| ->]]; done.
Qed.

Lemma redirs_complete ts1 rs : g_redirs ts1 rs -> forall m c s ts2, lexes s (ts1 ++ ts2) -> heads ts2 (str "<>") = false ->
  (length (ts1 ++ ts2) < m)%nat -> exists s', parseredirs buf m c s = POk (redirs rs c, s') /\ lexes s' ts2.
Proof.
  induction 1 as [|t q eq ts rs Ht Hg IH]; intros m c s ts2 Hl Hs Hm; (destruct m as [|m]; [lia|]); cbn [app] in *; cbn [parseredirs];
    destruct (peek_heads s _ _ Hl sub_redir) as [-> Hl1].
  - rewrite Hs. by eexists.
  - assert (Eh : heads (TS t :: TW q eq :: ts ++ ts2) (str "<>") = true) by (destruct Ht as [->|[->| ->]]; done). rewrite Eh.
    destruct (gettoken_sym _ _ _ _ Hl1) as (q1 & eq1 & s1 & -> & Hl2). destruct (gettoken_word _ _ _ _ _ Hl2) as (s3 & -> & Hl3).
    cbn [Z.eqb Pos.eqb negb]. cbn in Hm. destruct (IH m (redir (t, q, eq) c) s3 ts2 Hl3 Hs) as (s' & E & Hl'); [lia|].
    exists s'. split; [|done]. change (redirs ((t, q, eq) :: rs) c) with (redirs rs (redir (t, q, eq) c)). rewrite <- E. destruct Ht as [->|[->| ->]]; done.
Qed.

Lemma backs_complete k : forall m c s ts2, lexes s (replicate k (TS 38) ++ ts2) -> heads ts2 (str "&") = false ->
  (k + length ts2 < m)%nat -> exists s', parsebacks buf m c s = POk (Nat.iter k BACK c, s') /\ lexes s' ts2.
Proof.
  induction k as [|k IH]; intros m c s ts2 Hl Hs Hm; (destruct m as [|m]; [lia|]); cbn [app replicate] in *; cbn [parsebacks];
    destruct (peek_heads s _ _ Hl sub_amp) as [-> Hl1].
  - rewrite Hs. by eexists.
  - assert (Eh : forall ts, heads (TS 38 :: ts) (str "&") = true) by done. rewrite Eh. destruct (gettoken_sym _ _ _ _ Hl1) as (q1 & eq1 & s1 & -> & Hl2).
    destruct (IH m (BACK c) s1 ts2 Hl2 Hs) as (s' & E & Hl'); [lia|]. exists s'. by rewrite Nat.iter_succ_r.
Qed.

Definition complete_at (p : nat -> nat -> presult (cmd * nat)) (k : nat) (follow : list Z) (ts1 : list tok) (c : cmd) : Prop :=
  forall n s ts2, lexes s (ts1 ++ ts2) -> stops ts2 follow -> (4 * length (ts1 ++ ts2) + k <= n)%nat ->
  exists s', p n s = POk (c, s') /\ lexes s' ts2.

Lemma peek_no s ts c : lexes s ts -> heads ts [c] = false -> c ∈ symbols ->
  peek buf s [c] = (false, skip_space buf s) /\ lexes (skip_space buf s) ts.
Proof. intros Hl Hh Hc. destruct (peek_heads s ts [c] Hl (sub_sym c Hc)) as [-> Hl1]. by rewrite Hh. Qed.

Lemma peek_yes s ts c : lexes s (TS c :: ts) -> c ∈ symbols -> c <> 62 -> c <> 43 ->
  exists q eq s2, peek buf s [c] = (true, skip_space buf s) /\ gettoken buf (skip_space buf s) = (c, q, eq, s2) /\ lexes s2 ts.
Proof.
  intros Hl Hc H62 H43. destruct (peek_take s _ c Hl Hc H62 H43) as (b & Ep & Hl1 & Hb). destruct b.
  - destruct Hb as (ts' & q & eq & s2 & [= <-] & Eg & Hl2). by exists q, eq, s2.
  - cbn in Hb. apply bool_decide_eq_false in Hb. rewrite (proj2 (Z.eqb_neq c 43) H43) in Hb. destruct Hb. by apply list_elem_of_singleton.
Qed.

Lemma words_complete ts ws rs : g_words ts ws rs -> (length ws < MAXARGS)%nat ->
  complete_at (parseexec buf) 2 (str "|)&;") ts (redirs rs (EXEC ws)).
Proof.
  intros Hg Hw n s ts2 Hl Hs Hn. destruct n as [|n]; [lia|]. cbn [parseexec]. change (str "(") with [40].
  assert (Hh : heads (ts ++ ts2) [40] = false).
  { destruct Hg as [|q eq ts ws rs Hg|t q eq ts ws rs [->|[->| ->]] Hg]; try done. cbn [app]. by apply (stops_not ts2 (str "|)&;")); [sym_in|]. }
  destruct (peek_no s _ 40 Hl Hh ltac:(sym_in)) as [-> Hl1].
  by apply (args_complete _ _ _ Hg n n execcmd [] _ ts2 Hl1 Hs Hw); lia.
Qed.

Lemma block_complete ts c ts' rs : complete_at (parseline buf) 4 (str ")") ts c -> g_redirs ts' rs ->
  complete_at (parseexec buf) 2 (str "|)&;") (TS 40 :: ts ++ TS 41 :: ts') (redirs rs c).
Proof.
  intros IH Hg n s ts2 Hl Hs Hn. destruct n as [|[|n]]; [lia|lia|]. cbn [parseexec parseblock]. change (str "(") with [40]. change (str ")") with [41].
  cbn [app] in *. rewrite <- app_assoc in *. cbn [app] in *.
  destruct (peek_yes s _ 40 Hl ltac:(sym_in) ltac:(done) ltac:(done)) as (q & eq & s2 & -> & Eg & Hl2). rewrite peek_skip.
  destruct (peek_yes s _ 40 Hl ltac:(sym_in) ltac:(done) ltac:(done)) as (q' & eq' & s2' & -> & _ & _). cbn [negb]. rewrite Eg. cbn [length] in Hn.
  destruct (IH n s2 _ Hl2) as (s3 & -> & Hl3); [by right|lia|]. cbn [pbind].
  destruct (peek_yes s3 _ 41 Hl3 ltac:(sym_in) ltac:(done) ltac:(done)) as (q3 & eq3 & s4 & -> & -> & Hl4). cbn [negb].
  apply (redirs_complete _ _ Hg n c s4 ts2 Hl4); [by apply (stops_not ts2 (str "|)&;")); [sym_in|]|]. rewrite length_app in Hn. cbn [length] in Hn. lia.
Qed.

Lemma one_complete ts c : complete_at (parseexec buf) 2 (str "|)&;") ts c -> complete_at (parsepipe buf) 3 (str ")&;") ts c.
Proof.
  intros IH n s ts2 Hl Hs Hn. destruct n as [|n]; [lia|]. cbn [parsepipe]. change (str "|") with [124].
  destruct (IH n s ts2 Hl) as (s1 & -> & Hl1); [by eapply stops_sub; [|done]; sym_in|lia|]. cbn [pbind].
  destruct (peek_no s1 _ 124 Hl1) as [-> Hl2]; [by apply (stops_not ts2 (str ")&;")); [sym_in|]|sym_in|]. by eexists.
Qed.

Lemma bar_complete ts c ts' c' : complete_at (parseexec buf) 2 (str "|)&;") ts c -> complete_at (parsepipe buf) 3 (str ")&;") ts' c' ->
  complete_at (parsepipe buf) 3 (str ")&;") (ts ++ TS 124 :: ts') (PIPE c c').
Proof.
  intros IH IH' n s ts2 Hl Hs Hn. destruct n as [|n]; [lia|]. cbn [parsepipe]. change (str "|") with [124].
  rewrite <- app_assoc in *. cbn [app] in *. destruct (IH n s _ Hl) as (s1 & -> & Hl1); [by right|lia|]. cbn [pbind].
  destruct (peek_yes s1 _ 124 Hl1 ltac:(sym_in) ltac:(done) ltac:(done)) as (q & eq & s2 & -> & -> & Hl2). rewrite length_app in Hn. cbn [length] in Hn.
  destruct (IH' n s2 ts2 Hl2 Hs) as (s3 & -> & Hl3); [lia|]. by exists s3.
Qed.

(** A pipeline and the [&]s after it. *)
Lemma backs_after ts c k : complete_at (parsepipe buf) 3 (str ")&;") ts c ->
  forall n s ts2, lexes s (ts ++ replicate k (TS 38) ++ ts2) -> stops ts2 (str ");") -> (4 * length (ts ++ replicate k (TS 38) ++ ts2) + 3 <= n)%nat ->
  exists s', pbind (parsepipe buf n s) (fun r => let '(c, ps) := r in parsebacks buf n c ps) = POk (Nat.iter k BACK c, s') /\ lexes s' ts2.
Proof.
  intros IH n s ts2 Hl Hs Hn. destruct (IH n s _ Hl) as (s1 & -> & Hl1); [|lia|].
  { destruct k; cbn [replicate app]; [|by right]. eapply stops_sub; [|done]. sym_in. }
  cbn [pbind]. apply (backs_complete k n c s1 ts2 Hl1); [by apply (stops_not ts2 (str ");")); [sym_in|]|]. rewrite !length_app, length_replicate in Hn. lia.
Qed.

Lemma line_eq n s : parseline buf (S n) s =
  pbind (pbind (parsepipe buf n s) (fun r => let '(c, ps) := r in parsebacks buf n c ps)) (fun r =>
    let '(c, ps) := r in
    let '(semi, ps) := peek buf ps [59] in
    if semi then let '(_, _, _, ps) := gettoken buf ps in pbind (parseline buf n ps) (fun x => let '(r, ps) := x in POk (LIST c r, ps))
    else POk (c, ps)).
Proof. cbn [parseline]. by destruct (parsepipe buf n s) as [[c s1]| |]. Qed.

Lemma line_one_complete ts k c : complete_at (parsepipe buf) 3 (str ")&;") ts c ->
  complete_at (parseline buf) 4 (str ")") (ts ++ replicate k (TS 38)) (Nat.iter k BACK c).
Proof.
  intros IH n s ts2 Hl Hs Hn. destruct n as [|n]; [lia|]. rewrite line_eq. rewrite <- app_assoc in *.
  destruct (backs_after ts c k IH n s ts2 Hl) as (s1 & -> & Hl1); [by eapply stops_sub; [|done]; sym_in|lia|]. cbn [pbind].
  destruct (peek_no s1 _ 59 Hl1) as [-> Hl2]; [by apply (stops_not ts2 (str ")")); [sym_in|]|sym_in|]. by eexists.
Qed.

Lemma line_semi_complete ts k c ts' c' : complete_at (parsepipe buf) 3 (str ")&;") ts c -> complete_at (parseline buf) 4 (str ")") ts' c' ->
  complete_at (parseline buf) 4 (str ")") (ts ++ replicate k (TS 38) ++ TS 59 :: ts') (LIST (Nat.iter k BACK c) c').
Proof.
  intros IH IH' n s ts2 Hl Hs Hn. destruct n as [|n]; [lia|]. rewrite line_eq. rewrite <- !app_assoc in *. cbn [app] in *.
  destruct (backs_after ts c k IH n s _ Hl) as (s1 & -> & Hl1); [by right|lia|]. cbn [pbind].
  destruct (peek_yes s1 _ 59 Hl1 ltac:(sym_in) ltac:(done) ltac:(done)) as (q & eq & s2 & -> & -> & Hl2). rewrite !length_app in Hn. cbn [length] in Hn.
  destruct (IH' n s2 ts2 Hl2 Hs) as (s3 & -> & Hl3); [lia|]. by exists s3.
Qed.

Scheme g_line_mind := Induction for g_line Sort Prop
with g_pipe_mind := Induction for g_pipe Sort Prop
with g_exec_mind := Induction for g_exec Sort Prop.

Lemma line_complete ts c : g_line ts c -> complete_at (parseline buf) 4 (str ")") ts c.
Proof.
  apply (g_line_mind (fun ts c _ => complete_at (parseline buf) 4 (str ")") ts c) (fun ts c _ => complete_at (parsepipe buf) 3 (str ")&;") ts c)
    (fun ts c _ => complete_at (parseexec buf) 2 (str "|)&;") ts c)); intros.
  - by apply line_one_complete.
  - by apply line_semi_complete.
  - by apply one_complete.
  - by apply bar_complete.
  - by apply words_complete.
  - by apply block_complete.
Qed.

(** ** The whole line *)

Lemma lexes_end s ts : lexes s ts -> (ts = [] <-> skip_space buf s = es buf).
Proof.
  intros Hl. split.
  - intros ->. inversion Hl as [s1 q eq s' Hs E|]; subst. destruct (gettoken_ret _ _ _ _ _ _ E) as (Eq & Er & _).
    pose proof (skip_space_le buf s Hs) as Hle. destruct (decide (skip_space buf s = es buf)) as [|Hne]; [done|].
    destruct (chr_in buf Hbuf (skip_space buf s) ltac:(lia)). rewrite Eq in Er. revert Er. unfold ret_of. case_match eqn:E0; [lia|].
    repeat case_match; lia.
  - intros Es. inversion Hl as [|s1 ret q eq s' ts' E Hr Hl']; subst; [done|]. destruct (gettoken_ret _ _ _ _ _ _ E) as (Eq & Er & _).
    rewrite Eq, Es, (chr_end buf (es buf)) in Er by lia. done.
Qed.

Lemma parse_iff c : parse buf (parse_fuel buf) = POk (c, es buf) <-> exists ts, lexes 0 ts /\ g_line ts c.
Proof.
  unfold parse. destruct (lexes_total buf 0 ltac:(lia)) as (ts & Hl & Hlen). split.
  - destruct (parseline buf _ 0) as [[c' s']| |] eqn:E; try done. cbn [pbind]. unfold peek. intros [= -> Es].
    destruct (proj1 (parse_sound _) _ _ _ _ E Hl) as (t1 & t2 & -> & Hg & Hl2). apply (lexes_end _ _ Hl2) in Es. subst t2.
    rewrite app_nil_r in Hl. by exists t1.
  - intros (ts' & Hl' & Hg). pose proof (lexes_fun _ _ _ _ Hl Hl') as <-.
    destruct (line_complete ts c Hg (parse_fuel buf) 0%nat []) as (s' & -> & Hls); [by rewrite app_nil_r|by left|rewrite app_nil_r; unfold parse_fuel, es in *; lia|].
    cbn [pbind]. unfold peek. by rewrite (proj1 (lexes_end _ _ Hls) eq_refl).
Qed.

Lemma parse_bound n : (parse_fuel buf <= n)%nat -> parse buf n <> PFuel.
Proof.
  intros Hn. unfold parse. destruct (lexes_total buf 0 ltac:(lia)) as (ts & Hl & Hlen).
  destruct (parseline buf n 0) as [[c' s']| |] eqn:E; try done. destruct (proj1 (parse_ends n) 0%nat ts Hl); [|done].
  unfold parse_fuel, es in *. lia.
Qed.
End Sound.

(** ** More fuel changes nothing *)

Section Mono.
Context (buf : list Z).


Definition mono_at (n : nat) (p : nat -> nat -> presult (cmd * nat)) : Prop :=
  forall m s, (n <= m)%nat -> p n s <> PFuel -> p m s = p n s.

Lemma pbind_mono {A B} (m m' : presult A) (f f' : A -> presult B) : pbind m f <> PFuel -> (m <> PFuel -> m' = m) ->
  (forall a, f a <> PFuel -> f' a = f a) -> pbind m' f' = pbind m f.
Proof. destruct m; intros Hn Hm Hf; cbn in *; [rewrite Hm by done; cbn; auto|by rewrite Hm|done]. Qed.

(** The same look at the line on both sides. *)
Ltac mono_step :=
  match goal with
  | |- context [peek buf ?s ?l] => destruct (peek buf s l) as [[] ?]; cbn [negb]
  | |- context [gettoken buf ?s] => destruct (gettoken buf s) as [[[? ?] ?] ?]
  end.

Lemma redirs_mono n : forall c, mono_at n (fun n => parseredirs buf n c).
Proof.
  induction n as [|n IH]; intros c m s Hm; [done|]. destruct m as [|m]; [lia|]. cbn [parseredirs].
  repeat mono_step; try done. destruct (negb _); [done|]. apply IH. lia.
Qed.

Lemma backs_mono n : forall c, mono_at n (fun n => parsebacks buf n c).
Proof.
  induction n as [|n IH]; intros c m s Hm; [done|]. destruct m as [|m]; [lia|]. cbn [parsebacks].
  repeat mono_step; try done. apply IH. lia.
Qed.

Lemma args_mono n : forall ret argv, mono_at n (fun n => parseargs buf n ret argv).
Proof.
  induction n as [|n IH]; intros ret argv m s Hm; [done|]. destruct m as [|m]; [lia|]. cbn [parseargs].
  repeat mono_step; try done. do 3 (case_match; [done|]). intros Hn. apply pbind_mono; [done|by apply redirs_mono; lia|].
  intros [ret1 s1]. apply IH. lia.
Qed.

Lemma parse_mono n : mono_at n (parseline buf) /\ mono_at n (parsepipe buf) /\ mono_at n (parseexec buf) /\ mono_at n (parseblock buf).
Proof.
  induction n as [|n (IHl & IHp & IHe & IHb)]; [by repeat split; intros ?|].
  repeat split; (intros [|m] s Hm; [lia|]); apply le_S_n in Hm; cbn [parseline parsepipe parseexec parseblock].
  - intros Hn. apply pbind_mono; [done|by apply IHp|]. intros [c1 s1] Hn1. apply pbind_mono; [done|by apply backs_mono|].
    intros [c2 s2]. mono_step; [|done]. mono_step. intros Hn2. apply pbind_mono; [done|by apply IHl|]. by intros [c3 s3].
  - intros Hn. apply pbind_mono; [done|by apply IHe|]. intros [c1 s1]. mono_step; [|done]. mono_step.
    intros Hn2. apply pbind_mono; [done|by apply IHp|]. by intros [c3 s3].
  - mono_step; [by apply IHb|]. intros Hn. apply pbind_mono; [done|by apply redirs_mono|]. intros [c1 s1]. by apply args_mono.
  - mono_step; [|done]. mono_step. intros Hn. apply pbind_mono; [done|by apply IHl|]. intros [c1 s1].
    mono_step; [|done]. mono_step. by apply redirs_mono.
Qed.
End Mono.

(** C26: The shell's recursive-descent parser ends on every command line: with
    any bound on the depth of the recursion from [parse_fuel] on, which is
    linear in the length of the line, it returns a command or reports a syntax
    error, and which of them it does and with what does not depend on the
    bound. *)
Theorem sh_parse_ends buf : 0 ∉ buf ->
  exists r, r <> PFuel /\ forall n, (parse_fuel buf <= n)%nat -> parse buf n = r.
Proof.
  intros Hbuf. exists (parse buf (parse_fuel buf)). split; [by apply parse_bound|]. intros n Hn.
  pose proof (parse_bound buf (parse_fuel buf) ltac:(lia)) as Hne. unfold parse in *. apply pbind_mono; [done|by apply parse_mono|done].
Qed.

Lemma sh_parse_ends_witness : exists r, r <> PFuel /\ forall n, (parse_fuel (str "ls (") <= n)%nat -> parse (str "ls (") n = r.
Proof. apply (sh_parse_ends (str "ls (")). by apply (bool_decide_unpack _). Defined.

(** C16: The shell's parser recognises exactly its grammar, and builds the
    command of the derivation: it accepts a whole line with a command if and
    only if the tokens of the line derive that command as [g_line]: pipelines
    of commands with redirections and up to nine words, in sequence, in the
    background and in parentheses. *)
Theorem sh_parse_spec buf c : 0 ∉ buf ->
  parse buf (parse_fuel buf) = POk (c, es buf) <-> exists ts, lexes buf 0 ts /\ g_line ts c.
Proof. intros Hbuf. by apply parse_iff. Qed.

Lemma sh_parse_spec_witness : exists ts, lexes (str "(ls a; wc)>f &") 0 ts /\
  g_line ts (BACK (REDIR (LIST (EXEC [(1, 3); (4, 5)]) (EXEC [(7, 9)])) 11 12 1537 1)%nat).
Proof. apply (sh_parse_spec (str "(ls a; wc)>f &")); [by apply (bool_decide_unpack _)|vm_compute; reflexivity]. Defined.

(** ** The words of a command *)

(** The words and the file names of a command, in the order of [nulterminate]. *)
Fixpoint cmd_words (c : cmd) : list (nat * nat) :=
  match c with
  | EXEC argv => argv
  | REDIR c file efile _ _ => cmd_words c ++ [(file, efile)]
  | PIPE l r | LIST l r => cmd_words l ++ cmd_words r
  | BACK c => cmd_words c
  end.

Lemma nulterminate_eq c : forall buf, nulterminate c buf = foldl (fun b w => <[w.2 := 0]> b) buf (cmd_words c).
Proof.
  induction c as [argv|c IH f e m fd|l IHl r IHr|l IHl r IHr|c IH]; intros buf; cbn; [done| | | |done];
    rewrite foldl_app, ?IH, ?IHl, ?IHr; done.
Qed.

Lemma words_iter k c : cmd_words (Nat.iter k BACK c) = cmd_words c.
Proof. by induction k. Qed.

Lemma words_redirs rs c w : w ∈ cmd_words (redirs rs c) <-> w ∈ cmd_words c \/ exists t, (t, w.1, w.2) ∈ rs.
Proof.
  revert c. induction rs as [|[[t q] eq] rs IH]; intros c.
  - cbn. split; [by left|]. intros [?|(t & []%not_elem_of_nil)]. done.
  - change (redirs ((t, q, eq) :: rs) c) with (redirs rs (redir (t, q, eq) c)). rewrite IH.
    assert (Ew : cmd_words (redir (t, q, eq) c) = cmd_words c ++ [(q, eq)]) by (unfold redir; by repeat case_match).
    rewrite Ew, elem_of_app, list_elem_of_singleton. setoid_rewrite elem_of_cons. destruct w as [q' eq']. cbn. split.
    + intros [[?|[= -> ->]]|(t' & ?)]; [by left|right; exists t; by left|right; exists t'; by right].
    + intros [?|(t' & [[= -> -> ->]|?])]; [by left; left|by left; right|right; by exists t'].
Qed.

(** Every word of a command is a word of the line. *)
Lemma g_redirs_words ts rs t q eq : g_redirs ts rs -> (t, q, eq) ∈ rs -> TW q eq ∈ ts.
Proof.
  induction 1 as [|t' q' eq' ts rs Ht Hg IH]; [by intros ?%not_elem_of_nil|]. rewrite !elem_of_cons.
  intros [[= -> -> ->]|?]; auto.
Qed.

Lemma g_words_words ts ws rs : g_words ts ws rs -> (forall q eq, (q, eq) ∈ ws -> TW q eq ∈ ts) /\ (forall t q eq, (t, q, eq) ∈ rs -> TW q eq ∈ ts).
Proof.
  induction 1 as [|q eq ts ws rs Hg [IH1 IH2]|t q eq ts ws rs Ht Hg [IH1 IH2]]; [by split; intros * ?%not_elem_of_nil| |];
    split; intros *; rewrite !elem_of_cons; naive_solver.
Qed.

Lemma g_line_words ts c : g_line ts c -> forall q eq, (q, eq) ∈ cmd_words c -> TW q eq ∈ ts.
Proof.
  set (P := fun (ts : list tok) c => forall q eq, (q, eq) ∈ cmd_words c -> TW q eq ∈ ts).
  apply (g_line_mind (fun ts c _ => P ts c) (fun ts c _ => P ts c) (fun ts c _ => P ts c)); unfold P; clear.
  - intros ts n c _ IH q eq. rewrite words_iter, elem_of_app. auto.
  - intros ts n c ts' c' _ IH _ IH' q eq. cbn. rewrite words_iter, !elem_of_app, elem_of_cons. naive_solver.
  - auto.
  - intros ts c ts' c' _ IH _ IH' q eq. cbn. rewrite !elem_of_app, elem_of_cons. naive_solver.
  - intros ts ws rs Hg _ q eq. rewrite words_redirs. destruct (g_words_words _ _ _ Hg) as [H1 H2]. cbn. intros [?|(t & ?)]; eauto.
  - intros ts c ts' rs _ IH Hg q eq. rewrite words_redirs, elem_of_cons, elem_of_app, elem_of_cons. cbn.
    intros [?|(t & ?)]; [by right; left; auto|right; right; right; by eapply g_redirs_words].
Qed.

Lemma lexes_words buf s ts q eq : lexes buf s ts -> TW q eq ∈ ts -> word_ok buf q eq.
Proof.
  induction 1 as [|s ret q' eq' s' ts E Hr Hl IH]; [by intros ?%not_elem_of_nil|]. rewrite elem_of_cons. intros [Et|?]; [|auto].
  destruct (gettoken_ok _ _ _ _ _ _ E Hr) as (_ & _ & Hw). unfold tok_of in Et. destruct (Z.eqb_spec ret 97); [|done].
  injection Et as -> ->. auto.
Qed.

(** Terminating words of the line does not touch the inside of one. *)
Lemma terminate_at (ws : list (nat * nat)) i : forall buf : list Z,
  foldl (fun b w => <[w.2 := 0]> b) buf ws !! i = (if bool_decide (i ∈ ws.*2) then (fun _ => 0) <$> buf !! i else buf !! i).
Proof.
  induction ws as [|[q eq] ws IH]; intros buf; [done|]. cbn [foldl fmap list_fmap snd]. rewrite IH. destruct (decide (i = eq)) as [->|Hne].
  - rewrite (bool_decide_eq_true_2 (eq ∈ _ :: _)) by (by left).
    destruct (decide (eq < length buf)%nat) as [Hlt|Hge].
    + rewrite list_lookup_insert_eq by done. destruct (lookup_lt_is_Some_2 buf eq Hlt) as [x ->]. by case_match.
    + rewrite !lookup_ge_None_2 by (rewrite ?length_insert; lia). by case_match.
  - rewrite list_lookup_insert_ne by done. rewrite (bool_decide_ext (i ∈ eq :: ws.*2) (i ∈ ws.*2)); [done|]. rewrite elem_of_cons. naive_solver.
Qed.

Lemma cstr_take (k : nat) : forall l : list Z, (k <= length l)%nat -> 0 ∉ take k l -> (l !! k = None \/ l !! k = Some 0) -> cstr l = take k l.
Proof.
  induction k as [|k IH]; intros [|x l] Hk H0 He; cbn in *; try done; [by destruct He as [|[= ->]]|].
  rewrite not_elem_of_cons in H0. rewrite (proj2 (Z.eqb_neq x 0)) by (intros ->; tauto). f_equal. apply IH; [lia|tauto|done].
Qed.

Lemma word_inside buf q eq q' eq' : word_ok buf q eq -> word_ok buf q' eq' -> ~ (q <= eq' < eq)%nat.
Proof.
  intros Hw Hw' Hin. pose proof (wd_chars _ _ _ Hw eq' Hin) as Hc. pose proof (wd_range _ _ _ Hw). destruct (wd_end _ _ _ Hw') as [E|E]; [lia|congruence].
Qed.

Lemma terminate_word buf (ws : list (nat * nat)) q eq : 0 ∉ buf -> (forall w, w ∈ ws -> word_ok buf w.1 w.2) -> (q, eq) ∈ ws ->
  str_at (foldl (fun b w => <[w.2 := 0]> b) buf ws) q = take (eq - q) (drop q buf).
Proof.
  intros H0 Hws Hin. set (b := foldl _ buf ws). pose proof (Hws _ Hin) as Hw. pose proof (wd_range _ _ _ Hw) as Hr. cbn in Hr. unfold es in Hr.
  assert (Hlen : length b = length buf).
  { subst b. clear. revert buf. induction ws as [|w ws IH]; intros buf; [done|]. cbn. by rewrite IH, length_insert. }
  assert (Hsame : forall i, (q <= i < eq)%nat -> b !! i = buf !! i).
  { intros i Hi. subst b. rewrite terminate_at. rewrite bool_decide_eq_false_2; [done|].
    intros ([q' eq'] & -> & Hin')%list_elem_of_fmap. by apply (word_inside _ _ _ _ _ Hw (Hws _ Hin')). }
  assert (Et : take (eq - q) (drop q b) = take (eq - q) (drop q buf)).
  { apply list_eq. intros i. destruct (decide (i < eq - q)%nat) as [Hi|Hi].
    - rewrite !lookup_take_lt, !lookup_drop by lia. apply Hsame. lia.
    - rewrite !lookup_take_ge by lia. done. }
  unfold str_at. rewrite <- Et. apply cstr_take.
  - rewrite length_drop. lia.
  - rewrite Et. intros (i & Hi)%list_elem_of_lookup. apply lookup_take_Some in Hi as [Hi _]. rewrite lookup_drop in Hi. apply H0.
    by eapply list_elem_of_lookup_2.
  - rewrite lookup_drop. replace (q + (eq - q))%nat with eq by lia. subst b. rewrite terminate_at.
    rewrite bool_decide_eq_true_2 by (apply list_elem_of_fmap; by exists (q, eq)). destruct (buf !! eq); cbn; tauto.
Qed.

(** What [runcmd] reads at the positions of the words: no NUL falls inside
    another word. *)
Lemma parsed_words buf c q eq : 0 ∉ buf -> parse buf (parse_fuel buf) = POk (c, es buf) -> (q, eq) ∈ cmd_words c ->
  word_ok buf q eq /\ str_at (nulterminate c buf) q = take (eq - q) (drop q buf).
Proof.
  intros H0 Hp Hin. apply (parse_iff buf H0) in Hp as (ts & Hl & Hg).
  assert (Hws : forall w, w ∈ cmd_words c -> word_ok buf w.1 w.2).
  { intros [q' eq'] Hw. eapply lexes_words; [done|]. by apply (g_line_words _ _ Hg). }
  split; [by apply (Hws (q, eq))|]. rewrite nulterminate_eq. by apply terminate_word.
Qed.
