(* ===== verification/ShRun.v ===== *)
(** * The processes of a command line (runcmd of user/sh.c)

    [procs] interprets the system calls of the shell's child with the tables of
    open files of the processes that it forks, and gives the tree of these
    processes: what each of them runs, with which files open, and for which
    children it waits.  For a line of the grammar, it is the tree that the
    command describes ([plan]). *)

From S2P Require Import Prelude Riscv Memory Spinlock Kalloc Vm Tty Proc ProcSpec Sleeplock Uart Console Pipe Bio Block Log Fs File Sysarg Exec Sysfile User UserSem Sh ShThm.
#[local] Open Scope user_scope.

(** ** Processes *)

(** An open file: one the shell was given, one opened by name, or an end of a
    pipe.  A pipe is named by the process that made it, and how many that
    process made before. *)
Inductive ofile :=
| Given (n : nat)
| Opened (path : list Z) (mode : Z)
| PipeRd (id : list nat * nat)
| PipeWr (id : list nat * nat).

Inductive ptree :=
| Runs (path : list Z) (argv : list (list Z)) (fds : gmap nat ofile)
| Exits (status : Z) (err : list Z)
| Forks (child parent : ptree)
| Waits (rest : ptree)
| Lost.

(** A process: its place in the tree, the children and pipes it made, its
    files, and what it wrote to its standard error. *)
Record uproc := Uproc {
  ps_path : list nat;
  ps_forks : nat;
  ps_pipes : nat;
  ps_fds : gmap nat ofile;
  ps_err : list Z
}.

Definition set_fds (f : gmap nat ofile) (p : uproc) : uproc := Uproc p.(ps_path) p.(ps_forks) p.(ps_pipes) f p.(ps_err).
Definition say (l : list Z) (p : uproc) : uproc := Uproc p.(ps_path) p.(ps_forks) p.(ps_pipes) p.(ps_fds) (p.(ps_err) ++ l).
Definition child (p : uproc) : uproc := Uproc (p.(ps_path) ++ [p.(ps_forks)]) 0 0 p.(ps_fds) p.(ps_err).
Definition parent (p : uproc) : uproc := Uproc p.(ps_path) (S p.(ps_forks)) p.(ps_pipes) p.(ps_fds) p.(ps_err).

(** The lowest descriptor that is free, as [fdalloc] has it. *)
Definition first_free (f : gmap nat ofile) : option nat :=
  snd <$> list_find (fun n => f !! n = None) (seq 0 (Z.to_nat NOFILE)).

Definition take_fd (o : ofile) (p : uproc) : Z * uproc :=
  match first_free p.(ps_fds) with
  | Some n => (Z.of_nat n, set_fds (<[n := o]> p.(ps_fds)) p)
  | None => (-1, p)
  end.
Definition p_close (fd : Z) (p : uproc) : Z * uproc :=
  match p.(ps_fds) !! Z.to_nat fd with
  | Some _ => (0, set_fds (delete (Z.to_nat fd) p.(ps_fds)) p)
  | None => (-1, p)
  end.
Definition p_dup (fd : Z) (p : uproc) : Z * uproc :=
  match p.(ps_fds) !! Z.to_nat fd with
  | Some o => take_fd o p
  | None => (-1, p)
  end.
Definition p_pipe (p : uproc) : (Z * (Z * Z)) * uproc :=
  let id := (p.(ps_path), p.(ps_pipes)) in
  let '(r, p1) := take_fd (PipeRd id) p in
  let '(w, p2) := take_fd (PipeWr id) p1 in
  if (r <? 0) || (w <? 0) then ((-1, (0, 0)), p)
  else ((0, (r, w)), Uproc p2.(ps_path) p2.(ps_forks) (S p2.(ps_pipes)) p2.(ps_fds) p2.(ps_err)).

Section Proc.
(** Which files can be opened, and which programs can be run. *)
Context (opens : list Z -> Z -> bool) (execs : list Z -> list (list Z) -> bool).

Definition p_open (path : list Z) (mode : Z) (p : uproc) : Z * uproc :=
  if opens path mode then take_fd (Opened path mode) p else (-1, p).

Fixpoint procs {A : Type} (m : U A) (p : uproc) : ptree :=
  match m with
  | Ret _ => Lost
  | Vis e k =>
      match e in sysE X return (X -> uproc -> ptree) -> ptree with
      | Exit status => fun _ => Exits status p.(ps_err)
      | Fork => fun go => Forks (go 0 (child p)) (go 2 (parent p))
      | Wait => fun go => Waits (go (2, 0) p)
      | Pipe => fun go => let '(r, p') := p_pipe p in go r p'
      | Write fd l => fun go => if fd =? 2 then go (Z.of_nat (length l)) (say l p) else Lost
      | Close fd => fun go => let '(r, p') := p_close fd p in go r p'
      | Dup fd => fun go => let '(r, p') := p_dup fd p in go r p'
      | Open path mode => fun go => let '(r, p') := p_open path mode p in go r p'
      | Exec path argv => fun go => if execs path argv then Runs path argv p.(ps_fds) else go (-1) p
      | _ => fun _ => Lost
      end (fun x p' => procs (k x) p')
  | Stuck => Lost
  | Limit => Lost
  end.

(** ** Messages *)

Lemma proc_assoc {A B C : Type} (m : U A) (f : A -> U B) (g : B -> U C) p :
  procs (ubind (ubind m f) g) p = procs (ubind m (fun x => ubind (f x) g)) p.
Proof.
  revert p. induction m as [a|X e k IH| |]; intros p; cbn [ubind]; try done.
  destruct e; cbn; try done; rewrite ?IH; try done; repeat case_match; auto.
Qed.

Lemma say_nil p : say [] p = p.
Proof. unfold say. rewrite app_nil_r. by destruct p. Qed.

(** [m] writes [l] and goes on. *)
Definition puts (m : U unit) (l : list Z) : Prop :=
  forall B (f : unit -> U B) p, procs (ubind m f) p = procs (f tt) (say l p).

Lemma puts_putc c : puts (putc 2 c) [u8 c].
Proof. done. Qed.

Lemma puts_bind m l m' l' : puts m l -> puts m' l' -> puts (m ;; m') (l ++ l').
Proof. intros Hm Hm' B f p. rewrite proc_assoc, Hm, Hm'. f_equal. unfold say. cbn. by rewrite app_assoc. Qed.

Lemma puts_ret : puts (Ret tt) [].
Proof. intros B f p. cbn. by rewrite say_nil. Qed.

Lemma puts_str l : puts (uiter l (putc 2)) (u8 <$> l).
Proof.
  induction l as [|c l IH]; [apply puts_ret|]. cbn [uiter fmap list_fmap]. apply (puts_bind _ [u8 c] _ _ (puts_putc c) IH).
Qed.

(** Text without [%] in a format. *)
Lemma puts_text pre fmt ap l : Forall (fun c => c <> 0 /\ c <> 37) pre -> puts (vprintf_loop 2 false fmt ap) l ->
  puts (vprintf_loop 2 false (pre ++ fmt) ap) ((u8 <$> pre) ++ l).
Proof.
  intros Hpre Hl. induction Hpre as [|c pre [H0 H37] _ IH]; [done|]. cbn [app fmap list_fmap vprintf_loop].
  rewrite (proj2 (Z.eqb_neq c 0) H0), (proj2 (Z.eqb_neq c 37) H37). cbn [negb]. exact (puts_bind _ [u8 c] _ _ (puts_putc c) IH).
Qed.

Lemma puts_word fmt w ap l : puts (vprintf_loop 2 false fmt ap) l ->
  puts (vprintf_loop 2 false (37 :: 115 :: fmt) (astr w :: ap)) ((u8 <$> cstr w) ++ l).
Proof. intros Hl. exact (puts_bind _ _ _ _ (puts_str (cstr w)) Hl). Qed.

(** The two messages of [runcmd]: a verb, a word, and that it failed. *)
Definition failed (verb : string) (w : list Z) : list Z :=
  (u8 <$> str verb ++ [32]) ++ (u8 <$> w) ++ (u8 <$> str (nl " failed")) ++ [].

Lemma cstr_cstr l : cstr (cstr l) = cstr l.
Proof. induction l as [|c l IH]; [done|]. cbn. destruct (c =? 0) eqn:E; [done|]. cbn. by rewrite E, IH. Qed.

Lemma puts_failed verb w : Forall (fun c => c <> 0 /\ c <> 37) (str verb ++ [32]) ->
  puts (vprintf_loop 2 false ((str verb ++ [32]) ++ 37 :: 115 :: str (nl " failed") ++ []) [astr w]) (failed verb (cstr w)).
Proof.
  intros Hv. unfold failed. apply puts_text; [done|]. apply puts_word, puts_text; [|apply puts_ret].
  by apply (bool_decide_unpack _).
Qed.

Lemma puts_exec w : puts (fprintf 2 (nl "exec %s failed") [astr w]) (failed "exec" (cstr w)).
Proof. apply (puts_failed "exec" w). by apply (bool_decide_unpack _). Qed.

Lemma puts_open w : puts (fprintf 2 (nl "open %s failed") [astr w]) (failed "open" (cstr w)).
Proof. apply (puts_failed "open" w). by apply (bool_decide_unpack _). Qed.

(** ** What a command describes *)

(** The files of a process that has only the standard three. *)
Definition std (i o e : ofile) : gmap nat ofile := {[ 0%nat := i; 1%nat := o; 2%nat := e ]}.

Section Plan.
(** The words of the line. *)
Context (word : nat * nat -> list Z).

(** The process at [path], which has made [k] children: it runs [c] with [i],
    [o] and [e] as its standard files. *)
Fixpoint plan (c : cmd) (path : list nat) (k j : nat) (i o e : ofile) : ptree :=
  match c with
  | EXEC [] => Exits 1 []
  | EXEC ((w :: _) as argv) =>
      if execs (word w) (word <$> argv) then Runs (word w) (word <$> argv) (std i o e)
      else Exits 0 (failed "exec" (word w))
  | REDIR c q eq mode fd =>
      let f := word (q, eq) in
      if opens f mode then
        if fd =? 0 then plan c path k j (Opened f mode) o e else plan c path k j i (Opened f mode) e
      else Exits 1 (failed "open" f)
  | LIST l r => Forks (plan l (path ++ [k]) 0 0 i o e) (Waits (plan r path (S k) j i o e))
  | PIPE l r =>
      let id := (path, j) in
      Forks (plan l (path ++ [k]) 0 0 i (PipeWr id) e)
        (Forks (plan r (path ++ [S k]) 0 0 (PipeRd id) o e) (Waits (Waits (Exits 0 []))))
  | BACK c => Forks (plan c (path ++ [k]) 0 0 i o e) (Exits 0 [])
  end.
End Plan.

(** ** The system calls on the standard files *)

Lemma redir_in path k j i o e er f mode : opens f mode = true ->
  p_open f mode (p_close 0 (Uproc path k j (std i o e) er)).2 = (0, Uproc path k j (std (Opened f mode) o e) er).
Proof. intros E. unfold p_open. rewrite E. reflexivity. Qed.

Lemma redir_out path k j i o e er f mode : opens f mode = true ->
  p_open f mode (p_close 1 (Uproc path k j (std i o e) er)).2 = (1, Uproc path k j (std i (Opened f mode) e) er).
Proof. intros E. unfold p_open. rewrite E. reflexivity. Qed.

(** The table with a pipe in it, and without it again. *)
Definition piped (id : list nat * nat) (i o e : ofile) : gmap nat ofile := <[4%nat := PipeWr id]> (<[3%nat := PipeRd id]> (std i o e)).

Lemma pipe_std path k j i o e er :
  p_pipe (Uproc path k j (std i o e) er) = ((0, (3, 4)), Uproc path k (S j) (piped (path, j) i o e) er).
Proof. reflexivity. Qed.

Definition then_do {R : Type} (f : uproc -> R * uproc) (p : uproc) : uproc := (f p).2.

Lemma pipe_left path k j id i o e er :
  then_do (p_close 4) (then_do (p_close 3) (then_do (p_dup 4) (then_do (p_close 1) (Uproc path k j (piped id i o e) er)))) =
  Uproc path k j (std i (PipeWr id) e) er.
Proof. reflexivity. Qed.

Lemma pipe_right path k j id i o e er :
  then_do (p_close 4) (then_do (p_close 3) (then_do (p_dup 3) (then_do (p_close 0) (Uproc path k j (piped id i o e) er)))) =
  Uproc path k j (std (PipeRd id) o e) er.
Proof. reflexivity. Qed.

Lemma proc_close {A : Type} fd (k : U A) p : procs (Vis (Close fd) (fun _ => k)) p = procs k (then_do (p_close fd) p).
Proof. cbn. unfold then_do. by destruct (p_close fd p). Qed.

Lemma proc_dup {A : Type} fd (k : U A) p : procs (Vis (Dup fd) (fun _ => k)) p = procs k (then_do (p_dup fd) p).
Proof. cbn. unfold then_do. by destruct (p_dup fd p). Qed.

Lemma proc_fork {A : Type} (k : Z -> U A) p : procs (ubind fork1 k) p = Forks (procs (k 0) (child p)) (procs (k 2) (parent p)).
Proof. reflexivity. Qed.

(** ** The processes of a command are those it describes *)

Section Runcmd.
Context (line : list Z) (word : nat * nat -> list Z).

Definition word_is (w : nat * nat) : Prop := str_at line w.1 = word w.

(** A redirection is of the standard input or the standard output. *)
Fixpoint fds_ok (c : cmd) : Prop :=
  match c with
  | EXEC _ => True
  | REDIR c _ _ _ fd => (fd = 0 \/ fd = 1) /\ fds_ok c
  | PIPE l r | LIST l r => fds_ok l /\ fds_ok r
  | BACK c => fds_ok c
  end.

Definition runs_as (c : cmd) : Prop := forall path k j i o e,
  procs (runcmd line c) (Uproc path k j (std i o e) []) = plan word c path k j i o e.

Lemma proc_exec path argv p (k : U unit) : procs (sys (User.Exec path argv) ;; k) p = if execs path argv then Runs path argv p.(ps_fds) else procs k p.
Proof. reflexivity. Qed.

Lemma run_exec argv : Forall word_is argv -> runs_as (EXEC argv).
Proof.
  intros Hw path k j i o e. destruct argv as [|w argv]; [done|]. cbn [runcmd plan]. rewrite proc_exec.
  assert (Ea : (fun w => str_at line w.1) <$> w :: argv = word <$> w :: argv) by (apply Forall_fmap_ext; exact Hw).
  inversion Hw as [|w' l' Hw1 _]; subst. unfold word_is in Hw1. rewrite Ea, Hw1. destruct (execs _ _); [done|].
  rewrite puts_exec. cbn [procs exit]. rewrite <- Hw1. unfold str_at. by rewrite cstr_cstr.
Qed.

Lemma run_redir c q eq mode fd : word_is (q, eq) -> fd = 0 \/ fd = 1 -> runs_as c -> runs_as (REDIR c q eq mode fd).
Proof.
  intros Hw Hfd IH path k j i o e. cbn [runcmd plan]. cbn [ubind sys]. rewrite proc_close. unfold word_is in Hw. cbn [fst] in Hw. rewrite Hw.
  cbn [ubind sys procs]. destruct (opens (word (q, eq)) mode) eqn:Eo.
  - unfold then_do. destruct Hfd as [->| ->]; [rewrite redir_in by done|rewrite redir_out by done]; apply IH.
  - unfold p_open at 1. rewrite Eo. cbn [Z.ltb Z.compare]. rewrite puts_open. cbn [procs exit]. rewrite <- Hw. unfold str_at. rewrite cstr_cstr.
    by destruct Hfd as [->| ->].
Qed.

Lemma run_pipe l r : runs_as l -> runs_as r -> runs_as (PIPE l r).
Proof.
  intros IHl IHr path k j i o e. cbn [runcmd plan]. cbn [ubind sys procs]. rewrite pipe_std. cbn [fst snd Z.ltb Z.compare].
  rewrite proc_fork. cbn [Z.eqb]. f_equal; [|rewrite proc_fork; cbn [Z.eqb]; f_equal].
  - rewrite proc_close, proc_dup, !proc_close. unfold child. cbn [ps_path ps_forks ps_pipes ps_fds ps_err]. by rewrite pipe_left, IHl.
  - rewrite proc_close, proc_dup, !proc_close. unfold child, parent. cbn [ps_path ps_forks ps_pipes ps_fds ps_err]. by rewrite pipe_right, IHr.
Qed.

Lemma run_list l r : runs_as l -> runs_as r -> runs_as (LIST l r).
Proof.
  intros IHl IHr path k j i o e. cbn [runcmd plan]. rewrite proc_fork. cbn [Z.eqb ubind sys procs]. unfold child, parent.
  cbn [ps_path ps_forks ps_pipes ps_fds ps_err]. by rewrite IHl, IHr.
Qed.

Lemma run_back c : runs_as c -> runs_as (BACK c).
Proof. intros IH path k j i o e. cbn [runcmd plan]. rewrite proc_fork. unfold child. cbn [Z.eqb ps_path ps_forks ps_pipes ps_fds ps_err]. by rewrite IH. Qed.

Lemma runcmd_plan c : fds_ok c -> Forall word_is (cmd_words c) -> runs_as c.
Proof.
  induction c as [argv|c IH q eq mode fd|l IHl r IHr|l IHl r IHr|c IH]; cbn [fds_ok cmd_words]; rewrite ?Forall_app, ?Forall_singleton.
  - intros _. apply run_exec.
  - intros [Hfd Hc] [Hw Hf]. apply run_redir; auto.
  - intros [] []. apply run_pipe; auto.
  - intros [] []. apply run_list; auto.
  - intros. apply run_back; auto.
Qed.
End Runcmd.

Lemma redirs_fds rs c : fds_ok c -> fds_ok (redirs rs c).
Proof.
  revert c. induction rs as [|[[t q] eq] rs IH]; intros c Hc; [done|]. apply IH. unfold redir.
  destruct (t =? 60); [cbn; tauto|]. destruct (t =? 62); cbn; tauto.
Qed.

Lemma g_line_fds ts c : g_line ts c -> fds_ok c.
Proof.
  apply (g_line_mind (fun _ c _ => fds_ok c) (fun _ c _ => fds_ok c) (fun _ c _ => fds_ok c)); intros; cbn; try done; try (by apply redirs_fds).
  - by induction n.
  - split; [by induction n|done].
Qed.

(** The characters of a word of the line. *)
Definition slice (buf : list Z) (w : nat * nat) : list Z := take (w.2 - w.1) (drop w.1 buf).

(** C7: The shell does with a command line what the line says.  For a line whose
    tokens derive the command [c], the shell's child parses the line and makes
    exactly the tree of processes that [c] describes: each simple command is
    run with the words of the line as its arguments and with only the three
    standard files open; redirections replace the right one of them, the
    innermost last; the two sides of a pipe have its ends, and no process that
    runs a program keeps another descriptor of a pipe, so that the reader sees
    the end of the data; [;] waits for the left side and [&] for nothing; a
    file that cannot be opened or a program that cannot be run ends the
    process with a message. *)
Theorem sh_runs_line buf ts c i o e `{Rounds} : 0 ∉ buf -> lexes buf 0 ts -> g_line ts c ->
  procs (p <- parsecmd buf ;; runcmd p.2 p.1) (Uproc [] 0 0 (std i o e) []) = plan (slice buf) c [] 0 0 i o e.
Proof.
  intros H0 Hl Hg. assert (Hp : parse buf (parse_fuel buf) = POk (c, es buf)) by (apply (parse_iff buf H0); eauto).
  unfold parsecmd. rewrite Hp, Nat.eqb_refl. cbn [negb ubind fst snd]. apply runcmd_plan; [by eapply g_line_fds|].
  apply Forall_forall. intros [q eq] Hw. by apply (parsed_words buf c q eq).
Qed.
End Proc.

Lemma sh_runs_line_witness :
  exists ts, lexes (str "cat < in | wc") 0 ts /\ forall R : Rounds,
  procs (fun _ _ => true) (fun _ _ => true) (p <- parsecmd (str "cat < in | wc") ;; runcmd p.2 p.1) (Uproc [] 0 0 (std (Given 0) (Given 1) (Given 2)) []) =
  Forks (Runs (str "cat") [str "cat"] (std (Opened (str "in") 0) (PipeWr ([], 0%nat)) (Given 2)))
    (Forks (Runs (str "wc") [str "wc"] (std (PipeRd ([], 0%nat)) (Given 1) (Given 2))) (Waits (Waits (Exits 0 [])))).
Proof.
  assert (H0 : 0 ∉ str "cat < in | wc") by by apply (bool_decide_unpack _).
  assert (Hp : exists c, parse (str "cat < in | wc") (parse_fuel (str "cat < in | wc")) = POk (c, es (str "cat < in | wc"))) by (eexists; vm_compute; reflexivity).
  destruct Hp as [c Hp]. pose proof Hp as Hg. apply (parse_iff _ H0) in Hg as (ts & Hl & Hg). exists ts. split; [done|]. intros Hr.
  rewrite (sh_runs_line _ _ _ ts c _ _ _ H0 Hl Hg). vm_compute in Hp. injection Hp as <-. vm_compute. reflexivity.
Defined.
