(* ===== verification/Mkfs.v ===== *)
(** * Making a file system (mkfs/mkfs.c)

    The image file is the list of its sectors.  A failed [assert] and [die]
    end the program.  [din] is a [struct dinode] as its 64 bytes, read and
    written through fields as in kernel/fs.h.  The messages that the program
    prints are not modelled. *)

From S2P Require Import Prelude Riscv Memory Spinlock Kalloc Vm Tty Proc ProcSpec Sleeplock Uart Bio Block Log Fs.

Definition NINODES : Z := 200.

(** Disk layout:
    boot block, superblock, log, inode blocks, free bit map, data blocks *)
Definition nbitmap : Z := FSSIZE / (BSIZE * 8) + 1.
Definition ninodeblocks : Z := NINODES / IPB + 1.
Definition nlog : Z := LOGSIZE.
Definition nmeta : Z := 2 + nlog + ninodeblocks + nbitmap.
Definition nblocks : Z := FSSIZE - nmeta.
Definition zeroes : list Z := zblock.

Record mkst := Mkst {
  img : list (list Z);
  m_sb : superblock;
  freeinode : Z;
  freeblock : Z
}.
Definition img_l : lens mkst (list (list Z)) := Lens img (fun x s => Mkst x s.(m_sb) s.(freeinode) s.(freeblock)).
Definition m_sb_l : lens mkst superblock := Lens m_sb (fun x s => Mkst s.(img) x s.(freeinode) s.(freeblock)).
Definition freeinode_l : lens mkst Z := Lens freeinode (fun x s => Mkst s.(img) s.(m_sb) x s.(freeblock)).
Definition freeblock_l : lens mkst Z := Lens freeblock (fun x s => Mkst s.(img) s.(m_sb) s.(freeinode) x).
Definition mkst0 : mkst := Mkst [] (Superblock 0 0 0 0 0 0 0 0) 1 0.

(** The files of the host: whether an image can be created, and what the
    reads of a file return, one after the other, if it can be opened. *)
Class Host := {
  creates : list Z -> bool;
  host_reads : list Z -> option (list (list Z))
}.

(** The value of an integer that was stored byte by byte, on the
    little-endian host. *)
Definition xshort (x : Z) : Z := le_val [u8 x; u8 (Z.shiftr (u16 x) 8)].
Definition xint (x : Z) : Z := le_val [u8 x; u8 (Z.shiftr (u32 x) 8); u8 (Z.shiftr (u32 x) 16); u8 (Z.shiftr (u32 x) 24)].

(** ** Sectors *)

(** The sector at the position that [lseek] goes to. *)
Definition sector (sec : Z) : nat := Z.to_nat (u32 (sec * BSIZE) / BSIZE).

(** A write past the end leaves a hole of zeroes. *)
Definition write_sector (n : nat) (b : list Z) (l : list (list Z)) : list (list Z) :=
  if (n <? length l)%nat then <[n := b]> l else l ++ replicate (n - length l) zeroes ++ [b].

Definition wsect (sec : Z) (b : list Z) : M mkst unit := update img_l (write_sector (sector sec) b).

Definition rsect (sec : Z) : M mkst (list Z) :=
  l <- get img_l ;;
  match l !! sector sec with
  | Some b => ret b
  | None => panic "read"
  end.

(** ** Inodes *)

Definition winode (inum : Z) (ip : list Z) : M mkst unit :=
  sb <- get m_sb_l ;;
  let bn := IBLOCK inum sb in
  buf <- rsect bn ;;
  wsect bn (put_at (dinode_off inum) ip buf).

Definition rinode (inum : Z) : M mkst (list Z) :=
  sb <- get m_sb_l ;;
  let bn := IBLOCK inum sb in
  buf <- rsect bn ;;
  ret (take 64 (drop (dinode_off inum) buf)).

Definition mk_ialloc (type : Z) : M mkst Z :=
  inum <- get freeinode_l ;;
  set freeinode_l (u32 (inum + 1)) ;;
  let din := put_le 4 8 (xint 0) (put_le 2 6 (xshort 1) (put_le 2 0 (xshort type) (replicate 64 0))) in
  winode inum din ;;
  ret inum.

(** The bytes of the bitmap with the first [used] bits set. *)
Definition bitmap (used : Z) : list Z := foldl set_bit zeroes (seqZ 0 used).

Definition mk_balloc (used : Z) : M mkst unit :=
  if used <? BSIZE * 8 then
    sb <- get m_sb_l ;;
    wsect sb.(sb_bmapstart) (bitmap used)
  else panic "assert".

(** ** Appending to a file *)

(** [freeblock++] *)
Definition new_block : M mkst Z :=
  x <- get freeblock_l ;;
  set freeblock_l (u32 (x + 1)) ;;
  ret x.

(** [din.addrs[k]] *)
Definition addr (din : list Z) (k : Z) : Z := xint (get_le 4 din (Z.to_nat (12 + 4 * k))).
Definition set_addr (k x : Z) (din : list Z) : list Z := put_le 4 (Z.to_nat (12 + 4 * k)) (xint x) din.

(** [if(xint(din.addrs[k]) == 0) din.addrs[k] = xint(freeblock++);] *)
Definition need_addr (din : list Z) (k : Z) : M mkst (list Z) :=
  if addr din k =? 0 then
    x <- new_block ;;
    ret (set_addr k x din)
  else ret din.

(** The sector of block [fbn] of the file, allocated if need be. *)
Definition file_sector (din : list Z) (fbn : Z) : M mkst (list Z * Z) :=
  if fbn <? NDIRECT then
    din <- need_addr din fbn ;;
    ret (din, addr din fbn)
  else
    din <- need_addr din NDIRECT ;;
    indirect <- rsect (addr din NDIRECT) ;;
    let e := Z.to_nat (4 * (fbn - NDIRECT)) in
    if get_le 4 indirect e =? 0 then
      x <- new_block ;;
      let indirect := put_le 4 e (xint x) indirect in
      wsect (addr din NDIRECT) indirect ;;
      ret (din, xint (get_le 4 indirect e))
    else ret (din, xint (get_le 4 indirect e)).

(** One round of the loop: the inode, the offset and the bytes that are left. *)
Definition iappend_body (st : list Z * Z * list Z) : M mkst (list Z * Z * list Z + list Z * Z) :=
  let '(din, off, p) := st in
  let n := Z.of_nat (length p) in
  if 0 <? n then
    let fbn := off / BSIZE in
    if fbn <? MAXFILE then
      r <- file_sector din fbn ;;
      let '(din, x) := r in
      let n1 := Z.min n (u32 (u32 ((fbn + 1) * BSIZE) - off)) in
      buf <- rsect x ;;
      wsect x (put_at (Z.to_nat (off - fbn * BSIZE)) (take (Z.to_nat n1) p) buf) ;;
      ret (inl (din, u32 (off + n1), drop (Z.to_nat n1) p))
    else panic "assert"
  else ret (inr (din, off)).

Definition iappend (inum : Z) (p : list Z) : M mkst unit :=
  din <- rinode inum ;;
  r <- loop (S (length p)) iappend_body (din, xint (get_le 4 din 8), p) ;;
  let '(din, off) := r in
  winode inum (put_le 4 8 (xint off) din).

(** ** main *)

(** [struct dirent] *)
Definition dirent (inum : Z) (name : list Z) : list Z := le_bytes 2 (xshort inum) ++ strncpy name 14.

(** The file name without [user/] and without a leading [_]. *)
Definition base (path : list Z) : list Z :=
  if strncmp path (str "user/") 5 =? 0 then drop 5 path else path.
Definition shortname (path : list Z) : list Z :=
  let n := base path in if ch n =? 95 then drop 1 n else n.

Section Main.
Context `{Host}.

(** One file of the command line. *)
Definition add_file (rootino : Z) (path : list Z) : M mkst unit :=
  if bool_decide (47 ∈ base path) then panic "assert"
  else
    match host_reads path with
    | None => panic "open"
    | Some chunks =>
        inum <- mk_ialloc T_FILE ;;
        iappend rootino (dirent inum (shortname path)) ;;
        iterM chunks (iappend inum)
    end.

(** [off = ((off/BSIZE) + 1) * BSIZE] *)
Definition fix_root (rootino : Z) : M mkst unit :=
  din <- rinode rootino ;;
  let off := xint (get_le 4 din 8) in
  let off := u32 ((off / BSIZE + 1) * BSIZE) in
  winode rootino (put_le 4 8 (xint off) din).

Definition new_sb : superblock :=
  Superblock FSMAGIC (xint FSSIZE) (xint nblocks) (xint NINODES) (xint nlog) (xint 2) (xint (2 + nlog)) (xint (2 + nlog + ninodeblocks)).

(** [struct superblock] *)
Definition sb_bytes (x : superblock) : list Z :=
  enc32 [x.(sb_magic); x.(sb_size); x.(sb_nblocks); x.(sb_ninodes); x.(sb_nlog); x.(sb_logstart); x.(sb_inodestart); x.(sb_bmapstart)].

(** The empty image, with its superblock and an empty root directory. *)
Definition mkfs_init : M mkst Z :=
  set img_l [] ;;
  set m_sb_l new_sb ;;
  set freeblock_l nmeta ;;
  iterM (seqZ 0 FSSIZE) (fun i => wsect i zeroes) ;;
  sb <- get m_sb_l ;;
  wsect 1 (put_at 0 (sb_bytes sb) zeroes) ;;
  rootino <- mk_ialloc T_DIR ;;
  if negb (rootino =? ROOTINO) then panic "assert"
  else
    iappend rootino (dirent rootino (str ".")) ;;
    iappend rootino (dirent rootino (str "..")) ;;
    ret rootino.

Definition mkfs_main (argv : list (list Z)) : M mkst unit :=
  if (length argv <? 2)%nat then panic "Usage: mkfs fs.img files..."
  else if negb (creates (nth 1 argv [])) then panic "open"
  else
    rootino <- mkfs_init ;;
    iterM (drop 2 argv) (add_file rootino) ;;
    fix_root rootino ;;
    n <- get freeblock_l ;;
    mk_balloc n.
End Main.
