(* ===== verification/MkfsSpec.v ===== *)
(** * Files in the image that mkfs makes

    [file_at] says that a dinode of the image holds a file: which blocks its
    slots name, and the bytes in them; [minv] that the image holds a list of
    files, with no block in two of them and every block from [freeblock] on
    still zero.  [iappend] appends to a file and leaves the others alone. *)

From S2P Require Import Prelude Riscv Memory Spinlock Kalloc Vm Tty Proc ProcSpec Sleeplock Uart UartThm Bio BioSpec Block Log LogCrash LogSpec LogOps Txn Fs FsSpec FsBlock FsFile FsWrite BioThm LogThm FsRead Mkfs.

Implicit Types (st : mkst) (din data : list Z).

(** ** Integers *)

Lemma xint_id x : 0 <= x < 2 ^ 32 -> xint x = x.
Proof.
  intros Hx. unfold xint.
  unfold u32. rewrite Z.mod_small by done. rewrite !Z.shiftr_div_pow2 by done. cbn [le_val]. unfold u8.
  change (2 ^ 8) with 256. change (2 ^ 16) with 65536. change (2 ^ 24) with 16777216. change (2 ^ 32) with 4294967296 in Hx.
  Z.to_euclidean_division_equations; lia.
Qed.

Lemma xshort_id x : 0 <= x < 2 ^ 16 -> xshort x = x.
Proof.
  intros Hx. unfold xshort, u16. rewrite Z.mod_small by done. rewrite !Z.shiftr_div_pow2 by done. cbn [le_val]. unfold u8.
  change (2 ^ 8) with 256. change (2 ^ 16) with 65536 in Hx. Z.to_euclidean_division_equations; lia.
Qed.

(** ** Sectors *)

Definition rd st (n : Z) : list Z := st.(img) !!! Z.to_nat n.

Record whole st : Prop := {
  wh_len : length st.(img) = Z.to_nat FSSIZE;
  wh_sec : forall n, 0 <= n < FSSIZE -> length (rd st n) = 1024%nat
}.

Definition put_sec (n : Z) (b : list Z) st : mkst := put img_l (<[Z.to_nat n := b]> st.(img)) st.

Lemma sector_id n : 0 <= n < FSSIZE -> sector n = Z.to_nat n.
Proof. intros Hn. unfold sector, u32, BSIZE, FSSIZE in *. rewrite Z.mod_small by lia. by rewrite Z.div_mul. Qed.

Lemma rsect_eq st n : whole st -> 0 <= n < FSSIZE -> rsect n st = Ok (rd st n) st.
Proof.
  intros Hw Hn. unfold rsect. cbn [bind get gets obind]. rewrite sector_id by done. cbn [img_l view].
  destruct (lookup_lt_is_Some_2 st.(img) (Z.to_nat n)) as [b Hb]; [rewrite (wh_len _ Hw); lia|]. unfold rd.
  by rewrite Hb, (list_lookup_total_correct _ _ _ Hb).
Qed.

Lemma wsect_eq st n b : whole st -> 0 <= n < FSSIZE -> wsect n b st = Ok tt (put_sec n b st).
Proof.
  intros Hw Hn. unfold wsect, update, modify. cbn. rewrite sector_id by done. unfold write_sector.
  rewrite (proj2 (Nat.ltb_lt _ _)) by (rewrite (wh_len _ Hw); lia). done.
Qed.

Lemma rd_put st n b m : whole st -> 0 <= n < FSSIZE -> 0 <= m -> rd (put_sec n b st) m = if decide (m = n) then b else rd st m.
Proof.
  intros Hw Hn Hm. unfold rd, put_sec. cbn. case_decide as E.
  - subst m. apply list_lookup_total_insert_eq. rewrite (wh_len _ Hw). lia.
  - apply list_lookup_total_insert_ne. lia.
Qed.

Lemma whole_put st n b : whole st -> 0 <= n < FSSIZE -> length b = 1024%nat -> whole (put_sec n b st).
Proof.
  intros Hw Hn Hb. split.
  - unfold put_sec. cbn. rewrite length_insert. apply Hw.
  - intros m Hm. rewrite rd_put by (done || lia). case_decide; [done|by apply Hw].
Qed.

(** ** The blocks of a file *)

(** The sizes, for [lia]. *)
Ltac sizes :=
  assert (MAXFILE = 268) by reflexivity; assert (NDIRECT = 12) by reflexivity; assert (nmeta = 46) by reflexivity;
  assert (IND = 268) by reflexivity; assert (BSIZE = 1024) by reflexivity; assert (FSSIZE = 2000) by reflexivity.
Ltac szlia := sizes; unfold BSIZE in *; Z.to_euclidean_division_equations; lia.

Definition da din (k : Z) : Z := get_le 4 din (Z.to_nat (12 + 4 * k)).

(** As [slot] of the kernel has it. *)
Definition mslot st din (k : Z) : Z :=
  if k <? NDIRECT then da din k
  else if k <? MAXFILE then if da din NDIRECT =? 0 then 0 else get_le 4 (rd st (da din NDIRECT)) (Z.to_nat (4 * (k - NDIRECT)))
  else da din NDIRECT.

(** The dinode [din] holds [data], in [nb] blocks. *)
Record file_at st din data (nb : Z) : Prop := {
  fa_len : length din = 64%nat;
  fa_nb : 0 <= nb <= MAXFILE /\ Z.of_nat (length data) <= nb * BSIZE;
  fa_slot : forall j, 0 <= j < MAXFILE -> mslot st din j <> 0 <-> j < nb;
  fa_ind : mslot st din IND <> 0 <-> NDIRECT < nb;
  fa_range : forall j, 0 <= j <= IND -> mslot st din j <> 0 -> nmeta <= mslot st din j < st.(freeblock);
  fa_inj : forall j k, 0 <= j <= IND -> 0 <= k <= IND -> mslot st din j = mslot st din k -> mslot st din j <> 0 -> j = k;
  fa_bytes : forall o, (o < length data)%nat ->
    rd st (mslot st din (Z.of_nat o / BSIZE)) !! Z.to_nat (Z.of_nat o mod BSIZE) = data !! o
}.

Lemma mslot_ind st din : mslot st din IND = da din NDIRECT.
Proof. reflexivity. Qed.

Lemma mslot_direct st din j : 0 <= j < NDIRECT -> mslot st din j = da din j.
Proof. intros Hj. unfold mslot. by rewrite (proj2 (Z.ltb_lt _ _)) by lia. Qed.

Lemma mslot_entry st din j : NDIRECT <= j < MAXFILE -> da din NDIRECT <> 0 ->
  mslot st din j = get_le 4 (rd st (da din NDIRECT)) (Z.to_nat (4 * (j - NDIRECT))).
Proof.
  intros Hj Hd. unfold mslot. rewrite (proj2 (Z.ltb_ge _ _)), (proj2 (Z.ltb_lt j MAXFILE)) by lia. by rewrite (proj2 (Z.eqb_neq _ _) Hd).
Qed.

Lemma mslot_none st din j : NDIRECT <= j < MAXFILE -> da din NDIRECT = 0 -> mslot st din j = 0.
Proof. intros Hj Hd. unfold mslot. rewrite (proj2 (Z.ltb_ge _ _)), (proj2 (Z.ltb_lt j MAXFILE)) by lia. by rewrite Hd. Qed.

(** The slots depend on the dinode and on the indirect block only. *)
Lemma mslot_same st st' din : (da din NDIRECT <> 0 -> rd st' (da din NDIRECT) = rd st (da din NDIRECT)) -> forall j, mslot st' din j = mslot st din j.
Proof.
  intros Hr j. unfold mslot. destruct (j <? NDIRECT); [done|]. destruct (j <? MAXFILE); [|done].
  destruct (Z.eqb_spec (da din NDIRECT) 0); [done|]. by rewrite Hr.
Qed.

(** A change to other blocks does not touch a file. *)
Lemma file_at_frame st st' din data nb : file_at st din data nb -> st.(freeblock) <= st'.(freeblock) ->
  (forall j, 0 <= j <= IND -> mslot st din j <> 0 -> rd st' (mslot st din j) = rd st (mslot st din j)) -> file_at st' din data nb.
Proof.
  intros Hf Hb Hr. assert (Es : forall j, mslot st' din j = mslot st din j).
  { apply mslot_same. intros Hd. apply (Hr IND); [sizes; lia|done]. }
  destruct Hf as [Hl Hnb Hs Hi Hg Hj Hy]. split; try done; rewrite ?Es; setoid_rewrite Es; try done.
  - intros j Hj' Hz. specialize (Hg j Hj' Hz). lia.
  - intros o Ho. rewrite <- Hy by done. destruct (decide (mslot st din (Z.of_nat o / BSIZE) = 0)) as [E|E].
    + exfalso. revert E. apply Hs; szlia.
    + rewrite Hr; [done|szlia|done].
Qed.

(** One more block, [x], and the indirect block [y] if it is the first one
    that needs it. *)
Lemma file_at_grow st din data nb st' din' x y :
  file_at st din data nb -> nb < MAXFILE -> length din' = 64%nat -> nmeta <= st.(freeblock) -> st.(freeblock) <= st'.(freeblock) ->
  st.(freeblock) <= x < st'.(freeblock) -> (nb = NDIRECT -> st.(freeblock) <= y < st'.(freeblock) /\ y <> x) ->
  (forall j, 0 <= j < MAXFILE -> mslot st' din' j = if decide (j = nb) then x else mslot st din j) ->
  mslot st' din' IND = (if decide (nb = NDIRECT) then y else mslot st din IND) ->
  (forall j, 0 <= j < MAXFILE -> mslot st din j <> 0 -> rd st' (mslot st din j) = rd st (mslot st din j)) ->
  file_at st' din' data (nb + 1).
Proof.
  intros [Hl Hnb Hs Hi Hg Hj Hy] Hmax Hl' Hfb Hmono Hx Hyy Es Ei Hr.
  sizes.
  assert (Hcase : forall j, 0 <= j <= IND -> mslot st' din' j = mslot st din j /\ j <> nb \/
     j = nb /\ mslot st' din' j = x \/ j = IND /\ nb = NDIRECT /\ mslot st' din' j = y).
  { intros j Hj'. destruct (decide (j = IND)) as [->|Hne].
    - rewrite Ei. case_decide; [right; right; tauto|left; split; [done|lia]].
    - rewrite Es by lia. destruct (decide (j = nb)); [right; left; by split|left; by split]. }
  assert (Hold : forall j, 0 <= j <= IND -> mslot st din j <> 0 -> nmeta <= mslot st din j < st.(freeblock)) by done.
  split.
  - done.
  - unfold BSIZE in *. lia.
  - intros j Hj'. rewrite Es by done. destruct (decide (j = nb)) as [E|E]; [split; lia|]. rewrite Hs by done. lia.
  - rewrite Ei. destruct (decide (nb = NDIRECT)) as [E|E]; [destruct (Hyy E); split; lia|]. rewrite Hi. lia.
  - intros j Hj' Hz. destruct (Hcase j Hj') as [[E _]|[[_ E]|(_ & En & E)]]; rewrite E in Hz |- *; [specialize (Hold j Hj' Hz)|..|destruct (Hyy En)]; lia.
  - intros j k Hj' Hk E Hz. destruct (Hcase j Hj') as [[Ej _]|[[Ej' Ej]|(Ej' & En & Ej)]], (Hcase k Hk) as [[Ek _]|[[Ek' Ek]|(Ek' & En' & Ek)]];
      rewrite ?Ej, ?Ek in E; rewrite ?Ej in Hz; try congruence; try (destruct (Hyy En)); try (destruct (Hyy En'));
      try (pose proof (Hold j Hj' Hz)); try (rewrite <- E in *; pose proof (Hold j Hj' Hz)); try lia; auto.
    + assert (Hzk : mslot st din k <> 0) by lia. pose proof (Hold k Hk Hzk). lia.
    + assert (Hzk : mslot st din k <> 0) by lia. pose proof (Hold k Hk Hzk). lia.
  - intros o Ho. rewrite <- Hy by done. assert (Ho' : 0 <= Z.of_nat o / BSIZE < nb) by (unfold BSIZE in *; Z.to_euclidean_division_equations; lia).
    rewrite Es by lia. rewrite decide_False by lia. rewrite Hr; [done|lia|]. apply Hs; lia.
Qed.

(** ** Allocating a block *)

(** The blocks of a file with [nb] data blocks. *)
Definition total (nb : Z) : Z := if NDIRECT <? nb then nb + 1 else nb.

Definition zero_above st : Prop := forall n, st.(freeblock) <= n < FSSIZE -> rd st n = zeroes.

(** The file of [din] grew from [nb] to [nb'] blocks; nothing else changed. *)
Record grown st din (nb : Z) st' din' (nb' : Z) : Prop := {
  gr_whole : whole st';
  gr_sb : st'.(m_sb) = st.(m_sb);
  gr_ino : st'.(freeinode) = st.(freeinode);
  gr_fb : st'.(freeblock) = st.(freeblock) + total nb' - total nb;
  gr_nb : nb <= nb';
  gr_zero : zero_above st';
  gr_slots : forall j, 0 <= j <= IND -> mslot st' din' j = mslot st din j \/ st.(freeblock) <= mslot st' din' j;
  gr_keep : forall n, 0 <= n < st.(freeblock) -> (forall j, 0 <= j <= IND -> mslot st din j <> 0 -> mslot st din j <> n) ->
    rd st' n = rd st n;
  gr_hdr : take 12 din' = take 12 din
}.

Lemma total_mono a b : a <= b -> total a <= total b.
Proof. intros Hab. unfold total. destruct (Z.ltb_spec NDIRECT a), (Z.ltb_spec NDIRECT b); lia. Qed.

Lemma grown_refl st din nb : whole st -> zero_above st -> grown st din nb st din nb.
Proof. intros Hw Hz. split; try done; try lia. Qed.

Lemma grown_trans st din nb st1 din1 nb1 st2 din2 nb2 :
  grown st din nb st1 din1 nb1 -> grown st1 din1 nb1 st2 din2 nb2 -> grown st din nb st2 din2 nb2.
Proof.
  intros G1 G2. pose proof (total_mono _ _ (gr_nb _ _ _ _ _ _ G1)). pose proof (gr_fb _ _ _ _ _ _ G1) as F1. pose proof (gr_fb _ _ _ _ _ _ G2) as F2.
  split; try apply G2.
  - by rewrite (gr_sb _ _ _ _ _ _ G2), (gr_sb _ _ _ _ _ _ G1).
  - by rewrite (gr_ino _ _ _ _ _ _ G2), (gr_ino _ _ _ _ _ _ G1).
  - lia.
  - pose proof (gr_nb _ _ _ _ _ _ G1). pose proof (gr_nb _ _ _ _ _ _ G2). lia.
  - intros j Hj. destruct (gr_slots _ _ _ _ _ _ G2 j Hj) as [->|?]; [by apply G1|right; lia].
  - intros n Hn Hs. rewrite (gr_keep _ _ _ _ _ _ G2); [by apply G1|lia|]. intros j Hj Hz.
    destruct (gr_slots _ _ _ _ _ _ G1 j Hj) as [E|?]; [rewrite E in *; auto|lia].
  - by rewrite (gr_hdr _ _ _ _ _ _ G2), (gr_hdr _ _ _ _ _ _ G1).
Qed.

Definition bump st : mkst := put freeblock_l (st.(freeblock) + 1) st.

Lemma new_block_eq st : 0 <= st.(freeblock) < FSSIZE -> new_block st = Ok st.(freeblock) (bump st).
Proof.
  intros Hf. unfold new_block. cbn [bind get gets obind set modify ret]. unfold bump. unfold u32.
  rewrite Z.mod_small; [done|]. cbn [freeblock_l view]. sizes. lia.
Qed.

Lemma da_set k x din j : length din = 64%nat -> 0 <= k <= NDIRECT -> 0 <= j <= NDIRECT -> 0 <= x < 2 ^ 32 ->
  da (set_addr k x din) j = if decide (j = k) then x else da din j.
Proof.
  intros Hl Hk Hj Hx. unfold NDIRECT in *. unfold da, set_addr. rewrite (xint_id x) by done. case_decide as E.
  - subst j. rewrite get_put_le by lia. by apply Z.mod_small.
  - apply get_put_le_ne; lia.
Qed.

Lemma length_set_addr k x din : length din = 64%nat -> 0 <= k <= NDIRECT -> length (set_addr k x din) = 64%nat.
Proof. intros Hl Hk. unfold NDIRECT in *. unfold set_addr. rewrite length_put_le; lia. Qed.

Lemma take_set_addr k x din : 0 <= k -> length din = 64%nat -> take 12 (set_addr k x din) = take 12 din.
Proof.
  intros Hk Hl. unfold set_addr, put_le. rewrite take_app_le by (rewrite length_take; lia). rewrite take_take. f_equal. lia.
Qed.

Lemma file_at_small st din data nb j : file_at st din data nb -> whole st -> st.(freeblock) <= FSSIZE -> 0 <= j <= IND ->
  0 <= mslot st din j < FSSIZE.
Proof.
  intros Hf Hw Hb Hj. destruct (decide (mslot st din j = 0)) as [->|Hz]; [sizes; lia|].
  pose proof (fa_range _ _ _ _ Hf j Hj Hz). sizes. lia.
Qed.

Lemma addr_da st din data nb k : file_at st din data nb -> whole st -> st.(freeblock) <= FSSIZE -> 0 <= k <= NDIRECT -> addr din k = da din k.
Proof.
  intros Hf Hw Hb Hk. unfold addr. fold (da din k). apply xint_id. destruct (decide (k = NDIRECT)) as [->|Hne].
  - rewrite <- (mslot_ind st). pose proof (file_at_small _ _ _ _ IND Hf Hw Hb). sizes. lia.
  - rewrite <- (mslot_direct st) by lia. pose proof (file_at_small _ _ _ _ k Hf Hw Hb). sizes. lia.
Qed.

Section Grow.
Context (st : mkst) (din data : list Z) (nb : Z).
Hypothesis (Hw : whole st) (Hz : zero_above st) (Hf : file_at st din data nb) (Hlow : nmeta <= st.(freeblock)).

Definition found (fbn nb' : Z) : Prop :=
  exists st' din', file_sector din fbn st = Ok (din', mslot st' din' fbn) st' /\ grown st din nb st' din' nb' /\
    file_at st' din' data nb' /\ mslot st' din' fbn <> 0.

Lemma need_addr_hit k : st.(freeblock) <= FSSIZE -> 0 <= k <= NDIRECT -> da din k <> 0 -> need_addr din k st = Ok din st.
Proof.
  intros Hb Hk Hd. unfold need_addr. rewrite (addr_da st din data nb) by done. by rewrite (proj2 (Z.eqb_neq _ _) Hd).
Qed.

Lemma need_addr_new k : st.(freeblock) < FSSIZE -> 0 <= k <= NDIRECT -> da din k = 0 ->
  need_addr din k st = Ok (set_addr k st.(freeblock) din) (bump st).
Proof.
  intros Hb Hk Hd. unfold need_addr. rewrite (addr_da st din data nb) by (done || lia). rewrite Hd. cbn [Z.eqb bind].
  rewrite new_block_eq; [done|]. sizes. lia.
Qed.

Lemma sector_hit fbn : st.(freeblock) <= FSSIZE -> 0 <= fbn < nb -> found fbn nb.
Proof.
  intros Hb Hfb. pose proof (fa_nb _ _ _ _ Hf) as [Hn _]. assert (Hs : mslot st din fbn <> 0) by (apply Hf; lia).
  exists st, din. split; [|split; [by apply grown_refl|done]]. unfold file_sector. destruct (Z.ltb_spec fbn NDIRECT) as [Hd|Hd].
  - rewrite mslot_direct in * by lia. cbn [bind]. rewrite need_addr_hit by (done || lia). cbn [obind ret]. by rewrite (addr_da st din data nb) by (done || lia).
  - assert (Hi : da din NDIRECT <> 0) by (apply (fa_ind _ _ _ _ Hf); lia). cbn [bind]. rewrite need_addr_hit by (done || sizes; lia).
    cbn [obind bind]. rewrite (addr_da st din data nb) by (done || sizes; lia).
    pose proof (file_at_small _ _ _ _ IND Hf Hw Hb ltac:(sizes; lia)) as Hr. rewrite mslot_ind in Hr. rewrite rsect_eq by done. cbn [obind].
    pose proof (file_at_small _ _ _ _ fbn Hf Hw Hb ltac:(sizes; lia)) as Hr'. rewrite mslot_entry in * by (done || lia).
    rewrite (proj2 (Z.eqb_neq _ _) Hs). cbn [ret]. rewrite xint_id; [done|]. sizes. lia.
Qed.

Lemma sector_direct : st.(freeblock) < FSSIZE -> nb < NDIRECT -> found nb (nb + 1).
Proof.
  intros Hb Hn. pose proof (fa_nb _ _ _ _ Hf) as [Hn0 _]. pose proof (fa_len _ _ _ _ Hf) as Hl. sizes.
  assert (Hd : da din nb = 0).
  { destruct (decide (da din nb = 0)) as [|E]; [done|]. rewrite <- (mslot_direct st) in E by lia. apply Hf in E; lia. }
  set (x := st.(freeblock)). set (din' := set_addr nb x din).
  assert (Hda : forall j, 0 <= j <= NDIRECT -> da din' j = if decide (j = nb) then x else da din j) by (intros j Hj; apply da_set; lia).
  assert (Hi : da din' NDIRECT = da din NDIRECT) by (rewrite Hda by lia; by rewrite decide_False by lia).
  assert (Hs : forall j, 0 <= j <= IND -> mslot (bump st) din' j = if decide (j = nb) then x else mslot st din j).
  { intros j Hj. destruct (decide (j < NDIRECT)) as [Hj'|Hj'].
    - rewrite !mslot_direct by lia. apply Hda. lia.
    - rewrite decide_False by lia. unfold mslot. rewrite (proj2 (Z.ltb_ge _ _)) by lia. by rewrite Hi. }
  assert (Ex : mslot (bump st) din' nb = x) by (rewrite Hs by lia; by rewrite decide_True).
  exists (bump st), din'. rewrite Ex. split; [|split; [|split; [|unfold x; lia]]].
  - unfold file_sector. rewrite (proj2 (Z.ltb_lt _ _)) by lia. cbn [bind]. rewrite need_addr_new by (done || lia). cbn [obind ret]. do 2 f_equal.
    change (xint (da din' nb) = x). rewrite Hda, decide_True by (done || lia). apply xint_id. unfold x. lia.
  - split; try done; [by destruct Hw; split| |lia| | |].
    + cbn. unfold total. rewrite !(proj2 (Z.ltb_ge _ _)) by lia. lia.
    + intros n Hn'. apply Hz. cbn in Hn'. lia.
    + intros j Hj. rewrite Hs by done. destruct (decide (j = nb)); [right; unfold x; lia|by left].
    + apply take_set_addr; [lia|done].
  - apply (file_at_grow st din data nb (bump st) din' x 0); try done; [lia|by apply length_set_addr; lia|cbn; lia|cbn; unfold x; lia|lia| |].
    + intros j Hj. apply Hs. lia.
    + rewrite Hs by lia. by rewrite !decide_False by lia.
Qed.

Lemma entry_slots st' din' a ind x j : da din' NDIRECT = a -> a <> 0 -> NDIRECT <= nb < MAXFILE -> 0 <= x < 2 ^ 32 -> length ind = 1024%nat ->
  rd st' a = put_le 4 (Z.to_nat (4 * (nb - NDIRECT))) x ind -> NDIRECT <= j < MAXFILE ->
  mslot st' din' j = if decide (j = nb) then x else get_le 4 ind (Z.to_nat (4 * (j - NDIRECT))).
Proof.
  intros Ha Ha0 Hnb Hx Hl Hr Hj. sizes. rewrite mslot_entry by (done || congruence). rewrite Ha, Hr. destruct (decide (j = nb)) as [->|Hne].
  - rewrite get_put_le by lia. by apply Z.mod_small.
  - apply get_put_le_ne; lia.
Qed.

Lemma bump_rd n : rd (bump st) n = rd st n.
Proof. done. Qed.

Lemma sector_entry : st.(freeblock) < FSSIZE -> NDIRECT < nb < MAXFILE -> found nb (nb + 1).
Proof.
  intros Hb Hn. sizes. set (a := da din NDIRECT). assert (Ha : a <> 0) by (apply (fa_ind _ _ _ _ Hf); lia).
  pose proof (fa_range _ _ _ _ Hf IND ltac:(lia) Ha) as Hr. rewrite mslot_ind in Hr. fold a in Hr.
  set (x := st.(freeblock)). set (e := Z.to_nat (4 * (nb - NDIRECT))). set (st' := put_sec a (put_le 4 e x (rd st a)) (bump st)).
  assert (Hwb : whole (bump st)) by (by destruct Hw; split). pose proof (wh_sec _ Hw a ltac:(lia)) as Hla.
  assert (He : get_le 4 (rd st a) e = 0).
  { destruct (decide (get_le 4 (rd st a) e = 0)) as [|E]; [done|]. unfold a, e in E. rewrite <- mslot_entry in E by (done || lia). apply Hf in E; lia. }
  assert (Hra : rd st' a = put_le 4 e x (rd st a)) by (unfold st'; rewrite rd_put by (done || lia); by rewrite decide_True).
  assert (Hro : forall n, 0 <= n -> n <> a -> rd st' n = rd st n).
  { intros n Hn0 Hn'. unfold st'. rewrite rd_put by (done || lia). by rewrite decide_False. }
  assert (Hs : forall j, 0 <= j < MAXFILE -> mslot st' din j = if decide (j = nb) then x else mslot st din j).
  { intros j Hj. destruct (decide (j < NDIRECT)) as [Hj'|Hj'].
    - rewrite decide_False by lia. by rewrite !mslot_direct by lia.
    - rewrite (entry_slots st' din a (rd st a) x j) by (done || unfold x; lia). destruct (decide (j = nb)); [done|]. symmetry. apply mslot_entry; [lia|done]. }
  assert (Ex : mslot st' din nb = x) by (rewrite Hs by lia; by rewrite decide_True).
  exists st', din. rewrite Ex. split; [|split; [|split; [|unfold x; lia]]].
  - unfold file_sector. rewrite (proj2 (Z.ltb_ge _ _)) by lia. cbn [bind]. rewrite need_addr_hit by (done || lia). cbn [obind bind].
    rewrite (addr_da st din data nb) by (done || lia). fold a. rewrite rsect_eq by (done || lia). cbn [obind]. fold e. rewrite He. cbn [Z.eqb bind].
    rewrite new_block_eq by lia. cbn [obind bind]. fold x. rewrite (xint_id x) by (unfold x; lia). rewrite wsect_eq by (done || lia). cbn [obind ret].
    rewrite get_put_le by (unfold e; lia). rewrite Z.mod_small by (unfold x; lia). rewrite xint_id by (unfold x; lia). done.
  - split; try done; [|cbn; unfold total|lia| | |].
    + apply whole_put; [done|lia|]. rewrite length_put_le; [done|unfold e; lia].
    + rewrite !(proj2 (Z.ltb_lt _ _)) by lia. unfold x. lia.
    + intros n Hn'. cbn in Hn'. rewrite Hro by lia. apply Hz. lia.
    + intros j Hj. destruct (decide (j = IND)) as [->|Hne]; [by left|]. rewrite Hs by lia. destruct (decide (j = nb)); [right; unfold x; lia|by left].
    + intros n Hn' Hk. apply Hro; [lia|]. intros ->. by apply (Hk IND ltac:(lia) Ha).
  - apply (file_at_grow st din data nb st' din x 0); try done; [lia|apply Hf|cbn; lia|cbn; unfold x; lia|lia| |].
    + by rewrite decide_False by lia.
    + intros j Hj Hj0. apply Hro; [pose proof (fa_range _ _ _ _ Hf j ltac:(lia) Hj0); lia|]. intros E.
      apply (fa_inj _ _ _ _ Hf j IND) in E; [lia..|done].
Qed.

Lemma sector_first : st.(freeblock) + 1 < FSSIZE -> nb = NDIRECT -> found nb (nb + 1).
Proof.
  intros Hb Hn. sizes. pose proof (fa_len _ _ _ _ Hf) as Hl.
  assert (Hd : da din NDIRECT = 0).
  { destruct (decide (da din NDIRECT = 0)) as [|E]; [done|]. apply (fa_ind _ _ _ _ Hf) in E. lia. }
  set (y := st.(freeblock)). set (x := y + 1). set (din' := set_addr NDIRECT y din).
  set (st' := put_sec y (put_le 4 0 x zeroes) (bump (bump st))).
  assert (Hwb : whole (bump (bump st))) by (by destruct Hw; split). pose proof (Hz y ltac:(unfold y; lia)) as Hzy.
  assert (Hda : forall j, 0 <= j <= NDIRECT -> da din' j = if decide (j = NDIRECT) then y else da din j) by (intros j Hj; apply da_set; unfold y; lia).
  assert (Hi : da din' NDIRECT = y) by (rewrite Hda by lia; by rewrite decide_True).
  assert (Hra : rd st' y = put_le 4 0 x zeroes) by (unfold st'; rewrite rd_put by (done || unfold y; lia); by rewrite decide_True).
  assert (Hro : forall n, 0 <= n -> n <> y -> rd st' n = rd st n).
  { intros n Hn0 Hn'. unfold st'. rewrite rd_put by (done || unfold y; lia). by rewrite decide_False. }
  assert (Hs : forall j, 0 <= j < MAXFILE -> mslot st' din' j = if decide (j = nb) then x else mslot st din j).
  { intros j Hj. destruct (decide (j < NDIRECT)) as [Hj'|Hj'].
    - rewrite decide_False by lia. rewrite !mslot_direct by lia. rewrite Hda by lia. by rewrite decide_False by lia.
    - rewrite (entry_slots st' din' y zeroes x j);
        [|done|unfold y; lia|lia|unfold x, y; lia|apply length_zblock|rewrite Hn; exact Hra|lia].
      destruct (decide (j = nb)); [done|]. rewrite mslot_none by (done || lia). unfold zeroes. apply get_le_zblock. }
  assert (Ex : mslot st' din' nb = x) by (rewrite Hs by lia; by rewrite decide_True).
  exists st', din'. rewrite Ex. split; [|split; [|split; [|unfold x, y; lia]]].
  - unfold file_sector. rewrite (proj2 (Z.ltb_ge _ _)) by lia. cbn [bind]. rewrite need_addr_new by (done || lia). cbn [obind bind]. fold y din'.
    assert (Ea : addr din' NDIRECT = y) by (change (xint (da din' NDIRECT) = y); rewrite Hi; apply xint_id; unfold y; lia). rewrite Ea.
    rewrite rsect_eq; [|by destruct Hw; split|unfold y; lia]. rewrite bump_rd, Hzy. cbn [obind]. rewrite Hn, Z.sub_diag. change (Z.to_nat (4 * 0)) with 0%nat.
    unfold zeroes at 1. rewrite get_le_zblock. cbn [Z.eqb bind]. rewrite new_block_eq by (cbn; lia). cbn [obind bind].
    change (freeblock (bump st)) with x. rewrite (xint_id x) by (unfold x, y; lia). rewrite wsect_eq by (done || unfold y; lia). cbn [obind ret].
    rewrite get_put_le by (unfold zeroes; rewrite length_zblock; lia). rewrite Z.mod_small by (unfold x, y; lia). rewrite xint_id by (unfold x, y; lia). done.
  - split; try done; [|cbn; unfold total|lia| | | |].
    + apply whole_put; [done|unfold y; lia|]. rewrite length_put_le; [apply length_zblock|unfold zeroes; rewrite length_zblock; lia].
    + rewrite (proj2 (Z.ltb_lt _ _)), (proj2 (Z.ltb_ge _ _)) by lia. lia.
    + intros n Hn'. cbn in Hn'. rewrite Hro by (unfold y; lia). apply Hz. lia.
    + intros j Hj. destruct (decide (j = IND)) as [->|Hne]; [right; rewrite mslot_ind, Hi; unfold y; lia|].
      rewrite Hs by lia. destruct (decide (j = nb)); [right; unfold x, y; lia|by left].
    + intros n Hn' Hk. apply Hro; [lia|unfold y; lia].
    + apply take_set_addr; [lia|done].
  - apply (file_at_grow st din data nb st' din' x y); try done; [lia|by apply length_set_addr; lia|cbn; lia|cbn; unfold x, y; lia|cbn; unfold x, y; lia| |].
    + rewrite mslot_ind, Hi. by rewrite decide_True.
    + intros j Hj Hj0. pose proof (fa_range _ _ _ _ Hf j ltac:(lia) Hj0). apply Hro; unfold y; lia.
Qed.

(** Every case. *)
Lemma file_sector_ok fbn : 0 <= fbn < MAXFILE -> fbn <= nb ->
  st.(freeblock) + total (Z.max nb (fbn + 1)) - total nb <= FSSIZE -> found fbn (Z.max nb (fbn + 1)).
Proof.
  intros Hr Hn Hroom. unfold total in Hroom. sizes. destruct (decide (fbn < nb)) as [Hlt|Hge].
  - rewrite Z.max_l in * by lia. apply sector_hit; lia.
  - assert (fbn = nb) as -> by lia. rewrite Z.max_r in * by lia. destruct (Z.ltb_spec NDIRECT (nb + 1)), (Z.ltb_spec NDIRECT nb); try lia.
    + apply sector_entry; lia.
    + apply sector_first; lia.
    + apply sector_direct; lia.
Qed.
End Grow.

(** ** Appending *)

(** The blocks that [n] bytes take. *)
Definition cdiv (n : Z) : Z := (n + 1023) / 1024.

Lemma grown_write st din nb data j b : whole st -> zero_above st -> file_at st din data nb -> st.(freeblock) <= FSSIZE ->
  0 <= j < MAXFILE -> mslot st din j <> 0 -> length b = 1024%nat ->
  grown st din nb (put_sec (mslot st din j) b st) din nb /\
  (forall k, mslot (put_sec (mslot st din j) b st) din k = mslot st din k).
Proof.
  intros Hw Hz Hf Hb Hj Hs Hl. sizes. pose proof (fa_range _ _ _ _ Hf j ltac:(lia) Hs) as Hr. set (x := mslot st din j) in *.
  assert (Hsl : forall k, mslot (put_sec x b st) din k = mslot st din k).
  { apply mslot_same. intros Hi. rewrite rd_put; [|done|lia|].
    - rewrite decide_False; [done|]. intros E. assert (IND = j); [|lia].
      apply (fa_inj _ _ _ _ Hf); rewrite ?mslot_ind; [lia|lia|exact E|done].
    - pose proof (file_at_small _ _ _ _ IND Hf Hw Hb ltac:(lia)) as H9. rewrite mslot_ind in H9. lia. }
  split; [|done]. split; try done; try lia.
  - apply whole_put; [done|lia|done].
  - cbn. lia.
  - intros n Hn. cbn in Hn. rewrite rd_put by (done || lia). rewrite decide_False by lia. by apply Hz.
  - intros k Hk. left. apply Hsl.
  - intros n Hn Hk. rewrite rd_put by (done || lia). rewrite decide_False; [done|]. intros ->. by apply (Hk j ltac:(lia) Hs).
Qed.

Lemma file_at_write st din data nb chunk : whole st -> zero_above st -> file_at st din data nb -> st.(freeblock) <= FSSIZE ->
  let off := Z.of_nat (length data) in
  let x := mslot st din (off / BSIZE) in
  off / BSIZE < nb -> off mod BSIZE + Z.of_nat (length chunk) <= BSIZE ->
  file_at (put_sec x (put_at (Z.to_nat (off mod BSIZE)) chunk (rd st x)) st) din (data ++ chunk) nb.
Proof.
  intros Hw Hz Hf Hb off x Hnb Hc. sizes. pose proof (fa_nb _ _ _ _ Hf) as [Hn0 Hn1].
  assert (Hfb : 0 <= off / BSIZE < MAXFILE) by (unfold off; szlia).
  assert (Hx : x <> 0) by (apply Hf; lia). pose proof (fa_range _ _ _ _ Hf (off / BSIZE) ltac:(lia) Hx) as Hr. fold x in Hr.
  pose proof (wh_sec _ Hw x ltac:(lia)) as Hlx. set (r := Z.to_nat (off mod BSIZE)).
  assert (Hrr : (r + length chunk <= 1024)%nat) by (unfold r; szlia).
  assert (Hlb : length (put_at r chunk (rd st x)) = 1024%nat) by (rewrite length_put_at by lia; done).
  destruct (grown_write st din nb data (off / BSIZE) (put_at r chunk (rd st x)) Hw Hz Hf Hb Hfb Hx Hlb) as [Hg Hsl]. fold x in Hg, Hsl.
  set (st' := put_sec x _ st) in *. destruct Hf as [F1 F2 F3 F4 F5 F6 F7]. split; try done; rewrite ?Hsl; try setoid_rewrite Hsl; try done.
  - split; [done|]. rewrite length_app. unfold off in *. szlia.
  - intros o Ho. rewrite length_app in Ho.
    assert (Hob : 0 <= Z.of_nat o / BSIZE <= off / BSIZE) by (unfold off in *; szlia).
    assert (Hso : mslot st din (Z.of_nat o / BSIZE) <> 0) by (apply F3; lia).
    pose proof (F5 (Z.of_nat o / BSIZE) ltac:(lia) Hso) as Hro. unfold st'. rewrite rd_put by (done || lia). destruct (decide (mslot st din (Z.of_nat o / BSIZE) = x)) as [E|E].
    + assert (Eb : Z.of_nat o / BSIZE = off / BSIZE) by (apply F6; [lia|lia|exact E|done]).
      rewrite lookup_put_at by lia. case_decide as Hin.
      * rewrite lookup_app_r by (unfold r, off in *; szlia). f_equal. unfold r, off in *. szlia.
      * assert (Hod : (o < length data)%nat) by (unfold r, off in *; szlia). rewrite lookup_app_l by done. rewrite <- F7 by done. by rewrite E.
    + assert (Hod : (o < length data)%nat).
      { destruct (decide (o < length data)%nat); [done|]. destruct E. f_equal. unfold off in *. szlia. }
      rewrite lookup_app_l by done. by apply F7.
Qed.

Lemma iappend_step st din data p : whole st -> zero_above st -> nmeta <= st.(freeblock) -> p <> [] ->
  let off := Z.of_nat (length data) in
  let n1 := Z.min (Z.of_nat (length p)) (BSIZE - off mod BSIZE) in
  file_at st din data (cdiv off) -> off < MAXFILE * BSIZE -> st.(freeblock) + total (cdiv (off + n1)) - total (cdiv off) <= FSSIZE ->
  exists st' din', iappend_body (din, off, p) st = Ok (inl (din', off + n1, drop (Z.to_nat n1) p)) st' /\
    grown st din (cdiv off) st' din' (cdiv (off + n1)) /\ file_at st' din' (data ++ take (Z.to_nat n1) p) (cdiv (off + n1)).
Proof.
  intros Hw Hz Hlow Hp off n1 Hf Hmax Hroom. sizes. set (fbn := off / BSIZE). assert (Hlp : (0 < length p)%nat) by (destruct p; cbn; [done|lia]).
  assert (Enb : Z.max (cdiv off) (fbn + 1) = cdiv (off + n1)) by (unfold cdiv, fbn, n1, off in *; szlia).
  assert (Hfb : 0 <= fbn < MAXFILE) by (unfold fbn, off in *; szlia).
  destruct (file_sector_ok st din data (cdiv off) Hw Hz Hf Hlow fbn Hfb) as (st1 & din1 & E1 & G1 & F1 & Hs1);
    [unfold cdiv, fbn, off; szlia|by rewrite Enb|]. rewrite Enb in *.
  pose proof (gr_fb _ _ _ _ _ _ G1) as Hfb1. set (x := mslot st1 din1 fbn) in *.
  pose proof (fa_range _ _ _ _ F1 fbn ltac:(lia) Hs1) as Hrx. fold x in Hrx.
  assert (Hlt : length (take (Z.to_nat n1) p) = Z.to_nat n1) by (rewrite length_take; unfold n1; lia).
  assert (Hc : off mod BSIZE + Z.of_nat (length (take (Z.to_nat n1) p)) <= BSIZE) by (rewrite Hlt; unfold n1; szlia).
  set (b := put_at (Z.to_nat (off mod BSIZE)) (take (Z.to_nat n1) p) (rd st1 x)).
  pose proof (wh_sec _ (gr_whole _ _ _ _ _ _ G1) x ltac:(lia)) as Hlx.
  assert (Hlb : length b = 1024%nat) by (unfold b; rewrite length_put_at by szlia; done).
  destruct (grown_write st1 din1 _ data fbn b (gr_whole _ _ _ _ _ _ G1) (gr_zero _ _ _ _ _ _ G1) F1 ltac:(lia) Hfb Hs1 Hlb) as [G2 _].
  exists (put_sec x b st1), din1. split; [|split; [by eapply grown_trans|]].
  - unfold iappend_body. rewrite (proj2 (Z.ltb_lt 0 _)) by lia. fold fbn. rewrite (proj2 (Z.ltb_lt fbn _)) by lia. cbn [bind]. rewrite E1. cbn [obind bind].
    assert (En : Z.min (Z.of_nat (length p)) (u32 (u32 ((fbn + 1) * BSIZE) - off)) = n1).
    { unfold n1. f_equal. assert (E9 : u32 ((fbn + 1) * BSIZE) = (fbn + 1) * BSIZE) by (apply Z.mod_small; unfold fbn, off in *; szlia).
      rewrite E9. unfold u32. rewrite (Z.mod_small (_ - off)); unfold fbn, off in *; szlia. }
    rewrite En. rewrite rsect_eq by (apply G1 || lia). cbn [obind bind].
    replace (off - fbn * BSIZE) with (off mod BSIZE) by (unfold fbn; szlia). fold b.
    rewrite wsect_eq by (apply G1 || lia). cbn [obind ret]. unfold u32. rewrite Z.mod_small; [done|]. unfold n1, off in *. szlia.
  - apply file_at_write; try done; [apply G1|apply G1|lia|unfold cdiv, n1, off; szlia].
Qed.

Lemma iappend_loop fuel : forall st din data p, (length p < fuel)%nat -> whole st -> zero_above st -> nmeta <= st.(freeblock) ->
  let off := Z.of_nat (length data) in
  let n := Z.of_nat (length p) in
  file_at st din data (cdiv off) -> off + n <= MAXFILE * BSIZE -> st.(freeblock) + total (cdiv (off + n)) - total (cdiv off) <= FSSIZE ->
  exists st' din', loop fuel iappend_body (din, off, p) st = Ok (din', off + n) st' /\
    grown st din (cdiv off) st' din' (cdiv (off + n)) /\ file_at st' din' (data ++ p) (cdiv (off + n)).
Proof.
  induction fuel as [|fuel IH]; intros st din data p Hfu Hw Hz Hlow off n Hf Hmax Hroom; [lia|]. rewrite loop_S. sizes.
  destruct (decide (p = [])) as [->|Hp].
  { exists st, din. unfold n in *. cbn. rewrite Z.add_0_r, app_nil_r in *. split; [done|]. split; [by apply grown_refl|done]. }
  assert (Hlp : (0 < length p)%nat) by (destruct p; cbn; [done|lia]).
  set (n1 := Z.min n (BSIZE - off mod BSIZE)). assert (Hn1 : 0 < n1 <= n) by (unfold n1, n; szlia).
  assert (Hroom1 : st.(freeblock) + total (cdiv (off + n1)) - total (cdiv off) <= FSSIZE).
  { assert (total (cdiv (off + n1)) <= total (cdiv (off + n))); [|lia]. apply total_mono. unfold cdiv. apply Z.div_le_mono; lia. }
  destruct (iappend_step st din data p Hw Hz Hlow Hp Hf ltac:(lia) Hroom1) as (st1 & din1 & E1 & G1 & F1). fold off n in E1, G1, F1. fold n1 in E1, G1, F1.
  rewrite E1. cbn [obind]. pose proof (gr_fb _ _ _ _ _ _ G1) as Hfb. pose proof (total_mono _ _ (gr_nb _ _ _ _ _ _ G1)).
  assert (Hlt : Z.of_nat (length (data ++ take (Z.to_nat n1) p)) = off + n1) by (rewrite length_app, length_take; unfold off, n1, n in *; lia).
  assert (Hld : Z.of_nat (length (drop (Z.to_nat n1) p)) = n - n1) by (rewrite length_drop; unfold n in *; lia).
  destruct (IH st1 din1 (data ++ take (Z.to_nat n1) p) (drop (Z.to_nat n1) p)) as (st2 & din2 & E2 & G2 & F2);
    rewrite ?Hlt, ?Hld in *; replace (off + n1 + (n - n1)) with (off + n) in * by lia; try done; try lia; try apply G1.
  rewrite <- app_assoc, take_drop in F2. exists st2, din2. split; [exact E2|]. split; [by eapply grown_trans|done].
Qed.

(** ** Inodes of the image *)

Definition iblk (inum : Z) : Z := 32 + inum / 16.
Definition ino st (inum : Z) : list Z := take 64 (drop (dinode_off inum) (rd st (iblk inum))).
Definition wr_ino (inum : Z) din st : mkst := put_sec (iblk inum) (put_at (dinode_off inum) din (rd st (iblk inum))) st.

Lemma IBLOCK_iblk inum : 0 <= inum < 208 -> IBLOCK inum new_sb = iblk inum /\ 32 <= iblk inum < 45.
Proof.
  intros Hi. unfold IBLOCK, iblk. change (sb_inodestart new_sb) with 32. change IPB with 16. unfold u32. change (2 ^ 32) with 4294967296.
  rewrite Z.mod_small; Z.to_euclidean_division_equations; lia.
Qed.

Lemma ino_off inum : 0 <= inum -> (dinode_off inum + 64 <= 1024)%nat.
Proof. intros Hi. unfold dinode_off. change IPB with 16. Z.to_euclidean_division_equations; lia. Qed.

Lemma rinode_eq st inum : whole st -> st.(m_sb) = new_sb -> 0 <= inum < 208 -> rinode inum st = Ok (ino st inum) st.
Proof.
  intros Hw Hs Hi. destruct (IBLOCK_iblk inum Hi) as [E Hr]. unfold rinode. cbn [bind get gets obind m_sb_l view]. rewrite Hs, E.
  rewrite rsect_eq by (done || sizes; lia). done.
Qed.

Lemma winode_eq st inum din : whole st -> st.(m_sb) = new_sb -> 0 <= inum < 208 -> winode inum din st = Ok tt (wr_ino inum din st).
Proof.
  intros Hw Hs Hi. destruct (IBLOCK_iblk inum Hi) as [E Hr]. unfold winode. cbn [bind get gets obind m_sb_l view]. rewrite Hs, E.
  rewrite rsect_eq by (done || sizes; lia). cbn [obind]. apply wsect_eq; [done|sizes; lia].
Qed.

Lemma rd_wr_ino st inum din n : whole st -> 0 <= inum < 208 -> 0 <= n -> n <> iblk inum -> rd (wr_ino inum din st) n = rd st n.
Proof.
  intros Hw Hi Hn Hne. destruct (IBLOCK_iblk inum Hi) as [_ Hr]. unfold wr_ino. rewrite rd_put by (done || sizes; lia). by rewrite decide_False.
Qed.

Lemma whole_wr st inum din : whole st -> 0 <= inum < 208 -> length din = 64%nat -> whole (wr_ino inum din st).
Proof.
  intros Hw Hi Hl. destruct (IBLOCK_iblk inum Hi) as [_ Hr]. apply whole_put; [done|sizes; lia|].
  rewrite length_put_at; [apply Hw; sizes; lia|]. rewrite (wh_sec _ Hw) by (sizes; lia). pose proof (ino_off inum). lia.
Qed.

Lemma ino_wr st inum din k : whole st -> 0 <= inum < 208 -> 0 <= k < 208 -> length din = 64%nat ->
  ino (wr_ino inum din st) k = if decide (k = inum) then din else ino st k.
Proof.
  intros Hw Hi Hk Hl. destruct (IBLOCK_iblk inum Hi) as [_ Hr], (IBLOCK_iblk k Hk) as [_ Hr']. unfold ino.
  pose proof (ino_off inum ltac:(lia)). pose proof (ino_off k ltac:(lia)). pose proof (wh_sec _ Hw (iblk inum) ltac:(sizes; lia)) as Hs.
  unfold wr_ino. rewrite rd_put by (done || sizes; lia). destruct (decide (k = inum)) as [->|Hne].
  - rewrite decide_True by done. rewrite <- Hl. apply take_drop_put_at. lia.
  - destruct (decide (iblk k = iblk inum)) as [E|E]; [|done]. rewrite E. apply take_drop_put_at_ne; [lia|].
    unfold iblk, dinode_off in *. change IPB with 16 in *. Z.to_euclidean_division_equations; lia.
Qed.

Lemma length_ino st inum : whole st -> 0 <= inum < 208 -> length (ino st inum) = 64%nat.
Proof.
  intros Hw Hi. destruct (IBLOCK_iblk inum Hi) as [_ Hr]. unfold ino. rewrite length_take, length_drop, (wh_sec _ Hw) by (sizes; lia).
  pose proof (ino_off inum). lia.
Qed.

(** The fields before the addresses: type, no device, one link, size. *)
Definition hdr (type size : Z) : list Z := le_bytes 2 type ++ [0; 0; 0; 0] ++ le_bytes 2 1 ++ le_bytes 4 size.

Lemma hdr_size din type size n : length din = 64%nat -> take 12 din = hdr type size -> take 12 (put_le 4 8 n din) = hdr type n.
Proof.
  intros Hl Eh. assert (E8 : take 8 din = take 8 (hdr type size)) by (rewrite <- Eh, take_take; done). unfold put_le. rewrite E8.
  rewrite app_assoc. rewrite take_app_length' by (rewrite length_app, length_le_bytes; done). reflexivity.
Qed.

Lemma mslot_hdr st n din j : length din = 64%nat -> 0 <= j -> mslot st (put_le 4 8 n din) j = mslot st din j.
Proof.
  intros Hl Hj. assert (Hd : forall k, 0 <= k -> da (put_le 4 8 n din) k = da din k) by (intros k Hk; apply get_put_le_ne; lia).
  unfold mslot. rewrite (Hd NDIRECT) by done. by rewrite (Hd j) by done.
Qed.

Lemma file_at_hdr st din data nb n : file_at st din data nb -> file_at st (put_le 4 8 n din) data nb.
Proof.
  intros Hf. pose proof (fa_len _ _ _ _ Hf) as Hl. sizes.
  assert (Es : forall j, 0 <= j -> mslot st (put_le 4 8 n din) j = mslot st din j) by (intros; by apply mslot_hdr).
  destruct Hf as [F1 F2 F3 F4 F5 F6 F7]. split.
  - rewrite length_put_le; lia.
  - done.
  - intros j Hj. rewrite Es by lia. auto.
  - rewrite Es by lia. done.
  - intros j Hj. rewrite Es by lia. auto.
  - intros j k Hj Hk. rewrite !Es by lia. auto.
  - intros o Ho. rewrite Es by szlia. auto.
Qed.

(** ** The invariant *)

Definition blocks_of (data : list Z) : Z := total (cdiv (Z.of_nat (length data))).
Definition used_by (F : list (Z * list Z)) : Z := foldr (fun f n => blocks_of f.2 + n) 0 F.

Lemma used_insert F k f g : F !! k = Some f -> used_by (<[k := g]> F) = used_by F + blocks_of g.2 - blocks_of f.2.
Proof.
  unfold used_by. revert k. induction F as [|h F IH]; intros [|k] E; cbn [foldr lookup list_lookup insert list_insert] in *; try done; [injection E as ->; lia|].
  rewrite IH by done. lia.
Qed.

Lemma used_app F G : used_by (F ++ G) = used_by F + used_by G.
Proof. unfold used_by. induction F as [|f F IH]; cbn [foldr app]; [done|]. rewrite IH. lia. Qed.

Definition kino st (k : nat) : list Z := ino st (Z.of_nat k + 1).

(** The image holds the files [F], the first of them in inode 1. *)
Record minv st (F : list (Z * list Z)) : Prop := {
  mv_whole : whole st;
  mv_sb : st.(m_sb) = new_sb;
  mv_ino : st.(freeinode) = Z.of_nat (length F) + 1;
  mv_max : (length F < 200)%nat;
  mv_zero : zero_above st;
  mv_fb : st.(freeblock) = nmeta + used_by F;
  mv_low : nmeta <= st.(freeblock);
  mv_file : forall k ty data, F !! k = Some (ty, data) ->
    file_at st (kino st k) data (cdiv (Z.of_nat (length data))) /\ take 12 (kino st k) = hdr ty (Z.of_nat (length data));
  mv_disj : forall k k' j j', (k < length F)%nat -> (k' < length F)%nat -> k <> k' -> 0 <= j <= IND -> 0 <= j' <= IND ->
    mslot st (kino st k) j = mslot st (kino st k') j' -> mslot st (kino st k) j = 0;
  mv_fresh : forall n, n = 0 \/ Z.of_nat (length F) < n < 208 -> ino st n = replicate 64 0;
  mv_super : rd st 1 = put_at 0 (sb_bytes new_sb) zeroes;
  mv_log : forall n, 2 <= n < 32 -> rd st n = zeroes
}.

Lemma din_size din ty n : 0 <= n < 2 ^ 32 -> take 12 din = hdr ty n -> get_le 4 din 8 = n.
Proof.
  intros Hn Eh. unfold get_le. rewrite take_drop_commute. change (8 + 4)%nat with 12%nat. rewrite Eh. change (drop 8 (hdr ty n)) with (le_bytes 4 n). rewrite le_val_le_bytes. by apply Z.mod_small.
Qed.

Section Append.
Context (st : mkst) (F : list (Z * list Z)) (k : nat) (ty : Z) (data p : list Z).
Hypothesis (Hm : minv st F) (Hk : F !! k = Some (ty, data)).
Abbreviation off := (Z.of_nat (length data)).
Abbreviation n := (Z.of_nat (length p)).
Abbreviation inum := (Z.of_nat k + 1).

(** The image after the loop and with the dinode written back. *)
Context (st1 : mkst) (din1 : list Z).
Hypothesis (Hg : grown st (kino st k) (cdiv off) st1 din1 (cdiv (off + n))).
Hypothesis (Hf1 : file_at st1 din1 (data ++ p) (cdiv (off + n))).
Hypothesis (Hfit : st1.(freeblock) <= FSSIZE).
Definition din2 : list Z := put_le 4 8 (off + n) din1.
Definition st2 : mkst := wr_ino inum din2 st1.

Lemma app_bounds : (k < length F)%nat /\ 0 <= inum < 208 /\ 0 <= off + n < 2 ^ 32.
Proof.
  pose proof (lookup_lt_Some _ _ _ Hk) as Hlt. pose proof (mv_max _ _ Hm). split; [done|]. split; [lia|].
  pose proof (fa_nb _ _ _ _ Hf1) as [? Hl]. rewrite length_app in Hl. sizes. lia.
Qed.

Lemma app_keep m : 0 <= m < st.(freeblock) -> (forall j, 0 <= j <= IND -> mslot st (kino st k) j <> 0 -> mslot st (kino st k) j <> m) ->
  m <> iblk inum -> rd st2 m = rd st m.
Proof.
  intros Hm0 Hs Hi. destruct app_bounds as (_ & Hr & _). unfold st2. rewrite rd_wr_ino by (apply Hg || done || lia).
  by apply (gr_keep _ _ _ _ _ _ Hg).
Qed.

Lemma app_meta m : 0 <= m < nmeta -> rd st1 m = rd st m.
Proof.
  intros Hm0. pose proof (mv_low _ _ Hm). apply (gr_keep _ _ _ _ _ _ Hg); [lia|]. intros j Hj Hz.
  pose proof (fa_range _ _ _ _ (proj1 (mv_file _ _ Hm k ty data Hk)) j Hj Hz). lia.
Qed.

Lemma app_ino i : 0 <= i < 208 -> ino st2 i = if decide (i = inum) then din2 else ino st i.
Proof.
  intros Hi. destruct app_bounds as (_ & Hr & _). unfold st2. pose proof (fa_len _ _ _ _ Hf1).
  rewrite ino_wr by (apply Hg || done || unfold din2; rewrite length_put_le; lia).
  destruct (decide (i = inum)); [done|]. unfold ino. rewrite app_meta; [done|]. destruct (IBLOCK_iblk i Hi). sizes. lia.
Qed.

Lemma app_cur : kino st2 k = din2.
Proof. destruct app_bounds as (_ & Hr & _). unfold kino. rewrite app_ino by done. by rewrite decide_True. Qed.

Lemma app_other k' : (k' < length F)%nat -> k' <> k -> kino st2 k' = kino st k'.
Proof. intros Hk' Hne. pose proof (mv_max _ _ Hm). unfold kino. rewrite app_ino by lia. by rewrite decide_False by lia. Qed.

Lemma app_slots_cur j : 0 <= j <= IND -> mslot st2 din2 j = mslot st1 din1 j.
Proof.
  intros Hj. destruct app_bounds as (_ & Hr & _). destruct (IBLOCK_iblk inum Hr) as [_ Hb]. unfold din2.
  rewrite mslot_hdr by (lia || apply Hf1). apply mslot_same. intros Hz. sizes.
  pose proof (fa_range _ _ _ _ Hf1 IND ltac:(lia) Hz) as Hx. rewrite mslot_ind in Hx. unfold st2. rewrite rd_wr_ino; [done|apply Hg|lia..].
Qed.

Lemma app_slots_other k' j : (k' < length F)%nat -> k' <> k -> 0 <= j <= IND -> mslot st2 (kino st k') j = mslot st (kino st k') j.
Proof.
  intros Hk' Hne Hj. destruct (lookup_lt_is_Some_2 _ _ Hk') as [[ty' data'] E]. destruct (mv_file _ _ Hm _ _ _ E) as [Hf' _].
  destruct app_bounds as (Hkl & Hr & _). destruct (IBLOCK_iblk inum Hr) as [_ Hb]. sizes.
  apply mslot_same. intros Hz. pose proof (fa_range _ _ _ _ Hf' IND ltac:(lia) Hz) as Hx. rewrite mslot_ind in Hx. apply app_keep; [lia| |lia].
  intros i Hi Hzi E'. apply Hzi. apply (mv_disj _ _ Hm k k' i IND); try done; try congruence; lia.
Qed.

Lemma app_file_cur : file_at st2 (kino st2 k) (data ++ p) (cdiv (off + n)) /\ take 12 (kino st2 k) = hdr ty (off + n).
Proof.
  destruct app_bounds as (_ & Hr & Hs). destruct (IBLOCK_iblk inum Hr) as [_ Hb]. rewrite app_cur. split.
  - apply (file_at_frame st1); [by apply file_at_hdr|done|]. intros j Hj Hz.
    pose proof (fa_range _ _ _ _ (file_at_hdr _ _ _ _ (off + n) Hf1) j Hj Hz). fold din2 in *. sizes. unfold st2. apply rd_wr_ino; (apply Hg || lia).
  - apply (hdr_size _ _ off); [apply Hf1|]. rewrite (gr_hdr _ _ _ _ _ _ Hg). by apply (mv_file _ _ Hm).
Qed.

Lemma app_file_other k' ty' data' : F !! k' = Some (ty', data') -> k' <> k ->
  file_at st2 (kino st2 k') data' (cdiv (Z.of_nat (length data'))) /\ take 12 (kino st2 k') = hdr ty' (Z.of_nat (length data')).
Proof.
  intros E Hne. pose proof (lookup_lt_Some _ _ _ E) as Hk'. rewrite app_other by done. destruct (mv_file _ _ Hm _ _ _ E) as [Hf' Hh]. split; [|done].
  destruct app_bounds as (Hkl & Hr & _). destruct (IBLOCK_iblk inum Hr) as [_ Hb]. sizes.
  apply (file_at_frame st); [done| |].
  - change (freeblock st2) with (freeblock st1). rewrite (gr_fb _ _ _ _ _ _ Hg). pose proof (total_mono _ _ (gr_nb _ _ _ _ _ _ Hg)). lia.
  - intros j Hj Hz. pose proof (fa_range _ _ _ _ Hf' j Hj Hz). apply app_keep; [lia| |lia].
    intros i Hi Hzi E'. apply Hzi. by apply (mv_disj _ _ Hm k k' i j).
Qed.

Lemma app_disj k1 k2 i j : (k1 < length F)%nat -> (k2 < length F)%nat -> k1 <> k2 -> 0 <= i <= IND -> 0 <= j <= IND ->
  mslot st2 (kino st2 k1) i = mslot st2 (kino st2 k2) j -> mslot st2 (kino st2 k1) i = 0.
Proof.
  intros H1 H2 Hne Hi Hj. pose proof (mv_low _ _ Hm) as Hlow. sizes.
  assert (Hold : forall k' j, (k' < length F)%nat -> 0 <= j <= IND -> mslot st (kino st k') j < st.(freeblock)).
  { intros k' j' Hk' Hj'. destruct (lookup_lt_is_Some_2 _ _ Hk') as [[ty' data'] E]. destruct (mv_file _ _ Hm _ _ _ E) as [Hf' _].
    destruct (decide (mslot st (kino st k') j' = 0)); [lia|]. by apply (fa_range _ _ _ _ Hf'). }
  assert (Hcur : forall j, 0 <= j <= IND -> mslot st2 (kino st2 k) j = mslot st (kino st k) j \/ st.(freeblock) <= mslot st2 (kino st2 k) j).
  { intros j' Hj'. rewrite app_cur, app_slots_cur by done. by apply Hg. }
  assert (Hoth : forall k' j, (k' < length F)%nat -> k' <> k -> 0 <= j <= IND -> mslot st2 (kino st2 k') j = mslot st (kino st k') j).
  { intros k' j' Hk' Hne' Hj'. rewrite app_other by done. by apply app_slots_other. }
  destruct (decide (k1 = k)) as [->|N1], (decide (k2 = k)) as [->|N2]; [done| | |].
  - rewrite (Hoth k2) by done. pose proof (Hold k2 j H2 Hj). destruct (Hcur i Hi) as [->|?]; [by apply (mv_disj _ _ Hm)|lia].
  - rewrite (Hoth k1) by done. pose proof (Hold k1 i H1 Hi). destruct (Hcur j Hj) as [->|?]; [by apply (mv_disj _ _ Hm)|lia].
  - rewrite !Hoth by done. by apply (mv_disj _ _ Hm).
Qed.

Lemma app_minv : minv st2 (<[k := (ty, data ++ p)]> F).
Proof.
  destruct app_bounds as (Hkl & Hr & Hs). destruct (IBLOCK_iblk inum Hr) as [_ Hb]. sizes. pose proof (mv_low _ _ Hm) as Hlow.
  pose proof (total_mono _ _ (gr_nb _ _ _ _ _ _ Hg)) as Hmono. pose proof (gr_fb _ _ _ _ _ _ Hg) as Hfb.
  split; rewrite ?length_insert; try apply Hm.
  - apply whole_wr; [apply Hg|done|]. unfold din2. rewrite length_put_le; rewrite (fa_len _ _ _ _ Hf1); lia.
  - change (m_sb st1 = new_sb). rewrite (gr_sb _ _ _ _ _ _ Hg). apply Hm.
  - change (freeinode st1 = Z.of_nat (length F) + 1). rewrite (gr_ino _ _ _ _ _ _ Hg). apply Hm.
  - intros m Hm'. change (freeblock st2) with (freeblock st1) in Hm'. unfold st2. rewrite rd_wr_ino by (apply Hg || lia). by apply (gr_zero _ _ _ _ _ _ Hg).
  - change (freeblock st1 = nmeta + used_by (<[k := (ty, data ++ p)]> F)). rewrite (used_insert _ _ _ _ Hk), Hfb, (mv_fb _ _ Hm).
    unfold blocks_of. cbn [snd]. rewrite length_app, Nat2Z.inj_add. lia.
  - change (nmeta <= freeblock st1). lia.
  - intros k' ty' data' E. destruct (decide (k' = k)) as [->|Hne].
    + rewrite list_lookup_insert_eq in E by done. injection E as <- <-. rewrite length_app, Nat2Z.inj_add. apply app_file_cur.
    + rewrite list_lookup_insert_ne in E by done. by apply app_file_other.
  - intros k1 k2 i j. apply app_disj.
  - intros m Hm'. rewrite app_ino by lia. rewrite decide_False by lia. by apply Hm.
  - unfold st2. rewrite rd_wr_ino by (apply Hg || lia). rewrite app_meta by lia. apply (mv_super _ _ Hm).
  - intros m Hm'. unfold st2. rewrite rd_wr_ino by (apply Hg || lia). rewrite app_meta by lia. by apply (mv_log _ _ Hm).
Qed.
End Append.

Lemma iappend_eq st F k ty data p : minv st F -> F !! k = Some (ty, data) ->
  let n := Z.of_nat (length data) + Z.of_nat (length p) in
  n <= MAXFILE * BSIZE -> nmeta + used_by (<[k := (ty, data ++ p)]> F) <= FSSIZE ->
  exists st', iappend (Z.of_nat k + 1) p st = Ok tt st' /\ minv st' (<[k := (ty, data ++ p)]> F).
Proof.
  intros Hm Hk n Hmax Hroom. sizes. pose proof (lookup_lt_Some _ _ _ Hk) as Hlt. pose proof (mv_max _ _ Hm) as Hml.
  destruct (mv_file _ _ Hm _ _ _ Hk) as [Hf Hh]. rewrite (used_insert _ _ _ _ Hk) in Hroom. pose proof (mv_fb _ _ Hm) as Hfb.
  unfold blocks_of in Hroom. cbn [snd] in Hroom. rewrite length_app, Nat2Z.inj_add in Hroom.
  destruct (iappend_loop (S (length p)) st (kino st k) data p) as (st1 & din1 & E1 & Hg & Hf1);
    [lia|apply Hm|apply Hm|apply Hm|done|lia|lia|].
  pose proof (gr_fb _ _ _ _ _ _ Hg) as Hfb1.
  exists (st2 k data p st1 din1). split; [|by eapply app_minv; try done; lia].
  unfold iappend. cbn [bind]. rewrite rinode_eq by (apply Hm || lia). cbn [obind bind]. fold (kino st k).
  rewrite (din_size _ ty (Z.of_nat (length data))) by (done || lia). rewrite (xint_id (Z.of_nat (length data))) by lia. rewrite E1. cbn [obind].
  rewrite xint_id by lia. rewrite winode_eq; [done|apply Hg| |lia]. rewrite (gr_sb _ _ _ _ _ _ Hg). apply Hm.
Qed.
