(* ===== verification/MkfsThm.v ===== *)
(** * The file system that mkfs makes

    The image of the whole program holds the directory and the files of the
    command line.  Seen by the kernel, it has the layout and the files that
    the theorems about the kernel's file system ask for. *)

From S2P Require Import Prelude Riscv Memory Spinlock Kalloc Vm Tty Proc ProcSpec Sleeplock Uart UartThm Bio BioSpec Block Log LogCrash LogSpec LogOps Txn Fs FsSpec FsBlock FsFile FsWrite BioThm LogThm FsRead Mkfs MkfsSpec.

Implicit Types (st : mkst) (din data : list Z).

(** ** New inodes *)

Definition new_din (type : Z) : list Z := put_le 4 8 0 (put_le 2 6 1 (put_le 2 0 type (replicate 64 0))).

Lemma get_le_zeroes w n off : get_le w (replicate n 0) off = 0.
Proof.
  unfold get_le. rewrite drop_replicate, take_replicate. induction (w `min` (n - off))%nat as [|m IH]; [done|]. cbn. by rewrite IH.
Qed.

Lemma length_new_din type : length (new_din type) = 64%nat.
Proof. reflexivity. Qed.

Lemma new_din_slots st type j : 0 <= j <= IND -> mslot st (new_din type) j = 0.
Proof.
  intros Hj. assert (Hd : forall k, 0 <= k <= NDIRECT -> da (new_din type) k = 0).
  { intros k Hk. unfold da, new_din. sizes. set (d1 := put_le 2 0 type (replicate 64 0)). set (d2 := put_le 2 6 1 d1).
    assert (L1 : length d1 = 64%nat) by reflexivity. assert (L2 : length d2 = 64%nat) by reflexivity.
    rewrite (get_put_le_ne 4 4 8) by lia. unfold d2. rewrite get_put_le_ne by lia. unfold d1.
    rewrite get_put_le_ne by (rewrite ?length_replicate; lia). apply get_le_zeroes. }
  sizes. unfold mslot. destruct (Z.ltb_spec j NDIRECT); [apply Hd; lia|]. rewrite Hd by lia. by destruct (j <? MAXFILE).
Qed.

Lemma file_at_new st type : file_at st (new_din type) [] 0.
Proof.
  sizes. split; [done|cbn; lia| | | | |].
  - intros j Hj. rewrite new_din_slots by lia. lia.
  - rewrite new_din_slots by lia. lia.
  - intros j Hj. by rewrite new_din_slots.
  - intros j k Hj Hk. by rewrite new_din_slots.
  - intros o Ho. cbn in Ho. lia.
Qed.

Lemma mk_ialloc_eq st F type : minv st F -> (length F < 199)%nat -> 0 <= type < 2 ^ 16 ->
  exists st', mk_ialloc type st = Ok (Z.of_nat (length F) + 1) st' /\ minv st' (F ++ [(type, [])]).
Proof.
  intros Hm Hl Ht. sizes. set (inum := Z.of_nat (length F) + 1). assert (Hi : 0 <= inum < 208) by (unfold inum; lia).
  destruct (IBLOCK_iblk inum Hi) as [_ Hb]. set (st0 := put freeinode_l (inum + 1) st). pose proof (mv_low _ _ Hm) as Hlow.
  assert (Hw0 : whole st0) by (destruct (mv_whole _ _ Hm); by split). set (st' := wr_ino inum (new_din type) st0).
  assert (Hino : forall n, 0 <= n < 208 -> ino st' n = if decide (n = inum) then new_din type else ino st n) by (intros n Hn; exact (ino_wr st0 inum (new_din type) n Hw0 Hi Hn eq_refl)).
  assert (Hrd : forall n, 0 <= n -> n <> iblk inum -> rd st' n = rd st n) by (intros n Hn Hne; exact (rd_wr_ino st0 inum (new_din type) n Hw0 Hi Hn Hne)).
  assert (Hold : forall k, (k < length F)%nat -> kino st' k = kino st k).
  { intros k Hk. unfold kino. rewrite Hino by lia. by rewrite decide_False by (unfold inum; lia). }
  assert (Hnew : kino st' (length F) = new_din type) by (unfold kino; rewrite Hino by done; by rewrite decide_True).
  assert (Hsl : forall k j, (k < length F)%nat -> mslot st' (kino st k) j = mslot st (kino st k) j).
  { intros k j Hk. apply mslot_same. intros Hz. destruct (lookup_lt_is_Some_2 _ _ Hk) as [[ty data] E]. destruct (mv_file _ _ Hm _ _ _ E) as [Hf _].
    pose proof (fa_range _ _ _ _ Hf IND ltac:(lia) Hz) as Hx. rewrite mslot_ind in Hx. apply Hrd; lia. }
  exists st'. split.
  - unfold mk_ialloc. cbn [bind get gets obind set modify]. change (view freeinode_l st) with (freeinode st). rewrite (mv_ino _ _ Hm). fold inum.
    rewrite (xshort_id type) by done. change (xint 0) with 0. change (xshort 1) with 1. fold (new_din type).
    unfold u32. rewrite Z.mod_small by lia. fold st0. rewrite winode_eq; [done|done|apply Hm|done].
  - split; rewrite ?length_app; cbn [length]; try apply Hm.
    + by apply whole_wr.
    + change (inum + 1 = Z.of_nat (length F + 1) + 1). unfold inum. lia.
    + lia.
    + intros n Hn. change (freeblock st') with (freeblock st) in Hn. rewrite Hrd by lia. by apply (mv_zero _ _ Hm).
    + change (freeblock st = nmeta + used_by (F ++ [(type, [])])). rewrite used_app. change (used_by [(type, [])]) with 0. rewrite (mv_fb _ _ Hm). lia.
    + intros k ty data E. destruct (decide (k < length F)%nat) as [Hk|Hk].
      * rewrite lookup_app_l in E by done. rewrite Hold by done. destruct (mv_file _ _ Hm _ _ _ E) as [Hf Hh]. split; [|done].
        apply (file_at_frame st); [done|done|]. intros j Hj Hz. pose proof (fa_range _ _ _ _ Hf j Hj Hz). apply Hrd; lia.
      * assert (k = length F) as -> by (apply lookup_lt_Some in E; rewrite length_app in E; cbn in E; lia).
        rewrite list_lookup_middle in E by done. injection E as <- <-. rewrite Hnew. split; [apply file_at_new|reflexivity].
    + intros k k' j j' Hk Hk' Hne Hj Hj'. destruct (decide (k = length F)) as [->|Nk]; [rewrite Hnew; by rewrite new_din_slots by done|].
      destruct (decide (k' = length F)) as [->|Nk']; [rewrite Hnew; by rewrite (new_din_slots _ _ j') by done|].
      rewrite !Hold, !Hsl by lia. apply (mv_disj _ _ Hm); (done || lia).
    + intros n Hn. rewrite Hino by lia. rewrite decide_False by (unfold inum; lia). apply Hm. lia.
    + rewrite Hrd by lia. apply (mv_super _ _ Hm).
    + intros n Hn. rewrite Hrd by lia. by apply (mv_log _ _ Hm).
Qed.

(** ** The empty image *)

Lemma write_zeroes n : forall a st, length st.(img) = a -> (a + n <= 2000)%nat ->
  iterM (seqZ (Z.of_nat a) (Z.of_nat n)) (fun i => wsect i zeroes) st = Ok tt (put img_l (st.(img) ++ replicate n zeroes) st).
Proof.
  induction n as [|n IH]; intros a st Ha Hn; [cbn; rewrite app_nil_r; by destruct st|].
  rewrite seqZ_cons by lia. cbn [iterM bind]. unfold wsect at 1, update, modify. rewrite sector_id by (sizes; lia). rewrite Nat2Z.id.
  unfold write_sector. cbn [img_l view]. rewrite (proj2 (Nat.ltb_ge _ _)) by lia. rewrite Ha, Nat.sub_diag. cbn [obind replicate app].
  replace (Z.succ (Z.of_nat a)) with (Z.of_nat (S a)) by lia. replace (Z.pred (Z.of_nat (S n))) with (Z.of_nat n) by lia.
  rewrite IH by (cbn; rewrite ?length_app; cbn; lia). cbn. by rewrite <- app_assoc.
Qed.

Definition blank : mkst := Mkst (<[1%nat := put_at 0 (sb_bytes new_sb) zeroes]> (replicate 2000 zeroes)) new_sb 1 nmeta.

Lemma rd_blank n : 0 <= n < FSSIZE -> rd blank n = if decide (n = 1) then put_at 0 (sb_bytes new_sb) zeroes else zeroes.
Proof.
  intros Hn. sizes. unfold rd. cbn [img blank]. case_decide as E.
  - subst n. apply list_lookup_total_insert_eq. rewrite length_replicate. lia.
  - rewrite list_lookup_total_insert_ne by lia. apply lookup_total_replicate_2. lia.
Qed.

Lemma blank_minv : minv blank [].
Proof.
  sizes. assert (Hl : length (put_at 0 (sb_bytes new_sb) zeroes) = 1024%nat) by (vm_compute; reflexivity). split; try done; try (cbn; lia).
  - split; [unfold blank; cbn [img]; by rewrite length_insert, length_replicate|]. intros n Hn. rewrite rd_blank by done. case_decide; [done|apply length_zblock].
  - intros n Hn. cbn [blank freeblock] in Hn. rewrite rd_blank by lia. by rewrite decide_False by lia.
  - intros n Hn. destruct (IBLOCK_iblk n ltac:(cbn in Hn; lia)) as [_ Hb]. unfold ino. rewrite rd_blank by lia. rewrite decide_False by lia.
    unfold zeroes, zblock. rewrite drop_replicate, take_replicate. f_equal. pose proof (ino_off n ltac:(cbn in Hn; lia)). lia.
  - intros n Hn. rewrite rd_blank by lia. by rewrite decide_False by lia.
Qed.

Lemma length_dirent inum name : length (dirent inum name) = 16%nat.
Proof.
  unfold dirent. rewrite length_app, length_le_bytes. assert (E : forall n l, length (strncpy l n) = n); [|by rewrite E].
  induction n as [|n IH]; intros l; [done|]. cbn. destruct (ch l =? 0); cbn; [by rewrite length_replicate|by rewrite IH].
Qed.

(** ** The files of the image *)

(** The directory and the files for the given names and contents. *)
Definition entries (fs : list (list Z * list Z)) : list Z :=
  dirent 1 (str ".") ++ dirent 1 (str "..") ++ concat (imap (fun i f => dirent (Z.of_nat i + 2) (shortname f.1)) fs).
Definition tree (fs : list (list Z * list Z)) : list (Z * list Z) := (T_DIR, entries fs) :: ((fun f => (T_FILE, f.2)) <$> fs).

Lemma entries_app fs f : entries (fs ++ [f]) = entries fs ++ dirent (Z.of_nat (length fs) + 2) (shortname f.1).
Proof. unfold entries. rewrite imap_app. cbn. rewrite concat_app. cbn. rewrite app_nil_r, Nat.add_0_r. by rewrite !app_assoc. Qed.

Lemma length_entries fs : length (entries fs) = (16 * (length fs + 2))%nat.
Proof.
  induction fs as [|f fs IH] using rev_ind; [reflexivity|]. rewrite entries_app, !length_app, IH, length_dirent. cbn. lia.
Qed.

Lemma blocks_mono (d d' : list Z) : (length d <= length d')%nat -> blocks_of d <= blocks_of d'.
Proof. intros Hl. unfold blocks_of. apply total_mono. unfold cdiv. apply Z.div_le_mono; lia. Qed.

Lemma total_pos nb : 0 <= nb -> 0 <= total nb.
Proof. intros Hn. unfold total. destruct (_ <? _); lia. Qed.

Lemma blocks_pos d : 0 <= blocks_of d.
Proof. apply total_pos. unfold cdiv. apply Z.div_pos; lia. Qed.

(** The reads of a file, appended one after the other. *)
Lemma append_chunks chunks : forall st F k ty data, minv st F -> F !! k = Some (ty, data) ->
  Z.of_nat (length (data ++ concat chunks)) <= MAXFILE * BSIZE -> nmeta + used_by (<[k := (ty, data ++ concat chunks)]> F) <= FSSIZE ->
  exists st', iterM chunks (iappend (Z.of_nat k + 1)) st = Ok tt st' /\ minv st' (<[k := (ty, data ++ concat chunks)]> F).
Proof.
  induction chunks as [|c chunks IH]; intros st F k ty data Hm Hk Hmax Hroom; cbn [iterM concat].
  { exists st. rewrite app_nil_r. split; [done|]. by rewrite list_insert_id. }
  pose proof (lookup_lt_Some _ _ _ Hk) as Hlt. cbn [concat] in *. rewrite app_assoc in *.
  destruct (iappend_eq st F k ty data c Hm Hk) as (st1 & E1 & Hm1).
  - rewrite !length_app in Hmax. lia.
  - rewrite (used_insert _ _ _ _ Hk) in Hroom. rewrite (used_insert _ _ _ _ Hk). cbn [snd] in *. pose proof (blocks_mono (data ++ c) ((data ++ c) ++ concat chunks)) as Hb.
    rewrite (length_app (data ++ c)) in Hb. lia.
  - cbn [bind]. rewrite E1. cbn [obind]. destruct (IH st1 (<[k := (ty, data ++ c)]> F) k ty (data ++ c) Hm1) as (st2 & E2 & Hm2).
    + by apply list_lookup_insert_eq.
    + done.
    + by rewrite list_insert_insert_eq.
    + exists st2. rewrite list_insert_insert_eq in Hm2. done.
Qed.

Lemma tree_dir fs : tree fs !! 0%nat = Some (T_DIR, entries fs).
Proof. done. Qed.

Lemma length_tree fs : length (tree fs) = S (length fs).
Proof. cbn. by rewrite length_fmap. Qed.

(** One more entry, and one more file. *)
Lemma tree_app fs f : tree (fs ++ [f]) = <[0%nat := (T_DIR, entries fs ++ dirent (Z.of_nat (length fs) + 2) (shortname f.1))]> (tree fs) ++ [(T_FILE, f.2)].
Proof. unfold tree. rewrite entries_app, fmap_app. done. Qed.

Lemma mkfs_init_eq : exists st, mkfs_init mkst0 = Ok ROOTINO st /\ minv st (tree []).
Proof.
  destruct (mk_ialloc_eq blank [] T_DIR blank_minv) as (st1 & E1 & Hm1); [cbn; lia|unfold T_DIR; lia|]. cbn [app length Z.of_nat Z.add] in E1, Hm1.
  destruct (iappend_eq st1 _ 0 T_DIR [] (dirent 1 (str ".")) Hm1 eq_refl) as (st2 & E2 & Hm2); [vm_compute; congruence..|].
  destruct (iappend_eq st2 _ 0 T_DIR (dirent 1 (str ".")) (dirent 1 (str "..")) Hm2 eq_refl) as (st3 & E3 & Hm3); [vm_compute; congruence..|].
  exists st3. split; [|exact Hm3]. unfold mkfs_init. cbn [bind set modify obind].
  pose proof (write_zeroes 2000 0 (put freeblock_l nmeta (put m_sb_l new_sb (put img_l [] mkst0))) eq_refl ltac:(lia)) as Ez.
  change (Z.of_nat 0) with 0 in Ez. change (Z.of_nat 2000) with FSSIZE in Ez. rewrite Ez. cbn [obind bind get gets].
  set (st0 := put img_l _ _). assert (Ei : img st0 = replicate 2000 zeroes) by reflexivity. assert (Hw0 : whole st0).
  { split; [by rewrite Ei, length_replicate|]. intros n Hn. unfold rd. rewrite Ei, lookup_total_replicate_2 by (sizes; lia). apply length_zblock. }
  assert (Eb : put_sec 1 (put_at 0 (sb_bytes new_sb) zeroes) st0 = blank) by (unfold put_sec; rewrite Ei; reflexivity).
  change (view m_sb_l st0) with new_sb. rewrite (wsect_eq st0 1 _ Hw0) by (sizes; lia). rewrite Eb. clearbody st0. cbn [obind bind]. rewrite E1. cbn [obind].
  change (Z.of_nat 0 + 1) with ROOTINO in *. rewrite Z.eqb_refl. cbn [negb bind]. change (dirent ROOTINO) with (dirent 1). rewrite E2. cbn [obind bind]. rewrite E3. done.
Qed.

Section Files.
Context `{Host}.

Lemma add_file_eq st fs path chunks : minv st (tree fs) -> (length fs < 198)%nat -> host_reads path = Some chunks -> 47 ∉ Mkfs.base path ->
  Z.of_nat (length (concat chunks)) <= MAXFILE * BSIZE -> nmeta + used_by (tree (fs ++ [(path, concat chunks)])) <= FSSIZE ->
  exists st', add_file ROOTINO path st = Ok tt st' /\ minv st' (tree (fs ++ [(path, concat chunks)])).
Proof.
  intros Hm Hlen Hr Hs Hmax Hroom. rewrite tree_app in *. cbn [fst snd] in *. set (de := dirent _ (shortname path)) in *.
  pose proof (length_tree fs) as Hlt. pose proof (length_entries fs) as Hle. pose proof (length_dirent (Z.of_nat (length fs) + 2) (shortname path)) as Hld. fold de in Hld.
  destruct (mk_ialloc_eq st (tree fs) T_FILE Hm) as (st1 & E1 & Hm1); [lia|unfold T_FILE; lia|]. rewrite Hlt in E1.
  set (F1 := tree fs ++ [(T_FILE, [])]) in *. set (F2 := <[0%nat := (T_DIR, entries fs ++ de)]> F1).
  assert (Hk0 : F1 !! 0%nat = Some (T_DIR, entries fs)) by done.
  assert (HF : <[length (tree fs) := (T_FILE, concat chunks)]> F2 = <[0%nat := (T_DIR, entries fs ++ de)]> (tree fs) ++ [(T_FILE, concat chunks)]).
  { unfold F2, F1. rewrite (insert_app_l _ _ 0) by (rewrite Hlt; lia). rewrite insert_app_r_alt by (rewrite length_insert; lia).
    by rewrite length_insert, Nat.sub_diag. }
  assert (HkF : F2 !! length (tree fs) = Some (T_FILE, [])).
  { unfold F2, F1. rewrite list_lookup_insert_ne by lia. by rewrite list_lookup_middle. }
  rewrite <- HF in *. rewrite (used_insert _ _ _ _ HkF) in Hroom. cbn [snd] in Hroom. pose proof (blocks_mono [] (concat chunks) ltac:(cbn; lia)) as Hb.
  destruct (iappend_eq st1 F1 0 T_DIR (entries fs) de Hm1 Hk0) as (st2 & E2 & Hm2); [rewrite Hle, Hld; sizes; lia|fold F2; lia|]. fold F2 in Hm2.
  destruct (append_chunks chunks st2 F2 (length (tree fs)) T_FILE [] Hm2 HkF) as (st3 & E3 & Hm3); [done|rewrite (used_insert _ _ _ _ HkF); exact Hroom|].
  exists st3. split; [|exact Hm3]. unfold add_file. rewrite bool_decide_eq_false_2 by done. rewrite Hr. cbn [bind]. rewrite E1. cbn [obind bind].
  change (Z.of_nat 0 + 1) with ROOTINO in E2. rewrite Hlt in E3. replace (Z.of_nat (S (length fs)) + 1) with (Z.of_nat (length fs) + 2) in * by lia.
  fold de. rewrite E2. cbn [obind]. exact E3.
Qed.

(** What the command line asks for. *)
Definition host_file (path : list Z) : list Z * list Z := (path, concat (default [] (host_reads path))).

Record readable (path : list Z) : Prop := {
  ra_reads : host_reads path <> None;
  ra_name : 47 ∉ Mkfs.base path;
  ra_size : Z.of_nat (length (host_file path).2) <= MAXFILE * BSIZE
}.

Lemma used_tree_mono fs gs : used_by (tree fs) <= used_by (tree (fs ++ gs)).
Proof.
  unfold tree. rewrite fmap_app. change (used_by ((T_DIR, ?d) :: ?l)) with (blocks_of d + used_by l).
  rewrite used_app. pose proof (blocks_mono (entries fs) (entries (fs ++ gs))) as Hb. rewrite !length_entries, length_app in Hb.
  assert (Hp : forall l : list (list Z * list Z), 0 <= used_by ((fun f => (T_FILE, f.2)) <$> l)).
  { unfold used_by. induction l as [|f l IH]; cbn [fmap list_fmap foldr snd]; [done|]. pose proof (blocks_pos f.2). lia. }
  specialize (Hp gs). lia.
Qed.

Lemma add_files_eq paths : forall st fs, minv st (tree fs) -> (length fs + length paths <= 198)%nat -> Forall readable paths ->
  nmeta + used_by (tree (fs ++ (host_file <$> paths))) <= FSSIZE ->
  exists st', iterM paths (add_file ROOTINO) st = Ok tt st' /\ minv st' (tree (fs ++ (host_file <$> paths))).
Proof.
  induction paths as [|p paths IH]; intros st fs Hm Hl Hr Hroom; cbn [fmap list_fmap iterM] in *.
  { exists st. by rewrite app_nil_r. }
  inversion Hr as [|? ? [Hp Hn Hs] Hr']; subst. destruct (host_reads p) as [chunks|] eqn:Ec; [|done].
  assert (Ef : host_file p = (p, concat chunks)) by (unfold host_file; by rewrite Ec). rewrite Ef in *. cbn [snd] in Hs.
  replace (fs ++ (p, concat chunks) :: (host_file <$> paths)) with ((fs ++ [(p, concat chunks)]) ++ (host_file <$> paths)) in * by (by rewrite <- app_assoc).
  cbn in Hl. destruct (add_file_eq st fs p chunks Hm ltac:(lia) Ec Hn Hs) as (st1 & E1 & Hm1).
  - etransitivity; [|exact Hroom]. pose proof (used_tree_mono (fs ++ [(p, concat chunks)]) (host_file <$> paths)). lia.
  - cbn [bind]. rewrite E1. cbn [obind]. apply IH; try done. rewrite length_app. cbn. lia.
Qed.
End Files.

(** ** The finished image *)

Lemma length_bitmap u : length (bitmap u) = 1024%nat.
Proof.
  unfold bitmap. generalize (seqZ 0 u). intros l. assert (E : forall d, length (foldl set_bit d l) = length d); [|rewrite E; apply length_zblock].
  induction l as [|x l IH]; intros d; [done|]. cbn. by rewrite IH, length_set_bit.
Qed.

Lemma bit_bitmap u n : 0 <= u <= BSIZE * 8 -> 0 <= n < BSIZE * 8 -> bit_set (bitmap u) n = (n <? u).
Proof.
  intros Hu Hn. rewrite <- (Z2Nat.id u) in * by lia. set (k := Z.to_nat u) in *. clearbody k. clear u. induction k as [|k IH].
  - change (bitmap (Z.of_nat 0)) with zeroes. rewrite (proj2 (Z.ltb_ge _ _)) by lia. unfold bit_set, zeroes, zblock.
    rewrite lookup_total_replicate_2 by szlia. apply Z.bits_0.
  - assert (E : bitmap (Z.of_nat (S k)) = set_bit (bitmap (Z.of_nat k)) (Z.of_nat k)).
    { unfold bitmap. rewrite Nat2Z.inj_succ, <- Z.add_1_r, seqZ_app by lia. by rewrite foldl_app. }
    rewrite E, bit_set_set, IH by (rewrite ?length_bitmap; unfold BSIZE in *; lia).
    destruct (decide (n = Z.of_nat k)) as [->|Hne]; [rewrite bool_decide_true by done; symmetry; apply Z.ltb_lt; lia|].
    rewrite bool_decide_false by done. cbn [orb]. destruct (Z.ltb_spec n (Z.of_nat k)), (Z.ltb_spec n (Z.of_nat (S k))); lia || done.
Qed.

(** The size of the root directory is a multiple of the block size. *)
Definition size_of (k : nat) (data : list Z) : Z :=
  let n := Z.of_nat (length data) in if decide (k = 0%nat) then (n / BSIZE + 1) * BSIZE else n.

Record image st (F : list (Z * list Z)) : Prop := {
  im_whole : whole st;
  im_super : rd st 1 = put_at 0 (sb_bytes new_sb) zeroes;
  im_log : forall n, 2 <= n < 32 -> rd st n = zeroes;
  im_map : rd st 45 = bitmap st.(freeblock);
  im_fb : st.(freeblock) = nmeta + used_by F;
  im_low : nmeta <= st.(freeblock) <= FSSIZE;
  im_max : (length F < 200)%nat;
  im_file : forall k ty data, F !! k = Some (ty, data) ->
    file_at st (kino st k) data (cdiv (Z.of_nat (length data))) /\ take 12 (kino st k) = hdr ty (size_of k data);
  im_disj : forall k k' j j', (k < length F)%nat -> (k' < length F)%nat -> k <> k' -> 0 <= j <= IND -> 0 <= j' <= IND ->
    mslot st (kino st k) j = mslot st (kino st k') j' -> mslot st (kino st k) j = 0;
  im_fresh : forall n, n = 0 \/ Z.of_nat (length F) < n < 208 -> ino st n = replicate 64 0
}.

Lemma mkfs_finish st ty data F : minv st ((ty, data) :: F) -> st.(freeblock) <= FSSIZE -> Z.of_nat (length data) <= MAXFILE * BSIZE ->
  exists st', (fix_root ROOTINO ;; n <- get freeblock_l ;; mk_balloc n) st = Ok tt st' /\ image st' ((ty, data) :: F).
Proof.
  intros Hm Hfit Hsz. sizes. pose proof (mv_low _ _ Hm) as Hlow. set (F' := (ty, data) :: F) in *.
  destruct (mv_file _ _ Hm 0%nat ty data eq_refl) as [Hf Hh]. set (d1 := put_le 4 8 (size_of 0 data) (kino st 0)).
  assert (Hsz' : 0 <= size_of 0 data < 2 ^ 32) by (unfold size_of; rewrite decide_True by done; szlia).
  assert (Hl1 : length d1 = 64%nat) by (unfold d1; rewrite length_put_le; rewrite (fa_len _ _ _ _ Hf); lia).
  set (st1 := wr_ino 1 d1 st). assert (Hw1 : whole st1) by (apply whole_wr; [apply Hm|lia|done]).
  set (st2 := put_sec 45 (bitmap st.(freeblock)) st1).
  assert (Hrd : forall n, 0 <= n -> n <> 32 -> n <> 45 -> rd st2 n = rd st n).
  { intros n Hn H32 H45. unfold st2. rewrite rd_put by (done || lia). rewrite decide_False by done. apply rd_wr_ino; [apply Hm|lia|lia|].
    intros E. change (iblk 1) with 32 in E. done. }
  assert (Hino : forall n, 0 <= n < 208 -> ino st2 n = if decide (n = 1) then d1 else ino st n).
  { intros n Hn. destruct (IBLOCK_iblk n Hn) as [_ Hb]. assert (E : ino st2 n = ino st1 n); [|rewrite E; apply ino_wr; [apply Hm|lia|lia|done]].
    unfold ino, st2. rewrite rd_put by (done || lia). by rewrite decide_False by lia. }
  assert (Hk0 : kino st2 0 = d1) by (unfold kino; rewrite Hino by lia; reflexivity).
  assert (Hk : forall k, (0 < k < length F')%nat -> kino st2 k = kino st k).
  { intros k Hk. pose proof (mv_max _ _ Hm). unfold kino. rewrite Hino by lia. by rewrite decide_False by lia. }
  assert (Hfr : forall k ty' data', F' !! k = Some (ty', data') -> file_at st2 (kino st k) data' (cdiv (Z.of_nat (length data'))) /\
    forall j, mslot st2 (kino st k) j = mslot st (kino st k) j).
  { intros k ty' data' E. destruct (mv_file _ _ Hm _ _ _ E) as [Hf' _]. split.
    - apply (file_at_frame st); [done|done|]. intros j Hj Hz. pose proof (fa_range _ _ _ _ Hf' j Hj Hz). apply Hrd; lia.
    - apply mslot_same. intros Hz. pose proof (fa_range _ _ _ _ Hf' IND ltac:(lia) Hz) as Hx. rewrite mslot_ind in Hx. apply Hrd; lia. }
  assert (Hsl : forall k j, (k < length F')%nat -> 0 <= j -> mslot st2 (kino st2 k) j = mslot st (kino st k) j).
  { intros k j Hk' Hj. destruct (lookup_lt_is_Some_2 _ _ Hk') as [[ty' data'] E]. destruct (Hfr _ _ _ E) as [_ Hs]. rewrite <- Hs.
    destruct (decide (k = 0%nat)) as [->|Hne]; [|by rewrite Hk by lia]. rewrite Hk0. apply mslot_hdr; [apply Hf|done]. }
  exists st2. split.
  - unfold fix_root. cbn [bind]. rewrite rinode_eq by (apply Hm || (unfold ROOTINO; lia)). cbn [obind].
    change (ino st ROOTINO) with (kino st 0). rewrite (din_size _ ty (Z.of_nat (length data))) by (done || lia). rewrite (xint_id (Z.of_nat _)) by lia.
    assert (Eu : u32 ((Z.of_nat (length data) / BSIZE + 1) * BSIZE) = size_of 0 data) by (unfold u32; apply Z.mod_small; exact Hsz').
    rewrite Eu, (xint_id (size_of 0 data)) by done. fold d1. rewrite winode_eq by (apply Hm || (unfold ROOTINO; lia)). cbn [obind get gets bind].
    change (wr_ino ROOTINO d1 st) with st1. change (view freeblock_l st1) with (freeblock st). unfold mk_balloc. rewrite (proj2 (Z.ltb_lt _ _)) by lia.
    cbn [bind get gets obind]. change (sb_bmapstart (view m_sb_l st1)) with (sb_bmapstart (m_sb st)). rewrite (mv_sb _ _ Hm). change (sb_bmapstart new_sb) with 45.
    rewrite wsect_eq by (done || lia). done.
  - split; change (freeblock st2) with (freeblock st).
    + apply whole_put; [done|lia|apply length_bitmap].
    + rewrite Hrd by lia. apply (mv_super _ _ Hm).
    + intros n Hn. rewrite Hrd by lia. by apply (mv_log _ _ Hm).
    + unfold st2. rewrite rd_put by (done || lia). by rewrite decide_True.
    + apply (mv_fb _ _ Hm).
    + done.
    + apply (mv_max _ _ Hm).
    + intros k ty' data' E. pose proof (lookup_lt_Some _ _ _ E) as Hlt. destruct (Hfr _ _ _ E) as [Hf' _]. destruct (mv_file _ _ Hm _ _ _ E) as [_ Hh'].
      destruct (decide (k = 0%nat)) as [->|Hne]; [|rewrite Hk by lia; split; [done|]; by destruct k].
      injection E as <- <-. rewrite Hk0. split; [by apply file_at_hdr|]. by apply (hdr_size _ _ (Z.of_nat (length data))); [apply Hf|].
    + intros k k' j j' Hk' Hk'' Hne Hj Hj'. rewrite !Hsl by lia. by apply (mv_disj _ _ Hm).
    + intros n Hn. assert (1 <= length F')%nat by (cbn; lia). rewrite Hino by lia. rewrite decide_False by lia. by apply (mv_fresh _ _ Hm).
Qed.

Lemma mkfs_image `{Host} argv : (2 <= length argv)%nat -> creates (nth 1 argv []) = true -> let paths := drop 2 argv in
  (length paths <= 198)%nat -> Forall readable paths -> nmeta + used_by (tree (host_file <$> paths)) <= FSSIZE ->
  exists st, mkfs_main argv mkst0 = Ok tt st /\ image st (tree (host_file <$> paths)).
Proof.
  intros Hl Hc paths Hp Hr Hroom. destruct mkfs_init_eq as (st1 & E1 & Hm1).
  destruct (add_files_eq paths st1 [] Hm1 ltac:(cbn; lia) Hr Hroom) as (st2 & E2 & Hm2). cbn [app] in Hm2.
  assert (Hfit : st2.(freeblock) <= FSSIZE) by (rewrite (mv_fb _ _ Hm2); done).
  destruct (mkfs_finish st2 _ _ _ Hm2 Hfit) as (st3 & E3 & Hi); [rewrite length_entries, length_fmap; sizes; lia|]. exists st3. split; [|done].
  unfold mkfs_main. rewrite (proj2 (Nat.ltb_ge _ _)) by lia. rewrite Hc. cbn [negb bind]. rewrite E1. cbn [obind bind]. fold paths. rewrite E2. exact E3.
Qed.

(** ** What the kernel sees *)

Lemma dec32_at n : forall l k, (k < n)%nat -> dec32 n l !!! k = le_val (take 4 (drop (4 * k) l)).
Proof.
  induction n as [|n IH]; intros l k Hk; [lia|]. cbn [dec32]. destruct k as [|k]; [done|]. cbn [lookup_total list_lookup_total].
  change (dec32 n (drop 4 l) !!! k = le_val (take 4 (drop (4 * S k) l))). rewrite IH by lia. rewrite drop_drop. do 3 f_equal. lia.
Qed.

Section View.
Context {D : Type} `{DiskLaws D} `{Patience}.
Implicit Types (s : fsst D) (i : fin 50).

(** The file system of the kernel on the image: the superblock as [readsb]
    reads it, the log where it says, and no block changed yet. *)
Record boots s st : Prop := {
  bo_sb : s.(sb) = get_sb (rd st 1);
  bo_start : lg_start s.(f_l) = s.(sb).(sb_logstart);
  bo_size : lg_size s.(f_l) = s.(sb).(sb_nlog);
  bo_view : forall n, 0 <= n < FSSIZE -> fv s n = rd st n
}.

(** Slot [i] of the inode table after [iget] and [ilock] of inode [inum]. *)
Record loaded s i (inum : Z) : Prop := {
  ld_dev : (fino s i).(i_dev) = ROOTDEV;
  ld_inum : (fino s i).(i_inum) = inum;
  ld_fields : fino s i = get_dinode (dinode_off inum) (fv s (IBLOCK inum s.(sb))) (fino s i)
}.

Context (s : fsst D) (st : mkst) (F : list (Z * list Z)) (Hb : boots s st) (Hi : image st F).

Lemma view_sb : s.(sb) = new_sb.
Proof. rewrite (bo_sb _ _ Hb), (im_super _ _ Hi). vm_compute. reflexivity. Qed.

Lemma view_data n : 32 <= n < FSSIZE -> data_block s.(f_l) n.
Proof.
  intros Hn. unfold data_block, in_disk, in_log. rewrite (bo_start _ _ Hb), (bo_size _ _ Hb), view_sb.
  change (sb_logstart new_sb) with 2. change (sb_nlog new_sb) with 30. lia.
Qed.

Lemma view_used n : 0 <= n < FSSIZE -> used s n = (n <? st.(freeblock)).
Proof.
  intros Hn. sizes. pose proof (im_low _ _ Hi). unfold used. rewrite view_sb, (same_BBLOCK _ n 0) by lia. change (BBLOCK 0 new_sb) with 45.
  rewrite (bo_view _ _ Hb), (im_map _ _ Hi) by lia. rewrite Z.mod_small by (unfold BPB; lia). apply bit_bitmap; lia.
Qed.

Lemma view_block n : nmeta <= n < FSSIZE -> file_block s n.
Proof.
  intros Hn. sizes. split; rewrite ?view_sb.
  - change (sb_size new_sb) with 2000. lia.
  - apply view_data. lia.
  - change (BBLOCK 0 new_sb) with 45. lia.
  - change (sb_ninodes new_sb) with 200. intros k Hk. destruct (IBLOCK_iblk k ltac:(lia)) as [-> ?]. lia.
Qed.

Lemma view_layout : layout s.
Proof.
  sizes. pose proof (im_low _ _ Hi). split; rewrite ?view_sb; change (sb_size new_sb) with 2000; change (sb_ninodes new_sb) with 200; change (BBLOCK 0 new_sb) with 45.
  - lia.
  - rewrite view_used by lia. apply Z.ltb_lt. lia.
  - apply view_data. lia.
  - intros k Hk. destruct (IBLOCK_iblk k ltac:(lia)) as [-> ?]. split; [apply view_data|]; lia.
  - intros n Hn Hu. rewrite view_used in Hu by lia. apply Z.ltb_ge in Hu. apply view_block. lia.
Qed.

Section Inode.
Context (i : fin 50) (k : nat) (ty : Z) (data : list Z) (Hk : F !! k = Some (ty, data)) (Hld : loaded s i (Z.of_nat k + 1)).

Lemma inum_ok : 0 <= Z.of_nat k + 1 < 200.
Proof. pose proof (lookup_lt_Some _ _ _ Hk). pose proof (im_max _ _ Hi). lia. Qed.

Lemma view_ino off : (off < 64)%nat -> drop (dinode_off (Z.of_nat k + 1) + off) (fv s (IBLOCK (Z.of_nat k + 1) s.(sb))) =
  drop (dinode_off (Z.of_nat k + 1) + off) (rd st (iblk (Z.of_nat k + 1))).
Proof.
  intros Ho. pose proof inum_ok. rewrite view_sb. destruct (IBLOCK_iblk (Z.of_nat k + 1) ltac:(lia)) as [-> ?]. rewrite (bo_view _ _ Hb); [done|].
  sizes. lia.
Qed.

(** The fields and the addresses of the inode are those of the dinode. *)
Lemma view_field w off : (off + w <= 64)%nat -> get_le w (fv s (IBLOCK (Z.of_nat k + 1) s.(sb))) (dinode_off (Z.of_nat k + 1) + off) = get_le w (kino st k) off.
Proof.
  intros Ho. unfold get_le, kino, ino. destruct w as [|w]; [done|]. rewrite view_ino by lia. rewrite <- drop_drop.
  generalize (drop (dinode_off (Z.of_nat k + 1)) (rd st (iblk (Z.of_nat k + 1)))). intros l. f_equal. rewrite !take_drop_commute, take_take. f_equal. f_equal. lia.
Qed.

Lemma view_file : file_at st (kino st k) data (cdiv (Z.of_nat (length data))) /\ take 12 (kino st k) = hdr ty (size_of k data).
Proof. by apply (im_file _ _ Hi). Qed.

Lemma size_bound : 0 <= size_of k data < 2 ^ 32 /\ Z.of_nat (length data) <= size_of k data.
Proof.
  destruct (fa_nb _ _ _ _ (proj1 view_file)) as [Hn Hl]. unfold size_of, cdiv in *. destruct (decide (k = 0%nat)); szlia.
Qed.

Lemma view_size : i_size (fino s i) = size_of k data.
Proof.
  transitivity (get_le 4 (fv s (IBLOCK (Z.of_nat k + 1) s.(sb))) (dinode_off (Z.of_nat k + 1) + 8)); [rewrite (ld_fields _ _ _ Hld) at 1; done|].
  rewrite view_field by lia. apply (din_size _ ty); [apply size_bound|apply view_file].
Qed.

Lemma view_type : 0 <= ty < 2 ^ 15 -> i_type (fino s i) = ty /\ i_nlink (fino s i) = 1.
Proof.
  intros Ht. destruct view_file as [Hf Hh].
  assert (Hx : forall o, (o + 2 <= 12)%nat -> get_le 2 (kino st k) o = le_val (take 2 (drop o (hdr ty (size_of k data))))).
  { intros o Ho. rewrite <- Hh. unfold get_le. f_equal. rewrite !take_drop_commute, take_take. f_equal. f_equal. lia. }
  pose proof (view_field 2 0 ltac:(lia)) as E0. rewrite Nat.add_0_r in E0. pose proof (view_field 2 6 ltac:(lia)) as E6. split.
  - transitivity (s16 (get_le 2 (fv s (IBLOCK (Z.of_nat k + 1) s.(sb))) (dinode_off (Z.of_nat k + 1)))); [rewrite (ld_fields _ _ _ Hld) at 1; done|].
    rewrite E0, Hx by lia. change (take 2 (drop 0 (hdr ty (size_of k data)))) with (le_bytes 2 ty). rewrite le_val_le_bytes. apply s16_mod. lia.
  - transitivity (s16 (get_le 2 (fv s (IBLOCK (Z.of_nat k + 1) s.(sb))) (dinode_off (Z.of_nat k + 1) + 6))); [rewrite (ld_fields _ _ _ Hld) at 1; done|].
    rewrite E6, Hx by lia. reflexivity.
Qed.

Lemma view_addrs j : (j < 13)%nat -> i_addrs (fino s i) !!! j = da (kino st k) (Z.of_nat j).
Proof.
  intros Hj. transitivity (dec32 13 (take 52 (drop (dinode_off (Z.of_nat k + 1) + 12) (fv s (IBLOCK (Z.of_nat k + 1) s.(sb))))) !!! j);
    [rewrite (ld_fields _ _ _ Hld) at 1; done|].
  rewrite dec32_at by done. unfold da. rewrite <- view_field by lia. unfold get_le.
  replace (dinode_off (Z.of_nat k + 1) + Z.to_nat (12 + 4 * Z.of_nat j))%nat with (dinode_off (Z.of_nat k + 1) + 12 + 4 * j)%nat by lia.
  rewrite <- (drop_drop _ (4 * j) (dinode_off _ + 12)). generalize (drop (dinode_off (Z.of_nat k + 1) + 12) (fv s (IBLOCK (Z.of_nat k + 1) (sb s)))). intros l.
  f_equal. rewrite !take_drop_commute, take_take. f_equal. f_equal. lia.
Qed.

Lemma view_slot j : 0 <= j <= IND -> slot s i j = mslot st (kino st k) j.
Proof.
  intros Hj. sizes. pose proof (view_addrs 12 ltac:(lia)) as E12. change (Z.of_nat 12) with NDIRECT in E12. unfold slot, mslot. cbv zeta. rewrite E12.
  destruct (Z.ltb_spec j NDIRECT); [rewrite view_addrs by lia; by rewrite Z2Nat.id by lia|]. destruct (Z.ltb_spec j MAXFILE); [|done].
  destruct (Z.eqb_spec (da (kino st k) NDIRECT) 0) as [|Hz]; [done|]. rewrite (bo_view _ _ Hb); [done|].
  pose proof (fa_range _ _ _ _ (proj1 view_file) IND ltac:(lia) Hz) as Hr. rewrite mslot_ind in Hr. pose proof (im_low _ _ Hi). lia.
Qed.

Lemma view_iok : iok s i.
Proof.
  pose proof view_file as [Hf _]. pose proof inum_ok. pose proof (im_low _ _ Hi). sizes. split.
  - apply (ld_dev _ _ _ Hld).
  - rewrite (ld_inum _ _ _ Hld), view_sb. change (sb_ninodes new_sb) with 200. lia.
  - rewrite (ld_fields _ _ _ Hld). reflexivity.
  - intros j Hj. rewrite view_slot by done. intros Hz. pose proof (fa_range _ _ _ _ Hf j Hj Hz). split; [apply view_block; lia|].
    rewrite view_used by lia. apply Z.ltb_lt. lia.
  - intros j j' Hj Hj'. rewrite !view_slot by done. by apply Hf.
Qed.

Lemma view_solid : solid s i 0 (Z.of_nat (length data)).
Proof.
  intros o Ho. pose proof view_file as [Hf _]. destruct (fa_nb _ _ _ _ Hf) as [Hn Hl]. rewrite view_slot by szlia. apply Hf; unfold cdiv in *; szlia.
Qed.

Lemma view_bytes : bytes (content s i) 0 (Z.of_nat (length data)) = data.
Proof.
  pose proof view_file as [Hf _]. destruct (fa_nb _ _ _ _ Hf) as [Hn Hl]. pose proof (im_low _ _ Hi) as Hlow. sizes.
  apply list_eq. intros o. unfold bytes. rewrite list_lookup_fmap. destruct (decide (o < length data)%nat) as [Ho|Ho].
  - rewrite lookup_seqZ_lt by lia. cbn [fmap option_fmap option_map]. rewrite <- (fa_bytes _ _ _ _ Hf) by done. rewrite Z.add_0_l. unfold content. cbv zeta.
    pose proof (view_solid (Z.of_nat o) ltac:(lia)) as Hz. rewrite (proj2 (Z.eqb_neq _ _) Hz). rewrite view_slot in * by szlia.
    pose proof (fa_range _ _ _ _ Hf (Z.of_nat o / BSIZE) ltac:(szlia) Hz) as Hr. rewrite (bo_view _ _ Hb) by lia. symmetry. apply list_lookup_lookup_total_lt.
    rewrite (wh_sec _ (im_whole _ _ Hi)) by lia. szlia.
  - rewrite lookup_seqZ_ge by lia. symmetry. apply lookup_ge_None_2. lia.
Qed.
End Inode.
End View.

Lemma tree_lookup fs k ty data : tree fs !! k = Some (ty, data) -> k = 0%nat /\ data = entries fs \/ ty = T_FILE /\ k <> 0%nat.
Proof.
  destruct k as [|k]; [intros [= <- <-]; by left|]. intros E. right. split; [|done]. change (((fun f => (T_FILE, f.2)) <$> fs) !! k = Some (ty, data)) in E.
  rewrite list_lookup_fmap in E. destruct (fs !! k); [|done]. by injection E as <- _.
Qed.

(** With a directory that fills its blocks, the size of the root goes one block
    beyond the last one it has. *)
Lemma root_hole st fs m : image st (tree fs) -> (length fs + 2 = 64 * m)%nat ->
  mslot st (kino st 0) (Z.of_nat m) = 0 /\ size_of 0 (entries fs) = (Z.of_nat m + 1) * BSIZE.
Proof.
  intros Hi Hm. destruct (im_file _ _ Hi 0%nat _ _ (tree_dir fs)) as [Hf _]. pose proof (length_entries fs) as Hl. pose proof (im_max _ _ Hi) as Hx.
  rewrite length_tree in Hx. sizes. split.
  - destruct (decide (mslot st (kino st 0) (Z.of_nat m) = 0)) as [|E]; [done|]. apply (fa_slot _ _ _ _ Hf) in E; [|lia]. unfold cdiv in E. szlia.
  - unfold size_of. rewrite decide_True by done. szlia.
Qed.

(** C5: mkfs makes the file system that the kernel's theorems ask for.  When the
    files of the command line can be read, have no slash in their names and fit,
    mkfs ends and its image holds them: a kernel that boots on the image finds
    the layout of the superblock, the inode blocks and the bitmap ([layout]);
    inode 1 is the root directory, with an entry for [.] and [..] and one for
    each file under its short name, and the following inodes are the files; the
    blocks of each are marked as used and shared with no other slot ([iok]),
    and [readi] reads the bytes of the file.  The log is empty. *)
Theorem mkfs_spec `{Host} {D : Type} `{DiskLaws D} `{Patience} argv :
  (2 <= length argv)%nat -> creates (nth 1 argv []) = true ->
  let paths := drop 2 argv in
  let F := tree (host_file <$> paths) in
  (length paths <= 198)%nat -> Forall readable paths -> nmeta + used_by F <= FSSIZE ->
  exists st, mkfs_main argv mkst0 = Ok tt st /\ (forall n, 2 <= n < 2 + nlog -> rd st n = zeroes) /\
    forall s : fsst D, boots s st -> layout s /\
      forall k ty data i, F !! k = Some (ty, data) -> loaded s i (Z.of_nat k + 1) ->
        iok s i /\ i_type (fino s i) = ty /\ i_nlink (fino s i) = 1 /\ i_size (fino s i) = size_of k data /\
        forall p bs, fsinv p s [] ∅ -> exists s', readi i (KernBuf bs) 0 (Z.of_nat (length data)) s = Ok (Z.of_nat (length data), data) s'.
Proof.
  intros Hl Hc paths F Hp Hr Hroom. destruct (mkfs_image argv Hl Hc Hp Hr Hroom) as (st & E & Hi). fold paths F in Hi.
  exists st. split; [done|]. split; [apply (im_log _ _ Hi)|]. intros s Hb. split; [by eapply view_layout|]. intros k ty data i Hk Hld.
  assert (Ht : 0 <= ty < 2 ^ 15) by (destruct k as [|k]; [injection Hk as <- _; done|]; destruct (tree_lookup _ _ _ _ Hk) as [[? _]|[-> _]]; done).
  pose proof (view_type s st F Hb Hi i k ty data Hk Hld Ht) as [E1 E2]. pose proof (view_size s st F Hb Hi i k ty data Hk Hld) as E3.
  pose proof (view_iok s st F Hb Hi i k ty data Hk Hld) as Hok. pose proof (view_file st F Hi k ty data Hk) as [Hf _].
  split_and!; try done. intros p bs Hfs. destruct (fa_nb _ _ _ _ Hf) as [Hn Hlen]. sizes.
  assert (Hsz : Z.of_nat (length data) <= size_of k data <= MAXFILE * BSIZE).
  { unfold size_of. destruct (decide (k = 0%nat)) as [->|]; [|unfold cdiv in *; szlia]. destruct (tree_lookup _ _ _ _ Hk) as [[_ ->]|[_ ?]]; [|done].
    rewrite length_entries, length_fmap. szlia. }
  destruct (readi_reads p i bs 0 (Z.of_nat (length data)) s [] Hfs Hok) as (s' & Er & _); try (cbn; lia).
  - rewrite decide_True by lia. rewrite Z.min_l by lia. by eapply view_solid.
  - exists s'. rewrite Er, decide_True by lia. rewrite Z.min_l by lia. by erewrite view_bytes.
Qed.

(** ** Examples *)

#[local] Instance demo_patience : Patience := 2%nat.

(** A kernel on the image, with inode [inum] in its first slot. *)
Definition image_disk st : ideal_disk := IdealDisk (map_seqZ 0 st.(img)) [].
Definition kernel_on st (inum : Z) : fsst ideal_disk :=
  put (ino_l 0%fin) (get_dinode (dinode_off inum) (rd st (iblk inum)) (Inode ROOTDEV inum 1 (initsleeplock "inode") 1 0 0 0 0 0 [])) (fs_demo (image_disk st)).

Lemma image_disk_get st n : whole st -> 0 <= n < FSSIZE -> id_get (image_disk st) n = rd st n.
Proof.
  intros Hw Hn. unfold id_get, image_disk, rd. cbn [id_blocks]. rewrite lookup_map_seqZ_0 by lia.
  destruct (lookup_lt_is_Some_2 st.(img) (Z.to_nat n)) as [b Hb]; [rewrite (wh_len _ Hw); lia|]. by rewrite Hb, (list_lookup_total_correct _ _ _ Hb).
Qed.

Lemma kernel_on_inv st inum : whole st -> fsinv 2%fin (kernel_on st inum) [] ∅.
Proof.
  intros Hw. apply fsinv_ino, fs_demo_inv. intros n b Hn. apply lookup_map_seqZ_Some in Hn as [Hn0 Hn]. rewrite Z.sub_0_r in Hn.
  pose proof (lookup_lt_Some _ _ _ Hn) as Hlt. rewrite (wh_len _ Hw) in Hlt. pose proof (wh_sec _ Hw n ltac:(lia)) as Hl. unfold rd in Hl.
  by rewrite (list_lookup_total_correct _ _ _ Hn) in Hl.
Qed.

Lemma kernel_on_view st inum n : whole st -> 0 <= n < FSSIZE -> fv (kernel_on st inum) n = rd st n.
Proof.
  intros Hw Hn. rewrite (fi_clean _ _ _ _ (kernel_on_inv st inum Hw)); [|by apply not_elem_of_nil|done]. by apply (image_disk_get st n).
Qed.

Lemma kernel_on_boots st F inum : image st F -> boots (kernel_on st inum) st.
Proof.
  intros Hi. assert (E : get_sb (rd st 1) = mkfs_sb) by (rewrite (im_super _ _ Hi); vm_compute; reflexivity).
  split; [symmetry; exact E|done|done|]. intros n Hn. apply kernel_on_view; [apply Hi|done].
Qed.

Lemma kernel_on_loaded st inum : whole st -> 0 <= inum < 200 -> loaded (kernel_on st inum) 0%fin inum.
Proof.
  intros Hw Hi. split; [done|done|]. change (sb (kernel_on st inum)) with new_sb.
  destruct (IBLOCK_iblk inum ltac:(lia)) as [E Hb]. rewrite E, kernel_on_view by (done || sizes; lia). reflexivity.
Qed.

(** A host with one program. *)
#[local] Instance demo_host : Host := {
  creates := fun _ => true;
  host_reads := fun p => if bool_decide (p = str "user/_echo") then Some [[104; 105]] else None
}.
Definition demo_argv : list (list Z) := [str "mkfs"; str "fs.img"; str "user/_echo"].

(** The kernel reads the program from inode 2. *)
Lemma mkfs_spec_witness : exists st s', mkfs_main demo_argv mkst0 = Ok tt st /\
  readi 0%fin (KernBuf []) 0 2 (kernel_on st 2) = Ok (2, [104; 105]) s'.
Proof.
  assert (Hr : Forall readable (drop 2 demo_argv)).
  { apply Forall_cons; split; [|apply Forall_nil; exact I]. split; [vm_compute; congruence|apply (bool_decide_unpack _); vm_compute; exact I|vm_compute; congruence]. }
  destruct (mkfs_spec (D := ideal_disk) demo_argv) as (st & E & _ & Hs); [cbn; lia|done|cbn; lia|exact Hr|vm_compute; congruence|].
  destruct (mkfs_image demo_argv) as (st' & E' & Hi); [cbn; lia|done|cbn; lia|exact Hr|vm_compute; congruence|]. rewrite E in E'. injection E' as <-.
  destruct (Hs (kernel_on st 2)) as [_ Hf]; [by eapply kernel_on_boots|].
  destruct (Hf 1%nat T_FILE [104; 105] 0%fin) as (_ & _ & _ & _ & Hrd); [done|apply kernel_on_loaded; [apply Hi|lia]|].
  destruct (Hrd 2%fin [] (kernel_on_inv st 2 (im_whole _ _ Hi))) as [s' Er]. exists st, s'. split; [exact E|exact Er].
Defined.
